(* ===== verification/_CoqProject ===== *)
-Q . S2P
Prelude.v
Mem.v
CString.v
Mmu.v
Mp.v
Kalloc.v
Vm.v
VmSpace.v
VmUser.v
Lock.v
Pipe.v
Ide.v
BlockStore.v
Bytes.v
Bio.v
Log.v
LogSteps.v
LogSys.v
Proc.v
ForkSteps.v
ProcSys.v
Uaccess.v
Fs.v
FsSys.v
FsTx.v
FsFile.v
FsDir.v
FsTrunc.v
Mkfs.v
FsPath.v
File.v
Exec.v
ExecSys.v
Sysfile.v
Syscall.v
FileSys.v
KernSys.v
Console.v
Kbd.v
Ulib.v
Umalloc.v
Grep.v
UserText.v
Sh.v
LabSched.v
LabStride.v
LabLazy.v
LabIndirect.v
LabStats.v
LabShebang.v
