(* ===== verification/Prelude.v ===== *)
(** * A verification library for the learn-xv6 kernel

    xv6 is a small Unix for 32-bit x86 multiprocessors.  This library models the kernel and part of
    its user programs (src/code/xv6-public), the program that builds its disk (mkfs.c) and some of the
    exercises of the course (src/code/05K ... 10K and src/code/opt), and proves what makes them work.

    ** The program and the files of the library

    Operations are functions of a state, written in the monad [M] below: [Ok] with a result and a new
    state, [Panicked] where the code calls [panic] (or fails an assertion), [Slept] where it goes to
    sleep on a channel, to be run again when it is woken up.  A spin lock that protects a structure
    makes the code it covers one step, and code that runs without it while others may run, such as
    commit and the middle of fork, is cut into steps; steps of several processes or CPUs are
    interleaved by inductive relations in the files named ...Sys and in [Lock], [Pipe], [Ide],
    [Console] and [Umalloc].

    - [Prelude] machine words, the monad, shared tactics and lemmas; [Mem] byte memory; [Bytes]
      words in the bytes of a disk block.
    - [CString] string.c; [Mmu] the address macros of mmu.h and memlayout.h; [Mp] mp.c, the tables of
      processors.
    - [Kalloc] kalloc.c, the free list in the free pages; [Vm] vm.c, page tables in the same memory;
      [VmSpace] address spaces: what allocuvm, deallocuvm, copyuvm and freevm do to them;
      [VmUser] the memory of a process: copyout, clearpteu, growing.
    - [Lock] spinlock.c and sleeplock.c; [Pipe] pipe.c.
    - [Ide] ide.c and memide.c with a model of the drive; [BlockStore] the interface the log sees (a
      class of operations with laws); [Bio] bio.c, which implements it; [Log] log.c, [LogSteps] its
      commit step by step and [LogSys] its operations interleaved and interrupted by crashes.
    - [Fs] fs.c, every function; [FsSys] inodes and paths; [FsTx] operations inside a transaction;
      [FsFile] the contents of files (bmap, readi, writei); [FsDir] directories (dirlookup, dirlink);
      [FsTrunc] freeing (bfree, itrunc); [Mkfs] mkfs.c;
      [FsPath] path lookup (namex).
    - [Proc] proc.c, [ForkSteps] fork step by step and [ProcSys] processes and schedulers interleaved; [Uaccess] the argument
      functions of syscall.c; [File] file.c and pipealloc; [Exec] exec.c and [ExecSys] the
      programs it loads; [Sysfile] sysfile.c;
      [Syscall] syscall.c, sysproc.c and trap.c; [FileSys] and [KernSys] system calls in sequence.
    - [Console] console.c and uartputc; [Kbd] kbd.c and kbd.h.
    - [Ulib] ulib.c and printf.c; [Umalloc] umalloc.c; [Grep] grep.c; [Sh] the parser of sh.c;
      [UserText] wc.c, and head.c, tail.c and cmp.c of exercise 01U.
    - [LabSched] the policies of exercises 05K and 06K; [LabStride] the heap of the stride scheduler;
      [LabLazy] lazy allocation (08K); [LabIndirect] larger files (10K); [LabStats] the
      statistics of the disk (09K); [LabShebang] exec of scripts (07K).

    ** What the theorems show

    - Durability.  A commit is atomic under crashes at any disk write; with operations and the steps
      of commits interleaved in any way, the log is never over-reserved and a crash at any moment
      recovers what the last commit wrote (LogSys).  The buffer cache implements the block store the
      log is written against (Bio); the disk driver completes requests in the order they were
      submitted (Ide).
    - Files.  mkfs leaves a consistent file system whose files the kernel reads back (Mkfs); what
      writei stores readi returns (FsFile); what dirlink adds dirlookup finds (FsDir); itrunc gives
      back exactly the blocks of a file (FsTrunc); path lookup ends where the directories
      lead and releases every inode on the way (FsPath).
    - Memory.  Pages are never handed out twice (Kalloc); copyuvm copies an address space, allocuvm
      adds zeroed pages, freevm returns all of it (VmSpace); malloc and free keep the blocks of a
      program disjoint, and what malloc does to sizes that wrap around (Umalloc); user pointers are checked (Uaccess).
    - Processes.  The process table stays consistent, also while forks are under way, zombies are
      reaped, the scheduler is fair and fork makes a copy (ProcSys); exec builds the image the file and the arguments ask for, or
      changes nothing (ExecSys); reference counts of open files are exact under any sequence of
      system calls (KernSys).
    - Start-up.  The processors of the machine are read from its tables, and an entry of unknown type
      makes the loop run for ever (Mp).
    - Synchronisation.  Locks exclude (Lock); pipes are first-in first-out and lose no wakeup (Pipe).
    - Users.  The console is a line-editing terminal (Console); the keyboard decoder is an
      American keyboard (Kbd); grep's
      matcher decides its language and grep prints the matching lines (Grep); printed commands parse
      back (Sh); wc counts, head and tail print the parts of files they are asked for, cmp finds the
      first difference (UserText).
    - Exercises.  The policies pick what they say (LabSched), the stride heap is a priority queue
      (LabStride), page faults are served (LabLazy), the indirection schemes address every block
      (LabIndirect), the statistics are those of the free map (LabStats), a script runs its
      interpreter (LabShebang); some theorems there and elsewhere state exactly how code fails.

    ** Bounds and fuel

    Words are 32 bits wide and wrap around; counters that wrap in the code wrap here.  Loops that do
    not recurse on data take fuel: the number of blocks that a transfer can touch plus the final test
    ([io_fuel]), the number of entries of a directory ([dir_fuel]), map blocks of the disk, bytes of
    a path, page-table entries below the size of a process, slots of a table.  The theorems show that
    the fuel is enough, since they give a result and running out of fuel is a panic.  The disk has
    FSSIZE = 1000 blocks, so one block holds the free map, as in the code.

    ** Not modelled

    Boot code and assembly (bootasm.S, entry.S, swtch.S, trapasm.S, vectors): a context switch is one
    step.  Interrupt controllers (lapic.c, ioapic.c, picirq.c),
    seginit, tvinit and idtinit: device registers and constant hardware tables.  Debugging output
    (procdump, getcallerpcs) and the names of locks.  Memory is sequentially consistent.  System
    calls of different processes interleave at system-call granularity in [KernSys]; the finer
    interleavings are treated in the component that needs them.  Of the user programs, those that
    only make system calls (cat, ls, init and the like) and the part of the shell that runs commands;
    the test programs; the other exercises, which are variants of the stock files. *)
From Stdlib Require Export ZArith Lia FunctionalExtensionality.
From stdpp Require Export base numbers list gmap strings option.

(** ** Machine integers

    The kernel is compiled for 32-bit x86: [uint] is an unsigned 32-bit word, [int] the
    two's-complement reading of the same word, [uchar]/[char] 8-bit and [ushort]/[short] 16-bit
    quantities.  A word is a [Z]; the wrap-around of the C operators is written out. *)
Open Scope Z_scope.

Definition u32 (x : Z) : Z := x mod 2 ^ 32.
Definition u16 (x : Z) : Z := x mod 2 ^ 16.
Definition u8 (x : Z) : Z := x mod 2 ^ 8.
Definition s32 (x : Z) : Z := let y := u32 x in if y <? 2 ^ 31 then y else y - 2 ^ 32.
Definition s16 (x : Z) : Z := let y := u16 x in if y <? 2 ^ 15 then y else y - 2 ^ 16.

Declare Scope word_scope.
Delimit Scope word_scope with word.
Notation "x +u y" := (u32 (x + y)) (at level 50, left associativity) : word_scope.
Notation "x -u y" := (u32 (x - y)) (at level 50, left associativity) : word_scope.
Notation "x *u y" := (u32 (x * y)) (at level 40, left associativity) : word_scope.
Open Scope word_scope.

(** Turns a goal about words into linear arithmetic with explicit quotients. *)
Ltac word :=
  unfold u32, u16, u8, s32, s16 in *;
  change (2 ^ 32) with 4294967296 in *; change (2 ^ 31) with 2147483648 in *;
  change (2 ^ 16) with 65536 in *; change (2 ^ 15) with 32768 in *;
  change (2 ^ 8) with 256 in *;
  repeat match goal with
         | |- context [if ?b then _ else _] => destruct b eqn:?
         | H : context [if ?b then _ else _] |- _ => destruct b eqn:?
         end;
  Z.to_euclidean_division_equations; lia.

(** Reads boolean tests of the code as the propositions they decide. *)
Ltac reflect_bool :=
  repeat match goal with
         | H : (_ && _)%bool = true |- _ => apply andb_prop in H as [? ?]
         | H : (_ || _)%bool = false |- _ => apply orb_false_elim in H as [? ?]
         | H : negb _ = true |- _ => apply negb_true_iff in H
         | H : negb _ = false |- _ => apply negb_false_iff in H
         | H : (_ <? _) = true |- _ => apply Z.ltb_lt in H
         | H : (_ <? _) = false |- _ => apply Z.ltb_ge in H
         | H : (_ <=? _) = true |- _ => apply Z.leb_le in H
         | H : (_ <=? _) = false |- _ => apply Z.leb_gt in H
         | H : (_ =? _) = true |- _ => apply Z.eqb_eq in H
         | H : (_ =? _) = false |- _ => apply Z.eqb_neq in H
         end.

Ltac zcase b := destruct b eqn:?; reflect_bool.

Create HintDb xv6 discriminated.

Lemma s32_small (x : Z) : - 2 ^ 31 <= x < 2 ^ 31 -> s32 x = x.
Proof. intros. unfold s32. cbv zeta. word. Qed.

Lemma u32_range (x : Z) : 0 <= u32 x < 2 ^ 32.
Proof. unfold u32. apply Z.mod_pos_bound. lia. Qed.

Lemma u32_small (x : Z) : 0 <= x < 2 ^ 32 -> u32 x = x.
Proof. apply Z.mod_small. Qed.

Lemma u32_idemp (x : Z) : u32 (u32 x) = u32 x.
Proof. apply u32_small, u32_range. Qed.

Lemma u32_add_l (x y : Z) : u32 (u32 x + y) = u32 (x + y).
Proof. unfold u32. apply Zplus_mod_idemp_l. Qed.

Lemma u32_add_r (x y : Z) : u32 (x + u32 y) = u32 (x + y).
Proof. unfold u32. apply Zplus_mod_idemp_r. Qed.

Lemma u32_sub_l (x y : Z) : u32 (u32 x - y) = u32 (x - y).
Proof. unfold u32. apply Zminus_mod_idemp_l. Qed.

Lemma u32_sub_r (x y : Z) : u32 (x - u32 y) = u32 (x - y).
Proof. unfold u32. apply Zminus_mod_idemp_r. Qed.

(** A power of two up to [2 ^ 32] divides the word modulus, so reducing an index modulo the size
    of a ring buffer commutes with the wrap-around of the counter. *)
Lemma u32_mod_pow2 (x k : Z) : 0 <= k <= 32 -> u32 x mod 2 ^ k = x mod 2 ^ k.
Proof.
  intros Hk. unfold u32. apply Z.mod_mod_divide.
  exists (2 ^ (32 - k)). rewrite <- Z.pow_add_r by lia. f_equal. lia.
Qed.

#[export] Hint Resolve u32_range : xv6.

(** ** Outcomes

    A kernel routine runs in a state [S] and either returns a value ([Ok]), calls [panic]
    ([Panicked]) or goes to sleep on a channel ([Slept]), giving up the processor with the state
    it leaves behind.  What happens to a sleeper is said by the step relations of the components
    that have one. *)
Inductive chan :=
| ChProc (i : nat)           (* a process slot: wait() sleeps on its own proc *)
| ChLog                      (* &log *)
| ChBuf (i : nat)            (* a buf: iderw() *)
| ChLock (n : Z)             (* a sleeplock *)
| ChPipeRead (p : Z)         (* &p->nread *)
| ChPipeWrite (p : Z)        (* &p->nwrite *)
| ChTicks                    (* &ticks *)
| ChInput                    (* &input.r *)
| ChNone.                    (* the null channel *)

#[export] Instance chan_eq_dec : EqDecision chan.
Proof. solve_decision. Defined.

Inductive outcome (S A : Type) :=
| Ok (a : A) (s : S)
| Panicked (msg : string)
| Slept (c : chan) (s : S).
Arguments Ok {S A} a s.
Arguments Panicked {S A} msg.
Arguments Slept {S A} c s.

Definition M (S A : Type) : Type := S -> outcome S A.

#[export] Instance M_ret S : MRet (M S) := fun A a s => Ok a s.
#[export] Instance M_bind S : MBind (M S) := fun A B f m s =>
  match m s with
  | Ok a s' => f a s'
  | Panicked msg => Panicked msg
  | Slept c s' => Slept c s'
  end.

Definition panic {S A} (msg : string) : M S A := fun _ => Panicked msg.
Definition sleep_on {S A} (c : chan) : M S A := fun s => Slept c s.
Definition gets {S A} (f : S -> A) : M S A := fun s => Ok (f s) s.
Definition modify {S} (f : S -> S) : M S unit := fun s => Ok tt (f s).

(** Runs a routine of a component inside a larger state that contains the component's. *)
Definition zoom {S T A} (get : T -> S) (put : S -> T -> T) (m : M S A) : M T A := fun t =>
  match m (get t) with
  | Ok a s' => Ok a (put s' t)
  | Panicked msg => Panicked msg
  | Slept c s' => Slept c (put s' t)
  end.

(** [wp m Q s]: run from [s], [m] returns, and its result and final state satisfy [Q]. *)
Definition wp {S A} (m : M S A) (Q : A -> S -> Prop) (s : S) : Prop :=
  match m s with Ok a s' => Q a s' | _ => False end.

(** Unfolds the monad in a goal about a routine's run. *)
Ltac run_m :=
  unfold mbind, M_bind, mret, M_ret, gets, modify, panic, sleep_on, zoom in *; cbn beta iota in *.

Section wp.
Context {S A B : Type}.
Implicit Types (s : S).

(** Rewrites the head of a sequence whose outcome is known. *)
Lemma bind_ok (m : M S A) (f : A -> M S B) s a s' : m s = Ok a s' -> (m ≫= f) s = f a s'.
Proof. unfold mbind, M_bind. by intros ->. Qed.

Lemma bind_inv (m : M S A) (f : A -> M S B) s b s' :
  (m ≫= f) s = Ok b s' -> exists a s1, m s = Ok a s1 /\ f a s1 = Ok b s'.
Proof. unfold mbind, M_bind. destruct (m s); naive_solver. Qed.

Lemma wp_ret (a : A) (Q : A -> S -> Prop) s : Q a s -> wp (mret a) Q s.
Proof. done. Qed.

Lemma wp_bind (m : M S A) (f : A -> M S B) (Q : B -> S -> Prop) s :
  wp m (fun a => wp (f a) Q) s -> wp (m ≫= f) Q s.
Proof. unfold wp, mbind, M_bind. by destruct (m s). Qed.

Lemma wp_mono (m : M S A) (Q R : A -> S -> Prop) s :
  wp m Q s -> (forall a s', Q a s' -> R a s') -> wp m R s.
Proof. unfold wp. destruct (m s); naive_solver. Qed.

Lemma wp_ok (m : M S A) (Q : A -> S -> Prop) s :
  wp m Q s <-> exists a s', m s = Ok a s' /\ Q a s'.
Proof. unfold wp. destruct (m s); naive_solver. Qed.

Lemma wp_gets (f : S -> A) (Q : A -> S -> Prop) s : Q (f s) s -> wp (gets f) Q s.
Proof. done. Qed.

Lemma wp_modify (f : S -> S) (Q : unit -> S -> Prop) s : Q tt (f s) -> wp (modify f) Q s.
Proof. done. Qed.
End wp.

Lemma wp_zoom {S T A} (get : T -> S) (put : S -> T -> T) (m : M S A) (Q : A -> T -> Prop) (t : T) :
  wp m (fun a s' => Q a (put s' t)) (get t) -> wp (zoom get put m) Q t.
Proof. unfold wp, zoom. by destruct (m (get t)). Qed.

#[export] Hint Resolve wp_ret wp_gets wp_modify : xv6.

(** ** Step relations *)
Section reachable.
Context {S : Type} (step : S -> S -> Prop).

(** States reached from [a] by finitely many steps. *)
Inductive reach (a : S) : S -> Prop :=
| reach_refl : reach a a
| reach_step b c : reach a b -> step b c -> reach a c.

(** Rule induction for invariants. *)
Lemma reach_invariant (I : S -> Prop) (a b : S) :
  I a -> (forall s t, I s -> step s t -> I t) -> reach a b -> I b.
Proof. induction 3; eauto. Qed.

Lemma reach_trans (a b c : S) : reach a b -> reach b c -> reach a c.
Proof. induction 2; eauto using reach. Qed.
End reachable.

(** ** Lists as C arrays *)
Section arrays.
Context {A : Type}.
Implicit Types (l : list A).

Lemma lookup_insert_case l i j (x y : A) :
  <[i := x]> l !! j = Some y ->
  (i = j /\ x = y) \/ (i <> j /\ l !! j = Some y).
Proof.
  destruct (decide (i = j)) as [-> | Hne].
  - intros H. assert (Hlt : (j < length l)%nat).
    { apply lookup_lt_Some in H. by rewrite length_insert in H. }
    rewrite list_lookup_insert_eq in H by done. naive_solver.
  - rewrite list_lookup_insert_ne by done. auto.
Qed.

Lemma Forall_insert_same (P : A -> Prop) l i x : Forall P l -> P x -> Forall P (<[i := x]> l).
Proof. intros. by apply Forall_insert. Qed.
End arrays.

(** ** Total maps *)

(** Point update of a total map, for state indexed by CPU, lock, buffer or process slot. *)
Definition fupd {A} (f : nat -> A) (i : nat) (x : A) : nat -> A :=
  fun j => if decide (j = i) then x else f j.

Lemma fupd_same {A} (f : nat -> A) i x : fupd f i x i = x.
Proof. unfold fupd. by rewrite decide_True. Qed.

Lemma fupd_other {A} (f : nat -> A) i x j : j <> i -> fupd f i x j = f j.
Proof. intros. unfold fupd. by rewrite decide_False. Qed.

Lemma fupd_fupd {A} (f : nat -> A) i x y : fupd (fupd f i x) i y = fupd f i y.
Proof. extensionality j. unfold fupd. by case_decide. Qed.

Lemma fupd_cases {A} (f : nat -> A) i x j y :
  fupd f i x j = y -> (j = i /\ x = y) \/ (j <> i /\ f j = y).
Proof. unfold fupd. case_decide; naive_solver. Qed.
