(* ===== verification/Mem.v ===== *)
(** * Byte-addressed memory

    The memory the C code reads and writes through pointers: a byte for every address.  A store
    replaces one byte.  Two memories are the same when they agree on every address ([mem_eq]); the
    string routines of [CString] and the page-sized operations of [Kalloc] are stated up to it. *)
From S2P Require Import Prelude.
From Stdlib Require Import Morphisms Setoid.
#[local] Open Scope Z_scope.

Definition mem := Z -> Z.

(** [*a = v] for a byte [v]. *)
Definition upd (m : mem) (a v : Z) : mem := fun x => if x =? a then v else m x.

Definition mem_eq (m m' : mem) : Prop := forall a, m a = m' a.

Declare Scope mem_scope.
Delimit Scope mem_scope with mem.
Notation "m ≅ m'" := (mem_eq m m') (at level 70) : mem_scope.
Open Scope mem_scope.

#[export] Instance mem_eq_equiv : Equivalence mem_eq.
Proof. split; unfold mem_eq; [done | intros ?? H a; by rewrite H | intros ??? H1 H2 a; by rewrite H1]. Qed.

#[export] Instance upd_proper : Proper (mem_eq ==> eq ==> eq ==> mem_eq) upd.
Proof. intros m m' Hm a ? <- v ? <- x. unfold upd. by rewrite Hm. Qed.

(** The [n] bytes at [a] set to [v]: what [memset] promises. *)
Definition mfill (m : mem) (a n v : Z) : mem :=
  fun x => if (a <=? x) && (x <? a + n) then v else m x.

(** The [n] bytes at [s] copied to [d] at once: what [memmove] promises. *)
Definition mcopy (m : mem) (d s n : Z) : mem :=
  fun x => if (d <=? x) && (x <? d + n) then m (s + (x - d)) else m x.

#[export] Instance mfill_proper : Proper (mem_eq ==> eq ==> eq ==> eq ==> mem_eq) mfill.
Proof. intros m m' Hm a ? <- n ? <- v ? <- x. unfold mfill. by rewrite Hm. Qed.

(** Little-endian 32-bit loads and stores. *)
Definition ld32 (m : mem) (a : Z) : Z :=
  m a + 2 ^ 8 * m (a + 1) + 2 ^ 16 * m (a + 2) + 2 ^ 24 * m (a + 3).

Definition st32 (m : mem) (a v : Z) : mem :=
  upd (upd (upd (upd m a (u8 v)) (a + 1) (u8 (v / 2 ^ 8)))
    (a + 2) (u8 (v / 2 ^ 16))) (a + 3) (u8 (v / 2 ^ 24)).

(** Case analysis on every address test of the goal. *)
Ltac mem_cases :=
  unfold upd, mfill, mcopy in *;
  repeat match goal with
         | |- context [?x =? ?y] => destruct (Z.eqb_spec x y)
         | |- context [?x <=? ?y] => destruct (Z.leb_spec x y)
         | |- context [?x <? ?y] => destruct (Z.ltb_spec x y)
         end; simpl; try lia; try congruence.

Lemma upd_same m a v : upd m a v a = v.
Proof. unfold upd. by rewrite Z.eqb_refl. Qed.

Lemma upd_other m a v x : x <> a -> upd m a v x = m x.
Proof. intros. by mem_cases. Qed.

Lemma ld32_st32 m a v : ld32 (st32 m a v) a = u32 v.
Proof.
  unfold ld32, st32, upd. rewrite !Z.eqb_refl.
  rewrite !(proj2 (Z.eqb_neq _ _)) by lia.
  unfold u8, u32. Z.to_euclidean_division_equations; lia.
Qed.

Lemma st32_other m a v x : x < a \/ a + 4 <= x -> st32 m a v x = m x.
Proof. intros. unfold st32. rewrite !upd_other by lia. done. Qed.

Lemma ld32_st32_other m a v b : b + 4 <= a \/ a + 4 <= b -> ld32 (st32 m a v) b = ld32 m b.
Proof. intros. unfold ld32. rewrite !st32_other by lia. done. Qed.

Lemma ld32_mfill_other m a n v b : b + 4 <= a \/ a + n <= b -> ld32 (mfill m a n v) b = ld32 m b.
Proof. intros. unfold ld32. by mem_cases. Qed.

#[export] Instance st32_proper : Proper (mem_eq ==> eq ==> eq ==> mem_eq) st32.
Proof. intros m m' Hm a ? <- v ? <-. unfold st32. by rewrite Hm. Qed.

#[export] Instance ld32_proper : Proper (mem_eq ==> eq ==> eq) ld32.
Proof. intros m m' Hm a ? <-. unfold ld32. by rewrite !Hm. Qed.
