(* ===== verification/CString.v ===== *)
(** * string.c: the kernel's memory and string routines

    [memset] (with its word-at-a-time path), [memcmp], [memmove] (with its overlap test),
    [strncmp], [strncpy], [safestrcpy] and [strlen], on the byte memory of [Mem].  Pointers are
    addresses; as C requires, the objects they point into do not wrap around the address space. *)
From S2P Require Import Prelude Mem.
#[local] Open Scope Z_scope.

(** ** The routines *)

(** [rep stosb]: the low byte of [data], [cnt] times. *)
Fixpoint stosb (m : mem) (addr data : Z) (cnt : nat) : mem :=
  match cnt with
  | O => m
  | S n => stosb (upd m addr (u8 data)) (addr + 1) data n
  end.

(** [rep stosl]: the 32-bit word [data], [cnt] times. *)
Fixpoint stosl (m : mem) (addr data : Z) (cnt : nat) : mem :=
  match cnt with
  | O => m
  | S n => stosl (st32 m addr data) (addr + 4) data n
  end.

Definition memset (m : mem) (dst c n : Z) : mem :=
  if (Z.rem (s32 dst) 4 =? 0) && (n mod 4 =? 0) then
    let c := Z.land c 255 in
    stosl m dst (Z.lor (Z.lor (Z.lor (Z.shiftl c 24) (Z.shiftl c 16)) (Z.shiftl c 8)) c)
      (Z.to_nat (n / 4))
  else stosb m dst c (Z.to_nat n).

Fixpoint memcmp_loop (m : mem) (s1 s2 : Z) (n : nat) : Z :=
  match n with
  | O => 0
  | S n => if m s1 =? m s2 then memcmp_loop m (s1 + 1) (s2 + 1) n else m s1 - m s2
  end.
Definition memcmp (m : mem) (v1 v2 n : Z) : Z := memcmp_loop m v1 v2 (Z.to_nat n).

(** [while(n-- > 0) *d++ = *s++;] *)
Fixpoint copy_forward (m : mem) (d s : Z) (n : nat) : mem :=
  match n with
  | O => m
  | S n => copy_forward (upd m d (m s)) (d + 1) (s + 1) n
  end.

(** [while(n-- > 0) *--d = *--s;] *)
Fixpoint copy_backward (m : mem) (d s : Z) (n : nat) : mem :=
  match n with
  | O => m
  | S n => copy_backward (upd m (d - 1) (m (s - 1))) (d - 1) (s - 1) n
  end.

Definition memmove (m : mem) (dst src n : Z) : mem :=
  if (src <? dst) && (dst <? src + n) then copy_backward m (dst + n) (src + n) (Z.to_nat n)
  else copy_forward m dst src (Z.to_nat n).

Definition memcpy (m : mem) (dst src n : Z) : mem := memmove m dst src n.

Fixpoint strncmp_loop (m : mem) (p q : Z) (n : nat) : Z :=
  match n with
  | O => 0
  | S n' => if negb (m p =? 0) && (m p =? m q) then strncmp_loop m (p + 1) (q + 1) n'
            else m p - m q
  end.
Definition strncmp (m : mem) (p q n : Z) : Z := strncmp_loop m p q (Z.to_nat n).

(** The first loop of [strncpy]: the memory, [s] and [n] where it stops. *)
Fixpoint strncpy_copy (m : mem) (s t : Z) (n : nat) : mem * Z * nat :=
  match n with
  | O => (m, s, O)
  | S n' => let c := m t in
            if c =? 0 then (upd m s c, s + 1, n')
            else strncpy_copy (upd m s c) (s + 1) (t + 1) n'
  end.

(** The second loop: [while(n-- > 0) *s++ = 0;] *)
Fixpoint strncpy_pad (m : mem) (s : Z) (n : nat) : mem :=
  match n with
  | O => m
  | S n' => strncpy_pad (upd m s 0) (s + 1) n'
  end.

Definition strncpy (m : mem) (s t n : Z) : mem :=
  let '(m', s', n') := strncpy_copy m s t (Z.to_nat n) in strncpy_pad m' s' n'.

(** The loop of [safestrcpy] with [n] already decremented; it returns the memory and [s]. *)
Fixpoint safestrcpy_copy (m : mem) (s t : Z) (n : nat) : mem * Z :=
  match n with
  | O => (m, s)
  | S n' => let c := m t in
            if c =? 0 then (upd m s c, s + 1)
            else safestrcpy_copy (upd m s c) (s + 1) (t + 1) n'
  end.

Definition safestrcpy (m : mem) (s t n : Z) : mem :=
  if n <=? 0 then m
  else let '(m', s') := safestrcpy_copy m s t (Z.to_nat (n - 1)) in upd m' s' 0.

(** [for(n = 0; s[n]; n++)], cut off after [fuel] tests. *)
Fixpoint strlen_loop (fuel : nat) (m : mem) (s n : Z) : option Z :=
  match fuel with
  | O => None
  | S f => if m (s + n) =? 0 then Some n else strlen_loop f m s (n + 1)
  end.
Definition strlen (fuel : nat) (m : mem) (s : Z) : option Z := strlen_loop fuel m s 0.

(** ** C strings *)

(** [l] is the NUL-terminated string at [s]. *)
Fixpoint cstr (m : mem) (s : Z) (l : list Z) : Prop :=
  match l with
  | [] => m s = 0
  | c :: l' => m s = c /\ c <> 0 /\ cstr m (s + 1) l'
  end.

(** The name held by the [n]-byte field at [p]: its bytes up to the first NUL. *)
Fixpoint cname (m : mem) (p : Z) (n : nat) : list Z :=
  match n with
  | O => []
  | S n' => if m p =? 0 then [] else m p :: cname m (p + 1) n'
  end.

(** ** Lemmas *)

Lemma stosb_fill n : forall m a c, stosb m a c n ≅ mfill m a (Z.of_nat n) (u8 c).
Proof.
  induction n as [|n IH]; intros m a c x; simpl; [by mem_cases |].
  rewrite IH. by mem_cases.
Qed.

Lemma word_bytes c (i : Z) :
  0 <= i < 4 ->
  u8 (Z.lor (Z.lor (Z.lor (Z.shiftl (Z.land c 255) 24) (Z.shiftl (Z.land c 255) 16))
       (Z.shiftl (Z.land c 255) 8)) (Z.land c 255) / 2 ^ (8 * i)) = u8 c.
Proof.
  intros Hi. unfold u8. rewrite <- Z.shiftr_div_pow2 by lia.
  change 255 with (Z.ones 8). rewrite <- !Z.land_ones by lia.
  apply Z.bits_inj'. intros j Hj. rewrite !Z.land_spec.
  destruct (Z.ltb_spec j 8).
  2: { rewrite Z.ones_spec_high by lia. by rewrite !andb_false_r. }
  rewrite Z.ones_spec_low by lia. rewrite !andb_true_r.
  rewrite Z.shiftr_spec by lia. rewrite !Z.lor_spec, !Z.shiftl_spec by lia.
  rewrite !Z.land_spec.
  assert (Hhi : forall k, 8 <= k -> Z.testbit (Z.ones 8) k = false)
    by (intros; apply Z.ones_spec_high; lia).
  assert (Hlo : Z.testbit (Z.ones 8) j = true) by (apply Z.ones_spec_low; lia).
  assert (Hcases : i = 0 \/ i = 1 \/ i = 2 \/ i = 3) by lia.
  destruct Hcases as [-> | [-> | [-> | ->]]].
  - rewrite !Z.mul_0_r, !Z.add_0_r, Hlo.
    rewrite !(Z.testbit_neg_r _ (j - _)) by lia. by rewrite andb_true_r.
  - replace (j + 8 * 1 - 8) with j by lia. rewrite Hlo, (Hhi (j + 8 * 1)) by lia.
    rewrite !(Z.testbit_neg_r _ (j + 8 * 1 - _)) by lia.
    rewrite andb_true_r, !andb_false_r. by destruct (Z.testbit c j).
  - replace (j + 8 * 2 - 16) with j by lia.
    rewrite Hlo, (Hhi (j + 8 * 2)), (Hhi (j + 8 * 2 - 8)) by lia.
    rewrite !(Z.testbit_neg_r _ (j + 8 * 2 - 24)) by lia.
    rewrite andb_true_r, !andb_false_r. by destruct (Z.testbit c j).
  - replace (j + 8 * 3 - 24) with j by lia.
    rewrite Hlo, (Hhi (j + 8 * 3)), (Hhi (j + 8 * 3 - 8)), (Hhi (j + 8 * 3 - 16)) by lia.
    rewrite andb_true_r, !andb_false_r. by destruct (Z.testbit c j).
Qed.

Lemma stosl_fill n : forall m a w b,
  (forall i, 0 <= i < 4 -> u8 (w / 2 ^ (8 * i)) = b) ->
  stosl m a w n ≅ mfill m a (4 * Z.of_nat n) b.
Proof.
  induction n as [|n IH]; intros m a w b Hw x; [simpl; by mem_cases |].
  cbn [stosl]. rewrite (IH _ _ _ b) by exact Hw. unfold st32.
  pose proof (Hw 0 ltac:(lia)) as H0. pose proof (Hw 1 ltac:(lia)) as H1.
  pose proof (Hw 2 ltac:(lia)) as H2. pose proof (Hw 3 ltac:(lia)) as H3.
  rewrite Z.mul_0_r, Z.pow_0_r, Z.div_1_r in H0.
  change (8 * 1) with 8 in H1. change (8 * 2) with 16 in H2. change (8 * 3) with 24 in H3.
  rewrite H0, H1, H2, H3. by mem_cases.
Qed.

Lemma memset_fill m dst c n : 0 <= n -> memset m dst c n ≅ mfill m dst n (u8 c).
Proof.
  intros Hn. unfold memset. zcase ((Z.rem (s32 dst) 4 =? 0) && (n mod 4 =? 0)).
  - rewrite (stosl_fill _ _ _ _ (u8 c)) by (intros i Hi; apply word_bytes, Hi).
    replace (4 * Z.of_nat (Z.to_nat (n / 4))) with n; [done |].
    rewrite Z2Nat.id by (apply Z.div_pos; lia). Z.to_euclidean_division_equations; lia.
  - rewrite stosb_fill, Z2Nat.id by lia. done.
Qed.

Lemma copy_forward_copy n : forall m d s,
  d <= s \/ s + Z.of_nat n <= d -> copy_forward m d s n ≅ mcopy m d s (Z.of_nat n).
Proof.
  induction n as [|n IH]; intros m d s Hd x; [simpl; by mem_cases |].
  cbn [copy_forward]. rewrite IH by lia. mem_cases; try (f_equal; lia).
Qed.

Lemma copy_backward_copy n : forall m d s,
  s <= d -> copy_backward m (d + Z.of_nat n) (s + Z.of_nat n) n ≅ mcopy m d s (Z.of_nat n).
Proof.
  induction n as [|n IH]; intros m d s Hd x; [simpl; by mem_cases |].
  cbn [copy_backward].
  replace (d + Z.of_nat (S n) - 1) with (d + Z.of_nat n) by lia.
  replace (s + Z.of_nat (S n) - 1) with (s + Z.of_nat n) by lia.
  rewrite IH by lia. mem_cases; try (f_equal; lia).
Qed.

Lemma memmove_copy m dst src n : 0 <= n -> memmove m dst src n ≅ mcopy m dst src n.
Proof.
  intros Hn. unfold memmove. destruct (Z2Nat.id n Hn).
  zcase ((src <? dst) && (dst <? src + Z.of_nat (Z.to_nat n))).
  - rewrite Nat2Z.id. apply copy_backward_copy. lia.
  - rewrite Nat2Z.id. apply copy_forward_copy.
    destruct (Z.ltb_spec src dst); simpl in *; reflect_bool; lia.
Qed.

Lemma memcmp_loop_eq n : forall m s1 s2,
  memcmp_loop m s1 s2 n = 0 <-> forall i, 0 <= i < Z.of_nat n -> m (s1 + i) = m (s2 + i).
Proof.
  induction n as [|n IH]; intros m s1 s2; cbn [memcmp_loop]; [split; [lia | done] |].
  destruct (Z.eqb_spec (m s1) (m s2)) as [He | Hne].
  - rewrite IH. split; intros H i Hi.
    + destruct (decide (i = 0)) as [-> | ?]; [by rewrite !Z.add_0_r |].
      specialize (H (i - 1) ltac:(lia)). rewrite <- !Z.add_assoc in H.
      by replace (1 + (i - 1)) with i in H by lia.
    + rewrite <- !Z.add_assoc. apply H. lia.
  - split; [lia |]. intros H. specialize (H 0 ltac:(lia)). rewrite !Z.add_0_r in H. lia.
Qed.

Lemma strncmp_loop_eq n : forall m p q,
  strncmp_loop m p q n = 0 <-> cname m p n = cname m q n.
Proof.
  induction n as [|n IH]; intros m p q; cbn [strncmp_loop cname]; [done |].
  destruct (Z.eqb_spec (m p) 0) as [Hp | Hp]; destruct (Z.eqb_spec (m p) (m q)) as [Hq | Hq];
    destruct (Z.eqb_spec (m q) 0) as [Hz | Hz]; simpl; try rewrite IH; split;
    intros; try done; try congruence; try lia.
Qed.

Lemma strncpy_pad_fill n : forall m s, strncpy_pad m s n ≅ mfill m s (Z.of_nat n) 0.
Proof.
  induction n as [|n IH]; intros m s x; simpl; [by mem_cases |]. rewrite IH. by mem_cases.
Qed.

(** Only the bytes of the source that the copy reads matter to the name it holds. *)
Lemma cname_ext n : forall m m' p,
  (forall i, 0 <= i < Z.of_nat n -> m' (p + i) = m (p + i)) -> cname m' p n = cname m p n.
Proof.
  induction n as [|n IH]; intros m m' p H; simpl; [done |].
  assert (m' p = m p) as -> by (specialize (H 0); rewrite Z.add_0_r in H; apply H; lia).
  destruct (m p =? 0); [done |]. f_equal. apply IH. intros i Hi.
  rewrite <- Z.add_assoc. apply H. lia.
Qed.

(** [strncpy] as a whole: what it leaves at [s + i], for a source that does not overlap. *)
Definition strncpy_image (m : mem) (s t : Z) (n : nat) : mem := fun x =>
  if (s <=? x) && (x <? s + Z.of_nat n) then nth (Z.to_nat (x - s)) (cname m t n) 0 else m x.

Lemma strncpy_image_spec n : forall m s t,
  t + Z.of_nat n <= s \/ s + Z.of_nat n <= t ->
  (let '(m', s', n') := strncpy_copy m s t n in strncpy_pad m' s' n') ≅ strncpy_image m s t n.
Proof.
  induction n as [|n IH]; intros m s t Hd x; cbn [strncpy_copy].
  { unfold strncpy_image. simpl. by mem_cases. }
  destruct (Z.eqb_spec (m t) 0) as [Hz | Hz].
  - rewrite strncpy_pad_fill. unfold strncpy_image. cbn [cname].
    rewrite Hz, Z.eqb_refl. mem_cases; by destruct (Z.to_nat (x - s)).
  - rewrite IH by lia. unfold strncpy_image. cbn [cname].
    rewrite (proj2 (Z.eqb_neq _ _) Hz).
    rewrite (cname_ext n m (upd m s (m t))) by (intros; rewrite upd_other by lia; done).
    mem_cases; first [ by replace (Z.to_nat (x - s)) with O by lia; subst x
                     | by replace (Z.to_nat (x - s)) with (S (Z.to_nat (x - (s + 1)))) by lia ].
Qed.

Lemma length_cname n : forall m p, (length (cname m p n) <= n)%nat.
Proof.
  induction n as [|n IH]; intros m p; simpl; [done |].
  destruct (m p =? 0); simpl; [lia | specialize (IH m (p + 1)); lia].
Qed.

Lemma cname_nonzero n : forall m p, Forall (fun c => c <> 0) (cname m p n).
Proof.
  induction n as [|n IH]; intros m p; simpl; [done |].
  destruct (Z.eqb_spec (m p) 0); by constructor.
Qed.

(** A field whose bytes are [l] and then NULs holds the name [l]. *)
Lemma cname_of_bytes n : forall m p (l : list Z),
  (length l <= n)%nat -> Forall (fun c => c <> 0) l ->
  (forall i, 0 <= i < Z.of_nat n -> m (p + i) = nth (Z.to_nat i) l 0) -> cname m p n = l.
Proof.
  induction n as [|n IH]; intros m p l Hl Hnz H; [destruct l; simpl in *; [done | lia] |].
  cbn [cname]. pose proof (H 0 ltac:(lia)) as H0. rewrite Z.add_0_r in H0. rewrite H0.
  destruct l as [|c l]; simpl in *; [done |].
  apply Forall_cons_1 in Hnz as [Hc Hnz]. rewrite (proj2 (Z.eqb_neq c 0)) by done. f_equal.
  apply IH; [lia | done |]. intros i Hi. specialize (H (i + 1) ltac:(lia)).
  replace (p + 1 + i) with (p + (i + 1)) by lia. rewrite H.
  by replace (Z.to_nat (i + 1)) with (S (Z.to_nat i)) by lia.
Qed.

Lemma cstr_ext l : forall m m' s,
  (forall i, 0 <= i <= Z.of_nat (length l) -> m' (s + i) = m (s + i)) -> cstr m s l -> cstr m' s l.
Proof.
  induction l as [|c l IH]; intros m m' s H; simpl.
  - specialize (H 0 ltac:(simpl; lia)). rewrite Z.add_0_r in H. by rewrite H.
  - pose proof (H 0 ltac:(simpl; lia)) as H0. rewrite Z.add_0_r in H0. rewrite H0.
    intros (? & ? & ?). split_and!; [done | done |]. apply (IH m); [|done].
    intros i Hi. rewrite <- Z.add_assoc. apply H. simpl. lia.
Qed.

(** What [safestrcpy] leaves at [s] and what it leaves alone, for a string [l] at [t] that the
    destination does not overlap; [n] is the room left after the terminator. *)
Lemma safestrcpy_copy_spec n : forall m s t l,
  cstr m t l -> t + Z.of_nat (length l) < s \/ s + Z.of_nat n < t ->
  let '(m', s') := safestrcpy_copy m s t n in
  cstr (upd m' s' 0) s (take n l) /\
  (forall x, x < s \/ s + Z.of_nat n < x -> upd m' s' 0 x = m x).
Proof.
  induction n as [|n IH]; intros m s t l Hc Hd; cbn [safestrcpy_copy].
  - rewrite take_0. simpl. split; [apply upd_same | intros; apply upd_other; lia].
  - destruct l as [|c l]; simpl in Hc.
    + rewrite Hc, Z.eqb_refl, take_nil. simpl. split; [| intros; rewrite !upd_other by lia; done].
      rewrite upd_other by lia. by rewrite upd_same.
    + destruct Hc as (He & Hnz & Hc). rewrite He, (proj2 (Z.eqb_neq _ _) Hnz).
      simpl length in Hd.
      assert (Hc' : cstr (upd m s c) (t + 1) l).
      { apply (cstr_ext l m); [intros; apply upd_other; lia | done]. }
      specialize (IH (upd m s c) (s + 1) (t + 1) l Hc' ltac:(lia)).
      destruct (safestrcpy_copy (upd m s c) (s + 1) (t + 1) n) as [m' s'].
      destruct IH as [IH1 IH2]. split; [cbn [take cstr]; split_and!; [|done..] |].
      * rewrite IH2 by lia. apply upd_same.
      * intros x Hx. rewrite IH2 by lia. apply upd_other. lia.
Qed.

Lemma strlen_loop_spec l : forall fuel m s n,
  cstr m (s + n) l -> (length l < fuel)%nat ->
  strlen_loop fuel m s n = Some (n + Z.of_nat (length l)).
Proof.
  induction l as [|c l IH]; intros [|f] m s n Hc Hf; simpl in *; try lia.
  - rewrite Hc. simpl. f_equal. lia.
  - destruct Hc as (-> & Hnz & Hc). rewrite (proj2 (Z.eqb_neq _ _) Hnz).
    rewrite IH; [f_equal; lia | by rewrite Z.add_assoc | lia].
Qed.

(** ** Properties *)

(** [memmove] copies the [n] bytes at [src] to [dst] as if they were all read before any is
    written, whether or not the two regions overlap and in either direction; every other byte of
    memory keeps its value. *)
Theorem memmove_correct (m : mem) (dst src n : Z) :
  0 <= n -> memmove m dst src n ≅ mcopy m dst src n.
Proof. apply memmove_copy. Qed.

Lemma memmove_correct_witness : memmove (fun a => a) 102 100 5 ≅ mcopy (fun a => a) 102 100 5.
Proof. apply (memmove_correct (fun a => a) 102 100 5). lia. Defined.

(** [memset] sets exactly the [n] bytes at [dst] to the low byte of [c], on the aligned
    word-at-a-time path ([stosl] of the byte replicated four times) as on the byte path. *)
Theorem memset_correct (m : mem) (dst c n : Z) :
  0 <= n -> memset m dst c n ≅ mfill m dst n (u8 c).
Proof. apply memset_fill. Qed.

Lemma memset_correct_witness :
  memset (fun _ => 7) 4096 (-1) 8 ≅ mfill (fun _ => 7) 4096 8 (u8 (-1)).
Proof. apply (memset_correct (fun _ => 7) 4096 (-1) 8). lia. Defined.

(** Directory names survive the copy into a directory entry: after [strncpy] of a
    non-overlapping source into an [n]-byte field, the field holds the source's name cut to [n]
    bytes, [strncmp] (hence [namecmp]) finds the two equal, and no byte outside the field has
    changed. *)
Theorem strncpy_strncmp_roundtrip (m : mem) (s t n : Z) :
  0 <= n -> t + n <= s \/ s + n <= t ->
  let m' := strncpy m s t n in
  cname m' s (Z.to_nat n) = cname m t (Z.to_nat n) /\ strncmp m' s t n = 0 /\
  forall x, x < s \/ s + n <= x -> m' x = m x.
Proof.
  intros Hn Hd. pose proof (strncpy_image_spec (Z.to_nat n) m s t ltac:(lia)) as H.
  fold (strncpy m s t n) in H. simpl.
  assert (Hname : cname (strncpy m s t n) s (Z.to_nat n) = cname m t (Z.to_nat n)).
  { apply cname_of_bytes; [apply length_cname | apply cname_nonzero |]. intros i Hi.
    rewrite H. unfold strncpy_image. replace (s + i - s) with i by lia. by mem_cases. }
  split_and!; [done | |].
  - unfold strncmp. apply strncmp_loop_eq. rewrite Hname. symmetry. apply cname_ext.
    intros i Hi. rewrite H. unfold strncpy_image. by mem_cases.
  - intros x Hx. rewrite H. unfold strncpy_image. by mem_cases.
Qed.

Lemma strncpy_strncmp_roundtrip_witness :
  let m := fun a : Z => if a <? 3 then 97 + a else 0 in
  cname (strncpy m 100 0 14) 100 14 = [97; 98; 99].
Proof.
  intros m. destruct (strncpy_strncmp_roundtrip m 100 0 14 ltac:(lia) ltac:(lia)) as [H _].
  exact H.
Defined.

(** [safestrcpy] into an [n]-byte buffer always leaves a NUL-terminated string, the source cut
    to [n - 1] characters, and writes nothing outside the buffer. *)
Theorem safestrcpy_bounded (m : mem) (s t n : Z) (l : list Z) :
  0 < n -> cstr m t l -> t + Z.of_nat (length l) < s \/ s + n <= t ->
  cstr (safestrcpy m s t n) s (take (Z.to_nat (n - 1)) l) /\
  forall x, x < s \/ s + n <= x -> safestrcpy m s t n x = m x.
Proof.
  intros Hn Hc Hd. unfold safestrcpy. rewrite (proj2 (Z.leb_gt n 0)) by lia.
  pose proof (safestrcpy_copy_spec (Z.to_nat (n - 1)) m s t l Hc ltac:(lia)) as H.
  destruct (safestrcpy_copy m s t (Z.to_nat (n - 1))) as [m' s'].
  destruct H as [H1 H2]. split; [done |]. intros x Hx. apply H2. lia.
Qed.

Lemma safestrcpy_bounded_witness :
  let m := fun a : Z => if a <? 3 then 97 + a else 0 in
  cstr (safestrcpy m 100 0 3) 100 [97; 98].
Proof.
  intros m. destruct (safestrcpy_bounded m 100 0 3 [97; 98; 99]) as [H _];
    [lia | by vm_compute | simpl; lia | exact H].
Defined.
