(* ===== verification/Mmu.v ===== *)
(** * mmu.h and memlayout.h: addresses, pages and page-table entries

    The macros of the two headers on 32-bit words, and the arithmetic facts the allocator and the
    page-table code rely on. *)
From S2P Require Import Prelude.
#[local] Open Scope Z_scope.

Definition PGSIZE : Z := 4096.
Definition NPDENTRIES : Z := 1024.
Definition PTXSHIFT : Z := 12.
Definition PDXSHIFT : Z := 22.

Definition EXTMEM : Z := 1048576.        (* 0x100000 *)
Definition PHYSTOP : Z := 234881024.     (* 0xE000000 *)
Definition DEVSPACE : Z := 4261412864.   (* 0xFE000000 *)
Definition KERNBASE : Z := 2147483648.   (* 0x80000000 *)
Definition KERNLINK : Z := KERNBASE + EXTMEM.

Definition V2P (a : Z) : Z := a -u KERNBASE.
Definition P2V (a : Z) : Z := a +u KERNBASE.

(** [~(PGSIZE-1)] and [~0xFFF] as 32-bit masks. *)
Definition PGMASK : Z := u32 (Z.lnot (PGSIZE - 1)).

Definition PGROUNDUP (sz : Z) : Z := Z.land (u32 (sz + PGSIZE - 1)) PGMASK.
Definition PGROUNDDOWN (a : Z) : Z := Z.land a PGMASK.

Definition PDX (va : Z) : Z := Z.land (Z.shiftr (u32 va) PDXSHIFT) 1023.
Definition PTX (va : Z) : Z := Z.land (Z.shiftr (u32 va) PTXSHIFT) 1023.
Definition PGADDR (d t o : Z) : Z :=
  u32 (Z.lor (Z.lor (Z.shiftl d PDXSHIFT) (Z.shiftl t PTXSHIFT)) o).

Definition PTE_P : Z := 1.
Definition PTE_W : Z := 2.
Definition PTE_U : Z := 4.
Definition PTE_ADDR (pte : Z) : Z := Z.land (u32 pte) (u32 (Z.lnot 4095)).
Definition PTE_FLAGS (pte : Z) : Z := Z.land (u32 pte) 4095.

Lemma land_pgmask (a : Z) : 0 <= a < 2 ^ 32 -> Z.land a PGMASK = a - a mod PGSIZE.
Proof.
  intros Ha. change PGMASK with (Z.shiftl (Z.ones 20) 12). unfold PGSIZE.
  change 4096 with (2 ^ 12).
  transitivity (Z.shiftl (Z.shiftr a 12) 12).
  - apply Z.bits_inj'. intros n Hn. rewrite Z.land_spec, !Z.shiftl_spec by lia.
    destruct (Z.ltb_spec n 12).
    + rewrite !(Z.testbit_neg_r _ (n - 12)) by lia. by rewrite andb_false_r.
    + rewrite Z.shiftr_spec by lia. replace (n - 12 + 12) with n by lia.
      destruct (Z.ltb_spec n 32).
      * rewrite Z.ones_spec_low by lia. by rewrite andb_true_r.
      * rewrite Z.ones_spec_high by lia. rewrite andb_false_r. symmetry.
        destruct (decide (a = 0)) as [-> | ?]; [apply Z.bits_0 |].
        apply Z.bits_above_log2; [lia |]. apply Z.log2_lt_pow2; [lia |].
        eapply Z.lt_le_trans; [apply Ha |]. by apply Z.pow_le_mono_r.
  - rewrite Z.shiftl_mul_pow2, Z.shiftr_div_pow2 by lia.
    Z.to_euclidean_division_equations; lia.
Qed.

Lemma PGROUNDDOWN_eq (a : Z) : 0 <= a < 2 ^ 32 -> PGROUNDDOWN a = a - a mod PGSIZE.
Proof. apply land_pgmask. Qed.

(** Rounding up gives the least page boundary not below [sz], unless it wraps. *)
Lemma PGROUNDUP_eq (sz : Z) :
  0 <= sz <= 2 ^ 32 - PGSIZE -> PGROUNDUP sz = PGSIZE * ((sz + PGSIZE - 1) / PGSIZE).
Proof.
  intros H. unfold PGROUNDUP. rewrite land_pgmask by apply u32_range.
  unfold PGSIZE in *. rewrite u32_small by lia. Z.to_euclidean_division_equations; lia.
Qed.

Lemma PGROUNDUP_bounds (sz : Z) :
  0 <= sz <= 2 ^ 32 - PGSIZE ->
  sz <= PGROUNDUP sz < sz + PGSIZE /\ PGROUNDUP sz mod PGSIZE = 0.
Proof.
  intros H. rewrite PGROUNDUP_eq by done. unfold PGSIZE in *.
  split; Z.to_euclidean_division_equations; lia.
Qed.

Lemma P2V_V2P (a : Z) : 0 <= a < 2 ^ 32 -> P2V (V2P a) = a.
Proof. intros. unfold P2V, V2P, KERNBASE. word. Qed.

Lemma V2P_P2V (a : Z) : 0 <= a < 2 ^ 32 -> V2P (P2V a) = a.
Proof. intros. unfold P2V, V2P, KERNBASE. word. Qed.

#[export] Hint Rewrite P2V_V2P V2P_P2V using lia : xv6.
