(* ===== verification/Mp.v ===== *)
(** * mp.c: the tables of a multiprocessor

    The floating pointer structure is searched in the places the specification names, the configuration table
    it points to is checked, and the entries of the table give the processors and the interrupt controller.
    Memory is a byte for every address, reached at [P2V]; comparisons with a string constant are with its bytes. *)
From S2P Require Import Prelude Mem CString Mmu.
#[local] Open Scope Z_scope.

Definition NCPU : nat := 8.
Definition MP_SIZE : Z := 16.        (* sizeof(struct mp) *)
Definition MPCONF_SIZE : Z := 44.    (* sizeof(struct mpconf) *)
Definition MPPROC_SIZE : Z := 20.
Definition MPIOAPIC_SIZE : Z := 8.
Definition MPPROC : Z := 0.
Definition MPBUS : Z := 1.
Definition MPIOAPIC : Z := 2.
Definition MPIOINTR : Z := 3.
Definition MPLINTR : Z := 4.
Definition sig_mp : list Z := [95; 77; 80; 95].      (* "_MP_" *)
Definition sig_pcmp : list Z := [80; 67; 77; 80].    (* "PCMP" *)

Definition ld16 (m : mem) (a : Z) : Z := m a + 2 ^ 8 * m (a + 1).

(** [memcmp(a, l, ...) == 0] *)
Fixpoint same_bytes (m : mem) (a : Z) (l : list Z) : bool :=
  match l with [] => true | c :: l' => (m a =? c) && same_bytes m (a + 1) l' end.

Fixpoint sum_loop (m : mem) (addr : Z) (len : nat) (s : Z) : Z :=
  match len with O => s | S n => sum_loop m (addr + 1) n (s + m addr) end.
Definition sum (m : mem) (addr : Z) (len : nat) : Z := u8 (sum_loop m addr len 0).

(** The floating pointer structures [n] strides of [MP_SIZE] from [p]. *)
Definition is_mp (m : mem) (p : Z) : bool := same_bytes m p sig_mp && (sum m p (Z.to_nat MP_SIZE) =? 0).
Fixpoint mpsearch1_loop (n : nat) (m : mem) (p : Z) : option Z :=
  match n with O => None | S n' => if is_mp m p then Some p else mpsearch1_loop n' m (p + MP_SIZE) end.
Definition mpsearch1 (m : mem) (a len : Z) : option Z := mpsearch1_loop (Z.to_nat ((len + MP_SIZE - 1) / MP_SIZE)) m (P2V a).

Definition mpsearch (m : mem) : option Z :=
  let bda := P2V 1024 in
  let p := Z.shiftl (Z.lor (Z.shiftl (m (bda + 15)) 8) (m (bda + 14))) 4 in
  let found := if negb (p =? 0) then mpsearch1 m p 1024
               else mpsearch1 m (u32 (Z.lor (Z.shiftl (m (bda + 20)) 8) (m (bda + 19)) * 1024 - 1024)) 1024 in
  match found with Some mp => Some mp | None => mpsearch1 m 983040 65536 end.

Definition mpconfig (m : mem) : option (Z * Z) :=
  match mpsearch m with
  | None => None
  | Some mp =>
      let physaddr := ld32 m (mp + 4) in
      let conf := P2V physaddr in
      if physaddr =? 0 then None
      else if negb (same_bytes m conf sig_pcmp) then None
      else if negb (m (conf + 6) =? 1) && negb (m (conf + 6) =? 4) then None
      else if negb (sum m conf (Z.to_nat (ld16 m (conf + 4))) =? 0) then None
      else Some (conf, mp)
  end.

(** [cpus[i].apicid], [ncpu], [ioapicid] and [lapic]. *)
Record mpstate := MP { apicid : nat -> Z; ncpu : nat; ioapicid : Z; lapic : Z }.

(** The loop over the entries from [p] to [e], with the value of [ismp] at its end; [None] when the fuel is used up.
    An entry of unknown type leaves the [switch] and not the loop. *)
Fixpoint entries_loop (fuel : nat) (m : mem) (p e : Z) (ismp : bool) (s : mpstate) : option (bool * mpstate) :=
  match fuel with
  | O => None
  | S f =>
      if negb (p <? e) then Some (ismp, s)
      else
        let t := m p in
        if t =? MPPROC then
          entries_loop f m (p + MPPROC_SIZE) e ismp
            (if (ncpu s <? NCPU)%nat then MP (fupd (apicid s) (ncpu s) (m (p + 1))) (S (ncpu s)) (ioapicid s) (lapic s) else s)
        else if t =? MPIOAPIC then
          entries_loop f m (p + MPIOAPIC_SIZE) e ismp (MP (apicid s) (ncpu s) (m (p + 1)) (lapic s))
        else if (t =? MPBUS) || (t =? MPIOINTR) || (t =? MPLINTR) then entries_loop f m (p + 8) e ismp s
        else entries_loop f m p e false s
  end.

(** The state and the port writes, a panic, or no end within the fuel. *)
Inductive mpresult := MpDone (s : mpstate) (ports : list (Z * Z)) | MpPanic (msg : string) | MpRunning.

(** [inb] is what port 0x23 gives. *)
Definition mpinit (fuel : nat) (m : mem) (inb : Z) (s : mpstate) : mpresult :=
  match mpconfig m with
  | None => MpPanic "Expect to run on an SMP"
  | Some (conf, mp) =>
      let s1 := MP (apicid s) (ncpu s) (ioapicid s) (ld32 m (conf + 36)) in
      match entries_loop fuel m (conf + MPCONF_SIZE) (conf + ld16 m (conf + 4)) true s1 with
      | None => MpRunning
      | Some (false, _) => MpPanic "Didn't find a suitable machine"
      | Some (true, s') => MpDone s' (if m (mp + 12) =? 0 then [] else [(34, 112); (35, Z.lor inb 1)])
      end
  end.

(** ** The tables as data *)

(** The entries of a table; [more] are the fields that are not used. *)
Inductive mp_entry :=
  | Processor (id : Z) (more : list Z)
  | IoApic (id : Z) (more : list Z)
  | Wiring (type : Z) (more : list Z).     (* a bus or an interrupt assignment *)

Definition encode (x : mp_entry) : list Z :=
  match x with Processor id more => MPPROC :: id :: more | IoApic id more => MPIOAPIC :: id :: more | Wiring t more => t :: more end.
Definition entry_size_ok (x : mp_entry) : Prop :=
  match x with
  | Processor _ more => length more = 18%nat
  | IoApic _ more => length more = 6%nat
  | Wiring t more => length more = 7%nat /\ (t = MPBUS \/ t = MPIOINTR \/ t = MPLINTR)
  end.

Fixpoint bytes_at (m : mem) (a : Z) (l : list Z) : Prop :=
  match l with [] => True | c :: l' => m a = c /\ bytes_at m (a + 1) l' end.

Definition table_bytes (es : list mp_entry) : list Z := concat (encode <$> es).

(** The ids of the processors in order, and the id of the last interrupt controller. *)
Definition processors (es : list mp_entry) : list Z := omap (fun x => match x with Processor id _ => Some id | _ => None end) es.
Definition io_apics (es : list mp_entry) : list Z := omap (fun x => match x with IoApic id _ => Some id | _ => None end) es.

Definition enter (s : mpstate) (x : mp_entry) : mpstate :=
  match x with
  | Processor id _ => if (ncpu s <? NCPU)%nat then MP (fupd (apicid s) (ncpu s) id) (S (ncpu s)) (ioapicid s) (lapic s) else s
  | IoApic id _ => MP (apicid s) (ncpu s) id (lapic s)
  | Wiring _ _ => s
  end.

Lemma bytes_at_app m l1 l2 : forall a, bytes_at m a (l1 ++ l2) <-> bytes_at m a l1 /\ bytes_at m (a + Z.of_nat (length l1)) l2.
Proof.
  induction l1 as [|c l1 IH]; intros a; cbn [app bytes_at length]; [rewrite Z.add_0_r; tauto |]. rewrite IH.
  replace (a + 1 + Z.of_nat (length l1)) with (a + Z.of_nat (S (length l1))) by lia. tauto.
Qed.

Lemma table_step x m p e f ismp s : entry_size_ok x -> bytes_at m p (encode x) -> p < e ->
  entries_loop (S f) m p e ismp s = entries_loop f m (p + Z.of_nat (length (encode x))) e ismp (enter s x).
Proof.
  intros Hok Hb He. cbn [entries_loop]. rewrite (proj2 (Z.ltb_lt _ _) He). cbn [negb].
  destruct x as [id more | id more | t more]; cbn [encode bytes_at length entry_size_ok enter] in *.
  - destruct Hb as (-> & -> & _). rewrite Hok. done.
  - destruct Hb as (-> & -> & _). rewrite Hok. done.
  - destruct Hb as (-> & _). destruct Hok as [-> [-> | [-> | ->]]]; done.
Qed.

(** An entry of another type is never left. *)
Lemma unknown_entry m p e : p < e -> (m p < 0 \/ 4 < m p) -> forall fuel ismp s, entries_loop fuel m p e ismp s = None.
Proof.
  intros He Ht. induction fuel as [|f IH]; intros ismp s; [done |]. cbn [entries_loop]. rewrite (proj2 (Z.ltb_lt _ _) He). cbn [negb].
  unfold MPPROC, MPIOAPIC, MPBUS, MPIOINTR, MPLINTR. do 5 (rewrite (proj2 (Z.eqb_neq (m p) _)) by lia). cbn [orb]. apply IH.
Qed.

Lemma encode_pos x : 0 < Z.of_nat (length (encode x)).
Proof. destruct x; simpl; lia. Qed.

Lemma table_cons x es m p e : bytes_at m p (table_bytes (x :: es)) -> p + Z.of_nat (length (table_bytes (x :: es))) <= e ->
  let q := p + Z.of_nat (length (encode x)) in
  bytes_at m p (encode x) /\ bytes_at m q (table_bytes es) /\ p < e /\ p + Z.of_nat (length (table_bytes (x :: es))) = q + Z.of_nat (length (table_bytes es)).
Proof.
  intros Hb He q. change (table_bytes (x :: es)) with (encode x ++ table_bytes es) in *. apply bytes_at_app in Hb as [H1 H2]. rewrite length_app in *.
  pose proof (encode_pos x). split_and!; [done | done | lia | unfold q; lia].
Qed.

(** The entries [es] are read one by one, and then the loop goes on behind them. *)
Lemma entries_read e m ismp fuel : forall es p s, Forall entry_size_ok es -> bytes_at m p (table_bytes es) ->
  p + Z.of_nat (length (table_bytes es)) <= e ->
  entries_loop (length es + fuel) m p e ismp s = entries_loop fuel m (p + Z.of_nat (length (table_bytes es))) e ismp (foldl enter s es).
Proof.
  induction es as [|x es IH]; intros p s Hok Hb He; [by rewrite Z.add_0_r |]. apply list.Forall_cons in Hok as [Hx Hok].
  destruct (table_cons x es m p e Hb He) as (H1 & H2 & H3 & H4). cbn [length Nat.add foldl]. rewrite (table_step x) by done. rewrite H4 in *. by apply IH.
Qed.

Lemma entries_stuck e m ismp : forall es p s fuel, Forall entry_size_ok es -> bytes_at m p (table_bytes es) ->
  (let q := p + Z.of_nat (length (table_bytes es)) in q < e /\ (m q < 0 \/ 4 < m q)) -> entries_loop fuel m p e ismp s = None.
Proof.
  induction es as [|x es IH]; intros p s fuel Hok Hb [He Ht]; [rewrite Z.add_0_r in *; by apply unknown_entry |]. apply list.Forall_cons in Hok as [Hx Hok].
  destruct (table_cons x es m p e Hb) as (H1 & H2 & H3 & H4); [lia |]. destruct fuel as [|f]; [done |]. rewrite (table_step x) by done. rewrite H4 in *. by apply IH.
Qed.

Lemma last_behind (l : list Z) : forall x d, List.last (x :: l) d = List.last l x.
Proof.
  assert (Hd : forall (l : list Z) y c d, List.last (y :: l) c = List.last (y :: l) d).
  { clear. induction l as [|z l IH]; intros y c d; [done | apply (IH z)]. }
  intros x d. destruct l as [|y l]; [done | apply (Hd l y)].
Qed.

(** What the entries make of a state: processors are appended while there is room. *)
Lemma enter_all es : forall s,
  let s' := foldl enter s es in
  ncpu s' = (if (ncpu s <=? NCPU)%nat then Nat.min NCPU (ncpu s + length (processors es)) else ncpu s) /\
  (forall i, (i < ncpu s)%nat -> apicid s' i = apicid s i) /\
  (forall i id, processors es !! i = Some id -> (ncpu s + i < NCPU)%nat -> apicid s' (ncpu s + i)%nat = id) /\
  ioapicid s' = List.last (io_apics es) (ioapicid s) /\ lapic s' = lapic s.
Proof.
  induction es as [|x es IH]; intros s; cbv zeta.
  { split_and!; try done. change (length (processors [])) with 0%nat. cbn [foldl]. destruct (Nat.leb_spec (ncpu s) NCPU); lia. }
  cbn [foldl]. destruct (IH (enter s x)) as (H1 & H2 & H3 & H4 & H5). set (s' := foldl enter (enter s x) es) in *. rewrite H1, H4, H5.
  destruct x as [id more | id more | t more]; cbn [enter processors io_apics omap list_omap] in *.
  - fold (processors es) in *. fold (io_apics es) in *. destruct (Nat.ltb_spec (ncpu s) NCPU) as [Hlt | Hge]; cbn [ncpu apicid ioapicid lapic] in *.
    + split_and!; try done.
      * cbn [length]. rewrite (proj2 (Nat.leb_le (S (ncpu s)) NCPU)), (proj2 (Nat.leb_le (ncpu s) NCPU)) by lia. lia.
      * intros i Hi. rewrite H2, fupd_other by lia. done.
      * intros [|i] id' Hid Hi; cbn in Hid; [injection Hid as ->; rewrite Nat.add_0_r, H2, fupd_same by lia; done |].
        replace (ncpu s + S i)%nat with (S (ncpu s) + i)%nat by lia. apply H3; [done | lia].
    + split_and!; try done; [| intros i id' _ Hi; lia]. cbn [length]. destruct (Nat.leb_spec (ncpu s) NCPU); lia.
  - fold (processors es) in *. fold (io_apics es) in *. split_and!; try done. symmetry. apply last_behind.
  - by split_and!.
Qed.

(** The search gives the first structure of the range that is one. *)
Lemma mpsearch1_first m n : forall p,
  match mpsearch1_loop n m p with
  | Some q => exists k, (k < n)%nat /\ q = p + MP_SIZE * Z.of_nat k /\ is_mp m q = true /\ forall j, (j < k)%nat -> is_mp m (p + MP_SIZE * Z.of_nat j) = false
  | None => forall j, (j < n)%nat -> is_mp m (p + MP_SIZE * Z.of_nat j) = false
  end.
Proof.
  induction n as [|n IH]; intros p; cbn [mpsearch1_loop]; [intros j; lia |].
  destruct (is_mp m p) eqn:E; [exists 0%nat; rewrite Z.mul_0_r, Z.add_0_r; split_and!; [lia | done | done | intros j; lia] |].
  assert (Hs : forall j, p + MP_SIZE * Z.of_nat (S j) = p + MP_SIZE + MP_SIZE * Z.of_nat j) by (intros; lia).
  assert (H0 : is_mp m (p + MP_SIZE * Z.of_nat 0) = false) by (by rewrite Z.mul_0_r, Z.add_0_r).
  specialize (IH (p + MP_SIZE)). destruct (mpsearch1_loop n m (p + MP_SIZE)) as [q|].
  - destruct IH as (k & Hk & -> & Hq & Hj). exists (S k). rewrite Hs. split_and!; [lia | done | done |]. intros [|j] Hlt; [done | rewrite Hs; apply Hj; lia].
  - intros [|j] Hlt; [done | rewrite Hs; apply IH; lia].
Qed.

(** C38: start-up reads the configuration table.  When the search finds a table whose entries are [es], [mpinit] ends and records the
    first eight processors of the table in order, the last interrupt controller and the address of the local one; it masks external
    interrupts exactly when the table asks for it.  When an entry of an unknown type follows [es], it runs for ever: the panic
    meant for this case is not reached. *)
Theorem mpinit_reads_table m inb s conf mp es :
  mpconfig m = Some (conf, mp) -> ncpu s = 0%nat -> Forall entry_size_ok es -> bytes_at m (conf + MPCONF_SIZE) (table_bytes es) ->
  let size := MPCONF_SIZE + Z.of_nat (length (table_bytes es)) in
  (ld16 m (conf + 4) = size -> forall fuel, (length es < fuel)%nat ->
     exists s', mpinit fuel m inb s = MpDone s' (if m (mp + 12) =? 0 then [] else [(34, 112); (35, Z.lor inb 1)]) /\
       ncpu s' = Nat.min NCPU (length (processors es)) /\ (forall i id, processors es !! i = Some id -> (i < NCPU)%nat -> apicid s' i = id) /\
       ioapicid s' = List.last (io_apics es) (ioapicid s) /\ lapic s' = ld32 m (conf + 36)) /\
  (size < ld16 m (conf + 4) -> m (conf + size) < 0 \/ 4 < m (conf + size) -> forall fuel, mpinit fuel m inb s = MpRunning).
Proof.
  intros Hc Hn Hok Hb size. unfold mpinit. rewrite Hc. set (s1 := MP _ _ _ _). split.
  - intros Hl fuel Hf. replace fuel with (length es + S (fuel - length es - 1))%nat by lia. rewrite Hl, entries_read by (done || unfold size; lia).
    cbn [entries_loop]. rewrite (proj2 (Z.ltb_ge _ _)) by (unfold size; lia). cbn [negb].
    destruct (enter_all es s1) as (H1 & _ & H3 & H4 & H5). change (ncpu s1) with (ncpu s) in *. rewrite Hn in *. eexists. split; [done |]. by split_and!.
  - intros Hl Ht fuel. rewrite entries_stuck with (es := es); [done | done | done |]. unfold size in *. rewrite <- (Z.add_assoc conf). split; [lia | done].
Qed.

(** A machine with two processors and an interrupt controller, its tables in the BIOS. *)
Definition demo_entries : list mp_entry := [Processor 0 (replicate 18 0); Processor 1 (replicate 18 0); IoApic 2 (replicate 6 0)].
Definition demo_mp : list Z := sig_mp ++ [0; 1; 15; 0; 1; 4; 144; 0; 0; 0; 0; 0].
Definition demo_conf : list Z :=
  sig_pcmp ++ [92; 0; 4; 138] ++ replicate 20 0 ++ replicate 6 0 ++ [3; 0; 0; 0; 224; 254; 0; 0; 0; 0] ++ table_bytes demo_entries.
Definition demo_bios : mem := fun a =>
  let o := a - P2V 983040 in
  if o <? 32 then 0 else if o <? 48 then nth (Z.to_nat (o - 32)) demo_mp 0 else if o <? 256 then 0 else nth (Z.to_nat (o - 256)) demo_conf 0.

Lemma mpinit_reads_table_witness :
  exists s', mpinit 4 demo_bios 0 (MP (fun _ => 0) 0 0 0) = MpDone s' [] /\ ncpu s' = 2%nat /\ apicid s' 1%nat = 1 /\ ioapicid s' = 2 /\ lapic s' = 4276092928.
Proof.
  destruct (mpinit_reads_table demo_bios 0 (MP (fun _ => 0) 0 0 0) (P2V 983296) (P2V 983072) demo_entries) as [Ht _];
    [by vm_compute | done | by repeat constructor | by vm_compute; repeat split |].
  destruct (Ht ltac:(by vm_compute) 4%nat ltac:(simpl; lia)) as (s' & E & H1 & H2 & H3 & H4). exists s'.
  split; [rewrite E; by vm_compute |]. split; [rewrite H1; by vm_compute |]. split; [apply H2; [by vm_compute | unfold NCPU; lia] |]. split; [rewrite H3 | rewrite H4]; by vm_compute.
Defined.
