(* ===== verification/Kalloc.v ===== *)
(** * kalloc.c: the physical page allocator

    The free list is threaded through the free pages themselves: the first word of a free page is
    the address of the next one.  [kfree] checks the address, fills the page with junk and pushes
    it; [kalloc] pops.  [kmem.lock] makes each of them atomic and is not part of the state. *)
From S2P Require Import Prelude Mem CString Mmu.
#[local] Open Scope Z_scope.

Record kmem := Kmem {
  k_mem : mem;
  freelist : Z;
  use_lock : bool
}.

Section code.
Variable kend : Z.   (* the linker's [end]: first address after the kernel *)

Definition kfree (v : Z) : M kmem unit :=
  if negb (v mod PGSIZE =? 0) || (v <? kend) || (PHYSTOP <=? V2P v) then panic "kfree"
  else
    (* Fill with junk to catch dangling refs. *)
    modify (fun s => Kmem (memset (k_mem s) v 1 PGSIZE) (freelist s) (use_lock s)) ;;
    (* r->next = kmem.freelist; kmem.freelist = r; *)
    modify (fun s => Kmem (st32 (k_mem s) v (freelist s)) v (use_lock s)).

Definition kalloc : M kmem Z :=
  r ← gets freelist ;
  (if r =? 0 then mret tt
   else modify (fun s => Kmem (k_mem s) (ld32 (k_mem s) r) (use_lock s))) ;;
  mret r.

(** [for(; p + PGSIZE <= vend; p += PGSIZE) kfree(p);], at most [fuel] times. *)
Fixpoint freerange_loop (fuel : nat) (p vend : Z) : M kmem unit :=
  match fuel with
  | O => mret tt
  | S f => if p + PGSIZE <=? vend then kfree p ;; freerange_loop f (p + PGSIZE) vend
           else mret tt
  end.

(** A range of the 32-bit address space holds at most [2 ^ 20] pages; the loop is given one
    iteration for each page that fits and one for the test that ends it. *)
Definition freerange (vstart vend : Z) : M kmem unit :=
  let p := PGROUNDUP vstart in freerange_loop (S (Z.to_nat ((vend - p) / PGSIZE))) p vend.

Definition kinit1 (vstart vend : Z) : M kmem unit :=
  modify (fun s => Kmem (k_mem s) (freelist s) false) ;; freerange vstart vend.

Definition kinit2 (vstart vend : Z) : M kmem unit :=
  freerange vstart vend ;; modify (fun s => Kmem (k_mem s) (freelist s) true).

(** ** The free list *)

(** The pages the allocator may hold. *)
Definition page_ok (v : Z) : Prop :=
  0 <= v < 2 ^ 32 /\ v mod PGSIZE = 0 /\ kend <= v /\ V2P v < PHYSTOP.

Fixpoint chain (m : mem) (head : Z) (l : list Z) : Prop :=
  match l with
  | [] => head = 0
  | v :: l' => head = v /\ chain m (ld32 m v) l'
  end.

Record free_inv (s : kmem) (l : list Z) : Prop := {
  fr_chain : chain (k_mem s) (freelist s) l;
  fr_nodup : NoDup l;
  fr_pages : Forall page_ok l
}.

(** The bytes of page [v]. *)
Definition in_page (v a : Z) : Prop := v <= a < v + PGSIZE.

Lemma page_nonzero v : page_ok v -> v <> 0.
Proof. intros (H & _ & _ & Hp) ->. by vm_compute in Hp. Qed.

Lemma pages_disjoint v w a : page_ok v -> page_ok w -> v <> w -> in_page v a -> ~ in_page w a.
Proof.
  unfold page_ok, in_page, PGSIZE. intros (? & ? & _) (? & ? & _) ???.
  Z.to_euclidean_division_equations; lia.
Qed.

(** The chain depends only on the pages it links. *)
Lemma chain_ext m m' l : forall head,
  Forall page_ok l -> (forall v a, v ∈ l -> in_page v a -> m' a = m a) ->
  chain m head l -> chain m' head l.
Proof.
  induction l as [|v l IH]; intros head Hok H; [done |]. simpl. intros [-> Hc].
  apply Forall_cons_1 in Hok as [Hv Hok]. split; [done |].
  assert (ld32 m' v = ld32 m v) as ->.
  { unfold ld32. rewrite !(H v) by (try set_solver; unfold in_page, PGSIZE; lia). done. }
  apply IH; [done | | done]. intros w a Hw. apply H. set_solver.
Qed.

Lemma kfree_guard v :
  0 <= v < 2 ^ 32 ->
  (negb (v mod PGSIZE =? 0) || (v <? kend) || (PHYSTOP <=? V2P v)) = false <-> page_ok v.
Proof.
  intros Hv. unfold page_ok. rewrite !orb_false_iff, negb_false_iff, Z.eqb_eq, Z.ltb_ge, Z.leb_gt.
  tauto.
Qed.

Lemma kfree_ok s l v :
  free_inv s l -> page_ok v -> v ∉ l ->
  exists s', kfree v s = Ok tt s' /\ free_inv s' (v :: l) /\
    (forall a, ~ in_page v a -> k_mem s' a = k_mem s a) /\
    (forall a, v + 4 <= a < v + PGSIZE -> k_mem s' a = 1).
Proof.
  intros [Hc Hn Hp] Hv Hnin. pose proof Hv as (Hr & Hal & _).
  unfold kfree. rewrite (proj2 (kfree_guard v Hr) Hv). cbn.
  eexists. split; [reflexivity |]. simpl.
  assert (Hm : forall a, st32 (memset (k_mem s) v 1 PGSIZE) v (freelist s) a =
                    st32 (mfill (k_mem s) v PGSIZE 1) v (freelist s) a).
  { apply st32_proper; [|done..]. by apply memset_fill. }
  split_and!.
  - split; simpl; [|by constructor|by constructor]. split; [done |].
    rewrite ld32_st32.
    assert (u32 (freelist s) = freelist s) as ->.
    { destruct l as [|w l]; simpl in Hc; [by rewrite Hc | destruct Hc as [-> _]].
      apply Forall_cons_1 in Hp as [(? & _) _]. by apply u32_small. }
    apply (chain_ext (k_mem s)); [done | | done].
    intros w a Hw Ha. rewrite list.Forall_forall in Hp.
    assert (~ in_page v a).
    { intros Hva. apply (pages_disjoint v w a); [done | by apply Hp | by intros <- | done | done]. }
    rewrite Hm. unfold in_page, PGSIZE in *. rewrite st32_other by lia. by mem_cases.
  - intros a Ha. rewrite Hm. unfold in_page, PGSIZE in *. rewrite st32_other by lia. by mem_cases.
  - intros a Ha. rewrite Hm. unfold PGSIZE in *. rewrite st32_other by lia. by mem_cases.
Qed.

Lemma kalloc_ok s v l :
  free_inv s (v :: l) -> exists s', kalloc s = Ok v s' /\ free_inv s' l /\ k_mem s' = k_mem s.
Proof.
  intros [[Hh Hc] Hn Hp]. unfold kalloc. run_m. rewrite Hh.
  apply Forall_cons_1 in Hp as [Hv Hp]. apply list.NoDup_cons in Hn as [_ Hn].
  rewrite (proj2 (Z.eqb_neq v 0)) by by apply page_nonzero.
  eexists. split_and!; [done | by split | done].
Qed.

Lemma kalloc_empty s : free_inv s [] -> kalloc s = Ok 0 s.
Proof. intros [Hc _ _]. simpl in Hc. unfold kalloc. run_m. by rewrite Hc. Qed.

(** ** Filling the free list *)

(** The [n] consecutive pages from [p], last one first: the order in which pushing leaves them. *)
Fixpoint pushed (p : Z) (n : nat) (l : list Z) : list Z :=
  match n with O => l | S n' => pushed (p + PGSIZE) n' (p :: l) end.

Lemma elem_of_pushed n : forall p l v,
  v ∈ pushed p n l <-> v ∈ l \/ exists i, 0 <= i < Z.of_nat n /\ v = p + i * PGSIZE.
Proof.
  induction n as [|n IH]; intros p l v; cbn [pushed].
  { split; [by left | intros [? | (? & ? & _)]; [done | lia]]. }
  rewrite IH, elem_of_cons. split.
  - intros [[-> | ?] | (i & ? & ->)]; [right; exists 0 | by left | right; exists (i + 1)];
      split; lia.
  - intros [? | (i & ? & ->)]; [by left; right |].
    destruct (decide (i = 0)) as [-> | ?]; [left; left; lia | right; exists (i - 1); split; lia].
Qed.

Lemma freerange_loop_ok vend fuel : forall p s l,
  free_inv s l -> 0 <= p -> p mod PGSIZE = 0 -> kend <= p -> KERNBASE <= p ->
  vend <= KERNBASE + PHYSTOP -> (forall v, v ∈ l -> v < p) ->
  (Z.to_nat ((vend - p) / PGSIZE) < fuel)%nat ->
  exists s', freerange_loop fuel p vend s = Ok tt s' /\
    free_inv s' (pushed p (Z.to_nat ((vend - p) / PGSIZE)) l) /\ use_lock s' = use_lock s.
Proof.
  induction fuel as [|f IH]; intros p s l Hinv Hp0 Hal Hke Hkb Htop Hl Hf; [lia |].
  cbn [freerange_loop]. destruct (Z.leb_spec (p + PGSIZE) vend) as [Hle | Hgt].
  - assert (page_ok p) as Hok.
    { unfold page_ok, V2P, KERNBASE, PHYSTOP, PGSIZE in *. rewrite u32_small by lia.
      split_and!; lia. }
    destruct (kfree_ok s l p Hinv Hok) as (s1 & Hs1 & Hinv1 & _).
    { intros Hin. specialize (Hl _ Hin). lia. }
    assert (use_lock s1 = use_lock s) as Hlk.
    { revert Hs1. unfold kfree. destruct (_ || _); run_m; [done |]. by intros [= <-]. }
    unfold mbind, M_bind. rewrite Hs1.
    replace (Z.to_nat ((vend - p) / PGSIZE))
      with (S (Z.to_nat ((vend - (p + PGSIZE)) / PGSIZE)))
      by (unfold PGSIZE in *; Z.to_euclidean_division_equations; lia).
    cbn [pushed]. destruct (IH (p + PGSIZE) s1 (p :: l)) as (s2 & ? & ? & ?); try done.
    + unfold PGSIZE. lia.
    + unfold PGSIZE in *. Z.to_euclidean_division_equations; lia.
    + unfold PGSIZE. lia.
    + unfold PGSIZE. lia.
    + intros v [-> | Hv]%elem_of_cons; unfold PGSIZE; [lia |]. specialize (Hl _ Hv). lia.
    + unfold PGSIZE in *. Z.to_euclidean_division_equations; lia.
    + exists s2. split_and!; [done | done | congruence].
  - replace (Z.to_nat ((vend - p) / PGSIZE)) with O
      by (unfold PGSIZE in *; Z.to_euclidean_division_equations; lia).
    by exists s.
Qed.

(** ** A history of allocations *)

(** The allocator together with the pages handed out and not yet freed.  Besides calling [kalloc]
    and [kfree], the kernel may store anything into a page it owns. *)
Record heap := Heap { h_kmem : kmem; h_used : list Z }.

Inductive hstep : heap -> heap -> Prop :=
| hs_alloc k u v k' :
    kalloc k = Ok v k' -> v <> 0 -> hstep (Heap k u) (Heap k' (v :: u))
| hs_exhausted k u k' :
    kalloc k = Ok 0 k' -> hstep (Heap k u) (Heap k' u)
| hs_free k u v u' k' :
    u ≡ₚ v :: u' -> kfree v k = Ok tt k' -> hstep (Heap k u) (Heap k' u')
| hs_store k u v a b :
    v ∈ u -> in_page v a ->
    hstep (Heap k u) (Heap (Kmem (upd (k_mem k) a b) (freelist k) (use_lock k)) u).

Definition heap_inv (pages : list Z) (h : heap) : Prop :=
  exists l, free_inv (h_kmem h) l /\ h_used h ++ l ≡ₚ pages.

Lemma heap_step pages h h' :
  NoDup pages -> Forall page_ok pages -> heap_inv pages h -> hstep h h' -> heap_inv pages h'.
Proof.
  intros Hnd Hok (l & Hinv & Hperm) Hstep.
  assert (Hnd' : NoDup (h_used h ++ l)) by by rewrite Hperm.
  assert (Hok' : Forall page_ok (h_used h ++ l)) by by rewrite Hperm.
  apply list.NoDup_app in Hnd' as (Hu & Hdisj & Hl). apply Forall_app in Hok' as [Hou Hol].
  destruct Hstep as [k u v k' Ha Hv | k u k' Ha | k u v u' k' Hp Hf | k u v a b Hv Hin];
    simpl in *.
  - destruct l as [|w l]; [rewrite (kalloc_empty k Hinv) in Ha; congruence |].
    destruct (kalloc_ok k w l Hinv) as (k1 & Hk & Hinv1 & _). rewrite Hk in Ha.
    injection Ha as <- <-. exists l. split; [done |]. simpl. by rewrite Permutation_middle.
  - destruct l as [|w l].
    + rewrite (kalloc_empty k Hinv) in Ha. injection Ha as <-. by exists [].
    + destruct (kalloc_ok k w l Hinv) as (k1 & Hk & _). rewrite Hk in Ha.
      injection Ha as -> _. apply Forall_cons_1 in Hol as [Hw _]. by apply page_nonzero in Hw.
  - assert (v ∈ u) as Hvu by (rewrite Hp; by left).
    destruct (kfree_ok k l v Hinv) as (k1 & Hk & Hinv1 & _); [|by apply Hdisj|].
    { by apply (proj1 (list.Forall_forall _ _) Hou). }
    rewrite Hk in Hf. injection Hf as <-. exists (v :: l). split; [done |].
    rewrite <- Hperm, Hp. simpl. by rewrite <- Permutation_middle.
  - exists l. split; [|done]. destruct Hinv as [Hc Hn Hpg]. split; simpl; [|done|done].
    apply (chain_ext (k_mem k)); [done | | done]. intros w x Hw Hx. apply upd_other. intros ->.
    rewrite list.Forall_forall in Hou, Hol.
    apply (pages_disjoint v w a); [by apply Hou | by apply Hol | | done | done].
    intros ->. by apply (Hdisj w).
Qed.
End code.

(** ** Properties *)

(** C14: the allocator never hands out a page that is in use.  Start with the pages [pages] on the
    free list and let the kernel allocate, free what it owns and store anywhere in the pages it
    owns, in any order: the pages in use and the free ones always make up [pages] exactly, and
    what the next [kalloc] returns is a page of [pages] not in use, or 0 when all are in use. *)
Theorem kalloc_exclusive (kend : Z) (pages : list Z) (k : kmem) (h : heap) :
  free_inv kend k pages -> reach (hstep kend) (Heap k []) h ->
  exists v k', kalloc (h_kmem h) = Ok v k' /\
    ((v = 0 /\ h_used h ≡ₚ pages) \/
     (v <> 0 /\ v ∈ pages /\ v ∉ h_used h /\ page_ok kend v)).
Proof.
  intros Hk Hr. pose proof Hk as [_ Hnd Hok].
  assert (heap_inv kend pages h) as (l & Hinv & Hperm).
  { eapply reach_invariant; [| intros; by eapply heap_step | exact Hr]. by exists pages. }
  destruct l as [|w l].
  - exists 0, (h_kmem h). rewrite (kalloc_empty kend _ Hinv). split; [done | left].
    by rewrite app_nil_r in Hperm.
  - destruct (kalloc_ok kend _ w l Hinv) as (k' & Hka & _). exists w, k'. split; [done | right].
    assert (Hw : w ∈ h_used h ++ w :: l) by set_solver.
    assert (Hn : NoDup (h_used h ++ w :: l)) by by rewrite Hperm.
    assert (w ∈ pages) as Hwp by by rewrite <- Hperm.
    assert (page_ok kend w) by by apply (proj1 (list.Forall_forall _ _) Hok).
    split_and!; [by eapply page_nonzero | done | | done].
    intros Hu. apply list.NoDup_app in Hn as (_ & Hd & _). apply (Hd w Hu). by left.
Qed.

(** [freerange] (and so [kinit1], [kinit2]) puts every whole page of the range on the free
    list, once each, provided the range lies between the end of the kernel and the top of physical
    memory; the loop ends and nothing panics. *)
Theorem freerange_fills (kend vstart vend : Z) (s : kmem) :
  free_inv kend s [] -> kend <= vstart -> KERNBASE <= vstart -> vend <= KERNBASE + PHYSTOP ->
  vstart <= 2 ^ 32 - PGSIZE ->
  exists s' l, freerange kend vstart vend s = Ok tt s' /\ free_inv kend s' l /\
    forall v, v ∈ l <-> v mod PGSIZE = 0 /\ vstart <= v /\ v + PGSIZE <= vend.
Proof.
  intros Hinv Hke Hkb Htop Hws.
  destruct (PGROUNDUP_bounds vstart) as [Hr Hal]; [unfold KERNBASE in *; lia |].
  set (p := PGROUNDUP vstart) in *.
  destruct (freerange_loop_ok kend vend (S (Z.to_nat ((vend - p) / PGSIZE))) p s [])
    as (s' & Hs & Hinv' & _); try done; try (unfold KERNBASE in *; lia).
  { set_solver. }
  exists s'. eexists. split; [exact Hs |]. split; [exact Hinv' |]. intros v.
  rewrite elem_of_pushed. unfold PGSIZE in *. split.
  - intros [?%not_elem_of_nil | (i & Hi & ->)]; [done |]. split_and!; Z.to_euclidean_division_equations; lia.
  - intros (Hm & Hge & Hle). right. exists ((v - p) / 4096).
    Z.to_euclidean_division_equations; lia.
Qed.

(** A two-page heap at the bottom of the allocator's range, used by the witnesses. *)
Definition two_pages : kmem := Kmem (st32 (fun _ => 0) KERNBASE (KERNBASE + 4096)) KERNBASE false.

Lemma two_pages_inv : free_inv KERNBASE two_pages [KERNBASE; KERNBASE + 4096].
Proof.
  split; [by vm_compute | |].
  - apply list.NoDup_cons. split; [|apply NoDup_singleton]. rewrite list_elem_of_singleton. lia.
  - repeat constructor; by vm_compute.
Qed.

Lemma kalloc_exclusive_witness :
  exists v k', kalloc two_pages = Ok v k' /\ (v = 0 \/ v ∈ [KERNBASE; KERNBASE + 4096]).
Proof.
  destruct (kalloc_exclusive KERNBASE [KERNBASE; KERNBASE + 4096] two_pages (Heap two_pages []))
    as (v & k' & H & [[-> _] | (_ & Hv & _)]);
    [apply two_pages_inv | apply reach_refl | exists 0, k'; auto | exists v, k'; auto].
Defined.

Lemma freerange_fills_witness :
  exists s' (l : list Z), freerange KERNBASE (KERNBASE + 5) (KERNBASE + 12288) (Kmem (fun _ => 0) 0 false) =
    Ok tt s' /\ KERNBASE + 4096 ∈ l.
Proof.
  destruct (freerange_fills KERNBASE (KERNBASE + 5) (KERNBASE + 12288) (Kmem (fun _ => 0) 0 false))
    as (s' & l & H & _ & Hl); [| by vm_compute .. |].
  - split; [done | apply NoDup_nil_2 | done].
  - exists s', l. split; [exact H |]. apply Hl. by vm_compute.
Defined.
