(* ===== verification/Vm.v ===== *)
(** * vm.c: page tables and address spaces

    Page directories and page tables are pages of the byte memory that [Kalloc] manages; a virtual
    address is translated by reading them.  The console messages of the out-of-memory paths are not
    part of the state.  [readi] of the file system is an argument of [loaduvm]. *)
From S2P Require Import Prelude Mem CString Mmu Kalloc.
#[local] Open Scope Z_scope.

Section code.
Variable kend : Z.        (* the linker's [end] *)
Variable kdata : Z.       (* the linker's [data] *)

Notation MK := (M kmem).

Definition rd (a : Z) : MK Z := gets (fun s => ld32 (k_mem s) a).
Definition wr (a v : Z) : MK unit := modify (fun s => Kmem (st32 (k_mem s) a v) (freelist s) (use_lock s)).
Definition zero_page (v : Z) : MK unit :=
  modify (fun s => Kmem (memset (k_mem s) v 0 PGSIZE) (freelist s) (use_lock s)).
Definition move (d s n : Z) : MK unit :=
  modify (fun st => Kmem (memmove (k_mem st) d s n) (freelist st) (use_lock st)).

Definition present (e : Z) : bool := negb (Z.land e PTE_P =? 0).

(** Gives the address of the entry, 0 for none. *)
Definition walkpgdir (pgdir va : Z) (alloc : bool) : MK Z :=
  let pde := pgdir + 4 * PDX va in
  e ← rd pde ;
  if present e then mret (P2V (PTE_ADDR e) + 4 * PTX va)
  else if negb alloc then mret 0
  else
    pgtab ← kalloc ;
    if pgtab =? 0 then mret 0
    else
      zero_page pgtab ;;
      wr pde (Z.lor (Z.lor (Z.lor (V2P pgtab) PTE_P) PTE_W) PTE_U) ;;
      mret (pgtab + 4 * PTX va).

Fixpoint mappages_loop (fuel : nat) (pgdir a last pa perm : Z) : MK Z :=
  match fuel with
  | O => panic "out of fuel"
  | S f =>
      pte ← walkpgdir pgdir a true ;
      if pte =? 0 then mret (-1)
      else
        e ← rd pte ;
        if present e then panic "remap"
        else
          wr pte (Z.lor (Z.lor pa perm) PTE_P) ;;
          if a =? last then mret 0
          else mappages_loop f pgdir (a +u PGSIZE) last (pa +u PGSIZE) perm
  end.

(** The loop stops at [last]; the pages from [a] to it are counted modulo the address space. *)
Definition mappages (pgdir va size pa perm : Z) : MK Z :=
  let a := PGROUNDDOWN va in
  let last := PGROUNDDOWN (va +u size -u 1) in
  mappages_loop (S (Z.to_nat (u32 (last - a) / PGSIZE))) pgdir a last pa perm.

(** The [for] loop of [deallocuvm] from [a]: at each pass [a] grows by a page at least. *)
Fixpoint deallocuvm_loop (fuel : nat) (pgdir a oldsz : Z) : MK unit :=
  match fuel with
  | O => panic "out of fuel"
  | S f =>
      if negb (a <? oldsz) then mret tt
      else
        pte ← walkpgdir pgdir a false ;
        if pte =? 0 then deallocuvm_loop f pgdir (PGADDR (PDX a + 1) 0 0 -u PGSIZE +u PGSIZE) oldsz
        else
          e ← rd pte ;
          (if present e then
             let pa := PTE_ADDR e in
             if pa =? 0 then panic "kfree" else kfree kend (P2V pa) ;; wr pte 0
           else mret tt) ;;
          deallocuvm_loop f pgdir (a +u PGSIZE) oldsz
  end.

(** Fuel: one pass per page below [oldsz], one for the test that ends the loop. *)
Definition deallocuvm (pgdir oldsz newsz : Z) : MK Z :=
  if oldsz <=? newsz then mret oldsz
  else
    let a := PGROUNDUP newsz in
    deallocuvm_loop (S (S (Z.to_nat (oldsz / PGSIZE)))) pgdir a oldsz ;;
    mret newsz.

Fixpoint allocuvm_loop (fuel : nat) (pgdir a oldsz newsz : Z) : MK Z :=
  match fuel with
  | O => panic "out of fuel"
  | S f =>
      if negb (a <? newsz) then mret newsz
      else
        mem ← kalloc ;
        if mem =? 0 then deallocuvm pgdir newsz oldsz ;; mret 0
        else
          zero_page mem ;;
          r ← mappages pgdir a PGSIZE (V2P mem) (Z.lor PTE_W PTE_U) ;
          if r <? 0 then deallocuvm pgdir newsz oldsz ;; kfree kend mem ;; mret 0
          else allocuvm_loop f pgdir (a +u PGSIZE) oldsz newsz
  end.

Definition allocuvm (pgdir oldsz newsz : Z) : MK Z :=
  if KERNBASE <=? newsz then mret 0
  else if newsz <? oldsz then mret oldsz
  else allocuvm_loop (S (S (Z.to_nat (newsz / PGSIZE)))) pgdir (PGROUNDUP oldsz) oldsz newsz.

(** The loop of [freevm] over the directory entries, [n] of them from [i]. *)
Fixpoint freevm_loop (n : nat) (i pgdir : Z) : MK unit :=
  match n with
  | O => mret tt
  | S n' =>
      e ← rd (pgdir + 4 * i) ;
      (if present e then kfree kend (P2V (PTE_ADDR e)) else mret tt) ;;
      freevm_loop n' (i + 1) pgdir
  end.

Definition freevm (pgdir : Z) : MK unit :=
  if pgdir =? 0 then panic "freevm: no pgdir" else
  deallocuvm pgdir KERNBASE 0 ;;
  freevm_loop (Z.to_nat NPDENTRIES) 0 pgdir ;;
  kfree kend pgdir.

(** The kernel's mappings: virtual start, physical start and end, permissions. *)
Definition kmap : list (Z * Z * Z * Z) :=
  [(KERNBASE, 0, EXTMEM, PTE_W);
   (KERNLINK, V2P KERNLINK, V2P kdata, 0);
   (kdata, V2P kdata, PHYSTOP, PTE_W);
   (DEVSPACE, DEVSPACE, 0, PTE_W)].

Fixpoint map_kernel (ks : list (Z * Z * Z * Z)) (pgdir : Z) : MK Z :=
  match ks with
  | [] => mret pgdir
  | (virt, pstart, pend, perm) :: ks' =>
      r ← mappages pgdir virt (pend -u pstart) pstart perm ;
      if r <? 0 then freevm pgdir ;; mret 0 else map_kernel ks' pgdir
  end.

Definition setupkvm : MK Z :=
  pgdir ← kalloc ;
  if pgdir =? 0 then mret 0
  else
    zero_page pgdir ;;
    if DEVSPACE <? P2V PHYSTOP then panic "PHYSTOP too high"
    else map_kernel kmap pgdir.

Definition inituvm (pgdir init sz : Z) : MK unit :=
  if PGSIZE <=? sz then panic "inituvm: more than a page" else
  mem ← kalloc ;
  zero_page mem ;;
  mappages pgdir 0 PGSIZE (V2P mem) (Z.lor PTE_W PTE_U) ;;
  move mem init sz.

(** [loaduvm] runs in a state that contains the memory, to which [on_mem] lifts; [readi] is the read
    of the file system as [loaduvm] calls it: destination, offset, count. *)
Section loaduvm.
Context {T : Type} (on_mem : forall A, MK A -> M T A) (readi : Z -> Z -> Z -> M T Z).
Arguments on_mem {A}.

Fixpoint loaduvm_loop (fuel : nat) (pgdir addr offset i sz : Z) : M T Z :=
  match fuel with
  | O => panic "out of fuel"
  | S f =>
      if negb (i <? sz) then mret 0
      else
        pte ← on_mem (walkpgdir pgdir (addr +u i) false) ;
        if pte =? 0 then panic "loaduvm: address should exist"
        else
          e ← on_mem (rd pte) ;
          let pa := PTE_ADDR e in
          let n := if sz -u i <? PGSIZE then sz -u i else PGSIZE in
          r ← readi (P2V pa) (offset +u i) n ;
          if negb (r =? n) then mret (-1)
          else loaduvm_loop f pgdir addr offset (i +u PGSIZE) sz
  end.

Definition loaduvm (pgdir addr offset sz : Z) : M T Z :=
  if negb (addr mod PGSIZE =? 0) then panic "loaduvm: addr must be page aligned"
  else loaduvm_loop (S (S (Z.to_nat (sz / PGSIZE)))) pgdir addr offset 0 sz.
End loaduvm.

Definition clearpteu (pgdir uva : Z) : MK unit :=
  pte ← walkpgdir pgdir uva false ;
  if pte =? 0 then panic "clearpteu"
  else e ← rd pte ; wr pte (Z.land e (u32 (Z.lnot PTE_U))).

Fixpoint copyuvm_loop (fuel : nat) (pgdir d i sz : Z) : MK Z :=
  match fuel with
  | O => panic "out of fuel"
  | S f =>
      if negb (i <? sz) then mret d
      else
        pte ← walkpgdir pgdir i false ;
        if pte =? 0 then panic "copyuvm: pte should exist" else
        e ← rd pte ;
        if negb (present e) then panic "copyuvm: page not present" else
        let pa := PTE_ADDR e in
        let flags := PTE_FLAGS e in
        mem ← kalloc ;
        if mem =? 0 then freevm d ;; mret 0
        else
          move mem (P2V pa) PGSIZE ;;
          r ← mappages d i PGSIZE (V2P mem) flags ;
          if r <? 0 then freevm d ;; mret 0
          else copyuvm_loop f pgdir d (i +u PGSIZE) sz
  end.

Definition copyuvm (pgdir sz : Z) : MK Z :=
  d ← setupkvm ;
  if d =? 0 then mret 0
  else copyuvm_loop (S (S (Z.to_nat (sz / PGSIZE)))) pgdir d 0 sz.

(** [uva2ka] reads through the entry address without testing it for 0. *)
Definition uva2ka (pgdir uva : Z) : MK Z :=
  pte ← walkpgdir pgdir uva false ;
  e ← rd pte ;
  if negb (present e) then mret 0
  else if Z.land e PTE_U =? 0 then mret 0
  else mret (P2V (PTE_ADDR e)).

(** The bytes [l] stored at a kernel address. *)
Fixpoint put_bytes (a : Z) (l : list Z) : MK unit :=
  match l with
  | [] => mret tt
  | b :: l' =>
      modify (fun s => Kmem (upd (k_mem s) a (u8 b)) (freelist s) (use_lock s)) ;; put_bytes (a + 1) l'
  end.

Fixpoint copyout_loop (fuel : nat) (pgdir va : Z) (buf : list Z) : MK Z :=
  match fuel with
  | O => panic "out of fuel"
  | S f =>
      let len := Z.of_nat (length buf) in
      if len =? 0 then mret 0
      else
        let va0 := PGROUNDDOWN va in
        pa0 ← uva2ka pgdir va0 ;
        if pa0 =? 0 then mret (-1)
        else
          let n := PGSIZE -u (va -u va0) in
          let n := if len <? n then len else n in
          put_bytes (pa0 + (va -u va0)) (take (Z.to_nat n) buf) ;;
          copyout_loop f pgdir (va0 +u PGSIZE) (drop (Z.to_nat n) buf)
  end.

(** [copyout] of the [len] bytes that [p] points to, given as a list.  Fuel: the first page, one pass
    per further page, and the test that ends the loop. *)
Definition copyout (pgdir va : Z) (p : list Z) : MK Z :=
  copyout_loop (S (S (S (Z.to_nat (Z.of_nat (length p) / PGSIZE))))) pgdir va p.

(** ** The page-table register *)

Record cpumm := CpuMM { vm_mem : kmem; kpgdir : Z; cr3 : Z; ts_esp0 : Z; ts_ss0 : Z; ts_iomb : Z }.

Definition in_mem {A} (m : MK A) : M cpumm A :=
  zoom vm_mem (fun x s => CpuMM x (kpgdir s) (cr3 s) (ts_esp0 s) (ts_ss0 s) (ts_iomb s)) m.

Definition switchkvm : M cpumm unit :=
  modify (fun s => CpuMM (vm_mem s) (kpgdir s) (V2P (kpgdir s)) (ts_esp0 s) (ts_ss0 s) (ts_iomb s)).

Definition kvmalloc : M cpumm unit :=
  d ← in_mem setupkvm ;
  modify (fun s => CpuMM (vm_mem s) d (cr3 s) (ts_esp0 s) (ts_ss0 s) (ts_iomb s)) ;;
  switchkvm.

(** [switchuvm] of a pointer to a process, of which it uses the kernel stack and the page directory;
    [None] is the null pointer. *)
Definition switchuvm (p : option (Z * Z)) : M cpumm unit :=
  match p with
  | None => panic "switchuvm: no process"
  | Some (kstack, pgdir) =>
      if kstack =? 0 then panic "switchuvm: no kstack" else
      if pgdir =? 0 then panic "switchuvm: no pgdir" else
      modify (fun s => CpuMM (vm_mem s) (kpgdir s) (V2P pgdir) (kstack +u 4096) (Z.shiftl 2 3) 65535)
  end.
End code.

(** ** Entries *)

Lemma lor_low (x f k : Z) : 0 <= k -> x mod 2 ^ k = 0 -> 0 <= f < 2 ^ k -> Z.lor x f = x + f.
Proof.
  intros Hk Hx Hf. assert (Hl : Z.land x f = 0).
  { apply Z.bits_inj'. intros n Hn. rewrite Z.land_spec, Z.bits_0.
    destruct (Z.ltb_spec n k).
    - replace x with (x / 2 ^ k * 2 ^ k) by (Z.to_euclidean_division_equations; lia).
      by rewrite Z.mul_pow2_bits_low by lia.
    - destruct (decide (f = 0)) as [-> | ?]; [by rewrite Z.bits_0, andb_false_r |].
      rewrite (Z.bits_above_log2 f); [by rewrite andb_false_r | lia |].
      apply Z.log2_lt_pow2; [lia |]. eapply Z.lt_le_trans; [apply Hf |]. by apply Z.pow_le_mono_r; lia. }
  rewrite <- Z.lxor_lor by done. symmetry. by apply Z.add_nocarry_lxor.
Qed.

Lemma PTE_ADDR_eq e : PTE_ADDR e = u32 e - u32 e mod PGSIZE.
Proof. unfold PTE_ADDR. apply (land_pgmask (u32 e)). apply u32_range. Qed.

(** An entry built from an aligned physical address and flag bits. *)
Lemma PTE_ADDR_flags pa f : 0 <= pa < 2 ^ 32 -> pa mod PGSIZE = 0 -> 0 <= f < PGSIZE -> PTE_ADDR (Z.lor pa f) = pa.
Proof.
  intros Hpa Hal Hf. unfold PGSIZE in *. rewrite (lor_low pa f 12) by (try lia; exact Hal || exact Hf).
  rewrite PTE_ADDR_eq. unfold PGSIZE. rewrite u32_small; [| Z.to_euclidean_division_equations; lia].
  Z.to_euclidean_division_equations; lia.
Qed.


Lemma present_P e : present (Z.lor e PTE_P) = true.
Proof.
  unfold present, PTE_P. destruct (Z.eqb_spec (Z.land (Z.lor e 1) 1) 0) as [E | E]; [| done].
  assert (H : Z.testbit (Z.land (Z.lor e 1) 1) 0 = true) by (rewrite Z.land_spec, Z.lor_spec; by rewrite orb_true_r).
  by rewrite E in H.
Qed.

(** ** The address space a directory describes *)

(** Page tables by directory index: the tables are pages of their own, not free, and the directory
    points to exactly these. *)
Record pt_inv (kend : Z) (s : kmem) (l : list Z) (pgdir : Z) (tabs : gmap Z Z) : Prop := {
  pt_free : free_inv kend s l;
  pt_dir : page_ok kend pgdir /\ pgdir ∉ l;
  pt_tab : forall i t, tabs !! i = Some t -> 0 <= i < 1024 /\ page_ok kend t /\ t ∉ l /\ t <> pgdir /\
    present (ld32 (k_mem s) (pgdir + 4 * i)) = true /\ P2V (PTE_ADDR (ld32 (k_mem s) (pgdir + 4 * i))) = t;
  pt_none : forall i, 0 <= i < 1024 -> tabs !! i = None -> present (ld32 (k_mem s) (pgdir + 4 * i)) = false;
  pt_inj : forall i j t, tabs !! i = Some t -> tabs !! j = Some t -> i = j
}.

(** The pages a map of page numbers or directory indices points to. *)
Definition pages (m : gmap Z Z) : list Z := (map_to_list m).*2.

Lemma pages_insert m i v : m !! i = None -> pages (<[i := v]> m) ≡ₚ v :: pages m.
Proof. intros Hi. unfold pages. by rewrite map_to_list_insert. Qed.

Lemma pages_delete m i v : m !! i = Some v -> pages m ≡ₚ v :: pages (delete i m).
Proof. intros Hi. unfold pages. by rewrite <- (map_to_list_delete m i v). Qed.

Lemma elem_of_pages m v : v ∈ pages m <-> exists i, m !! i = Some v.
Proof.
  unfold pages. rewrite list_elem_of_fmap. split.
  - intros ([i w] & -> & Hi%elem_of_map_to_list). by exists i.
  - intros [i Hi]. exists (i, v). by rewrite elem_of_map_to_list.
Qed.

(** The page-table entry for an address; 0 where there is no table. *)
Definition entry (s : kmem) (tabs : gmap Z Z) (va : Z) : Z :=
  match tabs !! PDX va with Some t => ld32 (k_mem s) (t + 4 * PTX va) | None => 0 end.

Lemma PDX_eq va : 0 <= va < 2 ^ 32 -> PDX va = va / 2 ^ 22.
Proof.
  intros Hv. unfold PDX, PDXSHIFT. rewrite u32_small by done. rewrite Z.shiftr_div_pow2 by lia.
  change 1023 with (Z.ones 10). rewrite Z.land_ones by lia. apply Z.mod_small.
  split; [apply Z.div_pos; lia |]. apply Z.div_lt_upper_bound; lia.
Qed.

Lemma PTX_eq va : 0 <= va < 2 ^ 32 -> PTX va = va / 4096 mod 1024.
Proof.
  intros Hv. unfold PTX, PTXSHIFT. rewrite u32_small by done. rewrite Z.shiftr_div_pow2 by lia.
  change 1023 with (Z.ones 10). by rewrite Z.land_ones by lia.
Qed.

Lemma PDX_range va : 0 <= PDX va < 1024.
Proof. unfold PDX. change 1023 with (Z.ones 10). rewrite Z.land_ones by lia. apply Z.mod_pos_bound. lia. Qed.

Lemma PTX_range va : 0 <= PTX va < 1024.
Proof. unfold PTX. change 1023 with (Z.ones 10). rewrite Z.land_ones by lia. apply Z.mod_pos_bound. lia. Qed.

(** Same indices, same page. *)
Lemma same_page va va' :
  0 <= va < 2 ^ 32 -> 0 <= va' < 2 ^ 32 -> PDX va = PDX va' -> PTX va = PTX va' -> va / 4096 = va' / 4096.
Proof.
  intros H1 H2. rewrite !PDX_eq, !PTX_eq by done. change (2 ^ 22) with (4096 * 1024).
  rewrite <- !Z.div_div by lia. intros E1 E2.
  rewrite (Z.div_mod (va / 4096) 1024), (Z.div_mod (va' / 4096) 1024) by lia. congruence.
Qed.

Section walk.
Variable kend : Z.

Lemma pages_apart v w : page_ok kend v -> page_ok kend w -> v <> w -> v + PGSIZE <= w \/ w + PGSIZE <= v.
Proof.
  unfold page_ok, PGSIZE. intros (? & ? & _) (? & ? & _) ?. Z.to_euclidean_division_equations; lia.
Qed.

(** Stores into one page leave the free list and the words of other pages alone. *)
Lemma free_inv_ext s s' l :
  free_inv kend s l -> freelist s' = freelist s ->
  (forall v a, v ∈ l -> in_page v a -> k_mem s' a = k_mem s a) -> free_inv kend s' l.
Proof. intros [H1 H2 H3] Hf Hm. split; [| done | done]. rewrite Hf. by eapply (chain_ext kend). Qed.

Lemma word_st_other m v w i j x :
  page_ok kend v -> page_ok kend w -> v <> w -> 0 <= i < 1024 -> 0 <= j < 1024 ->
  ld32 (st32 m (v + 4 * i) x) (w + 4 * j) = ld32 m (w + 4 * j).
Proof.
  intros Hv Hw Hne Hi Hj. apply ld32_st32_other. destruct (pages_apart v w Hv Hw Hne); unfold PGSIZE in *; lia.
Qed.

Lemma st_in_page m v w i x a :
  page_ok kend v -> page_ok kend w -> v <> w -> 0 <= i < 1024 -> in_page w a -> st32 m (v + 4 * i) x a = m a.
Proof.
  intros Hv Hw Hne Hi Ha. apply st32_other. destruct (pages_apart v w Hv Hw Hne); unfold in_page, PGSIZE in *; lia.
Qed.

Lemma memset_other m v c a : 0 <= v -> ~ in_page v a -> memset m v c PGSIZE a = m a.
Proof.
  intros Hv Ha. rewrite (memset_fill m v c PGSIZE) by (unfold PGSIZE; lia). unfold in_page, PGSIZE in *. by mem_cases.
Qed.

Lemma memset_word m v j : 0 <= v -> 0 <= j < 1024 -> ld32 (memset m v 0 PGSIZE) (v + 4 * j) = 0.
Proof.
  intros Hv Hj. rewrite (memset_fill m v 0 PGSIZE) by (unfold PGSIZE; lia). unfold ld32, PGSIZE. by mem_cases.
Qed.

Lemma memset_word_other m v w c j :
  page_ok kend v -> page_ok kend w -> v <> w -> 0 <= j < 1024 -> ld32 (memset m v c PGSIZE) (w + 4 * j) = ld32 m (w + 4 * j).
Proof.
  intros Hv Hw Hne Hj. unfold ld32.
  assert (Hd : forall k, 0 <= k < 4 -> ~ in_page v (w + 4 * j + k)).
  { intros k Hk Hp. destruct (pages_apart v w Hv Hw Hne); unfold in_page, PGSIZE in *; lia. }
  assert (0 <= v) by apply Hv.
  pose proof (Hd 0) as H0. rewrite Z.add_0_r in H0. rewrite !memset_other; auto; first [apply H0; lia | apply Hd; lia].
Qed.

Lemma page_in v i k : 0 <= i < 1024 -> 0 <= k < 4 -> in_page v (v + 4 * i + k).
Proof. unfold in_page, PGSIZE. lia. Qed.

(** Where a walk may have changed memory. *)
Definition unchanged (s s' : kmem) (pgdir : Z) (tabs : gmap Z Z) : Prop :=
  forall a, ~ in_page pgdir a -> (forall i t, tabs !! i = Some t -> ~ in_page t a) -> k_mem s' a = k_mem s a.

(** A table pointer written for a fresh page reads back. *)
Lemma pde_roundtrip v :
  page_ok kend v ->
  let e := Z.lor (Z.lor (Z.lor (V2P v) PTE_P) PTE_W) PTE_U in
  present (u32 e) = true /\ P2V (PTE_ADDR (u32 e)) = v.
Proof.
  intros (Hr & Hal & _). cbv zeta. rewrite <- !Z.lor_assoc. change (Z.lor PTE_P (Z.lor PTE_W PTE_U)) with 7.
  assert (Hp : 0 <= V2P v < 2 ^ 32) by (unfold V2P; apply u32_range).
  assert (Ha : V2P v mod PGSIZE = 0).
  { unfold V2P, KERNBASE, PGSIZE in *. word. }
  assert (E : Z.lor (V2P v) 7 = V2P v + 7) by (apply (lor_low _ _ 12); [lia | exact Ha | lia]).
  assert (Eu : u32 (Z.lor (V2P v) 7) = Z.lor (V2P v) 7).
  { rewrite E. apply u32_small. unfold PGSIZE in Ha. Z.to_euclidean_division_equations; lia. }
  rewrite Eu. split.
  - replace (Z.lor (V2P v) 7) with (Z.lor (Z.lor (V2P v) 6) PTE_P) by (rewrite <- Z.lor_assoc; done).
    apply present_P.
  - rewrite PTE_ADDR_flags by (try done; unfold PGSIZE; lia). by apply P2V_V2P.
Qed.

Lemma walk_present s l pgdir tabs va t alloc :
  pt_inv kend s l pgdir tabs -> tabs !! PDX va = Some t ->
  walkpgdir pgdir va alloc s = Ok (t + 4 * PTX va) s.
Proof.
  intros Hi Ht. destruct (pt_tab _ _ _ _ _ Hi _ _ Ht) as (_ & _ & _ & _ & Hp & Ha).
  unfold walkpgdir, rd. erewrite bind_ok by reflexivity. by rewrite Hp, Ha.
Qed.

Lemma walk_absent s l pgdir tabs va :
  pt_inv kend s l pgdir tabs -> tabs !! PDX va = None -> walkpgdir pgdir va false s = Ok 0 s.
Proof.
  intros Hi Ht. unfold walkpgdir, rd. erewrite bind_ok by reflexivity.
  by rewrite (pt_none _ _ _ _ _ Hi _ (PDX_range va) Ht).
Qed.

Lemma walk_full s pgdir tabs va :
  pt_inv kend s [] pgdir tabs -> tabs !! PDX va = None -> walkpgdir pgdir va true s = Ok 0 s.
Proof.
  intros Hi Ht. unfold walkpgdir, rd. erewrite bind_ok by reflexivity.
  rewrite (pt_none _ _ _ _ _ Hi _ (PDX_range va) Ht). simpl.
  erewrite bind_ok by (apply (kalloc_empty kend); apply Hi). done.
Qed.

(** A missing table is created zeroed: the address space does not change. *)
Lemma walk_alloc s v l pgdir tabs va :
  pt_inv kend s (v :: l) pgdir tabs -> tabs !! PDX va = None ->
  exists s', walkpgdir pgdir va true s = Ok (v + 4 * PTX va) s' /\
    pt_inv kend s' l pgdir (<[PDX va := v]> tabs) /\
    (forall va', entry s' (<[PDX va := v]> tabs) va' = entry s tabs va') /\
    unchanged s s' pgdir (<[PDX va := v]> tabs).
Proof.
  intros Hi Ht. pose proof Hi as [Hf [Hd Hdl] Htab Hnone Hinj]. pose proof (PDX_range va) as Hx.
  destruct (kalloc_ok kend s v l Hf) as (s1 & E1 & Hf1 & Em).
  pose proof Hf as [_ [Hvl Hnd]%list.NoDup_cons [Hv Hpl]%Forall_cons_1].
  assert (Hvd : v <> pgdir) by (intros ->; apply Hdl; by left).
  assert (Hv0 : 0 <= v) by apply Hv.
  set (pde := Z.lor (Z.lor (Z.lor (V2P v) PTE_P) PTE_W) PTE_U).
  set (m' := st32 (memset (k_mem s) v 0 PGSIZE) (pgdir + 4 * PDX va) pde).
  set (s' := Kmem m' (freelist s1) (use_lock s1)).
  assert (Hrun : walkpgdir pgdir va true s = Ok (v + 4 * PTX va) s').
  { unfold walkpgdir, rd. erewrite bind_ok by reflexivity. rewrite (Hnone _ Hx Ht). simpl.
    erewrite bind_ok by exact E1. rewrite (proj2 (Z.eqb_neq v 0)) by (by eapply page_nonzero).
    do 2 (erewrite bind_ok by reflexivity). unfold s', m', pde. simpl. by rewrite Em. }
  assert (Hdirword : forall i, 0 <= i < 1024 -> i <> PDX va ->
    ld32 m' (pgdir + 4 * i) = ld32 (k_mem s) (pgdir + 4 * i)).
  { intros i Hir Hne. unfold m'. rewrite ld32_st32_other by lia. by apply memset_word_other. }
  assert (Hown : ld32 m' (pgdir + 4 * PDX va) = u32 pde) by (unfold m'; apply ld32_st32).
  assert (Htabword : forall w j, page_ok kend w -> w <> pgdir -> w <> v -> 0 <= j < 1024 ->
    ld32 m' (w + 4 * j) = ld32 (k_mem s) (w + 4 * j)).
  { intros w j Hw Hwd Hwv Hj. unfold m'. rewrite word_st_other by done. by apply memset_word_other. }
  assert (Hnew : forall j, 0 <= j < 1024 -> ld32 m' (v + 4 * j) = 0).
  { intros j Hj. unfold m'. rewrite word_st_other by done. by apply memset_word. }
  assert (Hoth : forall i t, tabs !! i = Some t -> t <> v).
  { intros i t E ->. destruct (Htab i v E) as (_ & _ & Hn & _). apply Hn. by left. }
  destruct (pde_roundtrip v Hv) as [Hpp Hpa]. exists s'. split; [exact Hrun |]. split_and!.
  - split; change (k_mem s') with m'.
    + eapply (free_inv_ext s1); [exact Hf1 | reflexivity |]. intros w a Hw Ha.
      change (k_mem s') with m'. rewrite Em. unfold m'.
      rewrite list.Forall_forall in Hpl. specialize (Hpl w Hw).
      assert (w <> pgdir) by (intros ->; apply Hdl; by right). assert (w <> v) by (intros ->; done).
      rewrite (st_in_page _ pgdir w) by done. apply memset_other; [done |].
      intros Hva. by apply (pages_disjoint kend v w a).
    + split; [done |]. intros Hin. apply Hdl. by right.
    + intros i t [[<- <-] | [Hne E]]%lookup_insert_Some.
      * rewrite Hown. split_and!; try done; lia.
      * destruct (Htab i t E) as (T1 & T2 & T3 & T4 & T5 & T6). rewrite Hdirword by done.
        split_and!; try done; try lia. intros Hin. apply T3. by right.
    + intros i Hir [Hne E]%lookup_insert_None. rewrite Hdirword by done. by apply Hnone.
    + intros i j t [[<- <-] | [Hne E]]%lookup_insert_Some [[<- E2] | [Hne2 E2]]%lookup_insert_Some; try done.
      * by apply Hoth in E2.
      * subst t. by apply Hoth in E.
      * by eapply Hinj.
  - intros va'. unfold entry. destruct (decide (PDX va' = PDX va)) as [E | E].
    + rewrite E, lookup_insert_eq, Ht. change (k_mem s') with m'. apply Hnew, PTX_range.
    + rewrite lookup_insert_ne by done. destruct (tabs !! PDX va') as [t|] eqn:Et; [| done].
      destruct (Htab _ _ Et) as (_ & T2 & _ & T4 & _). change (k_mem s') with m'.
      apply Htabword; [done | done | by eapply Hoth | apply PTX_range].
  - intros a Ha Hta. change (k_mem s') with m'. unfold m'.
    assert (Hnv : ~ in_page v a) by (apply (Hta (PDX va)); apply lookup_insert_eq).
    rewrite st32_other; [by apply memset_other |]. unfold in_page, PGSIZE in Ha. lia.
Qed.

(** [walkpgdir] with [alloc] set, in one statement. *)
Lemma walk_ok s l pgdir tabs va :
  pt_inv kend s l pgdir tabs ->
  (l = [] /\ tabs !! PDX va = None /\ walkpgdir pgdir va true s = Ok 0 s) \/
  (exists s' l' tabs' t, walkpgdir pgdir va true s = Ok (t + 4 * PTX va) s' /\ pt_inv kend s' l' pgdir tabs' /\
     tabs' !! PDX va = Some t /\ tabs ⊆ tabs' /\ pages tabs' ++ l' ≡ₚ pages tabs ++ l /\
     (forall va', entry s' tabs' va' = entry s tabs va') /\ unchanged s s' pgdir tabs').
Proof.
  intros Hi. destruct (tabs !! PDX va) as [t|] eqn:Ht.
  - right. exists s, l, tabs, t. split_and!; try done. by apply (walk_present s l pgdir tabs va t true).
  - destruct l as [|v l].
    + left. split_and!; [done | done | by eapply walk_full].
    + right. destruct (walk_alloc s v l pgdir tabs va Hi Ht) as (s' & E & Hi' & Hen & Hun).
      exists s', l, (<[PDX va := v]> tabs), v. split_and!; try done.
      * apply lookup_insert_eq.
      * by apply insert_subseteq.
      * rewrite pages_insert by done. by rewrite <- Permutation_middle.
Qed.

(** Storing an entry changes the address space at that page only. *)
Lemma set_entry s l pgdir tabs va t x :
  pt_inv kend s l pgdir tabs -> 0 <= va < 2 ^ 32 -> tabs !! PDX va = Some t ->
  let s' := Kmem (st32 (k_mem s) (t + 4 * PTX va) x) (freelist s) (use_lock s) in
  pt_inv kend s' l pgdir tabs /\ unchanged s s' pgdir tabs /\
  forall va', 0 <= va' < 2 ^ 32 ->
    entry s' tabs va' = if decide (va' / 4096 = va / 4096) then u32 x else entry s tabs va'.
Proof.
  intros Hi Hva Ht s'. pose proof Hi as [Hf [Hd Hdl] Htab Hnone Hinj]. pose proof (PTX_range va) as Hx.
  destruct (Htab _ _ Ht) as (T1 & T2 & T3 & T4 & _).
  assert (Hdir : forall i, 0 <= i < 1024 -> ld32 (k_mem s') (pgdir + 4 * i) = ld32 (k_mem s) (pgdir + 4 * i)).
  { intros i Hir. by apply word_st_other. }
  split_and!.
  - split; try done.
    + eapply (free_inv_ext s); [done | done |]. intros w a Hw Ha. pose proof Hf as [_ _ Hpl].
      rewrite list.Forall_forall in Hpl. apply (st_in_page _ t w); auto. by intros ->.
    + intros i t' E. destruct (Htab i t' E) as (U1 & U2 & U3 & U4 & U5 & U6). by rewrite Hdir.
    + intros i Hir E. rewrite Hdir by done. by apply Hnone.
  - intros a Ha Hta. specialize (Hta _ _ Ht). apply st32_other. unfold in_page, PGSIZE in Hta. lia.
  - intros va' Hva'. unfold entry. destruct (decide (PDX va' = PDX va)) as [Ed | Ed].
    + rewrite Ed, Ht. cbn [k_mem]. destruct (decide (PTX va' = PTX va)) as [Et | Et].
      * rewrite Et, decide_True by (by apply same_page). apply ld32_st32.
      * rewrite decide_False; [apply ld32_st32_other; pose proof (PTX_range va'); lia |].
        intros E. apply Et. by rewrite !PTX_eq, E.
    + rewrite decide_False.
      2: { intros E. apply Ed. rewrite !PDX_eq by done. change (2 ^ 22) with (4096 * 1024).
           by rewrite <- !Z.div_div, E by lia. }
      destruct (tabs !! PDX va') as [t'|] eqn:Et'; [| done].
      destruct (Htab _ _ Et') as (_ & U2 & _). apply word_st_other; try done; [| apply PTX_range].
      intros ->. by apply Ed, (Hinj _ _ t').
Qed.

Lemma unchanged_trans s s1 s2 pgdir tabs tabs' :
  unchanged s s1 pgdir tabs -> unchanged s1 s2 pgdir tabs' -> tabs ⊆ tabs' -> unchanged s s2 pgdir tabs'.
Proof.
  intros H1 H2 Hs a Ha Hta. rewrite H2 by done. apply H1; [done |]. intros i t E. eapply Hta.
  by eapply lookup_weaken.
Qed.

Definition pte_value (a pa perm va : Z) : Z :=
  u32 (Z.lor (Z.lor (pa + 4096 * ((va - a) / 4096)) perm) PTE_P).

Lemma mappages_loop_ok k : forall a pa perm s l pgdir tabs,
  pt_inv kend s l pgdir tabs -> 0 <= a -> a mod 4096 = 0 -> a + 4096 * (Z.of_nat k + 1) <= 2 ^ 32 ->
  0 <= pa -> pa + 4096 * Z.of_nat k < 2 ^ 32 ->
  (forall va, a <= va < a + 4096 * (Z.of_nat k + 1) -> present (entry s tabs va) = false) ->
  exists r s' l' tabs', mappages_loop (S k) pgdir a (a + 4096 * Z.of_nat k) pa perm s = Ok r s' /\
    pt_inv kend s' l' pgdir tabs' /\ unchanged s s' pgdir tabs' /\ tabs ⊆ tabs' /\ pages tabs' ++ l' ≡ₚ pages tabs ++ l /\
    (forall va, 0 <= va < 2 ^ 32 -> ~ a <= va < a + 4096 * (Z.of_nat k + 1) -> entry s' tabs' va = entry s tabs va) /\
    ((r = 0 /\ forall va, a <= va < a + 4096 * (Z.of_nat k + 1) -> entry s' tabs' va = pte_value a pa perm va) \/
     (r = -1 /\ l' = [] /\ forall va, a + 4096 * Z.of_nat k <= va < a + 4096 * (Z.of_nat k + 1) ->
        entry s' tabs' va = entry s tabs va)).
Proof.
  induction k as [|k IH]; intros a pa perm s l pgdir tabs Hi Ha Hal Hend Hpa Hpe Hnp;
    cbn [mappages_loop];
    (destruct (walk_ok s l pgdir tabs a Hi) as [(-> & Ht & E) |
       (s1 & l1 & tabs1 & t & E & Hi1 & Ht & Hsub & Hll & Hen & Hun)];
     [erewrite bind_ok by exact E; eexists (-1), s, [], tabs; split_and!; try done; by right |]);
    erewrite bind_ok by exact E;
    destruct (pt_tab _ _ _ _ _ Hi1 _ _ Ht) as (_ & Tok & _);
    assert (Hnz : t + 4 * PTX a <> 0) by
      (pose proof (page_nonzero kend t Tok); pose proof (PTX_range a); destruct Tok; lia);
    rewrite (proj2 (Z.eqb_neq _ 0)) by exact Hnz;
    (erewrite bind_ok by reflexivity);
    (assert (Hent : ld32 (k_mem s1) (t + 4 * PTX a) = entry s tabs a) by
       (rewrite <- Hen; unfold entry; by rewrite Ht));
    rewrite Hent, Hnp by lia; (erewrite bind_ok by reflexivity);
    destruct (set_entry s1 l1 pgdir tabs1 a t (Z.lor (Z.lor pa perm) PTE_P) Hi1 ltac:(lia) Ht) as (Hi2 & Hun2 & Hen2);
    set (s2 := Kmem _ _ _) in *; pose proof (unchanged_trans _ _ _ _ _ _ Hun Hun2 ltac:(done)) as Hun02.
  - rewrite (proj2 (Z.eqb_eq _ _)) by lia. exists 0, s2, l1, tabs1. split_and!; try done.
    + intros va Hva Hout. rewrite Hen2, decide_False, Hen by first [done | Z.to_euclidean_division_equations; lia]. done.
    + left. split; [done |]. intros va Hva. rewrite Hen2, decide_True by (Z.to_euclidean_division_equations; lia).
      unfold pte_value. by replace ((va - a) / 4096) with 0 by (Z.to_euclidean_division_equations; lia); rewrite Z.add_0_r.
  - rewrite (proj2 (Z.eqb_neq _ _)) by lia. rewrite (u32_small (a + PGSIZE)), (u32_small (pa + PGSIZE)) by (unfold PGSIZE; lia).
    destruct (IH (a + PGSIZE) (pa + PGSIZE) perm s2 l1 pgdir tabs1 Hi2)
      as (r & s' & l' & tabs' & E' & Hi' & Hun' & Hsub' & Hll' & Hout' & Hres); unfold PGSIZE in *;
      [lia | Z.to_euclidean_division_equations; lia | lia | lia | lia | |].
    { intros va Hva. rewrite Hen2, decide_False, Hen by (Z.to_euclidean_division_equations; lia). apply Hnp. lia. }
    replace (a + 4096 + 4096 * Z.of_nat k) with (a + 4096 * Z.of_nat (S k)) in E' by lia.
    exists r, s', l', tabs'. split; [exact E' |].
    split_and!; [done | by eapply unchanged_trans | by etrans | by etrans | |].
    + intros va Hva Hout. rewrite Hout', Hen2, decide_False, Hen by first [done | lia | Z.to_euclidean_division_equations; lia]. done.
    + destruct Hres as [[-> Hres] | (-> & -> & Hres)]; [left | right; split_and!; try done].
      2: { intros va Hva. rewrite Hres, Hen2, decide_False, Hen by first [lia | Z.to_euclidean_division_equations; lia]. done. }
      split; [done |]. intros va Hva.
      destruct (decide (va < a + 4096)) as [Hlt | Hge].
      * rewrite Hout', Hen2, decide_True by first [lia | Z.to_euclidean_division_equations; lia].
        unfold pte_value. by replace ((va - a) / 4096) with 0 by (Z.to_euclidean_division_equations; lia); rewrite Z.add_0_r.
      * rewrite Hres by lia. unfold pte_value. do 3 f_equal. Z.to_euclidean_division_equations; lia.
Qed.
(** The pages from [va] to [va + size - 1], as the page-aligned range [mappages] goes through. *)
Lemma mappages_ok s l pgdir tabs va size pa perm :
  pt_inv kend s l pgdir tabs -> 0 <= va -> 1 <= size -> va + size <= 2 ^ 32 -> 0 <= pa ->
  let a := va - va mod 4096 in
  let e := va + size - 1 - (va + size - 1) mod 4096 + 4096 in
  pa + (e - a) < 2 ^ 32 + 4096 ->
  (forall x, a <= x < e -> present (entry s tabs x) = false) ->
  exists r s' l' tabs', mappages pgdir va size pa perm s = Ok r s' /\ pt_inv kend s' l' pgdir tabs' /\
    unchanged s s' pgdir tabs' /\ tabs ⊆ tabs' /\ pages tabs' ++ l' ≡ₚ pages tabs ++ l /\
    (forall x, 0 <= x < 2 ^ 32 -> ~ a <= x < e -> entry s' tabs' x = entry s tabs x) /\
    ((r = 0 /\ forall x, a <= x < e -> entry s' tabs' x = pte_value a pa perm x) \/
     (r = -1 /\ l' = [] /\ forall x, e - 4096 <= x < e -> entry s' tabs' x = entry s tabs x)).
Proof.
  intros Hi Hva Hsz Hend Hpa a e Hpe Hnp. unfold mappages.
  rewrite (PGROUNDDOWN_eq va) by lia.
  assert (El : va +u size -u 1 = va + size - 1).
  { rewrite u32_sub_l. apply u32_small. lia. }
  rewrite El, (PGROUNDDOWN_eq (va + size - 1)) by lia. unfold PGSIZE. fold a.
  set (last := va + size - 1 - (va + size - 1) mod 4096) in *.
  assert (Hle : a <= last) by (unfold a, last; Z.to_euclidean_division_equations; lia).
  assert (Hd : exists k, last = a + 4096 * Z.of_nat k).
  { exists (Z.to_nat ((last - a) / 4096)). unfold a, last in *. Z.to_euclidean_division_equations; lia. }
  destruct Hd as [k Hk]. rewrite (u32_small (last - a)) by (unfold a, last in *; Z.to_euclidean_division_equations; lia).
  replace (Z.to_nat ((last - a) / 4096)) with k by (rewrite Hk; Z.to_euclidean_division_equations; lia).
  assert (He : e = a + 4096 * (Z.of_nat k + 1)) by (unfold e; lia).
  destruct (mappages_loop_ok k a pa perm s l pgdir tabs Hi)
    as (r & s' & l' & tabs' & E & Hi' & Hun & Hsub & Hpg & Hout & Hres).
  - unfold a. Z.to_euclidean_division_equations; lia.
  - unfold a. Z.to_euclidean_division_equations; lia.
  - unfold a, last in *. Z.to_euclidean_division_equations; lia.
  - done.
  - unfold a, last in *. Z.to_euclidean_division_equations; lia.
  - intros x Hx. apply Hnp. lia.
  - rewrite <- Hk in E. rewrite He. exists r, s', l', tabs'. split_and!; try done.
    destruct Hres as [? | (-> & -> & Hres)]; [by left | right; split_and!; try done]. intros x Hx. apply Hres. lia.
Qed.
End walk.

(** ** Properties *)

(** [mappages] maps exactly the pages it is asked to.  On a consistent directory whose pages in
    the range are not mapped, it returns 0 or -1, does not panic, and keeps the directory
    consistent.  When it returns 0, the entry of every address in the pages from [va] to
    [va + size - 1] is the corresponding page from [pa] with the permissions and the present bit;
    it returns -1 only when no free page is left.  In both cases the entry of every other address
    is as before, no memory is changed outside the directory and its tables, and every page taken
    from the free list has become a table. *)
Theorem mappages_correct (kend : Z) (s : kmem) (l : list Z) (pgdir : Z) (tabs : gmap Z Z) (va size pa perm : Z) :
  pt_inv kend s l pgdir tabs -> 0 <= va -> 1 <= size -> va + size <= 2 ^ 32 -> 0 <= pa -> pa + size + 4096 < 2 ^ 32 ->
  let a := va - va mod 4096 in
  let e := va + size - 1 - (va + size - 1) mod 4096 + 4096 in
  (forall x, a <= x < e -> present (entry s tabs x) = false) ->
  exists r s' l' tabs', mappages pgdir va size pa perm s = Ok r s' /\ pt_inv kend s' l' pgdir tabs' /\
    unchanged s s' pgdir tabs' /\ tabs ⊆ tabs' /\ pages tabs' ++ l' ≡ₚ pages tabs ++ l /\
    (forall x, 0 <= x < 2 ^ 32 -> ~ a <= x < e -> entry s' tabs' x = entry s tabs x) /\
    ((r = 0 /\ forall x, a <= x < e -> entry s' tabs' x = pte_value a pa perm x) \/ (r = -1 /\ l' = [])).
Proof.
  intros Hi Hva Hsz Hend Hpa Hpe a e Hnp.
  destruct (mappages_ok kend s l pgdir tabs va size pa perm Hi Hva Hsz Hend Hpa)
    as (r & s' & l' & tabs' & E & Hi' & Hun & Hsub & Hpg & Hout & Hres); [| done |].
  - clear -Hva Hsz Hpe. Z.to_euclidean_division_equations; lia.
  - exists r, s', l', tabs'. split_and!; try done. destruct Hres as [? | (-> & -> & _)]; [by left | by right].
Qed.

(** Two free pages and a zeroed directory after them. *)
Definition demo_dir : Z := KERNBASE + 8192.

Lemma demo_pt : pt_inv KERNBASE two_pages [KERNBASE; KERNBASE + 4096] demo_dir ∅.
Proof.
  split.
  - apply two_pages_inv.
  - split; [by vm_compute |]. unfold demo_dir. rewrite !not_elem_of_cons. split_and!; [lia | lia | apply not_elem_of_nil].
  - intros i t Hi. by rewrite lookup_empty in Hi.
  - intros i Hi _. unfold two_pages. cbn [k_mem]. unfold demo_dir. rewrite ld32_st32_other by lia. done.
  - intros i j t Hi. by rewrite lookup_empty in Hi.
Qed.

Lemma mappages_correct_witness :
  exists r s' tabs', mappages demo_dir 8192 5000 0x3000 PTE_W two_pages = Ok r s' /\
    (r = -1 \/ entry s' tabs' 12300 = pte_value 8192 0x3000 PTE_W 12300).
Proof.
  destruct (mappages_correct KERNBASE two_pages _ demo_dir ∅ 8192 5000 0x3000 PTE_W demo_pt)
    as (r & s' & l' & tabs' & E & _ & _ & _ & _ & _ & Hr); [lia | lia | lia | lia | lia | |].
  - intros x _. unfold entry. by rewrite lookup_empty.
  - exists r, s', tabs'. split; [exact E |]. destruct Hr as [[_ Hr] | [-> _]]; [right | left; reflexivity].
    clear E. apply Hr. by vm_compute.
Defined.

(** [uva2ka] dereferences a null entry.  For an address whose page table does not exist,
    [walkpgdir] gives 0 and [uva2ka] (and so [copyout]) goes on to read the page-table entry at
    address 0: what it returns depends on the bytes that happen to be mapped there. *)
Theorem uva2ka_reads_null (kend : Z) (s : kmem) (l : list Z) (pgdir : Z) (tabs : gmap Z Z) (uva : Z) :
  pt_inv kend s l pgdir tabs -> tabs !! PDX uva = None ->
  uva2ka pgdir uva s =
    Ok (let e := ld32 (k_mem s) 0 in
        if negb (present e) then 0 else if Z.land e PTE_U =? 0 then 0 else P2V (PTE_ADDR e)) s.
Proof.
  intros Hi Ht. unfold uva2ka. erewrite bind_ok by (by eapply walk_absent).
  unfold rd. erewrite bind_ok by reflexivity. cbv zeta.
  destruct (negb (present _)); [done |]. by destruct (_ =? 0).
Qed.

Lemma uva2ka_reads_null_witness :
  uva2ka demo_dir 4096 two_pages =
    Ok (let e := ld32 (k_mem two_pages) 0 in
        if negb (present e) then 0 else if Z.land e PTE_U =? 0 then 0 else P2V (PTE_ADDR e)) two_pages.
Proof. apply (uva2ka_reads_null KERNBASE two_pages _ demo_dir ∅ 4096 demo_pt). apply lookup_empty. Defined.
