(* ===== verification/VmSpace.v ===== *)
(** * Address spaces

    What the page-table code of [Vm] does to a whole address space: the pages below [KERNBASE] a
    directory maps, the frames they are in, and who owns each page of the machine.  An address
    space is described by its directory, its page tables (by directory index) and its frames (by
    page number); all of these pages and the free list are distinct.  Growing, shrinking, copying
    and freeing an address space are shown to keep this description and to conserve pages. *)
From S2P Require Import Prelude Mem CString Mmu Kalloc Vm.
#[local] Open Scope Z_scope.

(** The number of pages of user memory. *)
Definition NUSER : Z := KERNBASE / PGSIZE.

(** No byte outside the pages [P] differs. *)
Definition untouched (P : list Z) (s s' : kmem) : Prop :=
  forall a, (forall v, v ∈ P -> ~ in_page v a) -> k_mem s' a = k_mem s a.

Lemma untouched_refl P s : untouched P s s.
Proof. by intros a _. Qed.

Lemma untouched_trans P s s1 s2 : untouched P s s1 -> untouched P s1 s2 -> untouched P s s2.
Proof. intros H1 H2 a Ha. rewrite H2 by done. by apply H1. Qed.

Lemma untouched_mono P Q s s' : (forall v, v ∈ P -> v ∈ Q) -> untouched P s s' -> untouched Q s s'.
Proof. intros Hpq H a Ha. apply H. auto. Qed.

Lemma NoDup_perm (l l' : list Z) : l ≡ₚ l' -> NoDup l -> NoDup l'.
Proof. by intros ->. Qed.

Section space.
Variable kend : Z.
Hypothesis Hkend : KERNLINK <= kend.

(** Directory [pgdir] with tables [tabs] maps user page [n] to frame [f] when [frames !! n = Some f];
    [l] are the free pages. *)
Record space (s : kmem) (l : list Z) (pgdir : Z) (tabs frames : gmap Z Z) : Prop := {
  sp_pt : pt_inv kend s l pgdir tabs;
  sp_map : forall n, 0 <= n < NUSER ->
    match frames !! n with
    | Some f => present (entry s tabs (4096 * n)) = true /\ P2V (PTE_ADDR (entry s tabs (4096 * n))) = f
    | None => present (entry s tabs (4096 * n)) = false
    end;
  sp_dom : forall n f, frames !! n = Some f -> 0 <= n < NUSER /\ page_ok kend f;
  sp_own : NoDup (pgdir :: pages tabs ++ pages frames ++ l)
}.

Lemma own_split pgdir T F (l : list Z) :
  NoDup (pgdir :: T ++ F ++ l) ->
  pgdir ∉ T /\ pgdir ∉ F /\ pgdir ∉ l /\ (forall v, v ∈ T -> v ∉ F /\ v ∉ l) /\ (forall v, v ∈ F -> v ∉ l).
Proof.
  rewrite list.NoDup_cons, !list.NoDup_app, !not_elem_of_app.
  intros ((H1 & H2 & H3) & _ & H4 & _ & H5 & _). split_and!; try done.
  intros v Hv. specialize (H4 v Hv). by rewrite not_elem_of_app in H4.
Qed.

Lemma page_ok_in l v : Forall (page_ok kend) l -> v ∈ l -> page_ok kend v.
Proof. rewrite list.Forall_forall. auto. Qed.

Lemma table_ok s l pgdir tabs v : pt_inv kend s l pgdir tabs -> v ∈ pages tabs -> page_ok kend v.
Proof. intros Hi [i Ht]%elem_of_pages. by destruct (pt_tab _ _ _ _ _ Hi i v Ht) as (_ & H & _). Qed.

(** A byte of one page is not in the pages of a list that does not hold it. *)
Lemma apart P v a :
  Forall (page_ok kend) P -> page_ok kend v -> v ∉ P -> in_page v a -> forall w, w ∈ P -> ~ in_page w a.
Proof.
  intros HP Hv Hn Ha w Hw. apply (pages_disjoint kend v w); auto; [by eapply page_ok_in | by intros ->].
Qed.

Lemma untouched_page P s s' v a :
  untouched P s s' -> Forall (page_ok kend) P -> page_ok kend v -> v ∉ P -> in_page v a -> k_mem s' a = k_mem s a.
Proof. intros H HP Hv Hn Ha. apply H. by apply (apart P v a). Qed.

Lemma word_of_page m m' v i :
  0 <= i < 1024 -> (forall a, in_page v a -> m' a = m a) -> ld32 m' (v + 4 * i) = ld32 m (v + 4 * i).
Proof.
  intros Hi H. unfold ld32. pose proof (page_in v i 0 Hi) as H0. rewrite Z.add_0_r in H0.
  rewrite !H; [done | apply page_in; lia | apply page_in; lia | apply page_in; lia | apply H0; lia].
Qed.

Lemma entry_frame s s' tabs va :
  (forall v a, v ∈ pages tabs -> in_page v a -> k_mem s' a = k_mem s a) -> entry s' tabs va = entry s tabs va.
Proof.
  intros H. unfold entry. destruct (tabs !! PDX va) as [t|] eqn:Et; [| done].
  apply word_of_page; [apply PTX_range |]. intros a. apply H. apply elem_of_pages. eauto.
Qed.

(** A directory depends only on its own pages. *)
Lemma pt_frame s l s' l' pgdir tabs :
  pt_inv kend s l pgdir tabs -> free_inv kend s' l' -> (forall v, v ∈ pgdir :: pages tabs -> v ∉ l') ->
  (forall v a, v ∈ pgdir :: pages tabs -> in_page v a -> k_mem s' a = k_mem s a) -> pt_inv kend s' l' pgdir tabs.
Proof.
  intros [Hf [Hd Hdl] Htab Hnone Hinj] Hf' Hl' Hm.
  assert (Hw : forall i, 0 <= i < 1024 -> ld32 (k_mem s') (pgdir + 4 * i) = ld32 (k_mem s) (pgdir + 4 * i)).
  { intros i Hi. apply word_of_page; [done |]. intros a. apply Hm. by left. }
  split; [done | | | | done].
  - split; [done |]. apply Hl'. by left.
  - intros i t Ht. destruct (Htab i t Ht) as (T1 & T2 & T3 & T4 & T5 & T6). rewrite Hw by done.
    split_and!; try done; try lia. apply Hl'. right. apply elem_of_pages. eauto.
  - intros i Hi Ht. rewrite Hw by done. by apply Hnone.
Qed.

Lemma space_frame s l s' l' pgdir tabs frames :
  space s l pgdir tabs frames -> free_inv kend s' l' -> NoDup (pgdir :: pages tabs ++ pages frames ++ l') ->
  (forall v a, v ∈ pgdir :: pages tabs -> in_page v a -> k_mem s' a = k_mem s a) -> space s' l' pgdir tabs frames.
Proof.
  intros [Hp Hm Hd Ho] Hf Hn Ha. split; [| | done | done].
  - apply (pt_frame s l); try done. destruct (own_split _ _ _ _ Hn) as (_ & _ & H3 & H4 & _).
    intros v [-> | Hv]%elem_of_cons; [done |]. by apply H4.
  - intros n Hn'. rewrite (entry_frame s) by (intros v a Hv; apply Ha; by right). by apply Hm.
Qed.

(** Pages a space owns. *)
Lemma space_pages s l pgdir tabs frames :
  space s l pgdir tabs frames -> Forall (page_ok kend) (pgdir :: pages tabs ++ pages frames ++ l).
Proof.
  intros [Hp _ Hd _]. constructor; [by apply Hp |]. rewrite !Forall_app. split_and!.
  - apply list.Forall_forall. intros v. by apply (table_ok s l pgdir).
  - apply list.Forall_forall. intros v [n Hv]%elem_of_pages. by apply (Hd n).
  - apply Hp.
Qed.
(** ** Removing pages *)

Lemma frame_pa f : page_ok kend f -> V2P f <> 0 /\ 0 <= V2P f < 2 ^ 32 /\ V2P f mod PGSIZE = 0 /\ P2V (V2P f) = f.
Proof.
  intros (Hr & Hal & Hk & _). rewrite P2V_V2P by done. revert Hkend.
  unfold V2P, KERNLINK, EXTMEM, KERNBASE, PGSIZE in *. intros. rewrite u32_small by lia.
  split_and!; [lia | lia | lia | Z.to_euclidean_division_equations; lia | done].
Qed.

Lemma PTE_ADDR_of_P2V e f : page_ok kend f -> P2V (PTE_ADDR e) = f -> PTE_ADDR e = V2P f.
Proof.
  intros Hf <-. symmetry. apply V2P_P2V. rewrite PTE_ADDR_eq. pose proof (u32_range e).
  unfold PGSIZE. Z.to_euclidean_division_equations; lia.
Qed.

(** The user page of an address. *)
Lemma user_page n : 0 <= n < NUSER -> 0 <= 4096 * n < 2 ^ 32 /\ 4096 * n / 4096 = n.
Proof. change NUSER with 524288. intros. split; [lia |]. by rewrite Z.mul_comm, Z.div_mul. Qed.

Lemma not_present_0 : present 0 = false.
Proof. done. Qed.

(** A mapped page has a table. *)
Lemma frame_table s l pgdir tabs frames n f :
  space s l pgdir tabs frames -> frames !! n = Some f -> exists t, tabs !! PDX (4096 * n) = Some t.
Proof.
  intros [_ Hm Hd _] Hf. destruct (Hd n f Hf) as [Hn _]. specialize (Hm n Hn). rewrite Hf in Hm.
  unfold entry in Hm. destruct (tabs !! PDX (4096 * n)) as [t|]; [by exists t | by destruct Hm].
Qed.

(** What [deallocuvm] does to one mapped page. *)
Lemma unmap_ok s l pgdir tabs frames n f t :
  space s l pgdir tabs frames -> frames !! n = Some f -> tabs !! PDX (4096 * n) = Some t ->
  exists s1, kfree kend f s = Ok tt s1 /\
    let s' := Kmem (st32 (k_mem s1) (t + 4 * PTX (4096 * n)) 0) (freelist s1) (use_lock s1) in
    space s' (f :: l) pgdir tabs (delete n frames) /\ untouched (f :: pages tabs) s s' /\
    (forall va, 0 <= va < 2 ^ 32 -> va / 4096 <> n -> entry s' tabs va = entry s tabs va).
Proof.
  intros Hs Hf Ht. pose proof Hs as [Hp Hm Hd Ho]. destruct (Hd n f Hf) as [Hn Hfo].
  destruct (user_page n Hn) as [Hva Hdiv].
  assert (HfF : f ∈ pages frames) by (apply elem_of_pages; eauto).
  destruct (own_split _ _ _ _ Ho) as (O1 & O2 & O3 & O4 & O5).
  destruct (kfree_ok kend s l f (pt_free _ _ _ _ _ Hp) Hfo (O5 f HfF)) as (s1 & E1 & Hf1 & Hm1 & _).
  assert (Hne : forall v, v ∈ pgdir :: pages tabs -> v <> f).
  { intros v [-> | Hv]%elem_of_cons ->; [done |]. by destruct (O4 f Hv). }
  assert (Hok : forall v, v ∈ pgdir :: pages tabs -> page_ok kend v).
  { intros v Hv. eapply page_ok_in; [exact (space_pages _ _ _ _ _ Hs) |]. rewrite app_comm_cons, elem_of_app. by left. }
  assert (Hpg : forall v a, v ∈ pgdir :: pages tabs -> in_page v a -> k_mem s1 a = k_mem s a).
  { intros v a Hv Ha. apply Hm1. apply (pages_disjoint kend v f a); auto. }
  assert (Hp1 : pt_inv kend s1 (f :: l) pgdir tabs).
  { apply (pt_frame s l); try done. intros v Hv [-> | Hvl]%elem_of_cons; [by apply (Hne f) |].
    apply elem_of_cons in Hv as [-> | Hv]; [done |]. by destruct (O4 v Hv). }
  exists s1. split; [done |]. intros s'.
  destruct (set_entry kend s1 (f :: l) pgdir tabs (4096 * n) t 0 Hp1 Hva Ht) as (Hp2 & Hun & Hen).
  assert (Hen1 : forall va, entry s1 tabs va = entry s tabs va).
  { intros va. apply entry_frame. intros v a Hv. apply Hpg. by right. }
  assert (Hother : forall va, 0 <= va < 2 ^ 32 -> va / 4096 <> n -> entry s' tabs va = entry s tabs va).
  { intros va Hv Hne'. unfold s'. rewrite Hen, Hdiv, decide_False, Hen1 by done. done. }
  split_and!.
  - split; [exact Hp2 | | |].
    + intros k Hk. destruct (user_page k Hk) as [Hk1 Hk2]. destruct (decide (k = n)) as [-> | Hkn].
      * rewrite lookup_delete_eq. unfold s'. by rewrite Hen, decide_True.
      * rewrite lookup_delete_ne by done. rewrite Hother by (try done; congruence). by apply Hm.
    + intros k g [_ Hk]%lookup_delete_Some. by apply Hd.
    + eapply NoDup_perm; [| exact Ho]. apply Permutation_skip, Permutation_app_head.
      rewrite (pages_delete frames n f Hf). simpl. by rewrite Permutation_middle.
  - intros a Ha. unfold s'. cbn [k_mem].
    assert (Hta : ~ in_page t a) by (apply Ha; right; apply elem_of_pages; eauto).
    rewrite st32_other; [apply Hm1, Ha; by left |]. pose proof (PTX_range (4096 * n)).
    unfold in_page, PGSIZE in Hta. lia.
  - exact Hother.
Qed.

(** The frames left when the pages from address [a] up to [b] are removed. *)
Definition cut (a b : Z) (frames : gmap Z Z) : gmap Z Z :=
  filter (fun p => ~ (a <= 4096 * p.1 < b)) frames.

Lemma cut_done a b frames : b <= a -> cut a b frames = frames.
Proof. intros H. apply map_filter_id. intros n f _. simpl. lia. Qed.

Lemma cut_step n b frames : 4096 * n < b -> cut (4096 * n) b frames = cut (4096 * n + 4096) b (delete n frames).
Proof.
  intros Hb. unfold cut. apply map_eq. intros i. apply option_eq. intros f.
  rewrite !map_lookup_filter_Some, lookup_delete_Some. simpl.
  split; [intros [H1 H2]; split_and!; [lia | done | lia] | intros [[H0 H1] H2]; split; [done | lia]].
Qed.

Lemma cut_skip a c b frames :
  a <= c -> (forall n f, frames !! n = Some f -> ~ (a <= 4096 * n < c)) -> cut a b frames = cut c b frames.
Proof. intros Hc H. apply map_filter_ext. intros n f Hf. simpl. specialize (H n f Hf). lia. Qed.

Lemma next_table a : 0 <= a < KERNBASE -> PGADDR (PDX a + 1) 0 0 -u PGSIZE +u PGSIZE = 4194304 * (a / 4194304) + 4194304.
Proof.
  unfold KERNBASE. intros Ha. unfold PGADDR. rewrite PDX_eq by lia. change (Z.shiftl 0 PTXSHIFT) with 0.
  rewrite !Z.lor_0_r, Z.shiftl_mul_pow2 by (unfold PDXSHIFT; lia). unfold PDXSHIFT. change (2 ^ 22) with 4194304.
  rewrite u32_sub_l, u32_add_l. replace ((a / 4194304 + 1) * 4194304 - PGSIZE + PGSIZE) with (4194304 * (a / 4194304) + 4194304) by lia.
  apply u32_small. Z.to_euclidean_division_equations; lia.
Qed.

Lemma table_word s tabs n t :
  tabs !! PDX (4096 * n) = Some t -> ld32 (k_mem s) (t + 4 * PTX (4096 * n)) = entry s tabs (4096 * n).
Proof. intros Ht. unfold entry. by rewrite Ht. Qed.

Lemma table_address kend' s l pgdir tabs i t va :
  pt_inv kend' s l pgdir tabs -> tabs !! i = Some t -> t + 4 * PTX va <> 0.
Proof.
  intros Hi Ht. destruct (pt_tab _ _ _ _ _ Hi _ _ Ht) as (_ & Tok & _).
  pose proof (page_nonzero _ t Tok). pose proof (PTX_range va). destruct Tok. lia.
Qed.

(** Without a table no page of its range is mapped. *)
Lemma no_table s l pgdir tabs frames a n f :
  space s l pgdir tabs frames -> 0 <= a < KERNBASE -> tabs !! PDX a = None -> frames !! n = Some f ->
  ~ (a <= 4096 * n < 4194304 * (a / 4194304) + 4194304).
Proof.
  intros Hs Ha Ht Hf Hr. destruct (frame_table _ _ _ _ _ _ _ Hs Hf) as [t Ht'].
  assert (PDX (4096 * n) = PDX a) as E; [| congruence].
  unfold KERNBASE in Ha. rewrite !PDX_eq by (Z.to_euclidean_division_equations; lia). change (2 ^ 22) with 4194304.
  Z.to_euclidean_division_equations; lia.
Qed.

(** No two pages share a frame. *)
Lemma frame_inj s l pgdir tabs frames n k f :
  space s l pgdir tabs frames -> frames !! n = Some f -> frames !! k = Some f -> k = n.
Proof.
  intros [_ _ _ Ho] Hn Hk. destruct (decide (k = n)) as [| Hne]; [done |]. exfalso.
  apply list.NoDup_cons in Ho as [_ Ho]. apply list.NoDup_app in Ho as (_ & _ & Ho). apply list.NoDup_app in Ho as [Ho _].
  rewrite (pages_delete frames n f Hn), list.NoDup_cons in Ho. destruct Ho as [Ho _]. apply Ho, elem_of_pages.
  exists k. by rewrite lookup_delete_ne.
Qed.

Lemma deallocuvm_loop_ok b : forall fuel a s l frames pgdir tabs,
  space s l pgdir tabs frames -> 0 <= a -> a mod 4096 = 0 -> b <= KERNBASE ->
  1 <= Z.of_nat fuel -> b - a <= 4096 * (Z.of_nat fuel - 1) ->
  exists s' l', deallocuvm_loop kend fuel pgdir a b s = Ok tt s' /\
    space s' l' pgdir tabs (cut a b frames) /\ pages (cut a b frames) ++ l' ≡ₚ pages frames ++ l /\
    untouched (pages tabs ++ l') s s' /\
    (forall va, 0 <= va < 2 ^ 32 -> ~ (a <= va < 4096 * ((b + 4095) / 4096)) -> entry s' tabs va = entry s tabs va).
Proof.
  induction fuel as [|fuel IH]; intros a s l frames pgdir tabs Hs Ha Hal Hb Hf1 Hf2; [lia |].
  cbn [deallocuvm_loop]. destruct (Z.ltb_spec a b) as [Hab | Hab]; cbn [negb].
  2: { exists s, l. rewrite cut_done by done. split_and!; try done. }
  assert (Hap : exists n, a = 4096 * n) by (exists (a / 4096); Z.to_euclidean_division_equations; lia).
  destruct Hap as [n ->]. assert (Hn : 0 <= n < NUSER) by (change NUSER with 524288; unfold KERNBASE in Hb; lia).
  assert (Hk : 0 <= 4096 * n < KERNBASE) by lia.
  destruct (tabs !! PDX (4096 * n)) as [t|] eqn:Ht.
  - erewrite bind_ok by (eapply walk_present; [apply Hs | exact Ht]).
    rewrite (proj2 (Z.eqb_neq _ 0)) by (eapply table_address; [apply Hs | exact Ht]).
    unfold rd at 1. erewrite bind_ok by reflexivity. rewrite (table_word s tabs n t Ht).
    pose proof (sp_map _ _ _ _ _ Hs n Hn) as Hm.
    rewrite (u32_small (4096 * n + PGSIZE)) by (unfold PGSIZE, KERNBASE in *; lia).
    destruct (frames !! n) as [f|] eqn:Hfr.
    + destruct Hm as [Hpr Hpa]. rewrite Hpr. cbv zeta.
      destruct (sp_dom _ _ _ _ _ Hs n f Hfr) as [_ Hfo]. destruct (frame_pa f Hfo) as (Hnz & _ & _ & Hpv).
      rewrite (PTE_ADDR_of_P2V _ f Hfo Hpa). rewrite (proj2 (Z.eqb_neq _ 0) Hnz), Hpv.
      destruct (unmap_ok s l pgdir tabs frames n f t Hs Hfr Ht) as (s1 & E1 & Hs1 & Hu1 & He1).
      erewrite bind_ok by (erewrite bind_ok by exact E1; reflexivity). set (s2 := Kmem _ _ _) in *.
      destruct (IH (4096 * n + PGSIZE) s2 (f :: l) (delete n frames) pgdir tabs Hs1)
        as (s' & l' & E & Hs' & Hp' & Hu' & He');
        [unfold PGSIZE; lia | unfold PGSIZE; Z.to_euclidean_division_equations; lia | done | lia | unfold PGSIZE; lia |].
      exists s', l'. unfold PGSIZE in *. rewrite cut_step by done. split_and!; try done.
      * rewrite Hp', (pages_delete frames n f Hfr). simpl. by rewrite Permutation_middle.
      * apply (untouched_trans _ s s2); [| done]. eapply untouched_mono; [| exact Hu1].
        intros v [-> | Hv]%elem_of_cons; rewrite elem_of_app; [right | by left].
        assert (Hin : f ∈ pages (cut (4096 * n + 4096) b (delete n frames)) ++ l').
        { rewrite Hp'. rewrite elem_of_app. right. by left. }
        apply elem_of_app in Hin as [[k Hin]%elem_of_pages | Hin]; [| done].
        apply map_lookup_filter_Some in Hin as [[Hkn Hin]%lookup_delete_Some _].
        destruct Hkn. symmetry. by apply (frame_inj s l pgdir tabs frames n k f).
      * intros va Hva Hout. rewrite He' by (try done; lia). apply He1; [done |]. Z.to_euclidean_division_equations; lia.
    + rewrite Hm. erewrite bind_ok by reflexivity.
      destruct (IH (4096 * n + PGSIZE) s l frames pgdir tabs Hs)
        as (s' & l' & E & Hs' & Hp' & Hu' & He');
        [unfold PGSIZE; lia | unfold PGSIZE; Z.to_euclidean_division_equations; lia | done | lia | unfold PGSIZE; lia |].
      exists s', l'. unfold PGSIZE in *. rewrite cut_step, delete_id by done. split_and!; try done.
      intros va Hva Hout. apply He'; [done | lia].
  - erewrite bind_ok by (eapply walk_absent; [apply Hs | exact Ht]). rewrite Z.eqb_refl.
    rewrite next_table by done. set (c := 4194304 * _ + 4194304) in *.
    assert (Hc : 4096 * n + 4096 <= c /\ c mod 4096 = 0) by (unfold c; Z.to_euclidean_division_equations; lia).
    destruct (IH c s l frames pgdir tabs Hs) as (s' & l' & E & Hs' & Hp' & Hu' & He'); [lia | lia | done | lia | lia |].
    exists s', l'. rewrite (cut_skip (4096 * n) c) by (try lia; intros k f; by apply (no_table s l pgdir tabs)).
    split_and!; try done. intros va Hva Hout. apply He'; [done | lia].
Qed.

Lemma deallocuvm_ok s l pgdir tabs frames oldsz newsz :
  space s l pgdir tabs frames -> 0 <= newsz -> newsz < oldsz -> oldsz <= KERNBASE ->
  exists s' l', deallocuvm kend pgdir oldsz newsz s = Ok newsz s' /\
    let kept := cut (PGROUNDUP newsz) oldsz frames in
    space s' l' pgdir tabs kept /\ pages kept ++ l' ≡ₚ pages frames ++ l /\ untouched (pages tabs ++ l') s s' /\
    (forall va, 0 <= va < 2 ^ 32 -> ~ (PGROUNDUP newsz <= va < PGROUNDUP oldsz) -> entry s' tabs va = entry s tabs va).
Proof.
  intros Hs Hn Hlt Hk. unfold deallocuvm. rewrite (proj2 (Z.leb_gt oldsz newsz) Hlt). cbv zeta.
  destruct (PGROUNDUP_bounds newsz) as [Hr1 Hr2]; [unfold PGSIZE, KERNBASE in *; lia |].
  assert (Eo : PGROUNDUP oldsz = 4096 * ((oldsz + 4095) / 4096)).
  { rewrite PGROUNDUP_eq by (unfold PGSIZE, KERNBASE in *; lia). unfold PGSIZE. do 2 f_equal. lia. }
  destruct (deallocuvm_loop_ok oldsz (S (S (Z.to_nat (oldsz / PGSIZE)))) (PGROUNDUP newsz) s l frames pgdir tabs Hs)
    as (s' & l' & E & H1 & H2 & H3 & H4); [lia | exact Hr2 | done | lia | |].
  - unfold PGSIZE. rewrite !Nat2Z.inj_succ, Z2Nat.id; Z.to_euclidean_division_equations; lia.
  - exists s', l'. erewrite bind_ok by exact E. split; [done |]. rewrite Eo. by split_and!.
Qed.

(** ** Freeing an address space *)

(** What the second loop of [freevm] relies on, from directory index [i]: tables [tabs] are left. *)
Record dir_inv (i : Z) (s : kmem) (l : list Z) (pgdir : Z) (tabs : gmap Z Z) : Prop := {
  di_free : free_inv kend s l;
  di_dir : page_ok kend pgdir;
  di_tab : forall j t, tabs !! j = Some t -> i <= j < 1024 /\ page_ok kend t /\
    present (ld32 (k_mem s) (pgdir + 4 * j)) = true /\ P2V (PTE_ADDR (ld32 (k_mem s) (pgdir + 4 * j))) = t;
  di_none : forall j, i <= j < 1024 -> tabs !! j = None -> present (ld32 (k_mem s) (pgdir + 4 * j)) = false;
  di_own : NoDup (pgdir :: pages tabs ++ l)
}.

(** One table freed. *)
Lemma free_table i s l pgdir tabs t :
  dir_inv i s l pgdir tabs -> 0 <= i -> tabs !! i = Some t ->
  exists s', kfree kend t s = Ok tt s' /\ dir_inv (i + 1) s' (t :: l) pgdir (delete i tabs) /\ untouched [t] s s'.
Proof.
  intros [Hf Hd Ht Hn Ho] Hi Hit. destruct (Ht i t Hit) as (_ & Hto & _).
  assert (Hp : pgdir :: pages tabs ++ l ≡ₚ pgdir :: pages (delete i tabs) ++ t :: l).
  { rewrite (pages_delete tabs i t Hit). simpl. by rewrite <- Permutation_middle. }
  pose proof (NoDup_perm _ _ Hp Ho) as Ho'. clear Hp.
  assert (Htl : t ∉ l /\ pgdir <> t /\ forall k, tabs !! k = Some t -> k = i).
  { apply list.NoDup_cons in Ho' as [O1 O2]. apply list.NoDup_app in O2 as (_ & O2 & O3). apply list.NoDup_cons in O3 as [O3 _].
    split_and!; [done | intros ->; apply O1; apply elem_of_app; right; by left |]. intros k Hk.
    destruct (decide (k = i)) as [| Hne]; [done |]. exfalso. apply (O2 t); [| by left]. apply elem_of_pages. exists k.
    by rewrite lookup_delete_ne. }
  destruct Htl as (H1 & H2 & H3). destruct (kfree_ok kend s l t Hf Hto H1) as (s' & E & Hf' & Hm & _).
  assert (Hw : forall j, 0 <= j < 1024 -> ld32 (k_mem s') (pgdir + 4 * j) = ld32 (k_mem s) (pgdir + 4 * j)).
  { intros j Hj. apply word_of_page; [done |]. intros a Ha. apply Hm. by apply (pages_disjoint kend pgdir t a). }
  exists s'. split_and!; [done | |].
  - split; [done | done | | | done].
    + intros j w [Hne Hj]%lookup_delete_Some. destruct (Ht j w Hj) as (T1 & T2 & T3 & T4). rewrite Hw by lia.
      split_and!; try done; lia.
    + intros j Hj Hjn. rewrite Hw by lia. apply Hn; [lia |]. by rewrite lookup_delete_ne in Hjn by lia.
  - intros a Ha. apply Hm, Ha. by left.
Qed.

Lemma freevm_loop_ok : forall n i s l pgdir tabs,
  dir_inv i s l pgdir tabs -> 0 <= i -> i + Z.of_nat n = 1024 ->
  exists s' l', freevm_loop kend n i pgdir s = Ok tt s' /\ free_inv kend s' l' /\ l' ≡ₚ pages tabs ++ l /\
    untouched (pages tabs) s s'.
Proof.
  induction n as [|n IH]; intros i s l pgdir tabs Hd Hi Hn; cbn [freevm_loop].
  - exists s, l. assert (tabs = ∅) as ->.
    { apply map_empty. intros j. destruct (tabs !! j) as [t|] eqn:E; [| done].
      destruct (di_tab _ _ _ _ _ Hd j t E) as [? _]. lia. }
    split_and!; [done | apply Hd | done | apply untouched_refl].
  - unfold rd at 1. erewrite bind_ok by reflexivity. destruct (tabs !! i) as [t|] eqn:E.
    + destruct (di_tab _ _ _ _ _ Hd i t E) as (_ & _ & Hp & Ha). rewrite Hp, Ha.
      destruct (free_table i s l pgdir tabs t Hd Hi E) as (s1 & E1 & Hd1 & Hu1).
      erewrite bind_ok by exact E1.
      destruct (IH (i + 1) s1 (t :: l) pgdir (delete i tabs) Hd1) as (s' & l' & E' & Hf' & Hl' & Hu'); [lia | lia |].
      exists s', l'. split_and!; [done | done | |].
      * rewrite Hl', (pages_delete tabs i t E). simpl. by rewrite <- Permutation_middle.
      * apply (untouched_trans _ s s1).
        -- eapply untouched_mono; [| exact Hu1]. intros v ->%list_elem_of_singleton. apply elem_of_pages. eauto.
        -- eapply untouched_mono; [| exact Hu']. intros v [k [_ Hk]%lookup_delete_Some]%elem_of_pages. apply elem_of_pages. eauto.
    + rewrite (di_none _ _ _ _ _ Hd i) by (try done; lia). erewrite bind_ok by reflexivity.
      apply IH; [| lia | lia]. destruct Hd as [H1 H2 H3 H4 H5]. split; try done.
      * intros j t Hj. destruct (H3 j t Hj) as (T1 & T). split; [| done].
        assert (j <> i) by (intros ->; congruence). lia.
      * intros j Hj. apply H4. lia.
Qed.

(** [freevm] gives back every page of the address space. *)
Lemma freevm_ok s l pgdir tabs frames :
  space s l pgdir tabs frames ->
  exists s' l', freevm kend pgdir s = Ok tt s' /\ free_inv kend s' l' /\
    l' ≡ₚ pgdir :: pages tabs ++ pages frames ++ l /\ untouched l' s s'.
Proof.
  intros Hs. unfold freevm. pose proof (pt_dir _ _ _ _ _ (sp_pt _ _ _ _ _ Hs)) as [Hd _].
  rewrite (proj2 (Z.eqb_neq pgdir 0)) by (by eapply page_nonzero).
  destruct (deallocuvm_ok s l pgdir tabs frames KERNBASE 0 Hs) as (s1 & l1 & E1 & Hs1 & Hp1 & Hu1 & _); [lia | done | done |].
  erewrite bind_ok by exact E1. revert Hs1 Hp1.
  assert (cut (PGROUNDUP 0) KERNBASE frames = ∅) as ->.
  { apply map_empty. intros n. apply map_lookup_filter_None_2. right. intros f E. simpl.
    destruct (sp_dom _ _ _ _ _ Hs n f E) as [Hn _].
    change NUSER with 524288 in Hn. change (PGROUNDUP 0) with 0. unfold KERNBASE. lia. }
  intros Hs1 Hp1. change (pages ∅) with (@nil Z) in Hp1. simpl in Hp1.
  destruct (freevm_loop_ok (Z.to_nat NPDENTRIES) 0 s1 l1 pgdir tabs) as (s2 & l2 & E2 & Hf2 & Hp2 & Hu2); [| lia | done |].
  { destruct Hs1 as [[G1 G2 G3 G4 _] _ _ G6]. split; try done.
    intros j t Hj. destruct (G3 j t Hj) as (T1 & T2 & _ & _ & T5 & T6). split; [done | split; [done | by split]]. }
  erewrite bind_ok by exact E2.
  destruct (kfree_ok kend s2 l2 pgdir Hf2 Hd) as (s' & E' & Hf' & Hm' & _).
  { rewrite Hp2, Hp1. by destruct (proj1 (list.NoDup_cons _ _) (sp_own _ _ _ _ _ Hs)). }
  assert (Hl' : pgdir :: l2 ≡ₚ pgdir :: pages tabs ++ pages frames ++ l) by by rewrite Hp2, Hp1.
  exists s', (pgdir :: l2). split_and!; try done.
  apply (untouched_trans _ s s1); [| apply (untouched_trans _ s1 s2)].
  - eapply untouched_mono; [| exact Hu1]. intros v Hv. right. by rewrite Hp2.
  - eapply untouched_mono; [| exact Hu2]. intros v Hv. right. rewrite Hp2, elem_of_app. by left.
  - intros a Ha. apply Hm', Ha. by left.
Qed.

(** ** Mapping a page *)

Lemma lor_flags f g : 0 <= f < 4096 -> 0 <= g < 4096 -> 0 <= Z.lor f g < 4096.
Proof.
  intros Hf Hg. assert (0 <= Z.lor f g) by (apply Z.lor_nonneg; lia). split; [done |].
  destruct (decide (Z.lor f g = 0)) as [-> | Hn]; [lia |]. change 4096 with (2 ^ 12) in *.
  apply Z.log2_lt_pow2; [lia |]. rewrite Z.log2_lor by lia.
  assert (Hl : forall x, 0 <= x < 2 ^ 12 -> Z.log2 x < 12).
  { intros x Hx. destruct (decide (x = 0)) as [-> | ?]; [done |]. apply Z.log2_lt_pow2; lia. }
  pose proof (Hl f Hf). pose proof (Hl g Hg). lia.
Qed.

(** The entry of a page in frame [f] with flags [perm]. *)
Definition pte_of (f perm : Z) : Z := Z.lor (V2P f) (Z.lor perm PTE_P).

Lemma pte_of_ok f perm :
  page_ok kend f -> 0 <= perm < 4096 ->
  u32 (Z.lor (Z.lor (V2P f) perm) PTE_P) = pte_of f perm /\ present (pte_of f perm) = true /\
  P2V (PTE_ADDR (pte_of f perm)) = f /\ PTE_FLAGS (pte_of f perm) = Z.lor perm PTE_P.
Proof.
  intros Hf Hp. destruct (frame_pa f Hf) as (_ & Hr & Hal & Hpv). unfold pte_of. rewrite <- Z.lor_assoc.
  pose proof (lor_flags perm PTE_P Hp ltac:(done)) as Hfl.
  assert (E : Z.lor (V2P f) (Z.lor perm PTE_P) = V2P f + Z.lor perm PTE_P) by (apply (lor_low _ _ 12); [lia | exact Hal | exact Hfl]).
  assert (Eu : u32 (Z.lor (V2P f) (Z.lor perm PTE_P)) = Z.lor (V2P f) (Z.lor perm PTE_P)).
  { rewrite E. apply u32_small. unfold PGSIZE in Hal. Z.to_euclidean_division_equations; lia. }
  split_and!.
  - exact Eu.
  - rewrite Z.lor_assoc. apply present_P.
  - rewrite PTE_ADDR_flags by done. done.
  - unfold PTE_FLAGS. rewrite Eu, E. change 4095 with (Z.ones 12). rewrite Z.land_ones by lia.
    change (2 ^ 12) with 4096. unfold PGSIZE in Hal. Z.to_euclidean_division_equations; lia.
Qed.

Lemma map_page_ok s l pgdir tabs frames n f perm :
  space s l pgdir tabs frames -> 0 <= n < NUSER -> frames !! n = None -> page_ok kend f ->
  NoDup (f :: pgdir :: pages tabs ++ pages frames ++ l) -> 0 <= perm < 4096 ->
  exists r s' l' tabs', mappages pgdir (4096 * n) PGSIZE (V2P f) perm s = Ok r s' /\ tabs ⊆ tabs' /\
    pages tabs' ++ l' ≡ₚ pages tabs ++ l /\ untouched (pgdir :: pages tabs ++ l) s s' /\
    (forall va, 0 <= va < 2 ^ 32 -> va / 4096 <> n -> entry s' tabs' va = entry s tabs va) /\
    ((r = 0 /\ space s' l' pgdir tabs' (<[n := f]> frames) /\ entry s' tabs' (4096 * n) = pte_of f perm) \/
     (r = -1 /\ l' = [] /\ space s' l' pgdir tabs' frames)).
Proof.
  intros Hs Hn Hfr Hf Hnd Hperm. pose proof Hs as [Hp Hm Hd Ho]. destruct (user_page n Hn) as [Hva Hdiv].
  destruct (frame_pa f Hf) as (_ & Hpa & _ & _). assert (Hn' : 0 <= n < 524288) by exact Hn.
  destruct (mappages_ok kend s l pgdir tabs (4096 * n) PGSIZE (V2P f) perm Hp)
    as (r & s' & l' & tabs' & E & Hp' & Hun & Hsub & Hpg & Hout & Hres);
    [lia | done | unfold PGSIZE; lia | lia | unfold PGSIZE; Z.to_euclidean_division_equations; lia | |].
  { intros x Hx. assert (entry s tabs x = entry s tabs (4096 * n)) as ->.
    { unfold PGSIZE in Hx. unfold entry.
      rewrite (PDX_eq x), (PTX_eq x), (PDX_eq (4096 * n)), (PTX_eq (4096 * n)) by (try lia; Z.to_euclidean_division_equations; lia).
      change (2 ^ 22) with (4096 * 1024). rewrite <- !Z.div_div by lia.
      replace (x / 4096) with (4096 * n / 4096) by (Z.to_euclidean_division_equations; lia). done. }
    specialize (Hm n Hn). by rewrite Hfr in Hm. }
  assert (Hother : forall va, 0 <= va < 2 ^ 32 -> va / 4096 <> n -> entry s' tabs' va = entry s tabs va).
  { intros va Hv Hne. apply Hout; [done |]. unfold PGSIZE. Z.to_euclidean_division_equations; lia. }
  assert (Hown : pgdir :: pages tabs' ++ pages frames ++ l' ≡ₚ pgdir :: pages tabs ++ pages frames ++ l).
  { apply Permutation_skip. rewrite (Permutation_app_comm (pages frames) l'), (Permutation_app_comm (pages frames) l).
    by rewrite !app_assoc, Hpg. }
  exists r, s', l', tabs'. split_and!; try done.
  - intros a Ha. apply Hun; [apply Ha; by left |]. intros i t Ht. apply Ha. right. rewrite <- Hpg, elem_of_app. left.
    apply elem_of_pages. eauto.
  - destruct Hres as [[-> Hres] | (-> & -> & Hres)]; [left | right]; (split; [done |]).
    + destruct (pte_of_ok f perm Hf Hperm) as (E1 & E2 & E3 & _).
      assert (Hent : entry s' tabs' (4096 * n) = pte_of f perm).
      { rewrite Hres by (unfold PGSIZE; Z.to_euclidean_division_equations; lia). unfold pte_value.
        replace ((4096 * n - (4096 * n - (4096 * n) mod 4096)) / 4096) with 0 by (Z.to_euclidean_division_equations; lia).
        by rewrite Z.add_0_r. }
      split; [| done]. split; [done | | |].
      * intros k Hk. destruct (decide (k = n)) as [-> | Hkn]; [rewrite lookup_insert_eq, Hent; done |].
        rewrite lookup_insert_ne by done. destruct (user_page k Hk) as [Hk1 Hk2].
        rewrite Hother by (try done; congruence). by apply Hm.
      * intros k g [[<- <-] | [_ Hk]]%lookup_insert_Some; [done | by apply Hd].
      * eapply NoDup_perm; [| exact Hnd]. rewrite pages_insert by done. simpl.
        rewrite <- Permutation_middle, <- Hown. by rewrite <- Permutation_swap.
    + split; [done |]. split; [done | | done | by rewrite Hown].
      intros k Hk. specialize (Hm k Hk). destruct (user_page k Hk) as [Hk1 Hk2].
      destruct (decide (k = n)) as [-> | Hkn]; [| rewrite Hother by (try done; congruence); exact Hm].
      rewrite Hres by (unfold PGSIZE; Z.to_euclidean_division_equations; lia). exact Hm.
Qed.

(** ** The kernel's part of an address space *)

(** The entry [kmap] asks for at an address. *)
Fixpoint kentry (ks : list (Z * Z * Z * Z)) (va : Z) : Z :=
  match ks with
  | [] => 0
  | (virt, pstart, pend, perm) :: ks' =>
      if (virt <=? va) && (va <? virt + (pend -u pstart)) then pte_value virt pstart perm va else kentry ks' va
  end.

(** Page-aligned ranges, one after the other from [lo]. *)
Fixpoint kmap_from (lo : Z) (ks : list (Z * Z * Z * Z)) : Prop :=
  match ks with
  | [] => True
  | (virt, pstart, pend, perm) :: ks' =>
      let size := pend -u pstart in
      lo <= virt /\ virt mod 4096 = 0 /\ 1 <= size /\ size mod 4096 = 0 /\ virt + size <= 2 ^ 32 /\
      0 <= pstart /\ pstart + size <= 2 ^ 32 /\ kmap_from (virt + size) ks'
  end.

Lemma kentry_below ks : forall lo va, kmap_from lo ks -> va < lo -> kentry ks va = 0.
Proof.
  induction ks as [|[[[virt ps] pe] perm] ks IH]; intros lo va; [done |]. cbn [kmap_from kentry]. cbv zeta.
  intros (H1 & _ & H3 & _ & _ & _ & _ & H8) Hva. rewrite (proj2 (Z.leb_gt virt va)) by lia. simpl.
  apply (IH _ _ H8). lia.
Qed.

(** A change above [KERNBASE] keeps a space without user pages. *)
Lemma space_kernel s l pgdir tabs s' l' tabs' :
  space s l pgdir tabs ∅ -> pt_inv kend s' l' pgdir tabs' -> pages tabs' ++ l' ≡ₚ pages tabs ++ l ->
  (forall va, 0 <= va < KERNBASE -> entry s' tabs' va = entry s tabs va) -> space s' l' pgdir tabs' ∅.
Proof.
  intros [_ Hm _ Ho] Hp Hpg He. split; [done | | | ].
  - intros n Hn. specialize (Hm n Hn). rewrite lookup_empty in Hm |- *. rewrite He; [done |].
    change NUSER with 524288 in Hn. unfold KERNBASE. lia.
  - intros n f. by rewrite lookup_empty.
  - change (pages ∅) with (@nil Z) in *. simpl in *. by rewrite Hpg.
Qed.

(** A directory has room for 1024 tables. *)
Lemma tables_bound s l pgdir tabs : pt_inv kend s l pgdir tabs -> (length (pages tabs) <= 1024)%nat.
Proof.
  intros Hp. unfold pages. rewrite length_fmap. rewrite length_map_to_list. rewrite <- size_dom.
  transitivity (size (list_to_set (C := gset Z) (Z.of_nat <$> seq 0 1024))).
  - apply subseteq_size. intros i [t Ht]%elem_of_dom. apply elem_of_list_to_set, list_elem_of_fmap.
    destruct (pt_tab _ _ _ _ _ Hp i t Ht) as (Hi & _). exists (Z.to_nat i). rewrite elem_of_seq. lia.
  - rewrite size_list_to_set; [by rewrite length_fmap, length_seq |]. apply NoDup_fmap_2; [apply _ | apply NoDup_seq].
Qed.

Lemma map_kernel_ok ks : forall lo s l pgdir tabs,
  space s l pgdir tabs ∅ -> KERNBASE <= lo -> kmap_from lo ks -> (forall va, lo <= va < 2 ^ 32 -> entry s tabs va = 0) ->
  exists r s' l', map_kernel kend ks pgdir s = Ok r s' /\ untouched (pgdir :: pages tabs ++ l) s s' /\
    ((r = 0 /\ free_inv kend s' l' /\ l' ≡ₚ pgdir :: pages tabs ++ l /\ (length (pages tabs ++ l) <= 1024)%nat) \/
     (r = pgdir /\ exists tabs', space s' l' pgdir tabs' ∅ /\ pages tabs' ++ l' ≡ₚ pages tabs ++ l /\
        (forall va, 0 <= va < lo -> entry s' tabs' va = entry s tabs va) /\
        (forall va, lo <= va < 2 ^ 32 -> entry s' tabs' va = kentry ks va))).
Proof.
  induction ks as [|[[[virt ps] pe] perm] ks IH]; intros lo s l pgdir tabs Hs Hlo Hks H0; cbn [map_kernel].
  - exists pgdir, s, l. split_and!; [done | apply untouched_refl |]. right. split; [done |]. exists tabs. by split_and!.
  - cbn [kmap_from] in Hks. cbv zeta in Hks. destruct Hks as (K1 & K2 & K3 & K4 & K5 & K6 & K7 & K8).
    set (size := pe -u ps) in *. unfold KERNBASE in Hlo.
    assert (Ea : virt - virt mod 4096 = virt) by lia.
    assert (Ee : virt + size - 1 - (virt + size - 1) mod 4096 + 4096 = virt + size) by (Z.to_euclidean_division_equations; lia).
    destruct (mappages_ok kend s l pgdir tabs virt size ps perm (sp_pt _ _ _ _ _ Hs))
      as (r & s1 & l1 & tabs1 & E & Hp1 & Hun & Hsub & Hpg & Hout & Hres); [lia | lia | lia | lia | lia | |].
    { rewrite Ea, Ee. intros x Hx. rewrite H0 by lia. done. }
    rewrite Ea, Ee in *. erewrite bind_ok by exact E.
    assert (Hs1 : space s1 l1 pgdir tabs1 ∅).
    { eapply space_kernel; try done. intros va Hva. unfold KERNBASE in Hva. apply Hout; lia. }
    assert (Hu1 : untouched (pgdir :: pages tabs ++ l) s s1).
    { intros a Ha. apply Hun; [apply Ha; by left |]. intros i t Ht. apply Ha. right. rewrite <- Hpg, elem_of_app. left.
      apply elem_of_pages. eauto. }
    destruct Hres as [[-> Hres] | (-> & -> & _)]; simpl.
    + destruct (IH (virt + size) s1 l1 pgdir tabs1 Hs1) as (r & s' & l' & E' & Hu' & Hr'); [unfold KERNBASE; lia | done | |].
      { intros va Hva. rewrite Hout, H0; lia. }
      exists r, s', l'. split_and!; [done | |].
      { apply (untouched_trans _ s s1); [done |]. eapply untouched_mono; [| exact Hu']. intros v.
        by rewrite !elem_of_cons, Hpg. }
      destruct Hr' as [(-> & Hf & Hl & Hfew) | (-> & tabs' & Hs' & Hpg' & He1 & He2)]; [left | right].
      * split_and!; [done | done | by rewrite Hl, Hpg | by rewrite <- Hpg].
      * split; [done |]. exists tabs'. split_and!; [done | by rewrite Hpg' | |].
        -- intros va Hva. rewrite He1, Hout by lia. done.
        -- intros va Hva. cbn [kentry]. fold size. destruct (Z.ltb_spec va (virt + size)) as [Hlt | Hge].
           ++ rewrite He1 by lia. destruct (Z.leb_spec virt va) as [Hle | Hgt]; simpl; [by apply Hres |].
              rewrite Hout, H0 by lia. symmetry. eapply kentry_below; [exact K8 | lia].
           ++ rewrite andb_false_r. apply He2. lia.
    + destruct (freevm_ok s1 [] pgdir tabs1 ∅ Hs1) as (s' & l' & E' & Hf' & Hl' & Hu').
      change (pages ∅) with (@nil Z) in Hl'. simpl in Hl'. rewrite Hpg in Hl'.
      exists 0, s', l'. erewrite bind_ok by exact E'. split_and!; [done | |].
      2:{ left. split_and!; [done | done | done |]. rewrite <- Hpg, app_nil_r. eapply tables_bound, Hs1. }
      apply (untouched_trans _ s s1); [done |]. eapply untouched_mono; [| exact Hu']. intros v. by rewrite Hl'.
Qed.

(** A zeroed page is an empty directory. *)
Lemma zeroed_dir s l d :
  free_inv kend s l -> page_ok kend d -> d ∉ l ->
  let s' := Kmem (memset (k_mem s) d 0 PGSIZE) (freelist s) (use_lock s) in
  space s' l d ∅ ∅ /\ untouched [d] s s'.
Proof.
  intros Hf Hd Hn s'. assert (Hd0 : 0 <= d) by apply Hd.
  assert (Hu : untouched [d] s s').
  { intros a Ha. apply memset_other; [done |]. apply Ha. by left. }
  split; [| done]. split.
  - split.
    + eapply (free_inv_ext kend s); [done | done |]. intros v a Hv Ha.
      assert (page_ok kend v) by (eapply page_ok_in; [apply Hf | done]).
      apply (untouched_page [d] s s' v a); try done; [by apply Forall_singleton |]. rewrite list_elem_of_singleton. by intros ->.
    + done.
    + intros i t Ht. by rewrite lookup_empty in Ht.
    + intros i Hi _. unfold s'. cbn [k_mem]. by rewrite memset_word.
    + intros i j t Ht. by rewrite lookup_empty in Ht.
  - intros n _. rewrite lookup_empty. unfold entry. by rewrite lookup_empty.
  - intros n f. by rewrite lookup_empty.
  - change (pages ∅) with (@nil Z). simpl. apply list.NoDup_cons. split; [done | apply Hf].
Qed.

Section kernel_data.
Variable kdata : Z.
Hypothesis Hkdata : KERNLINK < kdata < P2V PHYSTOP /\ kdata mod PGSIZE = 0.

Lemma kmap_ok : kmap_from KERNBASE (kmap kdata).
Proof.
  destruct Hkdata as [Hd Hal]. revert Hd Hal. clear.
  change KERNLINK with 2148532224. change (P2V PHYSTOP) with 2382364672. unfold PGSIZE. intros Hd Hal.
  unfold kmap. cbn [kmap_from]. cbv zeta. unfold KERNLINK, KERNBASE, EXTMEM, DEVSPACE, PHYSTOP, V2P, KERNBASE.
  rewrite !(u32_small (kdata - 2147483648)) by lia.
  change (u32 (2147483648 + 1048576 - 2147483648)) with 1048576.
  change (u32 (1048576 - 0)) with 1048576. change (u32 (0 - 4261412864)) with 33554432.
  rewrite !u32_small by lia. repeat split; try lia; try done; Z.to_euclidean_division_equations; lia.
Qed.

(** What a directory maps above [KERNBASE]. *)
Definition kernel_half (s : kmem) (tabs : gmap Z Z) : Prop :=
  forall va, KERNBASE <= va < 2 ^ 32 -> entry s tabs va = kentry (kmap kdata) va.

Lemma setupkvm_ok s l :
  free_inv kend s l ->
  exists r s' l', setupkvm kend kdata s = Ok r s' /\ untouched l s s' /\
    ((r = 0 /\ free_inv kend s' l' /\ l' ≡ₚ l /\ (length l <= 1025)%nat) \/
     (exists tabs, space s' l' r tabs ∅ /\ r :: pages tabs ++ l' ≡ₚ l /\ kernel_half s' tabs)).
Proof.
  intros Hf. unfold setupkvm. destruct l as [|d l].
  { erewrite bind_ok by (by apply (kalloc_empty kend)). exists 0, s, []. split_and!; [done | apply untouched_refl |]. left. split_and!; [done | done | done | simpl; lia]. }
  destruct (kalloc_ok kend s d l Hf) as (s1 & E1 & Hf1 & Em). erewrite bind_ok by exact E1.
  pose proof Hf as [_ [Hdl Hnd]%list.NoDup_cons [Hd Hpl]%Forall_cons_1].
  rewrite (proj2 (Z.eqb_neq d 0)) by (by eapply page_nonzero).
  unfold zero_page at 1. erewrite bind_ok by reflexivity. set (s2 := Kmem _ _ _).
  change (DEVSPACE <? P2V PHYSTOP) with false. cbv iota.
  destruct (zeroed_dir s1 l d Hf1 Hd Hdl) as [Hs2 Hu2]. fold s2 in Hs2, Hu2.
  destruct (map_kernel_ok (kmap kdata) KERNBASE s2 l d ∅ Hs2) as (r & s' & l' & E & Hu & Hr);
    [done | apply kmap_ok | intros va _; unfold entry; by rewrite lookup_empty |].
  change (pages ∅) with (@nil Z) in *. simpl in Hu, Hr.
  exists r, s', l'. split_and!; [done | |].
  - intros a Ha. rewrite Hu by done. rewrite Hu2, Em; [done |]. intros v ->%list_elem_of_singleton. apply Ha. by left.
  - destruct Hr as [(-> & Hf' & Hl & Hfew) | (-> & tabs & Hs' & Hpg & _ & He)]; [left; split_and!; [done | done | done | simpl; lia] | right].
    exists tabs. split_and!; [done | by rewrite Hpg | exact He].
Qed.
End kernel_data.

(** ** Copying an address space *)

(** Work on the pages [Q] leaves a space that owns none of them as it is, contents included. *)
Lemma space_other s l s' l' Q pgdir tabs frames :
  space s l pgdir tabs frames -> untouched Q s s' -> Forall (page_ok kend) Q ->
  (forall v, v ∈ pgdir :: pages tabs ++ pages frames -> v ∉ Q /\ v ∉ l') -> free_inv kend s' l' ->
  space s' l' pgdir tabs frames /\ (forall va, entry s' tabs va = entry s tabs va) /\
  (forall v a, v ∈ pgdir :: pages tabs ++ pages frames -> in_page v a -> k_mem s' a = k_mem s a).
Proof.
  intros Hs Hu HQ Hd Hf.
  assert (Hm : forall v a, v ∈ pgdir :: pages tabs ++ pages frames -> in_page v a -> k_mem s' a = k_mem s a).
  { intros v a Hv Ha. apply (untouched_page Q s s' v a); try done; [| by apply Hd].
    eapply page_ok_in; [exact (space_pages _ _ _ _ _ Hs) |]. rewrite app_assoc, app_comm_cons, elem_of_app. by left. }
  assert (Hsub : forall v, v ∈ pgdir :: pages tabs -> v ∈ pgdir :: pages tabs ++ pages frames).
  { intros v. rewrite app_comm_cons, elem_of_app. by left. }
  split_and!; [| | done].
  - eapply space_frame; [exact Hs | done | |].
    + pose proof (sp_own _ _ _ _ _ Hs) as Ho. rewrite app_assoc, app_comm_cons in Ho |- *.
      apply list.NoDup_app in Ho as [Ho _]. apply list.NoDup_app. split_and!; [done | intros v Hv; by apply Hd | apply Hf].
    + intros v a Hv. by apply Hm, Hsub.
  - intros va. apply entry_frame. intros v a Hv. apply Hm, Hsub. by right.
Qed.

(** A page of memory copied to a page that was just allocated. *)
Lemma copy_page_ok s l m f :
  free_inv kend s (m :: l) -> page_ok kend f -> f <> m ->
  exists s1, kalloc s = Ok m s1 /\
    let s2 := Kmem (memmove (k_mem s1) m f PGSIZE) (freelist s1) (use_lock s1) in
    free_inv kend s2 l /\ untouched [m] s s2 /\ forall o, 0 <= o < 4096 -> k_mem s2 (m + o) = k_mem s (f + o).
Proof.
  intros Hf Hfo Hne. destruct (kalloc_ok kend s m l Hf) as (s1 & E1 & Hf1 & Em). exists s1. split; [done |]. intros s2.
  assert (Hc : forall a, k_mem s2 a = mcopy (k_mem s) m f PGSIZE a).
  { intros a. unfold s2. cbn [k_mem]. rewrite Em. by apply memmove_copy. }
  pose proof Hf as [_ [Hml Hnd]%list.NoDup_cons [Hm Hpl]%Forall_cons_1].
  assert (Hu : untouched [m] s s2).
  { intros a Ha. rewrite Hc. unfold mcopy. destruct ((m <=? a) && (a <? m + PGSIZE)) eqn:E; [| done].
    exfalso. apply (Ha m); [by left |]. reflect_bool. by split. }
  split_and!; [| done |].
  - eapply (free_inv_ext kend s1); [done | done |]. intros v a Hv Ha. rewrite Em.
    apply (untouched_page [m] s s2 v a); try done; [by apply Forall_singleton | by eapply page_ok_in |].
    rewrite list_elem_of_singleton. by intros ->.
  - intros o Ho. rewrite Hc. unfold mcopy, PGSIZE. rewrite (proj2 (Z.leb_le _ _)), (proj2 (Z.ltb_lt _ _)) by lia. simpl.
    f_equal. lia.
Qed.

(** Page [n] of a space is a copy of page [n] of another, in a frame of its own. *)
Definition copied (s : kmem) (tabs frames : gmap Z Z) (s' : kmem) (tabs' frames' : gmap Z Z) (n : Z) : Prop :=
  exists f g, frames !! n = Some f /\ frames' !! n = Some g /\
    PTE_FLAGS (entry s' tabs' (4096 * n)) = PTE_FLAGS (entry s tabs (4096 * n)) /\
    forall o, 0 <= o < 4096 -> k_mem s' (g + o) = k_mem s (f + o).

Lemma present_flags e : present e = true -> Z.lor (PTE_FLAGS e) PTE_P = PTE_FLAGS e.
Proof.
  unfold present, PTE_FLAGS, PTE_P. intros Hp. apply negb_true_iff, Z.eqb_neq in Hp.
  apply Z.bits_inj'. intros n Hn. rewrite Z.lor_spec, Z.land_spec. destruct (decide (n = 0)) as [-> | Hn0].
  - change (Z.testbit 1 0) with true. change (Z.testbit 4095 0) with true. rewrite orb_true_r, andb_true_r. symmetry.
    assert (Hb : Z.testbit e 0 = true).
    { destruct (Z.testbit e 0) eqn:E; [done |]. exfalso. apply Hp. apply Z.bits_inj'. intros k Hk.
      rewrite Z.land_spec, Z.bits_0. destruct (decide (k = 0)) as [-> | Hk0]; [by rewrite E |].
      rewrite (Z.bits_above_log2 1 k) by (simpl; lia). apply andb_false_r. }
    unfold u32. by rewrite Z.mod_pow2_bits_low by lia.
  - rewrite (Z.bits_above_log2 1 n) by (simpl; lia). by rewrite orb_false_r.
Qed.

Lemma flags_range e : 0 <= PTE_FLAGS e < 4096.
Proof. unfold PTE_FLAGS. change 4095 with (Z.ones 12). rewrite Z.land_ones by lia. apply Z.mod_pos_bound. lia. Qed.

(** Two spaces over the same free list that share no page. *)
Definition disjoint_spaces (d : Z) (td fd : gmap Z Z) (pgdir : Z) (tabs frames : gmap Z Z) : Prop :=
  forall v, v ∈ d :: pages td ++ pages fd -> v ∉ pgdir :: pages tabs ++ pages frames.

(** One pass of the loop of [copyuvm]: the page is copied and mapped, or there is no page left to
    hold a table for it. *)
Lemma copy_step_ok s m l pgdir tabs frames d td fd n f :
  space s (m :: l) pgdir tabs frames -> space s (m :: l) d td fd -> disjoint_spaces d td fd pgdir tabs frames ->
  0 <= n < NUSER -> frames !! n = Some f -> fd !! n = None ->
  exists s1, kalloc s = Ok m s1 /\
  let s2 := Kmem (memmove (k_mem s1) m f PGSIZE) (freelist s1) (use_lock s1) in
  exists r s3 l3 td3, mappages d (4096 * n) PGSIZE (V2P m) (PTE_FLAGS (entry s tabs (4096 * n))) s2 = Ok r s3 /\
    td ⊆ td3 /\ pages td3 ++ l3 ≡ₚ pages td ++ l /\ untouched (m :: d :: pages td ++ l) s s3 /\ space s3 l3 pgdir tabs frames /\
    (forall va, 0 <= va < 2 ^ 32 -> va / 4096 <> n -> entry s3 td3 va = entry s td va) /\
    (forall va, entry s3 tabs va = entry s tabs va) /\
    (forall v a, v ∈ pages frames -> in_page v a -> k_mem s3 a = k_mem s a) /\
    ((r = 0 /\ space s3 l3 d td3 (<[n := m]> fd) /\ copied s tabs frames s3 td3 (<[n := m]> fd) n) \/
     (r = -1 /\ l3 = [] /\ space s3 l3 d td3 fd)).
Proof.
  intros Hs Hc Hdis Hn Hfr Hfd. destruct (sp_dom _ _ _ _ _ Hs n f Hfr) as [_ Hfo].
  assert (HfF : f ∈ pages frames) by (apply elem_of_pages; eauto).
  pose proof (own_split _ _ _ _ (sp_own _ _ _ _ _ Hs)) as (O1 & O2 & O3 & O4 & O5).
  pose proof (own_split _ _ _ _ (sp_own _ _ _ _ _ Hc)) as (C1 & C2 & C3 & C4 & C5).
  assert (Hfm : f <> m). { intros ->. apply (O5 m HfF). by left. }
  destruct (copy_page_ok s l m f (pt_free _ _ _ _ _ (sp_pt _ _ _ _ _ Hs)) Hfo Hfm) as (s1 & E1 & Hf2 & Hu2 & Hcp).
  exists s1. split; [done |]. intros s2. fold s2 in Hf2, Hu2, Hcp.
  pose proof (space_pages _ _ _ _ _ Hc) as Hpc.
  assert (Hmo : page_ok kend m).
  { eapply page_ok_in; [exact Hpc |]. right. rewrite !elem_of_app. right. right. by left. }
  assert (Hml : m ∉ l).
  { pose proof (pt_free _ _ _ _ _ (sp_pt _ _ _ _ _ Hs)) as [_ Hnd _]. by apply list.NoDup_cons in Hnd as []. }
  destruct (space_other s (m :: l) s2 l [m] d td fd Hc Hu2) as (Hc2 & He2 & _); [by apply Forall_singleton | | done |].
  { intros v Hv. rewrite list_elem_of_singleton.
    assert (Hvl : v ∉ m :: l); [| apply not_elem_of_cons in Hvl as [? ?]; done].
    rewrite elem_of_cons, elem_of_app in Hv. destruct Hv as [-> | [Hv | Hv]]; [done | by apply C4 | by apply C5]. }
  assert (Hperm : d :: pages td ++ pages fd ++ m :: l ≡ₚ m :: d :: pages td ++ pages fd ++ l).
  { etrans; [| apply perm_swap]. apply perm_skip. rewrite !app_assoc. symmetry. apply Permutation_middle. }
  destruct (map_page_ok s2 l d td fd n m (PTE_FLAGS (entry s tabs (4096 * n))) Hc2 Hn Hfd Hmo)
    as (r & s3 & l3 & td3 & E3 & Hsub & Hpg & Hu3 & He3 & Hr);
    [eapply NoDup_perm; [exact Hperm | apply Hc] | apply flags_range |].
  assert (Hu : untouched (m :: d :: pages td ++ l) s s3).
  { apply (untouched_trans _ s s2); [eapply untouched_mono; [| exact Hu2] | eapply untouched_mono; [| exact Hu3]].
    - intros v ->%list_elem_of_singleton. by left.
    - intros v Hv. by right. }
  assert (Hf3 : free_inv kend s3 l3) by (destruct Hr as [(_ & Hx & _) | (_ & _ & Hx)]; apply Hx).
  assert (Hin3 : forall v, v ∈ l3 -> v ∈ pages td ++ l) by (intros v Hv; rewrite <- Hpg, elem_of_app; by right).
  destruct (space_other s (m :: l) s3 l3 (m :: d :: pages td ++ l) pgdir tabs frames Hs Hu) as (Hs3 & Hes & Hms); [| | done |].
  { rewrite Hperm in Hpc. revert Hpc. rewrite !list.Forall_cons, !Forall_app. tauto. }
  { intros v Hv.
    assert (Hvl : v ∉ m :: l).
    { rewrite elem_of_cons, elem_of_app in Hv. destruct Hv as [-> | [Hv | Hv]]; [done | by apply O4 | by apply O5]. }
    assert (Hvd : v ∉ d :: pages td).
    { intros Hvd. apply (Hdis v); [| done]. rewrite app_comm_cons, elem_of_app. by left. }
    assert (Hno : v ∉ m :: d :: pages td ++ l).
    { rewrite not_elem_of_cons in Hvl, Hvd. rewrite !not_elem_of_cons, not_elem_of_app. tauto. }
    split; [done |]. intros Hv3. apply Hno. right. right. by apply Hin3. }
  exists r, s3, l3, td3. split_and!; try done.
  - intros va Hva Hne. by rewrite He3, He2.
  - intros v a Hv. apply Hms. rewrite elem_of_cons, elem_of_app. right. by right.
  - destruct Hr as [(-> & Hc3 & Hent) | ?]; [left | by right]. split_and!; [done | done |].
    exists f, m. rewrite lookup_insert_eq. split_and!; [done | done | |].
    + rewrite Hent. destruct (pte_of_ok m _ Hmo (flags_range (entry s tabs (4096 * n)))) as (_ & _ & _ & ->).
      apply present_flags. pose proof (sp_map _ _ _ _ _ Hs n Hn) as Hm. rewrite Hfr in Hm. apply Hm.
    + intros o Ho. rewrite <- Hcp by done. apply (untouched_page (d :: pages td ++ l) s2 s3 m); try done.
      * rewrite Hperm in Hpc. revert Hpc. rewrite !list.Forall_cons, !Forall_app. tauto.
      * rewrite not_elem_of_cons, not_elem_of_app.
        split_and!; [intros ->; apply C3; by left | intros Hm; destruct (C4 m Hm) as [_ Hx]; apply Hx; by left | done].
      * unfold in_page, PGSIZE. lia.
Qed.

Lemma copied_before s0 s tabs frames s' td fd k :
  copied s tabs frames s' td fd k -> (forall va, entry s tabs va = entry s0 tabs va) ->
  (forall v a, v ∈ pages frames -> in_page v a -> k_mem s a = k_mem s0 a) -> copied s0 tabs frames s' td fd k.
Proof.
  intros (f & g & H1 & H2 & H3 & H4) He Hm. exists f, g. split_and!; [done | done | by rewrite <- He |].
  intros o Ho. rewrite H4 by done. apply (Hm f); [apply elem_of_pages; eauto |]. unfold in_page, PGSIZE. lia.
Qed.

Lemma copied_after s tabs frames s1 td1 fd1 s2 td2 fd2 k :
  copied s tabs frames s1 td1 fd1 k -> fd2 !! k = fd1 !! k -> entry s2 td2 (4096 * k) = entry s1 td1 (4096 * k) ->
  (forall v a, v ∈ pages fd1 -> in_page v a -> k_mem s2 a = k_mem s1 a) -> copied s tabs frames s2 td2 fd2 k.
Proof.
  intros (f & g & H1 & H2 & H3 & H4) Hd He Hm. exists f, g. rewrite Hd, He. split_and!; try done.
  intros o Ho. rewrite <- H4 by done. apply (Hm g); [apply elem_of_pages; eauto |]. unfold in_page, PGSIZE. lia.
Qed.

(** A space that grows by free pages stays apart from the others. *)
Lemma disjoint_grow s l d td fd td' fd' l' pgdir tabs frames :
  disjoint_spaces d td fd pgdir tabs frames -> space s l pgdir tabs frames ->
  pages td' ++ pages fd' ++ l' ≡ₚ pages td ++ pages fd ++ l -> disjoint_spaces d td' fd' pgdir tabs frames.
Proof.
  intros Hd Hs Hp v Hv Hv'. destruct (own_split _ _ _ _ (sp_own _ _ _ _ _ Hs)) as (_ & _ & O3 & O4 & O5).
  assert (Hin : v ∈ d :: pages td ++ pages fd ++ l).
  { rewrite elem_of_cons, <- Hp. revert Hv. rewrite elem_of_cons, !elem_of_app. tauto. }
  assert (Hl : v ∉ l).
  { rewrite elem_of_cons, elem_of_app in Hv'. destruct Hv' as [-> | [? | ?]]; [done | by apply O4 | by apply O5]. }
  apply (Hd v); [| done]. revert Hin. rewrite !elem_of_cons, !elem_of_app. tauto.
Qed.

(** The frames of a space keep their contents when only its tables and free pages are used. *)
Lemma frames_kept s l d td fd s' v a :
  space s l d td fd -> untouched (d :: pages td ++ l) s s' -> v ∈ pages fd -> in_page v a -> k_mem s' a = k_mem s a.
Proof.
  intros Hs Hu Hv Ha. pose proof (space_pages _ _ _ _ _ Hs) as Hok.
  destruct (own_split _ _ _ _ (sp_own _ _ _ _ _ Hs)) as (O1 & O2 & O3 & O4 & O5).
  apply (untouched_page (d :: pages td ++ l) s s' v a); try done.
  - revert Hok. rewrite !list.Forall_cons, !Forall_app. tauto.
  - eapply page_ok_in; [exact Hok |]. rewrite elem_of_cons, !elem_of_app. tauto.
  - rewrite not_elem_of_cons, not_elem_of_app. split_and!; [by intros -> | intros Ht; by destruct (O4 v Ht) | by apply O5].
Qed.

(** Pages in a range of [size] bytes. *)
Definition npages (size : Z) : Z := (size + 4095) / 4096.

(** What the loop of [copyuvm] leaves when it starts at page [n] with the child space [d], [td],
    [fd]: all of the child's pages freed, but for one that may be lost, if there were too few for
    the rest of the memory and for every table; or every page from [n] up to [sz] copied. *)
Definition copy_result (sz : Z) (tabs frames : gmap Z Z) (d n : Z) (s : kmem) (l : list Z) (td fd : gmap Z Z)
    (r : Z) (s' : kmem) (l' : list Z) : Prop :=
  untouched (d :: pages td ++ pages fd ++ l) s s' /\
  ((r = 0 /\ free_inv kend s' l' /\ Z.of_nat (length (pages td ++ l)) <= 1024 + npages (sz - 4096 * n) /\
    (l' ≡ₚ d :: pages td ++ pages fd ++ l \/ exists m, m :: l' ≡ₚ d :: pages td ++ pages fd ++ l)) \/
   (r = d /\ untouched (d :: pages td ++ l) s s' /\ exists td' fd', space s' l' d td' fd' /\
      pages td' ++ pages fd' ++ l' ≡ₚ pages td ++ pages fd ++ l /\
      (forall va, 0 <= va < 2 ^ 32 -> ~ (n <= va / 4096 /\ 4096 * (va / 4096) < sz) -> entry s' td' va = entry s td va) /\
      (forall k, fd' !! k = fd !! k \/ (n <= k /\ 4096 * k < sz)) /\
      (forall k, n <= k -> 4096 * k < sz -> copied s tabs frames s' td' fd' k))).

(** Out of pages: the child is freed, except for the page [lost] that was not mapped yet. *)
Lemma copy_failed sz tabs frames d n s l td fd s3 td3 lost :
  space s3 [] d td3 fd -> pages td3 ++ lost ≡ₚ pages td ++ l -> (length lost <= 1)%nat -> 4096 * n < sz ->
  untouched (d :: pages td ++ pages fd ++ l) s s3 ->
  exists s' l', freevm kend d s3 = Ok tt s' /\ copy_result sz tabs frames d n s l td fd 0 s' l'.
Proof.
  intros Hc Hpg Hlost Hlt Hu. destruct (freevm_ok s3 [] d td3 fd Hc) as (s' & l' & E & Hf' & Hl' & Hu').
  assert (Hml : lost ++ l' ≡ₚ d :: pages td ++ pages fd ++ l).
  { rewrite Hl'. transitivity (d :: pages fd ++ pages td3 ++ lost); [solve_Permutation |]. rewrite Hpg. solve_Permutation. }
  exists s', l'. split; [done |]. split.
  - apply (untouched_trans _ s s3); [done |]. eapply untouched_mono; [| exact Hu']. intros v Hv.
    rewrite <- Hml, elem_of_app. by right.
  - left. split_and!; [done | done | |].
    { rewrite <- Hpg, length_app. pose proof (tables_bound _ _ _ _ (sp_pt _ _ _ _ _ Hc)).
      assert (1 <= npages (sz - 4096 * n)) by (unfold npages; Z.to_euclidean_division_equations; lia). lia. }
    destruct lost as [|m [|]]; [by left | right; by exists m | simpl in Hlost; lia].
Qed.

(** One page copied, then the rest. *)
Lemma copy_more sz tabs frames d n s m l td fd s3 l3 td3 r s' l' :
  0 <= n < NUSER -> 4096 * n < sz -> fd !! n = None -> pages td3 ++ l3 ≡ₚ pages td ++ l ->
  untouched (m :: d :: pages td ++ l) s s3 ->
  (forall va, 0 <= va < 2 ^ 32 -> va / 4096 <> n -> entry s3 td3 va = entry s td va) ->
  (forall va, entry s3 tabs va = entry s tabs va) ->
  (forall v a, v ∈ pages frames -> in_page v a -> k_mem s3 a = k_mem s a) ->
  space s3 l3 d td3 (<[n := m]> fd) -> copied s tabs frames s3 td3 (<[n := m]> fd) n ->
  copy_result sz tabs frames d (n + 1) s3 l3 td3 (<[n := m]> fd) r s' l' ->
  copy_result sz tabs frames d n s (m :: l) td fd r s' l'.
Proof.
  intros Hn Hlt Hfd Hpg Hu Hed Hes Hms Hc3 Hcopy [Hu' Hr].
  assert (Hall : pages td3 ++ pages (<[n := m]> fd) ++ l3 ≡ₚ pages td ++ pages fd ++ m :: l).
  { rewrite (pages_insert fd n m Hfd). transitivity (m :: pages fd ++ pages td3 ++ l3); [solve_Permutation |].
    rewrite Hpg. solve_Permutation. }
  split.
  { apply (untouched_trans _ s s3); [eapply untouched_mono; [| exact Hu] | eapply untouched_mono; [| exact Hu']]; intros v.
    - rewrite !elem_of_cons, !elem_of_app, !elem_of_cons. tauto.
    - by rewrite !elem_of_cons, Hall. }
  destruct Hr as [(-> & Hf' & Hfew & Hl') | (-> & Hu1 & td' & fd' & Hc' & Hpg' & He' & Hd' & Hcp')]; [left | right].
  { split_and!; [done | done | |].
    { rewrite Hpg, length_app in Hfew. rewrite length_app. cbn [length]. unfold npages in *.
      Z.to_euclidean_division_equations; lia. }
    destruct Hl' as [Hl' | [m' Hl']]; rewrite Hall in Hl'; [by left | right; by exists m']. }
  split_and!; [done | |].
  { apply (untouched_trans _ s s3); [eapply untouched_mono; [| exact Hu] | eapply untouched_mono; [| exact Hu1]]; intros v.
    - rewrite !elem_of_cons, !elem_of_app, elem_of_cons. tauto.
    - rewrite elem_of_cons, Hpg, !elem_of_cons, !elem_of_app, elem_of_cons. tauto. }
  exists td', fd'. split_and!; [done | by rewrite Hpg' | | |].
  - intros va Hva Hout. rewrite He', Hed; [done | done | | done | lia]. intros Ev. apply Hout. rewrite Ev. lia.
  - intros k. destruct (decide (k = n)) as [-> | Hkn]; [right; lia |].
    destruct (Hd' k) as [Hk' | ?]; [left; by rewrite Hk', lookup_insert_ne | right; lia].
  - intros k Hk1 Hk2. destruct (decide (k = n)) as [-> | Hkn].
    + eapply copied_after; [exact Hcopy | | |].
      * destruct (Hd' n) as [? | ?]; [done | lia].
      * destruct (user_page n Hn) as [? Hdiv]. apply He'; [done | rewrite Hdiv; lia].
      * intros v a. by apply (frames_kept s3 l3 d td3).
    + eapply copied_before; [apply Hcp'; lia | done | done].
Qed.

(** The loop of [copyuvm] from page [n]. *)
Lemma copyuvm_loop_ok sz pgdir tabs frames d : forall fuel n s l td fd,
  space s l pgdir tabs frames -> space s l d td fd -> disjoint_spaces d td fd pgdir tabs frames ->
  0 <= n -> sz <= KERNBASE -> (forall k, n <= k -> 4096 * k < sz -> is_Some (frames !! k)) ->
  (forall k, n <= k -> fd !! k = None) -> 1 <= Z.of_nat fuel -> sz - 4096 * n <= 4096 * (Z.of_nat fuel - 1) ->
  exists r s' l', copyuvm_loop kend fuel pgdir d (4096 * n) sz s = Ok r s' /\
    copy_result sz tabs frames d n s l td fd r s' l'.
Proof.
  induction fuel as [|fuel IH]; intros n s l td fd Hs Hc Hdis Hn Hk Hfr Hfd Hf1 Hf2; [lia |].
  cbn [copyuvm_loop]. destruct (Z.ltb_spec (4096 * n) sz) as [Hlt | Hge]; cbn [negb].
  2: { exists d, s, l. split; [done |]. split; [apply untouched_refl |]. right. split_and!; [done | apply untouched_refl |].
       exists td, fd. split_and!; try done; [intros k; by left | intros k; lia]. }
  assert (Hnu : 0 <= n < NUSER) by (change NUSER with 524288; unfold KERNBASE in Hk; lia).
  destruct (Hfr n) as [f Hf]; [lia | done |]. destruct (frame_table _ _ _ _ _ _ _ Hs Hf) as [t Ht].
  pose proof (sp_map _ _ _ _ _ Hs n Hnu) as Hm. rewrite Hf in Hm. destruct Hm as [Hpr Hpa].
  erewrite bind_ok by (eapply walk_present; [apply Hs | exact Ht]).
  rewrite (proj2 (Z.eqb_neq _ 0)) by (eapply table_address; [apply Hs | exact Ht]).
  unfold rd at 1. erewrite bind_ok by reflexivity. rewrite (table_word s tabs n t Ht), Hpr. cbn [negb]. cbv zeta.
  rewrite Hpa. destruct l as [|m l].
  { erewrite bind_ok by (apply (kalloc_empty kend); apply Hs). cbn [Z.eqb].
    destruct (copy_failed sz tabs frames d n s [] td fd s td []) as (s' & l' & E & Hr); try done; [by apply Nat.le_0_l |].
    exists 0, s', l'. erewrite bind_ok by exact E. done. }
  destruct (copy_step_ok s m l pgdir tabs frames d td fd n f Hs Hc Hdis Hnu Hf) as (s1 & E1 & Hstep); [apply Hfd; lia |].
  destruct Hstep as (r & s3 & l3 & td3 & E3 & _ & Hpg & Hu & Hs3 & Hed & Hes & Hms & Hr). erewrite bind_ok by exact E1.
  assert (Hmo : page_ok kend m).
  { eapply page_ok_in; [exact (space_pages _ _ _ _ _ Hc) |]. right. rewrite !elem_of_app. right. right. by left. }
  rewrite (proj2 (Z.eqb_neq m 0)) by (by eapply page_nonzero).
  unfold move at 1. erewrite bind_ok by reflexivity. erewrite bind_ok by exact E3.
  destruct Hr as [(-> & Hc3 & Hcopy) | (-> & -> & Hc3)]; cbn [Z.ltb Z.compare].
  - rewrite (u32_small (4096 * n + PGSIZE)) by (unfold PGSIZE, KERNBASE in *; lia).
    replace (4096 * n + PGSIZE) with (4096 * (n + 1)) by (unfold PGSIZE; lia).
    assert (Hfn : fd !! n = None) by (apply Hfd; lia).
    destruct (IH (n + 1) s3 l3 td3 (<[n := m]> fd)) as (r & s' & l' & E & Hr'); try done; try lia.
    + apply (disjoint_grow s (m :: l) d td fd td3 _ l3 pgdir tabs frames); try done.
      rewrite (pages_insert fd n m Hfn). transitivity (m :: pages fd ++ pages td3 ++ l3); [solve_Permutation |].
      rewrite Hpg. solve_Permutation.
    + intros k Hk'. apply Hfr. lia.
    + intros k Hk'. rewrite lookup_insert_ne by lia. apply Hfd. lia.
    + exists r, s', l'. split; [done |]. by eapply copy_more.
  - destruct (copy_failed sz tabs frames d n s (m :: l) td fd s3 td3 [m]) as (s' & l' & E & Hr'); try done.
    + rewrite app_nil_r in Hpg. rewrite Hpg. solve_Permutation.
    + eapply untouched_mono; [| exact Hu]. intros v. rewrite !elem_of_cons, !elem_of_app, elem_of_cons. tauto.
    + exists 0, s', l'. erewrite bind_ok by exact E. done.
Qed.
(** ** Growing an address space *)

(** Page [n] is a zeroed, writable user page. *)
Definition zeroed (s : kmem) (tabs frames : gmap Z Z) (n : Z) : Prop :=
  exists f, frames !! n = Some f /\ entry s tabs (4096 * n) = pte_of f (Z.lor PTE_W PTE_U) /\
    forall o, 0 <= o < 4096 -> k_mem s (f + o) = 0.

(** What the loop of [allocuvm] leaves when it starts at page [n]; [a0] and [sz] bound the pages that
    are taken back on failure. *)
Definition grow_result (a0 sz pgdir n : Z) (s : kmem) (l : list Z) (tabs frames : gmap Z Z)
    (r : Z) (s' : kmem) (l' : list Z) : Prop :=
  untouched (pgdir :: pages tabs ++ pages frames ++ l) s s' /\
  exists tabs' frames', space s' l' pgdir tabs' frames' /\
    pages tabs' ++ pages frames' ++ l' ≡ₚ pages tabs ++ pages frames ++ l /\
    (forall va, 0 <= va < 2 ^ 32 -> ~ (a0 <= va < PGROUNDUP sz) -> entry s' tabs' va = entry s tabs va) /\
    ((r = 0 /\ frames' = cut a0 sz frames /\
      forall v a, v ∈ pages (cut a0 sz frames) -> in_page v a -> k_mem s' a = k_mem s a) \/
     (r = sz /\ (forall v a, v ∈ pages frames -> in_page v a -> k_mem s' a = k_mem s a) /\
      (forall va, 0 <= va < 2 ^ 32 -> va / 4096 < n -> entry s' tabs' va = entry s tabs va) /\
      (forall k, frames' !! k = frames !! k \/ (n <= k /\ 4096 * k < sz)) /\
      (forall k, n <= k -> 4096 * k < sz -> zeroed s' tabs' frames' k))).

Lemma in_cut a b frames v : v ∈ pages (cut a b frames) -> v ∈ pages frames.
Proof. intros [n [Hn _]%map_lookup_filter_Some]%elem_of_pages. apply elem_of_pages. eauto. Qed.

(** A page set to zero. *)
Lemma zero_page_ok s l m :
  free_inv kend s (m :: l) ->
  exists s1, kalloc s = Ok m s1 /\
    let s2 := Kmem (memset (k_mem s1) m 0 PGSIZE) (freelist s1) (use_lock s1) in
    free_inv kend s2 l /\ untouched [m] s s2 /\ forall o, 0 <= o < 4096 -> k_mem s2 (m + o) = 0.
Proof.
  intros Hf. destruct (kalloc_ok kend s m l Hf) as (s1 & E1 & Hf1 & Em). exists s1. split; [done |]. intros s2.
  pose proof Hf as [_ [Hml Hnd]%list.NoDup_cons [Hm Hpl]%Forall_cons_1]. assert (Hm0 : 0 <= m) by apply Hm.
  assert (Hu : untouched [m] s s2).
  { intros a Ha. unfold s2. cbn [k_mem]. rewrite Em. apply memset_other; [done |]. apply Ha. by left. }
  split_and!; [| done |].
  - eapply (free_inv_ext kend s1); [done | done |]. intros v a Hv Ha. rewrite Em.
    apply (untouched_page [m] s s2 v a); try done; [by apply Forall_singleton | by eapply page_ok_in |].
    rewrite list_elem_of_singleton. by intros ->.
  - intros o Ho. unfold s2. cbn [k_mem]. rewrite memset_fill by (unfold PGSIZE; lia). unfold mfill, PGSIZE.
    by rewrite (proj2 (Z.leb_le _ _)), (proj2 (Z.ltb_lt _ _)) by lia.
Qed.

(** One pass of the loop of [allocuvm]. *)
Lemma grow_step_ok s m l pgdir tabs frames n :
  space s (m :: l) pgdir tabs frames -> 0 <= n < NUSER -> frames !! n = None ->
  exists s1, kalloc s = Ok m s1 /\
  let s2 := Kmem (memset (k_mem s1) m 0 PGSIZE) (freelist s1) (use_lock s1) in
  exists r s3 l3 tabs3, mappages pgdir (4096 * n) PGSIZE (V2P m) (Z.lor PTE_W PTE_U) s2 = Ok r s3 /\
    NoDup (m :: pgdir :: pages tabs ++ pages frames ++ l) /\
    pages tabs3 ++ l3 ≡ₚ pages tabs ++ l /\ untouched (pgdir :: pages tabs ++ m :: l) s s3 /\
    (forall va, 0 <= va < 2 ^ 32 -> va / 4096 <> n -> entry s3 tabs3 va = entry s tabs va) /\
    ((r = 0 /\ space s3 l3 pgdir tabs3 (<[n := m]> frames) /\ zeroed s3 tabs3 (<[n := m]> frames) n) \/
     (r = -1 /\ l3 = [] /\ space s3 l3 pgdir tabs3 frames)).
Proof.
  intros Hs Hn Hfr. destruct (zero_page_ok s l m (pt_free _ _ _ _ _ (sp_pt _ _ _ _ _ Hs))) as (s1 & E1 & Hf2 & Hu2 & Hz).
  exists s1. split; [done |]. intros s2. fold s2 in Hf2, Hu2, Hz.
  pose proof (space_pages _ _ _ _ _ Hs) as Hok. pose proof (sp_own _ _ _ _ _ Hs) as Hown.
  assert (Hperm : pgdir :: pages tabs ++ pages frames ++ m :: l ≡ₚ m :: pgdir :: pages tabs ++ pages frames ++ l) by solve_Permutation.
  rewrite Hperm in Hok, Hown. apply Forall_cons_1 in Hok as [Hmo Hok]. pose proof Hown as [Hmn _]%list.NoDup_cons.
  destruct (space_other s (m :: l) s2 l [m] pgdir tabs frames Hs Hu2) as (Hs2 & He2 & _); [by apply Forall_singleton | | done |].
  { intros v Hv. rewrite list_elem_of_singleton.
    assert (Hvl : v ∉ m :: l); [| apply not_elem_of_cons in Hvl as [? ?]; done].
    destruct (own_split _ _ _ _ (sp_own _ _ _ _ _ Hs)) as (_ & _ & C3 & C4 & C5).
    rewrite elem_of_cons, elem_of_app in Hv. destruct Hv as [-> | [Hv | Hv]]; [done | by apply C4 | by apply C5]. }
  destruct (map_page_ok s2 l pgdir tabs frames n m (Z.lor PTE_W PTE_U) Hs2 Hn Hfr Hmo Hown)
    as (r & s3 & l3 & tabs3 & E3 & Hsub & Hpg & Hu3 & He3 & Hr); [done |].
  exists r, s3, l3, tabs3. split_and!; try done.
  - apply (untouched_trans _ s s2); [eapply untouched_mono; [| exact Hu2] | eapply untouched_mono; [| exact Hu3]]; intros v.
    + rewrite list_elem_of_singleton. intros ->. rewrite !elem_of_cons, elem_of_app, elem_of_cons. tauto.
    + rewrite !elem_of_cons, !elem_of_app, elem_of_cons. tauto.
  - intros va Hva Hne. by rewrite He3, He2.
  - destruct Hr as [(-> & Hs3 & Hent) | ?]; [left | by right]. split_and!; [done | done |].
    exists m. rewrite lookup_insert_eq. split_and!; [done | done |]. intros o Ho. rewrite <- (Hz o Ho).
    apply (untouched_page (pgdir :: pages tabs ++ l) s2 s3 m); try done.
    + revert Hok. rewrite !list.Forall_cons, !Forall_app. tauto.
    + revert Hmn. rewrite !not_elem_of_cons, !not_elem_of_app. tauto.
    + unfold in_page, PGSIZE. lia.
Qed.

(** Pages taken back: [deallocuvm] of the range, with what is kept intact. *)
Lemma shrink_back s l pgdir tabs frames oldsz newsz :
  space s l pgdir tabs frames -> 0 <= oldsz -> oldsz < newsz -> newsz <= KERNBASE ->
  exists s' l', deallocuvm kend pgdir newsz oldsz s = Ok oldsz s' /\
    space s' l' pgdir tabs (cut (PGROUNDUP oldsz) newsz frames) /\
    pages (cut (PGROUNDUP oldsz) newsz frames) ++ l' ≡ₚ pages frames ++ l /\
    untouched (pgdir :: pages tabs ++ pages frames ++ l) s s' /\
    (forall va, 0 <= va < 2 ^ 32 -> ~ (PGROUNDUP oldsz <= va < PGROUNDUP newsz) -> entry s' tabs va = entry s tabs va) /\
    (forall v a, v ∈ pages (cut (PGROUNDUP oldsz) newsz frames) -> in_page v a -> k_mem s' a = k_mem s a).
Proof.
  intros Hs H0 Hlt Hk. destruct (deallocuvm_ok s l pgdir tabs frames newsz oldsz Hs H0 Hlt Hk) as (s' & l' & E & Hs' & Hp & Hu & He).
  exists s', l'. split_and!; try done.
  - eapply untouched_mono; [| exact Hu]. intros v. rewrite elem_of_app, elem_of_cons, elem_of_app. intros [? | Hv]; [tauto |].
    right. right. rewrite <- Hp, elem_of_app. by right.
  - intros v a Hv Ha. pose proof (space_pages _ _ _ _ _ Hs') as Hok.
    destruct (own_split _ _ _ _ (sp_own _ _ _ _ _ Hs')) as (_ & O2 & _ & O4 & O5).
    apply (untouched_page (pages tabs ++ l') s s' v a); try done.
    + revert Hok. rewrite !list.Forall_cons, !Forall_app. tauto.
    + eapply page_ok_in; [exact Hok |]. rewrite elem_of_cons, !elem_of_app. tauto.
    + rewrite not_elem_of_app. split; [intros Ht; by destruct (O4 v Ht) | by apply O5].
Qed.

(** A page that belongs to nobody given back. *)
Lemma free_spare s l pgdir tabs frames m :
  space s l pgdir tabs frames -> page_ok kend m -> m ∉ pgdir :: pages tabs ++ pages frames ++ l ->
  exists s', kfree kend m s = Ok tt s' /\ space s' (m :: l) pgdir tabs frames /\ untouched [m] s s' /\
    (forall va, entry s' tabs va = entry s tabs va).
Proof.
  intros Hs Hm Hn. pose proof Hn as Hn'. rewrite not_elem_of_cons, !not_elem_of_app in Hn'. destruct Hn' as (N1 & N2 & N3 & N4).
  destruct (kfree_ok kend s l m (pt_free _ _ _ _ _ (sp_pt _ _ _ _ _ Hs)) Hm N4) as (s' & E & Hf & Hu & _).
  assert (Hu' : untouched [m] s s') by (intros a Ha; apply Hu, Ha; by left).
  destruct (space_other s l s' (m :: l) [m] pgdir tabs frames Hs Hu') as (Hs' & He & _); [by apply Forall_singleton | | done |].
  - intros v Hv. destruct (own_split _ _ _ _ (sp_own _ _ _ _ _ Hs)) as (_ & _ & O3 & O4 & O5).
    assert (v <> m) by (intros ->; revert Hv; rewrite elem_of_cons, elem_of_app; tauto).
    assert (v ∉ l) by (rewrite elem_of_cons, elem_of_app in Hv; destruct Hv as [-> | [? | ?]]; [done | by apply O4 | by apply O5]).
    rewrite list_elem_of_singleton, not_elem_of_cons. done.
  - exists s'. by split_and!.
Qed.

(** One page added, then the rest. *)
Lemma grow_more a0 sz pgdir n s m l tabs frames s3 l3 tabs3 r s' l' :
  0 <= n < NUSER -> a0 <= 4096 * n < sz -> sz <= KERNBASE -> frames !! n = None ->
  pages tabs3 ++ l3 ≡ₚ pages tabs ++ l -> untouched (pgdir :: pages tabs ++ m :: l) s s3 ->
  (forall va, 0 <= va < 2 ^ 32 -> va / 4096 <> n -> entry s3 tabs3 va = entry s tabs va) ->
  space s (m :: l) pgdir tabs frames -> space s3 l3 pgdir tabs3 (<[n := m]> frames) -> zeroed s3 tabs3 (<[n := m]> frames) n ->
  grow_result a0 sz pgdir (n + 1) s3 l3 tabs3 (<[n := m]> frames) r s' l' ->
  grow_result a0 sz pgdir n s (m :: l) tabs frames r s' l'.
Proof.
  intros Hn Hlt Hk Hfr Hpg Hu Hen Hs Hs3 Hz [Hu' (tabs' & frames' & Hs' & Hpg' & He' & Hr)].
  assert (Hall : pages tabs3 ++ pages (<[n := m]> frames) ++ l3 ≡ₚ pages tabs ++ pages frames ++ m :: l).
  { rewrite (pages_insert frames n m Hfr). transitivity (m :: pages frames ++ pages tabs3 ++ l3); [solve_Permutation |].
    rewrite Hpg. solve_Permutation. }
  assert (Hk3 : forall v a, v ∈ pages frames -> in_page v a -> k_mem s3 a = k_mem s a).
  { intros v a. by apply (frames_kept s (m :: l) pgdir tabs). }
  assert (Hsub : forall v, v ∈ pages frames -> v ∈ pages (<[n := m]> frames)).
  { intros v Hv. rewrite pages_insert by done. by right. }
  destruct (PGROUNDUP_bounds sz) as [Hup Hup']; [unfold PGSIZE, KERNBASE in *; lia |]. unfold PGSIZE in Hup, Hup'.
  split.
  { apply (untouched_trans _ s s3); [eapply untouched_mono; [| exact Hu] | eapply untouched_mono; [| exact Hu']]; intros v.
    - rewrite !elem_of_cons, !elem_of_app, !elem_of_cons. tauto.
    - by rewrite !elem_of_cons, Hall. }
  exists tabs', frames'. split_and!; [done | by rewrite Hpg' | |].
  { intros va Hva Hout. rewrite He', Hen; [done | done | | done | done].
    intros Ev. apply Hout. Z.to_euclidean_division_equations; lia. }
  destruct Hr as [(-> & -> & Hkeep) | (-> & Hkeep & Hlow & Hd & Hzs)]; [left | right].
  - assert (Hcut : cut a0 sz (<[n := m]> frames) = cut a0 sz frames).
    { unfold cut. rewrite map_filter_insert_False by (simpl; lia). by rewrite delete_id. }
    rewrite Hcut in Hkeep |- *. split_and!; [done | done |]. intros v a Hv Ha. rewrite (Hkeep v) by done.
    apply (Hk3 v); [by eapply in_cut | done].
  - split_and!; [done | | | |].
    + intros v a Hv Ha. rewrite (Hkeep v) by auto. by apply (Hk3 v).
    + intros va Hva Hlt'. rewrite Hlow, Hen by (try done; lia). done.
    + intros k. destruct (decide (k = n)) as [-> | Hkn]; [right; lia |].
      destruct (Hd k) as [Hk' | ?]; [left; by rewrite Hk', lookup_insert_ne | right; lia].
    + intros k Hk1 Hk2. destruct (decide (k = n)) as [-> | Hkn]; [| apply Hzs; lia].
      destruct Hz as (f & Hf & Hent & Hzero). exists f. destruct (user_page n Hn) as [? Hdiv].
      split_and!; [| by rewrite Hlow by (try done; lia) |].
      * destruct (Hd n) as [-> | ?]; [done | lia].
      * intros o Ho. rewrite <- (Hzero o Ho). apply (Hkeep f); [apply elem_of_pages; eauto |]. unfold in_page, PGSIZE. lia.
Qed.

(** Both failures of [allocuvm]: the range is taken back, then a page that could not be mapped
    ([spare]) is freed. *)
Lemma grow_failed oldsz newsz pgdir n s l tabs frames s3 l3 tabs3 spare :
  0 <= oldsz -> oldsz < newsz -> newsz <= KERNBASE -> space s l pgdir tabs frames ->
  space s3 l3 pgdir tabs3 frames -> pages tabs3 ++ spare ++ l3 ≡ₚ pages tabs ++ l ->
  untouched (pgdir :: pages tabs ++ l) s s3 ->
  (forall va, 0 <= va < 2 ^ 32 -> ~ (PGROUNDUP oldsz <= va < PGROUNDUP newsz) -> entry s3 tabs3 va = entry s tabs va) ->
  let kept := cut (PGROUNDUP oldsz) newsz frames in
  exists s' l', deallocuvm kend pgdir newsz oldsz s3 = Ok oldsz s' /\ space s' l' pgdir tabs3 kept /\
    pages kept ++ l' ≡ₚ pages frames ++ l3 /\
    forall s5, space s5 (spare ++ l') pgdir tabs3 kept -> untouched spare s' s5 ->
      (forall va, entry s5 tabs3 va = entry s' tabs3 va) ->
      grow_result (PGROUNDUP oldsz) newsz pgdir n s l tabs frames 0 s5 (spare ++ l').
Proof.
  intros H0 Hlt Hk Hs Hs3 Hpg Hu He kept.
  destruct (shrink_back s3 l3 pgdir tabs3 frames oldsz newsz Hs3 H0 Hlt Hk) as (s' & l' & E & Hs' & Hp' & Hu' & He' & Hm').
  fold kept in Hs', Hp', Hm'.
  assert (Hall : spare ++ pages tabs3 ++ pages frames ++ l3 ≡ₚ pages tabs ++ pages frames ++ l).
  { transitivity (pages frames ++ pages tabs3 ++ spare ++ l3); [solve_Permutation |]. rewrite Hpg. solve_Permutation. }
  exists s', l'. split_and!; [done | done | done |]. intros s5 Hs5 Hu5 He5. split.
  - apply (untouched_trans _ s s3); [| apply (untouched_trans _ s3 s')];
      [eapply untouched_mono; [| exact Hu] | eapply untouched_mono; [| exact Hu'] | eapply untouched_mono; [| exact Hu5]]; intros v.
    + rewrite !elem_of_cons, !elem_of_app. tauto.
    + rewrite !elem_of_cons, <- Hall, (elem_of_app spare). tauto.
    + intros Hv. rewrite elem_of_cons, <- Hall, elem_of_app. tauto.
  - exists tabs3, kept. split_and!; [done | | |].
    + rewrite <- Hall. transitivity (spare ++ pages tabs3 ++ pages kept ++ l'); [solve_Permutation |]. by rewrite Hp'.
    + intros va Hva Hout. by rewrite He5, He', He.
    + left. split_and!; [done | done |]. fold kept. intros v a Hv Ha.
      destruct (own_split _ _ _ _ (sp_own _ _ _ _ _ Hs5)) as (_ & _ & _ & _ & O5). specialize (O5 v Hv).
      pose proof (space_pages _ _ _ _ _ Hs5) as Hok. rewrite !list.Forall_cons, !Forall_app in Hok.
      rewrite (untouched_page spare s' s5 v a); try done; try tauto.
      * rewrite (Hm' v) by done. apply (frames_kept s l pgdir tabs frames s3 v); try done. by eapply in_cut.
      * destruct Hok as (_ & _ & Hok & _). by eapply page_ok_in.
      * intros Hvs. apply O5. rewrite elem_of_app. by left.
Qed.

Lemma allocuvm_loop_ok oldsz newsz pgdir : forall fuel n s l tabs frames,
  space s l pgdir tabs frames -> 0 <= oldsz -> PGROUNDUP oldsz <= 4096 * n -> newsz <= KERNBASE ->
  (forall k, n <= k -> 4096 * k < newsz -> frames !! k = None) ->
  1 <= Z.of_nat fuel -> newsz - 4096 * n <= 4096 * (Z.of_nat fuel - 1) -> oldsz <= newsz ->
  exists r s' l', allocuvm_loop kend fuel pgdir (4096 * n) oldsz newsz s = Ok r s' /\
    grow_result (PGROUNDUP oldsz) newsz pgdir n s l tabs frames r s' l'.
Proof.
  induction fuel as [|fuel IH]; intros n s l tabs frames Hs Ho Hn Hk Hfr Hf1 Hf2 Hle; [lia |].
  cbn [allocuvm_loop]. destruct (Z.ltb_spec (4096 * n) newsz) as [Hlt | Hge]; cbn [negb].
  2: { exists newsz, s, l. split; [done |]. split; [apply untouched_refl |]. exists tabs, frames. split_and!; try done.
       right. split_and!; try done; [intros k; by left | intros k; lia]. }
  destruct (PGROUNDUP_bounds oldsz) as [Hup _]; [unfold PGSIZE, KERNBASE in *; lia |].
  assert (Hnu : 0 <= n < NUSER) by (change NUSER with 524288; unfold KERNBASE in Hk; lia).
  destruct l as [|m l].
  { erewrite bind_ok by (apply (kalloc_empty kend); apply Hs). cbn [Z.eqb].
    destruct (grow_failed oldsz newsz pgdir n s [] tabs frames s [] tabs []) as (s' & l' & E & Hs' & _ & Hr); try done; try lia.
    exists 0, s', l'. erewrite bind_ok by exact E. split; [done |]. by apply Hr. }
  destruct (grow_step_ok s m l pgdir tabs frames n Hs Hnu) as (s1 & E1 & Hstep); [apply Hfr; lia |].
  destruct Hstep as (r & s3 & l3 & tabs3 & E3 & Hnd & Hpg & Hu & Hen & Hr). erewrite bind_ok by exact E1.
  assert (Hmo : page_ok kend m).
  { eapply page_ok_in; [exact (space_pages _ _ _ _ _ Hs) |]. right. rewrite !elem_of_app. right. right. by left. }
  rewrite (proj2 (Z.eqb_neq m 0)) by (by eapply page_nonzero).
  unfold zero_page at 1. erewrite bind_ok by reflexivity. erewrite bind_ok by exact E3.
  destruct Hr as [(-> & Hs3 & Hz) | (-> & -> & Hs3)]; cbn [Z.ltb Z.compare].
  - rewrite (u32_small (4096 * n + PGSIZE)) by (unfold PGSIZE, KERNBASE in *; lia).
    replace (4096 * n + PGSIZE) with (4096 * (n + 1)) by (unfold PGSIZE; lia).
    destruct (IH (n + 1) s3 l3 tabs3 (<[n := m]> frames)) as (r & s' & l' & E & Hr'); try done; try lia.
    + intros k Hk1 Hk2. rewrite lookup_insert_ne by lia. apply Hfr; lia.
    + exists r, s', l'. split; [done |]. eapply grow_more; try done; apply Hfr; lia.
  - destruct (grow_failed oldsz newsz pgdir n s (m :: l) tabs frames s3 [] tabs3 [m])
      as (s' & l' & E & Hs' & Hp' & Hr); try done; try lia.
    + rewrite app_nil_r in Hpg |- *. rewrite (Permutation_app_comm _ [m]), Hpg. solve_Permutation.
    + intros va Hva Hout. apply Hen; [done |]. intros Ev. apply Hout.
      destruct (PGROUNDUP_bounds newsz) as [? ?]; unfold PGSIZE, KERNBASE in *; [lia |]. Z.to_euclidean_division_equations; lia.
    + erewrite bind_ok by exact E.
      destruct (free_spare s' l' pgdir tabs3 _ m Hs' Hmo) as (s5 & E5 & Hs5 & Hu5 & He5).
      { apply list.NoDup_cons in Hnd as [Hmn _]. revert Hmn. rewrite !elem_of_cons, !elem_of_app.
        intros Hmn Hin. apply Hmn.
        assert (Hin2 : m = pgdir \/ m ∈ pages tabs3 \/ m ∈ pages frames).
        { destruct Hin as [? | [? | [Hin%in_cut | Hin]]]; [tauto | tauto | tauto |]. right. right.
          rewrite app_nil_r in Hp'. rewrite <- Hp', elem_of_app. by right. }
        rewrite app_nil_r in Hpg. rewrite Hpg, elem_of_app in Hin2. tauto. }
      exists 0, s5, ([m] ++ l'). erewrite bind_ok by exact E5. split; [done |]. by apply Hr.
Qed.

End space.

(** ** Properties *)

(** C15: [copyuvm] gives the child a copy of the parent's memory.  Called on a consistent address
    space whose pages below [sz] are mapped, it returns and leaves the parent's page tables and
    memory as they were.  If it returns a directory, that is a consistent address space built from
    pages that were free, with the kernel mapped above [KERNBASE], exactly the pages below [sz] below
    it, and in each of these the bytes and the permissions of the parent's page; no page of the
    machine is lost.  It returns 0 only when the free pages are too few for the memory, a directory
    and the 1024 tables one can have; then every page it took is free again, except for at most
    one. *)
Theorem copyuvm_correct (kend kdata : Z) (s : kmem) (l : list Z) (pgdir : Z) (tabs frames : gmap Z Z) (sz : Z) :
  KERNLINK <= kend -> KERNLINK < kdata < P2V PHYSTOP /\ kdata mod PGSIZE = 0 ->
  space kend s l pgdir tabs frames -> 0 <= sz <= KERNBASE ->
  (forall n, 0 <= n -> 4096 * n < sz -> is_Some (frames !! n)) ->
  exists r s' l', copyuvm kend kdata pgdir sz s = Ok r s' /\ space kend s' l' pgdir tabs frames /\
    (forall v a, v ∈ pgdir :: pages tabs ++ pages frames -> in_page v a -> k_mem s' a = k_mem s a) /\
    ((r = 0 /\ Z.of_nat (length l) <= 1025 + npages sz /\ (l' ≡ₚ l \/ exists m, m :: l' ≡ₚ l)) \/
     (r <> 0 /\ exists td fd, space kend s' l' r td fd /\ r :: pages td ++ pages fd ++ l' ≡ₚ l /\ kernel_half kdata s' td /\
        (forall n, is_Some (fd !! n) <-> 0 <= n /\ 4096 * n < sz) /\
        (forall n, 0 <= n -> 4096 * n < sz -> copied s tabs frames s' td fd n))).
Proof.
  intros Hke Hkd Hs Hsz Hfr. unfold copyuvm.
  destruct (own_split _ _ _ _ (sp_own _ _ _ _ _ _ Hs)) as (_ & _ & O3 & O4 & O5).
  assert (Hnl : forall v, v ∈ pgdir :: pages tabs ++ pages frames -> v ∉ l).
  { intros v. rewrite elem_of_cons, elem_of_app. intros [-> | [? | ?]]; [done | by apply O4 | by apply O5]. }
  pose proof (pt_free _ _ _ _ _ (sp_pt _ _ _ _ _ _ Hs)) as Hf.
  assert (Hok : Forall (page_ok kend) l) by apply Hf.
  destruct (setupkvm_ok kend Hke kdata Hkd s l Hf) as (d & s1 & l1 & E1 & Hu1 & Hr1). erewrite bind_ok by exact E1.
  destruct Hr1 as [(-> & Hf1 & Hl1 & Hfew) | (td0 & Hd & Hl1 & Hkern)].
  { destruct (space_other kend s l s1 l1 l pgdir tabs frames Hs Hu1 Hok) as (Hs1 & _ & Hm1); [| done |].
    - intros v Hv. rewrite Hl1. by split; apply Hnl.
    - exists 0, s1, l1. split_and!; try done. left. split_and!; [done | | by left].
      assert (0 <= npages sz) by (unfold npages; Z.to_euclidean_division_equations; lia). lia. }
  assert (Hdok : page_ok kend d) by apply Hd. rewrite (proj2 (Z.eqb_neq d 0)) by (by eapply page_nonzero).
  assert (Hin1 : forall v, v ∈ d :: pages td0 ++ l1 -> v ∈ l) by (intros v; by rewrite Hl1).
  destruct (space_other kend s l s1 l1 l pgdir tabs frames Hs Hu1 Hok) as (Hs1 & He1 & Hm1); [| apply Hd |].
  { intros v Hv. split; [by apply Hnl |]. intros Hv1. apply (Hnl v Hv), Hin1. rewrite elem_of_cons, elem_of_app. tauto. }
  change (pages ∅) with (@nil Z) in *.
  destruct (copyuvm_loop_ok kend Hke sz pgdir tabs frames d (S (S (Z.to_nat (sz / PGSIZE)))) 0 s1 l1 td0 ∅ Hs1 Hd)
    as (r & s' & l' & E & Hu & Hr); try done; try lia.
  { intros v Hv Hv'. apply (Hnl v Hv'), Hin1. change (pages ∅) with (@nil Z) in Hv. rewrite app_nil_r in Hv.
    revert Hv. rewrite !elem_of_cons, elem_of_app. tauto. }
  { unfold PGSIZE. rewrite !Nat2Z.inj_succ, Z2Nat.id; Z.to_euclidean_division_equations; lia. }
  change (pages ∅) with (@nil Z) in *. rewrite app_nil_l in *.
  assert (Hl' : free_inv kend s' l' /\ forall v, v ∈ l' -> v ∈ l).
  { destruct Hr as [(_ & Hf' & _ & Hl') | (_ & _ & td & fd & Hd' & Hl' & _)]; (split; [done || apply Hd' |]); intros v Hv; apply Hin1.
    - destruct Hl' as [<- | [m <-]]; [done | by right].
    - right. rewrite <- Hl', !elem_of_app. tauto. }
  destruct Hl' as [Hf' Hsub].
  destruct (space_other kend s1 l1 s' l' l pgdir tabs frames Hs1) as (Hs' & _ & Hm');
    [exact (untouched_mono _ _ _ _ Hin1 Hu) | done | intros v Hv; split; [by apply Hnl | intros Hv'; by apply (Hnl v Hv), Hsub] | done |].
  exists r, s', l'. split_and!; [done | done | intros v a Hv Ha; by rewrite (Hm' v), (Hm1 v) |].
  destruct Hr as [(-> & _ & Hfew & Hr) | (-> & _ & td & fd & Hd' & Hl' & He' & Hdom & Hcp)]; [left | right].
  { split_and!; [done | | by setoid_rewrite Hl1 in Hr]. rewrite Z.mul_0_r, Z.sub_0_r in Hfew.
    apply Permutation_length in Hl1. simpl in Hl1. lia. }
  split; [by eapply page_nonzero |]. exists td, fd. split_and!; [done | by rewrite Hl' | | |].
  - intros va Hva. rewrite He', Hkern; [done | done | unfold KERNBASE in *; lia |].
    unfold KERNBASE in *. Z.to_euclidean_division_equations; lia.
  - intros n. split; [| intros [? ?]; destruct (Hcp n) as (f & g & _ & Hg & _); [done | done | by exists g]].
    intros [g Hg]. destruct (Hdom n) as [Hn | Hn]; [by rewrite Hg, lookup_empty in Hn | done].
  - intros n Hn1 Hn2. eapply copied_before; [by apply Hcp | done |]. intros v a Hv. apply Hm1.
    rewrite elem_of_cons, elem_of_app. tauto.
Qed.

(** C16: [allocuvm] grows an address space by zeroed pages, or not at all.  It refuses a size that
    reaches [KERNBASE] and leaves a larger size alone.  Otherwise, on a consistent address space
    with nothing mapped between the two sizes, it returns; the directory stays consistent, pages are
    neither lost nor shared, the memory that was there keeps its contents, and the entries outside
    the range (the kernel's among them) stay.  It returns [newsz] with every page of the range mapped
    to a zeroed, writable frame of its own, or 0 with the same user pages as before. *)
Theorem allocuvm_correct (kend : Z) (s : kmem) (l : list Z) (pgdir : Z) (tabs frames : gmap Z Z) (oldsz newsz : Z) :
  KERNLINK <= kend -> space kend s l pgdir tabs frames -> 0 <= oldsz ->
  (forall n, PGROUNDUP oldsz <= 4096 * n < newsz -> frames !! n = None) ->
  (KERNBASE <= newsz -> allocuvm kend pgdir oldsz newsz s = Ok 0 s) /\
  (newsz < KERNBASE -> newsz < oldsz -> allocuvm kend pgdir oldsz newsz s = Ok oldsz s) /\
  (newsz < KERNBASE -> oldsz <= newsz ->
   exists r s' l' tabs' frames', allocuvm kend pgdir oldsz newsz s = Ok r s' /\ space kend s' l' pgdir tabs' frames' /\
     pages tabs' ++ pages frames' ++ l' ≡ₚ pages tabs ++ pages frames ++ l /\
     (forall v a, v ∈ pages frames -> in_page v a -> k_mem s' a = k_mem s a) /\
     (forall va, 0 <= va < 2 ^ 32 -> ~ (PGROUNDUP oldsz <= va < PGROUNDUP newsz) -> entry s' tabs' va = entry s tabs va) /\
     ((r = 0 /\ frames' = frames) \/
      (r = newsz /\ (forall n, frames' !! n = frames !! n \/ PGROUNDUP oldsz <= 4096 * n < newsz) /\
       (forall n, PGROUNDUP oldsz <= 4096 * n < newsz -> zeroed s' tabs' frames' n)))).
Proof.
  intros Hke Hs Ho Hfr. unfold allocuvm. split_and!.
  - intros Hk. by rewrite (proj2 (Z.leb_le _ _) Hk).
  - intros Hk Hlt. by rewrite (proj2 (Z.leb_gt _ _) Hk), (proj2 (Z.ltb_lt _ _) Hlt).
  - intros Hk Hle. rewrite (proj2 (Z.leb_gt _ _) Hk), (proj2 (Z.ltb_ge _ _) Hle).
    destruct (PGROUNDUP_bounds oldsz) as [Hup Hal]; [unfold PGSIZE, KERNBASE in *; lia |].
    assert (En : exists n, PGROUNDUP oldsz = 4096 * n).
    { exists (PGROUNDUP oldsz / 4096). unfold PGSIZE in Hal. Z.to_euclidean_division_equations; lia. }
    destruct En as [n En].
    destruct (allocuvm_loop_ok kend Hke oldsz newsz pgdir (S (S (Z.to_nat (newsz / PGSIZE)))) n s l tabs frames Hs Ho)
      as (r & s' & l' & E & _ & tabs' & frames' & Hs' & Hp & He & Hr); try lia.
    { intros k Hk1 Hk2. apply Hfr. lia. }
    { unfold PGSIZE. rewrite !Nat2Z.inj_succ, Z2Nat.id; Z.to_euclidean_division_equations; lia. }
    rewrite <- En in E. exists r, s', l', tabs', frames'. split_and!; try done.
    + intros v a Hv Ha. destruct Hr as [(-> & -> & Hm) | (-> & Hm & _)]; [| by apply (Hm v)].
      apply (Hm v); [| done]. apply elem_of_pages in Hv as [k Hv]. apply elem_of_pages. exists k.
      apply map_lookup_filter_Some. split; [done |]. simpl. intros Hk'. by rewrite Hfr in Hv.
    + destruct Hr as [(-> & -> & _) | (-> & _ & _ & Hd & Hz)]; [left | right].
      * split; [done |]. apply map_filter_id. intros k f Hf. simpl. intros Hk'. by rewrite Hfr in Hf.
      * split_and!; [done | | intros k Hk'; apply Hz; lia]. intros k. destruct (Hd k) as [? | ?]; [by left | right; lia].
Qed.

(** [freevm] gives back every page of an address space.  On a consistent address space it
    returns, and the free list afterwards holds the directory, every page table and every frame
    besides what it held before, each once; no byte outside these pages has changed. *)
Theorem freevm_releases (kend : Z) (s : kmem) (l : list Z) (pgdir : Z) (tabs frames : gmap Z Z) :
  KERNLINK <= kend -> space kend s l pgdir tabs frames ->
  exists s' l', freevm kend pgdir s = Ok tt s' /\ free_inv kend s' l' /\
    l' ≡ₚ pgdir :: pages tabs ++ pages frames ++ l /\ untouched l' s s'.
Proof. intros Hke. apply (freevm_ok kend Hke). Qed.

(** [copyuvm] loses a page when it runs out of memory at the wrong moment.  With one free page
    left and no table for page [n] in the child, the loop puts the copy into the free page, fails to
    get a table for it, frees the child and returns 0; the page holding the copy is then neither
    free nor part of any address space. *)
Theorem copyuvm_loses_page (kend : Z) (s : kmem) (m pgdir : Z) (tabs frames : gmap Z Z) (d : Z) (td fd : gmap Z Z) (n sz : Z) (fuel : nat) :
  KERNLINK <= kend -> space kend s [m] pgdir tabs frames -> space kend s [m] d td fd ->
  disjoint_spaces d td fd pgdir tabs frames -> 0 <= n < NUSER -> 4096 * n < sz ->
  is_Some (frames !! n) -> fd !! n = None -> td !! PDX (4096 * n) = None ->
  exists s' l', copyuvm_loop kend (S fuel) pgdir d (4096 * n) sz s = Ok 0 s' /\ free_inv kend s' l' /\
    l' ≡ₚ d :: pages td ++ pages fd /\ m ∉ l' /\ m ∉ pgdir :: pages tabs ++ pages frames.
Proof.
  intros Hke Hs Hc Hdis Hn Hlt [f Hf] Hfd Htd.
  destruct (frame_table kend _ _ _ _ _ _ _ Hs Hf) as [t Ht].
  pose proof (sp_map _ _ _ _ _ _ Hs n Hn) as Hm. rewrite Hf in Hm. destruct Hm as [Hpr Hpa].
  destruct (copy_step_ok kend Hke s m [] pgdir tabs frames d td fd n f Hs Hc Hdis Hn Hf Hfd) as (s1 & E1 & Hstep).
  destruct Hstep as (r & s3 & l3 & td3 & E3 & Hsub & Hpg & _ & _ & _ & _ & _ & Hr).
  assert (td3 = td) as ->.
  { symmetry. apply map_subseteq_size_eq; [done |]. apply Permutation_length in Hpg. revert Hpg.
    rewrite !length_app. unfold pages. rewrite !length_fmap, !length_map_to_list. simpl. lia. }
  destruct Hr as [(_ & Hc3 & _) | (-> & -> & Hc3)].
  { destruct (frame_table kend _ _ _ _ _ n m Hc3) as [t' Ht']; [apply lookup_insert_eq | congruence]. }
  destruct (freevm_ok kend Hke s3 [] d td fd Hc3) as (s' & l' & E & Hf' & Hl' & _). rewrite app_nil_r in Hl'.
  exists s', l'. split_and!; [| done | done | |].
  - cbn [copyuvm_loop]. rewrite (proj2 (Z.ltb_lt _ _) Hlt). cbn [negb].
    erewrite bind_ok by (eapply walk_present; [apply Hs | exact Ht]).
    rewrite (proj2 (Z.eqb_neq _ 0)) by (eapply table_address; [apply Hs | exact Ht]).
    unfold rd at 1. erewrite bind_ok by reflexivity. rewrite (table_word s tabs n t Ht), Hpr. cbn [negb]. cbv zeta. rewrite Hpa.
    erewrite bind_ok by exact E1.
    assert (m <> 0).
    { apply (page_nonzero kend). eapply page_ok_in; [exact (space_pages _ _ _ _ _ _ Hc) |].
      rewrite elem_of_cons, !elem_of_app, list_elem_of_singleton. tauto. }
    rewrite (proj2 (Z.eqb_neq m 0)) by done. unfold move at 1. erewrite bind_ok by reflexivity.
    erewrite bind_ok by exact E3. cbn [Z.ltb Z.compare]. by erewrite bind_ok by exact E.
  - rewrite Hl'. pose proof (sp_own _ _ _ _ _ _ Hc) as Ho. rewrite app_assoc, app_comm_cons in Ho.
    apply list.NoDup_app in Ho as (_ & Ho & _). intros Hin. apply (Ho m Hin). by left.
  - pose proof (sp_own _ _ _ _ _ _ Hs) as Ho. rewrite app_assoc, app_comm_cons in Ho.
    apply list.NoDup_app in Ho as (_ & Ho & _). intros Hin. apply (Ho m Hin). by left.
Qed.

(** ** A small machine

    A parent with one page of memory, an empty directory, and one free page. *)
Definition at_page (k : Z) : Z := KERNLINK + 4096 * k.

Definition demo_space : kmem :=
  Kmem (st32 (st32 (fun _ => 0) (at_page 1) (pte_of (at_page 2) (Z.lor PTE_W PTE_U)))
          (at_page 0) (pte_of (at_page 1) (Z.lor PTE_W PTE_U))) (at_page 3) true.

Ltac not_listed := repeat (apply not_elem_of_cons; split; [by vm_compute |]); apply not_elem_of_nil.
Ltac distinct := repeat (apply NoDup_cons_2; [not_listed |]); apply NoDup_nil_2.

Lemma demo_free : free_inv KERNLINK demo_space [at_page 3].
Proof.
  split.
  - simpl. split; [done |]. by vm_compute.
  - apply NoDup_singleton.
  - apply Forall_singleton. by vm_compute.
Qed.

Lemma demo_word v j :
  v mod 4096 = 0 -> 0 <= j < 1024 -> (v <> at_page 1 \/ j <> 0) -> (v <> at_page 0 \/ j <> 0) ->
  ld32 (k_mem demo_space) (v + 4 * j) = 0.
Proof.
  unfold at_page, KERNLINK, EXTMEM, KERNBASE. intros Hv Hj H1 H2. unfold demo_space, at_page, KERNLINK, EXTMEM, KERNBASE. cbn [k_mem].
  rewrite !ld32_st32_other; [done | |]; Z.to_euclidean_division_equations; lia.
Qed.

Lemma demo_parent : space KERNLINK demo_space [at_page 3] (at_page 0) {[0 := at_page 1]} {[0 := at_page 2]}.
Proof.
  split.
  - split; [apply demo_free | | | |].
    + split; [by vm_compute |]. rewrite list_elem_of_singleton. by vm_compute.
    + intros i t [<- <-]%lookup_singleton_Some. split_and!; try by vm_compute. not_listed.
    + intros i Hi Hn%lookup_singleton_None. rewrite demo_word; [done | done | done | left; by vm_compute | right; congruence].
    + intros i j t [<- _]%lookup_singleton_Some [<- _]%lookup_singleton_Some. done.
  - change NUSER with 524288. intros n Hn. destruct (decide (n = 0)) as [-> | Hn0]; [by vm_compute |].
    rewrite lookup_singleton_ne by done. unfold entry. rewrite PDX_eq, PTX_eq by lia.
    destruct (decide (4096 * n / 2 ^ 22 = 0)) as [E | E]; [| by rewrite lookup_singleton_ne].
    rewrite E, lookup_singleton_eq. change (2 ^ 22) with 4194304 in E.
    rewrite demo_word; [done | done | Z.to_euclidean_division_equations; lia | | left; by vm_compute].
    right. Z.to_euclidean_division_equations; lia.
  - intros n f [<- <-]%lookup_singleton_Some. by vm_compute.
  - unfold pages. rewrite !map_to_list_singleton. simpl. distinct.
Qed.

Lemma demo_child : space KERNLINK demo_space [at_page 3] (at_page 5) ∅ ∅.
Proof.
  split.
  - split; [apply demo_free | | by intros | | by intros].
    + split; [by vm_compute |]. rewrite list_elem_of_singleton. by vm_compute.
    + intros i Hi _. rewrite demo_word; [done | done | done | left; by vm_compute | left; by vm_compute].
  - intros n Hn. rewrite lookup_empty. unfold entry. by rewrite lookup_empty.
  - intros n f. by rewrite lookup_empty.
  - change (pages ∅) with (@nil Z). simpl. distinct.
Qed.

Lemma length_pushed : forall n p l, length (pushed p n l) = (n + length l)%nat.
Proof. induction n as [|n IH]; intros p l; [done |]. simpl. rewrite IH. simpl. lia. Qed.

(** A machine with 4500 pages, and an address space without user memory in some of them. *)
Lemma demo_memory : exists (m : kmem) l pg tabs, space KERNLINK m l pg tabs ∅ /\ 3400 <= Z.of_nat (length l).
Proof.
  assert (Hn : (KERNLINK + 18432000 - KERNLINK) / PGSIZE = 4500) by reflexivity.
  pose proof (freerange_loop_ok KERNLINK (KERNLINK + 18432000) 4501 KERNLINK (Kmem (fun _ => 0) 0 false) []) as Hfree. rewrite Hn in Hfree.
  destruct Hfree as (m0 & _ & Hf & _); [split; [reflexivity | apply NoDup_nil_2 | apply list.Forall_nil_2] | unfold KERNLINK, KERNBASE, EXTMEM, PHYSTOP in *; lia |
    reflexivity | lia | unfold KERNLINK, KERNBASE, EXTMEM; lia | unfold KERNLINK, KERNBASE, EXTMEM, PHYSTOP; lia | by intros v ?%not_elem_of_nil | lia |].
  assert (Hl0 : length (pushed KERNLINK (Z.to_nat 4500) []) = 4500%nat) by (rewrite length_pushed; cbn [length]; lia).
  remember (pushed KERNLINK (Z.to_nat 4500) []) as l0 eqn:El0. clear El0.
  assert (Hkd : KERNLINK < KERNLINK + 4096 < P2V PHYSTOP /\ (KERNLINK + 4096) mod PGSIZE = 0) by done.
  destruct (setupkvm_ok KERNLINK (Z.le_refl _) (KERNLINK + 4096) Hkd m0 l0 Hf) as (pg & m & l & _ & _ & [(_ & _ & _ & Hfew) | (tabs & Hs & Hl & _)]); [lia |].
  exists m, l, pg, tabs. split; [done |]. pose proof (tables_bound KERNLINK _ _ _ _ (sp_pt _ _ _ _ _ _ Hs)). apply Permutation_length in Hl.
  cbn [length] in Hl. rewrite length_app in Hl. lia.
Qed.

(** The same with one page of user memory. *)
Lemma demo_user : exists (s : kmem) l pg tabs f, space KERNLINK s l pg tabs {[0 := f]} /\ 1100 <= Z.of_nat (length l).
Proof.
  destruct demo_memory as (s & [|m l] & pg & tabs & Hs & Hl); [cbn [length] in Hl; lia |].
  pose proof (tables_bound KERNLINK _ _ _ _ (sp_pt _ _ _ _ _ _ Hs)).
  destruct (grow_step_ok KERNLINK (Z.le_refl _) s m l pg tabs ∅ 0 Hs) as (s1 & _ & r & s3 & l3 & tabs3 & _ & _ & Hp & _ & _ & Hr);
    [by vm_compute | apply lookup_empty |].
  apply Permutation_length in Hp. rewrite !length_app in Hp. cbn [length] in Hl.
  destruct Hr as [(_ & Hs3 & _) | (_ & -> & Hs3)]; pose proof (tables_bound KERNLINK _ _ _ _ (sp_pt _ _ _ _ _ _ Hs3)).
  - exists s3, l3, pg, tabs3, m. split; [exact Hs3 | lia].
  - cbn [length] in Hp. lia.
Qed.

(** A process with one page of memory, on a machine with many free pages: it does get a copy. *)
Lemma copyuvm_correct_witness :
  exists (s : kmem) l pg tabs f r s' l' td g, space KERNLINK s l pg tabs {[0 := f]} /\
    copyuvm KERNLINK (KERNLINK + 4096) pg 4096 s = Ok r s' /\ r <> 0 /\ space KERNLINK s' l' r td {[0 := g]} /\
    forall o, 0 <= o < 4096 -> k_mem s' (g + o) = k_mem s (f + o).
Proof.
  destruct demo_user as (s & l & pg & tabs & f & Hs & Hl). exists s, l, pg, tabs, f.
  destruct (copyuvm_correct KERNLINK (KERNLINK + 4096) s l pg tabs {[0 := f]} 4096)
    as (r & s' & l' & E & Hs' & _ & Hr).
  - by vm_compute.
  - by vm_compute.
  - exact Hs.
  - by vm_compute.
  - intros n H1 H2. assert (n = 0) as -> by lia. rewrite lookup_singleton_eq. by eexists.
  - destruct Hr as [(_ & Hfew & _) | (Hr & td & fd & Hd & _ & _ & Hdom & Hcp)].
    { change (npages 4096) with 1 in Hfew. lia. }
    destruct (Hcp 0) as (f' & g & H1 & H2 & _ & H4); [lia | lia |].
    rewrite lookup_singleton_eq in H1. injection H1 as <-.
    assert (Hfd : fd = {[0 := g]}).
    { apply map_eq. intros n. destruct (decide (n = 0)) as [-> | Hn]; [by rewrite lookup_singleton_eq |].
      rewrite lookup_singleton_ne by done. apply eq_None_not_Some. rewrite Hdom. lia. }
    rewrite Hfd in Hd. exists r, s', l', td, g. split_and!; done.
Defined.

Lemma allocuvm_correct_witness :
  exists r s', allocuvm KERNLINK (at_page 0) 4096 8192 demo_space = Ok r s' /\ (r = 0 \/ r = 8192) /\
    (forall o, 0 <= o < 4096 -> k_mem s' (at_page 2 + o) = 0).
Proof.
  destruct (allocuvm_correct KERNLINK demo_space [at_page 3] (at_page 0) {[0 := at_page 1]} {[0 := at_page 2]} 4096 8192) as (_ & _ & H).
  - by vm_compute.
  - exact demo_parent.
  - lia.
  - change (PGROUNDUP 4096) with 4096. intros n Hn. apply lookup_singleton_ne. lia.
  - destruct H as (r & s' & l' & tabs' & frames' & E & _ & _ & Hm & _ & Hr); [by vm_compute | lia |].
    exists r, s'. split; [exact E |]. split; [destruct Hr as [[-> _] | [-> _]]; auto |]. intros o Ho.
    rewrite (Hm (at_page 2)).
    + assert (Hz : forall a, at_page 2 <= a -> k_mem demo_space a = 0); [| apply Hz; lia].
      intros a Ha. unfold demo_space. cbn [k_mem]. rewrite !st32_other; [done | |]; right; revert Ha; unfold at_page; lia.
    + apply elem_of_pages. exists 0. apply lookup_singleton_eq.
    + unfold in_page, PGSIZE. lia.
Defined.

Lemma freevm_releases_witness :
  exists s' l', freevm KERNLINK (at_page 0) demo_space = Ok tt s' /\
    l' ≡ₚ [at_page 0; at_page 1; at_page 2; at_page 3].
Proof.
  destruct (freevm_releases KERNLINK demo_space [at_page 3] (at_page 0) {[0 := at_page 1]} {[0 := at_page 2]}) as (s' & l' & E & _ & Hl & _).
  - by vm_compute.
  - exact demo_parent.
  - exists s', l'. split; [exact E |]. unfold pages in Hl. by rewrite !map_to_list_singleton in Hl.
Defined.

Lemma copyuvm_loses_page_witness :
  exists s' l', copyuvm_loop KERNLINK 3 (at_page 0) (at_page 5) 0 4096 demo_space = Ok 0 s' /\
    free_inv KERNLINK s' l' /\ at_page 3 ∉ l'.
Proof.
  destruct (copyuvm_loses_page KERNLINK demo_space (at_page 3) (at_page 0) {[0 := at_page 1]} {[0 := at_page 2]} (at_page 5) ∅ ∅ 0 4096 2)
    as (s' & l' & E & Hf & _ & Hm & _).
  - by vm_compute.
  - exact demo_parent.
  - exact demo_child.
  - intros v Hv. change (pages ∅) with (@nil Z) in Hv. simpl in Hv. apply list_elem_of_singleton in Hv as ->.
    unfold pages. rewrite !map_to_list_singleton. simpl. not_listed.
  - by vm_compute.
  - by vm_compute.
  - rewrite lookup_singleton_eq. by eexists.
  - apply lookup_empty.
  - apply lookup_empty.
  - exists s', l'. split_and!; [exact E | exact Hf | exact Hm].
Defined.
