(* ===== verification/VmUser.v ===== *)
(** * User memory

    The bytes of an address space as its process sees them, and the routines of vm.c that write
    them through the page tables: [copyout], [clearpteu] and, given what the file system reads,
    [loaduvm]. *)
From S2P Require Import Prelude Mem CString Mmu Kalloc Vm VmSpace.
#[local] Open Scope Z_scope.

(** The byte at user address [a]. *)
Definition ubyte (s : kmem) (frames : gmap Z Z) (a : Z) : Z :=
  match frames !! (a / 4096) with Some f => k_mem s (f + a mod 4096) | None => 0 end.

(** The bytes [bs] at [va], and nothing else changed. *)
Definition stored (va : Z) (bs : list Z) (u u' : Z -> Z) : Prop :=
  forall a, u' a = if decide (va <= a < va + Z.of_nat (length bs)) then u8 (bs !!! Z.to_nat (a - va)) else u a.

(** User page [n] may be written by [copyout]. *)
Definition writable (s : kmem) (tabs frames : gmap Z Z) (n : Z) : Prop :=
  is_Some (frames !! n) /\ Z.land (entry s tabs (4096 * n)) PTE_U <> 0.

Lemma stored_nil va u : stored va [] u u.
Proof. intros a. rewrite decide_False; [done | simpl; lia]. Qed.

Lemma stored_app va bs cs u u1 u2 :
  stored va bs u u1 -> stored (va + Z.of_nat (length bs)) cs u1 u2 -> stored va (bs ++ cs) u u2.
Proof.
  intros H1 H2 a. rewrite H2, H1, length_app, Nat2Z.inj_add.
  repeat case_decide; try lia; [| by rewrite lookup_total_app_l by lia].
  rewrite lookup_total_app_r by lia. do 2 f_equal. lia.
Qed.

Lemma put_bytes_ok : forall bs a s, exists s', put_bytes a bs s = Ok tt s' /\ freelist s' = freelist s /\ stored a bs (k_mem s) (k_mem s').
Proof.
  induction bs as [|b bs IH]; intros a s; [exists s; split_and!; [done | done | apply stored_nil] |].
  cbn [put_bytes]. erewrite bind_ok by reflexivity. set (s1 := Kmem _ _ _). destruct (IH (a + 1) s1) as (s' & E & Hf & Hm).
  exists s'. split_and!; [exact E | exact Hf |]. change (b :: bs) with ([b] ++ bs). eapply stored_app; [| exact Hm].
  intros x. cbn [k_mem s1]. change (Z.of_nat (length [b])) with 1. case_decide as Hx.
  - replace x with a by lia. rewrite upd_same, Z.sub_diag. done.
  - rewrite upd_other; [done | lia].
Qed.

Section user.
Variable kend : Z.
Hypothesis Hkend : KERNLINK <= kend.

Lemma ubyte_frame s s' frames : (forall v a, v ∈ pages frames -> in_page v a -> k_mem s' a = k_mem s a) ->
  forall a, ubyte s' frames a = ubyte s frames a.
Proof.
  intros Hm a. unfold ubyte. destruct (frames !! (a / 4096)) as [f|] eqn:Hf; [| done]. apply (Hm f).
  - apply elem_of_pages. eauto.
  - unfold in_page, PGSIZE. pose proof (Z.mod_pos_bound a 4096). lia.
Qed.

(** Bytes written into one frame. *)
Lemma poke_ok s l pgdir tabs frames n f o bs :
  space kend s l pgdir tabs frames -> frames !! n = Some f -> 0 <= o -> o + Z.of_nat (length bs) <= 4096 ->
  exists s', put_bytes (f + o) bs s = Ok tt s' /\ space kend s' l pgdir tabs frames /\ untouched [f] s s' /\
    (forall va, entry s' tabs va = entry s tabs va) /\ stored (4096 * n + o) bs (ubyte s frames) (ubyte s' frames).
Proof.
  intros Hs Hf Ho Hlen. destruct (put_bytes_ok bs (f + o) s) as (s' & E & Hfl & Hm). exists s'.
  assert (Hfp : f ∈ pages frames) by (apply elem_of_pages; eauto).
  assert (Hu : untouched [f] s s').
  { intros a Ha. rewrite Hm, decide_False; [done |]. specialize (Ha f ltac:(by left)). unfold in_page, PGSIZE in Ha. lia. }
  assert (Hok : page_ok kend f) by (by apply (sp_dom _ _ _ _ _ _ Hs n)).
  destruct (own_split _ _ _ _ (sp_own _ _ _ _ _ _ Hs)) as (O1 & O2 & O3 & O4 & O5).
  assert (Hoth : forall v a, v ∈ pgdir :: pages tabs ++ pages frames ++ l -> v <> f -> in_page v a -> k_mem s' a = k_mem s a).
  { intros v a Hv Hne. apply (untouched_page kend [f] s s' v a); [done | by apply Forall_singleton | | by rewrite list_elem_of_singleton].
    eapply page_ok_in; [exact (space_pages _ _ _ _ _ _ Hs) | done]. }
  assert (Hpt : forall v a, v ∈ pgdir :: pages tabs -> in_page v a -> k_mem s' a = k_mem s a).
  { intros v a Hv. apply Hoth; [rewrite app_comm_cons, elem_of_app; by left |]. intros ->. apply elem_of_cons in Hv as [-> | Hv]; [done |].
    by destruct (O4 f Hv). }
  split_and!; [done | | done | intros va; apply entry_frame; intros v a Hv; apply Hpt; by right |].
  - apply (space_frame kend s l); [done | | apply Hs | done]. eapply (free_inv_ext kend s); [apply Hs | done |].
    intros v a Hv. apply Hoth; [rewrite elem_of_cons, !elem_of_app; tauto |]. intros ->. by apply (O5 f).
  - intros a. unfold ubyte. destruct (frames !! (a / 4096)) as [h|] eqn:Hh.
    + destruct (decide (h = f)) as [-> | Hne].
      * assert (a / 4096 = n) as En by (by eapply (frame_inj kend)). pose proof (Z.div_mod a 4096 ltac:(lia)). rewrite Hm.
        repeat case_decide; [| lia | lia | done]. do 2 f_equal. lia.
      * rewrite decide_False; [apply (Hoth h); [| done |] |].
        -- rewrite elem_of_cons, !elem_of_app. right. right. left. apply elem_of_pages. eauto.
        -- unfold in_page, PGSIZE. pose proof (Z.mod_pos_bound a 4096). lia.
        -- intros Ha. apply Hne. assert (a / 4096 = n) as E' by (Z.to_euclidean_division_equations; lia). congruence.
    + rewrite decide_False; [done |]. intros Ha. assert (a / 4096 = n) as E' by (Z.to_euclidean_division_equations; lia). congruence.
Qed.
Lemma uva2ka_ok s l pgdir tabs frames n :
  space kend s l pgdir tabs frames -> 0 <= n < NUSER -> is_Some (tabs !! PDX (4096 * n)) ->
  uva2ka pgdir (4096 * n) s = Ok (match frames !! n with Some f => if Z.land (entry s tabs (4096 * n)) PTE_U =? 0 then 0 else f | None => 0 end) s.
Proof.
  intros Hs Hn [t Ht]. unfold uva2ka. erewrite bind_ok by (by eapply (walk_present kend), Ht; apply Hs). unfold rd. erewrite bind_ok by reflexivity.
  assert (E : ld32 (k_mem s) (t + 4 * PTX (4096 * n)) = entry s tabs (4096 * n)) by (unfold entry; by rewrite Ht). rewrite E.
  pose proof (sp_map _ _ _ _ _ _ Hs n Hn) as Hm. destruct (frames !! n) as [f|]; [| by rewrite Hm].
  destruct Hm as [-> ->]. simpl. by destruct (_ =? 0).
Qed.

(** The pages a copy of [len] bytes to [va] touches. *)
Definition touches (va len n : Z) : Prop := 0 < len /\ va / 4096 <= n /\ 4096 * n < va + len.

Definition copied_out (tabs frames : gmap Z Z) (va : Z) (bs : list Z) (s : kmem) (r : Z) (s' : kmem) : Prop :=
  (r = 0 /\ stored va bs (ubyte s frames) (ubyte s' frames) /\ forall n, touches va (Z.of_nat (length bs)) n -> writable s tabs frames n) \/
  (r = -1 /\ exists n, touches va (Z.of_nat (length bs)) n /\ ~ writable s tabs frames n).

Lemma copyout_loop_ok l pgdir tabs frames : forall fuel va bs s,
  let len := Z.of_nat (length bs) in
  space kend s l pgdir tabs frames -> 0 <= va -> va + len <= KERNBASE ->
  (forall n, touches va len n -> is_Some (tabs !! PDX (4096 * n))) ->
  (va mod 4096 + len + 4095) / 4096 < Z.of_nat fuel ->
  exists r s', copyout_loop fuel pgdir va bs s = Ok r s' /\ space kend s' l pgdir tabs frames /\ untouched (pages frames) s s' /\
    (forall x, entry s' tabs x = entry s tabs x) /\
    (forall a, ~ (va <= a < va + len) -> ubyte s' frames a = ubyte s frames a) /\ copied_out tabs frames va bs s r s'.
Proof.
  induction fuel as [|fuel IH]; intros va bs s len Hs Hva Hk Ht Hf; assert (Hl0 : 0 <= len) by (unfold len; lia); [Z.to_euclidean_division_equations; lia |].
  cbn [copyout_loop]. fold len. destruct (Z.eqb_spec len 0) as [El | El].
  { exists 0, s. split_and!; [done | done | apply untouched_refl | done | done |]. left. destruct bs; [| simpl in len; lia].
    split_and!; [done | apply stored_nil |]. unfold touches. simpl. lia. }
  assert (Hlen : 0 < len) by lia. set (n := va / 4096). set (o := va mod 4096). unfold KERNBASE in Hk.
  assert (Eva : va = 4096 * n + o /\ 0 <= o < 4096) by (unfold n, o; Z.to_euclidean_division_equations; lia). destruct Eva as [Eva Ho].
  assert (Ed : PGROUNDDOWN va = 4096 * n) by (rewrite PGROUNDDOWN_eq by lia; unfold PGSIZE; fold o; lia). rewrite Ed.
  assert (Hn : 0 <= n < NUSER) by (change NUSER with 524288; lia).
  assert (Hto : touches va len n) by (unfold touches; fold n; lia).
  erewrite bind_ok by (eapply uva2ka_ok; [exact Hs | done | by apply Ht]).
  assert (Hfail : ~ writable s tabs frames n ->
    exists r s', (mret (-1) : M kmem Z) s = Ok r s' /\ space kend s' l pgdir tabs frames /\ untouched (pages frames) s s' /\
    (forall x, entry s' tabs x = entry s tabs x) /\
    (forall a, ~ (va <= a < va + len) -> ubyte s' frames a = ubyte s frames a) /\ copied_out tabs frames va bs s r s').
  { intros Hw. exists (-1), s. split_and!; [done | done | apply untouched_refl | done | done |]. right. split; [done |]. by exists n. }
  destruct (frames !! n) as [f|] eqn:Hfr.
  2:{ apply Hfail. unfold writable. rewrite Hfr. by intros [[? [=]] _]. }
  destruct (Z.eqb_spec (Z.land (entry s tabs (4096 * n)) PTE_U) 0) as [HU | HU].
  { apply Hfail. by intros [_ ?]. }
  clear Hfail. assert (Hw : writable s tabs frames n) by (split; [by exists f | done]).
  assert (Hfo : page_ok kend f) by (by apply (sp_dom _ _ _ _ _ _ Hs n)). rewrite (proj2 (Z.eqb_neq f 0)) by (by eapply page_nonzero).
  replace (va -u 4096 * n) with o by (rewrite u32_small; lia).
  replace (PGSIZE -u o) with (4096 - o) by (unfold PGSIZE; rewrite u32_small; lia).
  set (m := if len <? 4096 - o then len else 4096 - o). assert (Hm : 0 < m <= len /\ o + m <= 4096 /\ (m < len -> o + m = 4096)).
  { unfold m. destruct (Z.ltb_spec len (4096 - o)); lia. }
  destruct Hm as (Hm1 & Hm2 & Hm3).
  assert (El1 : Z.of_nat (length (take (Z.to_nat m) bs)) = m) by (rewrite length_take; lia).
  destruct (poke_ok s l pgdir tabs frames n f o (take (Z.to_nat m) bs) Hs Hfr) as (s1 & E1 & Hs1 & Hu1 & He1 & Hst1); [lia | lia |].
  erewrite bind_ok by exact E1. rewrite <- Eva in Hst1.
  assert (Hu1' : untouched (pages frames) s s1).
  { eapply untouched_mono; [| exact Hu1]. intros w ->%list_elem_of_singleton. apply elem_of_pages. eauto. }
  assert (Htake : take (Z.to_nat m) bs ++ drop (Z.to_nat m) bs = bs) by apply take_drop.
  destruct (decide (m = len)) as [Em | Em].
  - (* the last page *)
    assert (Ed0 : drop (Z.to_nat m) bs = []) by (apply drop_ge; unfold len in *; lia). rewrite Ed0 in *. rewrite app_nil_r in Htake. rewrite Htake in Hst1.
    destruct fuel as [|fuel]; [Z.to_euclidean_division_equations; lia |]. cbn [copyout_loop length]. exists 0, s1.
    split_and!; [done | done | done | done | intros a Ha; rewrite Hst1, decide_False by done; done |].
    left. split_and!; [done | done |]. intros k (_ & Hk1 & Hk2). fold n len in Hk1, Hk2. assert (k = n) as -> by lia. done.
  - assert (Eo : o + m = 4096) by lia.
    assert (En : 4096 * n +u PGSIZE = va + m) by (unfold PGSIZE; rewrite u32_small; lia). rewrite En.
    assert (El2 : Z.of_nat (length (drop (Z.to_nat m) bs)) = len - m) by (rewrite length_drop; unfold len in *; lia).
    assert (Hrange : forall k, touches (va + m) (len - m) k -> touches va len k /\ k <> n).
    { unfold touches. fold n. intros k (_ & K1 & K2). replace ((va + m) / 4096) with (n + 1) in K1 by (Z.to_euclidean_division_equations; lia). lia. }
    destruct (IH (va + m) (drop (Z.to_nat m) bs) s1) as (r & s' & E & Hs' & Hu & He & Hout & Hr); rewrite ?El2; try done; try lia.
    { unfold KERNBASE. lia. }
    { intros k Hk'. apply Ht, Hrange, Hk'. }
    { replace ((va + m) mod 4096) with 0 by (Z.to_euclidean_division_equations; lia). Z.to_euclidean_division_equations; lia. }
    rewrite El2 in Hout. exists r, s'. split_and!; [done | done | by eapply untouched_trans | intros x; by rewrite He | |].
    + intros a Ha. rewrite Hout, Hst1 by lia. by rewrite decide_False by lia.
    + assert (Hww : forall k, writable s1 tabs frames k <-> writable s tabs frames k) by (intros k; unfold writable; by rewrite He1).
      destruct Hr as [(-> & Hst & Hwr) | (-> & k & Hk' & Hwr)]; rewrite El2 in *; [left | right]; (split; [done |]).
      * split.
        -- rewrite <- Htake. eapply stored_app; [exact Hst1 |]. by rewrite El1.
        -- intros k (_ & Hk1 & Hk2). fold n len in Hk1, Hk2. destruct (decide (k = n)) as [-> | Hne]; [done |]. apply Hww, Hwr. unfold touches.
           replace ((va + m) / 4096) with (n + 1) by (Z.to_euclidean_division_equations; lia). lia.
      * exists k. split; [by apply Hrange | by rewrite <- Hww].
Qed.


Lemma copyout_ok s l pgdir tabs frames va bs :
  let len := Z.of_nat (length bs) in
  space kend s l pgdir tabs frames -> 0 <= va -> va + len <= KERNBASE ->
  (forall n, touches va len n -> is_Some (tabs !! PDX (4096 * n))) ->
  exists r s', copyout pgdir va bs s = Ok r s' /\ space kend s' l pgdir tabs frames /\ untouched (pages frames) s s' /\
    (forall x, entry s' tabs x = entry s tabs x) /\
    (forall a, ~ (va <= a < va + len) -> ubyte s' frames a = ubyte s frames a) /\ copied_out tabs frames va bs s r s'.
Proof.
  intros len Hs Hva Hk Ht. apply (copyout_loop_ok l pgdir tabs frames); try done. fold len.
  assert (0 <= len) by (unfold len; lia). rewrite !Nat2Z.inj_succ, Z2Nat.id; unfold PGSIZE; Z.to_euclidean_division_equations; lia.
Qed.


(** ** Growing *)

Lemma pte_user f : Z.land (pte_of f (Z.lor PTE_W PTE_U)) PTE_U <> 0.
Proof.
  intros E. assert (H : Z.testbit (Z.land (pte_of f (Z.lor PTE_W PTE_U)) PTE_U) 2 = true).
  { rewrite Z.land_spec. unfold pte_of. rewrite Z.lor_spec. change (Z.testbit (Z.lor (Z.lor PTE_W PTE_U) PTE_P) 2) with true. by rewrite orb_true_r. }
  by rewrite E in H.
Qed.

(** [allocuvm] succeeds when there are pages enough for the memory and for every table. *)
Lemma allocuvm_loop_enough oldsz newsz pgdir : forall fuel n s l tabs frames,
  space kend s l pgdir tabs frames -> 0 <= n -> newsz <= KERNBASE ->
  (forall k, n <= k -> 4096 * k < newsz -> frames !! k = None) ->
  1 <= Z.of_nat fuel -> newsz - 4096 * n <= 4096 * (Z.of_nat fuel - 1) ->
  1025 + Z.max 0 (npages (newsz - 4096 * n)) <= Z.of_nat (length (pages tabs ++ l)) ->
  exists s', allocuvm_loop kend fuel pgdir (4096 * n) oldsz newsz s = Ok newsz s'.
Proof.
  induction fuel as [|fuel IH]; intros n s l tabs frames Hs Hn Hk Hfr Hf1 Hf2 Hen; [lia |].
  cbn [allocuvm_loop]. destruct (Z.ltb_spec (4096 * n) newsz) as [Hlt | Hge]; cbn [negb]; [| by exists s].
  assert (Hnu : 0 <= n < NUSER) by (change NUSER with 524288; unfold KERNBASE in Hk; lia).
  pose proof (tables_bound kend _ _ _ _ (sp_pt _ _ _ _ _ _ Hs)) as Hb. rewrite length_app in Hen.
  assert (Hpg : 1 <= npages (newsz - 4096 * n)) by (unfold npages; Z.to_euclidean_division_equations; lia).
  destruct l as [|m l]; [simpl in Hen; lia |].
  destruct (grow_step_ok kend Hkend s m l pgdir tabs frames n Hs Hnu) as (s1 & E1 & Hstep); [apply Hfr; lia |].
  destruct Hstep as (r & s3 & l3 & tabs3 & E3 & _ & Hp & _ & _ & Hr). erewrite bind_ok by exact E1.
  assert (Hmo : page_ok kend m).
  { eapply page_ok_in; [exact (space_pages _ _ _ _ _ _ Hs) |]. right. rewrite !elem_of_app. right. right. by left. }
  rewrite (proj2 (Z.eqb_neq m 0)) by (by eapply page_nonzero).
  unfold zero_page at 1. erewrite bind_ok by reflexivity. erewrite bind_ok by exact E3.
  apply Permutation_length in Hp. rewrite !length_app in Hp. cbn [length] in Hen.
  destruct Hr as [(-> & Hs3 & _) | (-> & -> & Hs3)]; cbn [Z.ltb Z.compare].
  - rewrite (u32_small (4096 * n + PGSIZE)) by (unfold PGSIZE, KERNBASE in *; lia).
    replace (4096 * n + PGSIZE) with (4096 * (n + 1)) by (unfold PGSIZE; lia).
    apply (IH (n + 1) s3 l3 tabs3 (<[n := m]> frames)); try done; try lia.
    + intros k Hk1 Hk2. rewrite lookup_insert_ne by lia. apply Hfr; lia.
    + rewrite length_app. unfold npages in *. Z.to_euclidean_division_equations; lia.
  - pose proof (tables_bound kend _ _ _ _ (sp_pt _ _ _ _ _ _ Hs3)). simpl in Hp. lia.
Qed.

(** An address space with user memory below [sz]. *)
Record image (s : kmem) (l : list Z) (pgdir : Z) (tabs frames : gmap Z Z) (sz : Z) : Prop := {
  im_space : space kend s l pgdir tabs frames;
  im_sz : 0 <= sz <= KERNBASE;
  im_dom : forall n, is_Some (frames !! n) <-> 0 <= n /\ 4096 * n < sz;
  im_user : forall n, is_Some (frames !! n) -> Z.land (entry s tabs (4096 * n)) PTE_U <> 0
}.

Lemma image_writable s l pgdir tabs frames sz n : image s l pgdir tabs frames sz -> 0 <= n -> 4096 * n < sz -> writable s tabs frames n.
Proof. intros [_ _ Hd Hu] H1 H2. assert (is_Some (frames !! n)) by (by apply Hd). split; [done | by apply Hu]. Qed.

(** Pages owned by the image or free. *)
Definition owned (l : list Z) (tabs frames : gmap Z Z) : list Z := pages tabs ++ pages frames ++ l.
Arguments owned : simpl never.

Lemma image_pages s l pgdir tabs frames sz : image s l pgdir tabs frames sz -> Z.of_nat (length (pages frames)) = npages sz.
Proof.
  intros [Hs Hsz Hd _]. unfold pages. rewrite length_fmap, length_map_to_list, <- size_dom.
  assert (E : dom frames = list_to_set (C := gset Z) (Z.of_nat <$> seq 0 (Z.to_nat (npages sz)))).
  { apply set_eq. intros n. rewrite elem_of_dom, Hd, elem_of_list_to_set, list_elem_of_fmap. split.
    - intros [H1 H2]. exists (Z.to_nat n). rewrite elem_of_seq. unfold npages. Z.to_euclidean_division_equations; lia.
    - intros (k & -> & Hk%elem_of_seq). unfold npages in Hk. Z.to_euclidean_division_equations; lia. }
  rewrite E, size_list_to_set by (apply NoDup_fmap_2; [apply _ | apply NoDup_seq]). rewrite length_fmap, length_seq.
  unfold npages. Z.to_euclidean_division_equations; lia.
Qed.


Lemma grow_image s l pgdir tabs frames old new :
  image s l pgdir tabs frames old -> 0 <= new ->
  exists r s' l' tabs' frames', allocuvm kend pgdir old new s = Ok r s' /\ untouched (pgdir :: owned l tabs frames) s s' /\
    owned l' tabs' frames' ≡ₚ owned l tabs frames /\ space kend s' l' pgdir tabs' frames' /\
    (forall va, KERNBASE <= va < 2 ^ 32 -> entry s' tabs' va = entry s tabs va) /\
    ((r = 0 /\ (KERNBASE <= new \/ Z.max old new = 0 \/ Z.of_nat (length (owned l tabs frames)) < 1025 + npages new)) \/
     (r = Z.max old new /\ r <> 0 /\ new < KERNBASE /\ image s' l' pgdir tabs' frames' (Z.max old new) /\
      forall a, ubyte s' frames' a = ubyte s frames a)).
Proof.
  intros Hi Hn. pose proof Hi as [Hs Hsz Hd Hu]. unfold allocuvm. destruct (Z.leb_spec KERNBASE new) as [Hk | Hk].
  { exists 0, s, l, tabs, frames. split_and!; [done | apply untouched_refl | done | done | done |]. left. split; [done | by left]. }
  destruct (Z.ltb_spec new old) as [Hlt | Hle].
  { exists old, s, l, tabs, frames. split_and!; [done | apply untouched_refl | done | done | done |].
    right. rewrite Z.max_l by lia. split_and!; [done | lia | done | done | done]. }
  rewrite Z.max_r by lia. destruct (PGROUNDUP_bounds old) as [Hup Hal]; [unfold PGSIZE, KERNBASE in *; lia |].
  assert (En : exists n, PGROUNDUP old = 4096 * n /\ n = npages old).
  { exists (PGROUNDUP old / 4096). unfold PGSIZE, npages in *. Z.to_euclidean_division_equations; lia. }
  destruct En as (n & En & Enp). set (fuel := S (S (Z.to_nat (new / PGSIZE)))).
  assert (Hfuel : 1 <= Z.of_nat fuel /\ new - 4096 * n <= 4096 * (Z.of_nat fuel - 1)).
  { unfold fuel, PGSIZE in *. rewrite !Nat2Z.inj_succ, Z2Nat.id; Z.to_euclidean_division_equations; lia. }
  assert (Hnone : forall k, n <= k -> frames !! k = None).
  { intros k Hk'. destruct (frames !! k) eqn:Ek; [| done]. destruct (proj1 (Hd k)) as [_ ?]; [by exists z |]. lia. }
  destruct (allocuvm_loop_ok kend Hkend old new pgdir fuel n s l tabs frames Hs) as (r & s' & l' & E & Hun & tabs' & frames' & Hs' & Hp & He & Hr);
    [lia | lia | lia | intros k Hk' _; by apply Hnone | lia | lia | lia |].
  rewrite En. exists r, s', l', tabs', frames'. split_and!; [done | done | done | done | |].
  { intros va Hva. destruct (PGROUNDUP_bounds new) as [Hb1 Hb2]; [unfold PGSIZE, KERNBASE in *; lia |]. apply He; [unfold KERNBASE in *; lia |].
    unfold PGSIZE, KERNBASE in *. Z.to_euclidean_division_equations; lia. }
  destruct Hr as [(-> & _) | (-> & Hm & He2 & Hfr & Hz)].
  - left. split; [done |]. right. destruct (decide (new = 0)) as [-> | Hn0]; [by left | right].
    destruct (decide (Z.of_nat (length (owned l tabs frames)) < 1025 + npages new)) as [? | Hge]; [done | exfalso].
    destruct (allocuvm_loop_enough old new pgdir fuel n s l tabs frames Hs) as (s2 & E2); [lia | lia | intros k Hk' _; by apply Hnone | lia | lia | | congruence].
    unfold owned in Hge. rewrite !length_app in Hge. rewrite length_app. pose proof (image_pages _ _ _ _ _ _ Hi) as Hip.
    assert (Esub : npages (new - 4096 * n) = npages new - n).
    { unfold npages. replace (new - 4096 * n + 4095) with (new + 4095 + - n * 4096) by lia. rewrite Z.div_add by lia. lia. }
    assert (npages old <= npages new) by (apply Z.div_le_mono; lia). rewrite Esub. lia.
  - destruct (decide (new = 0)) as [-> | Hn0]; [left; split; [done |]; right; by left | right]. split_and!; [done | done | done | |].
    + assert (Hold : forall k, k < n -> frames' !! k = frames !! k) by (intros k Hk'; destruct (Hfr k) as [? | ?]; [done | lia]).
      split; [done | lia | |].
      * intros k. destruct (decide (k < n)) as [Hkn | Hkn].
        -- rewrite Hold, Hd by done. unfold npages in Enp. split; [lia |]. intros [? ?]. Z.to_euclidean_division_equations; lia.
        -- split; [intros Hk'; destruct (Hfr k) as [Ef | Ef]; [rewrite Ef, Hnone in Hk' by lia; by destruct Hk' | lia] |].
           intros [? ?]. destruct (Hz k) as (f & Hf & _); [lia | done | by exists f].
      * intros k Hk'. destruct (decide (k < n)) as [Hkn | Hkn].
        -- rewrite Hold in Hk' by done. pose proof (proj1 (Hd k) Hk'). rewrite He2; [by apply Hu | unfold KERNBASE in *; lia |].
           Z.to_euclidean_division_equations; lia.
        -- destruct (Hfr k) as [Ef | [K1 K2]]; [rewrite Ef, Hnone in Hk' by lia; by destruct Hk' |].
           destruct (Hz k K1 K2) as (f & _ & -> & _). apply pte_user.
    + intros a. unfold ubyte. destruct (decide (a / 4096 < n)) as [Ha | Ha].
      * destruct (Hfr (a / 4096)) as [-> | ?]; [| lia]. destruct (frames !! (a / 4096)) as [f|] eqn:Ef; [| done].
        apply (Hm f); [apply elem_of_pages; eauto |]. unfold in_page, PGSIZE. pose proof (Z.mod_pos_bound a 4096). lia.
      * rewrite Hnone by lia. destruct (Hfr (a / 4096)) as [Ef | [K1 K2]]; [by rewrite Ef, Hnone by lia |].
        destruct (Hz _ K1 K2) as (f & -> & _ & Hz0). apply Hz0. pose proof (Z.mod_pos_bound a 4096). lia.
Qed.


(** ** One page of user memory *)

Lemma walk_user s l pgdir tabs frames n f :
  space kend s l pgdir tabs frames -> frames !! n = Some f ->
  exists t, tabs !! PDX (4096 * n) = Some t /\ walkpgdir pgdir (4096 * n) false s = Ok (t + 4 * PTX (4096 * n)) s /\
    t + 4 * PTX (4096 * n) <> 0 /\ rd (t + 4 * PTX (4096 * n)) s = Ok (entry s tabs (4096 * n)) s /\
    P2V (PTE_ADDR (entry s tabs (4096 * n))) = f.
Proof.
  intros Hs Hf. destruct (frame_table kend _ _ _ _ _ _ _ Hs Hf) as [t Ht]. exists t. destruct (sp_dom _ _ _ _ _ _ Hs _ _ Hf) as [Hn Hfo].
  pose proof (sp_map _ _ _ _ _ _ Hs n Hn) as Hm. rewrite Hf in Hm. destruct (pt_tab _ _ _ _ _ (sp_pt _ _ _ _ _ _ Hs) _ _ Ht) as (_ & Hto & _).
  pose proof (page_nonzero kend t Hto). destruct Hto as (Hto & _). pose proof (PTX_range (4096 * n)).
  split_and!; [done | eapply (walk_present kend), Ht; apply Hs | lia | unfold rd, gets, entry; by rewrite Ht | apply Hm].
Qed.

Lemma u32_land x : u32 x = Z.land x (Z.ones 32).
Proof. unfold u32. by rewrite Z.land_ones by lia. Qed.

(** The entry without its user bit. *)
Lemma clear_user e : let e' := u32 (Z.land e (u32 (Z.lnot PTE_U))) in
  present e' = present e /\ PTE_ADDR e' = PTE_ADDR e /\ Z.land e' PTE_U = 0.
Proof.
  intros e'. unfold e', present, PTE_ADDR. rewrite !u32_land, <- !Z.land_assoc. split_and!.
  - do 2 f_equal.
  - f_equal.
  - match goal with |- Z.land e ?m = 0 => change m with 0 end. apply Z.land_0_r.
Qed.

Lemma clearpteu_ok s l pgdir tabs frames n f :
  space kend s l pgdir tabs frames -> frames !! n = Some f ->
  exists s', clearpteu pgdir (4096 * n) s = Ok tt s' /\ space kend s' l pgdir tabs frames /\ untouched (pages tabs) s s' /\
    (forall va, 0 <= va < 2 ^ 32 -> va / 4096 <> n -> entry s' tabs va = entry s tabs va) /\
    Z.land (entry s' tabs (4096 * n)) PTE_U = 0 /\ forall a, ubyte s' frames a = ubyte s frames a.
Proof.
  intros Hs Hf. destruct (walk_user _ _ _ _ _ _ _ Hs Hf) as (t & Ht & Ew & Hnz & Er & Epa). unfold clearpteu. erewrite bind_ok by exact Ew.
  rewrite (proj2 (Z.eqb_neq _ 0) Hnz). erewrite bind_ok by exact Er. unfold wr, modify. eexists. split; [reflexivity |].
  set (e := entry s tabs (4096 * n)) in *. destruct (sp_dom _ _ _ _ _ _ Hs _ _ Hf) as [Hn _]. destruct (user_page n Hn) as [Hva Hdiv].
  destruct (set_entry kend s l pgdir tabs (4096 * n) t (Z.land e (u32 (Z.lnot PTE_U))) (sp_pt _ _ _ _ _ _ Hs) Hva Ht) as (Hp' & _ & He).
  set (s' := Kmem _ _ _) in *. destruct (clear_user e) as (C1 & C2 & C3).
  pose proof (pt_tab _ _ _ _ _ (sp_pt _ _ _ _ _ _ Hs) _ _ Ht) as (_ & Hto & _).
  assert (Hu : untouched [t] s s').
  { intros a Ha. specialize (Ha t ltac:(by left)). unfold s'. cbn [k_mem]. apply st32_other. pose proof (PTX_range (4096 * n)).
    unfold in_page, PGSIZE in Ha. lia. }
  assert (Hself : entry s' tabs (4096 * n) = u32 (Z.land e (u32 (Z.lnot PTE_U)))) by (rewrite He, decide_True by done; done).
  assert (Hoth : forall va, 0 <= va < 2 ^ 32 -> va / 4096 <> n -> entry s' tabs va = entry s tabs va).
  { intros va Hv Hne. rewrite He, decide_False; [done | congruence | done]. }
  split_and!; [| | done | by rewrite Hself |].
  - split; [done | | apply Hs | apply Hs]. intros k Hk. pose proof (sp_map _ _ _ _ _ _ Hs k Hk) as Hm.
    destruct (user_page k Hk) as [? Ek].
    destruct (decide (k = n)) as [-> | Hne]; [| by rewrite Hoth by congruence]. rewrite Hself, C1, C2. exact Hm.
  - eapply untouched_mono; [| exact Hu]. intros v ->%list_elem_of_singleton. apply elem_of_pages. eauto.
  - apply ubyte_frame. intros v a Hv Ha. apply (untouched_page kend [t] s s' v a); try done; [by apply Forall_singleton | |].
    + eapply page_ok_in; [exact (space_pages _ _ _ _ _ _ Hs) |]. rewrite elem_of_cons, !elem_of_app. tauto.
    + rewrite list_elem_of_singleton. intros ->. destruct (own_split _ _ _ _ (sp_own _ _ _ _ _ _ Hs)) as (_ & _ & _ & O4 & _).
      destruct (O4 t) as [? _]; [apply elem_of_pages; eauto | done].
Qed.


End user.
