(* ===== verification/Lock.v ===== *)
(** * spinlock.c and sleeplock.c: mutual exclusion

    A machine has per-CPU interrupt state ([ncli], [intena] and the IF bit of eflags) and spin
    locks shared by the CPUs.  [acquire] is split where another CPU can intervene: entering it
    ([pushcli] and the self-deadlock check) and each atomic [xchg].  Sleep locks are given by
    activations under their guarding spin lock.  The debugging fields (lock names, [pcs]) carry no
    state the kernel tests, apart from [getcallerpcs] itself, which is modelled on memory. *)
From S2P Require Import Prelude Mem.
#[local] Open Scope Z_scope.

Module Spin.

Record cpu := Cpu {
  ncli : Z;          (* depth of pushcli nesting *)
  intena : bool;     (* were interrupts enabled before pushcli? *)
  eflags_if : bool   (* the FL_IF bit *)
}.

Record spinlock := Lk {
  locked : Z;
  lcpu : option nat  (* the cpu holding the lock *)
}.

Record mach := Mach {
  cpus : nat -> cpu;
  locks : nat -> spinlock
}.

Definition initlock (l : nat) : M mach unit :=
  modify (fun s => Mach (cpus s) (fupd (locks s) l (Lk 0 None))).

Definition holding (c l : nat) (s : mach) : bool :=
  negb (locked (locks s l) =? 0) && bool_decide (lcpu (locks s l) = Some c).

Definition pushcli (c : nat) : M mach unit := modify (fun s =>
  let k := cpus s c in
  (* eflags = readeflags(); cli(); *)
  Mach (fupd (cpus s) c
    (Cpu (ncli k + 1) (if ncli k =? 0 then eflags_if k else intena k) false)) (locks s)).

Definition popcli (c : nat) : M mach unit :=
  k ← gets (fun s => cpus s c) ;
  if eflags_if k then panic "popcli - interruptible"
  else if ncli k - 1 <? 0 then panic "popcli"
  else modify (fun s => Mach (fupd (cpus s) c
         (Cpu (ncli k - 1) (intena k) ((ncli k - 1 =? 0) && intena k))) (locks s)).

(** [acquire] up to the spin loop. *)
Definition acquire_enter (c l : nat) : M mach unit :=
  pushcli c ;; h ← gets (holding c l) ; if (h : bool) then panic "acquire" else mret tt.

(** One [xchg(&lk->locked, 1)] of the spin loop; when it returns 0 the lock is taken and
    [lk->cpu] recorded. *)
Definition acquire_try (c l : nat) : M mach bool :=
  old ← gets (fun s => locked (locks s l)) ;
  modify (fun s => Mach (cpus s) (fupd (locks s) l (Lk 1 (lcpu (locks s l))))) ;;
  if old =? 0 then
    modify (fun s => Mach (cpus s) (fupd (locks s) l (Lk (locked (locks s l)) (Some c)))) ;;
    mret true
  else mret false.

Definition release (c l : nat) : M mach unit :=
  h ← gets (holding c l) ;
  if negb h then panic "release"
  else
    (* lk->cpu = 0; lk->locked = 0 *)
    modify (fun s => Mach (cpus s) (fupd (locks s) l (Lk (locked (locks s l)) None))) ;;
    modify (fun s => Mach (cpus s) (fupd (locks s) l (Lk 0 (lcpu (locks s l))))) ;;
    popcli c.

(** [getcallerpcs]: follows the saved-%ebp chain from [v - 2] words, ten frames at most. *)
Fixpoint callerpcs (n : nat) (m : mem) (ebp : Z) : list Z :=
  match n with
  | O => []
  | S n' => if (ebp =? 0) || (ebp <? 2147483648) || (ebp =? 4294967295) then replicate n 0
            else ld32 m (ebp + 4) :: callerpcs n' m (ld32 m ebp)
  end.
Definition getcallerpcs (m : mem) (v : Z) : list Z := callerpcs 10 m (v -u 8).

(** ** CPUs interleaved *)

(** The machine with, for each CPU, the lock it spins on and the locks it holds. *)
Record conf := Conf { m : mach; spin : nat -> option nat; held : nat -> list nat }.

Inductive step : conf -> conf -> Prop :=
| st_enter s sp h c l s' :
    sp c = None -> acquire_enter c l s = Ok tt s' ->
    step (Conf s sp h) (Conf s' (fupd sp c (Some l)) h)
| st_spin s sp h c l s' :
    sp c = Some l -> acquire_try c l s = Ok false s' -> step (Conf s sp h) (Conf s' sp h)
| st_got s sp h c l s' :
    sp c = Some l -> acquire_try c l s = Ok true s' ->
    step (Conf s sp h) (Conf s' (fupd sp c None) (fupd h c (l :: h c)))
| st_release s sp h c l h' s' :
    sp c = None -> h c ≡ₚ l :: h' -> release c l s = Ok tt s' ->
    step (Conf s sp h) (Conf s' sp (fupd h c h')).

(** Machine start-up: no lock taken, no [pushcli] outstanding. *)
Definition quiet (s : mach) : Prop :=
  (forall c, ncli (cpus s c) = 0) /\ (forall l, locks s l = Lk 0 None).

Record inv (x : conf) : Prop := {
  i_ncli : forall c, ncli (cpus (m x) c) =
    Z.of_nat (length (held x c)) + (match spin x c with Some _ => 1 | None => 0 end);
  i_off : forall c, 0 < ncli (cpus (m x) c) -> eflags_if (cpus (m x) c) = false;
  i_free : forall l, locked (locks (m x) l) = 0 -> forall c, l ∉ held x c;
  i_held : forall c l, l ∈ held x c -> locks (m x) l = Lk 1 (Some c);
  i_nodup : forall c, NoDup (held x c);
  i_owner : forall l, locked (locks (m x) l) = 0 \/
    exists c, l ∈ held x c /\ locks (m x) l = Lk 1 (Some c);
  i_cpu : forall l, locked (locks (m x) l) = 0 -> lcpu (locks (m x) l) = None
}.

Lemma inv_init s : quiet s -> inv (Conf s (fun _ => None) (fun _ => [])).
Proof.
  intros [Hc Hl]. split; simpl; intros.
  - by rewrite Hc.
  - rewrite Hc in *. lia.
  - apply not_elem_of_nil.
  - by apply not_elem_of_nil in H.
  - constructor.
  - left. by rewrite Hl.
  - by rewrite Hl.
Qed.

Lemma holding_spec x c l : inv x -> holding c l (m x) = true <-> l ∈ held x c.
Proof.
  intros Hi. unfold holding. split.
  - intros [Hl Hc]%andb_prop. apply bool_decide_eq_true in Hc. reflect_bool.
    destruct (i_owner x Hi l) as [? | (c' & Hin & He)]; [done |].
    rewrite He in Hc. simpl in Hc. by simplify_eq.
  - intros Hin. rewrite (i_held x Hi c l Hin). simpl. by rewrite bool_decide_true.
Qed.

(** What each routine does to the machine when it returns. *)
Lemma acquire_enter_ok c l s s' :
  acquire_enter c l s = Ok tt s' ->
  s' = Mach (fupd (cpus s) c (Cpu (ncli (cpus s c) + 1)
         (if ncli (cpus s c) =? 0 then eflags_if (cpus s c) else intena (cpus s c)) false)) (locks s)
  /\ holding c l s = false.
Proof.
  unfold acquire_enter, pushcli. run_m.
  unfold holding. simpl. destruct (_ && _) eqn:Hh; [done |]. by intros [= <-].
Qed.

Lemma acquire_try_ok c l s b s' :
  acquire_try c l s = Ok b s' ->
  cpus s' = cpus s /\ b = (locked (locks s l) =? 0) /\
  locks s' l = Lk 1 (if b then Some c else lcpu (locks s l)) /\
  (forall k, k <> l -> locks s' k = locks s k).
Proof.
  unfold acquire_try. run_m. destruct (locked (locks s l) =? 0); intros [= <- <-]; simpl;
    split_and!; rewrite ?fupd_same; try done; intros; rewrite !fupd_other by done; done.
Qed.

Lemma release_ok c l s s' :
  release c l s = Ok tt s' ->
  eflags_if (cpus s c) = false /\ 1 <= ncli (cpus s c) /\
  cpus s' = fupd (cpus s) c (Cpu (ncli (cpus s c) - 1) (intena (cpus s c))
    ((ncli (cpus s c) - 1 =? 0) && intena (cpus s c))) /\
  locks s' l = Lk 0 None /\ (forall k, k <> l -> locks s' k = locks s k).
Proof.
  unfold release, popcli. run_m. destruct (holding c l s); [|done]. simpl.
  destruct (eflags_if (cpus s c)); [done |].
  destruct (Z.ltb_spec (ncli (cpus s c) - 1) 0); [done |].
  intros [= <-]. simpl. rewrite !fupd_same. simpl.
  split_and!; try done; [lia |]. intros. by rewrite !fupd_other.
Qed.

Lemma inv_enter s sp h c l s' :
  inv (Conf s sp h) -> sp c = None -> acquire_enter c l s = Ok tt s' ->
  inv (Conf s' (fupd sp c (Some l)) h).
Proof.
  intros Hi Hsp H. apply acquire_enter_ok in H as [-> _].
  destruct Hi as [H1 H2 H3 H4 H5 H6 H7]. split; simpl in *; try done.
  - intros c'. destruct (decide (c' = c)) as [-> | ?].
    + rewrite !fupd_same. simpl. rewrite H1, Hsp. lia.
    + rewrite !fupd_other by done. apply H1.
  - intros c'. destruct (decide (c' = c)) as [-> | ?].
    + by rewrite fupd_same.
    + rewrite fupd_other by done. apply H2.
Qed.

Lemma inv_spin s sp h c l s' :
  inv (Conf s sp h) -> acquire_try c l s = Ok false s' -> inv (Conf s' sp h).
Proof.
  intros Hi H. apply acquire_try_ok in H as (Hcpu & Hb & Hl & Ho).
  symmetry in Hb. apply Z.eqb_neq in Hb.
  assert (He : forall k, locks s' k = locks s k).
  { intros k. destruct (decide (k = l)) as [-> | ?]; [|by apply Ho]. rewrite Hl.
    destruct (i_owner _ Hi l) as [? | (c' & _ & He)]; simpl in *; [done |]. by rewrite He. }
  destruct Hi as [H1 H2 H3 H4 H5 H6 H7]. split; simpl in *; rewrite ?Hcpu; try done.
  - intros k. rewrite He. apply H3.
  - intros k. setoid_rewrite He. apply H4.
  - intros k. setoid_rewrite He. apply H6.
  - intros k. rewrite He. apply H7.
Qed.

Lemma inv_got s sp h c l s' :
  inv (Conf s sp h) -> sp c = Some l -> acquire_try c l s = Ok true s' ->
  inv (Conf s' (fupd sp c None) (fupd h c (l :: h c))).
Proof.
  intros Hi Hsp H. apply acquire_try_ok in H as (Hcpu & Hb & Hl & Ho).
  symmetry in Hb. apply Z.eqb_eq in Hb.
  destruct Hi as [H1 H2 H3 H4 H5 H6 H7]. simpl in *.
  assert (Hin : forall c' k, k ∈ fupd h c (l :: h c) c' <-> (c' = c /\ k = l) \/ k ∈ h c').
  { intros c' k. destruct (decide (c' = c)) as [-> | ?].
    - rewrite fupd_same, elem_of_cons. naive_solver.
    - rewrite fupd_other by done. naive_solver. }
  split; simpl; rewrite ?Hcpu.
  - intros c'. destruct (decide (c' = c)) as [-> | ?].
    + rewrite !fupd_same, H1, Hsp. simpl. lia.
    + rewrite !fupd_other by done. apply H1.
  - done.
  - intros k. destruct (decide (k = l)) as [-> | ?]; [by rewrite Hl |].
    rewrite Ho by done. intros Hz c' [[_ ?] | ?]%Hin; [done |]. by apply (H3 k Hz c').
  - intros c' k [[-> ->] | Hk]%Hin; [done |].
    rewrite Ho; [by apply H4 |]. intros ->. by apply (H3 l Hb c').
  - intros c'. destruct (decide (c' = c)) as [-> | ?].
    + rewrite fupd_same. apply list.NoDup_cons. split; [by apply (H3 l Hb) | apply H5].
    + rewrite fupd_other by done. apply H5.
  - intros k. destruct (decide (k = l)) as [-> | ?].
    + right. exists c. split; [apply Hin; auto | done].
    + rewrite Ho by done. destruct (H6 k) as [? | (c' & ? & ?)]; [by left | right].
      exists c'. split; [apply Hin; auto | done].
  - intros k. destruct (decide (k = l)) as [-> | ?]; [by rewrite Hl |]. rewrite Ho by done. apply H7.
Qed.

Lemma inv_release s sp h c l h' s' :
  inv (Conf s sp h) -> sp c = None -> h c ≡ₚ l :: h' -> release c l s = Ok tt s' ->
  inv (Conf s' sp (fupd h c h')).
Proof.
  intros Hi Hsp Hp H. apply release_ok in H as (Hif & Hge & Hcpu & Hl & Ho).
  destruct Hi as [H1 H2 H3 H4 H5 H6 H7]. simpl in *.
  pose proof (H5 c) as Hnd. rewrite Hp in Hnd. apply list.NoDup_cons in Hnd as [Hlh Hnd].
  assert (Hlc : l ∈ h c) by (rewrite Hp; by left).
  assert (Hin : forall c' k, k ∈ fupd h c h' c' <-> k <> l /\ k ∈ h c').
  { intros c' k. destruct (decide (c' = c)) as [-> | Hne].
    - rewrite fupd_same, Hp, elem_of_cons. split; [|naive_solver].
      intros Hk. split; [intros ->; done | by right].
    - rewrite fupd_other by done. split; [|naive_solver]. intros Hk. split; [|done]. intros ->.
      pose proof (H4 _ _ Hk) as E1. pose proof (H4 _ _ Hlc) as E2. congruence. }
  split; simpl; rewrite ?Hcpu.
  - intros c'. destruct (decide (c' = c)) as [-> | ?].
    + rewrite !fupd_same. simpl. rewrite H1, Hsp, Hp. simpl. lia.
    + rewrite !fupd_other by done. apply H1.
  - intros c'. destruct (decide (c' = c)) as [-> | ?].
    + rewrite fupd_same. simpl. intros. rewrite (proj2 (Z.eqb_neq _ 0)) by lia. done.
    + rewrite fupd_other by done. apply H2.
  - intros k. destruct (decide (k = l)) as [-> | ?].
    + intros _ c' [? _]%Hin. done.
    + rewrite Ho by done. intros Hz c' [_ ?]%Hin. by apply (H3 k Hz c').
  - intros c' k [Hk Hk']%Hin. rewrite Ho by done. by apply H4.
  - intros c'. destruct (decide (c' = c)) as [-> | ?].
    + by rewrite fupd_same.
    + rewrite fupd_other by done. apply H5.
  - intros k. destruct (decide (k = l)) as [-> | ?]; [left; by rewrite Hl |].
    rewrite Ho by done. destruct (H6 k) as [? | (c' & ? & ?)]; [by left | right].
    exists c'. split; [by apply Hin | done].
  - intros k. destruct (decide (k = l)) as [-> | ?]; [by rewrite Hl |]. rewrite Ho by done. apply H7.
Qed.

Lemma inv_step x y : inv x -> step x y -> inv y.
Proof.
  intros Hi Hs. destruct Hs.
  - by eapply inv_enter.
  - by eapply inv_spin.
  - by eapply inv_got.
  - by eapply inv_release.
Qed.

(** The holder of a lock can always release it. *)
Lemma release_succeeds x c l : inv x -> l ∈ held x c -> exists s', release c l (m x) = Ok tt s'.
Proof.
  intros Hi Hl. unfold release, popcli. run_m.
  rewrite (proj2 (holding_spec x c l Hi) Hl). simpl.
  assert (0 < ncli (cpus (m x) c)) as Hn.
  { rewrite (i_ncli x Hi). destruct (held x c); [by apply not_elem_of_nil in Hl |].
    destruct (spin x c); simpl; lia. }
  rewrite (i_off x Hi c Hn). rewrite (proj2 (Z.ltb_ge _ 0)) by lia. eauto.
Qed.

(** [n] nested [pushcli]s undone by [n] [popcli]s. *)
Definition nested (c n : nat) (s : mach) : outcome mach unit :=
  (Nat.iter n (fun k => pushcli c ;; k ;; popcli c) (mret tt)) s.

Lemma pushcli_popcli c (k : M mach unit) s k' :
  (0 < ncli (cpus s c) -> eflags_if (cpus s c) = false) -> 0 <= ncli (cpus s c) ->
  k' = Cpu (ncli (cpus s c) + 1)
    (if ncli (cpus s c) =? 0 then eflags_if (cpus s c) else intena (cpus s c)) false ->
  (forall s1, cpus s1 c = k' -> exists s2, k s1 = Ok tt s2 /\ cpus s2 c = k') ->
  exists s', (pushcli c ;; k ;; popcli c) s = Ok tt s' /\
    ncli (cpus s' c) = ncli (cpus s c) /\ eflags_if (cpus s' c) = eflags_if (cpus s c) /\
    (0 < ncli (cpus s c) -> cpus s' c = cpus s c).
Proof.
  intros Hoff Hge -> Hk. unfold pushcli. run_m.
  match goal with |- context [k ?x] => destruct (Hk x) as (s2 & Hs2 & Hc2) end.
  { simpl. by rewrite fupd_same. }
  rewrite Hs2. unfold popcli. run_m. rewrite Hc2. simpl.
  rewrite (proj2 (Z.ltb_ge _ 0)) by lia. eexists. split; [done |]. simpl. rewrite fupd_same. simpl.
  replace (ncli (cpus s c) + 1 - 1) with (ncli (cpus s c)) by lia.
  destruct (Z.eqb_spec (ncli (cpus s c)) 0) as [Hz | Hnz]; simpl; split_and!; try done; try lia.
  - rewrite Hoff by lia. done.
  - intros. rewrite <- (Hoff ltac:(lia)). by destruct (cpus s c).
Qed.

Lemma nested_ok c n : forall s,
  (0 < ncli (cpus s c) -> eflags_if (cpus s c) = false) -> 0 <= ncli (cpus s c) ->
  exists s', nested c n s = Ok tt s' /\
    ncli (cpus s' c) = ncli (cpus s c) /\ eflags_if (cpus s' c) = eflags_if (cpus s c) /\
    (0 < ncli (cpus s c) -> cpus s' c = cpus s c).
Proof.
  unfold nested. induction n as [|n IH]; intros s Hoff Hge; [by exists s |].
  cbn [Nat.iter]. eapply pushcli_popcli; [done | done | done |].
  intros s1 Hs1. destruct (IH s1) as (s2 & ? & _ & _ & He).
  - by rewrite Hs1.
  - rewrite Hs1. simpl. lia.
  - exists s2. split; [done |]. rewrite He; [done |]. rewrite Hs1. simpl. lia.
Qed.

(** ** Properties *)

(** C13: spin locks exclude.  Whatever the CPUs do, interleaved at every atomic exchange: two CPUs
    never hold the same lock, a CPU that holds a lock has interrupts off, [holding] tells exactly
    the holder, and the holder's [release] does not panic. *)
Theorem spinlock_mutual_exclusion (s : mach) (x : conf) :
  quiet s -> reach step (Conf s (fun _ => None) (fun _ => [])) x ->
  (forall l c c', l ∈ held x c -> l ∈ held x c' -> c = c') /\
  (forall c, held x c <> [] -> eflags_if (cpus (m x) c) = false) /\
  (forall c l, holding c l (m x) = true <-> l ∈ held x c) /\
  (forall c l, l ∈ held x c -> exists s', release c l (m x) = Ok tt s').
Proof.
  intros Hq Hr. assert (Hi : inv x).
  { eapply reach_invariant; [by apply inv_init | apply inv_step | exact Hr]. }
  split_and!.
  - intros l c c' H1 H2. apply (i_held x Hi) in H1, H2. congruence.
  - intros c Hh. apply (i_off x Hi). rewrite (i_ncli x Hi).
    destruct (held x c); [done |]. destruct (spin x c); simpl; lia.
  - intros. by apply holding_spec.
  - intros. by eapply release_succeeds.
Qed.

Definition quiet_mach : mach := Mach (fun _ => Cpu 0 false true) (fun _ => Lk 0 None).

Lemma spinlock_mutual_exclusion_witness :
  exists x, holding 0 7 (m x) = true /\ eflags_if (cpus (m x) 0) = false.
Proof.
  destruct (acquire_enter 0 7 quiet_mach) as [[] s1 | |] eqn:H1; [| by vm_compute in H1 ..].
  destruct (acquire_try 0 7 s1) as [b s2 | |] eqn:H2;
    [| vm_compute in H1; injection H1 as <-; by vm_compute in H2 ..].
  assert (b = true) as -> by (vm_compute in H1; injection H1 as <-; by vm_compute in H2; injection H2).
  set (x := Conf s2 (fupd (fupd (fun _ => None) 0%nat (Some 7%nat)) 0%nat None)
              (fupd (fun _ => []) 0%nat [7%nat])).
  destruct (spinlock_mutual_exclusion quiet_mach x) as (_ & Hoff & Hh & _).
  - done.
  - eapply reach_step; [eapply reach_step; [apply reach_refl |] |].
    + by eapply (st_enter quiet_mach _ _ 0 7).
    + apply (st_got s1 _ (fun _ => []) 0 7 s2); [by rewrite fupd_same | done].
  - exists x. split; [apply Hh | apply Hoff]; unfold x; simpl; rewrite fupd_same; [by left | done].
Defined.

(** Pushcli/popcli are matched: after any depth of nesting of [pushcli] undone by as many
    [popcli], the nesting count and the interrupt flag are what they were; interrupts that were off
    stay off, and none of the calls panics. *)
Theorem pushcli_popcli_nest (c n : nat) (s : mach) :
  (0 < ncli (cpus s c) -> eflags_if (cpus s c) = false) -> 0 <= ncli (cpus s c) ->
  exists s', nested c n s = Ok tt s' /\
    ncli (cpus s' c) = ncli (cpus s c) /\ eflags_if (cpus s' c) = eflags_if (cpus s c).
Proof. intros H1 H2. destruct (nested_ok c n s H1 H2) as (s' & ? & ? & ? & _). eauto. Qed.

Lemma pushcli_popcli_nest_witness :
  exists s', nested 0 5 quiet_mach = Ok tt s' /\ eflags_if (cpus s' 0%nat) = true.
Proof.
  destruct (pushcli_popcli_nest 0 5 quiet_mach) as (s' & H & _ & He); [done | done |].
  exists s'. split; [exact H | exact He].
Defined.

End Spin.

Module Sleep.

Record sleeplock := SL {
  slocked : bool;
  spid : Z          (* process holding lock *)
}.

Definition initsleeplock : sleeplock := SL false 0.

(** One pass of [acquiresleep] under [lk->lk], by the process with pid [p]: it takes the lock, or
    sleeps on it and will test again. *)
Definition acquiresleep (ch p : Z) : M sleeplock unit :=
  l ← gets slocked ;
  if (l : bool) then sleep_on (ChLock ch) else modify (fun _ => SL true p).

(** [releasesleep], which then wakes the lock's channel. *)
Definition releasesleep (ch : Z) : M sleeplock (list chan) :=
  modify (fun _ => SL false 0) ;; mret [ChLock ch].

Definition holdingsleep (lk : sleeplock) : bool := slocked lk.

(** ** Processes contending for one sleep lock *)

Inductive pstate := Idle | Wants | Asleep | Holds.
#[export] Instance pstate_eq_dec : EqDecision pstate.
Proof. solve_decision. Defined.

Definition wake1 (p : pstate) : pstate := match p with Asleep => Wants | _ => p end.

Record conf := Conf { lk : sleeplock; st : nat -> pstate }.

Inductive step (ch : Z) : conf -> conf -> Prop :=
| st_call l f i : f i = Idle -> step ch (Conf l f) (Conf l (fupd f i Wants))
| st_take l f i l' :
    f i = Wants -> acquiresleep ch (Z.of_nat i) l = Ok tt l' ->
    step ch (Conf l f) (Conf l' (fupd f i Holds))
| st_sleep l f i c l' :
    f i = Wants -> acquiresleep ch (Z.of_nat i) l = Slept c l' ->
    step ch (Conf l f) (Conf l' (fupd f i Asleep))
| st_release l f i ws l' :
    f i = Holds -> releasesleep ch l = Ok ws l' ->
    step ch (Conf l f) (Conf l'
      (fupd (if decide (ChLock ch ∈ ws) then fun j => wake1 (f j) else f) i Idle)).

Definition inv (x : conf) : Prop :=
  (forall i, st x i = Holds -> lk x = SL true (Z.of_nat i)) /\
  (forall i, st x i = Asleep -> slocked (lk x) = true) /\
  (slocked (lk x) = true -> exists i, st x i = Holds).

Lemma sleep_inv_step ch x y : inv x -> step ch x y -> inv y.
Proof.
  intros (Hh & Ha & Hl) Hs. destruct Hs as [l f i Hi | l f i l' Hi Hr | l f i c l' Hi Hr
    | l f i ws l' Hi Hr]; unfold inv in *; simpl in *.
  - split_and!.
    + intros j [[? ?] | [? ?]]%fupd_cases; [done | by apply Hh].
    + intros j [[? ?] | [? ?]]%fupd_cases; [done | by apply (Ha j)].
    + intros [j Hj]%Hl. exists j. rewrite fupd_other; [done |]. intros ->. congruence.
  - unfold acquiresleep in Hr. run_m. destruct (slocked l) eqn:E; [done |]. injection Hr as <-.
    split_and!; simpl.
    + intros j [[-> _] | [? Hj]]%fupd_cases; [done |]. apply Hh in Hj. by rewrite Hj in E.
    + done.
    + intros _. exists i. by rewrite fupd_same.
  - unfold acquiresleep in Hr. run_m. destruct (slocked l) eqn:E; [|done]. injection Hr as _ <-.
    split_and!.
    + intros j [[? ?] | [? ?]]%fupd_cases; [done | by apply Hh].
    + done.
    + intros _. destruct (Hl eq_refl) as [j Hj]. exists j. rewrite fupd_other; [done |].
      intros ->. congruence.
  - unfold releasesleep in Hr. run_m. injection Hr as <- <-.
    rewrite decide_True by set_solver. split_and!; simpl.
    + intros j [[? ?] | [Hne Hj]]%fupd_cases; [done |].
      assert (f j = Holds) as Hj' by (by destruct (f j)).
      apply Hh in Hj'. apply Hh in Hi. rewrite Hi in Hj'. injection Hj' as ?. lia.
    + intros j [[? ?] | [Hne Hj]]%fupd_cases; [done |]. by destruct (f j).
    + done.
Qed.

(** C32: sleep locks exclude and never strand a sleeper: at most one process holds the lock at a
    time, and it is the recorded pid; and whenever some process sleeps on the lock, another one
    holds it (so its [releasesleep] will wake the sleeper). *)
Theorem sleeplock_mutual_exclusion (ch : Z) (x : conf) :
  reach (step ch) (Conf initsleeplock (fun _ => Idle)) x ->
  (forall i j, st x i = Holds -> st x j = Holds -> i = j) /\
  (forall i, st x i = Asleep -> exists j, j <> i /\ st x j = Holds /\ spid (lk x) = Z.of_nat j).
Proof.
  intros Hr. assert (inv x) as (Hh & Ha & Hl).
  { eapply reach_invariant; [| apply sleep_inv_step | exact Hr]. by split_and!. }
  split.
  - intros i j Hi%Hh Hj%Hh. rewrite Hi in Hj. injection Hj. lia.
  - intros i Hi. destruct (Hl (Ha i Hi)) as [j Hj]. exists j. split_and!; [|done|by rewrite (Hh j Hj)].
    intros ->. congruence.
Qed.

Lemma sleeplock_mutual_exclusion_witness :
  exists x, st x 1%nat = Asleep /\ exists j, j <> 1%nat /\ st x j = Holds.
Proof.
  set (f0 := fun _ : nat => Idle).
  set (f := fupd (fupd (fupd (fupd f0 0%nat Wants) 0%nat Holds) 1%nat Wants) 1%nat Asleep).
  destruct (sleeplock_mutual_exclusion 5 (Conf (SL true 0) f)) as [_ H].
  - eapply reach_step; [eapply reach_step; [eapply reach_step; [eapply reach_step;
      [apply reach_refl |] |] |] |].
    + by apply (st_call 5 initsleeplock f0 0).
    + by apply (st_take 5 initsleeplock _ 0 (SL true 0)).
    + by apply (st_call 5 _ _ 1).
    + by apply (st_sleep 5 _ _ 1 (ChLock 5)).
  - exists (Conf (SL true 0) f). split; [done |].
    destruct (H 1%nat eq_refl) as (j & ? & ? & _). by exists j.
Defined.

End Sleep.
