(* ===== verification/Pipe.v ===== *)
(** * pipe.c: a bounded byte queue between processes

    A pipe is a 512-byte ring indexed by two free-running 32-bit counters.  [pipewrite] and
    [piperead] are given as activations: one run of the code from the point where it holds
    [p->lock] until it either returns or goes to sleep, together with the channels it wakes on the
    way.  A sleeper that is woken re-tests its condition, so it is resumed by another activation.
    The lock makes an activation atomic; [step] interleaves the activations of any number of
    readers and writers. *)
From S2P Require Import Prelude.
#[local] Open Scope Z_scope.

Definition PIPESIZE : Z := 512.

Record pipe := Pipe {
  data : list Z;
  nread : Z;        (* number of bytes read *)
  nwrite : Z;       (* number of bytes written *)
  readopen : bool;  (* read fd is still open *)
  writeopen : bool  (* write fd is still open *)
}.

(** The fields [pipealloc] initialises; the data bytes are whatever the page held. *)
Definition pipe_init (page : list Z) : pipe := Pipe page 0 0 true true.

(** How an activation ends: it returns a value, or sleeps on a channel with work left to do. *)
Inductive ending (A : Type) :=
| Ret (v : Z)
| Sleep (c : chan) (rest : A).
Arguments Ret {A} v.
Arguments Sleep {A} c rest.

Section code.
Variable self : Z.   (* the address of the pipe, which names its two channels *)

(** [pipeclose]: the pipe, the channels woken, and whether its page is freed. *)
Definition pipeclose (p : pipe) (writable : bool) : pipe * list chan * bool :=
  let '(p', w) :=
    if writable then (Pipe (data p) (nread p) (nwrite p) (readopen p) false, [ChPipeRead self])
    else (Pipe (data p) (nread p) (nwrite p) false (writeopen p), [ChPipeWrite self]) in
  (p', w, negb (readopen p') && negb (writeopen p')).

Definition full (p : pipe) : bool := nwrite p =? nread p +u PIPESIZE.
Definition empty (p : pipe) : bool := nread p =? nwrite p.

(** [p->data[p->nwrite++ % PIPESIZE] = b] *)
Definition put (p : pipe) (b : Z) : pipe :=
  Pipe (<[Z.to_nat (nwrite p mod PIPESIZE) := b]> (data p)) (nread p) (nwrite p +u 1)
    (readopen p) (writeopen p).

(** [p->data[p->nread++ % PIPESIZE]] *)
Definition get (p : pipe) : Z * pipe :=
  (nth (Z.to_nat (nread p mod PIPESIZE)) (data p) 0,
   Pipe (data p) (nread p +u 1) (nwrite p) (readopen p) (writeopen p)).

(** [pipewrite] with the bytes of [addr] still to be written and [n] the full count: the pipe, the
    bytes that entered it, the channels woken in order, and the ending. *)
Fixpoint pipewrite (killed : bool) (p : pipe) (addr : list Z) (n : Z) :
    pipe * list Z * list chan * ending (list Z) :=
  match addr with
  | [] => (p, [], [ChPipeRead self], Ret n)
  | b :: rest =>
      if full p then
        if negb (readopen p) || killed then (p, [], [], Ret (-1))
        else (p, [], [ChPipeRead self], Sleep (ChPipeWrite self) addr)
      else
        let '(p', done, w, e) := pipewrite killed (put p b) rest n in (p', b :: done, w, e)
  end.

(** The copy loop of [piperead]: at most [n] bytes, until the ring is empty. *)
Fixpoint piperead_copy (p : pipe) (n : nat) : pipe * list Z :=
  match n with
  | O => (p, [])
  | S n' => if empty p then (p, [])
            else let '(b, p') := get p in
                 let '(p'', l) := piperead_copy p' n' in (p'', b :: l)
  end.

(** [piperead] of up to [n] bytes: the pipe, the bytes stored at [addr], the channels woken and the
    ending. *)
Definition piperead (killed : bool) (p : pipe) (n : Z) : pipe * list Z * list chan * ending unit :=
  if empty p && writeopen p then
    if killed then (p, [], [], Ret (-1))
    else (p, [], [], Sleep (ChPipeRead self) tt)
  else
    let '(p', l) := piperead_copy p (Z.to_nat n) in
    (p', l, [ChPipeWrite self], Ret (Z.of_nat (length l))).

(** ** Interleaving *)

Inductive task :=
| Writing (rest : list Z) (n : Z)
| Reading (n : Z)
| Finished (v : Z).

Record sys := Sys {
  s_pipe : pipe;
  s_tasks : list (task * option chan);  (* with the channel it sleeps on, if it sleeps *)
  s_sent : list Z;                      (* every byte that entered the ring, in order *)
  s_rcvd : list Z                       (* every byte handed to a reader, in order *)
}.

(** [wakeup(c)]: every task sleeping on [c] becomes runnable. *)
Definition wake1 (c : chan) (t : task * option chan) : task * option chan :=
  match t.2 with
  | Some d => if decide (c = d) then (t.1, None) else t
  | None => t
  end.
Definition wake (ws : list chan) (ts : list (task * option chan)) : list (task * option chan) :=
  foldl (fun ts c => map (wake1 c) ts) ts ws.

(** A call in progress holds a reference to its end of the pipe: [fileclose] reaches [pipeclose]
    only when no such call is left, and a call can only start on an open end. *)
Definition uses_end (writable : bool) (t : task) : bool :=
  match t with Writing _ _ => writable | Reading _ => negb writable | Finished _ => false end.
Definition end_open (p : pipe) (t : task) : bool :=
  match t with Writing _ _ => writeopen p | Reading _ => readopen p | Finished _ => false end.

(** One activation, one close or one new call; [kills] says whether killed callers occur. *)
Inductive step (kills : bool) : sys -> sys -> Prop :=
| step_write killed p ts sent rcvd k rest n p' done ws e :
    ts !! k = Some (Writing rest n, None) -> (killed = true -> kills = true) ->
    pipewrite killed p rest n = (p', done, ws, e) ->
    step kills (Sys p ts sent rcvd)
      (Sys p' (<[k := match e with Ret v => (Finished v, None)
                            | Sleep c r => (Writing r n, Some c) end]> (wake ws ts))
         (sent ++ done) rcvd)
| step_read killed p ts sent rcvd k n p' l ws e :
    ts !! k = Some (Reading n, None) -> (killed = true -> kills = true) ->
    piperead killed p n = (p', l, ws, e) ->
    step kills (Sys p ts sent rcvd)
      (Sys p' (<[k := match e with Ret v => (Finished v, None)
                            | Sleep c _ => (Reading n, Some c) end]> (wake ws ts))
         sent (rcvd ++ l))
| step_close p ts sent rcvd writable p' ws freed :
    Forall (fun t => uses_end writable t.1 = false) ts ->
    pipeclose p writable = (p', ws, freed) ->
    step kills (Sys p ts sent rcvd) (Sys p' (wake ws ts) sent rcvd)
| step_call p ts sent rcvd t :
    end_open p t = true ->
    step kills (Sys p ts sent rcvd) (Sys p (ts ++ [(t, None)]) sent rcvd).

End code.

Arguments wake : simpl never.

(** ** The queue a pipe holds *)

(** The bytes between the two counters, oldest first. *)
Definition count (p : pipe) : Z := nwrite p -u nread p.
Definition contents (p : pipe) : list Z :=
  map (fun i => nth (Z.to_nat ((nread p + i) mod PIPESIZE)) (data p) 0) (seqZ 0 (count p)).

Record pipe_wf (p : pipe) : Prop := {
  wf_data : length (data p) = Z.to_nat PIPESIZE;
  wf_nread : 0 <= nread p < 2 ^ 32;
  wf_nwrite : 0 <= nwrite p < 2 ^ 32;
  wf_count : count p <= PIPESIZE
}.

Lemma count_nonneg p : 0 <= count p.
Proof. apply u32_range. Qed.

Lemma length_contents p : Z.of_nat (length (contents p)) = count p.
Proof. unfold contents. rewrite length_map, length_seqZ. apply Z2Nat.id, count_nonneg. Qed.

Lemma full_iff p : pipe_wf p -> full p = true <-> count p = PIPESIZE.
Proof.
  intros [_ Hr Hw Hc]. unfold full, count, PIPESIZE in *. rewrite Z.eqb_eq.
  split; intros; word.
Qed.

Lemma empty_iff p : pipe_wf p -> empty p = true <-> count p = 0.
Proof.
  intros [_ Hr Hw Hc]. unfold empty, count in *. rewrite Z.eqb_eq. split; intros; word.
Qed.

Lemma empty_contents p : pipe_wf p -> empty p = true <-> contents p = [].
Proof.
  intros Hwf. rewrite (empty_iff p Hwf). rewrite <- length_contents.
  destruct (contents p); simpl; split; intros; try done; lia.
Qed.

(** Ring positions of distinct live offsets are distinct. *)
Lemma slot_inj (r i j : Z) :
  0 <= i < PIPESIZE -> 0 <= j < PIPESIZE ->
  (r + i) mod PIPESIZE = (r + j) mod PIPESIZE -> i = j.
Proof. unfold PIPESIZE. intros. Z.to_euclidean_division_equations. lia. Qed.

Lemma count_put p b : pipe_wf p -> full p = false -> count (put p b) = count p + 1.
Proof.
  intros Hwf Hf. assert (count p <> PIPESIZE).
  { rewrite <- (full_iff p Hwf). by rewrite Hf. }
  destruct Hwf as [_ Hr Hw Hc]. unfold count, PIPESIZE, put in *. simpl in *. word.
Qed.

Lemma count_get p : pipe_wf p -> empty p = false -> count (get p).2 = count p - 1.
Proof.
  intros Hwf Hf. assert (count p <> 0).
  { rewrite <- (empty_iff p Hwf). by rewrite Hf. }
  destruct Hwf as [_ Hr Hw Hc]. unfold count, PIPESIZE, get in *. simpl in *. word.
Qed.

Lemma put_wf p b : pipe_wf p -> full p = false -> pipe_wf (put p b).
Proof.
  intros Hwf Hf. pose proof (count_put p b Hwf Hf) as Hc.
  assert (count p <> PIPESIZE) by (rewrite <- (full_iff p Hwf); by rewrite Hf).
  destruct Hwf. split; [by simpl; rewrite length_insert | done | apply u32_range | lia].
Qed.

Lemma get_wf p : pipe_wf p -> empty p = false -> pipe_wf (get p).2.
Proof.
  intros Hwf Hf. pose proof (count_get p Hwf Hf) as Hc.
  destruct Hwf. split; [done | apply u32_range | done | lia].
Qed.

(** The slot [pipewrite] fills is the one after the newest byte. *)
Lemma nwrite_slot p : pipe_wf p -> nwrite p mod PIPESIZE = (nread p + count p) mod PIPESIZE.
Proof.
  intros [_ Hr Hw _]. unfold count. change PIPESIZE with (2 ^ 9).
  rewrite <- (u32_mod_pow2 (nread p + _)) by lia. rewrite u32_add_r.
  replace (nread p + (nwrite p - nread p)) with (nwrite p) by lia.
  by rewrite u32_small.
Qed.

Lemma contents_put p b : pipe_wf p -> full p = false -> contents (put p b) = contents p ++ [b].
Proof.
  intros Hwf Hf. pose proof (count_put p b Hwf Hf) as Hc.
  pose proof (nwrite_slot p Hwf) as Hs. pose proof (count_nonneg p).
  assert (count p <> PIPESIZE) by (rewrite <- (full_iff p Hwf); by rewrite Hf).
  pose proof (wf_count p Hwf). unfold contents. rewrite Hc.
  rewrite seqZ_app by lia. rewrite map_app. f_equal.
  - apply map_ext_in. intros i Hi%list_elem_of_In. apply elem_of_seqZ in Hi. simpl.
    rewrite Hs, !nth_lookup, list_lookup_insert_ne; [done |].
    intros Heq. assert (i = count p); [|lia].
    apply (slot_inj (nread p)); [lia | lia |].
    pose proof (Z.mod_pos_bound (nread p + i) PIPESIZE).
    pose proof (Z.mod_pos_bound (nread p + count p) PIPESIZE). unfold PIPESIZE in *. lia.
  - simpl. replace (nread p + _) with (nread p + count p) by lia. f_equal.
    rewrite Hs, nth_lookup, list_lookup_insert_eq; [done |].
    rewrite (wf_data p Hwf). pose proof (Z.mod_pos_bound (nread p + count p) PIPESIZE).
    unfold PIPESIZE in *. lia.
Qed.

Lemma seqZ_shift (k n : Z) : seqZ k n = map (Z.add k) (seqZ 0 n).
Proof. change (map (Z.add k) (seqZ 0 n)) with (Z.add k <$> seqZ 0 n). rewrite fmap_add_seqZ. f_equal; lia. Qed.

Lemma contents_get p : pipe_wf p -> empty p = false ->
  contents p = (get p).1 :: contents (get p).2.
Proof.
  intros Hwf Hf. pose proof (count_get p Hwf Hf) as Hc. pose proof (count_nonneg (get p).2).
  unfold contents at 1. replace (count p) with (1 + count (get p).2) by lia.
  rewrite seqZ_app by lia. rewrite map_app. change (seqZ 0 1) with [0]. simpl map at 1.
  unfold get at 1. simpl. rewrite Z.add_0_r. f_equal.
  unfold contents. rewrite (seqZ_shift 1). rewrite map_map. apply map_ext. intros i. simpl.
  change PIPESIZE with (2 ^ 9).
  rewrite <- (u32_mod_pow2 (u32 (nread p + 1) + i)) by lia. rewrite u32_add_l.
  rewrite u32_mod_pow2 by lia. do 3 f_equal. lia.
Qed.

(** ** Activations *)
Section activations.
Variable self : Z.

(** One activation of [pipewrite]: the bytes that enter are a prefix of [addr], in order, and each
    ending says what is left. *)
Lemma pipewrite_spec killed addr : forall p n p' done ws e,
  pipe_wf p -> pipewrite self killed p addr n = (p', done, ws, e) ->
  pipe_wf p' /\ contents p' = contents p ++ done /\
  readopen p' = readopen p /\ writeopen p' = writeopen p /\ (full p = true -> p' = p) /\
  match e with
  | Ret v => (v = n /\ done = addr /\ ws = [ChPipeRead self]) \/
             (v = -1 /\ ws = [] /\ full p' = true /\ (readopen p = false \/ killed = true))
  | Sleep c r => c = ChPipeWrite self /\ addr = done ++ r /\ r <> [] /\ full p' = true /\
                 readopen p = true /\ killed = false /\ ws = [ChPipeRead self]
  end.
Proof.
  induction addr as [|b rest IH]; intros p n p' done ws e Hwf; cbn [pipewrite].
  { intros [= <- <- <- <-]. rewrite app_nil_r. naive_solver. }
  destruct (full p) eqn:Hf.
  - destruct (negb (readopen p) || killed) eqn:Hk; intros [= <- <- <- <-]; rewrite app_nil_r.
    + split_and!; try done. right. split_and!; try done.
      destruct (readopen p); [right; by destruct killed | by left].
    + apply orb_false_elim in Hk as [Hr Hk]. reflect_bool. naive_solver.
  - destruct (pipewrite self killed (put p b) rest n) as [[[p1 d1] w1] e1] eqn:Hrec.
    intros [= <- <- <- <-].
    pose proof (put_wf p b Hwf Hf) as Hwf1.
    destruct (IH _ _ _ _ _ _ Hwf1 Hrec) as (? & Hc & ? & ? & _ & He).
    rewrite contents_put in Hc by done. rewrite <- app_assoc in Hc.
    split_and!; try done.
    destruct e1; naive_solver.
Qed.

Lemma piperead_copy_spec n : forall p p' l,
  pipe_wf p -> piperead_copy p n = (p', l) ->
  pipe_wf p' /\ l = take n (contents p) /\ contents p' = drop n (contents p) /\
  readopen p' = readopen p /\ writeopen p' = writeopen p.
Proof.
  induction n as [|n IH]; intros p p' l Hwf; cbn [piperead_copy].
  { intros [= <- <-]. by rewrite take_0, drop_0. }
  destruct (empty p) eqn:He.
  - intros [= <- <-]. apply (empty_contents p Hwf) in He. by rewrite He, take_nil, drop_nil.
  - destruct (get p) as [b p1] eqn:Hg.
    pose proof (get_wf p Hwf He) as Hwf1. pose proof (contents_get p Hwf He) as Hc.
    rewrite Hg in Hwf1, Hc. simpl in Hwf1, Hc.
    destruct (piperead_copy p1 n) as [p2 l2] eqn:Hrec. intros [= <- <-].
    destruct (IH _ _ _ Hwf1 Hrec) as (? & -> & ? & Hr & Hw). rewrite Hc. simpl.
    assert (readopen p1 = readopen p /\ writeopen p1 = writeopen p) as [??].
    { unfold get in Hg. by injection Hg as <- <-. }
    split_and!; congruence.
Qed.

Lemma piperead_spec killed p n p' l ws e :
  pipe_wf p -> piperead self killed p n = (p', l, ws, e) ->
  pipe_wf p' /\ contents p = l ++ contents p' /\
  readopen p' = readopen p /\ writeopen p' = writeopen p /\
  match e with
  | Sleep c _ => c = ChPipeRead self /\ p' = p /\ ws = [] /\ empty p = true /\
                 writeopen p = true /\ killed = false
  | Ret v => (v = -1 /\ p' = p /\ ws = [] /\ l = [] /\ killed = true /\
              empty p = true /\ writeopen p = true) \/
             (v = Z.of_nat (length l) /\ l = take (Z.to_nat n) (contents p) /\
              ws = [ChPipeWrite self] /\ (empty p = false \/ writeopen p = false))
  end.
Proof.
  intros Hwf. unfold piperead. destruct (empty p && writeopen p) eqn:Hb.
  - apply andb_prop in Hb as [He Hw]. destruct killed; intros [= <- <- <- <-]; naive_solver.
  - destruct (piperead_copy p (Z.to_nat n)) as [p1 l1] eqn:Hc. intros [= <- <- <- <-].
    destruct (piperead_copy_spec _ _ _ _ Hwf Hc) as (? & -> & -> & ? & ?).
    rewrite take_drop. split_and!; try done. right. split_and!; try done.
    destruct (empty p); [right | left]; done.
Qed.

Lemma wake_sleeper ws : forall ts k t c,
  wake ws ts !! k = Some (t, Some c) -> ts !! k = Some (t, Some c) /\ ~ In c ws.
Proof.
  unfold wake. induction ws as [|w ws IH]; intros ts k t c; simpl; [naive_solver |].
  intros H. apply IH in H as [H Hn].
  change (map (wake1 w) ts) with (wake1 w <$> ts) in H.
  rewrite list_lookup_fmap in H. destruct (ts !! k) as [[t' o]|] eqn:Hk; simpl in H; [|done].
  unfold wake1 in H. simpl in H. destruct o as [d|]; [|by injection H].
  destruct (decide (w = d)); simplify_eq. naive_solver.
Qed.

Lemma wake_task ws : forall ts k t o,
  wake ws ts !! k = Some (t, o) -> exists o', ts !! k = Some (t, o').
Proof.
  unfold wake. induction ws as [|w ws IH]; intros ts k t o; simpl; [eauto |].
  intros H. apply IH in H as [o' H].
  change (map (wake1 w) ts) with (wake1 w <$> ts) in H.
  rewrite list_lookup_fmap in H. destruct (ts !! k) as [[t' p]|] eqn:Hk; simpl in H; [|done].
  exists p. f_equal. unfold wake1 in H. simpl in H.
  destruct p as [d|]; [destruct (decide (w = d)) |]; by simplify_eq.
Qed.
End activations.

(** ** Invariants of the interleaving *)
Section invariants.
Variable self : Z.

(** Nothing is lost, duplicated or reordered. *)
Definition fifo (s : sys) : Prop :=
  pipe_wf (s_pipe s) /\ s_sent s = s_rcvd s ++ contents (s_pipe s).

Lemma fifo_step kills s t : fifo s -> step self kills s t -> fifo t.
Proof.
  intros [Hwf Hs] Hstep. destruct Hstep as [killed p ts sent rcvd k rest n p' done ws e _ _ H
    | killed p ts sent rcvd k n p' l ws e _ _ H | p ts sent rcvd writable p' ws freed _ H | ];
    unfold fifo in *; simpl in *; subst.
  - destruct (pipewrite_spec _ _ _ _ _ _ _ _ _ Hwf H) as (? & Hc & _).
    rewrite Hc. by rewrite app_assoc.
  - destruct (piperead_spec _ _ _ _ _ _ _ _ Hwf H) as (? & Hc & _).
    rewrite Hc. by rewrite app_assoc.
  - unfold pipeclose in H. destruct Hwf. destruct writable; injection H as <- _ _; done.
  - done.
Qed.

(** A sleeping task waits for something that has not happened: a writer for room in a full ring
    whose reader is there, a reader for data in an empty ring whose writer is there. *)
Definition justified (p : pipe) (t : task) (c : chan) : Prop :=
  match t with
  | Writing _ _ => c = ChPipeWrite self /\ full p = true /\ readopen p = true
  | Reading _ => c = ChPipeRead self /\ empty p = true /\ writeopen p = true
  | Finished _ => False
  end.

Record awake (s : sys) : Prop := {
  aw_wf : pipe_wf (s_pipe s);
  aw_open : forall k t o, s_tasks s !! k = Some (t, o) ->
    match t with Finished _ => True | _ => end_open (s_pipe s) t = true end;
  aw_just : forall k t c, s_tasks s !! k = Some (t, Some c) -> justified (s_pipe s) t c
}.

Lemma awake_write p ts sent rcvd k rest n p' done ws e :
  awake (Sys p ts sent rcvd) -> ts !! k = Some (Writing rest n, None) ->
  pipewrite self false p rest n = (p', done, ws, e) ->
  awake (Sys p' (<[k := match e with Ret v => (Finished v, None)
                            | Sleep c r => (Writing r n, Some c) end]> (wake ws ts))
         (sent ++ done) rcvd).
Proof.
  intros [Hwf Ho Hj] Hk H. simpl in *.
  pose proof (Ho _ _ _ Hk) as Hopen. simpl in Hopen.
  destruct (pipewrite_spec _ _ _ _ _ _ _ _ _ Hwf H) as (Hwf' & Hc & Hr & Hw & Hfull & He).
  split; simpl; [done | |].
  - intros k' t o [[-> Ht] | [_ Ht]]%lookup_insert_case.
    + destruct e; simplify_eq; simpl; [done | congruence].
    + apply wake_task in Ht as [o' Ht]. specialize (Ho _ _ _ Ht).
      destruct t; simpl in *; congruence || done.
  - intros k' t c [[-> Ht] | [_ Ht]]%lookup_insert_case.
    + destruct e as [v | c' r]; simplify_eq. simpl. naive_solver congruence.
    + apply wake_sleeper in Ht as [Ht Hn]. specialize (Hj _ _ _ Ht). specialize (Ho _ _ _ Ht).
      destruct t; simpl in *; [| |done].
      * destruct Hj as (-> & Hf & ?). rewrite (Hfull Hf). done.
      * destruct Hj as (-> & ? & ?). destruct e as [v | c' r]; [|naive_solver].
        destruct He as [(? & ? & ->) | (_ & _ & _ & [? | ?])]; [|congruence|done].
        exfalso. apply Hn. by left.
Qed.

Lemma awake_read p ts sent rcvd k n p' l ws e :
  awake (Sys p ts sent rcvd) -> ts !! k = Some (Reading n, None) ->
  piperead self false p n = (p', l, ws, e) ->
  awake (Sys p' (<[k := match e with Ret v => (Finished v, None)
                            | Sleep c _ => (Reading n, Some c) end]> (wake ws ts))
         sent (rcvd ++ l)).
Proof.
  intros [Hwf Ho Hj] Hk H. simpl in *.
  pose proof (Ho _ _ _ Hk) as Hopen. simpl in Hopen.
  destruct (piperead_spec _ _ _ _ _ _ _ _ Hwf H) as (Hwf' & Hc & Hr & Hw & He).
  split; simpl; [done | |].
  - intros k' t o [[-> Ht] | [_ Ht]]%lookup_insert_case.
    + destruct e; simplify_eq; simpl; [done | congruence].
    + apply wake_task in Ht as [o' Ht]. specialize (Ho _ _ _ Ht).
      destruct t; simpl in *; congruence || done.
  - intros k' t c [[-> Ht] | [_ Ht]]%lookup_insert_case.
    + destruct e as [v | c' r]; simplify_eq. simpl. naive_solver congruence.
    + apply wake_sleeper in Ht as [Ht Hn]. specialize (Hj _ _ _ Ht).
      destruct e as [v | c' r]; [|by destruct He as (_ & -> & _)].
      destruct He as [(? & _ & _ & _ & ? & _) | (_ & _ & -> & Hb)]; [done |].
      destruct t; simpl in *; [| |done].
      * destruct Hj as (-> & _). exfalso. apply Hn. by left.
      * destruct Hj as (_ & ? & ?). destruct Hb; congruence.
Qed.

Lemma awake_step s t : awake s -> step self false s t -> awake t.
Proof.
  intros Ha Hstep. destruct Hstep as [killed p ts sent rcvd k rest n p' done ws e Hk Hkill H
    | killed p ts sent rcvd k n p' l ws e Hk Hkill H
    | p ts sent rcvd writable p' ws freed Hu H | p ts sent rcvd t Ho ].
  - destruct killed; [by specialize (Hkill eq_refl) |]. by eapply awake_write.
  - destruct killed; [by specialize (Hkill eq_refl) |]. by eapply awake_read.
  - destruct Ha as [Hwf Hopen Hj]. simpl in *. rewrite Forall_lookup in Hu.
    assert (p' = Pipe (data p) (nread p) (nwrite p) (writable && readopen p)
      (negb writable && writeopen p) /\
      ws = [if writable then ChPipeRead self else ChPipeWrite self]) as [-> ->].
    { unfold pipeclose in H. destruct writable; by simplify_eq. }
    split; simpl; [by destruct Hwf; split | |].
    + intros k t o Ht. apply wake_task in Ht as [o' Ht]. pose proof (Hopen _ _ _ Ht).
      pose proof (Hu _ _ Ht) as Hu'. destruct t, writable; simpl in *; congruence.
    + intros k t c Ht. apply wake_sleeper in Ht as [Ht Hn]. pose proof (Hj _ _ _ Ht).
      pose proof (Hu _ _ Ht) as Hu'. destruct t, writable; simpl in *; naive_solver.
  - destruct Ha as [Hwf Hopen Hj]. simpl in *. split; simpl; [done | |].
    + intros k t' o [Ht | [_ Ht]]%lookup_app_Some; [exact (Hopen k t' o Ht) |].
      apply list_lookup_singleton_Some in Ht as [_ [= <- <-]]. by destruct t.
    + intros k t' c [Ht | [_ Ht]]%lookup_app_Some; [eauto |].
      by apply list_lookup_singleton_Some in Ht as [_ ?].
Qed.
End invariants.

Lemma pipe_init_wf page : length page = Z.to_nat PIPESIZE -> pipe_wf (pipe_init page).
Proof. intros. split; simpl; [done | lia | lia | by vm_compute]. Qed.

Lemma pipe_init_contents page : contents (pipe_init page) = [].
Proof. done. Qed.

(** ** Properties *)

(** C8: a pipe is a FIFO.  From a freshly allocated pipe, under any interleaving of any number of
    readers and writers (killed ones included) and of closes of either end, the bytes handed to
    readers followed by the bytes still in the ring are exactly the bytes that writers put in, in
    order; the ring never holds more than 512 bytes, also after the 32-bit counters wrap. *)
Theorem pipe_is_fifo (self : Z) (kills : bool) (page : list Z) (s : sys) :
  length page = Z.to_nat PIPESIZE -> reach (step self kills) (Sys (pipe_init page) [] [] []) s ->
  s_sent s = s_rcvd s ++ contents (s_pipe s) /\
  Z.of_nat (length (contents (s_pipe s))) <= PIPESIZE.
Proof.
  intros Hp Hr. assert (fifo s) as [Hwf Hs].
  { eapply reach_invariant; [| apply fifo_step | exact Hr]. by split; [apply pipe_init_wf |]. }
  split; [done |]. rewrite length_contents. apply wf_count, Hwf.
Qed.

Lemma pipe_is_fifo_witness :
  let s := Sys (put (pipe_init (replicate 512 0)) 65) [(Finished 1, None)] [65] [] in
  [65] = [] ++ contents (s_pipe s).
Proof.
  intros s. apply (pipe_is_fifo 0 false (replicate 512 0) s); [done |].
  eapply reach_step; [eapply reach_step; [apply reach_refl |] |].
  - apply (step_call _ _ _ _ _ _ (Writing [65] 1)). done.
  - apply (step_write 0 false false (pipe_init (replicate 512 0)) [(Writing [65] 1, None)] [] [] 0
      [65] 1 (put (pipe_init (replicate 512 0)) 65) [65] [ChPipeRead 0] (Ret 1)); done.
Defined.

(** C31: no wakeup is missed and the pipe cannot deadlock.  As long as no caller has been killed, a
    writer sleeps only while the ring is full and its reader is there, a reader sleeps only while
    the ring is empty and its writer is there; so a reader and a writer are never asleep at the
    same time. *)
Theorem pipe_no_missed_wakeup (self : Z) (page : list Z) (s : sys) :
  length page = Z.to_nat PIPESIZE -> reach (step self false) (Sys (pipe_init page) [] [] []) s ->
  (forall k t c, s_tasks s !! k = Some (t, Some c) -> justified self (s_pipe s) t c) /\
  (forall k k' rest n n' c c', s_tasks s !! k = Some (Writing rest n, Some c) ->
     s_tasks s !! k' = Some (Reading n', Some c') -> False).
Proof.
  intros Hp Hr. assert (awake self s) as [Hwf _ Hj].
  { eapply reach_invariant; [| apply awake_step | exact Hr].
    split; simpl; [by apply pipe_init_wf | |]; by intros [|k]. }
  split; [done |]. intros k k' rest n n' c c' H1 H2.
  apply Hj in H1 as (_ & Hf & _). apply Hj in H2 as (_ & He & _).
  apply (full_iff _ Hwf) in Hf. apply (empty_iff _ Hwf) in He. unfold PIPESIZE in *. lia.
Qed.

Lemma pipe_no_missed_wakeup_witness :
  justified 0 (pipe_init (replicate 512 0)) (Reading 10) (ChPipeRead 0).
Proof.
  destruct (pipe_no_missed_wakeup 0 (replicate 512 0)
    (Sys (pipe_init (replicate 512 0)) [(Reading 10, Some (ChPipeRead 0))] [] [])) as [H _].
  - done.
  - eapply reach_step; [eapply reach_step; [apply reach_refl |] |].
    + apply (step_call _ _ _ _ _ _ (Reading 10)). done.
    + apply (step_read 0 false false (pipe_init (replicate 512 0)) [(Reading 10, None)] [] [] 0
        10 (pipe_init (replicate 512 0)) [] [] (Sleep (ChPipeRead 0) tt)); done.
  - apply (H 0%nat (Reading 10) (ChPipeRead 0)). done.
Defined.

(** What [piperead] returns.  On a ring that holds data, or whose write end is closed, it
    returns at once: the oldest [n] bytes (or all there are), their number, the rest left in place,
    and writers are woken.  In particular a read of [n > 0] bytes returns 0, end of file, only from
    an empty ring whose write end is closed. *)
Theorem piperead_returns (self : Z) (killed : bool) (p : pipe) (n : Z) :
  pipe_wf p -> empty p = false \/ writeopen p = false ->
  exists p', piperead self killed p n =
    (p', take (Z.to_nat n) (contents p), [ChPipeWrite self],
     Ret (Z.of_nat (length (take (Z.to_nat n) (contents p))))) /\
  contents p' = drop (Z.to_nat n) (contents p) /\ pipe_wf p' /\
  (0 < n -> length (take (Z.to_nat n) (contents p)) = O -> empty p = true /\ writeopen p = false).
Proof.
  intros Hwf Hb. unfold piperead.
  assert ((empty p && writeopen p) = false) as ->.
  { destruct Hb as [-> | ->]; [done | by rewrite andb_false_r]. }
  destruct (piperead_copy p (Z.to_nat n)) as [p1 l1] eqn:Hc.
  destruct (piperead_copy_spec _ _ _ _ Hwf Hc) as (? & -> & ? & _).
  exists p1. split_and!; try done. intros Hn Hz.
  rewrite length_take in Hz. assert (contents p = []) as Hnil by (apply length_zero_iff_nil; lia).
  apply (empty_contents p Hwf) in Hnil. split; [done |]. destruct Hb; congruence.
Qed.

Lemma piperead_returns_witness :
  exists p', piperead 0 false (put (pipe_init (replicate 512 0)) 65) 4 =
    (p', [65], [ChPipeWrite 0], Ret 1) /\ contents p' = [].
Proof.
  destruct (piperead_returns 0 false (put (pipe_init (replicate 512 0)) 65) 4) as (p' & H & Hc & _).
  - apply put_wf; [by apply pipe_init_wf | done].
  - by left.
  - exists p'. split; [exact H | exact Hc].
Defined.

(** The guarantee above does need its condition.  A killed writer that fills the ring returns
    without [wakeup(&p->nread)]: there is a run after which a reader sleeps on a ring that holds
    512 bytes. *)
Theorem killed_writer_leaves_reader_asleep :
  exists s, reach (step 0 true) (Sys (pipe_init (replicate 512 0)) [] [] []) s /\
    s_tasks s !! 0%nat = Some (Reading 1, Some (ChPipeRead 0)) /\
    s_tasks s !! 1%nat = Some (Finished (-1), None) /\
    length (contents (s_pipe s)) = 512%nat.
Proof.
  set (p0 := pipe_init (replicate 512 0)).
  destruct (pipewrite 0 true p0 (replicate 513 7) 513) as [[[p1 d1] w1] e1] eqn:Hw.
  assert (w1 = [] /\ e1 = Ret (-1) /\ length (contents p1) = 512%nat) as (-> & -> & Hlen).
  { vm_compute in Hw. injection Hw as <- _ <- <-. by vm_compute. }
  exists (Sys p1 [(Reading 1, Some (ChPipeRead 0)); (Finished (-1), None)] d1 []).
  split; [| split; [| split; [| exact Hlen]]].
  - eapply reach_step; [eapply reach_step; [eapply reach_step; [eapply reach_step;
      [apply reach_refl |] |] |] |].
    + apply (step_call _ _ _ _ _ _ (Reading 1)). done.
    + eapply (step_read 0 true false p0 _ _ _ 0); done.
    + apply (step_call _ _ _ _ _ _ (Writing (replicate 513 7) 513)). done.
    + exact (step_write 0 true true p0
        [(Reading 1, Some (ChPipeRead 0)); (Writing (replicate 513 7) 513, None)] [] [] 1
        (replicate 513 7) 513 p1 d1 [] (Ret (-1)) eq_refl (fun _ => eq_refl) Hw).
  - done.
  - done.
Qed.
