(* ===== verification/Ide.v ===== *)
(** * ide.c and memide.c: the disk drivers

    A request for a buffer goes through a queue; the buffer at its head is the one the disk works
    on, [ideintr] completes it and starts the next.  The hardware is the register file the driver
    programs with [outb], the request those registers describe once the command is given, and the
    sectors of the two disks; [hw_run] is the disk carrying the request out before it interrupts.
    [writes] records the sector writes in the order the disk performs them.  A block is one
    512-byte sector, so a write is atomic.  [memide.c] is the same interface on memory. *)
From S2P Require Import Prelude Lock.
#[local] Open Scope Z_scope.

Definition BSIZE : Z := 512.
Definition SECTOR_SIZE : Z := 512.
Definition FSSIZE : Z := 1000.
Definition B_VALID : Z := 2.
Definition B_DIRTY : Z := 4.

Definition IDE_BSY : Z := 0x80.
Definition IDE_DRDY : Z := 0x40.
Definition IDE_DF : Z := 0x20.
Definition IDE_ERR : Z := 0x01.

Definition block := list Z.

(** [struct buf], without the list links, which belong to [Bio] and to the queue below. *)
Record buf := Buf {
  flags : Z;
  dev : Z;
  blockno : Z;
  lock : Sleep.sleeplock;
  refcnt : Z;
  data : block
}.

Definition valid (b : buf) : bool := negb (Z.land (flags b) B_VALID =? 0).
Definition dirty (b : buf) : bool := negb (Z.land (flags b) B_DIRTY =? 0).
Definition set_flags (f : Z) (b : buf) : buf :=
  Buf f (dev b) (blockno b) (lock b) (refcnt b) (data b).
Definition set_data (x : block) (b : buf) : buf :=
  Buf (flags b) (dev b) (blockno b) (lock b) (refcnt b) x.

Inductive request :=
| Rread (d lba : Z)
| Rwrite (d lba : Z) (x : block).

Record hw := Hw {
  regs : Z -> Z;                  (* last byte written to each port *)
  status : Z;                     (* what inb(0x1f7) returns *)
  pending : option request;
  din : block;                    (* the sector a read has fetched *)
  disk : Z -> Z -> block;         (* disk number, sector *)
  writes : list (Z * Z * block)   (* sector writes performed, in order *)
}.

Record ide := Ide {
  bufs : nat -> buf;
  idequeue : list nat;
  havedisk1 : bool;
  hwr : hw
}.

(** ** The hardware *)

Definition set_sector (dk : Z -> Z -> block) (d lba : Z) (x : block) : Z -> Z -> block :=
  fun d' l' => if (d' =? d) && (l' =? lba) then x else dk d' l'.

(** The drive and the 28-bit sector number in the registers. *)
Definition reg_drive (h : hw) : Z := Z.land (Z.shiftr (regs h 0x1f6) 4) 1.
Definition reg_lba (h : hw) : Z :=
  Z.lor (Z.lor (Z.lor (regs h 0x1f3) (Z.shiftl (regs h 0x1f4) 8)) (Z.shiftl (regs h 0x1f5) 16))
    (Z.shiftl (Z.land (regs h 0x1f6) 15) 24).

Definition hw_outb (port v : Z) (h : hw) : hw :=
  let r := fun p => if p =? port then u8 v else regs h p in
  let h' := Hw r (status h) (pending h) (din h) (disk h) (writes h) in
  if (port =? 0x1f7) && (v =? 0x20)
  then Hw r (status h) (Some (Rread (reg_drive h') (reg_lba h'))) (din h) (disk h) (writes h)
  else h'.

(** [outsl(0x1f0, ...)]: the data of a write command already given. *)
Definition hw_outsl (x : block) (h : hw) : hw :=
  if regs h 0x1f7 =? 0x30
  then Hw (regs h) (status h) (Some (Rwrite (reg_drive h) (reg_lba h) x)) (din h) (disk h) (writes h)
  else h.

(** The disk carries out the request it was given. *)
Definition hw_run (h : hw) : hw :=
  match pending h with
  | None => h
  | Some (Rread d l) => Hw (regs h) (status h) None (disk h d l) (disk h) (writes h)
  | Some (Rwrite d l x) =>
      Hw (regs h) (status h) None (din h) (set_sector (disk h) d l x) (writes h ++ [(d, l, x)])
  end.

(** ** The driver *)

Definition on_hw (f : hw -> hw) : M ide unit :=
  modify (fun s => Ide (bufs s) (idequeue s) (havedisk1 s) (f (hwr s))).
Definition outb (port v : Z) : M ide unit := on_hw (hw_outb port v).
Definition on_buf (b : nat) (f : buf -> buf) : M ide unit :=
  modify (fun s => Ide (fupd (bufs s) b (f (bufs s b))) (idequeue s) (havedisk1 s) (hwr s)).

(** [idewait]: polls until the drive is ready (a drive that never is keeps the CPU spinning). *)
Definition idewait (checkerr : bool) : M ide Z :=
  r ← gets (fun s => status (hwr s)) ;
  if negb (Z.land r (Z.lor IDE_BSY IDE_DRDY) =? IDE_DRDY) then sleep_on ChNone
  else if checkerr && negb (Z.land r (Z.lor IDE_DF IDE_ERR) =? 0) then mret (-1) else mret 0.

(** [for(i=0; i<1000; i++) if(inb(0x1f7) != 0) { havedisk1 = 1; break; }], [n] iterations left. *)
Fixpoint probe_disk1 (n : nat) : M ide unit :=
  match n with
  | O => mret tt
  | S n' =>
      r ← gets (fun s => status (hwr s)) ;
      if negb (r =? 0) then modify (fun s => Ide (bufs s) (idequeue s) true (hwr s)) else probe_disk1 n'
  end.

(** [ideinit], without setting up the lock and the interrupt controller. *)
Definition ideinit : M ide unit :=
  idewait false ;;
  outb 0x1f6 (Z.lor 0xe0 (Z.shiftl 1 4)) ;;
  probe_disk1 1000 ;;
  outb 0x1f6 (Z.lor 0xe0 (Z.shiftl 0 4)).

(** [idestart] of a pointer to a buffer; [None] is the null pointer. *)
Definition idestart (p : option nat) : M ide unit :=
  match p with
  | None => panic "idestart"
  | Some b =>
      bf ← gets (fun s => bufs s b) ;
      if FSSIZE <=? blockno bf then panic "incorrect blockno" else
      let sector_per_block := BSIZE / SECTOR_SIZE in
      let sector := blockno bf * sector_per_block in
      let read_cmd := if sector_per_block =? 1 then 0x20 else 0xc4 in
      let write_cmd := if sector_per_block =? 1 then 0x30 else 0xc5 in
      if 7 <? sector_per_block then panic "idestart" else
      idewait false ;;
      outb 0x3f6 0 ;;                          (* generate interrupt *)
      outb 0x1f2 sector_per_block ;;            (* number of sectors *)
      outb 0x1f3 (Z.land sector 255) ;;
      outb 0x1f4 (Z.land (Z.shiftr sector 8) 255) ;;
      outb 0x1f5 (Z.land (Z.shiftr sector 16) 255) ;;
      outb 0x1f6 (Z.lor (Z.lor 0xe0 (Z.shiftl (Z.land (dev bf) 1) 4)) (Z.land (Z.shiftr sector 24) 15)) ;;
      if dirty bf then outb 0x1f7 write_cmd ;; on_hw (hw_outsl (data bf))
      else outb 0x1f7 read_cmd
  end.

(** [ideintr], with the channels it wakes. *)
Definition ideintr : M ide (list chan) :=
  q ← gets idequeue ;
  match q with
  | [] => mret []
  | b :: q' =>
      modify (fun s => Ide (bufs s) q' (havedisk1 s) (hwr s)) ;;
      bf ← gets (fun s => bufs s b) ;
      (* Read data if needed. *)
      (if dirty bf then mret tt
       else r ← idewait true ;
            if 0 <=? r then x ← gets (fun s => din (hwr s)) ; on_buf b (set_data x) else mret tt) ;;
      on_buf b (fun bf => set_flags (Z.lor (flags bf) B_VALID) bf) ;;
      on_buf b (fun bf => set_flags (Z.land (flags bf) (Z.lnot B_DIRTY)) bf) ;;
      (* Start disk on next buf in queue. *)
      (if decide (q' <> []) then idestart (head q') else mret tt) ;;
      mret [ChBuf b]
  end.

(** [iderw] up to the point where it waits. *)
Definition iderw_submit (b : nat) : M ide unit :=
  bf ← gets (fun s => bufs s b) ;
  if negb (Sleep.holdingsleep (lock bf)) then panic "iderw: buf not locked"
  else if Z.land (flags bf) (Z.lor B_VALID B_DIRTY) =? B_VALID then panic "iderw: nothing to do"
  else
    h1 ← gets havedisk1 ;
    if negb (dev bf =? 0) && negb h1 then panic "iderw: ide disk 1 not present"
    else
      modify (fun s => Ide (bufs s) (idequeue s ++ [b]) (havedisk1 s) (hwr s)) ;;
      q ← gets idequeue ;
      if decide (head q = Some b) then idestart (Some b) else mret tt.

(** The wait loop of [iderw]: one test of its condition. *)
Definition iderw_wait (b : nat) : M ide unit :=
  bf ← gets (fun s => bufs s b) ;
  if Z.land (flags bf) (Z.lor B_VALID B_DIRTY) =? B_VALID then mret tt else sleep_on (ChBuf b).

(** The disk finishes its request and interrupts. *)
Definition disk_interrupt : M ide (list chan) := on_hw hw_run ;; ideintr.

(** [iderw] as its caller sees it when nothing else uses the disk: the request is queued and
    started, the caller sleeps, the disk interrupts, and the caller tests again. *)
Definition iderw (b : nat) : M ide unit := iderw_submit b ;; disk_interrupt ;; iderw_wait b.

(** [iderw] of memide.c, where disk 1 is an array of [disksize] blocks in memory. *)
Definition mem_iderw (disksize : Z) (b : nat) : M ide unit :=
  bf ← gets (fun s => bufs s b) ;
  if negb (Sleep.holdingsleep (lock bf)) then panic "iderw: buf not locked"
  else if Z.land (flags bf) (Z.lor B_VALID B_DIRTY) =? B_VALID then panic "iderw: nothing to do"
  else if negb (dev bf =? 1) then panic "iderw: request not for disk 1"
  else if disksize <=? blockno bf then panic "iderw: block out of range"
  else
    (if dirty bf then
       on_buf b (fun bf => set_flags (Z.land (flags bf) (Z.lnot B_DIRTY)) bf) ;;
       on_hw (fun h => Hw (regs h) (status h) (pending h) (din h)
         (set_sector (disk h) 1 (blockno bf) (data bf))
         (writes h ++ [(1, blockno bf, data bf)]))
     else x ← gets (fun s => disk (hwr s) 1 (blockno bf)) ; on_buf b (set_data x)) ;;
    on_buf b (fun bf => set_flags (Z.lor (flags bf) B_VALID) bf).

(** ** Flags *)

Lemma land_bit (f k : Z) : 0 <= k -> Z.land f (2 ^ k) = if Z.testbit f k then 2 ^ k else 0.
Proof.
  intros Hk. apply Z.bits_inj'. intros n Hn. rewrite Z.land_spec, Z.pow2_bits_eqb by done.
  destruct (Z.eqb_spec k n) as [-> | Hne].
  - destruct (Z.testbit f n) eqn:E; rewrite ?Z.pow2_bits_true, ?Z.bits_0 by done; done.
  - rewrite andb_false_r. destruct (Z.testbit f k); [|by rewrite Z.bits_0].
    by rewrite Z.pow2_bits_false.
Qed.

Lemma valid_bit b : valid b = Z.testbit (flags b) 1.
Proof.
  unfold valid. change B_VALID with (2 ^ 1). rewrite land_bit by lia.
  by destruct (Z.testbit (flags b) 1).
Qed.

Lemma dirty_bit b : dirty b = Z.testbit (flags b) 2.
Proof.
  unfold dirty. change B_DIRTY with (2 ^ 2). rewrite land_bit by lia.
  by destruct (Z.testbit (flags b) 2).
Qed.

(** The condition [iderw] waits for. *)
Lemma ready_test f :
  (Z.land f (Z.lor B_VALID B_DIRTY) =? B_VALID) = Z.testbit f 1 && negb (Z.testbit f 2).
Proof.
  change (Z.lor B_VALID B_DIRTY) with (Z.lor (2 ^ 1) (2 ^ 2)).
  rewrite Z.land_lor_distr_r, !land_bit by lia.
  by destruct (Z.testbit f 1), (Z.testbit f 2).
Qed.

(** The flags [ideintr] leaves. *)
Definition done_flags (f : Z) : Z := Z.land (Z.lor f B_VALID) (Z.lnot B_DIRTY).

Lemma done_flags_bits f :
  Z.testbit (done_flags f) 1 = true /\ Z.testbit (done_flags f) 2 = false.
Proof.
  unfold done_flags. split; rewrite Z.land_spec, Z.lor_spec, Z.lnot_spec by lia.
  - by rewrite orb_true_r.
  - by rewrite andb_false_r.
Qed.

(** ** What a request asks for and what its completion does *)

Definition request_of (bf : buf) : request :=
  if dirty bf then Rwrite (Z.land (dev bf) 1) (blockno bf) (data bf)
  else Rread (Z.land (dev bf) 1) (blockno bf).

(** The buffer after it has been synced with the disk [dk]. *)
Definition sync_buf (dk : Z -> Z -> block) (bf : buf) : buf :=
  Buf (done_flags (flags bf)) (dev bf) (blockno bf) (lock bf) (refcnt bf)
    (if dirty bf then data bf else dk (Z.land (dev bf) 1) (blockno bf)).
Definition sync_disk (bf : buf) (dk : Z -> Z -> block) : Z -> Z -> block :=
  if dirty bf then set_sector dk (Z.land (dev bf) 1) (blockno bf) (data bf) else dk.
Definition sync_writes (bf : buf) : list (Z * Z * block) :=
  if dirty bf then [(Z.land (dev bf) 1, blockno bf, data bf)] else [].

(** The drive answers, and reports no error. *)
Definition healthy (s : ide) : Prop :=
  Z.land (status (hwr s)) (Z.lor IDE_BSY IDE_DRDY) = IDE_DRDY /\
  Z.land (status (hwr s)) (Z.lor IDE_DF IDE_ERR) = 0.

Lemma idewait_ok checkerr s : healthy s -> idewait checkerr s = Ok 0 s.
Proof.
  intros [H1 H2]. unfold idewait. run_m. rewrite H1, H2, Z.eqb_refl. simpl.
  by rewrite andb_false_r.
Qed.

(** The four address registers describe the sector: checked for every block of the disk. *)
Definition lba_of (d x : Z) : Z :=
  let r6 := u8 (Z.lor (Z.lor 0xe0 (Z.shiftl d 4)) (Z.land (Z.shiftr x 24) 15)) in
  Z.lor (Z.lor (Z.lor (u8 (Z.land x 255)) (Z.shiftl (u8 (Z.land (Z.shiftr x 8) 255)) 8))
    (Z.shiftl (u8 (Z.land (Z.shiftr x 16) 255)) 16)) (Z.shiftl (Z.land r6 15) 24).
Definition drive_of (d x : Z) : Z :=
  Z.land (Z.shiftr (u8 (Z.lor (Z.lor 0xe0 (Z.shiftl d 4)) (Z.land (Z.shiftr x 24) 15))) 4) 1.

Lemma lba_all :
  forallb (fun d => forallb (fun x => (lba_of d x =? x) && (drive_of d x =? d)) (seqZ 0 FSSIZE))
    [0; 1] = true.
Proof. by vm_compute. Qed.

Lemma lba_roundtrip d x :
  d = 0 \/ d = 1 -> 0 <= x < FSSIZE -> lba_of d x = x /\ drive_of d x = d.
Proof.
  intros Hd Hx. pose proof lba_all as H. rewrite forallb_forall in H.
  specialize (H d ltac:(destruct Hd as [-> | ->]; simpl; auto)). rewrite forallb_forall in H.
  specialize (H x ltac:(apply list_elem_of_In, elem_of_seqZ; lia)).
  by reflect_bool.
Qed.

Lemma land_1_cases x : Z.land x 1 = 0 \/ Z.land x 1 = 1.
Proof.
  pose proof (land_bit x 0 ltac:(lia)) as H. change (2 ^ 0) with 1 in H.
  rewrite H. destruct (Z.testbit x 0); auto.
Qed.

Lemma idestart_ok b s :
  healthy s -> 0 <= blockno (bufs s b) < FSSIZE ->
  exists h, idestart (Some b) s = Ok tt (Ide (bufs s) (idequeue s) (havedisk1 s) h) /\
    pending h = Some (request_of (bufs s b)) /\ disk h = disk (hwr s) /\
    writes h = writes (hwr s) /\ status h = status (hwr s).
Proof.
  intros Hh Hb. unfold idestart. run_m. rewrite (proj2 (Z.leb_gt _ _)) by lia.
  change (BSIZE / SECTOR_SIZE) with 1. rewrite Z.mul_1_r. cbv beta iota zeta.
  change (7 <? 1) with false. change (1 =? 1) with true. cbv iota.
  cbv beta. rewrite (idewait_ok false s Hh). set (bf := bufs s b) in *.
  destruct (lba_roundtrip (Z.land (dev bf) 1) (blockno bf) (land_1_cases _) Hb) as [Hl Hd].
  unfold lba_of, drive_of in Hl, Hd. unfold outb, on_hw, request_of. run_m.
  destruct (dirty bf); eexists; (split; [reflexivity |]); simpl;
    unfold reg_drive, reg_lba; simpl; rewrite Hd, Hl; done.
Qed.

(** ** The queue *)

(** What holds between driver calls: the disk works on exactly the request of the buffer at the
    head of the queue, and is idle when there is none. *)
Record drv_inv (s : ide) : Prop := {
  dv_healthy : healthy s;
  dv_pending : pending (hwr s) =
    match idequeue s with [] => None | b :: _ => Some (request_of (bufs s b)) end;
  dv_blocks : forall b, b ∈ idequeue s -> 0 <= blockno (bufs s b) < FSSIZE;
  dv_nodup : NoDup (idequeue s)
}.

(** [s'] is [s] with the request of [b] completed. *)
Record completed (b : nat) (s s' : ide) : Prop := {
  cp_bufs : bufs s' = fupd (bufs s) b (sync_buf (disk (hwr s)) (bufs s b));
  cp_disk : disk (hwr s') = sync_disk (bufs s b) (disk (hwr s));
  cp_writes : writes (hwr s') = writes (hwr s) ++ sync_writes (bufs s b);
  cp_have : havedisk1 s' = havedisk1 s
}.

(** The disk having run, the interrupt handler up to starting the next request. *)
Lemma hw_run_request s bf :
  pending (hwr s) = Some (request_of bf) ->
  let h := hw_run (hwr s) in
  disk h = sync_disk bf (disk (hwr s)) /\ writes h = writes (hwr s) ++ sync_writes bf /\
  status h = status (hwr s) /\ pending h = None /\
  (dirty bf = false -> din h = disk (hwr s) (Z.land (dev bf) 1) (blockno bf)).
Proof.
  intros Hp. unfold hw_run, sync_disk, sync_writes. rewrite Hp. unfold request_of.
  destruct (dirty bf); simpl; split_and!; rewrite ?app_nil_r; done.
Qed.

Lemma ideintr_finish b q s dk :
  healthy s -> idequeue s = b :: q ->
  (dirty (bufs s b) = false ->
   din (hwr s) = dk (Z.land (dev (bufs s b)) 1) (blockno (bufs s b))) ->
  let s1 := Ide (fupd (bufs s) b (sync_buf dk (bufs s b))) q (havedisk1 s) (hwr s) in
  ideintr s = ((if decide (q <> []) then idestart (head q) else mret tt) ;; mret [ChBuf b]) s1.
Proof.
  intros Hh Hq Hdin s1. unfold ideintr.
  erewrite bind_ok by reflexivity. rewrite Hq.
  erewrite bind_ok by reflexivity. erewrite bind_ok by reflexivity. simpl bufs.
  unfold s1, sync_buf. destruct (dirty (bufs s b)) eqn:Hd.
  - do 3 (erewrite bind_ok by reflexivity). cbn. by rewrite !fupd_same, !fupd_fupd.
  - erewrite bind_ok.
    2: { erewrite bind_ok by (apply idewait_ok; exact Hh). cbn. reflexivity. }
    do 2 (erewrite bind_ok by reflexivity). cbn. rewrite !fupd_same, !fupd_fupd. simpl.
    by rewrite Hdin.
Qed.

Lemma interrupt_ok b q s :
  drv_inv s -> idequeue s = b :: q ->
  exists s', disk_interrupt s = Ok [ChBuf b] s' /\ completed b s s' /\ idequeue s' = q /\ drv_inv s'.
Proof.
  intros [Hh Hp Hb Hn] Hq. rewrite Hq in *. apply list.NoDup_cons in Hn as [Hnin Hn].
  destruct (hw_run_request s _ Hp) as (Hr1 & Hr2 & Hr3 & Hr4 & Hr5).
  unfold disk_interrupt. erewrite bind_ok by reflexivity.
  erewrite (ideintr_finish b q _ (disk (hwr s))); [| |done|done]; simpl.
  2: { unfold healthy in *. simpl. by rewrite Hr3. }
  set (s1 := Ide _ q _ _).
  assert (Hh1 : healthy s1) by (unfold healthy in *; simpl; by rewrite Hr3).
  assert (Hcomp : forall h, disk h = disk (hw_run (hwr s)) -> writes h = writes (hw_run (hwr s)) ->
    completed b s (Ide (bufs s1) q (havedisk1 s) h)).
  { intros h E1 E2. split; simpl; [done | | |done]; congruence. }
  assert (Hbk : forall j, j ∈ q -> 0 <= blockno (bufs s1 j) < FSSIZE).
  { intros j Hj. simpl. rewrite fupd_other by (intros ->; done). apply Hb. by right. }
  destruct q as [|b' q'].
  - erewrite bind_ok by reflexivity. exists s1.
    split_and!; [done | by apply Hcomp | done | by split].
  - destruct (idestart_ok b' s1 Hh1) as (h & Hs & E1 & E2 & E3 & E4).
    { apply Hbk. by left. }
    erewrite bind_ok by exact Hs. exists (Ide (bufs s1) (b' :: q') (havedisk1 s) h).
    split_and!; [done | | done |].
    + apply Hcomp; [by rewrite E2 | by rewrite E3].
    + split; simpl; [unfold healthy in *; simpl in *; by rewrite E4 | done | exact Hbk | done].
Qed.

(** A request the driver accepts. *)
Record submittable (b : nat) (s : ide) : Prop := {
  sb_locked : Sleep.slocked (lock (bufs s b)) = true;
  sb_todo : valid (bufs s b) && negb (dirty (bufs s b)) = false;
  sb_disk : dev (bufs s b) = 0 \/ havedisk1 s = true;
  sb_block : 0 <= blockno (bufs s b) < FSSIZE;
  sb_fresh : b ∉ idequeue s
}.

Lemma submit_ok b s :
  drv_inv s -> submittable b s ->
  exists s', iderw_submit b s = Ok tt s' /\ drv_inv s' /\ bufs s' = bufs s /\
    idequeue s' = idequeue s ++ [b] /\ havedisk1 s' = havedisk1 s /\
    disk (hwr s') = disk (hwr s) /\ writes (hwr s') = writes (hwr s).
Proof.
  intros [Hh Hp Hb Hn] [Hl Ht Hd Hk Hf]. unfold iderw_submit.
  erewrite bind_ok by reflexivity. unfold Sleep.holdingsleep. rewrite Hl. simpl.
  rewrite valid_bit, dirty_bit in Ht. rewrite ready_test, Ht.
  erewrite bind_ok by reflexivity.
  assert (negb (dev (bufs s b) =? 0) && negb (havedisk1 s) = false) as ->.
  { destruct Hd as [-> | ->]; [done | by rewrite andb_false_r]. }
  erewrite bind_ok by reflexivity. erewrite bind_ok by reflexivity. simpl.
  set (s1 := Ide (bufs s) (idequeue s ++ [b]) (havedisk1 s) (hwr s)).
  assert (Hbk : forall j, j ∈ idequeue s ++ [b] -> 0 <= blockno (bufs s j) < FSSIZE).
  { intros j [Hj | ->%list_elem_of_singleton]%elem_of_app; [by apply Hb | done]. }
  assert (Hnd : NoDup (idequeue s ++ [b])).
  { apply list.NoDup_app. split_and!; [done | | apply NoDup_singleton].
    intros j Hj ->%list_elem_of_singleton. done. }
  case_decide as Hhead.
  - assert (idequeue s = []) as Hnil.
    { destruct (idequeue s) as [|c q]; [done |]. simpl in Hhead. injection Hhead as ->.
      exfalso. apply Hf. by left. }
    destruct (idestart_ok b s1 Hh Hk) as (h & Hs & E1 & E2 & E3 & E4).
    exists (Ide (bufs s) (idequeue s ++ [b]) (havedisk1 s) h). split; [exact Hs |].
    split; [| split_and!; done]. split; simpl; [unfold healthy in *; simpl; by rewrite E4 | | done | done].
    by rewrite Hnil.
  - exists s1. split_and!; try done. split; simpl; [done | | done | done].
    rewrite Hp. destruct (idequeue s); done.
Qed.

(** [iderw] on an idle disk syncs the buffer with its sector and returns. *)
Lemma iderw_ok b s :
  drv_inv s -> idequeue s = [] -> submittable b s ->
  exists s', iderw b s = Ok tt s' /\ completed b s s' /\ idequeue s' = [] /\ drv_inv s'.
Proof.
  intros Hi Hq Hs. destruct (submit_ok b s Hi Hs) as (s1 & H1 & Hi1 & Eb & Eq & Eh & Ed & Ew).
  rewrite Hq in Eq. destruct (interrupt_ok b [] s1 Hi1 Eq) as (s2 & H2 & Hc & Hq2 & Hi2).
  exists s2. unfold iderw. erewrite bind_ok by exact H1. erewrite bind_ok by exact H2.
  destruct Hc as [C1 C2 C3 C4]. split_and!; [| | done | done].
  - unfold iderw_wait. erewrite bind_ok by reflexivity. rewrite C1, fupd_same. simpl.
    rewrite ready_test. destruct (done_flags_bits (flags (bufs s1 b))) as [-> ->]. done.
  - split; congruence.
Qed.

(** ** The driver under concurrent use *)

(** The driver, the buffers submitted so far and the buffers whose waiters the interrupt handler has
    woken so far, both in order. *)
Record run := Run { drv : ide; submitted : list nat; served : list nat }.

Definition woken_bufs (ws : list chan) : list nat :=
  omap (fun ch => match ch with ChBuf b => Some b | _ => None end) ws.

(** Any process may submit a buffer it has locked, the disk may interrupt when it has finished, and
    the holder of a buffer that is not queued may change it in any way. *)
Inductive ide_step : run -> run -> Prop :=
| is_submit b s s' sub ser :
    submittable b s -> iderw_submit b s = Ok tt s' -> ide_step (Run s sub ser) (Run s' (sub ++ [b]) ser)
| is_interrupt ws s s' sub ser :
    idequeue s <> [] -> disk_interrupt s = Ok ws s' ->
    ide_step (Run s sub ser) (Run s' sub (ser ++ woken_bufs ws))
| is_owner b bf s sub ser :
    b ∉ idequeue s ->
    ide_step (Run s sub ser) (Run (Ide (fupd (bufs s) b bf) (idequeue s) (havedisk1 s) (hwr s)) sub ser).

(** What is submitted and not served is in the queue, in that order. *)
Definition run_inv (x : run) : Prop :=
  drv_inv (drv x) /\ submitted x = served x ++ idequeue (drv x).

Lemma run_inv_step x x' : run_inv x -> ide_step x x' -> run_inv x'.
Proof.
  intros [Hi Hq] Hs. destruct Hs as [b s s' sub ser Hb Hs | ws s s' sub ser Hne Hs | b bf s sub ser Hb];
    unfold run_inv; simpl in *.
  - destruct (submit_ok b s Hi Hb) as (s1 & H1 & Hi1 & _ & Hq1 & _).
    rewrite H1 in Hs. injection Hs as <-. split; [done |]. by rewrite Hq1, Hq, app_assoc.
  - destruct (idequeue s) as [|b q] eqn:E; [done |].
    destruct (interrupt_ok b q s Hi E) as (s1 & H1 & _ & Hq1 & Hi1).
    rewrite H1 in Hs. injection Hs as <- <-. split; [done |]. simpl. by rewrite Hq1, Hq, <- app_assoc.
  - split; [| done]. destruct Hi as [Hh Hp Hbk Hn]. split; simpl; [done | | | done].
    + rewrite Hp. destruct (idequeue s) as [|c q]; [done |].
      rewrite fupd_other; [done |]. intros ->. apply Hb. by left.
    + intros j Hj. rewrite fupd_other; [by apply Hbk |]. intros ->. done.
Qed.

(** A driver with nothing to do. *)
Definition idle (s : ide) : Prop := healthy s /\ idequeue s = [] /\ pending (hwr s) = None.

Lemma idle_inv s : idle s -> drv_inv s.
Proof.
  intros (Hh & Hq & Hp). split; rewrite ?Hq; [done | done | | apply NoDup_nil_2].
  intros b Hb. by apply not_elem_of_nil in Hb.
Qed.

Lemma done_flags_eq f :
  done_flags f = Z.lor (Z.land f (Z.lnot B_DIRTY)) B_VALID /\
  (Z.testbit f 2 = false -> done_flags f = Z.lor f B_VALID).
Proof.
  unfold done_flags. split.
  - rewrite Z.land_lor_distr_l. done.
  - intros Hd. apply Z.bits_inj'. intros n Hn.
    rewrite Z.land_spec, Z.lor_spec, Z.lnot_spec by done.
    destruct (decide (n = 2)) as [-> | Hne]; [by rewrite Hd |].
    change B_DIRTY with (2 ^ 2). rewrite Z.pow2_bits_false by lia. by rewrite andb_true_r.
Qed.

(** ** Properties *)

(** C36: the disk serves requests one at a time in the order they were submitted.  Starting idle,
    whatever processes submit and whatever the holders of other buffers do meanwhile, the buffers
    submitted are those served so far followed by those in the queue, each list in order: no request
    overtakes another, none is lost and none is served twice.  When the disk interrupts, the
    earliest request not served yet is completed: a dirty buffer's bytes are on its sector, a clean
    one holds its sector's bytes, it is marked valid and clean, its waiter is woken and passes its
    test, no other buffer or sector changes, and the rest of the queue stays in order. *)
Theorem ide_completes_in_order (s0 : ide) (x : run) :
  idle s0 -> reach ide_step (Run s0 [] []) x ->
  submitted x = served x ++ idequeue (drv x) /\
  forall b q, idequeue (drv x) = b :: q ->
    exists s', disk_interrupt (drv x) = Ok [ChBuf b] s' /\ completed b (drv x) s' /\ idequeue s' = q /\
      iderw_wait b s' = Ok tt s'.
Proof.
  intros Hs0 Hr. assert (Hi : run_inv x).
  { eapply reach_invariant; [| apply run_inv_step | exact Hr].
    split; [by apply idle_inv |]. destruct Hs0 as (_ & Hq & _). simpl. by rewrite Hq. }
  destruct Hi as [Hi Hsub]. split; [done |]. intros b q Hq.
  destruct (interrupt_ok b q (drv x) Hi Hq) as (s' & H & Hc & Hq' & _).
  exists s'. split_and!; [done | done | done |].
  unfold iderw_wait. erewrite bind_ok by reflexivity.
  rewrite (cp_bufs b (drv x) s' Hc), fupd_same. simpl. rewrite ready_test.
  destruct (done_flags_bits (flags (bufs (drv x) b))) as [-> ->]. done.
Qed.

(** An idle disk 1 whose blocks all hold sevens, and one locked buffer for block 5. *)
Definition demo_ide : ide :=
  Ide (fun _ => Buf 0 1 5 (Sleep.SL true 1) 1 [0]) [] true
    (Hw (fun _ => 0) 0x40 None [] (fun _ _ => [7]) []).

Lemma demo_submittable : submittable 3 demo_ide.
Proof. split; [done | done | by right | by vm_compute | apply not_elem_of_nil]. Qed.

(** Buffers 3, 4 and 5 are submitted one after the other; then the disk interrupts, and once more. *)
Lemma ide_completes_in_order_witness :
  exists s s' s'' : ide, disk_interrupt s = Ok [ChBuf 3] s' /\ idequeue s' = [4%nat; 5%nat] /\
    disk_interrupt s' = Ok [ChBuf 4] s'' /\ completed 4 s' s'' /\ idequeue s'' = [5%nat].
Proof.
  set (fin := fun (m : M ide unit) s => match m s with Ok _ s' => s' | _ => s end).
  set (s1 := fin (iderw_submit 3) demo_ide). set (s2 := fin (iderw_submit 4) s1). set (s3 := fin (iderw_submit 5) s2).
  assert (Hr : reach ide_step (Run demo_ide [] []) (Run s3 [3; 4; 5]%nat [])).
  { apply (reach_step _ _ (Run s2 [3; 4]%nat [])); [apply (reach_step _ _ (Run s1 [3]%nat [])); [apply (reach_step _ _ (Run demo_ide [] [])); [apply reach_refl |] |] |].
    - apply (is_submit 3 _ _ []); [apply demo_submittable | by vm_compute].
    - apply (is_submit 4 _ _ [3%nat]); [| by vm_compute]. split; [done | done | by right | by vm_compute |].
      change (idequeue s1) with [3%nat]. by rewrite list_elem_of_singleton.
    - apply (is_submit 5 _ _ [3%nat; 4%nat]); [| by vm_compute]. split; [done | done | by right | by vm_compute |].
      change (idequeue s2) with [3%nat; 4%nat]. rewrite !elem_of_cons, elem_of_nil. lia. }
  assert (Hd : idle demo_ide) by (by split_and!).
  destruct (ide_completes_in_order demo_ide _ Hd Hr) as [_ H1].
  destruct (H1 3%nat [4%nat; 5%nat] eq_refl) as (s' & E1 & _ & Q1 & _).
  assert (Hr' : reach ide_step (Run demo_ide [] []) (Run s' [3; 4; 5]%nat [3%nat])).
  { eapply reach_step; [exact Hr |]. apply (is_interrupt [ChBuf 3] s3 s' _ []); [done | exact E1]. }
  destruct (ide_completes_in_order demo_ide _ Hd Hr') as [_ H2].
  destruct (H2 4%nat [5%nat] Q1) as (s'' & E2 & C2 & Q2 & _). by exists s3, s', s''.
Defined.

(** The two drivers agree: for a request to disk 1 on an idle, healthy disk, [iderw] of ide.c
    and [iderw] of memide.c both return, and leave the same buffers, the same sectors and the same
    sequence of writes. *)
Theorem memide_equivalent (b : nat) (s : ide) :
  idle s -> submittable b s -> dev (bufs s b) = 1 ->
  exists s1 s2, iderw b s = Ok tt s1 /\ mem_iderw FSSIZE b s = Ok tt s2 /\
    bufs s1 = bufs s2 /\ disk (hwr s1) = disk (hwr s2) /\ writes (hwr s1) = writes (hwr s2).
Proof.
  intros Hi Hs Hd. pose proof Hi as (_ & Hq & _).
  destruct (iderw_ok b s (idle_inv s Hi) Hq Hs) as (s1 & H1 & [C1 C2 C3 _] & _).
  exists s1. destruct Hs as [Hl Ht _ Hk _]. unfold mem_iderw.
  erewrite bind_ok by reflexivity. unfold Sleep.holdingsleep. rewrite Hl. simpl.
  rewrite valid_bit, dirty_bit in Ht. rewrite ready_test, Ht, Hd. simpl.
  rewrite (proj2 (Z.leb_gt _ _)) by lia.
  unfold sync_buf, sync_disk, sync_writes in *. rewrite Hd in *. change (Z.land 1 1) with 1 in *.
  destruct (done_flags_eq (flags (bufs s b))) as [F1 F2]. rewrite dirty_bit in *.
  destruct (Z.testbit (flags (bufs s b)) 2).
  - erewrite bind_ok by reflexivity. eexists. split_and!; [exact H1 | reflexivity | ..]; simpl.
    + rewrite C1, fupd_same, fupd_fupd, F1. unfold set_flags. simpl. by rewrite Hd.
    + by rewrite C2.
    + by rewrite C3.
  - erewrite bind_ok by reflexivity. eexists. split_and!; [exact H1 | reflexivity | ..]; simpl.
    + rewrite C1, fupd_same, fupd_fupd, F2 by done. unfold set_flags, set_data. simpl. by rewrite Hd.
    + by rewrite C2.
    + by rewrite C3, app_nil_r.
Qed.

Lemma memide_equivalent_witness :
  exists s1 s2, iderw 3 demo_ide = Ok tt s1 /\ mem_iderw FSSIZE 3 demo_ide = Ok tt s2 /\
    bufs s1 = bufs s2.
Proof.
  destruct (memide_equivalent 3 demo_ide) as (s1 & s2 & ? & ? & ? & _).
  - by split_and!.
  - apply demo_submittable.
  - done.
  - by exists s1, s2.
Defined.

(** A failed read is reported as success.  When the drive signals an error for a read,
    [ideintr] does not copy the sector but still sets B_VALID: [iderw] returns and the buffer is
    marked as holding the block although its bytes are the stale ones it had before. *)
Theorem ide_read_error_marks_valid :
  exists s s' : ide, status (hwr s) = Z.lor IDE_DRDY IDE_ERR /\ valid (bufs s 3%nat) = false /\
    iderw 3 s = Ok tt s' /\ valid (bufs s' 3%nat) = true /\
    data (bufs s' 3%nat) = data (bufs s 3%nat) /\
    data (bufs s' 3%nat) <> disk (hwr s') 1 (blockno (bufs s' 3%nat)).
Proof.
  set (s := Ide (bufs demo_ide) [] true (Hw (fun _ => 0) (Z.lor IDE_DRDY IDE_ERR) None []
              (fun _ _ => [7]) [])).
  destruct (iderw 3 s) as [[] s' | |] eqn:H; [| by vm_compute in H ..].
  exists s, s'. vm_compute in H. injection H as <-. by vm_compute.
Qed.
