(* ===== verification/BlockStore.v ===== *)
(** * The interface between the buffer cache and its clients

    log.c and fs.c use the disk through [bread], [bwrite], [brelse] and the fields of the buffer
    they hold.  [BlockStore] names these operations; [BlockStoreLaws] says what they promise, in
    terms of an abstract view: the current contents of every block, the contents of the disk, the
    blocks whose buffers are held or dirty, and the sequence of writes that reached the disk.
    [Bio] provides the instance; [Log] is proved against the interface. *)
From S2P Require Import Prelude Ide.
#[local] Open Scope Z_scope.

Definition ROOTDEV : Z := 1.
Definition NBUF : nat := 30.

Record bview := BView {
  v_data : Z -> block;            (* what a reader of the block gets *)
  v_disk : Z -> block;            (* what is on the disk *)
  v_dirty : gset Z;               (* blocks pinned in the cache by B_DIRTY *)
  v_held : gset Z;                (* blocks whose buffer is held *)
  v_writes : list (Z * block)     (* disk writes, oldest first *)
}.

(** Point update of block contents. *)
Definition bupd (f : Z -> block) (b : Z) (x : block) : Z -> block :=
  fun c => if decide (c = b) then x else f c.

Lemma bupd_same f b x : bupd f b x b = x.
Proof. unfold bupd. by rewrite decide_True. Qed.

Lemma bupd_other f b x c : c <> b -> bupd f b x c = f c.
Proof. intros. unfold bupd. by rewrite decide_False. Qed.

(** The disk after a sequence of writes. *)
Definition apply_writes (d : Z -> block) (ws : list (Z * block)) : Z -> block :=
  foldl (fun d w => bupd d w.1 w.2) d ws.

Lemma apply_writes_app d ws ws' :
  apply_writes d (ws ++ ws') = apply_writes (apply_writes d ws) ws'.
Proof. apply foldl_app. Qed.

(** The view after each operation. *)
Definition v_hold (b : Z) (v : bview) : bview :=
  BView (v_data v) (v_disk v) (v_dirty v) ({[b]} ∪ v_held v) (v_writes v).
Definition v_drop (b : Z) (v : bview) : bview :=
  BView (v_data v) (v_disk v) (v_dirty v) (v_held v ∖ {[b]}) (v_writes v).
Definition v_set (b : Z) (x : block) (v : bview) : bview :=
  BView (bupd (v_data v) b x) (v_disk v) (v_dirty v) (v_held v) (v_writes v).
Definition v_pin (b : Z) (v : bview) : bview :=
  BView (v_data v) (v_disk v) ({[b]} ∪ v_dirty v) (v_held v) (v_writes v).
Definition v_write (b : Z) (v : bview) : bview :=
  BView (v_data v) (bupd (v_disk v) b (v_data v b)) (v_dirty v ∖ {[b]}) (v_held v)
    (v_writes v ++ [(b, v_data v b)]).

Class BlockStore (S : Type) := {
  bread : Z -> Z -> M S nat;
  bwrite : nat -> M S unit;
  brelse : nat -> M S unit;
  buf_data : nat -> S -> block;            (* b->data *)
  buf_no : nat -> S -> Z;                  (* b->blockno *)
  buf_set : nat -> block -> M S unit;      (* stores into b->data *)
  buf_pin : nat -> M S unit                (* b->flags |= B_DIRTY *)
}.

Class BlockStoreLaws (S : Type) `{BlockStore S} := {
  abs : S -> bview -> Prop;
  is_buf : S -> nat -> Z -> Prop;          (* buffer [i] is the one for block [b] *)

  (** A held block's buffer reads as the block. *)
  data_law s v i b : abs s v -> is_buf s i b -> buf_data i s = v_data v b;
  no_law s i b : is_buf s i b -> buf_no i s = b;
  (** What is neither dirty nor held is on the disk as it is read. *)
  clean_law s v b : abs s v -> b ∉ v_dirty v ∪ v_held v -> v_data v b = v_disk v b;

  bread_law s v b :
    abs s v -> 0 <= b < FSSIZE -> b ∉ v_held v ->
    b ∈ v_dirty v \/ (size (v_dirty v ∪ v_held v) < NBUF)%nat ->
    exists i s', bread ROOTDEV b s = Ok i s' /\ abs s' (v_hold b v) /\ is_buf s' i b /\
      (forall j c, c ∈ v_held v -> is_buf s j c -> is_buf s' j c);
  brelse_law s v i b :
    abs s v -> b ∈ v_held v -> is_buf s i b ->
    b ∈ v_dirty v \/ v_data v b = v_disk v b ->
    exists s', brelse i s = Ok tt s' /\ abs s' (v_drop b v) /\
      (forall j c, c <> b -> c ∈ v_held v -> is_buf s j c -> is_buf s' j c);
  (** The bytes stay in the buffer until it is used for another block. *)
  brelse_data_law s i s' : brelse i s = Ok tt s' -> buf_data i s' = buf_data i s;
  bwrite_law s v i b :
    abs s v -> b ∈ v_held v -> is_buf s i b ->
    exists s', bwrite i s = Ok tt s' /\ abs s' (v_write b v) /\
      (forall j c, is_buf s j c -> is_buf s' j c);
  set_law s v i b x :
    abs s v -> b ∈ v_held v -> is_buf s i b ->
    exists s', buf_set i x s = Ok tt s' /\ abs s' (v_set b x v) /\
      (forall j c, is_buf s j c -> is_buf s' j c);
  pin_law s v i b :
    abs s v -> b ∈ v_held v -> is_buf s i b ->
    exists s', buf_pin i s = Ok tt s' /\ abs s' (v_pin b v) /\
      (forall j c, is_buf s j c -> is_buf s' j c)
}.
