(* ===== verification/Bytes.v ===== *)
(** * Words in a block of bytes

    On-disk structures (the log header, the superblock, inodes, directory entries, indirect blocks)
    are C structures overlaid on the 512 bytes of a buffer.  A block is a list of bytes; a
    little-endian word is read and stored at a byte offset. *)
From S2P Require Import Prelude.
#[local] Open Scope Z_scope.

Definition getb (x : list Z) (o : nat) : Z := x !!! o.
Definition putb (x : list Z) (o : nat) (v : Z) : list Z := <[o := v mod 256]> x.

Definition get16 (x : list Z) (o : nat) : Z := getb x o + 256 * getb x (o + 1).
Definition get32 (x : list Z) (o : nat) : Z :=
  getb x o + 256 * getb x (o + 1) + 65536 * getb x (o + 2) + 16777216 * getb x (o + 3).
Definition put16 (x : list Z) (o : nat) (v : Z) : list Z :=
  putb (putb x o v) (o + 1) (v / 256).
Definition put32 (x : list Z) (o : nat) (v : Z) : list Z :=
  putb (putb (putb (putb x o v) (o + 1) (v / 256)) (o + 2) (v / 65536)) (o + 3) (v / 16777216).

Lemma getb_putb x o v o' :
  (o < length x)%nat -> getb (putb x o v) o' = if decide (o' = o) then v mod 256 else getb x o'.
Proof.
  intros Ho. unfold getb, putb. case_decide as E.
  - subst. by rewrite list_lookup_total_insert_eq.
  - by rewrite list_lookup_total_insert_ne.
Qed.

Lemma length_putb x o v : length (putb x o v) = length x.
Proof. apply length_insert. Qed.

Lemma length_put16 x o v : length (put16 x o v) = length x.
Proof. unfold put16. by rewrite !length_putb. Qed.

Lemma length_put32 x o v : length (put32 x o v) = length x.
Proof. unfold put32. by rewrite !length_putb. Qed.

(** Decides the byte indices of a goal about nested stores. *)
Ltac bytes :=
  repeat (rewrite getb_putb by (rewrite ?length_putb; lia));
  repeat (case_decide; try lia).

Lemma get32_put32 x o v : (o + 4 <= length x)%nat -> get32 (put32 x o v) o = u32 v.
Proof. intros Ho. unfold get32, put32. bytes; word. Qed.

Lemma get32_put32_other x o v o' :
  (o + 4 <= length x)%nat -> (o' + 4 <= o \/ o + 4 <= o')%nat ->
  get32 (put32 x o v) o' = get32 x o'.
Proof. intros Ho Hd. unfold get32, put32. bytes; done. Qed.

Lemma get16_put16 x o v : (o + 2 <= length x)%nat -> get16 (put16 x o v) o = u16 v.
Proof. intros Ho. unfold get16, put16. bytes; word. Qed.

Lemma get16_put16_other x o v o' :
  (o + 2 <= length x)%nat -> (o' + 2 <= o \/ o + 2 <= o')%nat ->
  get16 (put16 x o v) o' = get16 x o'.
Proof. intros Ho Hd. unfold get16, put16. bytes; done. Qed.

Lemma get32_put16_other x o v o' :
  (o + 2 <= length x)%nat -> (o' + 4 <= o \/ o + 2 <= o')%nat ->
  get32 (put16 x o v) o' = get32 x o'.
Proof. intros Ho Hd. unfold get32, put16. bytes; done. Qed.

Lemma get16_put32_other x o v o' :
  (o + 4 <= length x)%nat -> (o' + 2 <= o \/ o + 4 <= o')%nat ->
  get16 (put32 x o v) o' = get16 x o'.
Proof. intros Ho Hd. unfold get16, put32. bytes; done. Qed.

#[export] Hint Rewrite length_putb length_put16 length_put32 : xv6.
