(* ===== verification/Bio.v ===== *)
(** * bio.c: the buffer cache

    Thirty buffers on a doubly linked list through [prev]/[next], most recently used first, with
    [bcache.head] as the sentinel (here index 30).  The code is modelled at the level of the links;
    [dll] relates them to the list they represent, and [babs] relates the whole cache to the
    abstract view of [BlockStore].  The sleep lock of a buffer is taken by the running process
    [curpid]; a lock that is taken makes it sleep. *)
From S2P Require Import Prelude Lock Ide BlockStore.
#[local] Open Scope Z_scope.

Definition HEAD : nat := NBUF.

Record bcache := Bcache {
  prv : nat -> nat;
  nxt : nat -> nat;
  io : ide
}.

(** ** The code *)

Definition b_io {A} (m : M ide A) : M bcache A :=
  zoom io (fun x s => Bcache (prv s) (nxt s) x) m.
Definition b_buf (i : nat) (s : bcache) : buf := bufs (io s) i.

(** [b->next = head.next; b->prev = &head; head.next->prev = b; head.next = b;] *)
Definition push_front (b : nat) (s : bcache) : bcache :=
  let n1 := fupd (nxt s) b (nxt s HEAD) in
  let p1 := fupd (prv s) b HEAD in
  let p2 := fupd p1 (n1 HEAD) b in
  Bcache p2 (fupd n1 HEAD b) (io s).

(** [b->next->prev = b->prev; b->prev->next = b->next;] *)
Definition unlink (b : nat) (s : bcache) : bcache :=
  let p1 := fupd (prv s) (nxt s b) (prv s b) in
  Bcache p1 (fupd (nxt s) (p1 b) (nxt s b)) (io s).

Definition set_lock (l : Sleep.sleeplock) (b : buf) : buf :=
  Buf (flags b) (dev b) (blockno b) l (refcnt b) (data b).
Definition set_refcnt (r : Z) (b : buf) : buf :=
  Buf (flags b) (dev b) (blockno b) (lock b) r (data b).

Fixpoint binit_loop (n b : nat) : M bcache unit :=
  match n with
  | O => mret tt
  | S n' => modify (push_front b) ;; b_io (on_buf b (set_lock Sleep.initsleeplock)) ;;
            binit_loop n' (S b)
  end.

Definition binit : M bcache unit :=
  modify (fun s => Bcache (fupd (prv s) HEAD HEAD) (fupd (nxt s) HEAD HEAD) (io s)) ;;
  binit_loop NBUF 0.

(** [for(b = start; b != &bcache.head; b = link b) if(test b) ...]: the first buffer that passes. *)
Fixpoint scan (link : nat -> nat) (test : nat -> bool) (fuel b : nat) : option nat :=
  match fuel with
  | O => None
  | S f => if decide (b = HEAD) then None
           else if test b then Some b else scan link test f (link b)
  end.

Section code.
Variable curpid : Z.

(** [acquiresleep(&b->lock)] on the buffer's own lock. *)
Definition buf_lock (b : nat) : M bcache unit := fun s =>
  match Sleep.acquiresleep (Z.of_nat b) curpid (lock (b_buf b s)) with
  | Ok _ l => b_io (on_buf b (set_lock l)) s
  | Panicked msg => Panicked msg
  | Slept c _ => Slept c s
  end.

Definition buf_unlock (b : nat) : M bcache unit := fun s =>
  match Sleep.releasesleep (Z.of_nat b) (lock (b_buf b s)) with
  | Ok _ l => b_io (on_buf b (set_lock l)) s
  | Panicked msg => Panicked msg
  | Slept c _ => Slept c s
  end.

Definition bget (d no : Z) : M bcache nat :=
  s ← gets id ;
  (* Is the block already cached? *)
  match scan (nxt s) (fun b => (dev (b_buf b s) =? d) && (blockno (b_buf b s) =? no))
          (S NBUF) (nxt s HEAD) with
  | Some b =>
      b_io (on_buf b (fun bf => set_refcnt (refcnt bf +u 1) bf)) ;; buf_lock b ;; mret b
  | None =>
      (* Not cached; recycle an unused buffer. *)
      match scan (prv s) (fun b => (refcnt (b_buf b s) =? 0) && negb (dirty (b_buf b s)))
              (S NBUF) (prv s HEAD) with
      | Some b =>
          b_io (on_buf b (fun bf => Buf 0 d no (lock bf) 1 (data bf))) ;; buf_lock b ;; mret b
      | None => panic "bget: no buffers"
      end
  end.

Definition bread (d no : Z) : M bcache nat :=
  b ← bget d no ;
  bf ← gets (b_buf b) ;
  (if valid bf then mret tt else b_io (iderw b)) ;;
  mret b.

Definition bwrite (b : nat) : M bcache unit :=
  bf ← gets (b_buf b) ;
  if negb (Sleep.holdingsleep (lock bf)) then panic "bwrite"
  else b_io (on_buf b (fun bf => set_flags (Z.lor (flags bf) B_DIRTY) bf)) ;; b_io (iderw b).

Definition brelse (b : nat) : M bcache unit :=
  bf ← gets (b_buf b) ;
  if negb (Sleep.holdingsleep (lock bf)) then panic "brelse"
  else
    buf_unlock b ;;
    b_io (on_buf b (fun bf => set_refcnt (refcnt bf -u 1) bf)) ;;
    bf ← gets (b_buf b) ;
    if refcnt bf =? 0 then modify (fun s => push_front b (unlink b s)) else mret tt.
End code.

(** ** The list the links represent *)

(** Following [f] from [a] passes through the nodes of [L] and arrives at [z]. *)
Fixpoint path (f : nat -> nat) (a : nat) (L : list nat) (z : nat) : Prop :=
  match L with
  | [] => f a = z
  | b :: L' => f a = b /\ path f b L' z
  end.

(** The last node of [a :: L]. *)
Fixpoint lst (a : nat) (L : list nat) : nat :=
  match L with [] => a | b :: L' => lst b L' end.

Record dll (s : bcache) (L : list nat) : Prop := {
  dl_nxt : path (nxt s) HEAD L HEAD;
  dl_prv : path (prv s) HEAD (rev L) HEAD;
  dl_nodup : NoDup (HEAD :: L)
}.

Section paths.
Implicit Types (f g : nat -> nat) (L : list nat).

Lemma path_app f a L1 b L2 z : path f a (L1 ++ b :: L2) z <-> path f a L1 b /\ path f b L2 z.
Proof. revert a. induction L1 as [|c L1 IH]; intros a; simpl; [done |]. rewrite IH. tauto. Qed.

Lemma path_ext f g a L z : (forall x, x ∈ a :: L -> g x = f x) -> path f a L z -> path g a L z.
Proof.
  revert a. induction L as [|b L IH]; intros a He; simpl.
  - intros <-. apply He. by left.
  - intros [<- Hp]. split; [apply He; by left |]. apply IH; [| done].
    intros x Hx. apply He. by right.
Qed.

Lemma lst_elem a L : lst a L ∈ a :: L.
Proof. revert a. induction L as [|b L IH]; intros a; simpl; [by left | right; apply IH]. Qed.

Lemma lst_snoc a L x : lst a (L ++ [x]) = x.
Proof. revert a. induction L as [|b L IH]; intros a; simpl; [done | apply IH]. Qed.

(** The first node on the way is the last node of the reversed way. *)
Lemma path_first f a L z : path f a L z -> f a = lst z (rev L).
Proof. destruct L as [|b L]; simpl; [done |]. intros [-> _]. by rewrite lst_snoc. Qed.

Lemma path_last_upd f a L z z' :
  NoDup (a :: L) -> path f a L z -> path (fupd f (lst a L) z') a L z'.
Proof.
  revert a. induction L as [|b L IH]; intros a Hn; simpl.
  - intros _. apply fupd_same.
  - intros [<- Hp]. apply list.NoDup_cons in Hn as [Hni Hn]. split; [| by apply IH].
    apply fupd_other. intros E. pose proof (lst_elem (f a) L) as Hl. by rewrite <- E in Hl.
Qed.

(** Redirecting the node before [b] takes [b] out of the way. *)
Lemma path_remove f a L1 b L2 z :
  NoDup (a :: L1 ++ b :: L2) -> path f a (L1 ++ b :: L2) z ->
  path (fupd f (lst a L1) (f b)) a (L1 ++ L2) z.
Proof.
  intros Hn [H1 H2]%path_app. rewrite app_comm_cons in Hn.
  apply list.NoDup_app in Hn as (Hn1 & Hd & Hn2).
  pose proof (path_last_upd f a L1 b (f b) Hn1 H1) as Hu.
  destruct L2 as [|c L2]; simpl in *.
  - rewrite app_nil_r. by subst z.
  - destruct H2 as [E H2]. apply path_app. rewrite E in *. split; [done |].
    eapply path_ext; [| exact H2]. intros x Hx. apply fupd_other. intros ->.
    apply (Hd _ (lst_elem a L1)). by right.
Qed.
End paths.

Section dll_ops.
Implicit Types (s : bcache) (L : list nat).

Lemma dll_first s L : dll s L -> nxt s HEAD = lst HEAD (rev L).
Proof. intros [H _ _]. by apply path_first. Qed.

Lemma elem_of_rev (x : nat) L : x ∈ rev L <-> x ∈ L.
Proof. by rewrite !list_elem_of_In, <- in_rev. Qed.

Lemma nodup_rev L : NoDup (HEAD :: L) -> NoDup (HEAD :: rev L).
Proof.
  intros [Hn1 Hn2]%list.NoDup_cons. apply list.NoDup_cons. split; [by rewrite elem_of_rev |].
  by apply NoDup_ListNoDup, NoDup_rev, NoDup_ListNoDup.
Qed.

Lemma rev_mid (L1 L2 : list nat) b : rev (L1 ++ b :: L2) = rev L2 ++ b :: rev L1.
Proof. rewrite rev_app_distr. simpl. by rewrite <- app_assoc. Qed.

Lemma nodup_mid_notin (L1 L2 : list nat) b : NoDup (HEAD :: L1 ++ b :: L2) -> b ∉ HEAD :: L1 ++ L2.
Proof.
  intros [Hn1 Hn2]%list.NoDup_cons. rewrite not_elem_of_cons. split; [set_solver |].
  apply list.NoDup_app in Hn2 as (_ & Hn3 & [Hn4 _]%list.NoDup_cons).
  rewrite elem_of_app. intros [? | ?]; [apply (Hn3 b); [done | by left] | done].
Qed.

Lemma find_split test L i :
  List.find test L = Some i ->
  exists L1 L2, L = L1 ++ i :: L2 /\ test i = true /\ forall j, j ∈ L1 -> test j = false.
Proof.
  induction L as [|a L IH]; simpl; [done |]. destruct (test a) eqn:E.
  - intros [= ->]. exists [], L. split_and!; [done | done |]. intros j Hj. by apply not_elem_of_nil in Hj.
  - intros (L1 & L2 & -> & Ht & Hn)%IH. exists (a :: L1), L2. split_and!; [done | done |].
    intros j [-> | Hj]%elem_of_cons; [done | by apply Hn].
Qed.

Lemma unlink_dll s L1 b L2 : dll s (L1 ++ b :: L2) -> dll (unlink b s) (L1 ++ L2).
Proof.
  intros [Hx Hp Hn]. rewrite rev_mid in Hp.
  pose proof (nodup_rev _ Hn) as Hn'. rewrite rev_mid in Hn'.
  pose proof (proj1 (path_app _ _ _ _ _ _) Hx) as [Hx1 Hx2].
  pose proof (proj1 (path_app _ _ _ _ _ _) Hp) as [Hp1 Hp2].
  pose proof (path_first _ _ _ _ Hx2) as Ex.
  pose proof (path_first _ _ _ _ Hp2) as Ep. rewrite rev_involutive in Ep.
  assert (Hb : nxt s b <> b).
  { intros E. rewrite Ex in E. pose proof (lst_elem HEAD (rev L2)) as Hl. rewrite E in Hl.
    rewrite app_comm_cons in Hn'. apply list.NoDup_app in Hn' as (_ & Hd & _).
    apply (Hd b Hl). by left. }
  split; simpl.
  - rewrite fupd_other by done. rewrite Ep. by apply path_remove.
  - rewrite Ex, rev_app_distr. by apply path_remove.
  - apply list.NoDup_cons in Hn as [Hni Hn]. apply list.NoDup_cons. split.
    + set_solver.
    + apply list.NoDup_app in Hn as (H1 & H2 & H3). apply list.NoDup_cons in H3 as [H3 H4].
      apply list.NoDup_app. split_and!; [done | set_solver | done].
Qed.

Lemma push_front_dll s L b : dll s L -> b ∉ HEAD :: L -> dll (push_front b s) (b :: L).
Proof.
  intros Hd [Hb HbL]%not_elem_of_cons. pose proof (dll_first _ _ Hd) as Ef.
  destruct Hd as [Hx Hp Hn]. pose proof Hn as [Hni Hn']%list.NoDup_cons.
  split; simpl.
  - split; [apply fupd_same |]. destruct L as [|c L]; simpl in *.
    + rewrite fupd_other by done. by rewrite fupd_same.
    + destruct Hx as [Hc Hx]. split; [by rewrite fupd_other, fupd_same |].
      eapply path_ext; [| exact Hx]. intros x Hx'. rewrite !fupd_other; [done | |].
      * intros ->. done.
      * intros ->. done.
  - rewrite (fupd_other _ b _ HEAD) by done. rewrite Ef. apply path_app. split.
    + apply (path_last_upd _ HEAD (rev L) HEAD).
      * by apply nodup_rev.
      * eapply path_ext; [| exact Hp]. intros x Hx'. apply fupd_other. intros ->.
        apply elem_of_cons in Hx' as [? | Hx']; [done |].
        by rewrite elem_of_rev in Hx'.
    + simpl. rewrite fupd_other; [apply fupd_same |]. intros E.
      pose proof (lst_elem HEAD (rev L)) as Hl. rewrite <- E in Hl.
      apply elem_of_cons in Hl as [? | Hl]; [done |].
      by rewrite elem_of_rev in Hl.
  - apply list.NoDup_cons. split; [| by apply list.NoDup_cons].
    by apply not_elem_of_cons.
Qed.

(** A walk along the list finds the first node that passes the test. *)
Lemma scan_find link test L a fuel :
  path link a L HEAD -> HEAD ∉ L -> (length L < fuel)%nat ->
  scan link test fuel (link a) = List.find test L.
Proof.
  revert a fuel. induction L as [|b L IH]; intros a fuel Hp Hn Hf; destruct fuel as [|fuel];
    simpl in *; try lia.
  - by rewrite Hp, decide_True.
  - destruct Hp as [-> Hp]. apply not_elem_of_cons in Hn as [Hb Hn].
    rewrite decide_False by done. destruct (test b); [done |]. apply IH; [done | done | lia].
Qed.
End dll_ops.

(** ** The abstract view of the cache *)

Section refinement.
Variable curpid : Z.

(** A buffer that has never been used. *)
Definition unused (bf : buf) : Prop :=
  dev bf = 0 /\ dirty bf = false /\ refcnt bf = 0 /\ lock bf = Sleep.SL false 0.

(** A buffer that caches a block of the view. *)
Record holds (v : bview) (bf : buf) : Prop := {
  hd_dev : dev bf = ROOTDEV;
  hd_no : 0 <= blockno bf < FSSIZE;
  hd_valid : valid bf = true;
  hd_data : data bf = v_data v (blockno bf);
  hd_dirty : dirty bf = true <-> blockno bf ∈ v_dirty v;
  hd_held : (blockno bf ∈ v_held v /\ refcnt bf = 1 /\ lock bf = Sleep.SL true curpid) \/
            (blockno bf ∉ v_held v /\ refcnt bf = 0 /\ lock bf = Sleep.SL false 0)
}.

Definition caches (s : bcache) (i : nat) (b : Z) : Prop :=
  (i < NBUF)%nat /\ dev (b_buf i s) = ROOTDEV /\ blockno (b_buf i s) = b.

Record babs (s : bcache) (v : bview) : Prop := {
  ba_idle : idle (io s);
  ba_disk1 : havedisk1 (io s) = true;
  ba_lru : exists L, dll s L /\ L ≡ₚ seq 0 NBUF;
  ba_buf : forall i, (i < NBUF)%nat -> unused (b_buf i s) \/ holds v (b_buf i s);
  ba_inj : forall i j b, caches s i b -> caches s j b -> i = j;
  ba_cached : forall b, b ∈ v_dirty v ∪ v_held v -> exists i, caches s i b;
  ba_clean : forall b, b ∉ v_dirty v ∪ v_held v -> v_data v b = v_disk v b;
  ba_disk : forall b, disk (hwr (io s)) ROOTDEV b = v_disk v b;
  ba_writes : writes (hwr (io s)) = (fun w => (ROOTDEV, w.1, w.2)) <$> v_writes v
}.

(** Views that differ at block [b] at most. *)
Definition agree_off (b : Z) (v v' : bview) : Prop :=
  forall c, c <> b -> v_data v' c = v_data v c /\ v_disk v' c = v_disk v c /\
    (c ∈ v_dirty v' <-> c ∈ v_dirty v) /\ (c ∈ v_held v' <-> c ∈ v_held v).

Lemma holds_agree b v v' bf : agree_off b v v' -> blockno bf <> b -> holds v bf -> holds v' bf.
Proof.
  intros Ha Hb [H1 H2 H3 H4 H5 H6]. destruct (Ha _ Hb) as (E1 & E2 & E3 & E4).
  split; rewrite ?E1, ?E3, ?E4; done.
Qed.

Lemma caches_holds s v i b : babs s v -> caches s i b -> holds v (b_buf i s) /\ blockno (b_buf i s) = b.
Proof.
  intros Ha (Hi & Hd & Hb). split; [| done].
  destruct (ba_buf s v Ha i Hi) as [[Hu _] | ?]; [| done]. rewrite Hd in Hu. done.
Qed.

(** One buffer changes, and with it the view of its block. *)
Lemma babs_upd s v s' v' i bf' :
  babs s v -> (i < NBUF)%nat -> prv s' = prv s -> nxt s' = nxt s ->
  bufs (io s') = fupd (bufs (io s)) i bf' -> idle (io s') -> havedisk1 (io s') = true ->
  holds v' bf' -> agree_off (blockno bf') v v' ->
  (forall j, caches s j (blockno bf') -> j = i) ->
  (dev (b_buf i s) = ROOTDEV ->
   blockno (b_buf i s) = blockno bf' \/ blockno (b_buf i s) ∉ v_dirty v ∪ v_held v) ->
  (blockno bf' ∉ v_dirty v' ∪ v_held v' -> v_data v' (blockno bf') = v_disk v' (blockno bf')) ->
  (forall b, disk (hwr (io s')) ROOTDEV b = v_disk v' b) ->
  writes (hwr (io s')) = (fun w => (ROOTDEV, w.1, w.2)) <$> v_writes v' ->
  babs s' v'.
Proof.
  intros Ha Hi Hpv Hnx Hbufs Hidle Hd1 Hh Hag Hother Hold Hclean Hdisk Hwr.
  set (b := blockno bf') in *.
  assert (Hb : forall j, b_buf j s' = if decide (j = i) then bf' else b_buf j s).
  { intros j. unfold b_buf. rewrite Hbufs. done. }
  assert (Hc : forall j c, caches s' j c -> (j = i /\ c = b) \/ (j <> i /\ caches s j c /\ c <> b)).
  { intros j c (Hj & Hj2 & Hj3). rewrite Hb in *. case_decide as E; [by left |]. right.
    assert (caches s j c) by done. split_and!; [done | done |]. intros ->. by apply E, Hother. }
  assert (Hci : caches s' i b).
  { split_and!; rewrite ?Hb, ?decide_True by done; [done | apply Hh | done]. }
  destruct Ha as [_ _ Hl Hbuf Hinj Hcach Hcl _ _]. split.
  - done.
  - done.
  - destruct Hl as (L & [L1 L2 L3] & Hp). exists L. split; [| done].
    split; rewrite ?Hpv, ?Hnx; done.
  - intros j Hj. rewrite Hb. case_decide as E; [by right |].
    destruct (Hbuf j Hj) as [Hu | Hu]; [by left | right]. eapply holds_agree; [done | | done].
    intros Eb. apply E, Hother. split_and!; [done | apply Hu | done].
  - intros j k c [[-> ->] | (? & ? & ?)]%Hc [[-> Hcb] | (? & ? & ?)]%Hc; try done. eauto.
  - intros c Hin. destruct (decide (c = b)) as [-> | Hne]; [by exists i |].
    destruct (Hag c Hne) as (_ & _ & E3 & E4).
    assert (Hin' : c ∈ v_dirty v ∪ v_held v) by set_solver.
    destruct (Hcach c Hin') as (j & Hj & Hj2 & Hj3). exists j. unfold caches. rewrite Hb.
    case_decide as E; [| by split_and!]. subst j.
    destruct (Hold Hj2) as [? | Hn]; [congruence |]. rewrite Hj3 in Hn. done.
  - intros c Hin. destruct (decide (c = b)) as [-> | Hne]; [by apply Hclean |].
    destruct (Hag c Hne) as (E1 & E2 & E3 & E4). rewrite E1, E2. apply Hcl. set_solver.
  - done.
  - done.
Qed.

(** Relinking does not change what is cached. *)
Lemma babs_links s v s' L :
  babs s v -> io s' = io s -> dll s' L -> L ≡ₚ seq 0 NBUF -> babs s' v.
Proof.
  intros [H1 H2 H3 H4 H5 H6 H7 H8 H9] E Hd Hp.
  split; unfold caches, b_buf in *; rewrite ?E; try done. by exists L.
Qed.

(** ** Each operation against the view *)

(** The cache with buffer [i] replaced. *)
Definition put_buf (i : nat) (bf : buf) (s : bcache) : bcache :=
  Bcache (prv s) (nxt s)
    (Ide (fupd (bufs (io s)) i bf) (idequeue (io s)) (havedisk1 (io s)) (hwr (io s))).

Lemma b_io_on_buf i f s : b_io (on_buf i f) s = Ok tt (put_buf i (f (b_buf i s)) s).
Proof. done. Qed.

Lemma buf_unlock_ok i s :
  buf_unlock i s = Ok tt (put_buf i (set_lock (Sleep.SL false 0) (b_buf i s)) s).
Proof. done. Qed.

Lemma buf_lock_ok i s :
  Sleep.slocked (lock (b_buf i s)) = false ->
  buf_lock curpid i s = Ok tt (put_buf i (set_lock (Sleep.SL true curpid) (b_buf i s)) s).
Proof. intros H. unfold buf_lock, Sleep.acquiresleep. run_m. by rewrite H. Qed.

Lemma b_buf_put i bf s : b_buf i (put_buf i bf s) = bf.
Proof. apply fupd_same. Qed.

Lemma put_buf_put i bf bf' s : put_buf i bf' (put_buf i bf s) = put_buf i bf' s.
Proof. unfold put_buf. simpl. by rewrite fupd_fupd. Qed.

(** A change of buffer [i] in memory only, which caches the same block before and after. *)
Lemma babs_put s v v' i b bf' :
  babs s v -> caches s i b -> blockno bf' = b -> holds v' bf' -> agree_off b v v' ->
  v_disk v' = v_disk v -> v_writes v' = v_writes v ->
  (b ∉ v_dirty v' ∪ v_held v' -> v_data v' b = v_disk v' b) ->
  babs (put_buf i bf' s) v'.
Proof.
  intros Ha Hc Hb Hh Hag Hd Hw Hcl. pose proof Hc as (Hi & Hc2 & Hc3).
  eapply (babs_upd s v _ v' i bf'); try done; rewrite ?Hb; try done.
  - apply Ha.
  - apply Ha.
  - intros j Hj. by eapply ba_inj.
  - by left.
  - intros c. simpl. rewrite Hd. by apply Ha.
  - simpl. rewrite Hw. by apply Ha.
Qed.

Lemma caches_put s i b bf' j c :
  caches s i b -> dev bf' = ROOTDEV -> blockno bf' = b ->
  caches s j c -> caches (put_buf i bf' s) j c.
Proof.
  intros (Hi & H1 & H2) Hd Hb (Hj & H3 & H4). unfold caches, b_buf, fupd in *. simpl. unfold fupd.
  case_decide as E; [| done]. subst. split_and!; congruence.
Qed.

Lemma agree_set b x v : agree_off b v (v_set b x v).
Proof. intros c Hc. simpl. rewrite bupd_other by done. done. Qed.
Lemma agree_pin b v : agree_off b v (v_pin b v).
Proof. intros c Hc. simpl. set_solver. Qed.
Lemma agree_hold b v : agree_off b v (v_hold b v).
Proof. intros c Hc. simpl. set_solver. Qed.
Lemma agree_drop b v : agree_off b v (v_drop b v).
Proof. intros c Hc. simpl. set_solver. Qed.
Lemma agree_write b v : agree_off b v (v_write b v).
Proof. intros c Hc. simpl. rewrite bupd_other by done. set_solver. Qed.

(** The buffer of a held block. *)
Lemma held_buf s v i b :
  babs s v -> b ∈ v_held v -> caches s i b ->
  holds v (b_buf i s) /\ blockno (b_buf i s) = b /\
  refcnt (b_buf i s) = 1 /\ lock (b_buf i s) = Sleep.SL true curpid.
Proof.
  intros Ha Hh Hc. destruct (caches_holds s v i b Ha Hc) as [H Hb].
  destruct (hd_held v _ H) as [(_ & ? & ?) | [Hn _]]; [done |]. by rewrite Hb in Hn.
Qed.

Lemma pin_flags f :
  Z.testbit (Z.lor f B_DIRTY) 1 = Z.testbit f 1 /\ Z.testbit (Z.lor f B_DIRTY) 2 = true.
Proof. rewrite !Z.lor_spec. change (Z.testbit B_DIRTY 1) with false.
  change (Z.testbit B_DIRTY 2) with true. by rewrite orb_false_r, orb_true_r. Qed.

Lemma set_ok s v i b x :
  babs s v -> b ∈ v_held v -> caches s i b ->
  exists s', b_io (on_buf i (set_data x)) s = Ok tt s' /\ babs s' (v_set b x v) /\
    (forall j c, caches s j c -> caches s' j c).
Proof.
  intros Ha Hh Hc. destruct (held_buf s v i b Ha Hh Hc) as ([H1 H2 H3 H4 H5 H6] & Hb & _ & _).
  eexists. split; [apply b_io_on_buf |]. split.
  - eapply babs_put; try done; [| apply agree_set | set_solver].
    split; simpl; try done. by rewrite Hb, bupd_same.
  - intros j c. by eapply caches_put.
Qed.

Definition pin (bf : buf) : buf := set_flags (Z.lor (flags bf) B_DIRTY) bf.

Lemma pin_holds v bf : holds v bf -> holds (v_pin (blockno bf) v) (pin bf).
Proof.
  intros [H1 H2 H3 H4 H5 H6]. destruct (pin_flags (flags bf)) as [F1 F2]. split; simpl; try done.
  - rewrite valid_bit. change (Z.testbit (Z.lor (flags bf) B_DIRTY) 1 = true).
    by rewrite F1, <- valid_bit.
  - rewrite dirty_bit. change (flags (pin bf)) with (Z.lor (flags bf) B_DIRTY).
    rewrite F2. set_solver.
Qed.

Lemma pin_ok s v i b :
  babs s v -> b ∈ v_held v -> caches s i b ->
  exists s', b_io (on_buf i pin) s = Ok tt s' /\ babs s' (v_pin b v) /\
    (forall j c, caches s j c -> caches s' j c).
Proof.
  intros Ha Hh Hc. destruct (held_buf s v i b Ha Hh Hc) as (H & Hb & _ & _).
  eexists. split; [apply b_io_on_buf |]. split.
  - eapply babs_put; try done; [| apply agree_pin | set_solver].
    rewrite <- Hb. by apply pin_holds.
  - intros j c. eapply caches_put; [done | apply H | done].
Qed.

(** [iderw] on a buffer [i] that has work to do, in a cache with an idle disk. *)
Lemma b_iderw_ok s i :
  idle (io s) -> havedisk1 (io s) = true -> Sleep.slocked (lock (b_buf i s)) = true ->
  valid (b_buf i s) && negb (dirty (b_buf i s)) = false ->
  0 <= blockno (b_buf i s) < FSSIZE ->
  exists x, b_io (iderw i) s = Ok tt (Bcache (prv s) (nxt s) x) /\
    completed i (io s) x /\ idle x.
Proof.
  intros Hid Hd1 Hl Ht Hb. pose proof Hid as (_ & Hq & _).
  destruct (iderw_ok i (io s) (idle_inv _ Hid) Hq) as (x & Hx & Hc & Hq' & Hi).
  { split; [done | done | by right | done |]. rewrite Hq. apply not_elem_of_nil. }
  exists x. unfold b_io, zoom. rewrite Hx. split_and!; [done | done |].
  destruct Hi as [K1 K2 _ _]. rewrite Hq' in K2. done.
Qed.

Lemma bwrite_ok s v i b :
  babs s v -> b ∈ v_held v -> caches s i b ->
  exists s', bwrite i s = Ok tt s' /\ babs s' (v_write b v) /\
    (forall j c, caches s j c -> caches s' j c).
Proof.
  intros Ha Hh Hc. destruct (held_buf s v i b Ha Hh Hc) as (H & Hb & Hr & Hl).
  unfold bwrite. erewrite bind_ok by reflexivity. rewrite Hl. simpl.
  erewrite bind_ok by apply b_io_on_buf. fold (pin (b_buf i s)).
  set (s1 := put_buf i (pin (b_buf i s)) s).
  pose proof (pin_holds v _ H) as Hp. rewrite Hb in Hp.
  assert (Hdirty : dirty (pin (b_buf i s)) = true).
  { apply (hd_dirty _ _ Hp). simpl. rewrite Hb. set_solver. }
  assert (Hb1 : b_buf i s1 = pin (b_buf i s)) by apply b_buf_put.
  destruct (b_iderw_ok s1 i) as (x & Hx & [C1 C2 C3 C4] & Hidle).
  - apply Ha.
  - apply Ha.
  - rewrite Hb1. simpl. by rewrite Hl.
  - by rewrite Hb1, Hdirty, andb_false_r.
  - rewrite Hb1. apply H.
  - exists (Bcache (prv s) (nxt s) x). split; [exact Hx |].
    change (bufs (io s1) i) with (b_buf i s1) in *. rewrite Hb1 in *.
    unfold sync_buf, sync_disk, sync_writes in *. rewrite Hdirty in *. simpl in C1, C2, C3.
    rewrite (hd_dev v _ H), Hb in *. change (Z.land ROOTDEV 1) with ROOTDEV in *.
    rewrite fupd_fupd in C1.
    destruct (done_flags_bits (Z.lor (flags (b_buf i s)) B_DIRTY)) as [F1 F2]. split.
    + eapply (babs_upd s v _ _ i); try done; simpl.
      * apply Hc.
      * rewrite C4. apply Ha.
      * split; simpl; [done | by rewrite <- Hb; apply H | by rewrite valid_bit | | |].
        -- rewrite (hd_data v _ H). by rewrite Hb.
        -- rewrite dirty_bit. cbn [flags]. rewrite F2. set_solver.
        -- left. done.
      * apply agree_write.
      * intros j Hj. by eapply ba_inj.
      * intros _. by left.
      * intros _. by rewrite bupd_same.
      * intros c. rewrite C2. unfold set_sector, bupd. rewrite Z.eqb_refl. simpl.
        rewrite (hd_data v _ H), Hb. destruct (Z.eqb_spec c b); case_decide; try done.
        apply Ha.
      * rewrite C3, (ba_writes s v Ha), fmap_app, (hd_data v _ H), Hb. done.
    + intros j c (Hj & Hj2 & Hj3). unfold caches, b_buf. simpl. rewrite C1. unfold fupd.
      case_decide; [| done]. subst j. split_and!; [done | done |]. simpl. congruence.
Qed.

Lemma brelse_ok s v i b :
  babs s v -> b ∈ v_held v -> caches s i b -> b ∈ v_dirty v \/ v_data v b = v_disk v b ->
  exists s', brelse i s = Ok tt s' /\ babs s' (v_drop b v) /\
    (forall j c, c <> b -> c ∈ v_held v -> caches s j c -> caches s' j c).
Proof.
  intros Ha Hh Hc Hcl. destruct (held_buf s v i b Ha Hh Hc) as (H & Hb & Hr & Hl).
  unfold brelse. erewrite bind_ok by reflexivity. rewrite Hl. simpl.
  erewrite bind_ok by apply buf_unlock_ok.
  erewrite bind_ok by apply b_io_on_buf. rewrite b_buf_put, put_buf_put. simpl. rewrite Hr.
  set (bf := set_refcnt _ _). set (s1 := put_buf i bf s).
  erewrite bind_ok by reflexivity. unfold s1 at 1. rewrite b_buf_put. simpl.
  eexists. split; [reflexivity |].
  assert (Ha1 : babs s1 (v_drop b v)).
  { destruct H as [H1 H2 H3 H4 H5 H6].
    eapply babs_put; try done; [| apply agree_drop |].
    - split; simpl; try done. right. rewrite Hb. split; [set_solver | done].
    - simpl. intros Hn. destruct Hcl as [Hd | Hcl]; [set_solver | done]. }
  split.
  - destruct (ba_lru _ _ Ha1) as (L & Hd & Hp).
    assert (Hin : i ∈ L) by (rewrite Hp; apply elem_of_seq; destruct Hc; lia).
    apply list_elem_of_split in Hin as (L1 & L2 & ->).
    eapply (babs_links s1 _ _ (i :: L1 ++ L2)); [done | done | | by rewrite Permutation_middle].
    apply push_front_dll; [by apply unlink_dll |]. destruct Hd as [_ _ Hn]. by apply nodup_mid_notin.
  - intros j c Hne _ Hj. assert (Hc1 : caches s1 j c); [| done].
    eapply caches_put; [done | apply H | done | done].
Qed.

Lemma brelse_data s i s' : brelse i s = Ok tt s' -> data (b_buf i s') = data (b_buf i s).
Proof.
  unfold brelse. erewrite bind_ok by reflexivity. destruct (negb _); [done |]. erewrite bind_ok by apply buf_unlock_ok.
  erewrite bind_ok by apply b_io_on_buf. rewrite !b_buf_put, !put_buf_put. erewrite bind_ok by reflexivity. rewrite b_buf_put.
  destruct (refcnt _ =? 0); intros E; injection E as <-; unfold push_front, unlink, b_buf; simpl; by rewrite fupd_same.
Qed.

(** Some buffer is free when fewer than [NBUF] blocks are held or dirty. *)
Lemma free_buffer s v :
  babs s v -> (size (v_dirty v ∪ v_held v) < NBUF)%nat ->
  exists i, (i < NBUF)%nat /\ (refcnt (b_buf i s) =? 0) && negb (dirty (b_buf i s)) = true.
Proof.
  intros Ha Hs.
  destruct (decide (Exists (fun i => (refcnt (b_buf i s) =? 0) && negb (dirty (b_buf i s)) = true)
              (seq 0 NBUF))) as [[i [Hi Ht]]%list.Exists_exists | Hno].
  { exists i. apply elem_of_seq in Hi. split; [lia | done]. }
  exfalso. apply not_Exists_Forall in Hno; [| apply _]. rewrite list.Forall_forall in Hno.
  assert (Hin : forall i, (i < NBUF)%nat ->
    caches s i (blockno (b_buf i s)) /\ blockno (b_buf i s) ∈ v_dirty v ∪ v_held v).
  { intros i Hi. specialize (Hno i ltac:(apply elem_of_seq; lia)). simpl in Hno.
    destruct (ba_buf s v Ha i Hi) as [(_ & E1 & E2 & _) | [K1 K2 K3 K4 K5 K6]].
    { by rewrite E1, E2 in Hno. }
    split; [done |]. destruct (dirty (b_buf i s)); [set_solver |].
    destruct K6 as [[? _] | (_ & E & _)]; [set_solver |]. by rewrite E in Hno. }
  set (l := (fun i => blockno (b_buf i s)) <$> seq 0 NBUF).
  assert (Hnd : NoDup l).
  { apply NoDup_fmap_2_strong; [| apply NoDup_seq]. intros i j [_ Hi]%elem_of_seq [_ Hj]%elem_of_seq E.
    destruct (Hin i Hi) as [Ci _], (Hin j Hj) as [Cj _]. rewrite <- E in Cj. by eapply ba_inj. }
  assert (Hsub : (list_to_set l : gset Z) ⊆ v_dirty v ∪ v_held v).
  { intros b Hb. apply elem_of_list_to_set, list_elem_of_fmap in Hb as (i & -> & [_ Hi]%elem_of_seq).
    by apply Hin. }
  apply subseteq_size in Hsub. rewrite size_list_to_set in Hsub by done.
  unfold l in Hsub. rewrite length_fmap, length_seq in Hsub. lia.
Qed.

Lemma dll_scans s L test :
  dll s L -> L ≡ₚ seq 0 NBUF ->
  scan (nxt s) test (S NBUF) (nxt s HEAD) = List.find test L /\
  scan (prv s) test (S NBUF) (prv s HEAD) = List.find test (rev L).
Proof.
  intros [H1 H2 [Hn _]%list.NoDup_cons] Hp.
  assert (Hlen : length L = NBUF) by (rewrite Hp; apply length_seq).
  split; apply scan_find; rewrite ?elem_of_rev, ?length_rev, ?Hlen; done || lia.
Qed.

Lemma lru_range L i : L ≡ₚ seq 0 NBUF -> In i L -> (i < NBUF)%nat.
Proof. intros Hp Hi. apply list_elem_of_In in Hi. rewrite Hp in Hi. apply elem_of_seq in Hi. lia. Qed.

(** [bget] on a block that is cached and not held. *)
Lemma bget_hit s v b i :
  babs s v -> b ∉ v_held v -> caches s i b ->
  let bf := set_lock (Sleep.SL true curpid) (set_refcnt 1 (b_buf i s)) in
  bget curpid ROOTDEV b s = Ok i (put_buf i bf s) /\ holds (v_hold b v) bf.
Proof.
  intros Ha Hn Hc bf. destruct (ba_lru s v Ha) as (L & Hd & Hp).
  destruct (caches_holds s v i b Ha Hc) as [[K1 K2 K3 K4 K5 K6] Hb].
  destruct K6 as [[? _] | (_ & Hr & Hl)]; [by rewrite Hb in * |]. split.
  - unfold bget. erewrite bind_ok by reflexivity. unfold id.
    rewrite (proj1 (dll_scans s L _ Hd Hp)).
    set (test := fun _ => _ && _). destruct (find test L) as [j|] eqn:E.
    + apply find_some in E as [Hj Ht]. unfold test in Ht. reflect_bool.
      assert (j = i) as ->. { eapply ba_inj; [done | | done]. split; [by eapply lru_range | done]. }
      erewrite bind_ok by apply b_io_on_buf. cbv beta. rewrite Hr. change (0 +u 1) with 1.
      erewrite bind_ok by (apply buf_lock_ok; rewrite b_buf_put; simpl; by rewrite Hl).
      by rewrite b_buf_put, put_buf_put.
    + assert (Hi : In i L). { apply list_elem_of_In. rewrite Hp. apply elem_of_seq. destruct Hc. lia. }
      pose proof (find_none _ _ E i Hi) as Ht. unfold test in Ht.
      by rewrite K1, Hb, !Z.eqb_refl in Ht.
  - split; simpl; try done. left. rewrite Hb. split; [set_solver | done].
Qed.

(** [bget] on a block that is not cached, when a buffer is free: it takes the last free one of the
    list, and marks it as not valid. *)
Lemma bget_miss s v b :
  babs s v -> (forall i, ~ caches s i b) -> (size (v_dirty v ∪ v_held v) < NBUF)%nat ->
  exists i, (i < NBUF)%nat /\ (refcnt (b_buf i s) =? 0) && negb (dirty (b_buf i s)) = true /\
  bget curpid ROOTDEV b s =
    Ok i (put_buf i (Buf 0 ROOTDEV b (Sleep.SL true curpid) 1 (data (b_buf i s))) s).
Proof.
  intros Ha Hn Hs. destruct (ba_lru s v Ha) as (L & Hd & Hp).
  unfold bget. erewrite bind_ok by reflexivity. unfold id.
  rewrite (proj1 (dll_scans s L _ Hd Hp)). set (test := fun _ => _ && (_ =? b)).
  destruct (find test L) as [j|] eqn:E.
  { apply find_some in E as [Hj Ht]. unfold test in Ht. reflect_bool.
    exfalso. apply (Hn j). split; [by eapply lru_range | done]. }
  rewrite (proj2 (dll_scans s L _ Hd Hp)). clear E test. set (test := fun _ => _ && _).
  destruct (find test (rev L)) as [i|] eqn:E.
  - apply find_some in E as [Hi Ht]. rewrite <- in_rev in Hi. exists i.
    pose proof (lru_range _ _ Hp Hi) as Hlt. split_and!; [done | exact Ht |].
    erewrite bind_ok by apply b_io_on_buf.
    erewrite bind_ok.
    2: { apply buf_lock_ok. rewrite b_buf_put. simpl. unfold test in Ht. reflect_bool.
         destruct (ba_buf s v Ha i Hlt) as [(_ & _ & _ & E) | K]; [by rewrite E |].
         destruct (hd_held _ _ K) as [(_ & ? & _) | (_ & _ & E)]; [lia | by rewrite E]. }
    by rewrite b_buf_put, put_buf_put.
  - destruct (free_buffer s v Ha Hs) as (i & Hi & Ht). exfalso.
    assert (HiL : In i (rev L)).
    { rewrite <- in_rev. apply list_elem_of_In. rewrite Hp. apply elem_of_seq. lia. }
    pose proof (find_none _ _ E i HiL) as Hf. unfold test in Hf. congruence.
Qed.

Lemma bread_miss s v b :
  babs s v -> 0 <= b < FSSIZE -> (forall i, ~ caches s i b) -> b ∉ v_dirty v ∪ v_held v ->
  (size (v_dirty v ∪ v_held v) < NBUF)%nat ->
  exists i s', bread curpid ROOTDEV b s = Ok i s' /\ babs s' (v_hold b v) /\ caches s' i b /\
    (forall j c, c ∈ v_held v -> caches s j c -> caches s' j c).
Proof.
  intros Ha Hb Hnc Hnd Hroom. unfold bread.
  destruct (bget_miss s v b Ha Hnc Hroom) as (i & Hi & Ht & Hg).
  erewrite bind_ok by exact Hg. set (bf := Buf _ _ _ _ _ _). set (s1 := put_buf i bf s).
  erewrite bind_ok by reflexivity. assert (Hb1 : b_buf i s1 = bf) by apply b_buf_put.
  rewrite Hb1. change (valid bf) with false. cbv iota.
  destruct (b_iderw_ok s1 i) as (x & Hx & [C1 C2 C3 C4] & Hidle);
    [apply Ha | apply Ha | by rewrite Hb1 | by rewrite Hb1 | by rewrite Hb1 |].
  erewrite bind_ok by exact Hx. exists i. eexists. split; [reflexivity |].
  change (bufs (io s1) i) with (b_buf i s1) in *. rewrite Hb1 in *. change (dirty bf) with false in *.
  unfold sync_buf, sync_disk, sync_writes in *. change (dirty bf) with false in *. cbv iota in *.
  simpl in C1, C2, C3. rewrite fupd_fupd in C1. rewrite app_nil_r in C3.
  change (Z.land ROOTDEV 1) with ROOTDEV in *. rewrite (ba_disk s v Ha) in C1.
  split_and!.
  + eapply (babs_upd s v _ _ i); try done; simpl.
    * rewrite C4. apply Ha.
    * split; simpl; try done; [symmetry; apply Ha; set_solver | | left; set_solver].
      rewrite dirty_bit. simpl. set_solver.
    * apply agree_hold.
    * intros j Hj. exfalso. by apply (Hnc j).
    * intros Hdev. right. reflect_bool.
      destruct (ba_buf s v Ha i Hi) as [[Hu _] | K]; [by rewrite Hdev in Hu |].
      destruct (hd_held _ _ K) as [(_ & ? & _) | (Hnh & _)]; [lia |].
      intros [Hx1 | Hx1]%elem_of_union; [| done]. apply (hd_dirty _ _ K) in Hx1. congruence.
    * set_solver.
    * intros c. rewrite C2. apply Ha.
    * rewrite C3. apply Ha.
  + unfold caches, b_buf. simpl. rewrite C1, fupd_same. done.
  + intros j c Hcl (Hj & Hj2 & Hj3). unfold caches, b_buf. simpl. rewrite C1.
    rewrite fupd_other; [done |]. intros ->. reflect_bool.
    destruct (ba_buf s v Ha i Hi) as [[Hu _] | K]; [by rewrite Hj2 in Hu |].
    destruct (hd_held _ _ K) as [(_ & ? & _) | (Hnh & _)]; [lia | congruence].
Qed.

Lemma bread_ok s v b :
  babs s v -> 0 <= b < FSSIZE -> b ∉ v_held v ->
  b ∈ v_dirty v \/ (size (v_dirty v ∪ v_held v) < NBUF)%nat ->
  exists i s', bread curpid ROOTDEV b s = Ok i s' /\ babs s' (v_hold b v) /\ caches s' i b /\
    (forall j c, c ∈ v_held v -> caches s j c -> caches s' j c).
Proof.
  intros Ha Hb Hn Hroom.
  destruct (decide (Exists (fun i => dev (b_buf i s) = ROOTDEV /\ blockno (b_buf i s) = b)
    (seq 0 NBUF))) as [[i [Hi Hc]]%list.Exists_exists | Hno].
  - apply elem_of_seq in Hi. assert (Hci : caches s i b) by (split; [lia | done]).
    unfold bread. destruct (bget_hit s v b i Ha Hn Hci) as [Hg Hh]. erewrite bind_ok by exact Hg.
    erewrite bind_ok by reflexivity. rewrite b_buf_put, (hd_valid _ _ Hh).
    erewrite bind_ok by reflexivity. exists i. eexists. split; [reflexivity |].
    destruct Hci as (Hlt & Hd & Hno). split_and!.
    + eapply babs_put; try done; [apply agree_hold | set_solver].
    + unfold caches. by rewrite b_buf_put.
    + intros j c _ Hj. by eapply caches_put.
  - apply not_Exists_Forall in Hno; [| apply _]. rewrite list.Forall_forall in Hno.
    assert (Hnc : forall i, ~ caches s i b).
    { intros i (Hi & Hc). apply (Hno i); [apply elem_of_seq; lia | done]. }
    assert (Hnd : b ∉ v_dirty v ∪ v_held v).
    { intros Hin. destruct (ba_cached s v Ha b Hin) as [i Hi]. by apply (Hnc i). }
    apply bread_miss; [done .. |]. set_solver.
Qed.
End refinement.

(** The buffer cache provides the interface log.c and fs.c are written against. *)
#[export] Instance bio_store (curpid : Z) : BlockStore bcache := {
  BlockStore.bread := bread curpid;
  BlockStore.bwrite := bwrite;
  BlockStore.brelse := brelse;
  buf_data i s := data (b_buf i s);
  buf_no i s := blockno (b_buf i s);
  buf_set i x := b_io (on_buf i (set_data x));
  buf_pin i := b_io (on_buf i pin)
}.

#[export] Instance bio_laws (curpid : Z) : @BlockStoreLaws bcache (bio_store curpid).
Proof.
  refine {| abs := babs curpid; is_buf := caches |}.
  - intros s v i b Ha Hc. destruct (caches_holds _ s v i b Ha Hc) as [K <-]. apply K.
  - intros s i b Hc. apply Hc.
  - intros s v b Ha. apply Ha.
  - apply bread_ok.
  - apply brelse_ok.
  - apply brelse_data.
  - apply bwrite_ok.
  - apply set_ok.
  - apply pin_ok.
Defined.

(** ** The cache as a client drives it *)

(** What a client does: get a block, change the bytes of one it holds, pin it, write it through,
    give it back. *)
Inductive bop :=
| OpRead (b : Z)
| OpSet (b : Z) (x : block)
| OpPin (b : Z)
| OpWrite (b : Z)
| OpRelse (b : Z).

(** The view after an operation, and [None] when the client breaks the rules: it reads a block it
    already holds, overcommits the cache, uses a block it does not hold, or gives back a changed
    block that is neither pinned nor written. *)
Definition spec_op (o : bop) (v : bview) : option bview :=
  match o with
  | OpRead b =>
      if decide (0 <= b < FSSIZE /\ b ∉ v_held v /\
                 (b ∈ v_dirty v \/ (size (v_dirty v ∪ v_held v) < NBUF)%nat))
      then Some (v_hold b v) else None
  | OpSet b x => if decide (b ∈ v_held v) then Some (v_set b x v) else None
  | OpPin b => if decide (b ∈ v_held v) then Some (v_pin b v) else None
  | OpWrite b => if decide (b ∈ v_held v) then Some (v_write b v) else None
  | OpRelse b =>
      if decide (b ∈ v_held v /\ (b ∈ v_dirty v \/ v_data v b = v_disk v b))
      then Some (v_drop b v) else None
  end.

Fixpoint spec_run (os : list bop) (v : bview) : option bview :=
  match os with
  | [] => Some v
  | o :: os' => match spec_op o v with Some v' => spec_run os' v' | None => None end
  end.

(** The buffer a client got for a block. *)
Definition buf_of (s : bcache) (b : Z) : nat :=
  default 0%nat (List.find (fun i => (dev (b_buf i s) =? ROOTDEV) && (blockno (b_buf i s) =? b))
    (seq 0 NBUF)).

Definition run_op (curpid : Z) (o : bop) : M bcache unit :=
  s ← gets id ;
  match o with
  | OpRead b => bread curpid ROOTDEV b ;; mret tt
  | OpSet b x => b_io (on_buf (buf_of s b) (set_data x))
  | OpPin b => b_io (on_buf (buf_of s b) pin)
  | OpWrite b => bwrite (buf_of s b)
  | OpRelse b => brelse (buf_of s b)
  end.

Fixpoint run_ops (curpid : Z) (os : list bop) : M bcache unit :=
  match os with
  | [] => mret tt
  | o :: os' => run_op curpid o ;; run_ops curpid os'
  end.

Lemma buf_of_caches curpid s v b :
  babs curpid s v -> b ∈ v_held v -> caches s (buf_of s b) b.
Proof.
  intros Ha Hb. destruct (ba_cached _ s v Ha b) as (i & Hi & Hd & Hn); [set_solver |].
  unfold buf_of. destruct (find _ _) as [j|] eqn:E; simpl.
  - apply find_some in E as [Hj Ht]. reflect_bool. apply list_elem_of_In, elem_of_seq in Hj.
    split_and!; [lia | done | done].
  - exfalso. assert (Hin : In i (seq 0 NBUF)) by (apply list_elem_of_In, elem_of_seq; lia).
    pose proof (find_none _ _ E i Hin) as Hf. cbv beta in Hf. by rewrite Hd, Hn, !Z.eqb_refl in Hf.
Qed.

Lemma run_op_ok curpid o s v v' :
  babs curpid s v -> spec_op o v = Some v' ->
  exists s', run_op curpid o s = Ok tt s' /\ babs curpid s' v'.
Proof.
  intros Ha Ho. unfold run_op. destruct o as [b | b x | b | b | b]; simpl in Ho; case_decide as Hg;
    simplify_eq; erewrite bind_ok by reflexivity; unfold id.
  - destruct Hg as (H1 & H2 & H3). destruct (bread_ok curpid s v b Ha H1 H2 H3) as (i & s' & H & Hs & _).
    exists s'. by erewrite bind_ok by exact H.
  - destruct (set_ok curpid s v _ b x Ha Hg (buf_of_caches _ s v b Ha Hg)) as (s' & H & Hs & _). eauto.
  - destruct (pin_ok curpid s v _ b Ha Hg (buf_of_caches _ s v b Ha Hg)) as (s' & H & Hs & _). eauto.
  - destruct (bwrite_ok curpid s v _ b Ha Hg (buf_of_caches _ s v b Ha Hg)) as (s' & H & Hs & _). eauto.
  - destruct Hg as [Hg Hc].
    destruct (brelse_ok curpid s v _ b Ha Hg (buf_of_caches _ s v b Ha Hg) Hc) as (s' & H & Hs & _). eauto.
Qed.

Lemma run_ops_ok curpid os s v v' :
  babs curpid s v -> spec_run os v = Some v' ->
  exists s', run_ops curpid os s = Ok tt s' /\ babs curpid s' v'.
Proof.
  revert s v. induction os as [|o os IH]; intros s v Ha Hr; simpl in *.
  - simplify_eq. by exists s.
  - destruct (spec_op o v) as [v1|] eqn:E; [| done].
    destruct (run_op_ok curpid o s v v1 Ha E) as (s1 & H1 & Ha1).
    destruct (IH s1 v1 Ha1 Hr) as (s2 & H2 & Ha2). exists s2. by erewrite bind_ok by exact H1.
Qed.

(** ** Initialisation *)

(** The statically zeroed cache, with an idle disk 1. *)
Definition boot_state (s : bcache) : Prop :=
  idle (io s) /\ havedisk1 (io s) = true /\ writes (hwr (io s)) = [] /\
  forall i, (i < NBUF)%nat -> b_buf i s = Buf 0 0 0 (Sleep.SL false 0) 0 [].

Definition boot_view (s : bcache) : bview :=
  BView (disk (hwr (io s)) ROOTDEV) (disk (hwr (io s)) ROOTDEV) ∅ ∅ [].

Lemma binit_loop_ok n b L s :
  dll s L -> (forall i, (b <= i < b + n)%nat -> i ∉ HEAD :: L) ->
  (forall i, lock (b_buf i s) = Sleep.SL false 0 \/ (NBUF <= i)%nat) -> (b + n <= NBUF)%nat ->
  exists s', binit_loop n b s = Ok tt s' /\ dll s' (rev (seq b n) ++ L) /\ io s' = io s.
Proof.
  revert b L s. induction n as [|n IH]; intros b L s Hd Hf Hl Hb; simpl.
  - by exists s.
  - erewrite bind_ok by reflexivity. erewrite bind_ok by apply b_io_on_buf.
    set (s1 := put_buf _ _ _). assert (Hio : io s1 = io s).
    { unfold s1, put_buf. simpl. destruct (io s) as [bs q h w] eqn:E. simpl. f_equal.
      extensionality j. unfold fupd. case_decide; [| done]. subst j. unfold b_buf. simpl. rewrite E.
      destruct (Hl b) as [Hlk | ?]; [| lia]. unfold b_buf in Hlk. rewrite E in Hlk. simpl in *.
      unfold set_lock, Sleep.initsleeplock. destruct (bs b). simpl in *. by subst. }
    destruct (IH (S b) (b :: L) s1) as (s' & H & Hd' & Hio').
    + destruct (push_front_dll s L b Hd (Hf b ltac:(lia))) as [D1 D2 D3]. by split.
    + intros i Hi. assert (i ∉ HEAD :: L) by (apply Hf; lia).
      assert (i <> b) by lia. set_solver.
    + intros i. unfold b_buf. rewrite Hio. apply Hl.
    + lia.
    + exists s'. split_and!; [done | | congruence]. by rewrite <- app_assoc.
Qed.

Lemma binit_ok curpid s :
  boot_state s -> exists s', binit s = Ok tt s' /\ dll s' (rev (seq 0 NBUF)) /\
    babs curpid s' (boot_view s).
Proof.
  intros (H1 & H2 & H3 & H4). unfold binit. erewrite bind_ok by reflexivity.
  set (s0 := Bcache _ _ _). destruct (binit_loop_ok NBUF 0 [] s0) as (s' & H & Hd & Hio).
  - split; simpl; [apply fupd_same | apply fupd_same | apply NoDup_singleton].
  - intros i Hi. rewrite list_elem_of_singleton. unfold HEAD. lia.
  - intros i. destruct (decide (i < NBUF)%nat) as [Hi|]; [left | right; lia].
    change (b_buf i s0) with (b_buf i s). by rewrite H4.
  - lia.
  - rewrite app_nil_r in Hd. exists s'. split; [exact H |]. split; [exact Hd |]. clear H.
    change (io s0) with (io s) in Hio.
    assert (Hb : forall i, (i < NBUF)%nat -> b_buf i s' = Buf 0 0 0 (Sleep.SL false 0) 0 []).
    { intros i Hi. rewrite <- (H4 i Hi). unfold b_buf. by rewrite Hio. }
    split.
    + by rewrite Hio.
    + by rewrite Hio.
    + exists (rev (seq 0 NBUF)). split; [exact Hd |]. symmetry. apply Permutation_rev.
    + intros i Hi. left. rewrite (Hb i Hi). repeat split.
    + intros i j b (Hi & Hd1 & _). rewrite (Hb i Hi) in Hd1. discriminate Hd1.
    + intros b [Hin | Hin]%elem_of_union; by apply not_elem_of_empty in Hin.
    + intros b _. reflexivity.
    + intros b. by rewrite Hio.
    + by rewrite Hio, H3.
Qed.

(** ** Properties *)

(** C5: the buffer cache refines the block store.  After [binit] on the zeroed cache, any sequence
    of operations by a client that keeps the rules of the interface returns (no panic, no sleep),
    and the cache ends in a state related by [babs] to the view the specification computes: at most
    one buffer caches a block, every cached block reads as the view says, the disk holds exactly
    the view's disk and received exactly the view's writes in order, and the list through
    [prev]/[next] is a permutation of the thirty buffers. *)
Theorem bio_refines_blockstore (curpid : Z) (os : list bop) (s : bcache) (v : bview) :
  boot_state s -> spec_run os (boot_view s) = Some v ->
  exists s', (binit ;; run_ops curpid os) s = Ok tt s' /\ babs curpid s' v.
Proof.
  intros Hb Hr. destruct (binit_ok curpid s Hb) as (s1 & H1 & _ & Ha).
  erewrite bind_ok by exact H1. by eapply run_ops_ok.
Qed.

(** A zeroed cache over a disk of sevens. *)
Definition demo_cache : bcache :=
  Bcache (fun _ => 0%nat) (fun _ => 0%nat)
    (Ide (fun _ => Buf 0 0 0 (Sleep.SL false 0) 0 []) [] true
      (Hw (fun _ => 0) 0x40 None [] (fun _ _ => [7]) [])).

Lemma demo_cache_boot : boot_state demo_cache.
Proof. by split_and!. Qed.

Lemma bio_refines_blockstore_witness :
  exists s', (binit ;; run_ops 1 [OpRead 3; OpSet 3 [5]; OpWrite 3; OpRelse 3]) demo_cache = Ok tt s' /\
    disk (hwr (io s')) 1 3 = [5] /\ writes (hwr (io s')) = [(1, 3, [5])].
Proof.
  destruct (bio_refines_blockstore 1 [OpRead 3; OpSet 3 [5]; OpWrite 3; OpRelse 3] demo_cache
    (v_drop 3 (v_write 3 (v_set 3 [5] (v_hold 3 (boot_view demo_cache)))))) as (s' & H & Ha).
  - apply demo_cache_boot.
  - by vm_compute.
  - exists s'. split; [exact H |]. split.
    + exact (ba_disk _ _ _ Ha 3).
    + exact (ba_writes _ _ _ Ha).
Defined.

(** Buffers are recycled in least-recently-used order.  When a block is not cached and [bget]
    takes a buffer, every buffer behind it on the list (used less recently) is in use or dirty;
    and [brelse] of a buffer moves it to the front, leaving the order of the others. *)
Theorem bget_recycles_lru (curpid : Z) (s s' : bcache) (v : bview) (L : list nat) (b : Z) (i : nat) :
  babs curpid s v -> dll s L -> L ≡ₚ seq 0 NBUF -> (forall j, ~ caches s j b) ->
  bget curpid ROOTDEV b s = Ok i s' ->
  (exists L1 L2, L = L1 ++ i :: L2 /\ refcnt (b_buf i s) = 0 /\ dirty (b_buf i s) = false /\
     forall j, j ∈ L2 -> refcnt (b_buf j s) <> 0 \/ dirty (b_buf j s) = true) /\
  (forall s2, brelse i s' = Ok tt s2 -> exists L1 L2, L = L1 ++ i :: L2 /\ dll s2 (i :: L1 ++ L2)).
Proof.
  intros Ha Hd Hp Hnc Hg. unfold bget in Hg. erewrite bind_ok in Hg by reflexivity. unfold id in Hg.
  rewrite (proj1 (dll_scans s L _ Hd Hp)) in Hg. destruct (find _ L) as [j|] eqn:E in Hg.
  { apply find_some in E as [Hj Ht]. reflect_bool.
    exfalso. apply (Hnc j). split; [by eapply lru_range | done]. }
  rewrite (proj2 (dll_scans s L _ Hd Hp)) in Hg.
  destruct (find _ (rev L)) as [j|] eqn:Ef in Hg; [| done].
  apply find_split in Ef as (l1 & l2 & El & Ht & Hno). cbv beta in Ht, Hno. reflect_bool.
  erewrite bind_ok in Hg by apply b_io_on_buf.
  assert (EL : L = rev l2 ++ j :: rev l1) by (rewrite <- rev_mid, <- El; by rewrite rev_involutive).
  assert (Hlt : (j < NBUF)%nat).
  { eapply lru_range; [exact Hp |]. rewrite EL. apply in_or_app. right. by left. }
  erewrite bind_ok in Hg.
  2: { apply buf_lock_ok. rewrite b_buf_put. simpl.
       destruct (ba_buf _ s v Ha j Hlt) as [(_ & _ & _ & E2) | K]; [by rewrite E2 |].
       destruct (hd_held _ _ _ K) as [(_ & ? & _) | (_ & _ & E2)]; [lia | by rewrite E2]. }
  injection Hg as <- <-. rewrite b_buf_put, put_buf_put. simpl. split.
  - exists (rev l2), (rev l1). split_and!; [done | done | done |].
    intros k Hk. rewrite elem_of_rev in Hk. specialize (Hno k Hk).
    destruct (dirty (b_buf k s)); [by right | left]. rewrite andb_true_r in Hno. by reflect_bool.
  - intros s2. unfold brelse. erewrite bind_ok by reflexivity. rewrite b_buf_put. simpl.
    erewrite bind_ok by apply buf_unlock_ok. erewrite bind_ok by apply b_io_on_buf.
    rewrite !b_buf_put, !put_buf_put. simpl. erewrite bind_ok by reflexivity. rewrite b_buf_put. simpl.
    intros Hs. injection Hs as <-. exists (rev l2), (rev l1). split; [done |].
    rewrite EL in Hd. apply push_front_dll.
    + apply unlink_dll. destruct Hd as [D1 D2 D3]. by split.
    + destruct Hd as [_ _ Hn]. by apply nodup_mid_notin.
Qed.

Lemma bget_recycles_lru_witness :
  exists s1 s2 : bcache, binit demo_cache = Ok tt s1 /\ bget 1 ROOTDEV 3 s1 = Ok 0%nat s2 /\
    exists L1 L2, rev (seq 0 NBUF) = L1 ++ 0%nat :: L2 /\
      forall j, j ∈ L2 -> refcnt (b_buf j s1) <> 0 \/ dirty (b_buf j s1) = true.
Proof.
  destruct (binit_ok 1 demo_cache demo_cache_boot) as (s1 & H1 & Hd & Ha).
  assert (H2 : exists s2, bget 1 ROOTDEV 3 s1 = Ok 0%nat s2).
  { assert (Hc : match binit demo_cache with
                 | Ok _ s => match bget 1 ROOTDEV 3 s with Ok i _ => (i =? 0)%nat | _ => false end
                 | _ => false end = true) by (vm_compute; reflexivity).
    rewrite H1 in Hc. destruct (bget 1 ROOTDEV 3 s1) as [i s2 | |]; [| done ..].
    apply Nat.eqb_eq in Hc as ->. by exists s2. }
  destruct H2 as [s2 H2].
  destruct (bget_recycles_lru 1 s1 s2 (boot_view demo_cache) (rev (seq 0 NBUF)) 3 0)
    as [(L1 & L2 & E & _ & _ & Hf) _]; [exact Ha | exact Hd | | | exact H2 |].
  - symmetry. apply Permutation_rev.
  - intros j Hj. destruct (caches_holds _ _ _ _ _ Ha Hj) as [K _]. pose proof (hd_dev _ _ _ K) as Hdev.
    destruct Hj as (Hj & _). assert (Hall : match binit demo_cache with
      | Ok _ s => forallb (fun i => dev (b_buf i s) =? 0) (seq 0 NBUF) | _ => false end = true)
      by (vm_compute; reflexivity).
    rewrite H1, forallb_forall in Hall. specialize (Hall j). rewrite Hdev in Hall.
    discriminate Hall. apply list_elem_of_In, elem_of_seq. lia.
  - exists s1, s2. split; [exact H1 |]. split; [exact H2 |]. exists L1, L2. split; [exact E | exact Hf].
Defined.

(** An overcommitted cache is reported, not corrupted.  When every buffer is held or dirty and
    the block asked for is not cached, [bget] panics. *)
Theorem bget_no_buffers (curpid : Z) (s : bcache) (v : bview) (b : Z) :
  babs curpid s v -> (forall i, ~ caches s i b) ->
  (forall i, (i < NBUF)%nat -> exists c, caches s i c /\ c ∈ v_dirty v ∪ v_held v) ->
  bget curpid ROOTDEV b s = Panicked "bget: no buffers".
Proof.
  intros Ha Hnc Hfull. destruct (ba_lru _ s v Ha) as (L & Hd & Hp).
  unfold bget. erewrite bind_ok by reflexivity. unfold id.
  rewrite (proj1 (dll_scans s L _ Hd Hp)). destruct (find _ L) as [j|] eqn:E.
  { apply find_some in E as [Hj Ht]. reflect_bool.
    exfalso. apply (Hnc j). split; [by eapply lru_range | done]. }
  rewrite (proj2 (dll_scans s L _ Hd Hp)). destruct (find _ (rev L)) as [j|] eqn:Ef; [| done].
  apply find_some in Ef as [Hj Ht]. rewrite <- in_rev in Hj. reflect_bool.
  destruct (Hfull j (lru_range _ _ Hp Hj)) as (c & Hc & Hin).
  destruct (caches_holds _ s v j c Ha Hc) as [K Hb]. exfalso.
  apply elem_of_union in Hin as [Hin | Hin].
  - rewrite <- Hb in Hin. apply (hd_dirty _ _ _ K) in Hin. congruence.
  - destruct (held_buf _ s v j c Ha Hin Hc) as (_ & _ & Hr & _). lia.
Qed.

(** A client that keeps thirty blocks. *)
Definition thirty : list bop := OpRead <$> seqZ 0 30.

Lemma thirty_full :
  match (binit ;; run_ops 1 thirty) demo_cache, spec_run thirty (boot_view demo_cache) with
  | Ok _ s, Some v =>
      forallb (fun i => (dev (b_buf i s) =? ROOTDEV) && (blockno (b_buf i s) =? Z.of_nat i) &&
                        bool_decide (Z.of_nat i ∈ v_held v)) (seq 0 NBUF)
  | _, _ => false
  end = true.
Proof. vm_compute. reflexivity. Qed.

Lemma bget_no_buffers_witness :
  exists s, (binit ;; run_ops 1 thirty) demo_cache = Ok tt s /\
    bget 1 ROOTDEV 30 s = Panicked "bget: no buffers".
Proof.
  destruct (binit_ok 1 demo_cache demo_cache_boot) as (s1 & H1 & _ & Ha1).
  pose proof thirty_full as Hf. erewrite bind_ok in Hf by exact H1. erewrite bind_ok by exact H1.
  destruct (spec_run thirty _) as [v|] eqn:Hv; [| destruct (run_ops 1 thirty s1); discriminate Hf].
  destruct (run_ops_ok 1 thirty s1 _ v Ha1 Hv) as (s & H & Ha). rewrite H in Hf. clear H1 Hv.
  exists s. split; [exact H |]. clear H. rewrite forallb_forall in Hf.
  assert (Hc : forall i, (i < NBUF)%nat -> caches s i (Z.of_nat i) /\ Z.of_nat i ∈ v_held v).
  { intros i Hi. specialize (Hf i ltac:(apply list_elem_of_In, elem_of_seq; lia)). reflect_bool.
    split; [by split_and! | by eapply bool_decide_eq_true_1]. }
  apply (bget_no_buffers 1 s v 30).
  - exact Ha.
  - intros i (Hi & _ & Hb). destruct (Hc i Hi) as [(_ & _ & Hb') _]. unfold NBUF in Hi. lia.
  - intros i Hi. destruct (Hc i Hi) as [Hci Hin]. exists (Z.of_nat i). split; [exact Hci |].
    apply elem_of_union. by right.
Defined.
