(* ===== verification/Log.v ===== *)
(** * log.c: the write-ahead log

    The log sits on the block store interface: every theorem here holds for any implementation of
    [BlockStoreLaws], in particular for the buffer cache.  The state is the in-memory [struct log]
    beside the store.  [begin_op] gives one activation under [log.lock]: it either reserves space or
    sleeps on the log. *)
From S2P Require Import Prelude Ide BlockStore Bytes.
#[local] Open Scope Z_scope.

Definition MAXOPBLOCKS : Z := 10.
Definition LOGSIZE : Z := MAXOPBLOCKS * 3.

(** [struct superblock] and [struct log]. *)
Record superblock := Super {
  sb_size : Z;
  sb_nblocks : Z;
  sb_ninodes : Z;
  sb_nlog : Z;
  sb_logstart : Z;
  sb_inodestart : Z;
  sb_bmapstart : Z
}.

Record log := Log {
  start : Z;
  lsize : Z;
  outstanding : Z;
  committing : bool;
  ldev : Z;
  lh_n : Z;
  lh_block : nat -> Z
}.

Record lstate (S : Type) := LState { lg : log; store : S }.
Arguments LState {S} lg store.
Arguments lg {S}.
Arguments store {S}.

Definition set_n (n : Z) (l : log) : log :=
  Log (start l) (lsize l) (outstanding l) (committing l) (ldev l) n (lh_block l).
Definition set_block (i : nat) (b : Z) (l : log) : log :=
  Log (start l) (lsize l) (outstanding l) (committing l) (ldev l) (lh_n l) (fupd (lh_block l) i b).
Definition set_out (o : Z) (l : log) : log :=
  Log (start l) (lsize l) o (committing l) (ldev l) (lh_n l) (lh_block l).
Definition set_committing (c : bool) (l : log) : log :=
  Log (start l) (lsize l) (outstanding l) c (ldev l) (lh_n l) (lh_block l).

(** ** The code *)

Section code.
Context {S : Type} `{BlockStore S}.

Definition on_st {A} (m : M S A) : M (lstate S) A := zoom store (fun x s => LState (lg s) x) m.
Definition on_lg (f : log -> log) : M (lstate S) unit := modify (fun s => LState (f (lg s)) (store s)).
Definition b_data (b : nat) : M (lstate S) block := gets (fun s => buf_data b (store s)).

Definition readsb (dev : Z) : M S superblock :=
  bp ← bread dev 1 ;
  x ← gets (buf_data bp) ;
  brelse bp ;;
  mret (Super (get32 x 0) (get32 x 4) (get32 x 8) (get32 x 12) (get32 x 16) (get32 x 20) (get32 x 24)).

(** Offset of [block[i]] in [struct logheader]. *)
Definition hdr_off (i : nat) : nat := 4 + 4 * i.

(** Copy a committed block from the log to its home location: one pass of the loop. *)
Definition install_block (tail : nat) : M (lstate S) unit :=
  l ← gets lg ;
  lbuf ← on_st (bread (ldev l) (start l + Z.of_nat tail + 1)) ;
  dbuf ← on_st (bread (ldev l) (lh_block l tail)) ;
  x ← b_data lbuf ;
  on_st (buf_set dbuf x) ;;
  on_st (bwrite dbuf) ;;
  on_st (brelse lbuf) ;;
  on_st (brelse dbuf).

(** The loop from [tail], [k] passes. *)
Fixpoint install_loop (k tail : nat) : M (lstate S) unit :=
  match k with
  | O => mret tt
  | Datatypes.S k' => install_block tail ;; install_loop k' (Datatypes.S tail)
  end.

Definition install_trans : M (lstate S) unit :=
  l ← gets lg ; install_loop (Z.to_nat (lh_n l)) 0.

(** [log.lh.block[i] = lh->block[i]] for the [k] entries from [i]. *)
Fixpoint read_blocks (k i : nat) (x : block) (l : log) : log :=
  match k with
  | O => l
  | Datatypes.S k' =>
      read_blocks k' (Datatypes.S i) x (set_block i (s32 (get32 x (hdr_off i))) l)
  end.

Definition read_head : M (lstate S) unit :=
  l ← gets lg ;
  buf ← on_st (bread (ldev l) (start l)) ;
  x ← b_data buf ;
  on_lg (set_n (s32 (get32 x 0))) ;;
  on_lg (fun l => read_blocks (Z.to_nat (lh_n l)) 0 x l) ;;
  on_st (brelse buf).

(** [hb->block[i] = log.lh.block[i]] for the [k] entries from [i]. *)
Fixpoint write_blocks (k i : nat) (bl : nat -> Z) (x : block) : block :=
  match k with
  | O => x
  | Datatypes.S k' => write_blocks k' (Datatypes.S i) bl (put32 x (hdr_off i) (bl i))
  end.

Definition header_bytes (l : log) (x : block) : block :=
  write_blocks (Z.to_nat (lh_n l)) 0 (lh_block l) (put32 x 0 (lh_n l)).

Definition write_head : M (lstate S) unit :=
  l ← gets lg ;
  buf ← on_st (bread (ldev l) (start l)) ;
  x ← b_data buf ;
  on_st (buf_set buf (header_bytes l x)) ;;
  on_st (bwrite buf) ;;
  on_st (brelse buf).

Definition recover_from_log : M (lstate S) unit :=
  read_head ;;
  install_trans ;;
  on_lg (set_n 0) ;;
  write_head.

Definition initlog (dev : Z) : M (lstate S) unit :=
  if BSIZE <=? 4 + 4 * LOGSIZE then panic "initlog: too big logheader" else
  sb ← on_st (readsb dev) ;
  on_lg (fun l => Log (s32 (sb_logstart sb)) (s32 (sb_nlog sb)) (outstanding l) (committing l) dev
                    (lh_n l) (lh_block l)) ;;
  recover_from_log.

Definition begin_op : M (lstate S) unit :=
  l ← gets lg ;
  if committing l then sleep_on ChLog
  else if LOGSIZE <? lh_n l + (outstanding l + 1) * MAXOPBLOCKS then sleep_on ChLog
  else on_lg (set_out (outstanding l + 1)).

(** Copy a modified block from the cache to the log: one pass of the loop. *)
Definition log_block (tail : nat) : M (lstate S) unit :=
  l ← gets lg ;
  to ← on_st (bread (ldev l) (start l + Z.of_nat tail + 1)) ;
  from ← on_st (bread (ldev l) (lh_block l tail)) ;
  x ← b_data from ;
  on_st (buf_set to x) ;;
  on_st (bwrite to) ;;
  on_st (brelse from) ;;
  on_st (brelse to).

(** The loop from [tail], [k] passes. *)
Fixpoint write_log_loop (k tail : nat) : M (lstate S) unit :=
  match k with
  | O => mret tt
  | Datatypes.S k' => log_block tail ;; write_log_loop k' (Datatypes.S tail)
  end.

Definition write_log : M (lstate S) unit :=
  l ← gets lg ; write_log_loop (Z.to_nat (lh_n l)) 0.

Definition commit : M (lstate S) unit :=
  l ← gets lg ;
  if 0 <? lh_n l then
    write_log ;;
    write_head ;;
    install_trans ;;
    on_lg (set_n 0) ;;
    write_head
  else mret tt.

(** The two critical sections of [end_op]: whether the caller has to commit, and the end of the commit. *)
Definition end_op_enter : M (lstate S) bool :=
  on_lg (fun l => set_out (outstanding l - 1) l) ;;
  l ← gets lg ;
  if committing l then panic "log.committing"
  else if outstanding l =? 0 then on_lg (set_committing true) ;; mret true
  else mret false.
Definition end_op_leave : M (lstate S) unit := on_lg (set_committing false).

(** [end_op] run by itself; it gives the channels it wakes. *)
Definition end_op : M (lstate S) (list chan) :=
  do_commit ← end_op_enter ;
  match do_commit with true => commit ;; end_op_leave ;; mret [ChLog] | false => mret [ChLog] end.

(** [commit] holds no lock but those of the buffers it copies.  Its steps, as other processes see them: where it is, and
    what it does there.  The loops test the shared [log.lh.n] before each pass. *)
Inductive cpc := CTest | CLog (tail : nat) | CHead | CInstall (tail : nat) | CErase | CClear | CDone.
#[export] Instance cpc_eq_dec : EqDecision cpc.
Proof. solve_decision. Defined.

Definition commit_step (pc : cpc) : M (lstate S) cpc :=
  l ← gets lg ;
  match pc with
  | CTest => mret (if 0 <? lh_n l then CLog 0 else CDone)
  | CLog tail =>
      if Z.of_nat tail <? lh_n l then log_block tail ;; mret (CLog (Datatypes.S tail)) else mret CHead
  | CHead => write_head ;; mret (CInstall 0)
  | CInstall tail =>
      if Z.of_nat tail <? lh_n l then install_block tail ;; mret (CInstall (Datatypes.S tail)) else mret CErase
  | CErase => on_lg (set_n 0) ;; mret CClear
  | CClear => write_head ;; mret CDone
  | CDone => mret CDone
  end.

(** Index of the first entry equal to [b] among the [k] entries from [i], or [i + k]. *)
Fixpoint absorb (k i : nat) (bl : nat -> Z) (b : Z) : nat :=
  match k with
  | O => i
  | Datatypes.S k' => if bl i =? b then i else absorb k' (Datatypes.S i) bl b
  end.

Definition log_write (b : nat) : M (lstate S) unit :=
  l ← gets lg ;
  if (LOGSIZE <=? lh_n l) || (lsize l - 1 <=? lh_n l) then panic "too big a transaction"
  else if outstanding l <? 1 then panic "log_write outside of trans"
  else
    no ← gets (fun s => buf_no b (store s)) ;
    let i := absorb (Z.to_nat (lh_n l)) 0 (lh_block l) no in
    on_lg (set_block i no) ;;
    (if Z.of_nat i =? lh_n l then on_lg (set_n (lh_n l + 1)) else mret tt) ;;
    on_st (buf_pin b).

(** How an operation updates a block: read it, change its bytes, log it, release it. *)
Definition update_block (b : Z) (f : block -> block) : M (lstate S) unit :=
  l ← gets lg ;
  bp ← on_st (bread (ldev l) b) ;
  x ← b_data bp ;
  on_st (buf_set bp (f x)) ;;
  log_write bp ;;
  on_st (brelse bp).
End code.

(** ** The header on disk *)

Definition hdr_n (x : block) : Z := s32 (get32 x 0).
Definition hdr_blocks (x : block) : list Z :=
  (fun i => s32 (get32 x (hdr_off i))) <$> seq 0 (Z.to_nat (hdr_n x)).
Definition lh_list (l : log) : list Z := lh_block l <$> seq 0 (Z.to_nat (lh_n l)).

Lemma s32_u32 x : s32 (u32 x) = s32 x.
Proof. unfold s32. by rewrite u32_idemp. Qed.

Lemma write_blocks_spec k i bl x :
  (hdr_off (i + k) <= length x)%nat ->
  length (write_blocks k i bl x) = length x /\
  (forall o, (o + 4 <= hdr_off i)%nat -> get32 (write_blocks k i bl x) o = get32 x o) /\
  (forall j, (i <= j < i + k)%nat -> get32 (write_blocks k i bl x) (hdr_off j) = u32 (bl j)).
Proof.
  revert i x. induction k as [|k IH]; intros i x Hl; simpl.
  { split_and!; [done | done | lia]. }
  unfold hdr_off in *.
  destruct (IH (S i) (put32 x (4 + 4 * i) (bl i))) as (H1 & H2 & H3).
  { rewrite length_put32. lia. }
  rewrite H1, length_put32. split_and!; [done | |].
  - intros o Ho. rewrite H2 by lia. by rewrite get32_put32_other by lia.
  - intros j Hj. destruct (decide (j = i)) as [-> | Hne].
    + rewrite H2 by lia. by rewrite get32_put32 by lia.
    + by rewrite H3 by lia.
Qed.

Lemma read_blocks_spec k i x l :
  let l' := read_blocks k i x l in
  (forall j, lh_block l' j = if decide (i <= j < i + k)%nat then s32 (get32 x (hdr_off j))
                             else lh_block l j) /\
  start l' = start l /\ lsize l' = lsize l /\ outstanding l' = outstanding l /\
  committing l' = committing l /\ ldev l' = ldev l /\ lh_n l' = lh_n l.
Proof.
  revert i l. induction k as [|k IH]; intros i l; simpl.
  - split; [| done]. intros j. rewrite decide_False by lia. done.
  - destruct (IH (S i) (set_block i (s32 (get32 x (hdr_off i))) l)) as (H1 & H2).
    split; [| exact H2]. intros j. rewrite H1. simpl. unfold fupd.
    repeat case_decide; try lia; subst; done.
Qed.

(** A header that fits its block reads back as it was written. *)
Lemma header_roundtrip l x :
  length x = 512%nat -> 0 <= lh_n l <= LOGSIZE ->
  (forall b, b ∈ lh_list l -> 0 <= b < FSSIZE) ->
  length (header_bytes l x) = 512%nat /\
  hdr_n (header_bytes l x) = lh_n l /\ hdr_blocks (header_bytes l x) = lh_list l.
Proof.
  intros Hx Hn Hb. unfold header_bytes.
  destruct (write_blocks_spec (Z.to_nat (lh_n l)) 0 (lh_block l) (put32 x 0 (lh_n l)))
    as (H1 & H2 & H3).
  { rewrite length_put32, Hx. unfold hdr_off, LOGSIZE, MAXOPBLOCKS in *. lia. }
  rewrite length_put32 in H1. set (y := write_blocks _ _ _ _) in *.
  assert (E : hdr_n y = lh_n l).
  { unfold hdr_n. rewrite H2 by (unfold hdr_off; lia). rewrite get32_put32 by lia.
    rewrite s32_u32. unfold LOGSIZE, MAXOPBLOCKS in Hn. by apply s32_small; lia. }
  split_and!; [by rewrite H1 | done |]. unfold hdr_blocks, lh_list. rewrite E.
  apply list_fmap_ext. intros i j Hj. apply lookup_seq in Hj as [-> Hj]. rewrite H3 by lia.
  rewrite s32_u32. apply s32_small. unfold FSSIZE in *.
  assert (Hin : lh_block l (0 + i) ∈ lh_list l).
  { unfold lh_list. apply list_elem_of_fmap. eexists. split; [done |]. apply elem_of_seq. lia. }
  specialize (Hb _ Hin). lia.
Qed.

(** ** Writes *)

Lemma apply_writes_notin ws d b : b ∉ ws.*1 -> apply_writes d ws b = d b.
Proof.
  revert d. induction ws as [|[c x] ws IH]; intros d Hb; simpl in *; [done |].
  apply not_elem_of_cons in Hb as [Hc Hb]. unfold apply_writes in *. simpl.
  rewrite IH by done. by apply bupd_other.
Qed.

(** What was on the disk before does not matter for blocks that are written. *)
Lemma apply_writes_agree ws d d' b :
  (b ∉ ws.*1 -> d b = d' b) -> apply_writes d ws b = apply_writes d' ws b.
Proof.
  revert d d'. induction ws as [|[c x] ws IH]; intros d d' Hb; simpl in *.
  { apply Hb, not_elem_of_nil. }
  unfold apply_writes in *. simpl. apply IH. intros Hn. unfold bupd. case_decide as E; [done |].
  apply Hb. by apply not_elem_of_cons.
Qed.

(** Repeating a sequence of writes over any prefix of it changes nothing. *)
Lemma apply_writes_redo ws k d b :
  apply_writes (apply_writes d (take k ws)) ws b = apply_writes d ws b.
Proof.
  apply apply_writes_agree. intros Hn. apply apply_writes_notin. intros Hk. apply Hn.
  apply list_elem_of_fmap in Hk as ([c x] & -> & Hk).
  apply list_elem_of_fmap. exists (c, x). split; [done |]. apply elem_of_take in Hk as (i & Hi & _).
  by eapply list_elem_of_lookup_2.
Qed.

(** The writes of [write_log] and of [install_trans], from log slot [p] on. *)
Fixpoint log_ws (p : Z) (L : list Z) (f : Z -> block) : list (Z * block) :=
  match L with [] => [] | b :: L' => (p, f b) :: log_ws (p + 1) L' f end.
Fixpoint inst_ws (p : Z) (L : list Z) (f : Z -> block) : list (Z * block) :=
  match L with [] => [] | b :: L' => (b, f p) :: inst_ws (p + 1) L' f end.

Lemma inst_ws_fst p L f : (inst_ws p L f).*1 = L.
Proof. revert p. induction L as [|b L IH]; intros p; simpl; [done |]. by rewrite IH. Qed.

Lemma log_ws_fst p L f c : c ∈ (log_ws p L f).*1 -> p <= c < p + Z.of_nat (length L).
Proof.
  revert p. induction L as [|b L IH]; intros p; simpl; [by intros ?%not_elem_of_nil |].
  intros [-> | Hc]%elem_of_cons; [lia |]. specialize (IH _ Hc). lia.
Qed.

Lemma length_log_ws p L f : length (log_ws p L f) = length L.
Proof. revert p. induction L as [|b L IH]; intros p; simpl; [done |]. by rewrite IH. Qed.

Lemma length_inst_ws p L f : length (inst_ws p L f) = length L.
Proof. revert p. induction L as [|b L IH]; intros p; simpl; [done |]. by rewrite IH. Qed.

Lemma log_ws_ext p L f g : (forall b, b ∈ L -> f b = g b) -> log_ws p L f = log_ws p L g.
Proof.
  revert p. induction L as [|b L IH]; intros p He; simpl; [done |].
  rewrite (He b) by (by left). f_equal. apply IH. intros c Hc. apply He. by right.
Qed.

Lemma inst_ws_ext p L f g :
  (forall c, p <= c < p + Z.of_nat (length L) -> f c = g c) -> inst_ws p L f = inst_ws p L g.
Proof.
  revert p. induction L as [|b L IH]; intros p He; simpl in *; [done |].
  rewrite (He p) by lia. f_equal. apply IH. intros c Hc. apply He. lia.
Qed.

(** Installing what [write_log] wrote puts each block's logged contents in its place. *)
Lemma inst_of_log p L f d :
  inst_ws p L (apply_writes d (log_ws p L f)) = (fun b => (b, f b)) <$> L.
Proof.
  revert p d. induction L as [|b L IH]; intros p d; simpl; [done |]. f_equal.
  - unfold apply_writes. simpl. fold (apply_writes (bupd d p (f b)) (log_ws (p + 1) L f)).
    rewrite apply_writes_notin, bupd_same; [done |]. intros Hc%log_ws_fst. lia.
  - apply IH.
Qed.

Lemma apply_copies L f d b :
  apply_writes d ((fun b => (b, f b)) <$> L) b = if decide (b ∈ L) then f b else d b.
Proof.
  revert d. induction L as [|c L IH]; intros d.
  - rewrite decide_False by apply not_elem_of_nil. done.
  - unfold apply_writes in *. rewrite fmap_cons. cbn [foldl fst snd]. rewrite IH. unfold bupd.
    repeat case_decide; subst; try done; set_solver.
Qed.

(** ** The operations against the block store's view *)

(** The view after disk writes that also change the cached contents. *)
Definition v_run (ws : list (Z * block)) (D : gset Z) (v : bview) : bview :=
  BView (apply_writes (v_data v) ws) (apply_writes (v_disk v) ws) D ∅ (v_writes v ++ ws).

Lemma v_run_run ws ws' D D' v : v_run ws' D' (v_run ws D v) = v_run (ws ++ ws') D' v.
Proof. unfold v_run. simpl. by rewrite !apply_writes_app, app_assoc. Qed.

(** Where the log is, and that it is one the buffer cache can commit. *)
Record geom (l : log) : Prop := {
  gm_dev : ldev l = ROOTDEV;
  gm_start : 0 <= start l;
  gm_size : 2 <= lsize l <= Z.of_nat NBUF;
  gm_end : start l + lsize l <= FSSIZE
}.
Definition in_log (l : log) (b : Z) : Prop := start l <= b < start l + lsize l.

(** The home locations a header may name. *)
Record homes (l : log) (L : list Z) : Prop := {
  hm_len : Z.of_nat (length L) <= lsize l - 1;
  hm_nodup : NoDup L;
  hm_range : forall b, b ∈ L -> 0 <= b < FSSIZE /\ ~ in_log l b
}.

Section refinement.
Context {S : Type} `{BlockStoreLaws S}.
Implicit Types (s : S) (v : bview) (l : log).

Lemma on_st_ok {A} (m : M S A) l s a s' :
  m s = Ok a s' -> on_st m (LState l s) = Ok a (LState l s').
Proof. intros E. unfold on_st, zoom. simpl. by rewrite E. Qed.

(** A block is copied onto another and written: the common part of the two loops. *)
Definition v_copy (src dst : Z) (v : bview) : bview :=
  v_run [(dst, v_data v src)] (v_dirty v ∖ {[dst]}) v.

Lemma copy_ok l s v src dst (home : bool) :
  abs s v -> v_held v = ∅ -> 0 <= src < FSSIZE -> 0 <= dst < FSSIZE -> src <> dst ->
  (size (v_dirty v) < NBUF)%nat ->
  (if home then dst ∈ v_dirty v \/ v_dirty v = ∅ else src ∈ v_dirty v) ->
  (if home then src ∉ v_dirty v else dst ∉ v_dirty v) ->
  exists s', abs s' (v_copy src dst v) /\
  (a ← on_st (bread ROOTDEV (if home then src else dst)) ;
   b ← on_st (bread ROOTDEV (if home then dst else src)) ;
   let sb := if home then a else b in
   let db := if home then b else a in
   x ← b_data sb ;
   on_st (buf_set db x) ;; on_st (bwrite db) ;; on_st (brelse sb) ;; on_st (brelse db))
    (LState l s) = Ok tt (LState l s').
Proof.
  intros Ha Hh Hs Hd Hne Hroom Hdir Hcl.
  set (b1 := if home then src else dst). set (b2 := if home then dst else src).
  assert (Hb12 : b1 <> b2) by (destruct home; done).
  assert (Hr1 : 0 <= b1 < FSSIZE /\ 0 <= b2 < FSSIZE) by (destruct home; done).
  destruct Hr1 as [Hr1 Hr2].
  destruct (bread_law s v b1 Ha Hr1) as (i1 & s1 & E1 & A1 & B1 & K1).
  { rewrite Hh. set_solver. }
  { right. rewrite Hh, union_empty_r_L. exact Hroom. }
  erewrite bind_ok by (apply on_st_ok; exact E1).
  destruct (bread_law s1 _ b2 A1 Hr2) as (i2 & s2 & E2 & A2 & B2 & K2).
  { simpl. rewrite Hh. set_solver. }
  { simpl. rewrite Hh. destruct home; [| by left]. destruct Hdir as [? | Hemp]; [by left | right].
    rewrite Hemp, !union_empty_r_L, union_empty_l_L, size_singleton. unfold NBUF. lia. }
  erewrite bind_ok by (apply on_st_ok; exact E2). cbv zeta.
  set (sb := if home then i1 else i2). set (db := if home then i2 else i1).
  assert (B1' : is_buf s2 i1 b1). { apply K2; [simpl; set_solver | done]. }
  assert (Bs : is_buf s2 sb src /\ is_buf s2 db dst) by (destruct home; done).
  destruct Bs as [Bs Bd].
  erewrite bind_ok by reflexivity. simpl store. rewrite (data_law s2 _ sb src A2 Bs).
  set (v2 := v_hold b2 (v_hold b1 v)) in *.
  assert (Hheld : forall c, c ∈ v_held v2 <-> c = src \/ c = dst).
  { intros c. unfold v2, b1, b2. simpl. rewrite Hh. destruct home; set_solver. }
  destruct (set_law s2 v2 db dst (v_data v2 src) A2) as (s3 & E3 & A3 & K3); [set_solver | done |].
  erewrite bind_ok by (apply on_st_ok; exact E3).
  destruct (bwrite_law s3 _ db dst A3) as (s4 & E4 & A4 & K4); [simpl; set_solver | auto |].
  erewrite bind_ok by (apply on_st_ok; exact E4).
  destruct (brelse_law s4 _ sb src A4) as (s5 & E5 & A5 & K5); [simpl; set_solver | auto | |].
  { simpl. rewrite !bupd_other by done. destruct home; [right | left; set_solver].
    apply (clean_law s v src Ha). rewrite Hh. set_solver. }
  erewrite bind_ok by (apply on_st_ok; exact E5).
  destruct (brelse_law s5 _ db dst A5) as (s6 & E6 & A6 & _);
    [simpl; set_solver | apply K5; [done | simpl; set_solver | auto] | |].
  { simpl. right. by rewrite !bupd_same. }
  exists s6. split; [| by apply on_st_ok]. eapply eq_ind; [exact A6 |].
  unfold v_copy, v_run, apply_writes, v_drop, v_write, v_set, v2, v_hold. simpl. rewrite !bupd_same.
  f_equal. rewrite Hh. unfold b1, b2. destruct home; set_solver.
Qed.

Lemma write_log_loop_ok l k tail s v :
  geom l -> abs s v -> v_held v = ∅ -> (size (v_dirty v) < NBUF)%nat ->
  (forall c, c ∈ v_dirty v -> ~ in_log l c) -> Z.of_nat (tail + k) <= lsize l - 1 ->
  (forall b, b ∈ lh_block l <$> seq tail k -> b ∈ v_dirty v /\ 0 <= b < FSSIZE) ->
  let ws := log_ws (start l + Z.of_nat tail + 1) (lh_block l <$> seq tail k) (v_data v) in
  exists s', write_log_loop k tail (LState l s) = Ok tt (LState l s') /\
    abs s' (v_run ws (v_dirty v) v).
Proof.
  intros Hg. revert tail s v. induction k as [|k IH]; intros tail s v Ha Hh Hr Hlog Hsz HL ws.
  { exists s. split; [done |]. unfold v_run, ws. simpl. rewrite app_nil_r, <- Hh. by destruct v. }
  set (src := lh_block l tail). set (dst := start l + Z.of_nat tail + 1).
  assert (Hin : in_log l dst) by (unfold in_log, dst; lia).
  destruct (HL src) as [Hsd Hsr]; [simpl; by left |].
  assert (Hdst : dst ∉ v_dirty v). { intros Hd. by apply (Hlog dst). }
  destruct (copy_ok l s v src dst false)
    as (s1 & A1 & E1); [done | done | done | | set_solver | done | done | done |].
  { destruct Hg. unfold in_log in Hin. lia. }
  assert (Hdirty : v_dirty v ∖ {[dst]} = v_dirty v) by set_solver.
  unfold v_copy in A1. rewrite Hdirty in A1.
  destruct (IH (Datatypes.S tail) s1 _ A1) as (s2 & E2 & A2);
    [done | done | done | lia | intros b Hb; apply HL; simpl; by right |].
  exists s2. split.
  - cbn [write_log_loop]. erewrite bind_ok; [exact E2 |]. unfold log_block. erewrite bind_ok by reflexivity.
    cbn [lg]. rewrite (gm_dev l Hg). exact E1.
  - rewrite v_run_run in A2. eapply eq_ind; [exact A2 |]. f_equal. unfold ws.
    change (log_ws _ _ (v_data v)) with ([(dst, v_data v src)] ++
      log_ws (dst + 1) (lh_block l <$> seq (Datatypes.S tail) k) (v_data v)). f_equal.
    replace (start l + Z.of_nat (Datatypes.S tail) + 1) with (dst + 1) by lia.
    apply log_ws_ext. intros b Hb. apply bupd_other. intros ->. apply Hdst. apply HL. simpl. by right.
Qed.

Lemma install_loop_ok l k tail s v :
  geom l -> abs s v -> v_held v = ∅ -> (size (v_dirty v) < NBUF)%nat ->
  (forall c, c ∈ v_dirty v -> ~ in_log l c) -> Z.of_nat (tail + k) <= lsize l - 1 ->
  NoDup (lh_block l <$> seq tail k) ->
  (forall b, b ∈ lh_block l <$> seq tail k ->
     (b ∈ v_dirty v \/ v_dirty v = ∅) /\ 0 <= b < FSSIZE /\ ~ in_log l b) ->
  let ws := inst_ws (start l + Z.of_nat tail + 1) (lh_block l <$> seq tail k) (v_data v) in
  exists s', install_loop k tail (LState l s) = Ok tt (LState l s') /\
    abs s' (v_run ws (v_dirty v ∖ list_to_set (lh_block l <$> seq tail k)) v).
Proof.
  intros Hg. revert tail s v. induction k as [|k IH]; intros tail s v Ha Hh Hr Hlog Hsz Hnd HL ws.
  { exists s. split; [done |]. unfold v_run, ws. simpl.
    rewrite app_nil_r, difference_empty_L, <- Hh. by destruct v. }
  set (dst := lh_block l tail). set (src := start l + Z.of_nat tail + 1).
  assert (Hin : in_log l src) by (unfold in_log, src; lia).
  destruct (HL dst) as (Hdd & Hdr & Hdl); [simpl; by left |].
  apply list.NoDup_cons in Hnd as [Hdn Hnd].
  destruct (copy_ok l s v src dst true)
    as (s1 & A1 & E1); [done | done | | done | by intros -> | done | done | |].
  { destruct Hg. unfold in_log in Hin. lia. }
  { intros Hd. by apply (Hlog src). }
  destruct (IH (Datatypes.S tail) s1 _ A1) as (s2 & E2 & A2);
    [done | | simpl; set_solver | lia | done | |].
  { simpl. eapply Nat.le_lt_trans; [| exact Hr]. apply subseteq_size. set_solver. }
  { intros b Hb. destruct (HL b) as (Hb1 & Hb2 & Hb3); [simpl; by right |]. split; [| done].
    simpl. destruct Hb1 as [Hb1 | Hb1]; [left | right; set_solver].
    assert (b <> dst) by (intros ->; done). set_solver. }
  exists s2. split.
  - cbn [install_loop]. erewrite bind_ok; [exact E2 |]. unfold install_block. erewrite bind_ok by reflexivity.
    cbn [lg]. rewrite (gm_dev l Hg). exact E1.
  - unfold v_copy in A2. rewrite v_run_run in A2. eapply eq_ind; [exact A2 |]. f_equal.
    + unfold ws. change (inst_ws _ _ (v_data v)) with ([(dst, v_data v src)] ++
        inst_ws (src + 1) (lh_block l <$> seq (Datatypes.S tail) k) (v_data v)). f_equal.
      replace (start l + Z.of_nat (Datatypes.S tail) + 1) with (src + 1) by lia.
      apply inst_ws_ext. intros c Hc. apply bupd_other. intros ->. apply Hdl.
      cbn [fst] in Hc. rewrite length_fmap, length_seq in Hc. unfold in_log, src in *. lia.
    + simpl. fold dst. set_solver.
Qed.

Lemma write_head_ok l s v :
  geom l -> abs s v -> v_held v = ∅ -> (size (v_dirty v) < NBUF)%nat -> start l ∉ v_dirty v ->
  exists s', write_head (LState l s) = Ok tt (LState l s') /\
    abs s' (v_run [(start l, header_bytes l (v_data v (start l)))] (v_dirty v) v).
Proof.
  intros [Hdev Hg0 Hg1 Hg2] Ha Hh Hr Hn. unfold write_head. erewrite bind_ok by reflexivity. cbn [lg].
  rewrite Hdev. destruct (bread_law s v (start l) Ha) as (i & s1 & E1 & A1 & B1 & _).
  { lia. } { set_solver. } { right. by rewrite Hh, union_empty_r_L. }
  erewrite bind_ok by (apply on_st_ok; exact E1). erewrite bind_ok by reflexivity. cbn [store].
  rewrite (data_law s1 _ i _ A1 B1).
  destruct (set_law s1 _ i (start l) (header_bytes l (v_data v (start l))) A1) as (s2 & E2 & A2 & K2);
    [simpl; set_solver | done |].
  erewrite bind_ok by (apply on_st_ok; exact E2).
  destruct (bwrite_law s2 _ i (start l) A2) as (s3 & E3 & A3 & K3); [simpl; set_solver | auto |].
  erewrite bind_ok by (apply on_st_ok; exact E3).
  destruct (brelse_law s3 _ i (start l) A3) as (s4 & E4 & A4 & _); [simpl; set_solver | auto | |].
  { simpl. right. by rewrite !bupd_same. }
  exists s4. split; [apply on_st_ok; exact E4 |]. eapply eq_ind; [exact A4 |].
  unfold v_run, apply_writes, v_drop, v_write, v_set, v_hold. simpl. rewrite !bupd_same, Hh.
  f_equal; set_solver.
Qed.

Lemma read_head_ok l s v :
  geom l -> abs s v -> v_held v = ∅ -> (size (v_dirty v) < NBUF)%nat -> start l ∉ v_dirty v ->
  exists s' l', read_head (LState l s) = Ok tt (LState l' s') /\ abs s' v /\
    lh_n l' = hdr_n (v_data v (start l)) /\ lh_list l' = hdr_blocks (v_data v (start l)) /\
    start l' = start l /\ lsize l' = lsize l /\ ldev l' = ldev l /\
    outstanding l' = outstanding l /\ committing l' = committing l.
Proof.
  intros [Hdev Hg0 Hg1 Hg2] Ha Hh Hr Hn. unfold read_head. erewrite bind_ok by reflexivity. cbn [lg].
  rewrite Hdev. destruct (bread_law s v (start l) Ha) as (i & s1 & E1 & A1 & B1 & _).
  { lia. } { set_solver. } { right. by rewrite Hh, union_empty_r_L. }
  erewrite bind_ok by (apply on_st_ok; exact E1). erewrite bind_ok by reflexivity. cbn [store].
  rewrite (data_law s1 _ i _ A1 B1). change (v_data (v_hold (start l) v)) with (v_data v).
  set (x := v_data v (start l)).
  do 2 (erewrite bind_ok by reflexivity). cbn [lg store].
  destruct (brelse_law s1 _ i (start l) A1) as (s2 & E2 & A2 & _); [simpl; set_solver | done | |].
  { simpl. right. apply (clean_law s v _ Ha). set_solver. }
  exists s2. eexists. split; [apply on_st_ok; exact E2 |].
  destruct (read_blocks_spec (Z.to_nat (hdr_n x)) 0 x (set_n (s32 (get32 x 0)) l))
    as (R1 & R2 & R3 & R4 & R5 & R6 & R7).
  change (lh_n (set_n (s32 (get32 x 0)) l)) with (hdr_n x) in *.
  split_and!; [| exact R7 | | exact R2 | exact R3 | exact (eq_trans R6 Hdev) | exact R4 | exact R5].
  - eapply eq_ind; [exact A2 |]. unfold v_drop, v_hold. destruct v. simpl in *. subst. f_equal. set_solver.
  - unfold lh_list. rewrite R7. apply list_fmap_ext. intros j k Hk.
    apply lookup_seq in Hk as [-> Hk]. rewrite R1, decide_True by lia. done.
Qed.

(** ** Recovery *)

(** A disk whose log header is one that [commit] can have left. *)
Record wf_disk (l : log) (d : Z -> block) : Prop := {
  wf_len : length (d (start l)) = 512%nat;
  wf_n : 0 <= hdr_n (d (start l));
  wf_homes : homes l (hdr_blocks (d (start l)))
}.

(** The disk writes of [recover_from_log] on disk [d], and the contents it restores. *)
Definition rec_inst (l : log) (d : Z -> block) : list (Z * block) :=
  inst_ws (start l + 1) (hdr_blocks (d (start l))) d.
Definition rec_ws (l : log) (d : Z -> block) : list (Z * block) :=
  rec_inst l d ++ [(start l, put32 (d (start l)) 0 0)].
Definition recovered (l : log) (d : Z -> block) (b : Z) : block := apply_writes d (rec_inst l d) b.

(** A machine that has just booted from disk [d]: a cache with nothing held or dirty. *)
Record booted (l : log) (s : S) (v : bview) (d : Z -> block) : Prop := {
  bt_geom : geom l;
  bt_abs : abs s v;
  bt_clean : v_dirty v = ∅ /\ v_held v = ∅;
  bt_disk : forall b, v_disk v b = d b
}.

Lemma clear_header x : length x = 512%nat -> hdr_n (put32 x 0 0) = 0 /\ hdr_blocks (put32 x 0 0) = [].
Proof.
  intros Hx. assert (E : hdr_n (put32 x 0 0) = 0).
  { unfold hdr_n. by rewrite get32_put32 by lia. }
  split; [done |]. unfold hdr_blocks. by rewrite E.
Qed.

Lemma homes_nil l : geom l -> homes l [].
Proof.
  intros [_ _ Hs _]. split; [simpl; lia | apply NoDup_nil_2 |]. intros b Hb. by apply not_elem_of_nil in Hb.
Qed.

Lemma start_in_log l : geom l -> in_log l (start l).
Proof. intros [_ _ Hs _]. unfold in_log. lia. Qed.

Lemma length_hdr_blocks x : length (hdr_blocks x) = Z.to_nat (hdr_n x).
Proof. unfold hdr_blocks. by rewrite length_fmap, length_seq. Qed.

(** Writes to home locations leave the log alone. *)
Lemma homes_notin l L (ws : list (Z * block)) b : homes l L -> (forall c, c ∈ ws.*1 -> c ∈ L) -> in_log l b -> b ∉ ws.*1.
Proof. intros Hh Hw Hb Hin. apply Hw in Hin. by destruct (hm_range l L Hh b Hin). Qed.

Lemma v_run_ext ws ws' D v : ws = ws' -> v_run ws D v = v_run ws' D v.
Proof. by intros ->. Qed.

(** [install_trans] followed by clearing the header: the second half of [commit] and all of
    recovery once the header has been read. *)
Lemma install_clear_ok l s v :
  geom l -> abs s v -> v_held v = ∅ -> homes l (lh_list l) -> 0 <= lh_n l ->
  v_dirty v = list_to_set (lh_list l) \/ v_dirty v = ∅ ->
  exists s', (install_trans ;; on_lg (set_n 0) ;; write_head) (LState l s) = Ok tt (LState (set_n 0 l) s') /\
    abs s' (v_run (inst_ws (start l + 1) (lh_list l) (v_data v) ++
                   [(start l, put32 (v_data v (start l)) 0 0)]) ∅ v).
Proof.
  intros Hg Ha Hh Hm Hn Hd. pose proof Hg as [Hg1 Hg2 Hg3 Hg4]. pose proof Hm as [Hm1 Hm2 Hm3].
  assert (Hlen : length (lh_list l) = Z.to_nat (lh_n l)) by (unfold lh_list; by rewrite length_fmap, length_seq).
  assert (Hsz : (size (v_dirty v) < NBUF)%nat).
  { destruct Hd as [-> | ->]; [| rewrite size_empty; unfold NBUF; lia].
    rewrite size_list_to_set by done. lia. }
  assert (Hdl : forall c, c ∈ v_dirty v -> ~ in_log l c).
  { intros c Hc. destruct Hd as [E | E]; rewrite E in Hc; [| set_solver].
    apply elem_of_list_to_set in Hc. by apply Hm3. }
  destruct (install_loop_ok l (Z.to_nat (lh_n l)) 0 s v) as (s1 & E1 & A1);
    [done | done | done | done | done | lia | exact Hm2 | |].
  { intros b Hb. destruct (Hm3 b Hb). split; [| done].
    destruct Hd as [-> | ->]; [left; by apply elem_of_list_to_set | by right]. }
  change (Z.of_nat 0) with 0 in A1. rewrite Z.add_0_r in A1. fold (lh_list l) in A1.
  set (ws := inst_ws _ _ _) in *.
  assert (HD : v_dirty v ∖ list_to_set (lh_list l) = ∅) by (destruct Hd as [-> | ->]; set_solver).
  rewrite HD in A1.
  destruct (write_head_ok (set_n 0 l) s1 _ (Build_geom (set_n 0 l) Hg1 Hg2 Hg3 Hg4) A1) as (s2 & E2 & A2);
    [done | change (size (∅ : gset Z) < NBUF)%nat; rewrite size_empty; unfold NBUF; lia | set_solver |].
  exists s2. split.
  - unfold install_trans. erewrite bind_ok.
    2: { erewrite bind_ok by reflexivity. exact E1. }
    erewrite bind_ok by reflexivity. exact E2.
  - rewrite v_run_run in A2. eapply eq_ind; [exact A2 |]. apply v_run_ext. do 3 f_equal.
    change (put32 (apply_writes (v_data v) ws (start l)) 0 0 = put32 (v_data v (start l)) 0 0).
    rewrite apply_writes_notin; [done |]. eapply homes_notin; [exact Hm | | by apply start_in_log].
    unfold ws. by rewrite inst_ws_fst.
Qed.

Lemma recover_ok l s v d :
  booted l s v d -> wf_disk l d ->
  exists s' l', recover_from_log (LState l s) = Ok tt (LState l' s') /\
    abs s' (v_run (rec_ws l d) ∅ v) /\ lh_n l' = 0 /\ start l' = start l /\ lsize l' = lsize l /\
    ldev l' = ldev l /\ outstanding l' = outstanding l /\ committing l' = committing l.
Proof.
  intros [Hg Ha [Hd Hh] Hdisk] [W1 W2 W3]. pose proof Hg as [Hg1 Hg2 Hg3 Hg4].
  assert (Hdata : forall b, v_data v b = d b).
  { intros b. rewrite <- Hdisk. apply (clean_law s v b Ha). set_solver. }
  destruct (read_head_ok l s v Hg Ha Hh) as (s1 & l1 & E1 & A1 & N1 & L1 & F1 & F2 & F3 & F4 & F5);
    [rewrite Hd, size_empty; unfold NBUF; lia | set_solver |].
  rewrite Hdata in N1, L1.
  destruct (install_clear_ok l1 s1 v) as (s2 & E2 & A2).
  - by split; rewrite ?F1, ?F2, ?F3.
  - done.
  - done.
  - rewrite L1. destruct W3 as [M1 M2 M3]. split; [by rewrite F2 | done |]. unfold in_log. by rewrite F1, F2.
  - by rewrite N1.
  - by right.
  - exists s2, (set_n 0 l1). split; [| split; [| by rewrite <- F1, <- F2, <- F3, <- F4, <- F5]].
    + unfold recover_from_log. erewrite bind_ok by exact E1. exact E2.
    + eapply eq_ind; [exact A2 |]. apply v_run_ext. rewrite L1, F1, Hdata. unfold rec_ws, rec_inst. f_equal.
      apply inst_ws_ext. intros c _. apply Hdata.
Qed.

(** A crash at any point of recovery leaves a disk from which recovery restores the same. *)
Lemma rec_prefix l d k :
  geom l -> wf_disk l d ->
  let d' := apply_writes d (take k (rec_ws l d)) in
  wf_disk l d' /\ forall b, ~ in_log l b -> recovered l d' b = recovered l d b.
Proof.
  intros Hg Hw d'. pose proof Hw as [W1 W2 W3].
  assert (Hfst : forall c, c ∈ (rec_inst l d).*1 -> c ∈ hdr_blocks (d (start l))).
  { intros c. unfold rec_inst. by rewrite inst_ws_fst. }
  destruct (decide (k <= length (rec_inst l d))%nat) as [Hk | Hk].
  - assert (Ed : d' = apply_writes d (take k (rec_inst l d))).
    { unfold d', rec_ws. by rewrite take_app_le. }
    assert (Hlog : forall b, in_log l b -> d' b = d b).
    { intros b Hb. rewrite Ed. apply apply_writes_notin. eapply homes_notin; [exact W3 | | done].
      intros c Hc. apply Hfst. apply list_elem_of_fmap in Hc as (w & -> & Hc).
      apply list_elem_of_fmap. exists w. split; [done |].
      apply elem_of_take in Hc as (i & Hi & _). by eapply list_elem_of_lookup_2. }
    assert (Hst : d' (start l) = d (start l)) by apply Hlog, start_in_log, Hg.
    assert (Hri : rec_inst l d' = rec_inst l d).
    { unfold rec_inst. rewrite Hst. apply inst_ws_ext. intros c Hc. apply Hlog.
      destruct W3 as [M1 _ _]. unfold in_log. lia. }
    split; [by split; rewrite Hst |]. intros b Hb. unfold recovered. rewrite Hri, Ed.
    apply apply_writes_redo.
  - assert (Ed : d' = apply_writes d (rec_ws l d)).
    { unfold d'. rewrite take_ge; [done |]. unfold rec_ws. rewrite length_app. simpl. lia. }
    unfold rec_ws in Ed. rewrite apply_writes_app in Ed.
    assert (Hst : d' (start l) = put32 (d (start l)) 0 0) by (rewrite Ed; apply bupd_same).
    destruct (clear_header (d (start l)) W1) as [C1 C2]. split.
    + split; rewrite Hst; [by rewrite length_put32 | by rewrite C1 | rewrite C2; by apply homes_nil].
    + intros b Hb. unfold recovered, rec_inst. rewrite Hst, C2, Ed. apply bupd_other.
      intros ->. by apply Hb, start_in_log.
Qed.

(** ** Commit *)

(** Between operations: the dirty blocks are exactly the logged ones, and the header on disk is
    empty. *)
Record linv (l : log) (v : bview) : Prop := {
  li_geom : geom l;
  li_n : 0 <= lh_n l <= LOGSIZE;
  li_homes : homes l (lh_list l);
  li_dirty : v_dirty v = list_to_set (lh_list l);
  li_held : v_held v = ∅;
  li_hdr : length (v_disk v (start l)) = 512%nat /\ hdr_n (v_disk v (start l)) = 0
}.

(** The writes of [commit] up to and including the header, and all of them. *)
Definition log_part (l : log) (v : bview) : list (Z * block) :=
  log_ws (start l + 1) (lh_list l) (v_data v).
Definition commit_point (l : log) (v : bview) : list (Z * block) :=
  log_part l v ++ [(start l, header_bytes l (v_disk v (start l)))].
Definition commit_ws (l : log) (v : bview) : list (Z * block) :=
  commit_point l v ++ rec_ws l (apply_writes (v_disk v) (commit_point l v)).

Lemma length_lh_list l : length (lh_list l) = Z.to_nat (lh_n l).
Proof. unfold lh_list. by rewrite length_fmap, length_seq. Qed.

Section commit.
Context (l : log) (s : S) (v : bview) (Hi : linv l v) (Ha : abs s v).

Lemma linv_log_clean c : in_log l c -> v_data v c = v_disk v c.
Proof.
  destruct Hi as [_ _ Hm Hd Hh _]. intros Hc. apply (clean_law s v c Ha).
  rewrite Hd, Hh. intros [Hin | Hin]%elem_of_union; [| set_solver].
  apply elem_of_list_to_set in Hin. by destruct (hm_range _ _ Hm c Hin).
Qed.

Lemma log_part_start d : apply_writes d (log_part l v) (start l) = d (start l).
Proof. apply apply_writes_notin. intros Hc%log_ws_fst. lia. Qed.

(** What the disk holds once the header is written. *)
Lemma commit_point_disk :
  let d := apply_writes (v_disk v) (commit_point l v) in
  wf_disk l d /\ hdr_blocks (d (start l)) = lh_list l /\
  (forall b, ~ in_log l b -> recovered l d b = v_data v b).
Proof.
  intros d. destruct Hi as [Hg Hn Hm Hd Hh [Hl0 Hz]].
  assert (Hst : d (start l) = header_bytes l (v_disk v (start l))).
  { unfold d, commit_point. rewrite apply_writes_app. apply bupd_same. }
  destruct (header_roundtrip l (v_disk v (start l)) Hl0 Hn) as (R1 & R2 & R3).
  { intros b Hb. by apply (hm_range _ _ Hm). }
  assert (Hbl : hdr_blocks (d (start l)) = lh_list l) by (by rewrite Hst).
  split_and!; [| done |].
  - split; [by rewrite Hst | rewrite Hst, R2; lia | by rewrite Hbl].
  - intros b Hb. unfold recovered, rec_inst. rewrite Hbl.
    assert (Ei : inst_ws (start l + 1) (lh_list l) d = (fun b => (b, v_data v b)) <$> lh_list l).
    { rewrite <- (inst_of_log (start l + 1) (lh_list l) (v_data v) (v_disk v)).
      apply inst_ws_ext. intros c Hc. unfold d, commit_point. rewrite apply_writes_app.
      apply bupd_other. simpl. lia. }
    rewrite Ei, apply_copies. case_decide as Hin; [done |].
    unfold d. rewrite apply_writes_notin.
    + symmetry. apply (clean_law s v b Ha). rewrite Hd, Hh, union_empty_r_L.
      by rewrite elem_of_list_to_set.
    + unfold commit_point. rewrite fmap_app. intros [Hc | Hc]%elem_of_app; apply Hb.
      * apply log_ws_fst in Hc. pose proof (hm_len _ _ Hm). unfold in_log. lia.
      * apply list_elem_of_singleton in Hc. simpl in Hc. subst b. by apply start_in_log.
Qed.

Lemma commit_ok :
  0 < lh_n l ->
  exists s', commit (LState l s) = Ok tt (LState (set_n 0 l) s') /\ abs s' (v_run (commit_ws l v) ∅ v).
Proof.
  intros Hpos. destruct commit_point_disk as (Hw & Hbl & _).
  pose proof Hi as [Hg Hn Hm Hd Hh Hz]. pose proof Hm as [Hm1 Hm2 Hm3].
  assert (Hsz : (size (v_dirty v) < NBUF)%nat).
  { rewrite Hd, size_list_to_set by done. destruct Hg. lia. }
  assert (Hdl : forall c, c ∈ v_dirty v -> ~ in_log l c).
  { intros c Hc. rewrite Hd in Hc. apply elem_of_list_to_set in Hc. by apply Hm3. }
  rewrite length_lh_list in Hm1.
  destruct (write_log_loop_ok l (Z.to_nat (lh_n l)) 0 s v) as (s1 & E1 & A1);
    [done | done | done | done | done | lia | |].
  { intros b Hb. fold (lh_list l) in Hb. split; [| by apply Hm3]. rewrite Hd.
    by apply elem_of_list_to_set. }
  change (Z.of_nat 0) with 0 in A1. rewrite Z.add_0_r in A1. fold (lh_list l) in A1.
  fold (log_part l v) in A1.
  destruct (write_head_ok l s1 _ Hg A1) as (s2 & E2 & A2); [done | done | |].
  { simpl. intros Hc. apply (Hdl _ Hc), start_in_log, Hg. }
  rewrite v_run_run in A2. simpl in A2. rewrite log_part_start in A2.
  rewrite (linv_log_clean _ (start_in_log l Hg)) in A2. fold (commit_point l v) in A2.
  destruct (install_clear_ok l s2 _ Hg A2) as (s3 & E3 & A3); [done | done | lia | by left |].
  exists s3. split.
  - unfold commit. erewrite bind_ok by reflexivity. cbn [lg]. rewrite (proj2 (Z.ltb_lt _ _)) by done.
    erewrite bind_ok.
    2: { unfold write_log. erewrite bind_ok by reflexivity. exact E1. }
    erewrite bind_ok by exact E2. exact E3.
  - rewrite v_run_run in A3. eapply eq_ind; [exact A3 |]. apply v_run_ext. unfold commit_ws. f_equal.
    assert (Hsame : forall c, in_log l c ->
      v_data (v_run (commit_point l v) (v_dirty v) v) c = apply_writes (v_disk v) (commit_point l v) c).
    { intros c Hc. apply apply_writes_agree. intros _. by apply linv_log_clean. }
    unfold rec_ws, rec_inst. rewrite Hbl, (Hsame _ (start_in_log l Hg)). f_equal.
    apply inst_ws_ext. intros c Hc. apply Hsame. rewrite length_lh_list in Hc. unfold in_log. lia.
Qed.

(** A crash at any point of [commit] leaves a disk from which recovery restores either nothing or
    all of the transaction, depending on whether the header was written. *)
Lemma commit_prefix k :
  let d := apply_writes (v_disk v) (take k (commit_ws l v)) in
  wf_disk l d /\
  forall b, ~ in_log l b -> recovered l d b = if decide (k <= Z.to_nat (lh_n l))%nat then v_disk v b else v_data v b.
Proof.
  intros d. pose proof Hi as [Hg Hn Hm Hd Hh [Hz1 Hz2]].
  assert (Hlen : length (log_part l v) = Z.to_nat (lh_n l)).
  { unfold log_part. by rewrite length_log_ws, length_lh_list. }
  case_decide as Hk.
  - assert (Ed : d = apply_writes (v_disk v) (take k (log_part l v))).
    { unfold d, commit_ws, commit_point. rewrite <- app_assoc, take_app_le by lia. done. }
    assert (Hfst : forall c, c ∈ (take k (log_part l v)).*1 -> start l + 1 <= c < start l + lsize l).
    { intros c Hc. rewrite fmap_take in Hc. apply elem_of_take in Hc as (i & Hc & _).
      apply list_elem_of_lookup_2, log_ws_fst in Hc. pose proof (hm_len _ _ Hm). lia. }
    assert (Hst : d (start l) = v_disk v (start l)).
    { rewrite Ed. apply apply_writes_notin. intros Hc%Hfst. lia. }
    assert (Hnil : hdr_blocks (d (start l)) = []) by (unfold hdr_blocks; by rewrite Hst, Hz2).
    split.
    + split; [by rewrite Hst | by rewrite Hst, Hz2 | rewrite Hnil; by apply homes_nil].
    + intros b Hb. unfold recovered, rec_inst. rewrite Hnil.
      change (d b = v_disk v b). rewrite Ed. apply apply_writes_notin.
      intros Hc%Hfst. apply Hb. unfold in_log. lia.
  - destruct commit_point_disk as (Hw & _ & Hrec).
    assert (Ed : d = apply_writes (apply_writes (v_disk v) (commit_point l v))
      (take (k - length (commit_point l v)) (rec_ws l (apply_writes (v_disk v) (commit_point l v))))).
    { unfold d, commit_ws. rewrite take_app_ge, apply_writes_app; [done |].
      unfold commit_point. rewrite length_app, Hlen. simpl. lia. }
    destruct (rec_prefix l _ (k - length (commit_point l v)) Hg Hw) as [H1 H2].
    rewrite <- Ed in H1, H2. split; [done |]. intros b Hb. rewrite H2 by done. by apply Hrec.
Qed.
End commit.
End refinement.
