(* ===== verification/LogSteps.v ===== *)
(** * The steps of a commit

    [commit] of log.c runs without [log.lock].  Here it is followed one disk write at a time: after each step the block
    store has done a prefix of the writes of the commit, and the disk is one that recovery understands. *)
From S2P Require Import Prelude Ide BlockStore Bytes Log.
#[local] Open Scope Z_scope.

Lemma log_ws_lookup L f : forall p t, log_ws p L f !! t = (fun b => (p + Z.of_nat t, f b)) <$> L !! t.
Proof.
  induction L as [|b L IH]; intros p [|t]; cbn [log_ws lookup list_lookup]; [done | done | by rewrite Z.add_0_r |].
  change (log_ws (p + 1) L f !! t = (fun b => (p + Z.of_nat (S t), f b)) <$> L !! t). rewrite IH. destruct (L !! t); [| done].
  cbn. do 2 f_equal. lia.
Qed.

Lemma inst_ws_lookup L f : forall p t, inst_ws p L f !! t = (fun b => (b, f (p + Z.of_nat t))) <$> L !! t.
Proof.
  induction L as [|b L IH]; intros p [|t]; cbn [inst_ws lookup list_lookup]; [done | done | by rewrite Z.add_0_r |].
  change (inst_ws (p + 1) L f !! t = (fun b => (b, f (p + Z.of_nat (S t)))) <$> L !! t). rewrite IH. destruct (L !! t); [| done].
  cbn. do 3 f_equal. lia.
Qed.

Lemma lh_list_lookup l t : (t < Z.to_nat (lh_n l))%nat -> lh_list l !! t = Some (lh_block l t).
Proof. intros Ht. unfold lh_list. rewrite list_lookup_fmap, lookup_seq_lt by done. done. Qed.

(** Writes that store what is there change nothing. *)
Lemma apply_writes_same ws : forall d b, (forall w, w ∈ ws -> w.1 = b -> w.2 = d b) -> apply_writes d ws b = d b.
Proof.
  induction ws as [|[c x] ws IH]; intros d b Hw; [done |]. unfold apply_writes in *. cbn [foldl fst snd].
  assert (Hb : bupd d c x b = d b).
  { unfold bupd. case_decide as E; [| done]. exact (Hw (c, x) (list_elem_of_here _ _) (eq_sym E)). }
  rewrite IH, Hb; [done |]. intros w Hin E. rewrite Hb. apply Hw; [by right | done].
Qed.

Section steps.
Context {S : Type} `{BlockStoreLaws S}.
Context (l : log) (s0 : S) (v : bview) (Hi : linv l v) (Ha : abs s0 v).

Notation n := (Z.to_nat (lh_n l)).
Notation ws := (commit_ws l v).

(** The disk when the header is written. *)
Definition logged_disk : Z -> block := apply_writes (v_disk v) (commit_point l v).

Lemma commit_ws_parts :
  ws = log_part l v ++ (start l, header_bytes l (v_disk v (start l))) ::
       inst_ws (start l + 1) (lh_list l) logged_disk ++ [(start l, put32 (logged_disk (start l)) 0 0)].
Proof.
  destruct (commit_point_disk l s0 v Hi Ha) as (_ & Hbl & _). unfold commit_ws, rec_ws, rec_inst. fold logged_disk in *. rewrite Hbl.
  unfold commit_point. by rewrite <- (assoc_L (++)).
Qed.

Lemma length_log_part : length (log_part l v) = n.
Proof. unfold log_part. by rewrite length_log_ws, length_lh_list. Qed.

Lemma ws_log t : (t < n)%nat -> ws !! t = Some (start l + Z.of_nat t + 1, v_data v (lh_block l t)).
Proof.
  intros Ht. rewrite commit_ws_parts, lookup_app_l by (by rewrite length_log_part). unfold log_part.
  rewrite log_ws_lookup, lh_list_lookup by done. cbn. do 2 f_equal. lia.
Qed.

Lemma ws_head : ws !! n = Some (start l, header_bytes l (v_disk v (start l))).
Proof. rewrite commit_ws_parts, lookup_app_r, length_log_part, Nat.sub_diag by (by rewrite length_log_part). done. Qed.

Lemma ws_inst t : (t < n)%nat -> ws !! (n + 1 + t)%nat = Some (lh_block l t, logged_disk (start l + Z.of_nat t + 1)).
Proof.
  intros Ht. rewrite commit_ws_parts, lookup_app_r, length_log_part by (rewrite length_log_part; lia).
  replace (n + 1 + t - n)%nat with (Datatypes.S t) by lia. cbn [lookup list_lookup].
  change ((inst_ws (start l + 1) (lh_list l) logged_disk ++ [(start l, put32 (logged_disk (start l)) 0 0)]) !! t = Some (lh_block l t, logged_disk (start l + Z.of_nat t + 1))).
  rewrite lookup_app_l by (by rewrite length_inst_ws, length_lh_list). rewrite inst_ws_lookup, lh_list_lookup by done. cbn. do 3 f_equal. lia.
Qed.

Lemma ws_clear : ws !! (n + 1 + n)%nat = Some (start l, put32 (logged_disk (start l)) 0 0 : block).
Proof.
  rewrite commit_ws_parts, (lookup_app_r (log_part l v)) by (rewrite length_log_part; lia). rewrite length_log_part.
  replace (n + 1 + n - n)%nat with (Datatypes.S n) by lia. cbn [lookup list_lookup].
  change ((inst_ws (start l + 1) (lh_list l) logged_disk ++ [(start l, put32 (logged_disk (start l)) 0 0)]) !! n = Some (start l, put32 (logged_disk (start l)) 0 0)).
  rewrite lookup_app_r, length_inst_ws, length_lh_list, Nat.sub_diag by (by rewrite length_inst_ws, length_lh_list). done.
Qed.

Lemma length_ws : length ws = (n + 1 + n + 1)%nat.
Proof. rewrite commit_ws_parts. rewrite length_app, length_log_part. cbn [length]. rewrite length_app, length_inst_ws, length_lh_list. cbn [length]. lia. Qed.

(** What a write of the commit is, by its place. *)
Lemma ws_cases i w : ws !! i = Some w ->
  ((i <= n)%nat /\ in_log l w.1) \/ ((n < i)%nat /\ w.1 ∈ lh_list l /\ w.2 = v_data v w.1 /\ (i < n + 1 + n)%nat) \/ (i = (n + 1 + n)%nat /\ w.1 = start l).
Proof.
  intros Hw. pose proof Hi as [Hg Hn Hm Hd Hh Hz]. pose proof (hm_len _ _ Hm) as Hlen. rewrite length_lh_list in Hlen.
  assert (Hlt : (i < length ws)%nat) by (by apply lookup_lt_Some in Hw). rewrite length_ws in Hlt.
  destruct (decide (i < n)%nat) as [Hlo | Hlo].
  { rewrite ws_log in Hw by done. injection Hw as <-. left. split; [lia |]. unfold in_log. cbn. lia. }
  destruct (decide (i = n)) as [-> | Hne].
  { rewrite ws_head in Hw. injection Hw as <-. left. split; [done | by apply start_in_log]. }
  destruct (decide (i = n + 1 + n)%nat) as [-> | Hne2].
  { rewrite ws_clear in Hw. injection Hw as <-. by right; right. }
  right; left. set (t := (i - n - 1)%nat). replace i with (n + 1 + t)%nat in Hw by lia. rewrite ws_inst in Hw by lia. injection Hw as <-. cbn [fst snd].
  split; [lia |]. split; [by eapply list_elem_of_lookup_2, lh_list_lookup; lia |]. split; [| lia].
  unfold logged_disk, commit_point. rewrite apply_writes_app. unfold apply_writes at 1. cbn [foldl fst snd]. rewrite bupd_other by lia.
  pose proof (inst_of_log (start l + 1) (lh_list l) (v_data v) (v_disk v)) as Ho. apply (f_equal (lookup t)) in Ho.
  rewrite inst_ws_lookup, list_lookup_fmap, lh_list_lookup in Ho by lia. cbn in Ho. injection Ho as Ho. unfold log_part. rewrite <- Ho. f_equal. lia.
Qed.

(** ** What readers see meanwhile *)

Lemma data_outside k b : ~ in_log l b -> apply_writes (v_data v) (take k ws) b = v_data v b.
Proof.
  intros Hb. apply apply_writes_same. intros w Hw <-. apply elem_of_take in Hw as (i & Hw & _).
  destruct (ws_cases i w Hw) as [[_ Hl] | [(_ & _ & E & _) | [_ E]]]; [done | done |]. destruct Hb. rewrite E. apply start_in_log, Hi.
Qed.

Lemma data_start k : (k <= n)%nat -> apply_writes (v_data v) (take k ws) (start l) = v_disk v (start l).
Proof.
  intros Hk. rewrite apply_writes_notin; [apply (linv_log_clean l s0 v Hi Ha), start_in_log, Hi |].
  intros Hin. apply list_elem_of_fmap in Hin as (w & E & Hw). apply elem_of_take in Hw as (i & Hw & Hik).
  rewrite ws_log in Hw by lia. injection Hw as <-. cbn in E. lia.
Qed.

Lemma data_log k c : (n + 1 <= k <= n + 1 + n)%nat -> in_log l c -> apply_writes (v_data v) (take k ws) c = logged_disk c.
Proof.
  intros Hk Hc. assert (Ecp : commit_point l v = take (n + 1) ws).
  { rewrite commit_ws_parts. unfold commit_point. rewrite take_app_ge, length_log_part by (rewrite length_log_part; lia). by replace (n + 1 - n)%nat with 1%nat by lia. }
  rewrite <- (take_drop (n + 1) (take k ws)), apply_writes_app, take_take, Nat.min_l by lia. rewrite apply_writes_notin.
  - unfold logged_disk. rewrite Ecp. apply apply_writes_agree. intros _. by apply (linv_log_clean l s0 v Hi Ha).
  - intros Hin. apply list_elem_of_fmap in Hin as (w & E & Hw). apply list_elem_of_lookup in Hw as (i & Hw). rewrite lookup_drop in Hw.
    apply lookup_take_Some in Hw as [Hw Hik]. destruct (ws_cases _ w Hw) as [[? _] | [(_ & Hin & _) | [? _]]]; [lia | | lia].
    pose proof (hm_range _ _ (li_homes _ _ Hi) _ Hin) as [_ Hno]. by subst c.
Qed.

(** ** The steps *)

(** The view after [k] writes, the first [j] logged blocks being installed. *)
Definition view_at (k j : nat) : bview := v_run (take k ws) (v_dirty v ∖ list_to_set (take j (lh_list l))) v.

Lemma view_at_dirty k j b : b ∈ v_dirty (view_at k j) -> b ∈ lh_list l.
Proof. unfold view_at. cbn. rewrite (li_dirty _ _ Hi). set_solver. Qed.

Lemma view_at_room k j : (size (v_dirty (view_at k j)) < NBUF)%nat.
Proof.
  pose proof Hi as [Hg _ Hm Hd _ _]. eapply Nat.le_lt_trans; [apply (subseteq_size _ (list_to_set (lh_list l))) |].
  - intros b Hb. apply view_at_dirty in Hb. by apply elem_of_list_to_set.
  - rewrite size_list_to_set by apply Hm. pose proof (hm_len _ _ Hm). pose proof (gm_size _ Hg). lia.
Qed.

Lemma view_at_clean k j c : in_log l c -> c ∉ v_dirty (view_at k j).
Proof. intros Hc Hin. apply view_at_dirty in Hin. by destruct (hm_range _ _ (li_homes _ _ Hi) c Hin). Qed.

(** One more write of the commit. *)
Lemma view_next k j j' w : ws !! k = Some w ->
  v_dirty v ∖ list_to_set (take j (lh_list l)) ∖ {[w.1]} = v_dirty v ∖ list_to_set (take j' (lh_list l)) ->
  v_run [w] (v_dirty (view_at k j) ∖ {[w.1]}) (view_at k j) = view_at (Datatypes.S k) j'.
Proof. intros Hw Hd. unfold view_at at 2. rewrite v_run_run. unfold view_at. cbn [v_dirty v_run]. by rewrite Hd, (take_S_r _ _ _ Hw). Qed.

Lemma log_block_step t s : (t < n)%nat -> abs s (view_at t 0) ->
  exists s', log_block t (LState l s) = Ok tt (LState l s') /\ abs s' (view_at (Datatypes.S t) 0).
Proof.
  intros Ht A. pose proof Hi as [Hg _ Hm Hd _ _]. pose proof (hm_len _ _ Hm) as Hlen. rewrite length_lh_list in Hlen.
  set (src := lh_block l t). set (dst := start l + Z.of_nat t + 1).
  assert (Hsrc : src ∈ lh_list l) by (by eapply list_elem_of_lookup_2, lh_list_lookup).
  destruct (hm_range _ _ Hm src Hsrc) as [Hr Hno]. assert (Hdst : in_log l dst) by (unfold in_log, dst; lia).
  destruct (copy_ok l s (view_at t 0) src dst false A) as (s' & A' & E); [done | done | | congruence | apply view_at_room | | by apply view_at_clean |].
  { destruct Hg. unfold in_log in Hdst. lia. }
  { cbn. rewrite Hd. set_solver. }
  exists s'. split; [unfold log_block; erewrite bind_ok by reflexivity; cbn [lg]; rewrite (gm_dev l Hg); exact E |].
  unfold v_copy in A'. change (v_data (view_at t 0) src) with (apply_writes (v_data v) (take t ws) src) in A'. rewrite data_outside in A' by done.
  eapply eq_ind; [exact A' |]. apply (view_next t 0 0 (dst, v_data v src)); [by apply ws_log |]. cbn [fst]. rewrite Hd.
  assert (dst ∉ lh_list l); [| set_solver]. intros Hin. by destruct (hm_range _ _ Hm dst Hin).
Qed.

Lemma head_step lg' k j x s : (lg' = l \/ lg' = set_n 0 l) -> abs s (view_at k j) ->
  header_bytes lg' (apply_writes (v_data v) (take k ws) (start l)) = x -> ws !! k = Some (start l, x) ->
  exists s', write_head (LState lg' s) = Ok tt (LState lg' s') /\ abs s' (view_at (Datatypes.S k) j).
Proof.
  intros Hl A Hx Hw. pose proof Hi as [Hg _ Hm Hd _ _]. assert (Hs : start lg' = start l) by (by destruct Hl as [-> | ->]).
  assert (Hnd : start l ∉ v_dirty (view_at k j)) by (apply view_at_clean, start_in_log, Hg).
  destruct (write_head_ok lg' s (view_at k j)) as (s' & E & A'); [destruct Hl as [-> | ->]; [done | by destruct Hg] | done | done | apply view_at_room | by rewrite Hs |].
  exists s'. split; [done |]. eapply eq_ind; [exact A' |]. rewrite Hs. change (v_data (view_at k j) (start l)) with (apply_writes (v_data v) (take k ws) (start l)).
  rewrite Hx. assert (Hdd : v_dirty (view_at k j) ∖ {[start l]} = v_dirty (view_at k j)) by set_solver.
  rewrite <- Hdd. by apply (view_next k j j (start l, x)).
Qed.

Lemma install_block_step t s : (t < n)%nat -> abs s (view_at (n + 1 + t) t) ->
  exists s', install_block t (LState l s) = Ok tt (LState l s') /\ abs s' (view_at (Datatypes.S (n + 1 + t)) (Datatypes.S t)).
Proof.
  intros Ht A. pose proof Hi as [Hg _ Hm Hd _ _]. pose proof (hm_len _ _ Hm) as Hlen. rewrite length_lh_list in Hlen.
  set (dst := lh_block l t). set (src := start l + Z.of_nat t + 1). pose proof (lh_list_lookup l t Ht) as Hlk. fold dst in Hlk.
  assert (Hin : dst ∈ lh_list l) by (by eapply list_elem_of_lookup_2).
  destruct (hm_range _ _ Hm dst Hin) as [Hr Hno]. assert (Hsrc : in_log l src) by (unfold in_log, src; lia).
  assert (Hdi : dst ∉ take t (lh_list l)).
  { intros Hx. apply elem_of_take in Hx as (i & Hi' & Hit). pose proof (NoDup_lookup _ _ _ _ (hm_nodup _ _ Hm) Hi' Hlk). lia. }
  destruct (copy_ok l s (view_at (n + 1 + t) t) src dst true A) as (s' & A' & E); [done | | done | congruence | apply view_at_room | | by apply view_at_clean |].
  { destruct Hg. unfold in_log in Hsrc. lia. }
  { left. cbn. rewrite Hd. set_solver. }
  exists s'. split; [unfold install_block; erewrite bind_ok by reflexivity; cbn [lg]; rewrite (gm_dev l Hg); exact E |].
  unfold v_copy in A'. change (v_data (view_at (n + 1 + t) t) src) with (apply_writes (v_data v) (take (n + 1 + t) ws) src) in A'. rewrite data_log in A' by (done || lia).
  eapply eq_ind; [exact A' |]. apply (view_next (n + 1 + t) t (Datatypes.S t) (dst, logged_disk src)); [by apply ws_inst |]. cbn [fst].
  rewrite (take_S_r _ _ _ Hlk), list_to_set_app_L. set_solver.
Qed.

(** ** Where a commit is *)

(** The writes done, the blocks installed and the log at each point. *)
Definition progress (pc : cpc) : nat * nat * log :=
  match pc with
  | CTest => (0, 0, l)%nat
  | CLog t => (t, 0, l)%nat
  | CHead => (n, 0, l)%nat
  | CInstall t => (n + 1 + t, t, l)%nat
  | CErase => (n + 1 + n, n, l)%nat
  | CClear => (n + 1 + n, n, set_n 0 l)%nat
  | CDone => if decide (n = 0)%nat then (0, 0, l)%nat else (n + 1 + n + 1, n, set_n 0 l)%nat
  end.
Definition pc_ok (pc : cpc) : Prop :=
  match pc with
  | CLog t | CInstall t => 0 < lh_n l /\ (t <= n)%nat
  | CHead | CErase | CClear => 0 < lh_n l
  | CTest | CDone => True
  end.

Record committing_at (pc : cpc) (st : lstate S) : Prop := {
  ca_pc : pc_ok pc;
  ca_log : lg st = (progress pc).2;
  ca_abs : abs (store st) (view_at (progress pc).1.1 (progress pc).1.2)
}.

Lemma committing_start : committing_at CTest (LState l s0).
Proof.
  split; [done | done |]. cbn [progress fst snd store]. unfold view_at, v_run. rewrite !take_0, list_to_set_nil, difference_empty_L, app_nil_r.
  unfold apply_writes. cbn [foldl]. rewrite <- (li_held _ _ Hi). by destruct v.
Qed.

(** Each step returns and leads to the next point; the commit point is passed exactly by the step at [CHead]. *)
Lemma commit_step_ok pc st : committing_at pc st ->
  exists pc' st', commit_step pc st = Ok pc' st' /\ committing_at pc' st' /\
    ((n < (progress pc').1.1)%nat <-> pc = CHead \/ (n < (progress pc).1.1)%nat).
Proof.
  intros [Hpc Hl A]. destruct st as [lg' s]. pose proof (li_n _ _ Hi) as Hn. cbn [lg store] in *. unfold commit_step. destruct pc as [|t | |t | | |]; cbn [progress pc_ok fst snd] in *; subst lg'; erewrite bind_ok by reflexivity; cbn [lg].
  - destruct (Z.ltb_spec 0 (lh_n l)); eexists _, _; (split; [reflexivity |]).
    + split; [split; [split; [done | lia] | done | done] |]. cbn. split; [lia | intros [[=] | ?]; lia].
    + split; [split; cbn [progress]; [done | |]; rewrite decide_True by lia; done |]. cbn [progress]. rewrite decide_True by lia. cbn. split; [lia | intros [[=] | ?]; lia].
  - destruct Hpc as [Hp Ht]. destruct (Z.ltb_spec (Z.of_nat t) (lh_n l)).
    + destruct (log_block_step t s) as (s' & E & A'); [lia | done |]. erewrite bind_ok by exact E. eexists _, _. split; [reflexivity |].
      split; [split; [split; [done | lia] | done | done] |]. cbn. split; [lia | intros [[=] | ?]; lia].
    + replace t with n in * by lia. eexists _, _. split; [reflexivity |]. split; [by split |]. cbn. split; [lia | intros [[=] | ?]; lia].
  - destruct (head_step l n 0 (header_bytes l (v_disk v (start l))) s) as (s' & E & A'); [by left | done | by rewrite data_start | apply ws_head |].
    erewrite bind_ok by exact E. eexists _, _. split; [reflexivity |]. replace (Datatypes.S n) with (n + 1 + 0)%nat in A' by lia.
    split; [split; [split; [done | lia] | done | done] |]. cbn. split; [by left | lia].
  - destruct Hpc as [Hp Ht]. destruct (Z.ltb_spec (Z.of_nat t) (lh_n l)).
    + destruct (install_block_step t s) as (s' & E & A'); [lia | done |]. erewrite bind_ok by exact E. eexists _, _. split; [reflexivity |].
      replace (Datatypes.S (n + 1 + t)) with (n + 1 + Datatypes.S t)%nat in A' by lia.
      split; [split; [split; [done | lia] | done | done] |]. cbn. split; [right; lia | lia].
    + replace t with n in * by lia. eexists _, _. split; [reflexivity |]. split; [by split |]. cbn. split; [right; lia | lia].
  - erewrite bind_ok by reflexivity. eexists _, _. split; [reflexivity |]. split; [by split |]. cbn. split; [right; lia | lia].
  - destruct (head_step (set_n 0 l) (n + 1 + n) n (put32 (logged_disk (start l)) 0 0) s) as (s' & E & A'); [by right | done | | apply ws_clear |].
    { rewrite data_log by (lia || apply start_in_log, Hi). done. }
    erewrite bind_ok by exact E. eexists _, _. split; [reflexivity |]. replace (Datatypes.S (n + 1 + n)) with (n + 1 + n + 1)%nat in A' by lia.
    split; [split; cbn [progress]; [done | |]; rewrite decide_False by lia; done |]. cbn [progress]. rewrite decide_False by lia. cbn. split; [right; lia | lia].
  - eexists _, _. split; [reflexivity |]. split; [by split |]. naive_solver.
Qed.

Lemma progress_log pc : start (progress pc).2 = start l /\ lsize (progress pc).2 = lsize l /\
  outstanding (progress pc).2 = outstanding l /\ committing (progress pc).2 = committing l /\ lh_n (progress pc).2 <= lh_n l.
Proof. pose proof (li_n _ _ Hi). destruct pc; cbn [progress]; try case_decide; cbn; split_and!; try done; lia. Qed.

(** A crash now leaves the contents from before the commit, or with the whole transaction once the header is written. *)
Lemma committing_crash pc : let d := v_disk (view_at (progress pc).1.1 (progress pc).1.2) in
  wf_disk l d /\ forall b, ~ in_log l b -> recovered l d b = if decide ((progress pc).1.1 <= n)%nat then v_disk v b else v_data v b.
Proof. apply (commit_prefix l s0 v Hi Ha). Qed.

(** The end: the log is empty and the disk has caught up with the readers. *)
Lemma committing_done st : committing_at CDone st ->
  let v' := view_at (progress CDone).1.1 (progress CDone).1.2 in
  lg st = set_n 0 l /\ linv (set_n 0 l) v' /\ forall b, ~ in_log l b -> v_data v' b = v_data v b /\ v_disk v' b = v_data v b.
Proof.
  intros [_ Hl A] v'. pose proof Hi as [Hg Hn Hm Hd Hh [Hz1 Hz2]]. assert (Hg0 : geom (set_n 0 l)) by (by destruct Hg).
  assert (Hlg : lg st = set_n 0 l). { rewrite Hl. cbn [progress]. case_decide as E; [| done]. assert (lh_n l = 0) by lia. destruct l. cbn in *. by subst. }
  assert (Hdirty : v_dirty v' = ∅).
  { unfold v'. cbn [progress]. case_decide as E; cbn [fst snd view_at v_run v_dirty]; rewrite Hd.
    - unfold lh_list. rewrite E. set_solver.
    - rewrite firstn_all2 by (rewrite length_lh_list; lia). set_solver. }
  assert (Hdata : forall b, ~ in_log l b -> v_data v' b = v_data v b) by (intros b Hb; by apply data_outside).
  assert (Hdisk : forall b, ~ in_log l b -> v_disk v' b = v_data v b).
  { intros b Hb. rewrite <- (Hdata b Hb). symmetry. apply (clean_law _ _ b A). fold v'. rewrite Hdirty. set_solver. }
  split; [done |]. split; [| auto]. split; [done | cbn; unfold LOGSIZE, MAXOPBLOCKS; lia | by apply homes_nil | by rewrite Hdirty | done |].
  change (start (set_n 0 l)) with (start l). unfold v'. cbn [progress]. case_decide as E; cbn [fst snd view_at v_run v_disk]; [by rewrite take_0 |].
  assert (Ew : take (n + 1 + n + 1) ws = take (n + 1 + n) ws ++ [(start l, put32 (logged_disk (start l)) 0 0)]).
  { replace (n + 1 + n + 1)%nat with (Datatypes.S (n + 1 + n)) by lia. apply take_S_r, ws_clear. }
  rewrite Ew, apply_writes_app. unfold apply_writes at 1 3. cbn [foldl fst snd]. rewrite !bupd_same, length_put32.
  destruct (commit_point_disk l s0 v Hi Ha) as ([W _ _] & _ & _). split; [exact W | by apply clear_header].
Qed.
End steps.

(** ** [commit] is the sequence of its steps *)

Section sequence.
Context {S : Type} `{BlockStore S}.

Inductive csteps : cpc -> lstate S -> cpc -> lstate S -> Prop :=
| cs_refl pc st : csteps pc st pc st
| cs_step pc st pc1 st1 pc2 st2 : commit_step pc st = Ok pc1 st1 -> csteps pc1 st1 pc2 st2 -> csteps pc st pc2 st2.

Lemma csteps_trans pc1 st1 pc2 st2 pc3 st3 : csteps pc1 st1 pc2 st2 -> csteps pc2 st2 pc3 st3 -> csteps pc1 st1 pc3 st3.
Proof. induction 1; [done |]. intros. eapply cs_step; eauto. Qed.

Lemma on_st_log {A} (m : M S A) st a st' : on_st m st = Ok a st' -> lg st' = lg st.
Proof. unfold on_st, zoom. destruct (m (store st)); [| done | done]. by intros [= _ <-]. Qed.

(** A sequence of operations on the store leaves the log record alone. *)
Ltac log_kept :=
  repeat match goal with
    | E : (_ ≫= _) _ = Ok _ _ |- _ => apply bind_inv in E as (? & ? & ? & ?)
    | E : on_st _ _ = Ok _ _ |- _ => apply on_st_log in E
    | E : gets _ _ = Ok _ _ |- _ => injection E as ? ?; subst
    | E : b_data _ _ = Ok _ _ |- _ => injection E as ? ?; subst
    end; congruence.

Lemma log_block_log t st st' : log_block t st = Ok tt st' -> lg st' = lg st.
Proof. unfold log_block. intros E. log_kept. Qed.
Lemma install_block_log t st st' : install_block t st = Ok tt st' -> lg st' = lg st.
Proof. unfold install_block. intros E. log_kept. Qed.
Lemma write_head_log st st' : write_head st = Ok tt st' -> lg st' = lg st.
Proof. unfold write_head. intros E. log_kept. Qed.

Lemma write_log_steps k : forall t st st', write_log_loop k t st = Ok tt st' -> lh_n (lg st) = Z.of_nat (t + k) ->
  csteps (CLog t) st CHead st' /\ lg st' = lg st.
Proof.
  induction k as [|k IH]; intros t st st' E Hn.
  - injection E as <-. split; [| done]. eapply cs_step; [| apply cs_refl]. unfold commit_step. erewrite bind_ok by reflexivity.
    by rewrite (proj2 (Z.ltb_ge _ _)) by lia.
  - cbn [write_log_loop] in E. apply bind_inv in E as ([] & st1 & E1 & E2). pose proof (log_block_log _ _ _ E1) as Hl.
    destruct (IH (Datatypes.S t) st1 st' E2) as [Hs Hl']; [rewrite Hl; lia |]. split; [| congruence]. eapply cs_step; [| exact Hs].
    unfold commit_step. erewrite bind_ok by reflexivity. rewrite (proj2 (Z.ltb_lt _ _)) by lia. by erewrite bind_ok by exact E1.
Qed.

Lemma install_steps k : forall t st st', install_loop k t st = Ok tt st' -> lh_n (lg st) = Z.of_nat (t + k) ->
  csteps (CInstall t) st CErase st' /\ lg st' = lg st.
Proof.
  induction k as [|k IH]; intros t st st' E Hn.
  - injection E as <-. split; [| done]. eapply cs_step; [| apply cs_refl]. unfold commit_step. erewrite bind_ok by reflexivity.
    by rewrite (proj2 (Z.ltb_ge _ _)) by lia.
  - cbn [install_loop] in E. apply bind_inv in E as ([] & st1 & E1 & E2). pose proof (install_block_log _ _ _ E1) as Hl.
    destruct (IH (Datatypes.S t) st1 st' E2) as [Hs Hl']; [rewrite Hl; lia |]. split; [| congruence]. eapply cs_step; [| exact Hs].
    unfold commit_step. erewrite bind_ok by reflexivity. rewrite (proj2 (Z.ltb_lt _ _)) by lia. by erewrite bind_ok by exact E1.
Qed.

(** Run by itself, [commit] does its steps one after the other. *)
Lemma commit_is_steps st st' : commit st = Ok tt st' -> csteps CTest st CDone st'.
Proof.
  unfold commit. intros E. erewrite bind_ok in E by reflexivity. destruct (Z.ltb_spec 0 (lh_n (lg st))) as [Hn | Hn].
  2: { injection E as <-. eapply cs_step; [| apply cs_refl]. unfold commit_step. erewrite bind_ok by reflexivity. by rewrite (proj2 (Z.ltb_ge _ _)) by lia. }
  apply bind_inv in E as ([] & st1 & E1 & E). apply bind_inv in E as ([] & st2 & E2 & E). apply bind_inv in E as ([] & st3 & E3 & E).
  apply bind_inv in E as ([] & st4 & E4 & E). unfold write_log in E1. erewrite bind_ok in E1 by reflexivity. unfold install_trans in E3. erewrite bind_ok in E3 by reflexivity.
  destruct (write_log_steps _ _ _ _ E1) as [S1 L1]; [lia |]. pose proof (write_head_log _ _ E2) as L2.
  destruct (install_steps _ _ _ _ E3) as [S3 L3]; [rewrite L2, L1; lia |].
  eapply cs_step. { unfold commit_step. erewrite bind_ok by reflexivity. by rewrite (proj2 (Z.ltb_lt _ _)) by lia. }
  eapply csteps_trans; [exact S1 |]. eapply cs_step. { unfold commit_step. erewrite bind_ok by reflexivity. by erewrite bind_ok by exact E2. }
  eapply csteps_trans; [exact S3 |]. eapply cs_step. { unfold commit_step. erewrite bind_ok by reflexivity. by erewrite bind_ok by exact E4. }
  eapply cs_step; [| apply cs_refl]. unfold commit_step. erewrite bind_ok by reflexivity. by erewrite bind_ok by exact E.
Qed.
End sequence.
