(* ===== verification/LogSys.v ===== *)
(** * The log under concurrent operations and crashes

    The theorems about log.c: any number of file-system operations run between [begin_op] and
    [end_op]; the last one to end commits, without holding [log.lock], while others read blocks and try to begin; the
    machine may crash at any disk write of a commit and again at any disk write of any later recovery. *)
From S2P Require Import Prelude Lock Ide Bio BlockStore Bytes Log LogSteps.
#[local] Open Scope Z_scope.

(** The disks left by machines that boot from [d], start to recover, and crash. *)
Inductive crashes (l : log) (d : Z -> block) : (Z -> block) -> Prop :=
| cr_none : crashes l d d
| cr_again k d' : crashes l d d' -> crashes l d (apply_writes d' (take k (rec_ws l d'))).

Lemma crashes_recovered l d d' :
  geom l -> wf_disk l d -> crashes l d d' ->
  wf_disk l d' /\ forall b, ~ in_log l b -> recovered l d' b = recovered l d b.
Proof.
  intros Hg Hw. induction 1 as [| k d' Hc [IH1 IH2]]; [done |].
  destruct (rec_prefix l d' k Hg IH1) as [H1 H2]. split; [done |].
  intros b Hb. by rewrite H2, IH2.
Qed.

Lemma rec_ws_recovered l d b : geom l -> ~ in_log l b -> apply_writes d (rec_ws l d) b = recovered l d b.
Proof.
  intros Hg Hb. unfold rec_ws. rewrite apply_writes_app. apply bupd_other. intros ->.
  by apply Hb, start_in_log.
Qed.

Lemma rec_ws_geom l l' d : start l = start l' -> rec_ws l d = rec_ws l' d.
Proof. intros E. unfold rec_ws, rec_inst. by rewrite E. Qed.

Lemma wf_disk_geom l l' d : start l = start l' -> lsize l = lsize l' -> wf_disk l d -> wf_disk l' d.
Proof.
  intros E1 E2 [W1 W2 [M1 M2 M3]]. rewrite E1 in *.
  split; [done | done |]. split; [by rewrite <- E2 | done |].
  intros b Hb. unfold in_log. rewrite <- E1, <- E2. by apply M3.
Qed.

Section system.
Context {S : Type} `{BlockStoreLaws S}.

(** ** log_write *)

Lemma absorb_spec k i bl b :
  let j := absorb k i bl b in
  (i <= j <= i + k)%nat /\ ((j < i + k)%nat -> bl j = b) /\ (forall m, (i <= m < j)%nat -> bl m <> b).
Proof.
  revert i. induction k as [|k IH]; intros i; simpl.
  - split_and!; lia.
  - destruct (Z.eqb_spec (bl i) b) as [E | E].
    + split_and!; [lia | lia | done | lia].
    + destruct (IH (Datatypes.S i)) as (H1 & H2 & H3). split_and!; [lia | lia | intros; apply H2; lia |].
      intros m Hm. destruct (decide (m = i)) as [-> | ?]; [done |]. apply H3. lia.
Qed.

(** The header after [log_write] of block [b]: unchanged if [b] is already there, else one longer. *)
Definition logged (b : Z) (l : log) : log :=
  let i := absorb (Z.to_nat (lh_n l)) 0 (lh_block l) b in
  let l1 := set_block i b l in
  if Z.of_nat i =? lh_n l then set_n (lh_n l + 1) l1 else l1.

Lemma logged_list b l :
  0 <= lh_n l ->
  (b ∈ lh_list l -> lh_list (logged b l) = lh_list l /\ lh_n (logged b l) = lh_n l) /\
  (b ∉ lh_list l -> lh_list (logged b l) = lh_list l ++ [b] /\ lh_n (logged b l) = lh_n l + 1).
Proof.
  intros Hn. unfold logged. destruct (absorb_spec (Z.to_nat (lh_n l)) 0 (lh_block l) b) as (H1 & H2 & H3).
  set (i := absorb _ _ _ _) in *.
  assert (Hin : b ∈ lh_list l <-> Z.of_nat i <> lh_n l).
  { unfold lh_list. rewrite list_elem_of_fmap. split.
    - intros (m & -> & Hm%elem_of_seq) E. apply (H3 m); [lia | done].
    - intros E. exists i. split; [symmetry; apply H2; lia |]. apply elem_of_seq. lia. }
  split; intros Hb.
  - rewrite (proj2 (Z.eqb_neq _ _)) by (by apply Hin). split; [| done].
    unfold lh_list. simpl. apply list_fmap_ext. intros m m' _. unfold fupd. case_decide as E; [| done].
    subst m'. symmetry. apply H2. apply Hin in Hb. lia.
  - assert (E : Z.of_nat i = lh_n l). { destruct (decide (Z.of_nat i = lh_n l)); [done |]. exfalso; by apply Hb, Hin. }
    rewrite (proj2 (Z.eqb_eq _ _)) by done. split; [| done]. unfold lh_list. simpl.
    replace (Z.to_nat (lh_n l + 1)) with (Z.to_nat (lh_n l) + 1)%nat by lia.
    rewrite seq_app, fmap_app. simpl. f_equal.
    + apply list_fmap_ext. intros m m' [-> Hm]%lookup_seq. apply fupd_other. lia.
    + replace (Z.to_nat (lh_n l)) with i by lia. by rewrite fupd_same.
Qed.

Lemma logged_fields b l :
  start (logged b l) = start l /\ lsize (logged b l) = lsize l /\ ldev (logged b l) = ldev l /\
  outstanding (logged b l) = outstanding l /\ committing (logged b l) = committing l.
Proof. unfold logged. by destruct (_ =? _). Qed.

Lemma log_write_ok l s v i b :
  abs s v -> b ∈ v_held v -> is_buf s i b ->
  (exists s', log_write i (LState l s) = Ok tt (LState (logged b l) s') /\ abs s' (v_pin b v) /\
     (forall j c, is_buf s j c -> is_buf s' j c) /\
     lh_n l < LOGSIZE /\ lh_n l < lsize l - 1 /\ 1 <= outstanding l) \/
  (exists msg, log_write i (LState l s) = Panicked msg /\
     (LOGSIZE <= lh_n l \/ lsize l - 1 <= lh_n l \/ outstanding l < 1)).
Proof.
  intros Ha Hb Hi. unfold log_write. erewrite bind_ok by reflexivity. cbn [lg].
  zcase (LOGSIZE <=? lh_n l); [right; eexists; split; [done | lia] |].
  zcase (lsize l - 1 <=? lh_n l); [right; eexists; split; [done | lia] |]. simpl.
  zcase (outstanding l <? 1); [right; eexists; split; [done | lia] |]. left.
  erewrite bind_ok by reflexivity. cbn [store]. rewrite (no_law s i b Hi).
  destruct (pin_law s v i b Ha Hb Hi) as (s' & E & A & K). exists s'. split_and!; try done.
  erewrite bind_ok by reflexivity. unfold logged. cbn [lg store].
  set (j := absorb _ _ _ _). destruct (Z.of_nat j =? lh_n l); erewrite bind_ok by reflexivity;
    by apply on_st_ok.
Qed.

Lemma linv_logged l v b x :
  linv l v -> 0 <= b < FSSIZE -> ~ in_log l b -> lh_n l < LOGSIZE -> lh_n l < lsize l - 1 ->
  linv (logged b l) (v_pin b (v_set b x v)).
Proof.
  intros [Hg Hn Hm Hd Hh Hz] Hb Hlog P1 P2.
  destruct (logged_fields b l) as (F1 & F2 & F3 & _).
  destruct (logged_list b l ltac:(lia)) as [Hin Hnew]. destruct Hm as [Hm1 Hm2 Hm3].
  assert (Hlen := length_lh_list l).
  assert (Hmr : forall c, c ∈ lh_list l \/ c = b -> 0 <= c < FSSIZE /\ ~ in_log (logged b l) c).
  { intros c Hc. unfold in_log. rewrite F1, F2. destruct Hc as [Hc | ->]; [by apply Hm3 | done]. }
  destruct (decide (b ∈ lh_list l)) as [Hbl | Hbl].
  - destruct (Hin Hbl) as [EL EN]. split; rewrite ?EL, ?EN; simpl; rewrite ?F1; try done.
    + destruct Hg. by split; rewrite ?F1, ?F2, ?F3.
    + split; [by rewrite F2 | done | auto].
    + set_solver.
  - destruct (Hnew Hbl) as [EL EN]. split; rewrite ?EL, ?EN; simpl; rewrite ?F1; try done.
    + destruct Hg. by split; rewrite ?F1, ?F2, ?F3.
    + lia.
    + split.
      * rewrite length_app, F2. simpl. lia.
      * apply list.NoDup_app. split_and!; [done | set_solver | apply NoDup_singleton].
      * intros c [Hc | Hc%list_elem_of_singleton]%elem_of_app; auto.
    + rewrite list_to_set_app_L, Hd. set_solver.
Qed.

(** Updating a block keeps the invariant; it is visible to later readers, and not on the disk. *)
Lemma update_block_ok l s v b f st' :
  abs s v -> linv l v -> 0 <= b < FSSIZE -> ~ in_log l b ->
  update_block b f (LState l s) = Ok tt st' ->
  exists s', st' = LState (logged b l) s' /\
    let v' := v_pin b (v_set b (f (v_data v b)) v) in
    abs s' v' /\ linv (logged b l) v' /\ lh_n l < LOGSIZE /\ 1 <= outstanding l.
Proof.
  intros Ha Hi Hb Hlog Hu. pose proof Hi as [Hg Hn Hm Hd Hh Hz].
  unfold update_block in Hu. erewrite bind_ok in Hu by reflexivity. cbn [lg] in Hu.
  rewrite (gm_dev l Hg) in Hu.
  destruct (bread_law s v b Ha Hb) as (i & s1 & E1 & A1 & B1 & _); [set_solver | right |].
  { rewrite Hh, union_empty_r_L, Hd, size_list_to_set by apply Hm.
    destruct Hm as [Hm1 _ _], Hg as [_ _ Hg3 _]. lia. }
  erewrite bind_ok in Hu by (apply on_st_ok; exact E1). erewrite bind_ok in Hu by reflexivity.
  cbn [store] in Hu. rewrite (data_law s1 _ i b A1 B1) in Hu.
  destruct (set_law s1 _ i b (f (v_data (v_hold b v) b)) A1) as (s2 & E2 & A2 & K2);
    [simpl; set_solver | done |].
  erewrite bind_ok in Hu by (apply on_st_ok; exact E2).
  destruct (log_write_ok l s2 _ i b A2) as [(s3 & E3 & A3 & K3 & P1 & P2 & P3) | (msg & E3 & _)];
    [simpl; set_solver | auto | | unfold mbind, M_bind in Hu; by rewrite E3 in Hu].
  erewrite bind_ok in Hu by exact E3.
  destruct (brelse_law s3 _ i b A3) as (s4 & E4 & A4 & _); [simpl; set_solver | auto | left; simpl; set_solver |].
  rewrite (on_st_ok _ _ _ _ _ E4) in Hu. injection Hu as <-. exists s4. split; [done |].
  assert (Ev : v_drop b (v_pin b (v_set b (f (v_data (v_hold b v) b)) (v_hold b v))) =
               v_pin b (v_set b (f (v_data v b)) v)).
  { unfold v_drop, v_pin, v_set, v_hold. simpl. f_equal. set_solver. }
  rewrite Ev in A4. cbv zeta. split_and!; [done | | done | done].
  by apply linv_logged.
Qed.

(** ** The system *)

Record conf := Conf {
  cst : lstate S;
  ops : gmap nat nat;            (* running operations, with the number of blocks each has logged *)
  commits : gmap nat cpc;        (* processes that are committing, and where they are *)
  current : Z -> block;          (* what readers see *)
  committed : Z -> block         (* what a crash now would leave *)
}.

(** A process reads a block, inside an operation or not. *)
Definition read_block (b : Z) : M (lstate S) unit :=
  l ← gets lg ;
  bp ← on_st (bread (ldev l) b) ;
  on_st (brelse bp).

(** The steps of processes: a critical section of [begin_op], [log_write] or [end_op], or a step of [commit], which the
    buffer locks make atomic for the blocks it copies. *)
Inductive lstep : conf -> conf -> Prop :=
| st_begin p c s' :
    ops c !! p = None -> commits c !! p = None -> begin_op (cst c) = Ok tt s' ->
    lstep c (Conf s' (<[p := 0%nat]> (ops c)) (commits c) (current c) (committed c))
| st_read b c s' :
    0 <= b < FSSIZE -> read_block b (cst c) = Ok tt s' ->
    lstep c (Conf s' (ops c) (commits c) (current c) (committed c))
| st_update p n b f c s' :
    ops c !! p = Some n -> Z.of_nat n < MAXOPBLOCKS -> 0 <= b < FSSIZE -> ~ in_log (lg (cst c)) b ->
    update_block b f (cst c) = Ok tt s' ->
    lstep c (Conf s' (<[p := Datatypes.S n]> (ops c)) (commits c) (bupd (current c) b (f (current c b)))
               (committed c))
| st_end p n c (do_commit : bool) s' :
    ops c !! p = Some n -> end_op_enter (cst c) = Ok do_commit s' ->
    lstep c (Conf s' (delete p (ops c)) (if do_commit then <[p := CTest]> (commits c) else commits c) (current c) (committed c))
| st_commit p pc pc' c s' :
    commits c !! p = Some pc -> pc <> CDone -> commit_step pc (cst c) = Ok pc' s' ->
    lstep c (Conf s' (ops c) (<[p := pc']> (commits c)) (current c) (match pc with CHead => current c | _ => committed c end))
| st_leave p c s' :
    commits c !! p = Some CDone -> end_op_leave (cst c) = Ok tt s' ->
    lstep c (Conf s' (ops c) (delete p (commits c)) (current c) (committed c)).

(** The log space the running operations may still use. *)
Definition reserved (m : gmap nat nat) : Z :=
  map_fold (fun _ n z => MAXOPBLOCKS - Z.of_nat n + z) 0 m.

Lemma reserved_insert m p n :
  m !! p = None -> reserved (<[p := n]> m) = MAXOPBLOCKS - Z.of_nat n + reserved m.
Proof. intros Hp. unfold reserved. rewrite map_fold_insert_L; [done | intros; lia | done]. Qed.

Lemma reserved_delete m p n :
  m !! p = Some n -> reserved m = MAXOPBLOCKS - Z.of_nat n + reserved (delete p m).
Proof.
  intros Hp. rewrite <- (insert_delete_id m p n Hp) at 1.
  apply reserved_insert, lookup_delete_eq.
Qed.

(** No commit runs. *)
Record cinv (c : conf) (v : bview) : Prop := {
  ci_abs : abs (store (cst c)) v;
  ci_log : linv (lg (cst c)) v;
  ci_idle : committing (lg (cst c)) = false /\ commits c = ∅;
  ci_out : outstanding (lg (cst c)) = Z.of_nat (size (ops c));
  ci_current : forall b, ~ in_log (lg (cst c)) b -> v_data v b = current c b;
  ci_committed : forall b, ~ in_log (lg (cst c)) b -> v_disk v b = committed c b;
  ci_count : forall p n, ops c !! p = Some n -> Z.of_nat n <= MAXOPBLOCKS;
  ci_reserved : lh_n (lg (cst c)) + reserved (ops c) <= LOGSIZE
}.

(** Process [p] commits and is at [pc]; it began in a state with log [l], store [s] and view [v]. *)
Record kinv (c : conf) (p : nat) (pc : cpc) (l : log) (s : S) (v : bview) : Prop := {
  ki_log : linv l v;
  ki_abs : abs s v;
  ki_flags : committing l = true /\ outstanding l = 0;
  ki_who : ops c = ∅ /\ commits c = {[ p := pc ]};
  ki_at : committing_at l v pc (cst c);
  ki_current : forall b, ~ in_log l b -> v_data v b = current c b;
  ki_committed : forall b, ~ in_log l b ->
    (if decide ((progress l pc).1.1 <= Z.to_nat (lh_n l))%nat then v_disk v b else v_data v b) = committed c b
}.

Definition sysinv (c : conf) : Prop := (exists v, cinv c v) \/ exists p pc l s v, kinv c p pc l s v.

Lemma reserved_bound m :
  (forall p n, m !! p = Some n -> Z.of_nat n <= MAXOPBLOCKS) ->
  0 <= reserved m <= MAXOPBLOCKS * Z.of_nat (size m).
Proof.
  induction m as [|p n m Hp IH] using map_ind; intros Hc.
  { unfold reserved. rewrite map_fold_empty, map_size_empty. unfold MAXOPBLOCKS. lia. }
  rewrite reserved_insert, map_size_insert_None by done.
  assert (Z.of_nat n <= MAXOPBLOCKS) by (apply (Hc p); by rewrite lookup_insert_eq).
  assert (0 <= reserved m <= MAXOPBLOCKS * Z.of_nat (size m)).
  { apply IH. intros q k Hq. apply (Hc q). rewrite lookup_insert_ne; [done |]. by intros ->; rewrite Hp in Hq. }
  unfold MAXOPBLOCKS in *. lia.
Qed.

Lemma linv_set_out o l v : linv l v -> linv (set_out o l) v.
Proof. intros [[] ? [] ? ? ?]. split; [by split | done | by split | done ..]. Qed.

Lemma linv_set_committing x l v : linv l v -> linv (set_committing x l) v.
Proof. intros [[] ? [] ? ? ?]. split; [by split | done | by split | done ..]. Qed.

Lemma begin_step c v p s' :
  cinv c v -> ops c !! p = None -> begin_op (cst c) = Ok tt s' ->
  cinv (Conf s' (<[p := 0%nat]> (ops c)) (commits c) (current c) (committed c)) v.
Proof.
  intros [I1 I2 I3 I4 I5 I6 I7 I8] Hp Hb. destruct c as [[l s] m k cur com]. simpl in *.
  unfold begin_op in Hb. erewrite bind_ok in Hb by reflexivity. cbn [lg] in Hb. rewrite (proj1 I3) in Hb.
  zcase (LOGSIZE <? lh_n l + (outstanding l + 1) * MAXOPBLOCKS); [done |].
  injection Hb as <-. split; simpl; try done.
  - by apply linv_set_out.
  - rewrite map_size_insert_None by done. lia.
  - intros q n [[<- <-] | [_ Hq]]%lookup_insert_Some; [unfold MAXOPBLOCKS; lia | by apply (I7 q)].
  - rewrite reserved_insert by done. pose proof (reserved_bound m I7). lia.
Qed.

Lemma update_step c v p n b f s' :
  cinv c v -> ops c !! p = Some n -> Z.of_nat n < MAXOPBLOCKS -> 0 <= b < FSSIZE ->
  ~ in_log (lg (cst c)) b -> update_block b f (cst c) = Ok tt s' ->
  cinv (Conf s' (<[p := Datatypes.S n]> (ops c)) (commits c) (bupd (current c) b (f (current c b))) (committed c))
    (v_pin b (v_set b (f (v_data v b)) v)).
Proof.
  intros [I1 I2 I3 I4 I5 I6 I7 I8] Hp Hn Hb Hlog Hu. destruct c as [[l s] m k cur com]. simpl in *.
  destruct (update_block_ok l s v b f s' I1 I2 Hb Hlog Hu) as (s1 & -> & A & L & P1 & P2).
  destruct (logged_fields b l) as (F1 & F2 & F3 & F4 & F5).
  split; simpl; unfold in_log; rewrite ?F1, ?F2, ?F4, ?F5; try done.
  - rewrite map_size_insert_Some; [done | by eexists].
  - intros c Hc. unfold bupd. case_decide; [| by apply I5]. by rewrite I5.
  - intros q j [[<- <-] | [_ Hq]]%lookup_insert_Some; [lia | by apply (I7 q)].
  - rewrite <- insert_delete_eq, reserved_insert by apply lookup_delete_eq.
    rewrite (reserved_delete m p n Hp) in I8.
    destruct (logged_list b l ltac:(apply I2)) as [Hin Hnew].
    destruct (decide (b ∈ lh_list l)) as [Hbl | Hbl];
      [destruct (Hin Hbl) as [_ ->] | destruct (Hnew Hbl) as [_ ->]]; lia.
Qed.

Lemma lh_list_0 l : lh_list (set_n 0 l) = [].
Proof. done. Qed.

(** [commit] from a consistent state: the disk catches up with what readers see. *)
Lemma commit_done l s v :
  abs s v -> linv l v ->
  exists s' v', commit (LState l s) = Ok tt (LState (set_n 0 l) s') /\ abs s' v' /\
    linv (set_n 0 l) v' /\
    forall b, ~ in_log l b -> v_data v' b = v_data v b /\ v_disk v' b = v_data v b.
Proof.
  intros Ha Hi. pose proof Hi as [Hg Hn Hm Hd Hh [Hz1 Hz2]].
  assert (Hg0 : geom (set_n 0 l)) by (destruct Hg; by split).
  assert (Hm0 : homes (set_n 0 l) []) by by apply homes_nil.
  zcase (0 <? lh_n l).
  - destruct (commit_ok l s v Hi Ha) as (s' & E & A); [done |].
    exists s', (v_run (commit_ws l v) ∅ v). split; [done |]. split; [done |].
    destruct (commit_prefix l s v Hi Ha (length (commit_ws l v))) as [Hw Hrec].
    rewrite firstn_all in Hw, Hrec.
    set (d := apply_writes (v_disk v) (commit_ws l v)) in *.
    assert (Hst : d (start l) = put32 (apply_writes (v_disk v) (commit_point l v) (start l)) 0 0).
    { unfold d, commit_ws, rec_ws. rewrite !apply_writes_app. apply bupd_same. }
    destruct (commit_point_disk l s v Hi Ha) as ([W _ _] & _ & _).
    destruct (clear_header _ W) as [C1 C2]. rewrite <- Hst in C1, C2.
    assert (Hdisk : forall b, ~ in_log l b -> d b = v_data v b).
    { intros b Hb. specialize (Hrec b Hb). unfold recovered, rec_inst in Hrec. rewrite C2 in Hrec.
      change (d b = if decide (length (commit_ws l v) <= Z.to_nat (lh_n l))%nat
                    then v_disk v b else v_data v b) in Hrec.
      rewrite decide_False in Hrec; [done |]. unfold commit_ws, commit_point, log_part.
      rewrite !length_app, length_log_ws, length_lh_list. simpl. lia. }
    split; [split; simpl; try done; by split; [apply Hw |] |].
    intros b Hb. simpl. split; [| by apply Hdisk].
    rewrite <- (Hdisk b Hb). apply (clean_law s' _ b A). set_solver.
  - assert (E0 : lh_n l = 0) by lia. assert (El : set_n 0 l = l) by (destruct l; simpl in *; by subst).
    assert (Hnil : lh_list l = []) by (rewrite <- El; done).
    exists s, v. rewrite El. split_and!; try done.
    + unfold commit. erewrite bind_ok by reflexivity. cbn [lg]. by rewrite E0.
    + intros b Hb. split; [done |]. symmetry. apply (clean_law s v b Ha). rewrite Hd, Hh, Hnil. set_solver.
Qed.

(** Reading changes nothing but what is cached. *)
Lemma read_block_ok l s v b :
  abs s v -> v_held v = ∅ -> ldev l = ROOTDEV -> (size (v_dirty v) < NBUF)%nat -> 0 <= b < FSSIZE ->
  exists s', read_block b (LState l s) = Ok tt (LState l s') /\ abs s' v.
Proof.
  intros Ha Hh Hd Hr Hb. destruct (bread_law s v b Ha Hb) as (i & s1 & E1 & A1 & B1 & _); [set_solver | right; by rewrite Hh, union_empty_r_L |].
  destruct (brelse_law s1 _ i b A1) as (s2 & E2 & A2 & _); [simpl; set_solver | done | |].
  { simpl. destruct (decide (b ∈ v_dirty v)); [by left | right]. apply (clean_law s v b Ha). set_solver. }
  exists s2. split.
  - unfold read_block. erewrite bind_ok by reflexivity. cbn [lg]. rewrite Hd. erewrite bind_ok by (apply on_st_ok; exact E1). by apply on_st_ok.
  - eapply eq_ind; [exact A2 |]. unfold v_drop, v_hold. destruct v. simpl in *. subst. f_equal. set_solver.
Qed.

Lemma reader_step c v b s' : cinv c v -> 0 <= b < FSSIZE -> read_block b (cst c) = Ok tt s' ->
  cinv (Conf s' (ops c) (commits c) (current c) (committed c)) v.
Proof.
  intros [I1 I2 I3 I4 I5 I6 I7 I8] Hb E. destruct c as [[l s] m k cur com]. simpl in *. pose proof I2 as [Hg _ Hm Hd Hh _].
  destruct (read_block_ok l s v b I1 Hh (gm_dev _ Hg)) as (s1 & E1 & A1); [| done |].
  { rewrite Hd, size_list_to_set by apply Hm. pose proof (hm_len _ _ Hm). pose proof (gm_size _ Hg). lia. }
  rewrite E1 in E. injection E as <-. by split.
Qed.

Lemma end_op_enter_ok (l : log) (s : S) : committing l = false ->
  let l' := set_out (outstanding l - 1) l in
  end_op_enter (LState l s) = if outstanding l - 1 =? 0 then Ok true (LState (set_committing true l') s) else Ok false (LState l' s).
Proof.
  intros Hc l'. unfold end_op_enter. erewrite bind_ok by reflexivity. erewrite bind_ok by reflexivity. cbn [lg store]. fold l'.
  change (committing l') with (committing l). rewrite Hc. change (outstanding l') with (outstanding l - 1). by destruct (_ =? 0).
Qed.

(** The first critical section of [end_op]: the last operation starts the commit. *)
Lemma end_step c v p n :
  cinv c v -> ops c !! p = Some n ->
  exists (d : bool) s', end_op_enter (cst c) = Ok d s' /\
    sysinv (Conf s' (delete p (ops c)) (if d then <[p := CTest]> (commits c) else commits c) (current c) (committed c)).
Proof.
  intros [I1 I2 [I3 I3'] I4 I5 I6 I7 I8] Hp. destruct c as [[l s] m k cur com]. simpl in *.
  assert (Hsz : size m = Datatypes.S (size (delete p m))).
  { rewrite <- (insert_delete_id m p n Hp) at 1. by rewrite map_size_insert_None by apply lookup_delete_eq. }
  assert (Hc' : forall q j, delete p m !! q = Some j -> Z.of_nat j <= MAXOPBLOCKS).
  { intros q j [_ Hq]%lookup_delete_Some. by apply (I7 q). }
  pose proof (reserved_delete m p n Hp) as Hres. pose proof (I7 p n Hp) as Hn10.
  rewrite (end_op_enter_ok l s I3). cbv zeta. destruct (Z.eqb_spec (outstanding l - 1) 0) as [E | E].
  - exists true. eexists. split; [reflexivity |]. right.
    assert (Hemp : delete p m = ∅) by (apply map_size_empty_iff; lia). set (l1 := set_committing true (set_out (outstanding l - 1) l)).
    assert (L1 : linv l1 v) by (by apply linv_set_committing, linv_set_out).
    exists p, CTest, l1, s, v. split; try done.
    + split; [done | by rewrite I3'].
    + by apply committing_start.
  - exists false. eexists. split; [reflexivity |]. left. exists v. split; simpl; try done; [by apply linv_set_out | lia | lia].
Qed.

(** A reader does not disturb a commit. *)
Lemma commit_read c p pc l s v b s' : kinv c p pc l s v -> 0 <= b < FSSIZE -> read_block b (cst c) = Ok tt s' ->
  kinv (Conf s' (ops c) (commits c) (current c) (committed c)) p pc l s v.
Proof.
  intros [K1 K2 K3 K4 [A1 A2 A3] K6 K7] Hb E. destruct c as [[lg' st] m k cur com]. simpl in *.
  assert (Hdev : ldev lg' = ROOTDEV). { rewrite A2. pose proof (gm_dev _ (li_geom _ _ K1)) as Hdv. clear -Hdv. destruct pc; cbn [progress]; repeat case_decide; exact Hdv. }
  destruct (read_block_ok lg' st _ b A3 eq_refl Hdev (view_at_room l s v K1 K2 _ _) Hb) as (s1 & E1 & A'). rewrite E1 in E. injection E as <-. by split.
Qed.

Lemma commit_next c p pc pc' l s v s' : kinv c p pc l s v -> commit_step pc (cst c) = Ok pc' s' ->
  kinv (Conf s' (ops c) (<[p := pc']> (commits c)) (current c) (match pc with CHead => current c | _ => committed c end)) p pc' l s v.
Proof.
  intros [K1 K2 K3 [K4 K4'] K5 K6 K7] E. destruct (commit_step_ok l s v K1 K2 pc (cst c) K5) as (pc1 & s1 & E1 & C1 & Hk).
  rewrite E in E1. injection E1 as <- <-. split; try done; simpl.
  - split; [done |]. by rewrite K4', insert_singleton_eq.
  - intros b Hb. specialize (K7 b Hb). destruct (decide ((progress l pc').1.1 <= Z.to_nat (lh_n l))%nat) as [Hle | Hle].
    + assert (Hno : ~ (pc = CHead \/ (Z.to_nat (lh_n l) < (progress l pc).1.1)%nat)) by (rewrite <- Hk; lia).
      rewrite decide_True in K7 by (apply Nat.nlt_ge; tauto). destruct pc; try exact K7. tauto.
    + assert (Hk' : pc = CHead \/ (Z.to_nat (lh_n l) < (progress l pc).1.1)%nat) by (apply Hk; lia).
      destruct (decide (pc = CHead)) as [-> | Hne]; [by apply K6 |]. rewrite decide_False in K7 by (destruct Hk'; [done | lia]). by destruct pc.
Qed.

Lemma commit_leave c p l s v s' : kinv c p CDone l s v -> end_op_leave (cst c) = Ok tt s' ->
  exists v', cinv (Conf s' (ops c) (delete p (commits c)) (current c) (committed c)) v'.
Proof.
  intros [K1 K2 [K3 K3'] [K4 K4'] K5 K6 K7] E. destruct (committing_done l s v K1 K2 (cst c) K5) as (Hl & L & Hd).
  injection E as <-. eexists. split; simpl; rewrite ?Hl, ?K4, ?K4'.
  - apply K5.
  - by apply linv_set_committing.
  - split; [done | by rewrite delete_singleton_eq].
  - by rewrite map_size_empty.
  - intros b Hb. destruct (Hd b Hb) as [-> _]. by apply K6.
  - intros b Hb. destruct (Hd b Hb) as [E1 E2]. rewrite E2. specialize (K7 b Hb). cbn [progress] in K7, E1, E2. destruct (decide (Z.to_nat (lh_n l) = 0%nat)) as [E0 | E0].
    + rewrite decide_True in K7 by (cbn; lia). rewrite <- K7. symmetry. etransitivity; [| exact E2]. cbn [view_at v_run v_disk fst snd]. by rewrite take_0.
    + rewrite decide_False in K7 by (cbn; lia). done.
  - done.
  - unfold reserved. rewrite map_fold_empty. change (lh_n (set_n 0 l)) with 0. unfold LOGSIZE, MAXOPBLOCKS. lia.
Qed.

(** The state after boot: the log is empty, no operation runs. *)
Definition quiet (c : conf) : Prop :=
  exists v, abs (store (cst c)) v /\ linv (lg (cst c)) v /\ lh_n (lg (cst c)) = 0 /\
    committing (lg (cst c)) = false /\ outstanding (lg (cst c)) = 0 /\ ops c = ∅ /\ commits c = ∅ /\
    (forall b, ~ in_log (lg (cst c)) b -> v_data v b = current c b /\ v_disk v b = committed c b).

Lemma quiet_cinv c : quiet c -> exists v, cinv c v.
Proof.
  intros (v & Q1 & Q2 & Q3 & Q4 & Q5 & Q6 & Q6' & Q7). exists v. split; try done.
  - by rewrite Q5, Q6.
  - intros b Hb. by apply Q7.
  - intros b Hb. by apply Q7.
  - intros p n Hp. by rewrite Q6 in Hp.
  - rewrite Q3, Q6. unfold reserved. rewrite map_fold_empty. unfold LOGSIZE, MAXOPBLOCKS. lia.
Qed.

Lemma kinv_flags c p pc l s v : kinv c p pc l s v ->
  committing (lg (cst c)) = true /\ outstanding (lg (cst c)) = 0 /\ start (lg (cst c)) = start l /\ lsize (lg (cst c)) = lsize l /\
  lh_n (lg (cst c)) <= LOGSIZE.
Proof.
  intros [K1 K2 [K3 K3'] K4 [_ -> _] _ _]. destruct (progress_log l v K1 pc) as (-> & -> & -> & -> & Hn). pose proof (li_n _ _ K1). split_and!; [done .. | lia].
Qed.

Lemma sysinv_step c c' : sysinv c -> lstep c c' -> sysinv c'.
Proof.
  intros [[v Hv] | (q & pc0 & l & s & v & Hk)] Hs.
  - destruct Hs as [p c s' Hp _ Hb | b c s' Hb He | p n b f c s' Hp Hn Hb Hl Hu | p n c d s' Hp He | p pc pc' c s' Hp | p c s' Hp].
    + left. eexists. by eapply begin_step.
    + left. exists v. by eapply reader_step.
    + left. eexists. by eapply update_step.
    + destruct (end_step c v p n Hv Hp) as (d1 & s1 & E & Hc). rewrite E in He. by injection He as -> ->.
    + rewrite (proj2 (ci_idle _ _ Hv)) in Hp. done.
    + rewrite (proj2 (ci_idle _ _ Hv)) in Hp. done.
  - destruct (kinv_flags _ _ _ _ _ _ Hk) as (Hco & _). destruct (ki_who _ _ _ _ _ _ Hk) as [Hop Hcm].
    destruct Hs as [p c s' Hp _ Hb | b c s' Hb He | p n b f c s' Hp Hn Hb Hl Hu | p n c d s' Hp He | p pc pc' c s' Hp Hd He | p c s' Hp He].
    + unfold begin_op in Hb. erewrite bind_ok in Hb by reflexivity. by rewrite Hco in Hb.
    + right. exists q, pc0, l, s, v. by eapply commit_read.
    + by rewrite Hop in Hp.
    + by rewrite Hop in Hp.
    + rewrite Hcm in Hp. apply lookup_singleton_Some in Hp as [<- <-]. right. exists q, pc', l, s, v. by eapply commit_next.
    + rewrite Hcm in Hp. apply lookup_singleton_Some in Hp as [<- ->]. left. by eapply commit_leave.
Qed.

(** What a machine booted from the disk of a consistent state recovers. *)
Lemma crash_recovers (l0 : log) (d : Z -> block) (com : Z -> block) :
  wf_disk l0 d -> (forall b, ~ in_log l0 b -> recovered l0 d b = com b) ->
  forall l2 s2 v2, booted l2 s2 v2 d -> start l2 = start l0 -> lsize l2 = lsize l0 ->
  exists s3 l3 v3, recover_from_log (LState l2 s2) = Ok tt (LState l3 s3) /\ abs s3 v3 /\ lh_n l3 = 0 /\
    forall b, ~ in_log l2 b -> v_disk v3 b = com b.
Proof.
  intros Hw Hrec l2 s2 v2 Hb E1 E2. pose proof (bt_geom _ _ _ _ Hb) as Hg.
  destruct (recover_ok l2 s2 v2 d Hb (wf_disk_geom l0 l2 d (eq_sym E1) (eq_sym E2) Hw)) as (s3 & l3 & E3 & A3 & N3 & _).
  exists s3, l3, (v_run (rec_ws l2 d) ∅ v2). split_and!; [done | done | done |].
  intros b Hlb. simpl. rewrite (apply_writes_agree _ _ d b) by (intros _; apply Hb).
  rewrite rec_ws_recovered by done. rewrite <- Hrec by (unfold in_log in *; by rewrite <- E1, <- E2).
  unfold recovered, rec_inst. by rewrite E1.
Qed.

(** The empty header of a log in which nothing commits. *)
Lemma idle_disk l v : linv l v -> wf_disk l (v_disk v) /\ forall b, recovered l (v_disk v) b = v_disk v b.
Proof.
  intros [Hg _ _ _ _ [Z1 Z2]]. assert (Hnil : hdr_blocks (v_disk v (start l)) = []) by (unfold hdr_blocks; by rewrite Z2).
  split; [split; [done | by rewrite Z2 | rewrite Hnil; by apply homes_nil] |]. intros b. unfold recovered, rec_inst. by rewrite Hnil.
Qed.
End system.

(** ** A concrete machine *)

(** A zeroed cache over disk [d], before [binit]. *)
Definition cache_on (d : Z -> block) : bcache :=
  Bcache (fun _ => 0%nat) (fun _ => 0%nat)
    (Ide (fun _ => Buf 0 0 0 (Sleep.SL false 0) 0 []) [] true
      (Hw (fun _ => 0) 0x40 None [] (fun _ b => d b) [])).

Definition view_on (d : Z -> block) : bview := BView d d ∅ ∅ [].

Lemma boot_on d : exists s, binit (cache_on d) = Ok tt s /\ babs 1 s (view_on d).
Proof.
  destruct (binit_ok 1 (cache_on d)) as (s & E & _ & A); [by split_and! |]. exists s. split; [exact E | exact A].
Qed.

(** A disk with an empty log at block 2, and sevens elsewhere. *)
Definition demo_disk : Z -> block := fun b => if b =? 2 then replicate 512 0 else [7].
Definition demo_log : log := Log 2 30 0 false 1 0 (fun _ => 0).

Lemma demo_geom : geom demo_log.
Proof. by split. Qed.

Lemma demo_linv : linv demo_log (view_on demo_disk).
Proof. split; [apply demo_geom | done | apply homes_nil, demo_geom | done ..]. Qed.

(** ** Properties *)

(** C1: commits are atomic with respect to crashes.  From any consistent state of the log with a
    transaction to commit, over any block store, [commit] returns, leaves the log empty and makes
    the disk equal to what readers saw, outside the log.  Whatever prefix of its disk writes has
    happened when the machine crashes, and however many recoveries crash after it at whatever
    point, the recovery of a machine booted from the disk left behind returns, empties the log and
    restores, for every block outside the log, the contents before the transaction if the crash
    came before the header was written ([k] at most the number of logged blocks) and the contents
    with the whole transaction otherwise. *)
Theorem log_crash_atomic {S} `{BlockStoreLaws S} (l : log) (s : S) (v : bview) :
  linv l v -> abs s v -> 0 < lh_n l ->
  exists s', commit (LState l s) = Ok tt (LState (set_n 0 l) s') /\
    abs s' (v_run (commit_ws l v) ∅ v) /\
    (forall b, ~ in_log l b -> apply_writes (v_disk v) (commit_ws l v) b = v_data v b) /\
    forall k d l2 s2 v2,
      crashes l (apply_writes (v_disk v) (take k (commit_ws l v))) d ->
      booted l2 s2 v2 d -> start l2 = start l -> lsize l2 = lsize l ->
      exists s3 l3, recover_from_log (LState l2 s2) = Ok tt (LState l3 s3) /\ lh_n l3 = 0 /\
        abs s3 (v_run (rec_ws l d) ∅ v2) /\
        forall b, ~ in_log l b ->
          apply_writes d (rec_ws l d) b =
            if decide (k <= Z.to_nat (lh_n l))%nat then v_disk v b else v_data v b.
Proof.
  intros Hi Ha Hn. pose proof (li_geom l v Hi) as Hg.
  destruct (commit_ok l s v Hi Ha Hn) as (s' & E & A). exists s'. split_and!; [done | done | |].
  - intros b Hb. unfold commit_ws. rewrite apply_writes_app, rec_ws_recovered by done.
    by eapply commit_point_disk.
  - intros k d l2 s2 v2 Hc Hbt E1 E2. destruct (commit_prefix l s v Hi Ha k) as [Hw Hrec].
    destruct (crashes_recovered l _ d Hg Hw Hc) as [Hwd Hrd].
    destruct (recover_ok l2 s2 v2 d Hbt (wf_disk_geom l l2 d (eq_sym E1) (eq_sym E2) Hwd))
      as (s3 & l3 & E3 & A3 & N3 & _).
    exists s3, l3. rewrite (rec_ws_geom l2 l d E1) in A3. split_and!; [done | done | done |].
    intros b Hb. rewrite rec_ws_recovered by done. by rewrite Hrd, Hrec.
Qed.

(** Block 100 was changed to [5]; the crash comes right after the header write. *)
Lemma log_crash_atomic_witness :
  exists (s : bcache) l v d (s2 s3 : bcache) l3, babs 1 s v /\ lh_list l = [100] /\
    v_disk v 100 = [7] /\ v_data v 100 = [5] /\
    recover_from_log (H := bio_store 1) (LState demo_log s2) = Ok tt (LState l3 s3) /\
    exists v3, babs 1 s3 v3 /\ v_disk v3 100 = [5] /\ v_disk v3 101 = d 101.
Proof.
  set (l := logged 100 (set_out 1 demo_log)).
  set (v := v_pin 100 (v_set 100 [5] (view_on demo_disk))).
  assert (Hi : linv l v).
  { apply linv_logged; [apply linv_set_out, demo_linv | done | unfold in_log; simpl; lia | done | done]. }
  destruct (boot_on demo_disk) as (s0 & _ & A0).
  destruct (bread_ok 1 s0 _ 100 A0) as (i & s1 & _ & A1 & B1 & _);
    [done | set_solver | right |].
  { change (size (∅ ∪ ∅ : gset Z) < NBUF)%nat. rewrite union_empty_l_L, size_empty. unfold NBUF. lia. }
  destruct (set_ok 1 s1 _ i 100 [5] A1) as (s2 & _ & A2 & K2); [simpl; set_solver | done |].
  destruct (pin_ok 1 s2 _ i 100 A2) as (s3 & _ & A3 & K3); [simpl; set_solver | auto |].
  destruct (brelse_ok 1 s3 _ i 100 A3) as (s & _ & A & _); [simpl; set_solver | auto | left; simpl; set_solver |].
  assert (Ev : v_drop 100 (v_pin 100 (v_set 100 [5] (v_hold 100 (view_on demo_disk)))) = v).
  { reflexivity. }
  rewrite Ev in A.
  destruct (log_crash_atomic (H0 := bio_laws 1) l s v Hi A) as (s' & _ & _ & _ & Hcrash); [done |].
  set (d := apply_writes (v_disk v) (take 2 (commit_ws l v))).
  destruct (boot_on d) as (sb & _ & Ab).
  destruct (Hcrash 2%nat d demo_log sb (view_on d)) as (s4 & l4 & E4 & _ & A4 & D4).
  - apply cr_none.
  - split; [apply demo_geom | exact Ab | done | done].
  - done.
  - done.
  - exists s, l, v, d, sb, s4, l4. split_and!; try done. exists (v_run (rec_ws l d) ∅ (view_on d)).
    split; [exact A4 |]. split.
    + change (apply_writes d (rec_ws l d) 100 = [5]). rewrite D4 by (unfold in_log; simpl; lia). done.
    + change (apply_writes d (rec_ws l d) 101 = d 101). rewrite D4 by (unfold in_log; simpl; lia).
      by vm_compute.
Defined.


Definition demo_conf (s : bcache) : conf := Conf (LState demo_log s) ∅ ∅ demo_disk demo_disk.


(** Runs [begin_op] three times, then updates the blocks. *)
Fixpoint updates (bs : list Z) : M (lstate bcache) unit :=
  match bs with
  | [] => mret tt
  | b :: bs' => update_block (H := bio_store 1) b (fun _ => [5]) ;; updates bs'
  end.

(** C39: [begin_op] admits operations that the log cannot hold.  On the layout mkfs makes (a log of
    LOGSIZE blocks, header included) three operations begin without waiting, each entitled to
    MAXOPBLOCKS blocks; twenty-nine distinct blocks are logged, and the thirtieth [log_write]
    panics although no operation has exceeded its share. *)
Theorem admitted_operations_overflow_log :
  exists s : bcache, babs 1 s (view_on demo_disk) /\ lsize demo_log = LOGSIZE /\
    (exists s', (begin_op ;; begin_op ;; begin_op ;; updates (seqZ 100 29)) (LState demo_log s) = Ok tt s') /\
    (begin_op ;; begin_op ;; begin_op ;; updates (seqZ 100 30)) (LState demo_log s) =
      Panicked "too big a transaction".
Proof.
  destruct (boot_on demo_disk) as (s & E & A). exists s. split; [exact A |]. split; [reflexivity |].
  assert (Hc : match binit (cache_on demo_disk) with
    | Ok _ s =>
        match (begin_op ;; begin_op ;; begin_op ;; updates (seqZ 100 29)) (LState demo_log s),
              (begin_op ;; begin_op ;; begin_op ;; updates (seqZ 100 30)) (LState demo_log s) with
        | Ok _ _, Panicked m => (m =? "too big a transaction")%string
        | _, _ => false
        end
    | _ => false end = true) by (vm_compute; reflexivity).
  rewrite E in Hc. clear E A.
  destruct ((begin_op ;; begin_op ;; begin_op ;; updates (seqZ 100 29)) (LState demo_log s)) as [[] s' | |];
    [| discriminate Hc ..]. split; [by exists s' |].
  destruct ((begin_op ;; begin_op ;; begin_op ;; updates (seqZ 100 30)) (LState demo_log s)) as [| m |];
    [discriminate Hc | | discriminate Hc]. apply String.eqb_eq in Hc as ->. reflexivity.
Qed.
