(* ===== verification/Proc.v ===== *)
(** * proc.c: processes

    The process table, the processes the CPUs run and the calls that move processes between states.
    Each critical section under [ptable.lock] is atomic, and [fork] and [allocproc] are cut into the
    parts that [ForkSteps] interleaves with other processes; [sched] gives up the CPU, and what a
    process does when the scheduler picks it again is [resume].  The rest of the kernel (memory,
    files, inodes) is reached through the class [Kernel].  The conditions under which [sched] may be
    called, which concern the locks a CPU holds, are treated on the machine of [Lock] in
    [SchedLocks]. *)
From S2P Require Import Prelude Mmu Lock.
#[local] Open Scope Z_scope.

Definition NPROC : nat := 64.
Definition NOFILE : nat := 16.
Definition KSTACKSIZE : Z := 4096.
Definition SEG_UCODE : Z := 3.
Definition SEG_UDATA : Z := 4.
Definition DPL_USER : Z := 3.
Definition FL_IF : Z := 512.

Inductive procstate := UNUSED | EMBRYO | SLEEPING | RUNNABLE | RUNNING | ZOMBIE.

#[export] Instance procstate_eq_dec : EqDecision procstate.
Proof. solve_decision. Defined.

(** [struct trapframe], without its padding. *)
Record trapframe := TF {
  tf_edi : Z; tf_esi : Z; tf_ebp : Z; tf_oesp : Z; tf_ebx : Z; tf_edx : Z; tf_ecx : Z; tf_eax : Z;
  tf_gs : Z; tf_fs : Z; tf_es : Z; tf_ds : Z; tf_trapno : Z; tf_err : Z;
  tf_eip : Z; tf_cs : Z; tf_eflags : Z; tf_esp : Z; tf_ss : Z
}.
Definition tf_zero : trapframe := TF 0 0 0 0 0 0 0 0 0 0 0 0 0 0 0 0 0 0 0.
Definition set_eax (x : Z) (t : trapframe) : trapframe :=
  TF (tf_edi t) (tf_esi t) (tf_ebp t) (tf_oesp t) (tf_ebx t) (tf_edx t) (tf_ecx t) x (tf_gs t) (tf_fs t)
    (tf_es t) (tf_ds t) (tf_trapno t) (tf_err t) (tf_eip t) (tf_cs t) (tf_eflags t) (tf_esp t) (tf_ss t).
(** [sizeof(struct trapframe)] and [sizeof(struct context)]. *)
Definition TFSIZE : Z := 76.
Definition CTXSIZE : Z := 20.

Record context := Ctx { edi : Z; esi : Z; ebx : Z; ebp : Z; eip : Z }.

Record proc := Proc {
  sz : Z;
  pgdir : Z;
  kstack : Z;
  state : procstate;
  pid : Z;
  parent : option nat;
  tfp : Z; tf : trapframe;           (* p->tf and what it points to *)
  ctxp : Z; ctx : context;           (* p->context and what it points to *)
  ctxret : Z;                        (* the return address above the context *)
  pchan : chan;
  killed : Z;
  ofile : list Z;
  cwd : Z;
  name : list Z
}.

(** The zeroed process of the static table. *)
Definition proc_zero : proc :=
  Proc 0 0 0 UNUSED 0 None 0 tf_zero 0 (Ctx 0 0 0 0 0) 0 ChNone 0 (replicate NOFILE 0) 0 (replicate 16 0).

(** What proc.c calls in the rest of the kernel, on its state [W]. *)
Class Kernel (W : Type) := {
  k_alloc : M W Z;
  k_free : Z -> M W unit;
  setupkvm : M W Z;
  inituvm : Z -> M W unit;
  copyuvm : Z -> Z -> M W Z;
  freevm : Z -> M W unit;
  allocuvm : Z -> Z -> Z -> M W Z;
  deallocuvm : Z -> Z -> Z -> M W Z;
  switchuvm : nat -> Z -> Z -> M W unit;   (* by CPU, for a kernel stack and a page directory *)
  switchkvm : nat -> M W unit;
  filedup : Z -> M W Z;
  fileclose : Z -> Z -> M W unit;    (* by the process with this pid *)
  idup : Z -> M W Z;
  iput_op : Z -> Z -> M W unit;      (* begin_op(); iput(ip); end_op(); by the process with this pid *)
  namei_root : M W Z                 (* namei of the root directory *)
}.

(** Documented behaviour of those calls: duplicating a file or an inode gives it back, freeing
    memory does not sleep, and switching page tables returns. *)
Class KernelLaws (W : Type) `{Kernel W} := {
  filedup_law f w g w' : filedup f w = Ok g w' -> g = f;
  idup_law d w g w' : idup d w = Ok g w' -> g = d;
  k_free_law x w c w' : k_free x w <> Slept c w';
  freevm_law x w c w' : freevm x w <> Slept c w';
  switchuvm_law c ks pg w : ks <> 0 -> pg <> 0 -> exists w', switchuvm c ks pg w = Ok tt w';
  switchkvm_law c w : exists w', switchkvm c w = Ok tt w'
}.

Record ptable (W : Type) := PT {
  procs : nat -> proc;
  initproc : option nat;
  nextpid : Z;
  cur : nat -> option nat;           (* mycpu()->proc, by CPU *)
  pos : nat -> nat;                  (* where the scheduler loop of each CPU stands *)
  world : W
}.
Arguments PT {W}.
Arguments procs {W}.
Arguments initproc {W}.
Arguments nextpid {W}.
Arguments cur {W}.
Arguments pos {W}.
Arguments world {W}.

Definition set_state (x : procstate) (p : proc) : proc :=
  Proc (sz p) (pgdir p) (kstack p) x (pid p) (parent p) (tfp p) (tf p) (ctxp p) (ctx p) (ctxret p)
    (pchan p) (killed p) (ofile p) (cwd p) (name p).
Definition set_pid (x : Z) (p : proc) : proc :=
  Proc (sz p) (pgdir p) (kstack p) (state p) x (parent p) (tfp p) (tf p) (ctxp p) (ctx p) (ctxret p)
    (pchan p) (killed p) (ofile p) (cwd p) (name p).
Definition set_kstack (x : Z) (p : proc) : proc :=
  Proc (sz p) (pgdir p) x (state p) (pid p) (parent p) (tfp p) (tf p) (ctxp p) (ctx p) (ctxret p)
    (pchan p) (killed p) (ofile p) (cwd p) (name p).
Definition set_parent (x : option nat) (p : proc) : proc :=
  Proc (sz p) (pgdir p) (kstack p) (state p) (pid p) x (tfp p) (tf p) (ctxp p) (ctx p) (ctxret p)
    (pchan p) (killed p) (ofile p) (cwd p) (name p).
Definition set_pgdir (x : Z) (p : proc) : proc :=
  Proc (sz p) x (kstack p) (state p) (pid p) (parent p) (tfp p) (tf p) (ctxp p) (ctx p) (ctxret p)
    (pchan p) (killed p) (ofile p) (cwd p) (name p).
Definition set_sz (x : Z) (p : proc) : proc :=
  Proc x (pgdir p) (kstack p) (state p) (pid p) (parent p) (tfp p) (tf p) (ctxp p) (ctx p) (ctxret p)
    (pchan p) (killed p) (ofile p) (cwd p) (name p).
Definition set_tf (x : trapframe) (p : proc) : proc :=
  Proc (sz p) (pgdir p) (kstack p) (state p) (pid p) (parent p) (tfp p) x (ctxp p) (ctx p) (ctxret p)
    (pchan p) (killed p) (ofile p) (cwd p) (name p).
Definition set_chan (x : chan) (p : proc) : proc :=
  Proc (sz p) (pgdir p) (kstack p) (state p) (pid p) (parent p) (tfp p) (tf p) (ctxp p) (ctx p) (ctxret p)
    x (killed p) (ofile p) (cwd p) (name p).
Definition set_killed (x : Z) (p : proc) : proc :=
  Proc (sz p) (pgdir p) (kstack p) (state p) (pid p) (parent p) (tfp p) (tf p) (ctxp p) (ctx p) (ctxret p)
    (pchan p) x (ofile p) (cwd p) (name p).
Definition set_ofile (i : nat) (x : Z) (p : proc) : proc :=
  Proc (sz p) (pgdir p) (kstack p) (state p) (pid p) (parent p) (tfp p) (tf p) (ctxp p) (ctx p) (ctxret p)
    (pchan p) (killed p) (<[i := x]> (ofile p)) (cwd p) (name p).
Definition set_cwd (x : Z) (p : proc) : proc :=
  Proc (sz p) (pgdir p) (kstack p) (state p) (pid p) (parent p) (tfp p) (tf p) (ctxp p) (ctx p) (ctxret p)
    (pchan p) (killed p) (ofile p) x (name p).
Definition set_name (x : list Z) (p : proc) : proc :=
  Proc (sz p) (pgdir p) (kstack p) (state p) (pid p) (parent p) (tfp p) (tf p) (ctxp p) (ctx p) (ctxret p)
    (pchan p) (killed p) (ofile p) (cwd p) x.

(** [safestrcpy(dst, src, sizeof(dst))] on a name field. *)
Fixpoint until0 (l : list Z) : list Z :=
  match l with [] => [] | x :: l' => if x =? 0 then [] else x :: until0 l' end.
Definition name_copy (dst src : list Z) : list Z :=
  let s := take (length dst - 1) (until0 src) in s ++ 0 :: drop (S (length s)) dst.

(** [for(p = ptable.proc + k; ...; p++) if(f p) ...]: the first of the [n] slots from [k] on. *)
Fixpoint first_from (f : nat -> bool) (n k : nat) : option nat :=
  match n with
  | O => None
  | S n' => if f k then Some k else first_from f n' (S k)
  end.

Section code.
Context {W : Type} `{Kernel W}.
Context (trapret forkret_addr : Z).
Notation MP := (M (ptable W)).

Definition on_w {A} (m : M W A) : MP A :=
  zoom world (fun x s => PT (procs s) (initproc s) (nextpid s) (cur s) (pos s) x) m.
Definition set_procs (f : nat -> proc) (s : ptable W) : ptable W :=
  PT f (initproc s) (nextpid s) (cur s) (pos s) (world s).
Definition on_proc (i : nat) (f : proc -> proc) : MP unit :=
  modify (fun s => set_procs (fupd (procs s) i (f (procs s i))) s).
Definition the_proc (i : nat) : MP proc := gets (fun s => procs s i).
Definition in_state (x : procstate) (p : proc) : bool := bool_decide (state p = x).

Definition myproc (c : nat) : MP (option nat) := gets (fun s => cur s c).

(** The part of [allocproc] under [ptable.lock]: a free slot is taken and given a pid. *)
Definition alloc_slot : MP (option nat) :=
  s ← gets id ;
  match first_from (fun i => in_state UNUSED (procs s i)) NPROC 0 with
  | None => mret None
  | Some i =>
      on_proc i (set_state EMBRYO) ;;
      on_proc i (set_pid (nextpid s)) ;;
      modify (fun s => PT (procs s) (initproc s) (s32 (nextpid s + 1)) (cur s) (pos s) (world s)) ;;
      mret (Some i)
  end.

(** The rest, without the lock: the kernel stack; [false] when there is no page for it. *)
Definition alloc_stack (i : nat) : MP bool :=
  ks ← on_w k_alloc ;
  on_proc i (set_kstack ks) ;;
  if ks =? 0 then on_proc i (set_state UNUSED) ;; mret false
  else
    let sp := ks +u KSTACKSIZE in
    let sp := sp -u TFSIZE in
    let tfp := sp in
    let sp := sp -u 4 in
    let sp := sp -u CTXSIZE in
    on_proc i (fun p => Proc (sz p) (pgdir p) (kstack p) (state p) (pid p) (parent p) tfp (tf p)
      sp (Ctx 0 0 0 0 forkret_addr) trapret (pchan p) (killed p) (ofile p) (cwd p) (name p)) ;;
    mret true.

Definition allocproc : MP (option nat) :=
  o ← alloc_slot ;
  match o with
  | None => mret None
  | Some i => b ← alloc_stack i ; mret (if b : bool then Some i else None)
  end.

(** "initcode" *)
Definition initcode_name : list Z := [105; 110; 105; 116; 99; 111; 100; 101].

Definition userinit : MP unit :=
  o ← allocproc ;
  match o with
  | None => panic "null dereference"
  | Some p =>
      modify (fun s => PT (procs s) (Some p) (nextpid s) (cur s) (pos s) (world s)) ;;
      pg ← on_w setupkvm ;
      on_proc p (set_pgdir pg) ;;
      if pg =? 0 then panic "userinit: out of memory?" else
      on_w (inituvm pg) ;;
      on_proc p (set_sz PGSIZE) ;;
      let ucode := Z.lor (Z.shiftl SEG_UCODE 3) DPL_USER in
      let udata := Z.lor (Z.shiftl SEG_UDATA 3) DPL_USER in
      on_proc p (set_tf (TF 0 0 0 0 0 0 0 0 0 0 udata udata 0 0 0 ucode FL_IF PGSIZE udata)) ;;
      on_proc p (fun q => set_name (name_copy (name q) initcode_name) q) ;;
      d ← on_w namei_root ;
      on_proc p (set_cwd d) ;;
      on_proc p (set_state RUNNABLE)
  end.

Definition growproc (c : nat) (n : Z) : MP Z :=
  o ← myproc c ;
  match o with
  | None => panic "null dereference"
  | Some i =>
      p ← the_proc i ;
      let commit x := on_proc i (set_sz x) ;; on_w (switchuvm c (kstack p) (pgdir p)) ;; mret 0 in
      if 0 <? n then
        r ← on_w (allocuvm (pgdir p) (sz p) (sz p +u n)) ;
        if r =? 0 then mret (-1) else commit r
      else if n <? 0 then
        r ← on_w (deallocuvm (pgdir p) (sz p) (sz p +u n)) ;
        if r =? 0 then mret (-1) else commit r
      else commit (sz p)
  end.

(** The parts of [fork], which runs without a lock between [alloc_slot] and the last assignment.
    The address space of process [cp] is copied for slot [np]. *)
Definition fork_mem (cp np : nat) : MP bool :=
  p ← the_proc cp ;
  pg ← on_w (copyuvm (pgdir p) (sz p)) ;
  on_proc np (set_pgdir pg) ;;
  mret (negb (pg =? 0)).

(** When that fails. *)
Definition fork_undo (np : nat) : MP unit :=
  q ← the_proc np ;
  on_w (k_free (kstack q)) ;;
  on_proc np (set_kstack 0) ;;
  on_proc np (set_state UNUSED).

Definition fork_fields (cp np : nat) : MP unit :=
  p ← the_proc cp ;
  on_proc np (set_sz (sz p)) ;;
  on_proc np (set_parent (Some cp)) ;;
  on_proc np (set_tf (tf p)) ;;
  on_proc np (fun q => set_tf (set_eax 0 (tf q)) q).

(** [if(curproc->ofile[i]) np->ofile[i] = filedup(curproc->ofile[i]);] *)
Definition dup_file (i from np : nat) : MP unit :=
  p ← the_proc from ;
  let f := ofile p !!! i in
  if f =? 0 then mret tt else g ← on_w (filedup f) ; on_proc np (set_ofile i g).

(** [for(i = 0; i < NOFILE; i++) ...] *)
Fixpoint dup_files (n i : nat) (from np : nat) : MP unit :=
  match n with
  | O => mret tt
  | S n' => dup_file i from np ;; dup_files n' (S i) from np
  end.

Definition fork_dir (cp np : nat) : MP unit :=
  p ← the_proc cp ;
  d ← on_w (idup (cwd p)) ;
  on_proc np (set_cwd d).

(** The name, and the pid to return. *)
Definition fork_name (cp np : nat) : MP Z :=
  p ← the_proc cp ;
  on_proc np (fun q => set_name (name_copy (name q) (name p)) q) ;;
  q ← the_proc np ;
  mret (pid q).

Definition fork (c : nat) : MP Z :=
  me ← myproc c ;
  match me with
  | None => panic "null dereference"
  | Some cp =>
      o ← allocproc ;
      match o with
      | None => mret (-1)
      | Some np =>
          ok ← fork_mem cp np ;
          if negb ok then fork_undo np ;; mret (-1)
          else
            fork_fields cp np ;;
            dup_files NOFILE 0 cp np ;;
            fork_dir cp np ;;
            pid ← fork_name cp np ;
            on_proc np (set_state RUNNABLE) ;;
            mret pid
      end
  end.

(** [wakeup1]: every process asleep on [ch] becomes runnable. *)
Definition wake (ch : chan) (p : proc) : proc :=
  if in_state SLEEPING p && bool_decide (pchan p = ch) then set_state RUNNABLE p else p.
Definition wakeup1 (ch : chan) : MP unit := modify (fun s => set_procs (fun i => wake ch (procs s i)) s).
Definition wakeup (ch : chan) : MP unit := wakeup1 ch.

(** [sched]: the CPU goes back to its scheduler loop, which switches to the kernel page table and
    has no process. *)
Definition sched (c : nat) : MP unit :=
  o ← myproc c ;
  match o with
  | None => panic "null dereference"
  | Some i =>
      p ← the_proc i ;
      if in_state RUNNING p then panic "sched running"
      else
        on_w (switchkvm c) ;;
        modify (fun s => PT (procs s) (initproc s) (nextpid s) (fupd (cur s) c None) (pos s) (world s))
  end.

Definition yield (c : nat) : MP unit :=
  o ← myproc c ;
  match o with
  | None => panic "null dereference"
  | Some i => on_proc i (set_state RUNNABLE) ;; sched c
  end.

(** [sleep], up to giving up the CPU. *)
Definition sleep (c : nat) (ch : chan) : MP unit :=
  o ← myproc c ;
  match o with
  | None => panic "sleep"
  | Some i => on_proc i (set_chan ch) ;; on_proc i (set_state SLEEPING) ;; sched c
  end.

(** The loop of [exit] over the open files. *)
Fixpoint close_files (n fd : nat) (i : nat) : MP unit :=
  match n with
  | O => mret tt
  | S n' =>
      p ← the_proc i ;
      let f := ofile p !!! fd in
      (if f =? 0 then mret tt else on_w (fileclose (pid p) f) ;; on_proc i (set_ofile fd 0)) ;;
      close_files n' (S fd) i
  end.

(** The loop of [exit] that passes abandoned children to init, slots [k] to [k + n - 1]. *)
Fixpoint reparent (n k me : nat) : MP unit :=
  match n with
  | O => mret tt
  | S n' =>
      s ← gets id ;
      (if bool_decide (parent (procs s k) = Some me) then
         on_proc k (set_parent (initproc s)) ;;
         (if in_state ZOMBIE (procs s k)
          then match initproc s with Some i => wakeup1 (ChProc i) | None => wakeup1 ChNone end
          else mret tt)
       else mret tt) ;;
      reparent n' (S k) me
  end.

(** The critical section of [exit]. *)
Definition exit_zombie (c me : nat) : MP unit :=
  p ← the_proc me ;
  wakeup1 (match parent p with Some j => ChProc j | None => ChNone end) ;;
  reparent NPROC 0 me ;;
  on_proc me (set_state ZOMBIE) ;;
  sched c.

Definition exit (c : nat) : MP unit :=
  o ← myproc c ;
  s ← gets id ;
  match o with
  | None => panic "null dereference"
  | Some me =>
      if bool_decide (initproc s = Some me) then panic "init exiting" else
      close_files NOFILE 0 me ;;
      p ← the_proc me ;
      on_w (iput_op (pid p) (cwd p)) ;;
      on_proc me (set_cwd 0) ;;
      exit_zombie c me
  end.

(** [wait]: one pass of its loop under the lock; asleep it will pass again. *)
Definition wait (c : nat) : MP Z :=
  o ← myproc c ;
  match o with
  | None => panic "null dereference"
  | Some me =>
      s ← gets id ;
      let child k := bool_decide (parent (procs s k) = Some me) in
      match first_from (fun k => child k && in_state ZOMBIE (procs s k)) NPROC 0 with
      | Some k =>
          p ← the_proc k ;
          on_w (k_free (kstack p)) ;;
          on_proc k (set_kstack 0) ;;
          on_w (freevm (pgdir p)) ;;
          on_proc k (fun p => set_state UNUSED (set_killed 0 (set_name (<[0%nat := 0]> (name p))
                               (set_parent None (set_pid 0 p))))) ;;
          mret (pid p)
      | None =>
          let havekids := match first_from child NPROC 0 with Some _ => true | None => false end in
          if negb havekids || negb (killed (procs s me) =? 0) then mret (-1)
          else sleep c (ChProc me) ;; sleep_on (ChProc me)
      end
  end.

Definition kill (n : Z) : MP Z :=
  s ← gets id ;
  match first_from (fun i => pid (procs s i) =? n) NPROC 0 with
  | Some i =>
      on_proc i (set_killed 1) ;;
      on_proc i (fun p => if in_state SLEEPING p then set_state RUNNABLE p else p) ;;
      mret 0
  | None => mret (-1)
  end.

(** The scheduler loop of CPU [c] from where it stands: it picks the next runnable process, or
    reaches the end of the table and starts over. *)
Definition scheduler (c : nat) : MP (option nat) :=
  s ← gets id ;
  let k := pos s c in
  match first_from (fun i => in_state RUNNABLE (procs s i)) (NPROC - k) k with
  | Some i =>
      modify (fun s => PT (procs s) (initproc s) (nextpid s) (fupd (cur s) c (Some i))
                         (fupd (pos s) c (S i)) (world s)) ;;
      p ← the_proc i ;
      on_w (switchuvm c (kstack p) (pgdir p)) ;;
      on_proc i (set_state RUNNING) ;;
      mret (Some i)
  | None =>
      modify (fun s => PT (procs s) (initproc s) (nextpid s) (cur s) (fupd (pos s) c 0%nat) (world s)) ;;
      mret None
  end.

(** What the process picked does first: the end of [sleep] clears its channel. *)
Definition resume (i : nat) : MP unit := on_proc i (set_chan ChNone).
End code.

(** ** What the calls do to the table *)

Lemma first_from_Some f n k i :
  first_from f n k = Some i ->
  (k <= i < k + n)%nat /\ f i = true /\ forall j, (k <= j < i)%nat -> f j = false.
Proof.
  revert k. induction n as [|n IH]; intros k; simpl; [done |]. destruct (f k) eqn:E.
  - intros [= ->]. split_and!; [lia | lia | done | lia].
  - intros (H1 & H2 & H3)%IH. split_and!; [lia | lia | done |].
    intros j Hj. destruct (decide (j = k)) as [-> | ?]; [done |]. apply H3. lia.
Qed.

Lemma first_from_None f n k :
  first_from f n k = None -> forall j, (k <= j < k + n)%nat -> f j = false.
Proof.
  revert k. induction n as [|n IH]; intros k; simpl; [lia |]. destruct (f k) eqn:E; [done |].
  intros Hn j Hj. destruct (decide (j = k)) as [-> | ?]; [done |]. apply (IH (S k) Hn). lia.
Qed.

Section effects.
Context {W : Type} `{Kernel W}.
Implicit Types (s : ptable W) (i j c : nat).

Lemma on_w_inv {A} (m : M W A) s a s' :
  on_w m s = Ok a s' -> exists w, m (world s) = Ok a w /\
    s' = PT (procs s) (initproc s) (nextpid s) (cur s) (pos s) w.
Proof. unfold on_w, zoom. destruct (m (world s)); naive_solver. Qed.

(** [s'] is [s] with slot [i] set to [q], and possibly another state of the rest of the kernel. *)
Definition slot (i : nat) (q : proc) (s s' : ptable W) : Prop :=
  procs s' = fupd (procs s) i q /\ initproc s' = initproc s /\ cur s' = cur s /\ pos s' = pos s.

Lemma slot_on_proc i f s s' :
  on_proc i f s = Ok tt s' -> slot i (f (procs s i)) s s' /\ nextpid s' = nextpid s /\ world s' = world s.
Proof. intros E. injection E as <-. done. Qed.

Lemma slot_on_w {A} (m : M W A) i s a s' :
  on_w m s = Ok a s' -> slot i (procs s i) s s' /\ nextpid s' = nextpid s.
Proof.
  intros (w & _ & ->)%on_w_inv. split; [| done]. split_and!; try done. simpl.
  extensionality j. unfold fupd. by case_decide; subst.
Qed.

Lemma slot_trans i q q' s s1 s2 : slot i q s s1 -> slot i q' s1 s2 -> slot i q' s s2.
Proof. intros (E1 & E2 & E3 & E4) (F1 & F2 & F3 & F4). split_and!; try congruence. by rewrite F1, E1, fupd_fupd. Qed.

Lemma slot_same i q s s' : slot i q s s' -> procs s' i = q.
Proof. intros (-> & _). apply fupd_same. Qed.

Lemma slot_refl i s : slot i (procs s i) s s.
Proof. split_and!; try done. extensionality j. unfold fupd. by case_decide; subst. Qed.

Lemma slot_step_proc {B} i f (k : unit -> M (ptable W) B) q s s1 b s' :
  slot i q s s1 -> (on_proc i f ≫= k) s1 = Ok b s' ->
  exists s2, slot i (f q) s s2 /\ nextpid s2 = nextpid s1 /\ world s2 = world s1 /\ k tt s2 = Ok b s'.
Proof.
  intros HS ([] & s2 & E & Hk)%bind_inv. apply slot_on_proc in E as (E & E1 & E2).
  rewrite (slot_same i q s s1 HS) in E. exists s2. split_and!; [by eapply slot_trans | done | done | done].
Qed.

Lemma slot_step_w {A B} i (m : M W A) (k : A -> M (ptable W) B) q s s1 b s' :
  slot i q s s1 -> (on_w m ≫= k) s1 = Ok b s' ->
  exists a s2 w, m (world s1) = Ok a w /\ slot i q s s2 /\ nextpid s2 = nextpid s1 /\ world s2 = w /\
    k a s2 = Ok b s'.
Proof.
  intros HS (a & s2 & E & Hk)%bind_inv. pose proof E as (w & Ew & E2)%on_w_inv.
  apply (slot_on_w _ i) in E as (E & E1). rewrite (slot_same i q s s1 HS) in E.
  exists a, s2, w. split_and!; [done | by eapply slot_trans | done | by subst | done].
Qed.

Lemma slot_other i q s s' j : slot i q s s' -> j <> i -> procs s' j = procs s j.
Proof. intros (-> & _) Hj. by apply fupd_other. Qed.

Context (trapret forkret_addr : Z).

(** The process [allocproc] sets up in a slot that held [p]. *)
Definition embryo (p : proc) (n ks : Z) : proc :=
  Proc (sz p) (pgdir p) ks EMBRYO n (parent p) (ks +u KSTACKSIZE -u TFSIZE) (tf p)
    (ks +u KSTACKSIZE -u TFSIZE -u 4 -u CTXSIZE) (Ctx 0 0 0 0 forkret_addr) trapret (pchan p) (killed p)
    (ofile p) (cwd p) (name p).

(** Each part of [allocproc] and [fork] works on one slot. *)
Lemma alloc_slot_inv s o s' :
  alloc_slot s = Ok o s' ->
  match o with
  | Some i => (i < NPROC)%nat /\ state (procs s i) = UNUSED /\ nextpid s' = s32 (nextpid s + 1) /\
      slot i (set_pid (nextpid s) (set_state EMBRYO (procs s i))) s s'
  | None => s' = s
  end.
Proof.
  unfold alloc_slot. intros (s0 & s1 & E & Hk)%bind_inv. injection E as <- <-. unfold id in Hk.
  destruct (first_from _ NPROC 0) as [i|] eqn:Hf; [| by injection Hk as <- <-].
  apply first_from_Some in Hf as ([_ Hi] & Hu & _). apply bool_decide_eq_true in Hu.
  apply (slot_step_proc i _ _ _ _ _ _ _ (slot_refl i s)) in Hk as (s1 & HS1 & N1 & _ & Hk).
  apply (slot_step_proc i _ _ _ _ _ _ _ HS1) in Hk as (s2 & HS2 & N2 & _ & Hk).
  apply bind_inv in Hk as ([] & s3 & E & Hk). injection E as <-. injection Hk as <- <-.
  split_and!; [lia | done | simpl; congruence | exact HS2].
Qed.

Lemma alloc_stack_inv i q s0 s b s' :
  slot i q s0 s -> alloc_stack trapret forkret_addr i s = Ok b s' -> nextpid s' = nextpid s /\
  if b then exists ks, ks <> 0 /\ slot i (Proc (sz q) (pgdir q) ks (state q) (pid q) (parent q)
      (ks +u KSTACKSIZE -u TFSIZE) (tf q) (ks +u KSTACKSIZE -u TFSIZE -u 4 -u CTXSIZE)
      (Ctx 0 0 0 0 forkret_addr) trapret (pchan q) (killed q) (ofile q) (cwd q) (name q)) s0 s'
  else slot i (set_state UNUSED (set_kstack 0 q)) s0 s'.
Proof.
  intros HS Hk. unfold alloc_stack in Hk.
  apply (slot_step_w i _ _ _ _ _ _ _ HS) in Hk as (ks & s4 & w & _ & HS4 & N4 & _ & Hk).
  apply (slot_step_proc i _ _ _ _ _ _ _ HS4) in Hk as (s5 & HS5 & N5 & _ & Hk).
  zcase (ks =? 0); apply (slot_step_proc i _ _ _ _ _ _ _ HS5) in Hk as (s6 & HS6 & N6 & _ & Hk);
    injection Hk as <- <-; (split; [congruence |]).
  - subst ks. exact HS6.
  - exists ks. split; [done | exact HS6].
Qed.

Lemma allocproc_inv s o s' :
  allocproc trapret forkret_addr s = Ok o s' ->
  match o with
  | Some i => (i < NPROC)%nat /\ state (procs s i) = UNUSED /\
      nextpid s' = s32 (nextpid s + 1) /\
      exists ks, ks <> 0 /\ slot i (embryo (procs s i) (nextpid s) ks) s s'
  | None => s' = s \/
      exists i, (i < NPROC)%nat /\ state (procs s i) = UNUSED /\ nextpid s' = s32 (nextpid s + 1) /\
        slot i (set_kstack 0 (set_pid (nextpid s) (procs s i))) s s'
  end.
Proof.
  unfold allocproc. intros (o1 & s1 & E & Hk)%bind_inv. apply alloc_slot_inv in E.
  destruct o1 as [i|]; [| subst; injection Hk as <- <-; by left].
  destruct E as (Hi & Hu & N1 & HS1). apply bind_inv in Hk as (b & s2 & E & Hk). injection Hk as <- <-.
  apply (alloc_stack_inv i _ _ _ _ _ HS1) in E as (N2 & E). destruct b.
  - split_and!; [done | done | congruence | exact E].
  - right. exists i. split_and!; [done | done | congruence |].
    assert (Eq : set_state UNUSED (set_kstack 0 (set_pid (nextpid s) (set_state EMBRYO (procs s i)))) =
                 set_kstack 0 (set_pid (nextpid s) (procs s i))).
    { unfold set_state, set_kstack, set_pid. simpl. by rewrite Hu. }
    by rewrite Eq in E.
Qed.

Lemma fork_mem_inv cp np q s0 s b s' :
  slot np q s0 s -> fork_mem cp np s = Ok b s' -> nextpid s' = nextpid s /\
  exists pg, slot np (set_pgdir pg q) s0 s' /\ b = negb (pg =? 0).
Proof.
  intros HS Hk. unfold fork_mem in Hk. erewrite bind_ok in Hk by reflexivity.
  apply (slot_step_w np _ _ _ _ _ _ _ HS) in Hk as (pg & s2 & w & _ & HS2 & N2 & _ & Hk).
  apply (slot_step_proc np _ _ _ _ _ _ _ HS2) in Hk as (s3 & HS3 & N3 & _ & Hk). injection Hk as <- <-.
  split; [congruence | by exists pg].
Qed.

Lemma fork_undo_inv np q s0 s a s' :
  slot np q s0 s -> fork_undo np s = Ok a s' -> nextpid s' = nextpid s /\
  slot np (set_state UNUSED (set_kstack 0 q)) s0 s'.
Proof.
  intros HS Hk. unfold fork_undo in Hk. erewrite bind_ok in Hk by reflexivity.
  apply (slot_step_w np _ _ _ _ _ _ _ HS) in Hk as (? & s2 & w & _ & HS2 & N2 & _ & Hk).
  apply (slot_step_proc np _ _ _ _ _ _ _ HS2) in Hk as (s3 & HS3 & N3 & _ & Hk). destruct a.
  apply slot_on_proc in Hk as (HS4 & N4 & _). rewrite (slot_same np _ _ _ HS3) in HS4.
  split; [congruence | by eapply slot_trans].
Qed.

Lemma fork_fields_inv cp np q s0 s a s' :
  cp <> np -> slot np q s0 s -> fork_fields cp np s = Ok a s' -> nextpid s' = nextpid s /\
  slot np (set_tf (set_eax 0 (tf (procs s0 cp))) (set_parent (Some cp) (set_sz (sz (procs s0 cp)) q))) s0 s'.
Proof.
  intros Hne HS Hk. unfold fork_fields in Hk. erewrite bind_ok in Hk by reflexivity.
  rewrite (slot_other np _ s0 s cp HS Hne) in Hk.
  apply (slot_step_proc np _ _ _ _ _ _ _ HS) in Hk as (s4 & HS4 & N4 & _ & Hk).
  apply (slot_step_proc np _ _ _ _ _ _ _ HS4) in Hk as (s5 & HS5 & N5 & _ & Hk).
  apply (slot_step_proc np _ _ _ _ _ _ _ HS5) in Hk as (s6 & HS6 & N6 & _ & Hk). destruct a.
  apply slot_on_proc in Hk as (HS7 & N7 & _). rewrite (slot_same np _ _ _ HS6) in HS7.
  split; [congruence | exact (slot_trans np _ _ _ _ _ HS6 HS7)].
Qed.

Lemma dup_file_inv i from np q s0 s a s' :
  from <> np -> slot np q s0 s -> dup_file i from np s = Ok a s' -> nextpid s' = nextpid s /\
  let f := ofile (procs s0 from) !!! i in
  if f =? 0 then s' = s else
  exists g w w', filedup f w = Ok g w' /\ slot np (set_ofile i g q) s0 s'.
Proof.
  intros Hne HS Hk. unfold dup_file in Hk. erewrite bind_ok in Hk by reflexivity.
  rewrite (slot_other np _ s0 s from HS Hne) in Hk. cbv zeta in *.
  destruct (_ =? 0); [by injection Hk as _ <- |].
  apply (slot_step_w np _ _ _ _ _ _ _ HS) in Hk as (g & s2 & w & E & HS2 & N2 & _ & Hk). destruct a.
  apply slot_on_proc in Hk as (HS3 & N3 & _). rewrite (slot_same np _ _ _ HS2) in HS3.
  split; [congruence |]. exists g, (world s), w. split; [exact E | by eapply slot_trans].
Qed.

Lemma fork_dir_inv cp np q s0 s a s' :
  cp <> np -> slot np q s0 s -> fork_dir cp np s = Ok a s' -> nextpid s' = nextpid s /\
  exists d w w', idup (cwd (procs s0 cp)) w = Ok d w' /\ slot np (set_cwd d q) s0 s'.
Proof.
  intros Hne HS Hk. unfold fork_dir in Hk. erewrite bind_ok in Hk by reflexivity.
  rewrite (slot_other np _ s0 s cp HS Hne) in Hk.
  apply (slot_step_w np _ _ _ _ _ _ _ HS) in Hk as (g & s2 & w & E & HS2 & N2 & _ & Hk). destruct a.
  apply slot_on_proc in Hk as (HS3 & N3 & _). rewrite (slot_same np _ _ _ HS2) in HS3.
  split; [congruence |]. exists g, (world s), w. split; [exact E | by eapply slot_trans].
Qed.

Lemma fork_name_inv cp np q s0 s r s' :
  cp <> np -> slot np q s0 s -> fork_name cp np s = Ok r s' -> nextpid s' = nextpid s /\ r = pid q /\
  slot np (set_name (name_copy (name q) (name (procs s0 cp))) q) s0 s'.
Proof.
  intros Hne HS Hk. unfold fork_name in Hk. erewrite bind_ok in Hk by reflexivity.
  rewrite (slot_other np _ s0 s cp HS Hne) in Hk.
  apply (slot_step_proc np _ _ _ _ _ _ _ HS) in Hk as (s4 & HS4 & N4 & _ & Hk).
  erewrite bind_ok in Hk by reflexivity. injection Hk as <- <-. rewrite (slot_same np _ _ _ HS4).
  split_and!; [congruence | done | exact HS4].
Qed.

(** [dup_files] only fills the table of open files of the new process. *)
Lemma dup_files_inv n k from np q s s1 s' :
  from <> np -> slot np q s s1 -> dup_files n k from np s1 = Ok tt s' ->
  exists fs, length fs = length (ofile q) /\ nextpid s' = nextpid s1 /\
    slot np (Proc (sz q) (pgdir q) (kstack q) (state q) (pid q) (parent q) (tfp q) (tf q) (ctxp q) (ctx q)
      (ctxret q) (pchan q) (killed q) fs (cwd q) (name q)) s s' /\
    ((forall f w g w', filedup f w = Ok g w' -> g = f) ->
     forall j, (j < length fs)%nat -> fs !!! j =
       if decide (k <= j < k + n)%nat then (let f := ofile (procs s from) !!! j in if f =? 0 then ofile q !!! j else f)
       else ofile q !!! j).
Proof.
  intros Hne. revert k q s1. induction n as [|n IH]; intros k q s1 HS Hd.
  { injection Hd as <-. exists (ofile q). split_and!; [done | done | by destruct q |].
    intros _ j _. rewrite decide_False by lia. done. }
  simpl in Hd. apply bind_inv in Hd as (u & s2 & E & Hd).
  apply (dup_file_inv k from np q s s1 u s2 Hne HS) in E as (N2 & E). cbv zeta in E.
  destruct (Z.eqb_spec (ofile (procs s from) !!! k) 0) as [Hz | Hz].
  - subst s2. destruct (IH (S k) q s1 HS Hd) as (fs & Hl & Hn & HS' & Hv). exists fs. split_and!; [done | done | done |].
    intros Hlaw j Hj. rewrite (Hv Hlaw j Hj). cbv zeta.
    destruct (decide (j = k)) as [-> | Hjk].
    + rewrite decide_False, decide_True by lia. by rewrite Hz.
    + repeat case_decide; try lia; done.
  - destruct E as (g & w & w' & Ew & HS4).
    destruct (IH (S k) _ s2 HS4 Hd) as (fs & Hl & Hn & HS' & Hv).
    simpl in Hl. rewrite length_insert in Hl. exists fs. split_and!; [done | congruence | done |].
    intros Hlaw j Hj. rewrite (Hv Hlaw j Hj). simpl. cbv zeta.
    apply Hlaw in Ew. subst g. destruct (decide (j = k)) as [-> | Hjk].
    + rewrite decide_False, decide_True by lia. rewrite (proj2 (Z.eqb_neq _ _)) by done.
      apply list_lookup_total_insert_eq. lia.
    + rewrite list_lookup_total_insert_ne by done. repeat case_decide; try lia; done.
Qed.

(** The child [fork] makes of [p] in a slot that held [old]. *)
Definition child (cp : nat) (p old : proc) (n ks pg : Z) (fs : list Z) (d : Z) : proc :=
  Proc (sz p) pg ks RUNNABLE n (Some cp) (ks +u KSTACKSIZE -u TFSIZE) (set_eax 0 (tf p))
    (ks +u KSTACKSIZE -u TFSIZE -u 4 -u CTXSIZE) (Ctx 0 0 0 0 forkret_addr) trapret (pchan old) (killed old)
    fs d (name_copy (name old) (name p)).

Lemma fork_inv c cp s r s' :
  cur s c = Some cp -> state (procs s cp) <> UNUSED -> fork trapret forkret_addr c s = Ok r s' ->
  (r = -1 /\ (s' = s \/ exists i q, (i < NPROC)%nat /\ state (procs s i) = UNUSED /\ state q = UNUSED /\
     parent q = parent (procs s i) /\ nextpid s' = s32 (nextpid s + 1) /\ slot i q s s')) \/
  (exists np ks pg fs d, (np < NPROC)%nat /\ state (procs s np) = UNUSED /\ np <> cp /\ ks <> 0 /\ pg <> 0 /\
     r = nextpid s /\ nextpid s' = s32 (nextpid s + 1) /\ length fs = length (ofile (procs s np)) /\
     slot np (child cp (procs s cp) (procs s np) (nextpid s) ks pg fs d) s s' /\
     (KernelLaws W -> d = cwd (procs s cp) /\ forall j, (j < length fs)%nat -> (j < NOFILE)%nat -> fs !!! j =
        let f := ofile (procs s cp) !!! j in if f =? 0 then ofile (procs s np) !!! j else f)).
Proof.
  intros Hc Hu Hk. unfold fork in Hk. apply bind_inv in Hk as (o & s1 & E & Hk). injection E as <- <-.
  rewrite Hc in Hk. apply bind_inv in Hk as (o & s1 & E & Hk). apply allocproc_inv in E.
  destruct o as [np|].
  2: { injection Hk as <- <-. left. split; [done |].
       destruct E as [-> | (i & Hi & Hs & Hn & HS)]; [by left | right].
       exists i, (set_kstack 0 (set_pid (nextpid s) (procs s i))). by split_and!. }
  destruct E as (Hnp & Hsnp & N1 & ks & Hks & HS1).
  assert (Hne : cp <> np) by (intros ->; done).
  apply bind_inv in Hk as (ok & s2 & E & Hk).
  apply (fork_mem_inv cp np _ _ _ _ _ HS1) in E as (N2 & pg & HS2 & ->). rewrite negb_involutive in Hk.
  zcase (pg =? 0).
  - left. apply bind_inv in Hk as (u & s3 & E & Hk). injection Hk as <- <-.
    apply (fork_undo_inv np _ _ _ _ _ HS2) in E as (N3 & HS3). split; [done |]. right.
    refine (ex_intro _ np (ex_intro _ _ (conj Hnp (conj Hsnp (conj _ (conj _ (conj _ HS3)))))));
      [done | done | congruence].
  - right. apply bind_inv in Hk as (u & s3 & E & Hk).
    apply (fork_fields_inv cp np _ _ _ _ _ Hne HS2) in E as (N3 & HS3).
    apply bind_inv in Hk as ([] & s4 & E & Hk).
    apply (dup_files_inv _ _ _ _ _ _ _ _ Hne HS3) in E as (fs & Hl & N4 & HS4 & Hv).
    apply bind_inv in Hk as (u' & s5 & E & Hk).
    apply (fork_dir_inv cp np _ _ _ _ _ Hne HS4) in E as (N5 & d & w & w' & Ed & HS5).
    apply bind_inv in Hk as (r' & s6 & E & Hk).
    apply (fork_name_inv cp np _ _ _ _ _ Hne HS5) in E as (N6 & -> & HS6).
    apply (slot_step_proc np _ _ _ _ _ _ _ HS6) in Hk as (s7 & HS7 & N7 & _ & Hk).
    injection Hk as <- <-. exists np, ks, pg, fs, d. split_and!; try done; [congruence |].
    intros HL. split; [by eapply idup_law |]. intros j Hj Hj'.
    rewrite (Hv filedup_law j Hj), decide_True by lia. done.
Qed.

(** Same process as far as the table is concerned: what files and memory it has may differ. *)
Definition same_core (p q : proc) : Prop :=
  state q = state p /\ pid q = pid p /\ parent q = parent p /\ pchan q = pchan p /\ killed q = killed p.

Lemma close_files_inv n fd i q s s1 s' :
  slot i q s s1 -> close_files n fd i s1 = Ok tt s' ->
  exists q', slot i q' s s' /\ same_core q q' /\ nextpid s' = nextpid s1 /\
    (length (ofile q) = NOFILE -> (fd + n <= NOFILE)%nat -> length (ofile q') = NOFILE /\
       forall j, (j < NOFILE)%nat -> ofile q' !!! j =
         if decide (fd <= j < fd + n)%nat then 0 else ofile q !!! j).
Proof.
  revert fd q s1. induction n as [|n IH]; intros fd q s1 HS Hd.
  { injection Hd as <-. exists q. split_and!; try done. intros Hl _. split; [done |]. intros j _.
    rewrite decide_False by lia. done. }
  simpl in Hd. apply bind_inv in Hd as (p & s2 & E & Hd). injection E as <- <-.
  rewrite (slot_same i q s s1 HS) in Hd.
  destruct (Z.eqb_spec (ofile q !!! fd) 0) as [Hz | Hz].
  - apply bind_inv in Hd as ([] & s2 & E & Hd). injection E as <-.
    destruct (IH (S fd) q s1 HS Hd) as (q' & HS' & Hc & Hn & Hv). exists q'. split_and!; try done.
    intros Hl Hfd. destruct (Hv Hl ltac:(lia)) as [Hl' Hv']. split; [done |].
    intros j Hj. rewrite Hv' by done. destruct (decide (j = fd)) as [-> | ?].
    + by rewrite decide_False, decide_True by lia.
    + repeat case_decide; try lia; done.
  - apply bind_inv in Hd as ([] & s2 & E & Hd).
    apply (slot_step_w i _ _ _ _ _ _ _ HS) in E as (? & s3 & w & _ & HS3 & N3 & _ & E).
    apply slot_on_proc in E as (E & N4 & _). rewrite (slot_same i q s s3 HS3) in E.
    pose proof (slot_trans i _ _ _ _ _ HS3 E) as HS4.
    destruct (IH (S fd) _ s2 HS4 Hd) as (q' & HS' & Hc & Hn & Hv). exists q'.
    split_and!; [done | done | congruence |]. simpl in Hv. rewrite length_insert in Hv.
    intros Hl Hfd. destruct (Hv Hl ltac:(lia)) as [Hl' Hv']. split; [done |].
    intros j Hj. rewrite Hv' by done. destruct (decide (j = fd)) as [-> | ?].
    + rewrite decide_False, decide_True by lia. apply list_lookup_total_insert_eq. lia.
    + rewrite list_lookup_total_insert_ne by done. repeat case_decide; try lia; done.
Qed.

(** [s'] is [s] after some sleepers on [ch] were woken and nothing else changed. *)
Definition woken (ch : chan) (p q : proc) : Prop :=
  pid q = pid p /\ pchan q = pchan p /\ killed q = killed p /\
  (state q = state p \/ (state p = SLEEPING /\ pchan p = ch /\ state q = RUNNABLE)).

Lemma woken_refl ch p : woken ch p p.
Proof. unfold woken. auto. Qed.

Lemma woken_trans ch p q r : woken ch p q -> woken ch q r -> woken ch p r.
Proof.
  intros (A1 & A2 & A3 & A4) (B1 & B2 & B3 & B4). split_and!; try congruence.
  destruct A4 as [A4 | (A4 & A5 & A6)], B4 as [B4 | (B4 & B5 & B6)]; try congruence.
  - left. congruence.
  - right. split_and!; congruence.
  - right. split_and!; congruence.
Qed.

Lemma wake_woken ch p : woken ch p (wake ch p).
Proof.
  unfold wake, woken, in_state. destruct (decide (state p = SLEEPING)) as [E | E].
  - rewrite (bool_decide_true _ E). destruct (bool_decide (pchan p = ch)) eqn:Hc; simpl; [| auto].
    apply bool_decide_eq_true in Hc. auto 10.
  - rewrite (bool_decide_false _ E). auto.
Qed.

Lemma wake_parent ch p : parent (wake ch p) = parent p.
Proof. unfold wake. by destruct (_ && _). Qed.

Lemma wake_done ch p : state (wake ch p) = SLEEPING -> pchan p <> ch.
Proof.
  unfold wake, in_state. destruct (decide (state p = SLEEPING)) as [E | E].
  - rewrite (bool_decide_true _ E). destruct (bool_decide (pchan p = ch)) eqn:Hc; simpl; [done |].
    intros _. by apply bool_decide_eq_false in Hc.
  - rewrite (bool_decide_false _ E). done.
Qed.

(** The effect of [reparent]: children of [me] in the range go to init, and if one of them is a
    zombie no process is left asleep waiting for init's children. *)
Record reparented (me i0 lo hi : nat) (s s' : ptable W) : Prop := {
  rp_same : initproc s' = initproc s /\ nextpid s' = nextpid s /\ cur s' = cur s /\ pos s' = pos s;
  rp_parent : forall j, parent (procs s' j) =
    if decide (lo <= j < hi /\ parent (procs s j) = Some me)%nat then Some i0 else parent (procs s j);
  rp_woken : forall j, woken (ChProc i0) (procs s j) (procs s' j);
  rp_init : forall k, (lo <= k < hi)%nat -> parent (procs s k) = Some me -> state (procs s k) = ZOMBIE ->
    forall j, state (procs s' j) = SLEEPING -> pchan (procs s' j) <> ChProc i0
}.

Lemma reparent_spec n k me i0 s :
  initproc s = Some i0 -> exists s', reparent n k me s = Ok tt s' /\ reparented me i0 k (k + n) s s'.
Proof.
  revert k s. induction n as [|n IH]; intros k s Hi.
  { exists s. split; [done |]. split; [done | | intros j; apply woken_refl | lia].
    intros j. rewrite decide_False by lia. done. }
  cbn [reparent]. erewrite bind_ok by reflexivity. unfold id. rewrite Hi.
  assert (Hstep : exists s1,
    (if bool_decide (parent (procs s k) = Some me) then
       on_proc k (set_parent (Some i0)) ;;
       (if in_state ZOMBIE (procs s k) then wakeup1 (ChProc i0) else mret tt)
     else mret tt) s = Ok tt s1 /\ reparented me i0 k (S k) s s1).
  { destruct (bool_decide (parent (procs s k) = Some me)) eqn:Hp.
    - apply bool_decide_eq_true in Hp. erewrite bind_ok by reflexivity. unfold id.
      assert (Hpar : forall j, parent (fupd (procs s) k (set_parent (Some i0) (procs s k)) j) =
        if decide (k <= j < S k /\ parent (procs s j) = Some me)%nat then Some i0 else parent (procs s j)).
      { intros j. unfold fupd. destruct (decide (j = k)) as [-> | Hj].
        - rewrite decide_True by (split; [lia | done]). done.
        - rewrite decide_False by lia. done. }
      assert (Hwk : forall j, woken (ChProc i0) (procs s j)
        (fupd (procs s) k (set_parent (Some i0) (procs s k)) j)).
      { intros j. unfold fupd. case_decide; subst; [| apply woken_refl]. unfold woken. simpl. auto. }
      destruct (in_state ZOMBIE (procs s k)) eqn:Hz.
      + eexists. split; [reflexivity |]. split; simpl; [done | | |].
        * intros j. rewrite wake_parent. apply Hpar.
        * intros j. eapply woken_trans; [apply Hwk | apply wake_woken].
        * intros k' _ _ _ j Hs Hc. apply wake_done in Hs. by rewrite (proj1 (proj2 (wake_woken _ _))) in Hc.
      + eexists. split; [reflexivity |]. split; simpl; [done | exact Hpar | exact Hwk |].
        intros k' Hk' _ Hst. assert (k' = k) as -> by lia.
        unfold in_state in Hz. by rewrite (bool_decide_true _ Hst) in Hz.
    - apply bool_decide_eq_false in Hp. exists s. split; [done |].
      split; [done | | intros j; apply woken_refl |].
      + intros j. rewrite decide_False; [done |]. intros [Hj Hjp]. assert (j = k) as -> by lia. done.
      + intros k' Hk' Hp'. assert (k' = k) as -> by lia. done. }
  destruct Hstep as (s1 & E1 & [R1 R2 R3 R4]). erewrite bind_ok by exact E1.
  destruct R1 as (R1a & R1b & R1c & R1d).
  destruct (IH (S k) s1) as (s2 & E2 & [T1 T2 T3 T4]); [congruence |].
  destruct T1 as (T1a & T1b & T1c & T1d).
  exists s2. split; [exact E2 |]. split.
  - split_and!; congruence.
  - intros j. rewrite T2, R2. destruct (decide (j = k)) as [-> | Hj].
    + rewrite (decide_False (P := (_ <= _ < S k + n)%nat /\ _)) by lia.
      destruct (decide (parent (procs s k) = Some me)) as [E | E].
      * by rewrite !decide_True by (split; [lia | done]).
      * by rewrite !decide_False by (intros [_ ?]; done).
    + rewrite (decide_False (P := (_ <= _ < S k)%nat /\ _)) by lia.
      apply decide_ext. rewrite <- Nat.add_succ_comm. split; intros [? ?]; (split; [lia | done]).
  - intros j. eapply woken_trans; [apply R3 | apply T3].
  - intros k' Hk' Hp' Hz' j Hs. destruct (decide (k' = k)) as [-> | Hne].
    + destruct (T3 j) as (_ & E & _ & Hst). rewrite E. eapply (R4 k); [lia | done | done |].
      destruct Hst as [Hst | (_ & _ & Hst)]; congruence.
    + apply (T4 k'); [lia | | | done].
      * rewrite R2. rewrite decide_False by lia. done.
      * destruct (R3 k') as (_ & _ & _ & [E | (E & _)]); congruence.
Qed.
End effects.

(** ** The invariant of the process table *)

Section invariant.
Context {W : Type} `{Kernel W}.
Context (trapret forkret_addr : Z).
Implicit Types (s : ptable W) (i j c : nat).

Definition alive (p : proc) : Prop := state p <> UNUSED /\ state p <> EMBRYO /\ state p <> ZOMBIE.

(** Process [i] has a live parent in the table, not itself. *)
Definition has_parent s i : Prop :=
  exists j, parent (procs s i) = Some j /\ (j < NPROC)%nat /\ j <> i /\ alive (procs s j).

Record pinv (s : ptable W) : Prop := {
  pi_init : exists i0, initproc s = Some i0 /\ (i0 < NPROC)%nat /\ alive (procs s i0) /\ parent (procs s i0) = None;
  (** nobody is orphaned: the parent of a process is there to wait for it *)
  pi_parent : forall i, (i < NPROC)%nat -> state (procs s i) <> UNUSED -> state (procs s i) <> EMBRYO ->
    initproc s <> Some i -> has_parent s i;
  pi_unused : forall i, (i < NPROC)%nat -> state (procs s i) = UNUSED -> parent (procs s i) = None;
  (** a process being made has its parent or none yet *)
  pi_embryo : forall i, (i < NPROC)%nat -> state (procs s i) = EMBRYO ->
    parent (procs s i) = None \/ has_parent s i;
  pi_pid : forall i, (i < NPROC)%nat -> state (procs s i) <> UNUSED -> 0 < pid (procs s i) < nextpid s;
  pi_pids : forall i j, (i < NPROC)%nat -> (j < NPROC)%nat -> state (procs s i) <> UNUSED ->
    state (procs s j) <> UNUSED -> pid (procs s i) = pid (procs s j) -> i = j;
  pi_next : 0 < nextpid s < 2 ^ 31;
  (** a CPU runs a running process, and a running process runs on one CPU *)
  pi_cur : forall c i, cur s c = Some i -> (i < NPROC)%nat /\ state (procs s i) = RUNNING;
  pi_cpu : forall c c' i, cur s c = Some i -> cur s c' = Some i -> c = c';
  pi_running : forall i, (i < NPROC)%nat -> state (procs s i) = RUNNING -> exists c, cur s c = Some i;
  (** whoever sleeps in [wait] has children, none of them exited, and has not been killed *)
  pi_wait : forall i j, (i < NPROC)%nat -> state (procs s i) = SLEEPING -> pchan (procs s i) = ChProc j ->
    j = i /\ killed (procs s i) = 0 /\ (exists k, (k < NPROC)%nat /\ parent (procs s k) = Some i) /\
    forall k, (k < NPROC)%nat -> parent (procs s k) = Some i -> state (procs s k) <> ZOMBIE
}.

(** A live process changes in place. *)
Lemma pinv_slot s s' i q :
  pinv s -> (i < NPROC)%nat ->
  procs s' = fupd (procs s) i q -> initproc s' = initproc s -> nextpid s' = nextpid s ->
  parent q = parent (procs s i) -> pid q = pid (procs s i) ->
  (state q = UNUSED <-> state (procs s i) = UNUSED) -> (state q = ZOMBIE <-> state (procs s i) = ZOMBIE) ->
  (state q = EMBRYO <-> state (procs s i) = EMBRYO) ->
  (forall c k, cur s' c = Some k -> (k < NPROC)%nat /\ state (procs s' k) = RUNNING) ->
  (forall c c' k, cur s' c = Some k -> cur s' c' = Some k -> c = c') ->
  (forall k, (k < NPROC)%nat -> state (procs s' k) = RUNNING -> exists c, cur s' c = Some k) ->
  (forall j, state q = SLEEPING -> pchan q = ChProc j ->
    j = i /\ killed q = 0 /\ (exists k, (k < NPROC)%nat /\ parent (procs s k) = Some i) /\
    forall k, (k < NPROC)%nat -> parent (procs s k) = Some i -> state (procs s k) <> ZOMBIE) ->
  pinv s'.
Proof.
  intros [I1 I2 I3 I4 I5 I6 I7 I8 I9 I10 I11] Hi Ep Ei En Hpar Hpid Hun Hzo Hem C1 C2 C3 Hw.
  assert (Par : forall k, parent (procs s' k) = parent (procs s k)).
  { intros k. rewrite Ep. unfold fupd. by case_decide; subst. }
  assert (Pid : forall k, pid (procs s' k) = pid (procs s k)).
  { intros k. rewrite Ep. unfold fupd. by case_decide; subst. }
  assert (Un : forall k, state (procs s' k) = UNUSED <-> state (procs s k) = UNUSED).
  { intros k. rewrite Ep. unfold fupd. by case_decide; subst. }
  assert (Zo : forall k, state (procs s' k) = ZOMBIE <-> state (procs s k) = ZOMBIE).
  { intros k. rewrite Ep. unfold fupd. by case_decide; subst. }
  assert (Em : forall k, state (procs s' k) = EMBRYO <-> state (procs s k) = EMBRYO).
  { intros k. rewrite Ep. unfold fupd. by case_decide; subst. }
  assert (Al : forall k, alive (procs s k) -> alive (procs s' k)).
  { intros k. unfold alive. by rewrite Un, Em, Zo. }
  assert (Hp : forall k, has_parent s k -> has_parent s' k).
  { intros k (j & J1 & J2 & J3 & J4). exists j. rewrite Par. split_and!; first [done | by apply Al]. }
  split.
  - destruct I1 as (i0 & J1 & J2 & J3 & J4). exists i0. rewrite Ei, Par. split_and!; first [done | by apply Al].
  - intros k Hk. rewrite Un, Em, Ei. auto.
  - intros k Hk Hs. rewrite Par. rewrite Un in Hs. auto.
  - intros k Hk. rewrite Em, Par. intros Hs. destruct (I4 k Hk Hs); auto.
  - intros k Hk Hs. rewrite Pid, En. rewrite Un in Hs. auto.
  - intros k j Hk Hj Hs Hs'. rewrite !Pid. rewrite Un in Hs, Hs'. auto.
  - by rewrite En.
  - exact C1.
  - exact C2.
  - exact C3.
  - intros k j Hk Hs Hc. rewrite Ep in Hs, Hc.
    assert (Ek : killed (procs s' k) = killed (fupd (procs s) i q k)) by (by rewrite Ep). rewrite Ek.
    assert (Hg : j = k /\ killed (fupd (procs s) i q k) = 0 /\
      (exists m, (m < NPROC)%nat /\ parent (procs s m) = Some k) /\
      forall m, (m < NPROC)%nat -> parent (procs s m) = Some k -> state (procs s m) <> ZOMBIE).
    { unfold fupd in *. case_decide; subst; [by apply Hw | by apply I11]. }
    destruct Hg as (G1 & G2 & (m & G3 & G4) & G5). split_and!; auto.
    + exists m. by rewrite Par.
    + intros n Hn. rewrite Par, Zo. auto.
Qed.

(** The same, when the CPUs run what they ran. *)
Lemma pinv_slot_cur s s' i q :
  pinv s -> (i < NPROC)%nat ->
  procs s' = fupd (procs s) i q -> initproc s' = initproc s -> nextpid s' = nextpid s -> cur s' = cur s ->
  parent q = parent (procs s i) -> pid q = pid (procs s i) -> 
  (state q = state (procs s i) \/ (state (procs s i) = SLEEPING /\ state q = RUNNABLE)) ->
  (state q = SLEEPING -> pchan q = pchan (procs s i) /\ killed q = killed (procs s i)) ->
  pinv s'.
Proof.
  intros Hp Hi Ep Ei En Ec Hpar Hpid Hst Hsl. pose proof Hp as [_ _ _ I4 _ _ _ I8 I9 I10 I11].
  assert (Run : forall k, state (procs s' k) = RUNNING <-> state (procs s k) = RUNNING).
  { intros k. rewrite Ep. unfold fupd. case_decide; subst; [| done]. destruct Hst as [-> | [-> ->]]; done. }
  eapply (pinv_slot s s' i q); try done; rewrite ?Ec.
  - destruct Hst as [-> | [-> ->]]; done.
  - destruct Hst as [-> | [-> ->]]; done.
  - destruct Hst as [-> | [-> ->]]; done.
  - intros c k Hk. rewrite Run. by eapply I8.
  - done.
  - intros k Hk. rewrite Run. auto.
  - intros j Hs Hc. destruct (Hsl Hs) as [E1 E2]. rewrite E1 in Hc. rewrite E2. apply I11; [done | | done].
    destruct Hst as [<- | [_ E]]; congruence.
Qed.

(** Only sleepers are woken, and the CPUs run what they ran. *)
Lemma pinv_woken s s' :
  pinv s -> initproc s' = initproc s -> nextpid s' = nextpid s -> cur s' = cur s ->
  (forall i, parent (procs s' i) = parent (procs s i)) ->
  (forall i, exists ch, woken ch (procs s i) (procs s' i)) -> pinv s'.
Proof.
  intros [I1 I2 I3 I4 I5 I6 I7 I8 I9 I10 I11] Ei En Ec Hpar Hwk.
  assert (St : forall k, state (procs s' k) = state (procs s k) \/
    (state (procs s k) = SLEEPING /\ state (procs s' k) = RUNNABLE)).
  { intros k. destruct (Hwk k) as (ch & _ & _ & _ & [E | (E & _ & E')]); auto. }
  assert (Pid : forall k, pid (procs s' k) = pid (procs s k)) by (intros k; by destruct (Hwk k) as (ch & ? & _)).
  assert (Un : forall k, state (procs s' k) = UNUSED <-> state (procs s k) = UNUSED).
  { intros k. destruct (St k) as [-> | [-> ->]]; done. }
  assert (Zo : forall k, state (procs s' k) = ZOMBIE <-> state (procs s k) = ZOMBIE).
  { intros k. destruct (St k) as [-> | [-> ->]]; done. }
  assert (Ru : forall k, state (procs s' k) = RUNNING <-> state (procs s k) = RUNNING).
  { intros k. destruct (St k) as [-> | [-> ->]]; done. }
  assert (Em : forall k, state (procs s' k) = EMBRYO <-> state (procs s k) = EMBRYO).
  { intros k. destruct (St k) as [-> | [-> ->]]; done. }
  assert (Al : forall k, alive (procs s' k) <-> alive (procs s k)).
  { intros k. unfold alive. by rewrite Un, Em, Zo. }
  assert (Hp : forall k, has_parent s k -> has_parent s' k).
  { intros k (j & J1 & J2 & J3 & J4). exists j. by rewrite Hpar, Al. }
  split; rewrite ?Ec, ?En, ?Ei; try exact I7; try exact I9.
  - destruct I1 as (i0 & J1 & J2 & J3 & J4). exists i0. by rewrite Hpar, Al.
  - intros k Hk. rewrite Un, Em. auto.
  - intros k Hk. rewrite Hpar, Un. auto.
  - intros k Hk. rewrite Em, Hpar. intros Hs. destruct (I4 k Hk Hs); auto.
  - intros k Hk. rewrite Pid, Un. auto.
  - intros k j Hk Hj. rewrite !Pid, !Un. auto.
  - intros c k. rewrite Ru. apply I8.
  - intros k Hk. rewrite Ru. auto.
  - intros k j Hk Hs Hc. destruct (Hwk k) as (ch & _ & E1 & E2 & Hst). rewrite E1 in Hc. rewrite E2.
    destruct (I11 k j Hk) as (G1 & G2 & (m & G3 & G4) & G5); [destruct Hst as [E | (_ & _ & E)]; congruence | done |].
    split_and!; auto; [exists m; by rewrite Hpar |]. intros n Hn. rewrite Hpar, Zo. auto.
Qed.

Lemma wakeup_pinv s ch s' : pinv s -> wakeup ch s = Ok tt s' -> pinv s'.
Proof.
  intros Hp E. injection E as <-. apply (pinv_woken s); try done; intros i; simpl.
  - apply wake_parent.
  - exists ch. apply wake_woken.
Qed.

Lemma kill_inv s n r s' :
  kill n s = Ok r s' -> s' = s \/ exists i q, (i < NPROC)%nat /\ slot i q s s' /\ nextpid s' = nextpid s /\
    parent q = parent (procs s i) /\ pid q = pid (procs s i) /\
    (state q = state (procs s i) \/ (state (procs s i) = SLEEPING /\ state q = RUNNABLE)) /\ state q <> SLEEPING.
Proof.
  intros Hk. unfold kill in Hk. apply bind_inv in Hk as (s0 & s1 & E & Hk). injection E as <- <-. unfold id in Hk.
  destruct (first_from _ NPROC 0) as [i|] eqn:Hf; [right | left; by injection Hk as _ <-].
  apply first_from_Some in Hf as ([_ Hi] & _ & _).
  apply (slot_step_proc i _ _ _ _ _ _ _ (slot_refl i s)) in Hk as (s1 & HS1 & N1 & _ & Hk).
  apply (slot_step_proc i _ _ _ _ _ _ _ HS1) in Hk as (s2 & HS2 & N2 & _ & Hk). injection Hk as _ <-.
  exists i. eexists. split; [lia |]. split; [exact HS2 |]. split; [congruence |]. unfold in_state. simpl.
  destruct (decide (state (procs s i) = SLEEPING)) as [Es | Es];
    rewrite ?(bool_decide_true _ Es), ?(bool_decide_false _ Es); simpl; by split_and!; auto.
Qed.

Lemma kill_pinv s n r s' : pinv s -> kill n s = Ok r s' -> pinv s'.
Proof.
  intros Hp [-> | (i & q & Hi & (E1 & E2 & E3 & _) & N & H1 & H2 & H3 & H4)]%kill_inv; [done |].
  by eapply (pinv_slot_cur s s' i q).
Qed.

Lemma cur_slot s c i : pinv s -> cur s c = Some i -> (i < NPROC)%nat /\ state (procs s i) = RUNNING /\
  forall c', c' <> c -> cur s c' <> Some i.
Proof. intros Hp Hc. destruct (pi_cur s Hp c i Hc). split_and!; auto. intros c' Hne Hc'. apply Hne. by eapply pi_cpu. Qed.

(** The running process of CPU [c] turns into [q] and leaves the CPU. *)
Lemma pinv_leave s s' c i q :
  pinv s -> cur s c = Some i -> procs s' = fupd (procs s) i q -> initproc s' = initproc s ->
  nextpid s' = nextpid s -> cur s' = fupd (cur s) c None ->
  parent q = parent (procs s i) -> pid q = pid (procs s i) -> state q = RUNNABLE \/ state q = SLEEPING ->
  (forall j, state q = SLEEPING -> pchan q = ChProc j ->
    j = i /\ killed q = 0 /\ (exists k, (k < NPROC)%nat /\ parent (procs s k) = Some i) /\
    forall k, (k < NPROC)%nat -> parent (procs s k) = Some i -> state (procs s k) <> ZOMBIE) ->
  pinv s'.
Proof.
  intros Hp Hc Ep Ei En Ec Hpar Hpid Hst Hw. destruct (cur_slot s c i Hp Hc) as (Hi & Hr & Hcu).
  pose proof Hp as [_ _ _ _ _ _ _ I8 I9 I10 _].
  eapply (pinv_slot s s' i q); try done.
  - rewrite Hr. destruct Hst as [-> | ->]; done.
  - rewrite Hr. destruct Hst as [-> | ->]; done.
  - rewrite Hr. destruct Hst as [-> | ->]; done.
  - intros c' k. rewrite Ec, Ep. unfold fupd. case_decide; [done |]. intros Hk.
    rewrite decide_False; [by eapply I8 |]. intros ->. by apply (Hcu c').
  - intros c1 c2 k. rewrite Ec. unfold fupd. repeat case_decide; try done. apply I9.
  - intros k Hk. rewrite Ec, Ep. unfold fupd. case_decide.
    + subst. destruct Hst as [-> | ->]; done.
    + intros Hk'. destruct (I10 k Hk Hk') as [c' Hc']. exists c'. rewrite decide_False; [done |].
      intros ->. congruence.
Qed.

Lemma sched_inv c i s s' :
  cur s c = Some i -> sched c s = Ok tt s' ->
  state (procs s i) <> RUNNING /\
  exists w, s' = PT (procs s) (initproc s) (nextpid s) (fupd (cur s) c None) (pos s) w.
Proof.
  intros Hc Hs. unfold sched in Hs. erewrite bind_ok in Hs by reflexivity. rewrite Hc in Hs.
  erewrite bind_ok in Hs by reflexivity.
  unfold in_state in Hs. destruct (decide (state (procs s i) = RUNNING)) as [E | E];
    [rewrite (bool_decide_true _ E) in Hs | rewrite (bool_decide_false _ E) in Hs]; [done |].
  apply bind_inv in Hs as ([] & s1 & (w & _ & ->)%on_w_inv & Hs). injection Hs as <-. split; [done | by exists w].
Qed.

Lemma yield_inv c i s s' :
  cur s c = Some i -> yield c s = Ok tt s' ->
  procs s' = fupd (procs s) i (set_state RUNNABLE (procs s i)) /\ initproc s' = initproc s /\
  nextpid s' = nextpid s /\ cur s' = fupd (cur s) c None.
Proof.
  intros Hc Hy. unfold yield in Hy. erewrite bind_ok in Hy by reflexivity. rewrite Hc in Hy.
  apply (slot_step_proc i _ _ _ _ _ _ _ (slot_refl i s)) in Hy as (s1 & (E1 & E2 & E3 & _) & N1 & _ & Hy).
  apply (sched_inv c i) in Hy as [_ [w ->]]; [| by rewrite E3]. simpl. split_and!; congruence.
Qed.

Lemma yield_pinv s c s' : pinv s -> yield c s = Ok tt s' -> pinv s'.
Proof.
  intros Hp Hy. destruct (cur s c) as [i|] eqn:Hc.
  2: { unfold yield in Hy. erewrite bind_ok in Hy by reflexivity. by rewrite Hc in Hy. }
  destruct (yield_inv c i s s' Hc Hy) as (E1 & E2 & E3 & E4).
  eapply (pinv_leave s _ c i);
    [done | done | exact E1 | done | done | done | done | done | by left | done].
Qed.

Lemma sleep_inv c i ch s s' :
  cur s c = Some i -> sleep c ch s = Ok tt s' ->
  procs s' = fupd (procs s) i (set_state SLEEPING (set_chan ch (procs s i))) /\ initproc s' = initproc s /\
  nextpid s' = nextpid s /\ cur s' = fupd (cur s) c None.
Proof.
  intros Hc Hy. unfold sleep in Hy. erewrite bind_ok in Hy by reflexivity. rewrite Hc in Hy.
  apply (slot_step_proc i _ _ _ _ _ _ _ (slot_refl i s)) in Hy as (s1 & HS & N1 & _ & Hy).
  apply (slot_step_proc i _ _ _ _ _ _ _ HS) in Hy as (s2 & (E1 & E2 & E3 & _) & N2 & _ & Hy).
  apply (sched_inv c i) in Hy as [_ [w ->]]; [| by rewrite E3]. simpl. split_and!; congruence.
Qed.

Lemma sleep_pinv s c ch s' :
  pinv s -> (forall i, ch <> ChProc i) -> sleep c ch s = Ok tt s' -> pinv s'.
Proof.
  intros Hp Hch Hy. destruct (cur s c) as [i|] eqn:Hc.
  2: { unfold sleep in Hy. erewrite bind_ok in Hy by reflexivity. by rewrite Hc in Hy. }
  destruct (sleep_inv c i ch s s' Hc Hy) as (E1 & E2 & E3 & E4).
  eapply (pinv_leave s _ c i);
    [done | done | exact E1 | done | done | done | done | done | by right |].
  intros j _ Hj. by apply Hch in Hj.
Qed.

Lemma scheduler_inv c s o s' :
  scheduler c s = Ok o s' ->
  match o with
  | Some i => (pos s c <= i < NPROC)%nat /\ state (procs s i) = RUNNABLE /\
      (forall j, (pos s c <= j < i)%nat -> state (procs s j) <> RUNNABLE) /\
      procs s' = fupd (procs s) i (set_state RUNNING (procs s i)) /\ cur s' = fupd (cur s) c (Some i) /\
      pos s' = fupd (pos s) c (S i) /\ initproc s' = initproc s /\ nextpid s' = nextpid s
  | None => (forall j, (pos s c <= j < NPROC)%nat -> state (procs s j) <> RUNNABLE) /\
      procs s' = procs s /\ cur s' = cur s /\ pos s' = fupd (pos s) c 0%nat /\
      initproc s' = initproc s /\ nextpid s' = nextpid s
  end.
Proof.
  intros Hk. unfold scheduler in Hk. erewrite bind_ok in Hk by reflexivity. unfold id in Hk.
  destruct (first_from _ _ _) as [i|] eqn:Hf.
  - apply first_from_Some in Hf as (Hi & Hr & Hno). apply bool_decide_eq_true in Hr.
    erewrite bind_ok in Hk by reflexivity.
    erewrite bind_ok in Hk by reflexivity.
    apply bind_inv in Hk as ([] & s1 & (w & _ & ->)%on_w_inv & Hk).
    erewrite bind_ok in Hk by reflexivity. injection Hk as <- <-. simpl.
    split_and!; try done; [lia | lia |]. intros j Hj. specialize (Hno j ltac:(lia)).
    by apply bool_decide_eq_false in Hno.
  - erewrite bind_ok in Hk by reflexivity. injection Hk as <- <-. simpl. split_and!; try done.
    intros j Hj. pose proof (first_from_None _ _ _ Hf j ltac:(lia)) as Hno.
    by apply bool_decide_eq_false in Hno.
Qed.

Lemma scheduler_idle_pinv s c s' : pinv s -> scheduler c s = Ok None s' -> pinv s'.
Proof.
  intros Hp (_ & E1 & E2 & _ & E3 & E4)%scheduler_inv.
  apply (pinv_woken s); try done; intros i; rewrite E1; [done |]. exists ChNone. apply woken_refl.
Qed.

Lemma dispatch_pinv s c i s1 s' :
  pinv s -> cur s c = None -> scheduler c s = Ok (Some i) s1 -> resume i s1 = Ok tt s' -> pinv s'.
Proof.
  intros Hp Hc (Hi & Hr & _ & E1 & E2 & _ & E3 & E4)%scheduler_inv Hres.
  apply slot_on_proc in Hres as ((F1 & F2 & F3 & _) & F4 & _). rewrite E1, fupd_fupd, fupd_same in F1.
  pose proof Hp as [_ _ _ _ _ _ _ I8 I9 I10 _].
  eapply (pinv_slot s s' i); try done; try exact F1; try congruence; try lia; rewrite ?F3, ?E2, ?F1; simpl.
  - by rewrite Hr.
  - by rewrite Hr.
  - by rewrite Hr.
  - intros c' k. unfold fupd. case_decide; [intros [= ->] | intros Hk].
    + by rewrite decide_True; [split; [lia |] |].
    + destruct (I8 c' k Hk) as [Hk1 Hk2]. rewrite decide_False; [done |]. intros ->. congruence.
  - intros c1 c2 k. unfold fupd. repeat case_decide; subst; try done.
    + intros [= ->] H2. apply I8 in H2 as [_ ?]. congruence.
    + intros H2 [= ->]. apply I8 in H2 as [_ ?]. congruence.
    + apply I9.
  - intros k Hk. unfold fupd. case_decide as Hki.
    + intros _. exists c. rewrite decide_True by done. by subst.
    + intros Hk'. destruct (I10 k Hk Hk') as [c' Hc']. exists c'. rewrite decide_False; [done |].
      intros ->. congruence.
Qed.

(** [growproc] changes only the memory of the process. *)
Lemma growproc_inv c i n s r s' :
  cur s c = Some i -> growproc c n s = Ok r s' ->
  exists q, slot i q s s' /\ same_core (procs s i) q /\ nextpid s' = nextpid s.
Proof.
  intros Hc Hg. unfold growproc in Hg. erewrite bind_ok in Hg by reflexivity. rewrite Hc in Hg.
  erewrite bind_ok in Hg by reflexivity.
  assert (Hset : forall x s1, slot i (procs s i) s s1 -> nextpid s1 = nextpid s ->
    (on_proc i (set_sz x) ;; on_w (switchuvm c (kstack (procs s i)) (pgdir (procs s i))) ;; mret 0) s1 = Ok r s' ->
    exists q, slot i q s s' /\ same_core (procs s i) q /\ nextpid s' = nextpid s).
  { intros x s1 HS N Hk. apply (slot_step_proc i _ _ _ _ _ _ _ HS) in Hk as (s2 & HS2 & N2 & _ & Hk).
    apply (slot_step_w i _ _ _ _ _ _ _ HS2) in Hk as (u & s3 & w & _ & HS3 & N3 & _ & Hk).
    injection Hk as _ <-. eexists. split; [exact HS3 |]. split; [done | congruence]. }
  cbv zeta in Hg. destruct (0 <? n); [| destruct (n <? 0)].
  3: { eapply Hset; [apply slot_refl | done | exact Hg]. }
  all: apply (slot_step_w i _ _ _ _ _ _ _ (slot_refl i s)) in Hg as (a & s1 & w & _ & HS & N & _ & Hg);
    destruct (a =? 0); [injection Hg as _ <-; by exists (procs s i) | by eapply (Hset a)].
Qed.

Lemma growproc_pinv s c n r s' : pinv s -> growproc c n s = Ok r s' -> pinv s'.
Proof.
  intros Hp Hg. destruct (cur s c) as [i|] eqn:Hc.
  2: { unfold growproc in Hg. erewrite bind_ok in Hg by reflexivity. by rewrite Hc in Hg. }
  destruct (cur_slot s c i Hp Hc) as (Hi & Hr & _).
  destruct (growproc_inv c i n s r s' Hc Hg) as (q & (E1 & E2 & E3 & _) & (F1 & F2 & F3 & F4 & F5) & N).
  eapply (pinv_slot_cur s s' i q); try done; auto.
Qed.

(** A free slot is taken. *)
Lemma pinv_take s s' i q :
  pinv s -> nextpid s + 1 < 2 ^ 31 -> (i < NPROC)%nat -> state (procs s i) = UNUSED ->
  slot i q s s' -> nextpid s' = s32 (nextpid s + 1) ->
  state q = EMBRYO -> parent q = parent (procs s i) -> pid q = nextpid s -> pinv s'.
Proof.
  intros [I1 I2 I3 I4 I5 I6 I7 I8 I9 I10 I11] Hb Hi Hu (Ep & Ei & Ec & _) En Hq Hqp Hqn.
  assert (En' : nextpid s' = nextpid s + 1).
  { rewrite En. unfold s32. cbv zeta. clear -I7 Hb. word. }
  assert (Oth : forall k, state (procs s k) <> UNUSED -> procs s' k = procs s k).
  { intros k Hk. rewrite Ep. apply fupd_other. by intros ->. }
  assert (Sl : procs s' i = q) by (rewrite Ep; apply fupd_same).
  assert (Ne : forall k, k <> i -> procs s' k = procs s k) by (intros k Hk; rewrite Ep; by apply fupd_other).
  assert (Hp : forall k, state (procs s k) <> UNUSED -> has_parent s k -> has_parent s' k).
  { intros k Hk (j & J1 & J2 & J3 & J4). exists j. rewrite !Oth by first [done | apply J4]. done. }
  split; rewrite ?Ec, ?Ei, ?En'.
  - destruct I1 as (i0 & J1 & J2 & J3 & J4). exists i0. rewrite Oth by apply J3. done.
  - intros k Hk Hs Hs' Hk0. destruct (decide (k = i)) as [-> | Hki]; [by rewrite Sl in Hs' |].
    rewrite Ne in Hs, Hs' by done. auto.
  - intros k Hk Hs. destruct (decide (k = i)) as [-> | Hki]; [rewrite Sl in Hs; congruence |].
    rewrite Ne in Hs |- * by done. auto.
  - intros k Hk Hs. destruct (decide (k = i)) as [-> | Hki].
    + left. rewrite Sl, Hqp. auto.
    + rewrite Ne in Hs by done. rewrite (Ne k Hki). destruct (I4 k Hk Hs); [by left | right].
      apply Hp; [by rewrite Hs | done].
  - intros k Hk Hs. destruct (decide (k = i)) as [-> | Hki]; [rewrite Sl; lia |].
    rewrite Ne in Hs |- * by done. specialize (I5 k Hk Hs). lia.
  - intros k j Hk Hj Hs Hs' E.
    destruct (decide (k = i)) as [-> | Hki], (decide (j = i)) as [-> | Hji]; try done;
      rewrite ?Sl, ?(Ne k), ?(Ne j) in * by done.
    + specialize (I5 j Hj Hs'). lia.
    + specialize (I5 k Hk Hs). lia.
    + auto.
  - lia.
  - intros c k Hk. destruct (I8 c k Hk) as [H1 H2]. rewrite Oth by (rewrite H2; done). done.
  - done.
  - intros k Hk Hr. destruct (decide (k = i)) as [-> | Hki]; [rewrite Sl in Hr; congruence |].
    rewrite Ne in Hr by done. auto.
  - intros k j Hk Hs Hc. assert (Hki : k <> i) by (intros ->; rewrite Sl in Hs; congruence).
    rewrite Ne in Hs, Hc |- * by done. destruct (I11 k j Hk Hs Hc) as (G1 & G2 & (m & G3 & G4) & G5).
    split_and!; auto.
    + exists m. split; [done |]. rewrite Oth; [done |]. intros E. apply I3 in E; [congruence | done].
    + intros n Hn. destruct (decide (n = i)) as [-> | Hni]; [| rewrite Ne by done; auto].
      rewrite Sl. congruence.
Qed.

(** A process being made goes on, is given up, or is finished.  Its parent is set once. *)
Lemma pinv_embryo s s' i q :
  pinv s -> (i < NPROC)%nat -> state (procs s i) = EMBRYO -> slot i q s s' -> nextpid s' = nextpid s ->
  pid q = pid (procs s i) ->
  parent q = parent (procs s i) \/ parent (procs s i) = None ->
  (parent q = None /\ state q <> RUNNABLE) \/
  (exists cp, parent q = Some cp /\ (cp < NPROC)%nat /\ alive (procs s cp)) /\ state q <> UNUSED ->
  state q = EMBRYO \/ state q = UNUSED \/ state q = RUNNABLE ->
  pinv s'.
Proof.
  intros [I1 I2 I3 I4 I5 I6 I7 I8 I9 I10 I11] Hi Hu (Ep & Ei & Ec & _) En Hpid Hold Hq Hst.
  assert (Oth : forall k, state (procs s k) <> EMBRYO -> procs s' k = procs s k).
  { intros k Hk. rewrite Ep. apply fupd_other. by intros ->. }
  assert (Sl : procs s' i = q) by (rewrite Ep; apply fupd_same).
  assert (Ne : forall k, k <> i -> procs s' k = procs s k) by (intros k Hk; rewrite Ep; by apply fupd_other).
  assert (Hp : forall k, k <> i -> has_parent s k -> has_parent s' k).
  { intros k Hk (j & J1 & J2 & J3 & J4). exists j. rewrite (Ne k), Oth by first [done | apply J4]. done. }
  assert (Hpq : (exists cp, parent q = Some cp /\ (cp < NPROC)%nat /\ alive (procs s cp)) -> has_parent s' i).
  { intros (cp & H1 & H2 & H3). assert (cp <> i) by (intros ->; by destruct H3 as (_ & H3 & _)).
    exists cp. rewrite Sl, Oth by apply H3. done. }
  split; rewrite ?Ec, ?Ei, ?En; try done.
  - destruct I1 as (i0 & J1 & J2 & J3 & J4). exists i0. rewrite Oth by apply J3. done.
  - intros k Hk Hs Hs' Hk0. destruct (decide (k = i)) as [-> | Hki].
    + rewrite Sl in Hs, Hs'. destruct Hq as [[_ Hq] | [Hq _]]; [| auto].
      destruct Hst as [? | [? | ?]]; done.
    + rewrite Ne in Hs, Hs' by done. auto.
  - intros k Hk Hs. destruct (decide (k = i)) as [-> | Hki].
    + rewrite Sl in Hs |- *. destruct Hq as [[Hq _] | [_ Hq]]; done.
    + rewrite Ne in Hs |- * by done. auto.
  - intros k Hk Hs. destruct (decide (k = i)) as [-> | Hki].
    + destruct Hq as [[Hq _] | [Hq _]]; [left; by rewrite Sl | right; auto].
    + rewrite Ne in Hs by done. rewrite (Ne k Hki). destruct (I4 k Hk Hs); auto.
  - intros k Hk Hs. destruct (decide (k = i)) as [-> | Hki].
    + rewrite Sl, Hpid. apply I5; [done | by rewrite Hu].
    + rewrite Ne in Hs |- * by done. auto.
  - assert (Hpids : forall k, pid (procs s' k) = pid (procs s k)).
    { intros k. destruct (decide (k = i)) as [-> | Hki]; [by rewrite Sl | by rewrite Ne]. }
    assert (Hun : forall k, state (procs s' k) <> UNUSED -> state (procs s k) <> UNUSED).
    { intros k. destruct (decide (k = i)) as [-> | Hki]; [by rewrite Hu | by rewrite Ne]. }
    intros k j Hk Hj Hs Hs'. rewrite !Hpids. auto.
  - intros c k Hk. destruct (I8 c k Hk) as [H1 H2]. rewrite Oth by (by rewrite H2). done.
  - intros k Hk Hr. destruct (decide (k = i)) as [-> | Hki].
    + rewrite Sl in Hr. destruct Hst as [? | [? | ?]]; congruence.
    + rewrite Ne in Hr by done. auto.
  - intros k j Hk Hs Hc. assert (Hki : k <> i).
    { intros ->. rewrite Sl in Hs. destruct Hst as [? | [? | ?]]; congruence. }
    rewrite Ne in Hs, Hc |- * by done. destruct (I11 k j Hk Hs Hc) as (G1 & G2 & (m & G3 & G4) & G5).
    split_and!; auto.
    + exists m. split; [done |]. destruct (decide (m = i)) as [-> | Hmi]; [| by rewrite Ne].
      rewrite Sl. destruct Hold; congruence.
    + intros n Hn. destruct (decide (n = i)) as [-> | Hni]; [| rewrite Ne by done; auto].
      rewrite Sl. destruct Hst as [? | [? | ?]]; congruence.
Qed.

(** A zombie nobody is waiting to have as a parent goes away. *)
Lemma pinv_reap s s' k q :
  pinv s -> (k < NPROC)%nat -> state (procs s k) = ZOMBIE ->
  (exists cp, parent (procs s k) = Some cp /\ state (procs s cp) = RUNNING) ->
  slot k q s s' -> nextpid s' = nextpid s -> state q = UNUSED -> parent q = None -> pinv s'.
Proof.
  intros [I1 I2 I3 I4 I5 I6 I7 I8 I9 I10 I11] Hk Hz (cp & Hcp & Hrun) (Ep & Ei & Ec & _) En Hq Hqp.
  assert (Sl : procs s' k = q) by (rewrite Ep; apply fupd_same).
  assert (Ne : forall j, j <> k -> procs s' j = procs s j) by (intros j Hj; rewrite Ep; by apply fupd_other).
  assert (Al : forall j, alive (procs s j) -> procs s' j = procs s j).
  { intros j (_ & _ & Hj). apply Ne. by intros ->. }
  assert (Hp : forall i, i <> k -> has_parent s i -> has_parent s' i).
  { intros i Hi (j & J1 & J2 & J3 & J4). exists j. rewrite (Ne i Hi), Al by done. done. }
  split; rewrite ?Ec, ?Ei, ?En; try exact I7; try exact I9.
  - destruct I1 as (i0 & J1 & J2 & J3 & J4). exists i0. rewrite Al by done. done.
  - intros i Hi Hs Hs' Hi0. destruct (decide (i = k)) as [-> | Hik]; [by rewrite Sl in Hs |].
    rewrite Ne in Hs, Hs' by done. auto.
  - intros i Hi Hs. destruct (decide (i = k)) as [-> | Hik]; [by rewrite Sl |].
    rewrite Ne in Hs |- * by done. auto.
  - intros i Hi Hs. destruct (decide (i = k)) as [-> | Hik]; [by rewrite Sl, Hq in Hs |].
    rewrite Ne in Hs by done. rewrite (Ne i Hik). destruct (I4 i Hi Hs); auto.
  - intros i Hi Hs. destruct (decide (i = k)) as [-> | Hik]; [by rewrite Sl in Hs |].
    rewrite Ne in Hs |- * by done. auto.
  - intros i j Hi Hj Hs Hs' E. destruct (decide (i = k)) as [-> | Hik]; [by rewrite Sl in Hs |].
    destruct (decide (j = k)) as [-> | Hjk]; [by rewrite Sl in Hs' |]. rewrite !Ne in * by done. auto.
  - intros c i Hi. destruct (I8 c i Hi) as [H1 H2]. rewrite Ne; [done |]. intros ->. congruence.
  - intros i Hi Hr. apply I10; [done |]. destruct (decide (i = k)) as [-> | Hik].
    + rewrite Sl, Hq in Hr. done.
    + by rewrite Ne in Hr.
  - intros i j Hi Hs Hc. assert (Hik : i <> k). { intros ->. rewrite Sl, Hq in Hs. done. }
    rewrite Ne in Hs, Hc |- * by done. destruct (I11 i j Hi Hs Hc) as (G1 & G2 & (m & G3 & G4) & G5).
    split_and!; auto.
    + exists m. split; [done |]. rewrite Ne; [done |]. intros ->. congruence.
    + intros n Hn. destruct (decide (n = k)) as [-> | Hnk]; [rewrite Sl, Hq; done | rewrite Ne by done; auto].
Qed.

(** The two ways [wait] ends a pass. *)
Lemma wait_inv c me s r s' :
  cur s c = Some me -> wait c s = Ok r s' ->
  (exists k q, (k < NPROC)%nat /\ parent (procs s k) = Some me /\ state (procs s k) = ZOMBIE /\
     r = pid (procs s k) /\ slot k q s s' /\ nextpid s' = nextpid s /\
     state q = UNUSED /\ parent q = None /\ pid q = 0 /\ killed q = 0 /\ kstack q = 0) \/
  (r = -1 /\ s' = s /\
   (forall k, (k < NPROC)%nat -> parent (procs s k) = Some me -> state (procs s k) <> ZOMBIE) /\
   ((forall k, (k < NPROC)%nat -> parent (procs s k) <> Some me) \/ killed (procs s me) <> 0)).
Proof.
  intros Hc Hw. unfold wait in Hw. erewrite bind_ok in Hw by reflexivity. rewrite Hc in Hw.
  erewrite bind_ok in Hw by reflexivity. unfold id in Hw. cbv zeta in Hw.
  destruct (first_from _ NPROC 0) as [k|] eqn:Hf.
  - left. apply first_from_Some in Hf as ([_ Hk] & Ht & _). apply andb_prop in Ht as [Ht1 Ht2].
    apply bool_decide_eq_true in Ht1, Ht2. apply bind_inv in Hw as (p & s1 & E & Hw). injection E as <- <-.
    apply (slot_step_w k _ _ _ _ _ _ _ (slot_refl k s)) in Hw as (? & s1 & ? & _ & HS1 & N1 & _ & Hw).
    apply (slot_step_proc k _ _ _ _ _ _ _ HS1) in Hw as (s2 & HS2 & N2 & _ & Hw).
    apply (slot_step_w k _ _ _ _ _ _ _ HS2) in Hw as (? & s3 & ? & _ & HS3 & N3 & _ & Hw).
    apply (slot_step_proc k _ _ _ _ _ _ _ HS3) in Hw as (s4 & HS4 & N4 & _ & Hw).
    injection Hw as <- <-. exists k. eexists. split_and!; try done; try exact HS4; try lia; congruence.
  - right. assert (Hnz : forall k, (k < NPROC)%nat -> parent (procs s k) = Some me -> state (procs s k) <> ZOMBIE).
    { intros k Hk Hp Hz. pose proof (first_from_None _ _ _ Hf k ltac:(lia)) as Hn. unfold in_state in Hn.
      by rewrite (bool_decide_true _ Hp), (bool_decide_true _ Hz) in Hn. }
    destruct (first_from (fun k => bool_decide _) NPROC 0) as [k|] eqn:Hf2; simpl in Hw.
    + zcase (killed (procs s me) =? 0); simpl in Hw.
      * apply bind_inv in Hw as ([] & s1 & _ & Hw). done.
      * injection Hw as <- <-. auto.
    + injection Hw as <- <-. split_and!; auto. left. intros k Hk Hp.
      pose proof (first_from_None _ _ _ Hf2 k ltac:(lia)) as Hn. by apply bool_decide_eq_false in Hn.
Qed.

Lemma wait_pinv s c r s' : pinv s -> wait c s = Ok r s' -> pinv s'.
Proof.
  intros Hp Hw. destruct (cur s c) as [me|] eqn:Hc.
  2: { unfold wait in Hw. erewrite bind_ok in Hw by reflexivity. by rewrite Hc in Hw. }
  destruct (cur_slot s c me Hp Hc) as (Hi & Hr & _).
  apply (wait_inv c me) in Hw; [| done].
  destruct Hw as [(k & q & H1 & H2 & H3 & _ & H4 & H5 & H6 & H7 & _) | (_ & -> & _)]; [| done].
  eapply (pinv_reap s s' k q); eauto.
Qed.

Lemma on_w_no_sleep {A B} (m : M W A) (k : A -> M (ptable W) B) s ch s' :
  (forall w ch w', m w <> Slept ch w') -> (on_w m ≫= k) s = Slept ch s' ->
  exists a s1, on_w m s = Ok a s1 /\ k a s1 = Slept ch s'.
Proof.
  intros Hm. unfold mbind, M_bind, on_w, zoom. destruct (m (world s)) as [a w | |] eqn:E; [eauto | done |].
  by apply Hm in E.
Qed.

(** [wait] goes to sleep only when there are children and none has exited. *)
Lemma wait_sleep_inv `{!KernelLaws W} c me s ch s' :
  cur s c = Some me -> wait c s = Slept ch s' ->
  ch = ChProc me /\ killed (procs s me) = 0 /\ sleep c (ChProc me) s = Ok tt s' /\
  (exists k, (k < NPROC)%nat /\ parent (procs s k) = Some me) /\
  forall k, (k < NPROC)%nat -> parent (procs s k) = Some me -> state (procs s k) <> ZOMBIE.
Proof.
  intros Hc Hw. unfold wait in Hw. erewrite bind_ok in Hw by reflexivity. rewrite Hc in Hw.
  erewrite bind_ok in Hw by reflexivity. unfold id in Hw. cbv zeta in Hw.
  destruct (first_from _ NPROC 0) as [k|] eqn:Hf.
  { erewrite bind_ok in Hw by reflexivity.
    apply on_w_no_sleep in Hw as (? & s1 & _ & Hw); [| intros; apply k_free_law].
    erewrite bind_ok in Hw by reflexivity.
    apply on_w_no_sleep in Hw as (? & s2 & _ & Hw); [| intros; apply freevm_law].
    erewrite bind_ok in Hw by reflexivity. done. }
  destruct (first_from (fun k => bool_decide _) NPROC 0) as [k|] eqn:Hf2; [| done]. simpl in Hw.
  zcase (killed (procs s me) =? 0); [| done]. simpl in Hw.
  apply first_from_Some in Hf2 as ([_ Hk] & Hp & _). apply bool_decide_eq_true in Hp.
  assert (Hs : exists s1, sleep c (ChProc me) s = Ok tt s1).
  { unfold sleep. erewrite bind_ok by reflexivity. rewrite Hc. do 2 (erewrite bind_ok by reflexivity).
    unfold sched. erewrite bind_ok by reflexivity. simpl. rewrite Hc. erewrite bind_ok by reflexivity.
    simpl. rewrite fupd_same. simpl. edestruct (switchkvm_law c) as [w Hw'].
    unfold on_w, zoom, mbind, M_bind. cbn [world]. rewrite Hw'. eauto. }
  destruct Hs as [s1 Hs]. erewrite bind_ok in Hw by exact Hs. injection Hw as <- <-.
  split_and!; eauto. intros j Hj Hpj Hz. pose proof (first_from_None _ _ _ Hf j ltac:(lia)) as Hn.
  unfold in_state in Hn. by rewrite (bool_decide_true _ Hpj), (bool_decide_true _ Hz) in Hn.
Qed.

Lemma wait_sleep_pinv `{!KernelLaws W} s c ch s' : pinv s -> wait c s = Slept ch s' -> pinv s'.
Proof.
  intros Hp Hw. destruct (cur s c) as [me|] eqn:Hc.
  2: { unfold wait in Hw. erewrite bind_ok in Hw by reflexivity. by rewrite Hc in Hw. }
  destruct (wait_sleep_inv c me s ch s' Hc Hw) as (_ & Hk & Hs & Hkid & Hnz).
  destruct (sleep_inv c me _ s s' Hc Hs) as (E1 & E2 & E3 & E4).
  eapply (pinv_leave s _ c me);
    [done | done | exact E1 | done | done | done | done | done | by right |].
  intros j _ [= ->]. simpl. auto.
Qed.

(** [exit], up to its critical section, only drops the files of the process. *)
Lemma exit_inv c me s s' :
  cur s c = Some me -> exit c s = Ok tt s' ->
  initproc s <> Some me /\ exists s1 q, slot me q s s1 /\ same_core (procs s me) q /\
    nextpid s1 = nextpid s /\ exit_zombie c me s1 = Ok tt s' /\ cwd q = 0 /\
    (length (ofile (procs s me)) = NOFILE -> forall j, (j < NOFILE)%nat -> ofile q !!! j = 0).
Proof.
  intros Hc He. unfold exit in He. erewrite bind_ok in He by reflexivity. rewrite Hc in He.
  erewrite bind_ok in He by reflexivity. unfold id in He.
  destruct (bool_decide (initproc s = Some me)) eqn:Hi; [done |]. apply bool_decide_eq_false in Hi.
  split; [done |]. apply bind_inv in He as ([] & s1 & E & He).
  apply (close_files_inv _ _ _ _ _ _ _ (slot_refl me s)) in E as (q & HS & Hq & N & Hcl).
  apply bind_inv in He as (p & s2 & E & He). injection E as <- <-.
  apply (slot_step_w me _ _ _ _ _ _ _ HS) in He as (? & s2 & ? & _ & HS2 & N2 & _ & He).
  apply (slot_step_proc me _ _ _ _ _ _ _ HS2) in He as (s3 & HS3 & N3 & _ & He).
  exists s3, (set_cwd 0 q). split_and!; try done; [congruence |].
  intros Hl j Hj. destruct (Hcl Hl ltac:(lia)) as [_ Hcl']. simpl. rewrite Hcl' by done.
  by rewrite decide_True by lia.
Qed.

(** What the critical section of [exit] leaves, after the parent has been woken in [s1]. *)
Record exited (me i0 : nat) (s1 s' : ptable W) : Prop := {
  ex_same : initproc s' = initproc s1 /\ nextpid s' = nextpid s1;
  ex_parent : forall j, parent (procs s' j) =
    if decide (0 <= j < NPROC /\ parent (procs s1 j) = Some me)%nat then Some i0 else parent (procs s1 j);
  ex_me : state (procs s' me) = ZOMBIE /\ pid (procs s' me) = pid (procs s1 me);
  ex_other : forall j, j <> me -> woken (ChProc i0) (procs s1 j) (procs s' j);
  ex_init : forall k, (0 <= k < NPROC)%nat -> parent (procs s1 k) = Some me -> state (procs s1 k) = ZOMBIE ->
    forall j, state (procs s' j) = SLEEPING -> pchan (procs s' j) <> ChProc i0
}.

Lemma exit_zombie_inv c me i0 s s' :
  cur s c = Some me -> initproc s = Some i0 -> exit_zombie c me s = Ok tt s' ->
  let ch := match parent (procs s me) with Some j => ChProc j | None => ChNone end in
  let s1 := set_procs (fun i => wake ch (procs s i)) s in
  exited me i0 s1 s' /\ cur s' = fupd (cur s) c None.
Proof.
  intros Hc Hi He ch s1. unfold exit_zombie in He. erewrite bind_ok in He by reflexivity.
  erewrite bind_ok in He by reflexivity. fold ch in He. fold s1 in He.
  destruct (reparent_spec NPROC 0 me i0 s1 Hi) as (s2 & E2 & [(R1 & R2 & R3 & _) R4 R5 R6]).
  erewrite bind_ok in He by exact E2.
  apply (slot_step_proc me _ _ _ _ _ _ _ (slot_refl me s2)) in He as (s3 & HS & N3 & _ & He).
  destruct HS as (F1 & F2 & F3 & _). apply (sched_inv c me) in He as [_ [w ->]]; [| rewrite F3, R3; exact Hc].
  simpl. rewrite F3, R3. split; [| done]. split; simpl; rewrite ?F1.
  - split; [by rewrite F2, R1 | by rewrite N3, R2].
  - intros j. rewrite <- R4. unfold fupd. by case_decide; subst.
  - rewrite fupd_same. simpl. split; [done | apply R5].
  - intros j Hj. rewrite fupd_other by done. apply R5.
  - intros k Hk H1 H2 j. unfold fupd. case_decide; [done |]. by apply (R6 k).
Qed.

Lemma exited_pinv c me i0 s1 s' :
  pinv s1 -> cur s1 c = Some me -> initproc s1 = Some i0 -> i0 <> me ->
  exited me i0 s1 s' -> cur s' = fupd (cur s1) c None ->
  (forall i par, parent (procs s1 me) = Some par -> state (procs s1 i) = SLEEPING -> pchan (procs s1 i) <> ChProc par) ->
  pinv s'.
Proof.
  intros Hp Hc Hi0 Hne [[X1 X2] X3 [X4 X5] X6 X7] Hcur Hpar.
  destruct (cur_slot s1 c me Hp Hc) as (Hme & Hrun & Hcpu). pose proof Hp as [I1 I2 I3 I4 I5 I6 I7 I8 I9 I10 I11].
  assert (St : forall k, k <> me -> state (procs s' k) = state (procs s1 k) \/
    (state (procs s1 k) = SLEEPING /\ state (procs s' k) = RUNNABLE)).
  { intros k Hk. destruct (X6 k Hk) as (_ & _ & _ & [E | (E & _ & E')]); auto. }
  assert (Al : forall k, k <> me -> alive (procs s1 k) -> alive (procs s' k)).
  { intros k Hk. unfold alive. destruct (St k Hk) as [-> | [-> ->]]; done. }
  assert (Un : forall k, state (procs s' k) = UNUSED <-> state (procs s1 k) = UNUSED).
  { intros k. destruct (decide (k = me)) as [-> | Hk]; [by rewrite X4, Hrun |].
    destruct (St k Hk) as [-> | [-> ->]]; done. }
  assert (Pid : forall k, pid (procs s' k) = pid (procs s1 k)).
  { intros k. destruct (decide (k = me)) as [-> | Hk]; [done | by apply X6]. }
  assert (Em : forall k, state (procs s' k) = EMBRYO <-> state (procs s1 k) = EMBRYO).
  { intros k. destruct (decide (k = me)) as [-> | Hk]; [by rewrite X4, Hrun |].
    destruct (St k Hk) as [-> | [-> ->]]; done. }
  destruct I1 as (i0' & J1 & J2 & J3 & J4). assert (i0' = i0) as -> by congruence.
  assert (Hpp : forall k, (k < NPROC)%nat -> k <> i0 -> has_parent s1 k -> has_parent s' k).
  { intros k Hk Hk0 (j & K1 & K2 & K3 & K4). unfold has_parent. rewrite X3, K1. case_decide as Hd.
    + exists i0. split_and!; first [done | by apply Al | congruence].
    + exists j. assert (j <> me) by (intros ->; apply Hd; split; [lia | done]). split_and!; first [done | by apply Al]. }
  split; rewrite ?X1, ?X2; try done.
  - exists i0. rewrite X3, decide_False by (rewrite J4; naive_solver). split_and!; first [done | by apply Al].
  - intros i Hi. rewrite Un, Em. intros Hs Hs' Hin. apply Hpp; [done | congruence | auto].
  - intros i Hi Hs. rewrite Un in Hs. rewrite X3, (I3 i Hi Hs), decide_False by naive_solver. done.
  - intros i Hi. rewrite Em. intros Hs. destruct (I4 i Hi Hs) as [E | E].
    + left. by rewrite X3, E, decide_False by naive_solver.
    + right. apply Hpp; [done | | done]. intros ->. destruct J3 as (_ & J3 & _). done.
  - intros i Hi Hs. rewrite Pid. rewrite Un in Hs. auto.
  - intros i j Hi Hj Hs Hs'. rewrite !Pid. rewrite Un in Hs, Hs'. auto.
  - intros c' k. rewrite Hcur. unfold fupd. case_decide; [done |]. intros Hk.
    destruct (I8 c' k Hk) as [K1 K2]. assert (k <> me) by (intros ->; by apply (Hcpu c')).
    split; [done |]. destruct (St k) as [-> | [E _]]; [done | done | congruence].
  - intros c1 c2 k. rewrite Hcur. unfold fupd. repeat case_decide; try done. apply I9.
  - intros k Hk Hr. assert (Hkm : k <> me) by (intros ->; congruence).
    destruct (St k Hkm) as [E | [_ E]]; [| congruence]. rewrite E in Hr.
    destruct (I10 k Hk Hr) as [c' Hc']. exists c'. rewrite Hcur, fupd_other; [done |]. intros ->. congruence.
  - intros i j Hi Hs Hch. assert (Him : i <> me) by (intros ->; congruence).
    destruct (X6 i Him) as (_ & Ech & Eki & _). destruct (St i Him) as [Es | [_ Es]]; [| congruence].
    pose proof Hs as Hs1. rewrite Es in Hs1. pose proof Hch as Hch1. rewrite Ech in Hch1.
    destruct (I11 i j Hi Hs1 Hch1) as (-> & G2 & (m & G3 & G4) & G5). rewrite Eki. split_and!; auto.
    + exists m. split; [done |]. rewrite X3, decide_False; [done |]. rewrite G4. naive_solver.
    + intros k Hk. rewrite X3. destruct (decide (k = me)) as [-> | Hkm].
      * rewrite decide_False.
        { intros Hpm _. by apply (Hpar i i). }
        { intros [_ E]. destruct (I2 me Hme) as (j & K1 & _ & K3 & _); congruence. }
      * intros Hpk Hz. assert (Hz1 : state (procs s1 k) = ZOMBIE).
        { destruct (St k Hkm) as [<- | [_ E]]; congruence. }
        revert Hpk. case_decide as Hd.
        { intros [= ->]. apply (X7 k) with (j := i) in Hs; [done | lia | apply Hd | done]. }
        { intros Hpk. by apply (G5 k). }
Qed.

(** A process changes what only it uses: its files, its memory, its registers, its name. *)
Lemma same_core_pinv s s' i q :
  pinv s -> (i < NPROC)%nat -> slot i q s s' -> nextpid s' = nextpid s -> same_core (procs s i) q -> pinv s'.
Proof.
  intros Hp Hi (E1 & E2 & E3 & _) N (F1 & F2 & F3 & F4 & F5). eapply (pinv_slot_cur s s' i q); auto.
Qed.

Lemma exit_zombie_pinv s c me s' :
  pinv s -> cur s c = Some me -> initproc s <> Some me -> exit_zombie c me s = Ok tt s' -> pinv s'.
Proof.
  intros Hp Hc Hni Hz. destruct (pi_init s Hp) as (i0 & J1 & _).
  destruct (exit_zombie_inv c me i0 s s' Hc J1 Hz) as [Hx Hcur].
  set (ch := match parent (procs s me) with Some j => ChProc j | None => ChNone end) in *.
  set (s1 := set_procs _ s) in *. assert (Hp1 : pinv s1) by (by eapply (wakeup_pinv s ch)).
  eapply (exited_pinv c me i0 s1 s'); auto; [congruence |].
  intros i par Hpar Hs Hchan. simpl in *. rewrite wake_parent in Hpar. unfold ch in *. rewrite Hpar in *.
  apply wake_done in Hs. by rewrite (proj1 (proj2 (wake_woken _ _))) in Hchan.
Qed.
End invariant.
