(* ===== verification/ForkSteps.v ===== *)
(** * fork, step by step

    [fork] takes [ptable.lock] to find a free slot and again to make the child runnable; in between
    it works on the slot without a lock, while other CPUs run.  [fork_step] does one statement of it
    (one call into the rest of the kernel at most), [fork_is_steps] says that [fork] is these steps
    one after the other, and [owned] which slots belong to which of the forks under way. *)
From S2P Require Import Prelude Mmu Lock Proc.
#[local] Open Scope Z_scope.

(** Where a process stands in [fork]; [np] is the slot it has taken. *)
Inductive fpc :=
| FSlot | FStack (np : nat) | FMem (np : nat) | FUndo (np : nat) | FFields (np : nat)
| FFile (np i : nat) | FDir (np : nat) | FName (np : nat) | FRun (np : nat) (r : Z) | FDone (r : Z).

#[export] Instance fpc_eq_dec : EqDecision fpc.
Proof. solve_decision. Defined.

(** The slot, and the parent it has while the next statement is this one. *)
Definition fslot (pc : fpc) : option nat :=
  match pc with
  | FSlot | FDone _ => None
  | FStack np | FMem np | FUndo np | FFields np | FFile np _ | FDir np | FName np | FRun np _ => Some np
  end.
Definition fparent (cp : nat) (pc : fpc) : option nat :=
  match pc with FFile _ _ | FDir _ | FName _ | FRun _ _ => Some cp | _ => None end.

Section steps.
Context {W : Type} `{Kernel W}.
Context (trapret forkret_addr : Z).
Implicit Types (s : ptable W) (i j c cp np : nat).

Definition fork_step (cp : nat) (pc : fpc) : M (ptable W) fpc :=
  match pc with
  | FSlot => o ← alloc_slot ; mret (match o with Some np => FStack np | None => FDone (-1) end)
  | FStack np => b ← alloc_stack trapret forkret_addr np ; mret (if b : bool then FMem np else FDone (-1))
  | FMem np => b ← fork_mem cp np ; mret (if b : bool then FFields np else FUndo np)
  | FUndo np => fork_undo np ;; mret (FDone (-1))
  | FFields np => fork_fields cp np ;; mret (FFile np 0)
  | FFile np i =>
      if (i <? NOFILE)%nat then dup_file i cp np ;; mret (FFile np (S i)) else mret (FDir np)
  | FDir np => fork_dir cp np ;; mret (FName np)
  | FName np => r ← fork_name cp np ; mret (FRun np r)
  | FRun np r => on_proc np (set_state RUNNABLE) ;; mret (FDone r)
  | FDone r => mret (FDone r)
  end.

Definition frel (cp : nat) (x y : fpc * ptable W) : Prop := fork_step cp x.1 x.2 = Ok y.1 y.2.

Lemma frel_step {A} cp pc (m : M (ptable W) A) (k : A -> fpc) s a s' :
  fork_step cp pc s = (x ← m ; mret (k x)) s -> m s = Ok a s' -> reach (frel cp) (pc, s) (k a, s').
Proof.
  intros E Hm. eapply reach_step; [apply reach_refl |]. unfold frel. simpl. rewrite E.
  by erewrite bind_ok by exact Hm.
Qed.

Lemma dup_files_steps cp np n i s u s' :
  (i + n = NOFILE)%nat -> dup_files n i cp np s = Ok u s' ->
  reach (frel cp) (FFile np i, s) (FDir np, s').
Proof.
  revert i s. induction n as [|n IH]; intros i s Hi Hd.
  - injection Hd as _ <-. eapply reach_step; [apply reach_refl |]. unfold frel. simpl.
    destruct (Nat.ltb_spec i NOFILE); [lia | done].
  - simpl in Hd. apply bind_inv in Hd as (a & s1 & E & Hd).
    eapply reach_trans; [| apply (IH (S i) s1); [lia | exact Hd]].
    eapply (frel_step cp _ _ (fun _ => FFile np (S i)) _ a); [| exact E]. simpl.
    destruct (Nat.ltb_spec i NOFILE); [done | lia].
Qed.

(** [fork] is its steps, one after the other. *)
Lemma fork_is_steps c cp s r s' :
  cur s c = Some cp -> fork trapret forkret_addr c s = Ok r s' ->
  reach (frel cp) (FSlot, s) (FDone r, s').
Proof.
  intros Hc Hk. unfold fork in Hk. erewrite bind_ok in Hk by reflexivity. rewrite Hc in Hk.
  apply bind_inv in Hk as (o & s2 & E & Hk). unfold allocproc in E.
  apply bind_inv in E as (o1 & s1 & E1 & E). pose proof (frel_step cp FSlot alloc_slot _ s _ _ eq_refl E1) as R1.
  destruct o1 as [np|]; [| injection E as <- <-; by injection Hk as <- <-].
  apply bind_inv in E as (b & s2' & E2 & E). injection E as <- <-.
  pose proof (reach_trans _ _ _ _ R1 (frel_step cp (FStack np) _ _ s1 _ _ eq_refl E2)) as R2. clear R1.
  destruct b; [| by injection Hk as <- <-].
  apply bind_inv in Hk as (b & s3 & E3 & Hk).
  pose proof (reach_trans _ _ _ _ R2 (frel_step cp (FMem np) _ _ s2' _ _ eq_refl E3)) as R3. clear R2.
  destruct b; simpl in Hk; apply bind_inv in Hk as (u & s4 & E4 & Hk).
  2: { injection Hk as <- <-.
       exact (reach_trans _ _ _ _ R3 (frel_step cp (FUndo np) _ _ s3 _ _ eq_refl E4)). }
  pose proof (reach_trans _ _ _ _ R3 (frel_step cp (FFields np) _ _ s3 _ _ eq_refl E4)) as R4. clear R3.
  apply bind_inv in Hk as (u' & s5 & E5 & Hk).
  pose proof (reach_trans _ _ _ _ R4 (dup_files_steps cp np NOFILE 0 s4 _ _ eq_refl E5)) as R5. clear R4.
  apply bind_inv in Hk as (u6 & s6 & E6 & Hk).
  pose proof (reach_trans _ _ _ _ R5 (frel_step cp (FDir np) _ _ s5 _ _ eq_refl E6)) as R6. clear R5.
  apply bind_inv in Hk as (pd & s7 & E7 & Hk).
  pose proof (reach_trans _ _ _ _ R6 (frel_step cp (FName np) _ _ s6 _ _ eq_refl E7)) as R7. clear R6.
  apply bind_inv in Hk as (u8 & s8 & E8 & Hk). injection Hk as <- <-.
  exact (reach_trans _ _ _ _ R7 (frel_step cp (FRun np pd) _ (fun _ => FDone pd) s7 _ _ eq_refl E8)).
Qed.

(** ** Whose slots are whose *)

(** [F] gives the processes in the middle of [fork], by slot.  Such a process runs or could run, and
    it alone works on the slot it has taken; every slot being set up belongs to such a process. *)
Record owned (s : ptable W) (F : gmap nat fpc) : Prop := {
  ow_fork : forall cp pc, F !! cp = Some pc -> exists np, fslot pc = Some np /\
    (cp < NPROC)%nat /\ (state (procs s cp) = RUNNING \/ state (procs s cp) = RUNNABLE) /\
    (np < NPROC)%nat /\ state (procs s np) = EMBRYO /\ parent (procs s np) = fparent cp pc;
  ow_one : forall cp cp' pc pc', F !! cp = Some pc -> F !! cp' = Some pc' -> fslot pc = fslot pc' -> cp = cp';
  ow_all : forall np, (np < NPROC)%nat -> state (procs s np) = EMBRYO ->
    exists cp pc, F !! cp = Some pc /\ fslot pc = Some np
}.

(** Anything that leaves these slots alone keeps [owned]. *)
Lemma owned_frame s s' F :
  owned s F ->
  (forall k, (k < NPROC)%nat -> state (procs s' k) = EMBRYO <-> state (procs s k) = EMBRYO) ->
  (forall k, (k < NPROC)%nat -> state (procs s k) = EMBRYO -> parent (procs s' k) = parent (procs s k)) ->
  (forall k pc, F !! k = Some pc -> state (procs s k) = RUNNING \/ state (procs s k) = RUNNABLE ->
     state (procs s' k) = RUNNING \/ state (procs s' k) = RUNNABLE) ->
  owned s' F.
Proof.
  intros [O1 O2 O3] He Hp Hr. split; [| done |].
  - intros cp pc Hf. destruct (O1 cp pc Hf) as (np & H1 & H2 & H3 & H4 & H5 & H6). exists np.
    rewrite (He np H4), (Hp np H4 H5). split_and!; eauto.
  - intros np Hn. rewrite (He np Hn). auto.
Qed.

Lemma owned_slot s s' F i q :
  owned s F -> procs s' = fupd (procs s) i q ->
  (state q = EMBRYO <-> state (procs s i) = EMBRYO) -> parent q = parent (procs s i) \/ state q <> EMBRYO ->
  (forall pc, F !! i = Some pc -> state q = RUNNING \/ state q = RUNNABLE) ->
  owned s' F.
Proof.
  intros HO E He Hp Hr. apply (owned_frame s); [done | ..]; rewrite E; intros k; unfold fupd;
    case_decide; subst; try done; eauto. intros _ Hk. destruct Hp as [Hp | Hp]; [done |]. by apply He in Hk.
Qed.

Lemma owned_woken s s' F :
  owned s F -> (forall i, parent (procs s' i) = parent (procs s i)) ->
  (forall i, exists ch, woken ch (procs s i) (procs s' i)) -> owned s' F.
Proof.
  intros HO Hp Hw. apply (owned_frame s); [done | | by intros |]; intros k;
    destruct (Hw k) as (ch & _ & _ & _ & [E | (E & _ & E')]).
  - by rewrite E.
  - by rewrite E, E'.
  - by rewrite E.
  - intros. rewrite E'. by right.
Qed.

(** A slot being set up has no parent, or one that is in the middle of [fork]. *)
Lemma owned_parent s F k j :
  owned s F -> (k < NPROC)%nat -> state (procs s k) = EMBRYO -> parent (procs s k) = Some j -> F !! j <> None.
Proof.
  intros HO Hk Hs Hp. destruct (ow_all s F HO k Hk Hs) as (cp & pc & H1 & H2).
  destruct (ow_fork s F HO cp pc H1) as (np & H3 & _ & _ & _ & _ & H4). assert (np = k) as -> by congruence.
  rewrite Hp in H4. destruct pc; simpl in H4; congruence.
Qed.

(** The end of [exit], of a process that is not in the middle of [fork]. *)
Lemma exit_owned s c me F s' :
  pinv s -> owned s F -> cur s c = Some me -> F !! me = None -> exit_zombie c me s = Ok tt s' -> owned s' F.
Proof.
  intros Hp HO Hc Hf Hz. destruct (cur_slot s c me Hp Hc) as (Hme & Hrun & _). destruct (pi_init s Hp) as (i0 & J1 & _).
  destruct (exit_zombie_inv c me i0 s s' Hc J1 Hz) as [[_ X3 [X4 _] X6 _] _].
  assert (Hoth : forall k, k <> me -> state (procs s' k) = state (procs s k) \/
    (state (procs s k) = SLEEPING /\ state (procs s' k) = RUNNABLE)).
  { intros k Hk. destruct (X6 k Hk) as (_ & _ & _ & Hw). simpl in Hw.
    pose proof (wake_woken (match parent (procs s me) with Some j => ChProc j | None => ChNone end) (procs s k))
      as (_ & _ & _ & Hv).
    destruct Hw as [Ew | (Ew & _ & Ew')], Hv as [Ev | (Ev & _ & Ev')]; rewrite ?Ev', ?Ev in *;
      first [left; congruence | right; split; congruence]. }
  apply (owned_frame s); [done | ..].
  - intros k _. destruct (decide (k = me)) as [-> | Hk]; [by rewrite X4, Hrun |].
    destruct (Hoth k Hk) as [-> | [-> ->]]; done.
  - intros k Hk Hs. assert (k <> me) by (intros ->; congruence). rewrite X3. simpl. rewrite wake_parent.
    rewrite decide_False; [done |]. intros [_ Hpm].
    by apply (owned_parent s F k me) in Hpm.
  - intros k pc Hk Hs. destruct (decide (k = me)) as [-> | Hkm]; [congruence |].
    destruct (Hoth k Hkm) as [-> | [_ ->]]; auto.
Qed.

(** ** The steps keep the invariants *)

(** The process stays in the middle of [fork], or is done with it. *)
Definition advance (cp : nat) (pc : fpc) (F : gmap nat fpc) : gmap nat fpc :=
  match pc with FDone _ => delete cp F | _ => <[cp := pc]> F end.

Lemma owned_cp s F cp pc np :
  owned s F -> F !! cp = Some pc -> fslot pc = Some np ->
  (cp < NPROC)%nat /\ alive (procs s cp) /\ (np < NPROC)%nat /\ state (procs s np) = EMBRYO /\
  parent (procs s np) = fparent cp pc /\ cp <> np.
Proof.
  intros HO Hf Hn. destruct (ow_fork s F HO cp pc Hf) as (np' & H1 & H2 & H3 & H4 & H5 & H6).
  assert (np' = np) as -> by congruence. unfold alive.
  split_and!; try done; destruct H3 as [H3 | H3]; first [by rewrite H3 | intros ->; congruence].
Qed.

(** Slot [np] is set to [q], and what it was is not another fork's. *)
Lemma owned_others s s' F cp pc np q cp' pc' :
  owned s F -> F !! cp = Some pc -> fslot pc = Some np -> slot np q s s' ->
  cp' <> cp -> F !! cp' = Some pc' -> exists np', fslot pc' = Some np' /\ np' <> np /\
    (cp' < NPROC)%nat /\ (state (procs s' cp') = RUNNING \/ state (procs s' cp') = RUNNABLE) /\
    (np' < NPROC)%nat /\ state (procs s' np') = EMBRYO /\ parent (procs s' np') = fparent cp' pc'.
Proof.
  intros HO Hf Hn HS Hne Hf'. destruct (owned_cp s F cp pc np HO Hf Hn) as (_ & _ & _ & He & _).
  destruct (ow_fork s F HO cp' pc' Hf') as (np' & H1 & H2 & H3 & H4 & H5 & H6). exists np'.
  assert (np' <> np) by (intros ->; apply Hne; eapply (ow_one s F HO); eauto; congruence).
  assert (cp' <> np) by (intros ->; destruct H3; congruence).
  rewrite (slot_other _ _ _ _ cp' HS), (slot_other _ _ _ _ np' HS) by done. done.
Qed.

Lemma mid_step s s' F cp pc pc' np q :
  pinv s -> owned s F -> F !! cp = Some pc -> fslot pc = Some np -> slot np q s s' -> nextpid s' = nextpid s ->
  pid q = pid (procs s np) -> state q = EMBRYO -> fslot pc' = Some np -> parent q = fparent cp pc' ->
  fparent cp pc = None \/ fparent cp pc' = fparent cp pc -> pinv s' /\ owned s' (<[cp := pc']> F).
Proof.
  intros Hp HO Hf Hn HS N Hpid Hst Hn' Hpar Hmon.
  destruct (owned_cp s F cp pc np HO Hf Hn) as (H1 & H2 & H3 & H4 & H5 & H6). split.
  - eapply (pinv_embryo s s' np q); auto; rewrite ?H5, ?Hpar; [by destruct Hmon; auto |].
    destruct (fparent cp pc') as [cp'|] eqn:E; [right | left; by rewrite Hst].
    split; [| by rewrite Hst]. assert (cp' = cp) as -> by (destruct pc'; simpl in E; congruence). eauto.
  - split.
    + intros cp' pc2. destruct (decide (cp' = cp)) as [-> | Hne].
      * rewrite lookup_insert_eq. intros [= <-]. exists np. rewrite (slot_same _ _ _ _ HS), (slot_other _ _ _ _ cp HS) by done.
        split_and!; try done. destruct (ow_fork s F HO cp pc Hf) as (? & _ & _ & ? & _). done.
      * rewrite lookup_insert_ne by done. intros Hf'.
        destruct (owned_others s s' F cp pc np q cp' pc2 HO Hf Hn HS Hne Hf') as (np' & ? & _ & ?). by exists np'.
    + assert (Hd : forall k pk, k <> cp -> F !! k = Some pk -> fslot pk <> Some np).
      { intros k pk Hk Hfk Hs. apply Hk. eapply (ow_one s F HO); eauto; congruence. }
      intros k k' pk pk'. destruct (decide (k = cp)) as [-> | Hk], (decide (k' = cp)) as [-> | Hk']; try done;
        rewrite ?lookup_insert_eq, ?lookup_insert_ne by done.
      * intros [= <-] Hf' Hs. rewrite Hn' in Hs. symmetry in Hs. by apply (Hd k' pk') in Hs.
      * intros Hf' [= <-] Hs. rewrite Hn' in Hs. by apply (Hd k pk) in Hs.
      * apply (ow_one s F HO).
    + intros k Hk. destruct (decide (k = np)) as [-> | Hkn].
      * intros _. exists cp, pc'. by rewrite lookup_insert_eq.
      * rewrite (slot_other _ _ _ _ k HS) by done. intros Hs.
        destruct (ow_all s F HO k Hk Hs) as (k' & pk & F1 & F2). exists k', pk.
        rewrite lookup_insert_ne; [done |]. intros ->. congruence.
Qed.

Lemma mid_end s s' F cp pc np q :
  pinv s -> owned s F -> F !! cp = Some pc -> fslot pc = Some np -> slot np q s s' -> nextpid s' = nextpid s ->
  pid q = pid (procs s np) -> parent q = fparent cp pc ->
  (state q = UNUSED /\ fparent cp pc = None) \/ (state q = RUNNABLE /\ fparent cp pc = Some cp) ->
  pinv s' /\ owned s' (delete cp F).
Proof.
  intros Hp HO Hf Hn HS N Hpid Hpar Hst.
  destruct (owned_cp s F cp pc np HO Hf Hn) as (H1 & H2 & H3 & H4 & H5 & H6). split.
  - eapply (pinv_embryo s s' np q); auto; rewrite ?H5, ?Hpar; [by left | |].
    + destruct Hst as [[E ->] | [E ->]]; rewrite E; [by left | right; eauto].
    + destruct Hst as [[E _] | [E _]]; auto.
  - split.
    + intros cp' pc2 Hf'. apply lookup_delete_Some in Hf' as [Hne Hf'].
      destruct (owned_others s s' F cp pc np q cp' pc2 HO Hf Hn HS ltac:(done) Hf') as (np' & ? & _ & ?). by exists np'.
    + intros k k' pk pk' (_ & F1)%lookup_delete_Some (_ & F2)%lookup_delete_Some. by apply (ow_one s F HO).
    + intros k Hk. destruct (decide (k = np)) as [-> | Hkn].
      * rewrite (slot_same _ _ _ _ HS). destruct Hst as [[E _] | [E _]]; by rewrite E.
      * rewrite (slot_other _ _ _ _ k HS) by done. intros Hs.
        destruct (ow_all s F HO k Hk Hs) as (k' & pk & F1 & F2). exists k', pk.
        rewrite lookup_delete_ne; [done |]. intros ->. congruence.
Qed.

(** The first step, under the lock: the slot is free, so nobody else's. *)
Lemma first_step c s s' F cp np :
  pinv s -> owned s F -> cur s c = Some cp -> F !! cp = None -> nextpid s + 1 < 2 ^ 31 ->
  alloc_slot s = Ok (Some np) s' -> pinv s' /\ owned s' (<[cp := FStack np]> F) /\ cur s' = cur s.
Proof.
  intros Hp HO Hc Hf Hb Ha. apply alloc_slot_inv in Ha as (H1 & H2 & H3 & HS).
  destruct (cur_slot s c cp Hp Hc) as (Hcp & Hrun & _). assert (cp <> np) by (intros ->; congruence).
  split_and!; [by eapply (pinv_take s s' np) | | apply HS].
  assert (Hot : forall k pk, F !! k = Some pk -> k <> cp /\ k <> np /\ fslot pk <> Some np).
  { intros k pk Hk. destruct (ow_fork s F HO k pk Hk) as (np' & G1 & _ & G3 & _ & G5 & _).
    split_and!; [intros -> | intros -> | intros E]; try congruence. destruct G3; congruence. }
  split.
  - intros cp' pc'. destruct (decide (cp' = cp)) as [-> | Hne].
    + rewrite lookup_insert_eq. intros [= <-]. exists np. simpl.
      rewrite (slot_same _ _ _ _ HS), (slot_other _ _ _ _ cp HS) by done. simpl.
      split_and!; auto. by apply (pi_unused s Hp).
    + rewrite lookup_insert_ne by done. intros Hf'. destruct (Hot cp' pc' Hf') as (_ & N1 & N2).
      destruct (ow_fork s F HO cp' pc' Hf') as (np' & G). exists np'.
      assert (np' <> np) by (intros ->; by destruct G).
      rewrite (slot_other _ _ _ _ cp' HS), (slot_other _ _ _ _ np' HS) by done. done.
  - intros k k' pk pk'. destruct (decide (k = cp)) as [-> | Hk], (decide (k' = cp)) as [-> | Hk']; try done;
      rewrite ?lookup_insert_eq, ?lookup_insert_ne by done.
    + intros [= <-] Hf' Hs. simpl in Hs. by destruct (Hot k' pk' Hf') as (_ & _ & []).
    + intros Hf' [= <-] Hs. by destruct (Hot k pk Hf') as (_ & _ & []).
    + apply (ow_one s F HO).
  - intros k Hk. destruct (decide (k = np)) as [-> | Hkn].
    + intros _. exists cp, (FStack np). by rewrite lookup_insert_eq.
    + rewrite (slot_other _ _ _ _ k HS) by done. intros Hs.
      destruct (ow_all s F HO k Hk Hs) as (k' & pk & F1 & F2). exists k', pk.
      rewrite lookup_insert_ne; [done |]. intros <-. congruence.
Qed.

Lemma and_more (A B C : Prop) : A /\ B -> C -> A /\ B /\ C.
Proof. tauto. Qed.

(** Any later step. *)
Lemma later_step s s' F cp pc pc' :
  pinv s -> owned s F -> F !! cp = Some pc -> fork_step cp pc s = Ok pc' s' ->
  pinv s' /\ owned s' (advance cp pc' F) /\ cur s' = cur s.
Proof.
  intros Hp HO Hf Hs. destruct (ow_fork s F HO cp pc Hf) as (np & Hn & _).
  destruct (owned_cp s F cp pc np HO Hf Hn) as (H1 & H2 & H3 & H4 & H5 & H6).
  pose proof (slot_refl np s) as HS.
  destruct pc; simpl in Hn; try done; injection Hn as ->; simpl in Hs.
  - apply bind_inv in Hs as (b & s1 & E & Hs). injection Hs as <- <-.
    apply (alloc_stack_inv trapret forkret_addr np _ _ _ _ _ HS) in E as (N & E). destruct b; simpl.
    + destruct E as (ks & _ & E). apply and_more; [| apply E]. by eapply (mid_step s s1 F cp (FStack np)); eauto.
    + apply and_more; [| apply E]. eapply (mid_end s s1 F cp (FStack np)); eauto.
  - apply bind_inv in Hs as (b & s1 & E & Hs). injection Hs as <- <-.
    apply (fork_mem_inv cp np _ _ _ _ _ HS) in E as (N & pg & E & ->). apply and_more; [| apply E].
    destruct (pg =? 0); simpl; by eapply (mid_step s s1 F cp (FMem np)); eauto.
  - apply bind_inv in Hs as (b & s1 & E & Hs). injection Hs as <- <-.
    apply (fork_undo_inv np _ _ _ _ _ HS) in E as (N & E). apply and_more; [| apply E].
    eapply (mid_end s s1 F cp (FUndo np)); eauto.
  - apply bind_inv in Hs as (b & s1 & E & Hs). injection Hs as <- <-.
    apply (fork_fields_inv cp np _ _ _ _ _ H6 HS) in E as (N & E). apply and_more; [| apply E].
    eapply (mid_step s s1 F cp (FFields np)); eauto.
  - destruct (_ <? _)%nat.
    + apply bind_inv in Hs as (b & s1 & E & Hs). injection Hs as <- <-.
      apply (dup_file_inv i cp np _ _ _ _ _ H6 HS) in E as (N & E). cbv zeta in E. destruct (_ =? 0).
      * subst s1. apply and_more; [| done]. by eapply (mid_step s s F cp (FFile np i)); eauto.
      * destruct E as (g & ? & ? & _ & E). apply and_more; [| apply E]. by eapply (mid_step s s1 F cp (FFile np i)); eauto.
    + injection Hs as <- <-. apply and_more; [| done]. by eapply (mid_step s s F cp (FFile np i)); eauto.
  - apply bind_inv in Hs as (b & s1 & E & Hs). injection Hs as <- <-.
    apply (fork_dir_inv cp np _ _ _ _ _ H6 HS) in E as (N & d & ? & ? & _ & E). apply and_more; [| apply E].
    by eapply (mid_step s s1 F cp (FDir np)); eauto.
  - apply bind_inv in Hs as (b & s1 & E & Hs). injection Hs as <- <-.
    apply (fork_name_inv cp np _ _ _ _ _ H6 HS) in E as (N & _ & E). apply and_more; [| apply E].
    by eapply (mid_step s s1 F cp (FName np)); eauto.
  - apply bind_inv in Hs as ([] & s1 & E & Hs). injection Hs as <- <-.
    apply slot_on_proc in E as (E & N & _). apply and_more; [| apply E].
    eapply (mid_end s s1 F cp (FRun np r)); eauto.
Qed.

Lemma fork_step_keeps c cp pc s F pc' s' :
  pinv s -> owned s F -> cur s c = Some cp -> pc = default FSlot (F !! cp) ->
  (pc = FSlot -> nextpid s + 1 < 2 ^ 31) -> fork_step cp pc s = Ok pc' s' ->
  pinv s' /\ owned s' (advance cp pc' F) /\ cur s' = cur s.
Proof.
  intros Hp HO Hc Hpc Hb Hs. destruct (F !! cp) as [pc0|] eqn:Hf; simpl in Hpc; subst pc;
    [by eapply later_step |].
  simpl in Hs. apply bind_inv in Hs as (o & s1 & E & Hs). injection Hs as <- <-. destruct o as [np|].
  - eapply first_step; eauto.
  - apply alloc_slot_inv in E. subst s1. simpl. by rewrite delete_id.
Qed.
End steps.
