(* ===== verification/ProcSys.v ===== *)
(** * Processes on many CPUs

    The theorems about proc.c: the process table under any interleaving of system calls, interrupts
    and scheduler activations on any number of CPUs, and the locks a CPU may hold when it calls
    [sched]. *)
From S2P Require Import Prelude Lock Mmu Proc ForkSteps.
#[local] Open Scope Z_scope.

Section system.
Context {W : Type} `{KernelLaws W}.
Context (trapret forkret_addr : Z).
Implicit Types (s : ptable W) (F : gmap nat fpc).

(** The table, and where the processes in the middle of [fork] stand. *)
Record psys := PS { tab : ptable W; forks : gmap nat fpc }.

(** The process on CPU [c] is not in the middle of [fork]. *)
Definition not_forking (c : nat) (s : ptable W) (F : gmap nat fpc) : Prop :=
  forall i, cur s c = Some i -> F !! i = None.

(** One atomic activation on some CPU.  A call of [fork] is many: between two of its steps other CPUs
    run, and a timer interrupt may take the CPU from it ([ps_yield], [ps_dispatch]).  Other parts of
    the kernel sleep on channels of their own (never on a process, which only [wait] does), wake any
    channel, and change their own state.  What a process does to its own files, memory and registers
    in a system call is [ps_own]; [exit] is such steps, asleep or not in between, and its critical
    section. *)
Inductive pstep : psys -> psys -> Prop :=
| ps_dispatch c i s s1 s' F :
    cur s c = None -> scheduler c s = Ok (Some i) s1 -> resume i s1 = Ok tt s' -> pstep (PS s F) (PS s' F)
| ps_idle c s s' F : cur s c = None -> scheduler c s = Ok None s' -> pstep (PS s F) (PS s' F)
| ps_yield c s s' F : yield c s = Ok tt s' -> pstep (PS s F) (PS s' F)
| ps_sleep c ch s s' F :
    not_forking c s F -> (forall i, ch <> ChProc i) -> sleep c ch s = Ok tt s' -> pstep (PS s F) (PS s' F)
| ps_wakeup ch s s' F : wakeup ch s = Ok tt s' -> pstep (PS s F) (PS s' F)
| ps_fork c cp pc pc' s s' F :
    cur s c = Some cp -> pc = default FSlot (F !! cp) -> (pc = FSlot -> nextpid s + 1 < 2 ^ 31) ->
    fork_step trapret forkret_addr cp pc s = Ok pc' s' -> pstep (PS s F) (PS s' (advance cp pc' F))
| ps_own c i q w s F :
    cur s c = Some i -> not_forking c s F -> same_core (procs s i) q ->
    pstep (PS s F) (PS (PT (fupd (procs s) i q) (initproc s) (nextpid s) (cur s) (pos s) w) F)
| ps_exit c me s s' F :
    cur s c = Some me -> not_forking c s F -> initproc s <> Some me -> exit_zombie c me s = Ok tt s' ->
    pstep (PS s F) (PS s' F)
| ps_wait c r s s' F : not_forking c s F -> wait c s = Ok r s' -> pstep (PS s F) (PS s' F)
| ps_wait_sleep c ch s s' F : not_forking c s F -> wait c s = Slept ch s' -> pstep (PS s F) (PS s' F)
| ps_kill n r s s' F : kill n s = Ok r s' -> pstep (PS s F) (PS s' F)
| ps_growproc c n r s s' F : not_forking c s F -> growproc c n s = Ok r s' -> pstep (PS s F) (PS s' F)
| ps_world w (s : ptable W) F : pstep (PS s F) (PS (PT (procs s) (initproc s) (nextpid s) (cur s) (pos s) w) F).

Definition sinv (x : psys) : Prop := pinv (tab x) /\ owned (tab x) (forks x).

(** What the activations that are not [fork] do to the slots of forks under way: nothing. *)
Lemma leave_owned s s' F c i q :
  owned s F -> pinv s -> cur s c = Some i -> procs s' = fupd (procs s) i q ->
  state q = RUNNABLE \/ (state q = SLEEPING /\ F !! i = None) -> owned s' F.
Proof.
  intros HO Hp Hc E Hq. destruct (cur_slot s c i Hp Hc) as (_ & Hr & _).
  apply (owned_slot s s' F i q); try done.
  - rewrite Hr. destruct Hq as [-> | [-> _]]; done.
  - right. destruct Hq as [-> | [-> _]]; done.
  - intros pc Hpc. destruct Hq as [-> | [_ Hq]]; [by right | congruence].
Qed.

Lemma dispatch_owned s c i s1 s' F :
  owned s F -> scheduler c s = Ok (Some i) s1 -> resume i s1 = Ok tt s' -> owned s' F.
Proof.
  intros HO (Hi & Hr & _ & E1 & _)%scheduler_inv Hres.
  apply slot_on_proc in Hres as ((F1 & _) & _). rewrite E1, fupd_fupd, fupd_same in F1.
  eapply (owned_slot s s' F i); [done | exact F1 | by simpl; rewrite Hr | by left | by left].
Qed.

Lemma yield_owned s c s' F : owned s F -> pinv s -> yield c s = Ok tt s' -> owned s' F.
Proof.
  intros HO Hp Hy. destruct (cur s c) as [i|] eqn:Hc.
  - destruct (yield_inv c i s s' Hc Hy) as (E & _). eapply leave_owned; [done | done | done | exact E | by left].
  - unfold yield in Hy. erewrite bind_ok in Hy by reflexivity. by rewrite Hc in Hy.
Qed.

Lemma sleep_owned s c ch s' F : owned s F -> pinv s -> not_forking c s F -> sleep c ch s = Ok tt s' -> owned s' F.
Proof.
  intros HO Hp Hn Hy. destruct (cur s c) as [i|] eqn:Hc.
  - destruct (sleep_inv c i ch s s' Hc Hy) as (E & _).
    eapply leave_owned; [done | done | done | exact E | right; split; [done | by apply Hn]].
  - unfold sleep in Hy. erewrite bind_ok in Hy by reflexivity. by rewrite Hc in Hy.
Qed.

Lemma kill_owned s n r s' F : owned s F -> kill n s = Ok r s' -> owned s' F.
Proof.
  intros HO [-> | (i & q & Hi & (E & _) & _ & H1 & _ & H2 & H3)]%kill_inv; [done |].
  apply (owned_slot s s' F i q); try done.
  - destruct H2 as [-> | [-> ->]]; done.
  - by left.
  - intros pc Hf. destruct (ow_fork s F HO i pc Hf) as (_ & _ & _ & Hs & _).
    destruct H2 as [-> | [_ ->]]; [done | by right].
Qed.

Lemma growproc_owned s c n r s' F : owned s F -> pinv s -> growproc c n s = Ok r s' -> owned s' F.
Proof.
  intros HO Hp Hg. destruct (cur s c) as [i|] eqn:Hc.
  - destruct (growproc_inv c i n s r s' Hc Hg) as (q & (E & _) & (F1 & _ & F3 & _) & _).
    destruct (cur_slot s c i Hp Hc) as (_ & Hr & _).
    apply (owned_slot s s' F i q); try done; [by rewrite F1 | by left |]. intros _ _. rewrite F1, Hr. by left.
  - unfold growproc in Hg. erewrite bind_ok in Hg by reflexivity. by rewrite Hc in Hg.
Qed.

Lemma wait_owned s c r s' F : owned s F -> wait c s = Ok r s' -> owned s' F.
Proof.
  intros HO Hw. destruct (cur s c) as [me|] eqn:Hc.
  - apply (wait_inv c me) in Hw; [| done].
    destruct Hw as [(k & q & _ & _ & Hz & _ & (E & _) & _ & Hq & _) | (_ & -> & _)]; [| done].
    apply (owned_slot s s' F k q); try done; rewrite ?Hz, ?Hq; [done | by right |].
    intros pc Hf. destruct (ow_fork s F HO k pc Hf) as (_ & _ & _ & Hs & _). destruct Hs; congruence.
  - unfold wait in Hw. erewrite bind_ok in Hw by reflexivity. by rewrite Hc in Hw.
Qed.

Lemma wait_sleep_owned s c ch s' F :
  owned s F -> pinv s -> not_forking c s F -> wait c s = Slept ch s' -> owned s' F.
Proof.
  intros HO Hp Hn Hw. destruct (cur s c) as [me|] eqn:Hc.
  - destruct (wait_sleep_inv c me s ch s' Hc Hw) as (_ & _ & Hs & _). by eapply sleep_owned.
  - unfold wait in Hw. erewrite bind_ok in Hw by reflexivity. by rewrite Hc in Hw.
Qed.

Lemma sinv_step x x' : sinv x -> pstep x x' -> sinv x'.
Proof.
  intros [Hp HO] Hs. unfold sinv. destruct Hs; cbn [tab forks] in *.
  - split; [by eapply dispatch_pinv | by eapply dispatch_owned].
  - split; [by eapply scheduler_idle_pinv |].
    match goal with E : scheduler _ _ = _ |- _ => apply scheduler_inv in E as (_ & E & _) end.
    apply (owned_frame s); [done | ..]; match goal with E : procs _ = procs _ |- _ => rewrite E end; done.
  - split; [by eapply yield_pinv | by eapply yield_owned].
  - split; [by eapply sleep_pinv | by eapply sleep_owned].
  - split; [by eapply wakeup_pinv |].
    match goal with E : wakeup _ _ = _ |- _ => injection E as <- end.
    apply (owned_woken s); [done | |]; intros i; [apply wake_parent | exists ch; apply wake_woken].
  - destruct (fork_step_keeps trapret forkret_addr c cp pc s F pc' s') as (? & ? & _); done.
  - match goal with Hc : cur s c = Some i |- _ => destruct (cur_slot s c i Hp Hc) as (Hi & Hr & _) end.
    split; [by eapply (same_core_pinv s _ i q) |].
    match goal with Hq : same_core _ _ |- _ => destruct Hq as (Q1 & _ & Q3 & _) end.
    apply (owned_slot s _ F i q); try done; [by rewrite Q1 | by left | intros _ _; rewrite Q1, Hr; by left].
  - split; [by eapply exit_zombie_pinv | eapply exit_owned; eauto].
  - split; [by eapply wait_pinv | by eapply wait_owned].
  - split; [by eapply wait_sleep_pinv | by eapply wait_sleep_owned].
  - split; [by eapply kill_pinv | by eapply kill_owned].
  - split; [by eapply growproc_pinv | by eapply growproc_owned].
  - split; [| by apply (owned_frame s)].
    apply (pinv_woken s); try done. intros i. exists ChNone. apply woken_refl.
Qed.

(** A whole call of [exit] that does not sleep. *)
Lemma exit_reach c s s' F :
  not_forking c s F -> exit c s = Ok tt s' -> reach pstep (PS s F) (PS s' F).
Proof.
  intros Hn He. destruct (cur s c) as [me|] eqn:Hc.
  - destruct (exit_inv c me s s' Hc He) as (Hni & s1 & q & (E1 & E2 & E3 & E4) & Hq & N & Hz & _).
    assert (Es1 : s1 = PT (fupd (procs s) me q) (initproc s) (nextpid s) (cur s) (pos s) (world s1)).
    { destruct s1. simpl in *. by subst. }
    eapply reach_step; [eapply reach_step; [apply reach_refl | by apply (ps_own c me q (world s1))] |].
    rewrite <- Es1. apply (ps_exit c me); [congruence | | congruence | done].
    intros i. rewrite E3. apply Hn.
  - unfold exit in He. erewrite bind_ok in He by reflexivity. rewrite Hc in He.
    by erewrite bind_ok in He by reflexivity.
Qed.

(** A whole call of [fork] that nothing interrupts. *)
Lemma fork_reach c cp s r s' F :
  cur s c = Some cp -> pinv s -> owned s F -> F !! cp = None -> nextpid s + 1 < 2 ^ 31 ->
  fork trapret forkret_addr c s = Ok r s' -> reach pstep (PS s F) (PS s' F).
Proof.
  intros Hc Hp HO Hf Hb Hk. apply (fork_is_steps _ _ c cp) in Hk; [| done].
  assert (Hgen : forall x y, reach (frel trapret forkret_addr cp) x y -> x = (FSlot, s) ->
    (y.1 = FSlot /\ y.2 = s) \/
    (reach pstep (PS s F) (PS y.2 (advance cp y.1 F)) /\ cur y.2 c = Some cp /\ y.1 <> FSlot)).
  { intros x y HR Hx; revert Hx; induction HR as [| y z Hr IH Hs]; intros ->; [by left | right].
    destruct y as [pc t], z as [pc' t']. unfold frel in Hs. cbn [fst snd] in *.
    assert (Hnext : forall G, sinv (PS t G) -> pc = default FSlot (G !! cp) -> (pc = FSlot -> t = s) -> cur t c = Some cp ->
      reach pstep (PS s F) (PS t G) -> reach pstep (PS s F) (PS t' (advance cp pc' G)) /\ cur t' c = Some cp).
    { intros G [G1 G2] Hpc Hts Hct Hrt. split.
      - eapply reach_step; [exact Hrt |]. eapply (ps_fork c cp pc); eauto. intros E. by rewrite (Hts E).
      - eapply fork_step_keeps in Hs as (_ & _ & E); eauto; [by rewrite E |]. intros E. by rewrite (Hts E). }
    assert (Hne : pc' <> FSlot).
    { intros ->. destruct pc; simpl in Hs; repeat (apply bind_inv in Hs as (? & ? & _ & Hs)); try destruct (_ <? _)%nat;
        repeat (apply bind_inv in Hs as (? & ? & _ & Hs)); try (injection Hs as E _; revert E; by repeat case_match). }
    destruct (IH eq_refl) as [[-> ->] | (Hrt & Hct & Hnp)].
    - destruct (Hnext F) as [R1 R2]; [done | by rewrite Hf | done | done | apply reach_refl |].
      by split_and!.
    - assert (Hsi : sinv (PS t (advance cp pc F))).
      { eapply (reach_invariant pstep sinv); [| intros ? ?; apply sinv_step | exact Hrt]; done. }
      destruct pc as [| | | | | | | | |r0]; try done.
      9: { injection Hs as <- <-. done. }
      all: edestruct Hnext as [R1 R2];
        [exact Hsi | by simpl; rewrite lookup_insert_eq | done | done | done |]; split_and!; [| done | done];
        destruct pc'; simpl in *; try done; by rewrite ?insert_insert_eq, ?delete_insert_eq in R1. }
  destruct (Hgen _ _ Hk eq_refl) as [[E _] | (H1 & _)]; [done |]. simpl in H1. by rewrite delete_id in H1.
Qed.

(** The table as it is before the first process. *)
Definition boot_table (s : ptable W) : Prop :=
  (forall i, procs s i = proc_zero) /\ nextpid s = 1 /\ (forall c, cur s c = None).

Lemma userinit_inv s s' :
  boot_table s -> userinit trapret forkret_addr s = Ok tt s' ->
  exists p q, (p < NPROC)%nat /\ initproc s' = Some p /\ procs s' p = q /\ state q = RUNNABLE /\
    parent q = None /\ pid q = 1 /\ (forall i, i <> p -> procs s' i = proc_zero) /\
    (forall c, cur s' c = None) /\ nextpid s' = 2.
Proof.
  intros (Hz & Hn & Hc) Hu. unfold userinit in Hu. apply bind_inv in Hu as (o & s1 & E & Hu).
  apply allocproc_inv in E. destruct o as [p|]; [| done].
  destruct E as (Hp & _ & N1 & ks & _ & HS1). apply bind_inv in Hu as ([] & s2 & E & Hu). injection E as <-.
  match type of Hu with context [PT ?a ?b ?c ?d ?e ?f] => set (s2 := PT a b c d e f) in * end.
  destruct HS1 as (E1 & _ & E3 & _). assert (Hcur : cur s2 = cur s) by (simpl; congruence).
  assert (Hpr : procs s2 = fupd (procs s) p (embryo trapret forkret_addr (procs s p) (nextpid s) ks)) by exact E1.
  assert (N2 : nextpid s2 = 2) by (simpl; rewrite N1, Hn; done).
  pose proof (slot_refl p s2) as HS.
  apply (slot_step_w p _ _ _ _ _ _ _ HS) in Hu as (pg & s3 & ? & _ & HS3 & N3 & _ & Hu).
  apply (slot_step_proc p _ _ _ _ _ _ _ HS3) in Hu as (s4 & HS4 & N4 & _ & Hu).
  destruct (pg =? 0); [done |].
  apply (slot_step_w p _ _ _ _ _ _ _ HS4) in Hu as (? & s5 & ? & _ & HS5 & N5 & _ & Hu).
  apply (slot_step_proc p _ _ _ _ _ _ _ HS5) in Hu as (s6 & HS6 & N6 & _ & Hu).
  apply (slot_step_proc p _ _ _ _ _ _ _ HS6) in Hu as (s7 & HS7 & N7 & _ & Hu).
  apply (slot_step_proc p _ _ _ _ _ _ _ HS7) in Hu as (s8 & HS8 & N8 & _ & Hu).
  apply (slot_step_w p _ _ _ _ _ _ _ HS8) in Hu as (? & s9 & ? & _ & HS9 & N9 & _ & Hu).
  apply (slot_step_proc p _ _ _ _ _ _ _ HS9) in Hu as (s10 & HS10 & N10 & _ & Hu).
  apply slot_on_proc in Hu as (HS11 & N11 & _). rewrite (slot_same p _ _ _ HS10) in HS11.
  pose proof (slot_trans p _ _ _ _ _ HS10 HS11) as (F1 & F2 & F3 & _).
  rewrite Hpr, fupd_fupd, !fupd_same in F1. set (q := set_state RUNNABLE _) in F1.
  assert (Hq : state q = RUNNABLE /\ parent q = None /\ pid q = 1).
  { unfold q. simpl. by rewrite !Hz, Hn. }
  destruct Hq as (Q1 & Q2 & Q3).
  exists p, q. split_and!; try done.
  - rewrite F1. apply fupd_same.
  - intros i Hi. rewrite F1, fupd_other by done. apply Hz.
  - intros c. rewrite F3, Hcur. apply Hc.
  - congruence.
Qed.

Lemma userinit_pinv s s' : boot_table s -> userinit trapret forkret_addr s = Ok tt s' -> pinv s'.
Proof.
  intros Hb Hu. destruct (userinit_inv s s' Hb Hu) as (p & q & Hp & F2 & Hself & Q1 & Q2 & Q3 & Hother & Hcur' & Hnext).
  assert (Hcase : forall i, procs s' i = proc_zero \/ i = p).
  { intros i. destruct (decide (i = p)); [by right | left; auto]. }
  split; rewrite ?Hnext.
  - exists p. rewrite Hself, F2. unfold alive. rewrite Q1. by split_and!.
  - intros i _ Hs _ Hi. destruct (Hcase i) as [E | ->]; [by rewrite E in Hs | by rewrite F2 in Hi].
  - intros i _ Hs. destruct (Hcase i) as [E | ->]; [by rewrite E | by rewrite Hself].
  - intros i _ Hs. destruct (Hcase i) as [E | ->]; [by rewrite E in Hs | by rewrite Hself, Q1 in Hs].
  - intros i _ Hs. destruct (Hcase i) as [E | ->]; [by rewrite E in Hs | rewrite Hself; lia].
  - intros i j _ _ Hs Hs'. destruct (Hcase i) as [E | ->], (Hcase j) as [E' | ->]; rewrite ?E, ?E' in *; done.
  - lia.
  - intros c i Hi. by rewrite Hcur' in Hi.
  - intros c c' i Hi. by rewrite Hcur' in Hi.
  - intros i _ Hs. destruct (Hcase i) as [E | ->]; [by rewrite E in Hs | by rewrite Hself, Q1 in Hs].
  - intros i j _ Hs. destruct (Hcase i) as [E | ->]; [by rewrite E in Hs | by rewrite Hself, Q1 in Hs].
Qed.

(** Nothing but the first process is there, and it is runnable. *)
Lemma userinit_sinv s s' : boot_table s -> userinit trapret forkret_addr s = Ok tt s' -> sinv (PS s' ∅).
Proof.
  intros Hb Hu. split; [by eapply userinit_pinv |]. 
  destruct (userinit_inv s s' Hb Hu) as (p & q & _ & _ & Hself & Q1 & _ & _ & Hother & _).
  split; simpl; [done | done |]. intros np _. destruct (decide (np = p)) as [-> | Hp].
  - by rewrite Hself, Q1.
  - by rewrite Hother.
Qed.
End system.
Arguments psys : clear implicits.
Arguments PS {W}.
Arguments tab {W}.
Arguments forks {W}.

(** ** A concrete kernel *)

(** Memory is always available and the other calls succeed. *)
#[local] Instance demo_kernel : Kernel unit := {
  k_alloc := mret 4096; k_free _ := mret tt; setupkvm := mret 8192; inituvm _ := mret tt;
  copyuvm _ _ := mret 12288; freevm _ := mret tt; allocuvm _ _ n := mret n; deallocuvm _ _ n := mret n;
  switchuvm _ _ _ := mret tt; switchkvm _ := mret tt; filedup f := mret f; fileclose _ _ := mret tt; idup d := mret d; iput_op _ _ := mret tt; namei_root := mret 1
}.

#[local] Instance demo_laws : KernelLaws unit.
Proof.
  split; [intros f w g w' E; by injection E | intros f w g w' E; by injection E | discriminate | discriminate
         | eauto | eauto].
Qed.

Definition final {A} (m : M (ptable unit) A) (s : ptable unit) : ptable unit :=
  match m s with Ok _ s' => s' | Slept _ s' => s' | Panicked _ => s end.

Definition demo_boot : ptable unit :=
  PT (fun _ => proc_zero) None 1 (fun _ => None) (fun _ => 0%nat) tt.
(** After boot; with init running on CPU 0; after init has forked; with the child in slot 1 running
    on CPU 1; after the child has exited. *)
Definition demo_init : ptable unit := final (userinit 0 0) demo_boot.
Definition demo_run : ptable unit := final (resume 0) (final (scheduler 0) demo_init).
Definition demo_fork : ptable unit := final (fork 0 0 0) demo_run.
Definition demo_two : ptable unit := final (resume 1) (final (scheduler 1) demo_fork).
Definition demo_exit : ptable unit := final (exit 1) demo_two.
(** Both processes call [fork] at the same time, on their CPUs: after both have taken a slot. *)
Definition demo_first : ptable unit := final (fork_step 0 0 0 FSlot) demo_two.
Definition demo_both : psys unit :=
  PS (final (fork_step 0 0 1 FSlot) demo_first) (<[1%nat := FStack 3]> (<[0%nat := FStack 2]> ∅)).

Lemma demo_boot_table : boot_table demo_boot.
Proof. done. Qed.

Lemma demo_userinit : userinit 0 0 demo_boot = Ok tt demo_init.
Proof. by vm_compute. Qed.

Lemma demo_reach_run : reach (pstep 0 0) (PS demo_init ∅) (PS demo_run ∅).
Proof.
  eapply reach_step; [apply reach_refl |].
  apply (ps_dispatch _ _ 0 0 demo_init (final (scheduler 0) demo_init)); by vm_compute.
Qed.

Lemma demo_sinv x : reach (pstep 0 0) (PS demo_init ∅) x -> sinv x.
Proof.
  intros Hr. eapply reach_invariant; [| intros ? ?; by apply (sinv_step 0 0) | exact Hr].
  exact (userinit_sinv 0 0 _ _ demo_boot_table demo_userinit).
Qed.

Lemma demo_reach_fork : reach (pstep 0 0) (PS demo_init ∅) (PS demo_fork ∅).
Proof.
  eapply reach_trans; [apply demo_reach_run |]. destruct (demo_sinv _ demo_reach_run) as [Hp HO].
  apply (fork_reach 0 0 0 0 demo_run 2); by vm_compute.
Qed.

Lemma demo_reach_two : reach (pstep 0 0) (PS demo_init ∅) (PS demo_two ∅).
Proof.
  eapply reach_step; [apply demo_reach_fork |].
  apply (ps_dispatch _ _ 1 1 demo_fork (final (scheduler 1) demo_fork)); by vm_compute.
Qed.

Lemma demo_reach_exit : reach (pstep 0 0) (PS demo_init ∅) (PS demo_exit ∅).
Proof.
  eapply reach_trans; [apply demo_reach_two |]. apply (exit_reach 0 0 1); [done | by vm_compute].
Qed.

Lemma demo_reach_both : reach (pstep 0 0) (PS demo_init ∅) demo_both.
Proof.
  apply (reach_step _ _ (PS demo_first (advance 0 (FStack 2) ∅)));
    [apply (reach_step _ _ (PS demo_two ∅)); [apply demo_reach_two |] |].
  - apply (ps_fork _ _ 0 0 FSlot); by vm_compute.
  - refine (ps_fork 0 0 1 1 FSlot (FStack 3) demo_first _ _ _ _ _ _); by vm_compute.
Qed.

(** ** Properties *)

(** C7: the process table stays consistent.  From the table [userinit] leaves, whatever the CPUs do,
    [fork] being interleaved statement by statement with everything else: every process but init has
    a live parent in the table that is not itself (nobody is orphaned), free slots have no parent,
    pids are positive and distinct, a CPU runs exactly a process in state RUNNING and every such
    process runs on exactly one CPU, and init is alive.  A slot that is being set up (EMBRYO) belongs
    to exactly one call of [fork] under way, whose process runs or is runnable; no two such calls
    have the same slot, and the slot's parent is unset until that call sets it. *)
Theorem ptable_invariant {W} `{KernelLaws W} (trapret forkret_addr : Z) (s0 s1 : ptable W) (x : psys W) :
  boot_table s0 -> userinit trapret forkret_addr s0 = Ok tt s1 ->
  reach (pstep trapret forkret_addr) (PS s1 ∅) x -> pinv (tab x) /\ owned (tab x) (forks x).
Proof.
  intros Hb Hu Hr. eapply (reach_invariant _ sinv); [by eapply userinit_sinv | intros ? ?; by apply sinv_step | exact Hr].
Qed.

Lemma ptable_invariant_witness :
  pinv (tab demo_both) /\ owned (tab demo_both) (forks demo_both) /\
  forks demo_both !! 0%nat = Some (FStack 2) /\ forks demo_both !! 1%nat = Some (FStack 3) /\
  state (procs (tab demo_both) 2%nat) = EMBRYO /\ state (procs (tab demo_both) 3%nat) = EMBRYO.
Proof.
  destruct (ptable_invariant 0 0 demo_boot demo_init demo_both demo_boot_table demo_userinit demo_reach_both)
    as [H1 H2].
  split; [exact H1 |]. split; [exact H2 |]. by vm_compute.
Defined.

(** C28: no exit is missed.  In every reachable state the parent of a zombie is alive and not asleep
    in [wait], and when it next calls [wait], the call does not sleep or return -1: it gives the
    pid of an exited child and frees its slot.  Conversely a process asleep in [wait] has children,
    none of which has exited. *)
Theorem zombies_are_reaped {W} `{KernelLaws W} (trapret forkret_addr : Z) (s0 s1 s : ptable W)
    (F : gmap nat fpc) (k : nat) :
  boot_table s0 -> userinit trapret forkret_addr s0 = Ok tt s1 ->
  reach (pstep trapret forkret_addr) (PS s1 ∅) (PS s F) -> (k < NPROC)%nat ->
  (state (procs s k) = ZOMBIE ->
   exists j, parent (procs s k) = Some j /\ alive (procs s j) /\
     ~ (state (procs s j) = SLEEPING /\ pchan (procs s j) = ChProc j) /\
     forall c, cur s c = Some j ->
       (forall ch s', wait c s <> Slept ch s') /\
       (forall r s', wait c s = Ok r s' -> exists k', (k' < NPROC)%nat /\ parent (procs s k') = Some j /\
          state (procs s k') = ZOMBIE /\ r = pid (procs s k') /\ state (procs s' k') = UNUSED)) /\
  (state (procs s k) = SLEEPING -> pchan (procs s k) = ChProc k ->
   (exists k', (k' < NPROC)%nat /\ parent (procs s k') = Some k) /\
   forall k', (k' < NPROC)%nat -> parent (procs s k') = Some k -> state (procs s k') <> ZOMBIE).
Proof.
  intros Hb Hu Hr Hk. assert (Hp : pinv s).
  { eapply (reach_invariant _ sinv) in Hr as [Hp _];
      [exact Hp | by eapply userinit_sinv | intros ? ?; by apply sinv_step]. }
  split.
  - intros Hz. assert (Hni : initproc s <> Some k).
    { intros E. destruct (pi_init s Hp) as (i0 & J1 & _ & (_ & _ & J2) & _). congruence. }
    destruct (pi_parent s Hp k Hk) as (j & J1 & J2 & J3 & J4); [by rewrite Hz | by rewrite Hz | done |].
    exists j. split_and!; [done | done | |].
    + intros [Hs Hc]. by destruct (pi_wait s Hp j j J2 Hs Hc) as (_ & _ & _ & Hnz); apply (Hnz k).
    + intros c Hc. split.
      * intros ch s' Hw. destruct (wait_sleep_inv c j s ch s' Hc Hw) as (_ & _ & _ & _ & Hnz). by apply (Hnz k).
      * intros r s' Hw. destruct (wait_inv c j s r s' Hc Hw)
          as [(k' & q & H1 & H2 & H3 & H4 & H5 & _ & H6 & _) | (_ & _ & Hnz & _)]; [| by apply (Hnz k) in Hz].
        exists k'. split_and!; try done. by rewrite (slot_same _ _ _ _ H5).
  - intros Hs Hc. by destruct (pi_wait s Hp k k Hk Hs Hc) as (_ & _ & H1 & H2).
Qed.

Lemma zombies_are_reaped_witness :
  state (procs demo_exit 1%nat) = ZOMBIE /\
  exists k', parent (procs demo_exit k') = Some 0%nat /\ state (procs demo_exit k') = ZOMBIE /\
    wait 0 demo_exit = Ok (pid (procs demo_exit k')) (final (wait 0) demo_exit).
Proof.
  assert (Hw : wait 0 demo_exit = Ok 2 (final (wait 0) demo_exit)) by (by vm_compute).
  assert (Hz : state (procs demo_exit 1%nat) = ZOMBIE) by (by vm_compute).
  destruct (zombies_are_reaped 0 0 demo_boot demo_init demo_exit ∅ 1 demo_boot_table demo_userinit
    demo_reach_exit ltac:(unfold NPROC; lia)) as [Hr _].
  destruct (Hr Hz) as (j & Hj & _ & _ & Hwait).
  assert (j = 0%nat) as ->. { vm_compute in Hj. congruence. }
  destruct (Hwait 0%nat) as [_ H2]; [by vm_compute |].
  destruct (H2 _ _ Hw) as (k' & _ & H3 & H4 & H5 & _). split; [exact Hz |]. exists k'.
  split; [exact H3 |]. split; [exact H4 |]. rewrite <- H5. exact Hw.
Defined.

(** What the child of a [fork] shares with its parent [p], which is in slot [cp], and what it has
    of its own. *)
Definition copy_of (forkret_addr : Z) (cp : nat) (p q : proc) : Prop :=
  state q = RUNNABLE /\ parent q = Some cp /\ sz q = sz p /\ pgdir q <> 0 /\ kstack q <> 0 /\
  tf q = set_eax 0 (tf p) /\ eip (ctx q) = forkret_addr /\ cwd q = cwd p /\ ofile q = ofile p.

(** C30: what [fork] does.  Called by the running process of a consistent table, when it returns: it
    gives -1 and no process has appeared or changed, or it gives the pid of exactly one new process,
    in a slot that was free: runnable, child of the caller, with the caller's size, registers
    (except that its %eax is 0, so that [fork] returns 0 there), open files and directory, its own
    address space and kernel stack, set to start in [forkret]. *)
Theorem fork_spec {W} `{KernelLaws W} (trapret forkret_addr : Z) (c cp : nat) (s s' : ptable W) (r : Z) :
  pinv s -> (forall i, length (ofile (procs s i)) = NOFILE) ->
  (forall i j, state (procs s i) = UNUSED -> (j < NOFILE)%nat -> ofile (procs s i) !!! j = 0) ->
  cur s c = Some cp -> fork trapret forkret_addr c s = Ok r s' ->
  (forall i, state (procs s i) <> UNUSED -> procs s' i = procs s i) /\
  ((r = -1 /\ forall i, state (procs s i) = UNUSED -> state (procs s' i) = UNUSED) \/
   exists np q, (np < NPROC)%nat /\ state (procs s np) = UNUSED /\ procs s' np = q /\ r = pid q /\
     r = nextpid s /\ (forall i, i <> np -> procs s' i = procs s i) /\
     copy_of forkret_addr cp (procs s cp) q).
Proof.
  intros Hp Hlen Hfree Hc Hf. destruct (cur_slot s c cp Hp Hc) as (Hcp & Hrun & _).
  apply (fork_inv _ _ c cp) in Hf; [| done | by rewrite Hrun].
  destruct Hf as [(Hr & [-> | (i & q & H1 & H2 & H3 & _ & _ & H4)]) |
    (np & ks & pg & fs & d & H1 & H2 & H3 & H4 & H5 & H6 & _ & H7 & H8 & H9)].
  - split; [done |]. left. auto.
  - split; [intros k Hk; rewrite (slot_other _ _ _ _ k H4); [done |]; by intros -> |].
    left. split; [done |]. intros k Hk. destruct (decide (k = i)) as [-> | Hki].
    + by rewrite (slot_same _ _ _ _ H4).
    + by rewrite (slot_other _ _ _ _ k H4).
  - split; [intros k Hk; rewrite (slot_other _ _ _ _ k H8); [done |]; by intros -> |].
    right. exists np. eexists. rewrite (slot_same _ _ _ _ H8). unfold copy_of. split_and!; try done.
    + intros k Hk. by apply (slot_other _ _ _ _ k H8).
    + simpl. by destruct (H9 _).
    + simpl. destruct (H9 _) as [_ Hfs]. apply list_eq. intros j. rewrite Hlen in H7.
      destruct (decide (j < NOFILE)%nat) as [Hj | Hj].
      * rewrite (list_lookup_lookup_total_lt fs) by lia.
        rewrite (list_lookup_lookup_total_lt (ofile (procs s cp))) by (rewrite Hlen; lia). f_equal.
        rewrite Hfs by lia. cbv zeta. destruct (Z.eqb_spec (ofile (procs s cp) !!! j) 0) as [E | E]; [| done].
        rewrite E. by apply Hfree.
      * rewrite !lookup_ge_None_2; [done | rewrite Hlen; lia | lia].
Qed.

Lemma fork_spec_witness :
  exists np, fork 0 0 0 demo_run = Ok 2 demo_fork /\ state (procs demo_run np) = UNUSED /\
    parent (procs demo_fork np) = Some 0%nat.
Proof.
  assert (Hf : fork 0 0 0 demo_run = Ok 2 demo_fork) by (by vm_compute).
  destruct (fork_spec 0 0 0 0 demo_run demo_fork 2) as [_ [[? _] | (np & q & _ & H2 & H3 & _ & _ & _ & _ & H4 & _)]].
  - exact (proj1 (demo_sinv _ demo_reach_run)).
  - intros i. destruct i as [|i]; [by vm_compute |].
    assert (E : procs demo_run (S i) = proc_zero) by (by vm_compute). by rewrite E.
  - intros i j Hu Hj. destruct i as [|i]; [by vm_compute in Hu |].
    assert (E : procs demo_run (S i) = proc_zero) by (by vm_compute). rewrite E.
    by apply lookup_total_replicate_2.
  - by vm_compute.
  - exact Hf.
  - discriminate.
  - exists np. split; [exact Hf |]. split; [exact H2 |]. by rewrite H3.
Defined.

(** How many activations of its scheduler a CPU may need to reach slot [i] from position [k]. *)
Definition distance (k i : nat) : nat := if (k <=? i)%nat then i - k else NPROC - k + i + 1.

Lemma scheduler_returns {W} `{KernelLaws W} c (s : ptable W) :
  (forall k, state (procs s k) = RUNNABLE -> kstack (procs s k) <> 0 /\ pgdir (procs s k) <> 0) ->
  exists o s', scheduler c s = Ok o s'.
Proof.
  intros Hok. unfold scheduler. erewrite bind_ok by reflexivity. unfold id.
  destruct (first_from _ _ _) as [k|] eqn:Hf; [| erewrite bind_ok by reflexivity; eauto].
  apply first_from_Some in Hf as (_ & Hk & _). apply bool_decide_eq_true in Hk.
  destruct (Hok k Hk) as [H1 H2]. destruct (switchuvm_law c _ _ (world s) H1 H2) as [w Hw].
  do 2 (erewrite bind_ok by reflexivity). unfold on_w, zoom, mbind, M_bind. cbn [world procs].
  rewrite Hw. eexists _, _. reflexivity.
Qed.

(** C29: the scheduler is fair.  While process [i] stays runnable, each activation of a CPU's
    scheduler returns and either picks [i] or brings its loop strictly closer to it; the distance is
    at most NPROC, so [i] is picked within NPROC + 1 activations.  Only a runnable process is ever
    picked.  Runnable processes have a kernel stack and a page directory, as [switchuvm] demands. *)
Theorem scheduler_round_robin {W} `{KernelLaws W} (c i : nat) (s : ptable W) :
  (pos s c <= NPROC)%nat -> (i < NPROC)%nat -> state (procs s i) = RUNNABLE ->
  (forall k, state (procs s k) = RUNNABLE -> kstack (procs s k) <> 0 /\ pgdir (procs s k) <> 0) ->
  exists o s', scheduler c s = Ok o s' /\
  (distance (pos s c) i <= NPROC)%nat /\ (pos s' c <= NPROC)%nat /\
  (forall k, o = Some k -> state (procs s k) = RUNNABLE /\ cur s' c = Some k /\ state (procs s' k) = RUNNING) /\
  (o = Some i \/
   (state (procs s' i) = RUNNABLE /\ (distance (pos s' c) i < distance (pos s c) i)%nat)).
Proof.
  intros Hpos Hi Hr Hok. destruct (scheduler_returns c s Hok) as (o & s' & Hs). exists o, s'.
  split; [exact Hs |]. apply scheduler_inv in Hs.
  assert (Hd : (distance (pos s c) i <= NPROC)%nat).
  { unfold distance. destruct (Nat.leb_spec (pos s c) i); lia. }
  destruct o as [k|].
  - destruct Hs as (H1 & H2 & H3 & H4 & H5 & H6 & _). rewrite H6, fupd_same, H4, H5.
    split_and!; [done | lia | |].
    + intros k' [= <-]. by rewrite !fupd_same.
    + destruct (decide (k = i)) as [-> | Hki]; [by left | right].
      rewrite fupd_other by done. split; [done |].
      assert (Hlt : (pos s c <= i)%nat -> (k < i)%nat).
      { intros Hle. destruct (decide (i < k)%nat); [| lia]. exfalso. by apply (H3 i); [lia |]. }
      unfold distance. destruct (Nat.leb_spec (S k) i), (Nat.leb_spec (pos s c) i); lia.
  - destruct Hs as (H1 & H2 & H3 & H4 & _). rewrite H4, fupd_same, H2. split_and!; [done | lia | done |].
    right. split; [done |]. assert (~ (pos s c <= i)%nat) by (intros Hle; by apply (H1 i); [lia |]).
    unfold distance. simpl. destruct (Nat.leb_spec (pos s c) i); lia.
Qed.

Lemma scheduler_round_robin_witness :
  exists s', scheduler 0 demo_init = Ok (Some 0%nat) s' /\ state (procs s' 0%nat) = RUNNING.
Proof.
  destruct (scheduler_round_robin 0 0 demo_init) as (o & s' & Hs & _ & _ & H & _).
  - vm_compute. lia.
  - unfold NPROC. lia.
  - by vm_compute.
  - intros [|k]; [by vm_compute | intros Hk; discriminate Hk].
  - assert (o = Some 0%nat) as ->. { revert Hs. vm_compute. by intros [= <- _]. }
    exists s'. split; [exact Hs |]. by apply H.
Defined.

(** [kill] of a pid that is not there can kill a process that does not exist yet.  On a machine
    that runs only init, [kill(0)] reports success: it matches a free slot and sets its [killed]
    flag, which [allocproc] does not clear, so that the next child forked starts its life killed. *)
Theorem kill_zero_kills_newborn :
  exists s1 s2 : ptable unit, pinv demo_run /\ kill 0 demo_run = Ok 0 s1 /\ fork 0 0 0 s1 = Ok 2 s2 /\
    state (procs demo_run 1%nat) = UNUSED /\
    parent (procs s2 1%nat) = Some 0%nat /\ state (procs s2 1%nat) = RUNNABLE /\ killed (procs s2 1%nat) = 1.
Proof.
  exists (final (kill 0) demo_run), (final (fork 0 0 0) (final (kill 0) demo_run)). split.
  - exact (proj1 (demo_sinv _ demo_reach_run)).
  - by vm_compute.
Qed.

(** ** The locks held when a CPU enters its scheduler *)
Module SchedLocks.
Import Spin.

(** [acquire] when the lock is free at the first exchange; a taken lock keeps the CPU spinning. *)
Definition acquire (c l : nat) : M mach unit :=
  acquire_enter c l ;; b ← acquire_try c l ; if (b : bool) then mret tt else sleep_on ChNone.

(** The guards of [sched], for a process that is in state RUNNING or not. *)
Definition sched_guards (c pt : nat) (running : bool) : M mach unit :=
  h ← gets (holding c pt) ;
  if negb h then panic "sched ptable.lock" else
  k ← gets (fun s => cpus s c) ;
  if negb (ncli k =? 1) then panic "sched locks" else
  if running then panic "sched running" else
  if eflags_if k then panic "sched interruptible" else mret tt.

(** The lock operations of [sleep(chan, lk)] up to and including the guards of [sched]; [sched] then
    saves [intena] for when the process runs again. *)
Definition sleep_locks (c pt lk : nat) : M mach bool :=
  (if decide (lk = pt) then mret tt else acquire c pt ;; release c lk) ;;
  sched_guards c pt false ;;
  gets (fun s => intena (cpus s c)).

(** Those of [yield]. *)
Definition yield_locks (c pt : nat) : M mach bool :=
  acquire c pt ;; sched_guards c pt false ;; gets (fun s => intena (cpus s c)).

Lemma acquire_free x c l :
  inv x -> spin x c = None -> locked (locks (m x) l) = 0 ->
  exists s', acquire c l (m x) = Ok tt s' /\ inv (Conf s' (spin x) (fupd (held x) c (l :: held x c))).
Proof.
  destruct x as [s sp h]. simpl. intros Hi Hsp Hl.
  assert (Hnh : holding c l s = false).
  { destruct (holding c l s) eqn:E; [| done]. apply (holding_spec _ c l Hi) in E. by apply (i_free _ Hi l Hl) in E. }
  assert (He : exists s1, acquire_enter c l s = Ok tt s1 /\ locks s1 = locks s).
  { unfold acquire_enter, pushcli. run_m. unfold holding in *. simpl. rewrite Hnh. eauto. }
  destruct He as (s1 & E1 & El). pose proof (inv_enter s sp h c l s1 Hi Hsp E1) as Hi1.
  assert (Ht : exists s2, acquire_try c l s1 = Ok true s2).
  { unfold acquire_try. run_m. rewrite El, Hl. simpl. eauto. }
  destruct Ht as (s2 & E2). pose proof (inv_got s1 _ h c l s2 Hi1 (fupd_same _ _ _) E2) as Hi2.
  exists s2. split.
  - unfold acquire. erewrite bind_ok by exact E1. by erewrite bind_ok by exact E2.
  - rewrite fupd_fupd in Hi2. assert (Es : fupd sp c None = sp); [| by rewrite Es in Hi2].
    extensionality j. unfold fupd. by case_decide; subst.
Qed.

(** With the table lock held, the guards pass exactly when it is the only lock. *)
Lemma guards_spec x c pt :
  inv x -> spin x c = None -> pt ∈ held x c ->
  sched_guards c pt false (m x) = if decide (held x c = [pt]) then Ok tt (m x) else Panicked "sched locks".
Proof.
  intros Hi Hsp Hpt. unfold sched_guards. run_m. rewrite (proj2 (holding_spec x c pt Hi) Hpt). simpl.
  pose proof (i_ncli x Hi c) as Hn. rewrite Hsp in Hn. case_decide as Hh.
  - rewrite Hh in Hn. simpl in Hn. rewrite Hn. simpl. by rewrite (i_off x Hi c) by lia.
  - assert (Hlen : length (held x c) <> 1%nat).
    { intros E. apply Hh. destruct (held x c) as [|a [|b t]] eqn:Eh; try done.
      apply list_elem_of_singleton in Hpt. by subst. }
    rewrite (proj2 (Z.eqb_neq _ _)) by lia. done.
Qed.

(** A process goes to sleep holding no spin lock.  [sleep] called with a lock the CPU holds,
    while the table lock is free, passes every guard of [sched] with only the table lock held if
    that lock was the only one, and panics with "sched locks" if the CPU holds any other. *)
Theorem sleep_holds_only_ptable_lock (x : conf) (c pt lk : nat) (h : list nat) :
  inv x -> spin x c = None -> locked (locks (m x) pt) = 0 -> lk <> pt -> held x c ≡ₚ lk :: h ->
  (h = [] -> exists b s', sleep_locks c pt lk (m x) = Ok b s' /\
     inv (Conf s' (spin x) (fupd (held x) c [pt])) /\ locked (locks s' lk) = 0) /\
  (h <> [] -> sleep_locks c pt lk (m x) = Panicked "sched locks").
Proof.
  intros Hi Hsp Hpt Hne Hh. destruct (acquire_free x c pt Hi Hsp Hpt) as (s1 & E1 & Hi1).
  set (x1 := Conf s1 (spin x) (fupd (held x) c (pt :: held x c))) in *.
  assert (Hlk : lk ∈ held x1 c) by (simpl; rewrite fupd_same, Hh; right; by left).
  destruct (release_succeeds x1 c lk Hi1 Hlk) as (s2 & E2). simpl in E2.
  pose proof (inv_release s1 (spin x) (held x1) c lk (pt :: h) s2 Hi1 Hsp) as Hi2.
  assert (Hp : held x1 c ≡ₚ lk :: pt :: h).
  { simpl. rewrite fupd_same, Hh. apply Permutation_swap. }
  specialize (Hi2 Hp E2). simpl in Hi2. rewrite fupd_fupd in Hi2.
  set (x2 := Conf s2 (spin x) (fupd (held x) c (pt :: h))) in *.
  assert (Hx2 : held x2 c = pt :: h) by (simpl; apply fupd_same).
  pose proof (guards_spec x2 c pt Hi2 Hsp) as Hg. rewrite Hx2 in Hg. specialize (Hg ltac:(by left)). simpl in Hg.
  assert (Hrun : sleep_locks c pt lk (m x) = (sched_guards c pt false ;; gets (fun s => intena (cpus s c))) s2).
  { unfold sleep_locks. rewrite decide_False by done. erewrite bind_ok; [reflexivity |].
    erewrite bind_ok by exact E1. exact E2. }
  rewrite Hrun. split.
  - intros ->. rewrite decide_True in Hg by done. erewrite bind_ok by exact Hg.
    eexists _, s2. split_and!; [reflexivity | exact Hi2 |].
    apply release_ok in E2 as (_ & _ & _ & -> & _). done.
  - intros Hnil. rewrite decide_False in Hg by congruence. unfold mbind, M_bind. by rewrite Hg.
Qed.

(** CPU 0 holds lock 7. *)
Definition demo_held : conf :=
  Conf (Mach (fun c => if decide (c = 0%nat) then Cpu 1 true false else Cpu 0 false true)
             (fun l => if decide (l = 7%nat) then Lk 1 (Some 0%nat) else Lk 0 None))
       (fun _ => None) (fun c => if decide (c = 0%nat) then [7%nat] else []).

Lemma demo_held_inv : inv demo_held.
Proof.
  split; simpl.
  - intros c. by case_decide.
  - intros c. by case_decide.
  - intros l Hl c. repeat case_decide; try done; [by rewrite list_elem_of_singleton | apply not_elem_of_nil ..].
  - intros c l Hl. case_decide; [| by apply not_elem_of_nil in Hl].
    apply list_elem_of_singleton in Hl. subst. by rewrite decide_True.
  - intros c. case_decide; [apply NoDup_singleton | apply NoDup_nil_2].
  - intros l. destruct (decide (l = 7%nat)) as [-> | ?]; [right | by left].
    exists 0%nat. split; [by apply list_elem_of_singleton | done].
  - intros l. by case_decide.
Qed.

Lemma sleep_holds_only_ptable_lock_witness :
  exists b s', sleep_locks 0 1 7 (m demo_held) = Ok b s' /\ locked (locks s' 7%nat) = 0.
Proof.
  destruct (sleep_holds_only_ptable_lock demo_held 0 1 7 []) as [H _];
    [apply demo_held_inv | done | done | done | done |].
  destruct (H eq_refl) as (b & s' & H1 & _ & H2). by exists b, s'.
Defined.
End SchedLocks.
