(* ===== verification/Uaccess.v ===== *)
(** * syscall.c: fetching system call arguments

    The kernel reads user memory directly, with the page table of the current process loaded: an
    access goes through the page table, and one that finds no mapping is a fault in the kernel, for
    which [trap] panics.  The checks of fetchint, fetchstr, argint, argptr and argstr are what keeps
    user pointers from causing such faults or reaching the kernel's half of the address space.
    The process is the one that made the system call; [None] stands for the return value -1. *)
From S2P Require Import Prelude Mem Mmu Kalloc Vm Proc.
#[local] Open Scope Z_scope.

Section code.
Notation MK := (M kmem).

(** Where the byte at user address [va] is, through the page table [pgdir]. *)
Definition translate (pgdir va : Z) : MK Z :=
  pte ← walkpgdir pgdir va false ;
  if pte =? 0 then panic "trap"
  else
    e ← rd pte ;
    if present e then mret (P2V (PTE_ADDR e) + va mod PGSIZE) else panic "trap".

Definition load8 (pgdir va : Z) : MK Z := a ← translate pgdir va ; gets (fun s => k_mem s a).
Definition store8 (pgdir va v : Z) : MK unit :=
  a ← translate pgdir va ;
  modify (fun s => Kmem (upd (k_mem s) a (u8 v)) (freelist s) (use_lock s)).

(** [*(int* )addr], byte by byte: the word may lie on two pages. *)
Definition load32 (pgdir va : Z) : MK Z :=
  b0 ← load8 pgdir va ;
  b1 ← load8 pgdir (va +u 1) ;
  b2 ← load8 pgdir (va +u 2) ;
  b3 ← load8 pgdir (va +u 3) ;
  mret (b0 + 256 * b1 + 65536 * b2 + 16777216 * b3).
Definition store32 (pgdir va v : Z) : MK unit :=
  store8 pgdir va (u32 v mod 256) ;;
  store8 pgdir (va +u 1) (u32 v / 256 mod 256) ;;
  store8 pgdir (va +u 2) (u32 v / 65536 mod 256) ;;
  store8 pgdir (va +u 3) (u32 v / 16777216).

(** The bytes of a buffer in user memory. *)
Fixpoint load_bytes (n : nat) (pgdir va : Z) : MK (list Z) :=
  match n with
  | O => mret []
  | S n' => b ← load8 pgdir va ; l ← load_bytes n' pgdir (va +u 1) ; mret (b :: l)
  end.
Fixpoint store_bytes (l : list Z) (pgdir va : Z) : MK unit :=
  match l with
  | [] => mret tt
  | b :: l' => store8 pgdir va b ;; store_bytes l' pgdir (va +u 1)
  end.

Definition fetchint (p : proc) (addr : Z) : MK (option Z) :=
  if (sz p <=? addr) || (sz p <? addr +u 4) then mret None
  else v ← load32 (pgdir p) addr ; mret (Some (s32 v)).

(** The loop of [fetchstr] from [s] on, with the bytes it has passed: it ends at [ep]. *)
Fixpoint fetchstr_loop (fuel : nat) (pg s ep : Z) (acc : list Z) : MK (option (list Z)) :=
  match fuel with
  | O => mret None
  | S f =>
      if s <? ep then
        c ← load8 pg s ;
        if c =? 0 then mret (Some acc) else fetchstr_loop f pg (s +u 1) ep (acc ++ [c])
      else mret None
  end.

(** The string itself stands for the pointer stored in [pp]; its length is what the call returns.
    One pass per byte up to the end of the process. *)
Definition fetchstr (p : proc) (addr : Z) : MK (option (list Z)) :=
  if sz p <=? addr then mret None
  else fetchstr_loop (S (Z.to_nat (sz p - addr))) (pgdir p) addr (sz p) [].

Definition argint (p : proc) (n : Z) : MK (option Z) := fetchint p (tf_esp (tf p) +u 4 +u 4 * n).

Definition argptr (p : proc) (n size : Z) : MK (option Z) :=
  o ← argint p n ;
  match o with
  | None => mret None
  | Some i =>
      if (size <? 0) || (sz p <=? u32 i) || (sz p <? u32 i +u size) then mret None else mret (Some (u32 i))
  end.

Definition argstr (p : proc) (n : Z) : MK (option (list Z)) :=
  o ← argint p n ;
  match o with None => mret None | Some addr => fetchstr p (u32 addr) end.
End code.

(** ** What the checks ensure *)

(** The address space of a process: every page below its size is mapped. *)
Definition mapped (s : kmem) (p : proc) : Prop :=
  sz p <= KERNBASE /\ forall va, 0 <= va < sz p -> exists a, translate (pgdir p) va s = Ok a s.

(** The byte a process has at an address. *)
Definition ubyte (s : kmem) (p : proc) (va : Z) : Z :=
  match load8 (pgdir p) va s with Ok b _ => b | _ => 0 end.
Definition uword (s : kmem) (p : proc) (va : Z) : Z :=
  s32 (ubyte s p va + 256 * ubyte s p (va + 1) + 65536 * ubyte s p (va + 2) + 16777216 * ubyte s p (va + 3)).

Section safe.
Context (s : kmem) (p : proc) (Hm : mapped s p).

Lemma load8_ok va : 0 <= va < sz p -> load8 (pgdir p) va s = Ok (ubyte s p va) s.
Proof.
  intros Hva. destruct Hm as [_ H]. destruct (H va Hva) as [a Ha]. unfold ubyte, load8.
  by erewrite bind_ok by exact Ha.
Qed.

Lemma sz_bound va : 0 <= va < sz p -> va < 2 ^ 31.
Proof. destruct Hm as [H _]. unfold KERNBASE in H. lia. Qed.

Lemma load32_ok va :
  0 <= va -> va + 4 <= sz p ->
  load32 (pgdir p) va s = Ok (ubyte s p va + 256 * ubyte s p (va + 1) + 65536 * ubyte s p (va + 2) +
    16777216 * ubyte s p (va + 3)) s.
Proof.
  intros H0 H4. pose proof (sz_bound (va + 3) ltac:(lia)). unfold load32. rewrite !u32_small by lia.
  rewrite (bind_ok _ _ _ _ _ (load8_ok va ltac:(lia))).
  rewrite (bind_ok _ _ _ _ _ (load8_ok (va + 1) ltac:(lia))).
  rewrite (bind_ok _ _ _ _ _ (load8_ok (va + 2) ltac:(lia))).
  by rewrite (bind_ok _ _ _ _ _ (load8_ok (va + 3) ltac:(lia))).
Qed.

Lemma fetchint_ok addr :
  0 <= addr < 2 ^ 32 ->
  fetchint p addr s = Ok (if decide (addr + 4 <= sz p) then Some (uword s p addr) else None) s.
Proof.
  intros Ha. unfold fetchint. destruct Hm as [Hk _]. unfold KERNBASE in Hk.
  zcase (sz p <=? addr); [simpl; by rewrite decide_False by lia |]. rewrite u32_small by lia. simpl.
  zcase (sz p <? addr + 4); [by rewrite decide_False by lia |]. rewrite decide_True by lia.
  by rewrite (bind_ok _ _ _ _ _ (load32_ok addr ltac:(lia) ltac:(lia))).
Qed.

(** What [fetchstr] finds: the bytes up to the first NUL, if there is one below the size. *)
Fixpoint ustring (n : nat) (va : Z) : option (list Z) :=
  match n with
  | O => None
  | S n' => if ubyte s p va =? 0 then Some [] else cons (ubyte s p va) <$> ustring n' (va + 1)
  end.

Lemma fetchstr_loop_S n pg va ep acc :
  fetchstr_loop (S n) pg va ep acc = (if va <? ep then
    c ← load8 pg va ; if c =? 0 then mret (Some acc) else fetchstr_loop n pg (va +u 1) ep (acc ++ [c])
  else mret None).
Proof. done. Qed.

Lemma fetchstr_loop_ok n : forall va acc,
  0 <= va -> va + Z.of_nat n = sz p ->
  fetchstr_loop (S n) (pgdir p) va (sz p) acc s = Ok (app acc <$> ustring n va) s.
Proof.
  induction n as [|n IH]; intros va acc H0 Hn; rewrite fetchstr_loop_S; cbn [ustring].
  { by rewrite (proj2 (Z.ltb_ge _ _)) by lia. }
  rewrite (proj2 (Z.ltb_lt _ _)) by lia.
  rewrite (bind_ok _ _ _ _ _ (load8_ok va ltac:(lia))). zcase (ubyte s p va =? 0).
  { simpl. by rewrite app_nil_r. }
  pose proof (sz_bound va ltac:(lia)). rewrite u32_small by lia.
  rewrite (IH (va + 1) (acc ++ [ubyte s p va])) by lia. destruct (ustring n (va + 1)); simpl; [| done].
  by rewrite <- app_assoc.
Qed.

Lemma fetchstr_ok addr :
  0 <= addr ->
  fetchstr p addr s = Ok (if decide (addr < sz p) then ustring (Z.to_nat (sz p - addr)) addr else None) s.
Proof.
  intros Ha. unfold fetchstr. zcase (sz p <=? addr); [by rewrite decide_False by lia |].
  rewrite decide_True by lia. rewrite fetchstr_loop_ok by lia. by destruct (ustring _ _).
Qed.

Lemma ustring_spec n va l :
  ustring n va = Some l ->
  (length l < n)%nat /\ ubyte s p (va + Z.of_nat (length l)) = 0 /\
  forall i b, l !! i = Some b -> ubyte s p (va + Z.of_nat i) = b /\ b <> 0.
Proof.
  revert va l. induction n as [|n IH]; intros va l; simpl; [done |]. zcase (ubyte s p va =? 0).
  { intros [= <-]. simpl. rewrite Z.add_0_r. split_and!; [lia | done | done]. }
  destruct (ustring n (va + 1)) as [l'|] eqn:E; [| done]. intros [= <-].
  destruct (IH _ _ E) as (H1 & H2 & H3). simpl. split_and!; [lia | |].
  - rewrite <- H2. f_equal. lia.
  - intros [|i] b; simpl; [intros [= <-]; by rewrite Z.add_0_r |]. intros Hb.
    destruct (H3 i b Hb) as [<- ?]. split; [f_equal; lia | done].
Qed.

Lemma ustring_none n va :
  ustring n va = None -> forall a, va <= a < va + Z.of_nat n -> ubyte s p a <> 0.
Proof.
  revert va. induction n as [|n IH]; intros va; simpl; [lia |]. zcase (ubyte s p va =? 0); [done |].
  destruct (ustring n (va + 1)) eqn:E; [done |]. intros _ a Ha.
  destruct (decide (a = va)) as [-> | ?]; [done |]. apply (IH (va + 1) E). lia.
Qed.
End safe.

(** C27: user pointers are checked.  For a process whose pages below its size are mapped, fetching a
    system call argument never faults, changes nothing, and rejects every address outside the
    process, whatever the user stack pointer and the argument hold: an integer is the word at its
    place on the stack; a pointer to [size] bytes is accepted exactly when all of them lie below the
    size of the process, with no wrap-around; a string is accepted exactly when a NUL ends it below
    that size, and it is then the nonzero bytes before it. *)
Theorem user_pointers_checked (s : kmem) (p : proc) (n size : Z) :
  mapped s p -> - 2 ^ 31 <= size < 2 ^ 31 ->
  let a := tf_esp (tf p) +u 4 +u 4 * n in
  let arg := if decide (a + 4 <= sz p) then Some (uword s p a) else None in
  argint p n s = Ok arg s /\
  argptr p n size s = Ok (i ← arg ; if decide (0 <= size /\ u32 i < sz p /\ u32 i + size <= sz p)
                                   then Some (u32 i) else None) s /\
  exists o, argstr p n s = Ok o s /\
    match o with
    | Some l => exists i, arg = Some i /\ u32 i + Z.of_nat (length l) < sz p /\
        ubyte s p (u32 i + Z.of_nat (length l)) = 0 /\
        forall k b, l !! k = Some b -> ubyte s p (u32 i + Z.of_nat k) = b /\ b <> 0
    | None => forall i, arg = Some i -> forall va, u32 i <= va < sz p -> ubyte s p va <> 0
    end.
Proof.
  intros Hm Hsz a arg. pose proof (fetchint_ok s p Hm a (u32_range _)) as Hi. fold arg in Hi.
  split; [exact Hi |]. split.
  - unfold argptr. rewrite (bind_ok _ _ _ _ _ Hi). destruct arg as [i|]; [| done]. simpl.
    pose proof (u32_range i). destruct Hm as [Hk _]. unfold KERNBASE in Hk.
    zcase (size <? 0); [by rewrite decide_False by lia |].
    zcase (sz p <=? u32 i); [by rewrite decide_False by lia |].
    rewrite u32_small by lia. simpl. zcase (sz p <? u32 i + size).
    + by rewrite decide_False by lia.
    + by rewrite decide_True by lia.
  - unfold argstr. rewrite (bind_ok _ _ _ _ _ Hi). destruct arg as [i|]; [| by exists None].
    pose proof (u32_range i). rewrite (fetchstr_ok s p Hm) by lia. eexists. split; [done |].
    case_decide; [| intros i' [= <-] va Hva; lia].
    destruct (ustring s p _ _) as [l|] eqn:E.
    + destruct (ustring_spec s p _ _ _ E) as (H1 & H2 & H3). exists i. split_and!; [done | lia | done | done].
    + intros i' [= <-] va Hva. by apply (ustring_none s p _ _ E); lia.
Qed.

(** A process of one page whose stack holds one argument, the address of the string "sh". *)
Definition demo_pages : kmem :=
  Kmem (st32 (st32 (st32 (st32 (fun _ => 0) (KERNBASE + 8192) 12295) (KERNBASE + 12288) 16391)
          (KERNBASE + 16384 + 4) 16) (KERNBASE + 16384 + 16) 26739) 0 false.
Definition demo_user : proc :=
  set_sz 4096 (set_pgdir (KERNBASE + 8192) (set_tf (TF 0 0 0 0 0 0 0 0 0 0 0 0 0 0 0 0 0 0 0) proc_zero)).

Lemma demo_mapped : mapped demo_pages demo_user.
Proof.
  split; [by vm_compute |]. intros va Hva. change (sz demo_user) with 4096 in Hva.
  assert (E1 : PDX va = 0).
  { unfold PDX, PDXSHIFT. rewrite u32_small, Z.shiftr_div_pow2 by lia. rewrite Z.div_small; [done |]. lia. }
  assert (E2 : PTX va = 0).
  { unfold PTX, PTXSHIFT. rewrite u32_small, Z.shiftr_div_pow2 by lia. rewrite Z.div_small; [done |]. lia. }
  unfold translate, walkpgdir. rewrite E1, E2. eexists. reflexivity.
Qed.

Lemma user_pointers_checked_witness :
  argint demo_user 0 demo_pages = Ok (Some 16) demo_pages /\
  argptr demo_user 0 4080 demo_pages = Ok (Some 16) demo_pages /\
  argptr demo_user 0 4081 demo_pages = Ok None demo_pages /\
  argstr demo_user 0 demo_pages = Ok (Some [115; 104]) demo_pages.
Proof.
  destruct (user_pointers_checked demo_pages demo_user 0 4080 demo_mapped ltac:(lia)) as (H1 & H2 & _).
  destruct (user_pointers_checked demo_pages demo_user 0 4081 demo_mapped ltac:(lia)) as (_ & H3 & _).
  split_and!; [exact H1 | exact H2 | exact H3 | by vm_compute].
Defined.
