(* ===== verification/Fs.v ===== *)
(** * fs.c: blocks, inodes, directories and paths

    The file system on the log and the block store.  On-disk structures are laid out in the bytes of
    blocks; the inode cache is a table of entries with reference counts and sleep locks.  [readi]
    gives the bytes it copies out and [writei] takes the bytes it copies in.  [icache.lock] makes
    the updates of the table atomic; a locked inode makes the caller sleep.  Device files are served
    by the functions [devread] and [devwrite] of the device table. *)
From S2P Require Import Prelude Lock Ide BlockStore Bytes Log.
#[local] Open Scope Z_scope.

Definition NINODE : nat := 50.
Definition NDEV : Z := 10.
Definition ROOTINO : Z := 1.
Definition NDIRECT : nat := 12.
Definition NINDIRECT : Z := BSIZE / 4.
Definition MAXFILE : Z := Z.of_nat NDIRECT + NINDIRECT.
Definition DINODE_SIZE : Z := 64.
Definition IPB : Z := BSIZE / DINODE_SIZE.
Definition BPB : Z := BSIZE * 8.
Definition DIRSIZ : nat := 14.
Definition DIRENT_SIZE : Z := 16.
Definition T_DIR : Z := 1.
Definition T_FILE : Z := 2.
Definition T_DEV : Z := 3.

Definition IBLOCK (i : Z) (sb : superblock) : Z := i / IPB + sb_inodestart sb.
Definition BBLOCK (b : Z) (sb : superblock) : Z := b / BPB + sb_bmapstart sb.

(** The in-memory inode. *)
Record inode := Inode {
  i_dev : Z;
  i_inum : Z;
  i_ref : Z;
  i_lock : Sleep.sleeplock;
  i_valid : bool;
  i_type : Z;
  i_major : Z;
  i_minor : Z;
  i_nlink : Z;
  i_size : Z;
  i_addrs : list Z
}.

Record fstate (S : Type) := FState {
  f_log : lstate S;
  f_sb : superblock;
  icache : nat -> inode
}.
Arguments FState {S}.
Arguments f_log {S}.
Arguments f_sb {S}.
Arguments icache {S}.

(** ** Bits of the free map and fields of an inode on disk *)

Definition bit_mask (bi : Z) : Z := Z.shiftl 1 (bi mod 8).
Definition bit_used (x : block) (bi : Z) : bool :=
  negb (Z.land (getb x (Z.to_nat (bi / 8))) (bit_mask bi) =? 0).
Definition set_bit (x : block) (bi : Z) : block :=
  putb x (Z.to_nat (bi / 8)) (Z.lor (getb x (Z.to_nat (bi / 8))) (bit_mask bi)).
Definition clear_bit (x : block) (bi : Z) : block :=
  putb x (Z.to_nat (bi / 8)) (Z.land (getb x (Z.to_nat (bi / 8))) (u8 (Z.lnot (bit_mask bi)))).

Definition zero_block : block := replicate (Z.to_nat BSIZE) 0.

Definition din_off (inum : Z) : nat := Z.to_nat (DINODE_SIZE * (inum mod IPB)).
Definition addr_off (inum : Z) (k : nat) : nat := din_off inum + 12 + 4 * k.

(** [for(k = 0; ...; k++) dip->addrs[k] = a[k]]: the copy of the address array. *)
Fixpoint put_addrs (x : block) (inum : Z) (k : nat) (a : list Z) : block :=
  match a with
  | [] => x
  | b :: a' => put_addrs (put32 x (addr_off inum k) b) inum (S k) a'
  end.

Definition put_dinode (x : block) (ip : inode) : block :=
  let o := din_off (i_inum ip) in
  let x := put16 x o (i_type ip) in
  let x := put16 x (o + 2) (i_major ip) in
  let x := put16 x (o + 4) (i_minor ip) in
  let x := put16 x (o + 6) (i_nlink ip) in
  let x := put32 x (o + 8) (i_size ip) in
  put_addrs x (i_inum ip) 0 (i_addrs ip).

Definition get_dinode (x : block) (ip : inode) : inode :=
  let o := din_off (i_inum ip) in
  Inode (i_dev ip) (i_inum ip) (i_ref ip) (i_lock ip) (i_valid ip)
    (s16 (get16 x o)) (s16 (get16 x (o + 2))) (s16 (get16 x (o + 4))) (s16 (get16 x (o + 6)))
    (get32 x (o + 8)) ((fun k => get32 x (addr_off (i_inum ip) k)) <$> seq 0 (S NDIRECT)).

(** [memset] to 0 of the 64 bytes of an inode. *)
Definition clear_dinode (x : block) (inum : Z) : block :=
  take (din_off inum) x ++ replicate 64 0 ++ drop (din_off inum + 64) x.

(** ** Names and paths *)

Definition slash : Z := 47.

(** [strncmp(s, t, n)] on strings given without their terminating NUL. *)
Fixpoint strncmp_l (n : nat) (s t : list Z) : Z :=
  match n with
  | O => 0
  | S n' =>
      let p := hd 0 s in
      let q := hd 0 t in
      if negb (p =? 0) && (p =? q) then strncmp_l n' (tl s) (tl t) else p - q
  end.
Definition namecmp (s t : list Z) : Z := strncmp_l DIRSIZ s t.

(** [strncpy(dst, name, n)]: the name cut to [n] bytes, padded with NULs. *)
Definition strncpy_l (n : nat) (s : list Z) : list Z := take n s ++ replicate (n - length s) 0.

Fixpoint skip_slashes (path : list Z) : list Z :=
  match path with
  | c :: p => if c =? slash then skip_slashes p else path
  | [] => []
  end.
Fixpoint elem_len (path : list Z) : nat :=
  match path with
  | c :: p => if negb (c =? slash) then S (elem_len p) else O
  | [] => O
  end.

(** The rest of the path and the name of its first element, cut to DIRSIZ bytes. *)
Definition skipelem (path : list Z) : option (list Z * list Z) :=
  let path := skip_slashes path in
  match path with
  | [] => None
  | _ =>
      let len := elem_len path in
      let name := if (DIRSIZ <=? len)%nat then take DIRSIZ path else take len path in
      Some (skip_slashes (drop len path), name)
  end.

Section code.
Context {S : Type} `{BlockStore S}.
(** Device functions by major number, with the bytes they read. *)
Variable devread : Z -> option (nat -> Z -> M (fstate S) (Z * list Z)).
Variable devwrite : Z -> option (nat -> list Z -> Z -> M (fstate S) Z).
(** The running process: its pid and its current directory. *)
Variable curpid : Z.
Variable curcwd : nat.

Notation MF := (M (fstate S)).

Definition in_log_ {A} (m : M (lstate S) A) : MF A :=
  zoom f_log (fun x s => FState x (f_sb s) (icache s)) m.
Definition disk {A} (m : M S A) : MF A := in_log_ (on_st m).
Definition data_of (b : nat) : MF block := gets (fun s => buf_data b (store (f_log s))).
Definition the_inode (ip : nat) : MF inode := gets (fun s => icache s ip).
Definition set_inode (ip : nat) (x : inode) : MF unit :=
  modify (fun s => FState (f_log s) (f_sb s) (fupd (icache s) ip x)).
Definition upd_inode (ip : nat) (f : inode -> inode) : MF unit := x ← the_inode ip ; set_inode ip (f x).

Definition set_ref (r : Z) (x : inode) : inode :=
  Inode (i_dev x) (i_inum x) r (i_lock x) (i_valid x) (i_type x) (i_major x) (i_minor x) (i_nlink x)
    (i_size x) (i_addrs x).
Definition set_ilock (l : Sleep.sleeplock) (x : inode) : inode :=
  Inode (i_dev x) (i_inum x) (i_ref x) l (i_valid x) (i_type x) (i_major x) (i_minor x) (i_nlink x)
    (i_size x) (i_addrs x).
Definition set_valid (v : bool) (x : inode) : inode :=
  Inode (i_dev x) (i_inum x) (i_ref x) (i_lock x) v (i_type x) (i_major x) (i_minor x) (i_nlink x)
    (i_size x) (i_addrs x).
Definition set_type (t : Z) (x : inode) : inode :=
  Inode (i_dev x) (i_inum x) (i_ref x) (i_lock x) (i_valid x) t (i_major x) (i_minor x) (i_nlink x)
    (i_size x) (i_addrs x).
Definition set_size (n : Z) (x : inode) : inode :=
  Inode (i_dev x) (i_inum x) (i_ref x) (i_lock x) (i_valid x) (i_type x) (i_major x) (i_minor x)
    (i_nlink x) n (i_addrs x).
Definition set_addr (k : nat) (b : Z) (x : inode) : inode :=
  Inode (i_dev x) (i_inum x) (i_ref x) (i_lock x) (i_valid x) (i_type x) (i_major x) (i_minor x)
    (i_nlink x) (i_size x) (<[k := b]> (i_addrs x)).

Definition bzero (dev bno : Z) : MF unit :=
  bp ← disk (bread dev bno) ;
  disk (buf_set bp zero_block) ;;
  in_log_ (log_write bp) ;;
  disk (brelse bp).

(** The first free bit of a map block, among the [n] from [bi]; block numbers start at [b]. *)
Fixpoint free_bit (n : nat) (x : block) (b bi size : Z) : option Z :=
  match n with
  | O => None
  | Datatypes.S n' =>
      if negb (b + bi <? size) then None
      else if negb (bit_used x bi) then Some bi else free_bit n' x b (bi + 1) size
  end.

Fixpoint balloc_loop (fuel : nat) (dev b : Z) : MF Z :=
  match fuel with
  | O => panic "balloc: out of blocks"
  | Datatypes.S f =>
      sb ← gets f_sb ;
      if negb (b <? sb_size sb) then panic "balloc: out of blocks"
      else
        bp ← disk (bread dev (BBLOCK b sb)) ;
        x ← data_of bp ;
        match free_bit (Z.to_nat BPB) x b 0 (sb_size sb) with
        | Some bi =>
            disk (buf_set bp (set_bit x bi)) ;;
            in_log_ (log_write bp) ;;
            disk (brelse bp) ;;
            bzero dev (b + bi) ;;
            mret (b + bi)
        | None => disk (brelse bp) ;; balloc_loop f dev (b + BPB)
        end
  end.

(** One pass per map block, and one for the test that ends the loop. *)
Definition balloc (dev : Z) : MF Z :=
  sb ← gets f_sb ; balloc_loop (Datatypes.S (Datatypes.S (Z.to_nat (sb_size sb / BPB)))) dev 0.

Definition read_sb (dev : Z) : MF unit :=
  sb ← disk (readsb dev) ; modify (fun s => FState (f_log s) sb (icache s)).

Definition bfree (dev b : Z) : MF unit :=
  read_sb dev ;;
  sb ← gets f_sb ;
  bp ← disk (bread dev (BBLOCK b sb)) ;
  x ← data_of bp ;
  let bi := b mod BPB in
  if negb (bit_used x bi) then panic "freeing free block"
  else
    disk (buf_set bp (clear_bit x bi)) ;;
    in_log_ (log_write bp) ;;
    disk (brelse bp).

Fixpoint iinit_loop (n i : nat) : MF unit :=
  match n with
  | O => mret tt
  | Datatypes.S n' => upd_inode i (set_ilock Sleep.initsleeplock) ;; iinit_loop n' (Datatypes.S i)
  end.
Definition iinit (dev : Z) : MF unit := iinit_loop NINODE 0 ;; read_sb dev.

(** The search of [iget]: a cached entry, or else the first empty one. *)
Fixpoint iget_scan (n i : nat) (c : nat -> inode) (dev inum : Z) (empty : option nat) : nat + option nat :=
  match n with
  | O => inr empty
  | Datatypes.S n' =>
      if (0 <? i_ref (c i)) && (i_dev (c i) =? dev) && (i_inum (c i) =? inum) then inl i
      else
        let empty' := match empty with
                      | None => if i_ref (c i) =? 0 then Some i else None
                      | Some e => Some e
                      end in
        iget_scan n' (Datatypes.S i) c dev inum empty'
  end.

Definition iget (dev inum : Z) : MF nat :=
  c ← gets icache ;
  match iget_scan NINODE 0 c dev inum None with
  | inl i => upd_inode i (fun x => set_ref (i_ref x + 1) x) ;; mret i
  | inr None => panic "iget: no inodes"
  | inr (Some i) =>
      upd_inode i (fun x => Inode dev inum 1 (i_lock x) false (i_type x) (i_major x) (i_minor x) (i_nlink x)
        (i_size x) (i_addrs x)) ;;
      mret i
  end.

Definition idup (ip : nat) : MF nat := upd_inode ip (fun x => set_ref (i_ref x + 1) x) ;; mret ip.

Fixpoint ialloc_loop (fuel : nat) (dev inum ty : Z) : MF nat :=
  match fuel with
  | O => panic "ialloc: no inodes"
  | Datatypes.S f =>
      sb ← gets f_sb ;
      if negb (inum <? sb_ninodes sb) then panic "ialloc: no inodes"
      else
        bp ← disk (bread dev (IBLOCK inum sb)) ;
        x ← data_of bp ;
        if get16 x (din_off inum) =? 0 then
          disk (buf_set bp (put16 (clear_dinode x inum) (din_off inum) ty)) ;;
          in_log_ (log_write bp) ;;
          disk (brelse bp) ;;
          iget dev inum
        else disk (brelse bp) ;; ialloc_loop f dev (inum + 1) ty
  end.
Definition ialloc (dev ty : Z) : MF nat :=
  sb ← gets f_sb ; ialloc_loop (Datatypes.S (Z.to_nat (sb_ninodes sb))) dev 1 ty.

Definition iupdate (ip : nat) : MF unit :=
  x ← the_inode ip ;
  sb ← gets f_sb ;
  bp ← disk (bread (i_dev x) (IBLOCK (i_inum x) sb)) ;
  y ← data_of bp ;
  disk (buf_set bp (put_dinode y x)) ;;
  in_log_ (log_write bp) ;;
  disk (brelse bp).

Definition lock_inode (ip : nat) : MF unit := fun s =>
  match Sleep.acquiresleep (Z.of_nat ip) curpid (i_lock (icache s ip)) with
  | Ok _ l => upd_inode ip (set_ilock l) s
  | Panicked msg => Panicked msg
  | Slept c _ => Slept c s
  end.
Definition unlock_inode (ip : nat) : MF unit := fun s =>
  match Sleep.releasesleep (Z.of_nat ip) (i_lock (icache s ip)) with
  | Ok _ l => upd_inode ip (set_ilock l) s
  | Panicked msg => Panicked msg
  | Slept c _ => Slept c s
  end.

Definition ilock (ip : nat) : MF unit :=
  x ← the_inode ip ;
  if i_ref x <? 1 then panic "ilock"
  else
    lock_inode ip ;;
    x ← the_inode ip ;
    if i_valid x then mret tt
    else
      sb ← gets f_sb ;
      bp ← disk (bread (i_dev x) (IBLOCK (i_inum x) sb)) ;
      y ← data_of bp ;
      upd_inode ip (get_dinode y) ;;
      disk (brelse bp) ;;
      upd_inode ip (set_valid true) ;;
      x ← the_inode ip ;
      if i_type x =? 0 then panic "ilock: no type" else mret tt.

Definition iunlock (ip : nat) : MF unit :=
  x ← the_inode ip ;
  if negb (Sleep.holdingsleep (i_lock x)) || (i_ref x <? 1) then panic "iunlock"
  else unlock_inode ip.

Definition bmap (ip : nat) (bn : Z) : MF Z :=
  x ← the_inode ip ;
  if bn <? Z.of_nat NDIRECT then
    let addr := i_addrs x !!! Z.to_nat bn in
    if addr =? 0 then
      b ← balloc (i_dev x) ; upd_inode ip (set_addr (Z.to_nat bn) b) ;; mret b
    else mret addr
  else
    let bn := bn - Z.of_nat NDIRECT in
    if bn <? NINDIRECT then
      addr ← (let addr := i_addrs x !!! NDIRECT in
              if addr =? 0 then
                b ← balloc (i_dev x) ; upd_inode ip (set_addr NDIRECT b) ;; mret b
              else mret addr) ;
      bp ← disk (bread (i_dev x) addr) ;
      a ← data_of bp ;
      let addr := get32 a (4 * Z.to_nat bn) in
      r ← (if addr =? 0 then
             b ← balloc (i_dev x) ;
             a ← data_of bp ;
             disk (buf_set bp (put32 a (4 * Z.to_nat bn) b)) ;;
             in_log_ (log_write bp) ;;
             mret b
           else mret addr) ;
      disk (brelse bp) ;;
      mret r
    else panic "bmap: out of range".

(** The direct blocks of [itrunc], [n] of them from [i]. *)
Fixpoint free_direct (n i ip : nat) : MF unit :=
  match n with
  | O => mret tt
  | Datatypes.S n' =>
      x ← the_inode ip ;
      (let a := i_addrs x !!! i in
       if a =? 0 then mret tt else bfree (i_dev x) a ;; upd_inode ip (set_addr i 0)) ;;
      free_direct n' (Datatypes.S i) ip
  end.

(** The entries of the indirect block held in buffer [bp], [n] of them from [j]. *)
Fixpoint free_indirect (n j : nat) (dev : Z) (bp : nat) : MF unit :=
  match n with
  | O => mret tt
  | Datatypes.S n' =>
      a ← data_of bp ;
      (let b := get32 a (4 * j) in if b =? 0 then mret tt else bfree dev b) ;;
      free_indirect n' (Datatypes.S j) dev bp
  end.

Definition itrunc (ip : nat) : MF unit :=
  free_direct NDIRECT 0 ip ;;
  x ← the_inode ip ;
  (let a := i_addrs x !!! NDIRECT in
   if a =? 0 then mret tt
   else
     bp ← disk (bread (i_dev x) a) ;
     free_indirect (Z.to_nat NINDIRECT) 0 (i_dev x) bp ;;
     disk (brelse bp) ;;
     bfree (i_dev x) a ;;
     upd_inode ip (set_addr NDIRECT 0)) ;;
  upd_inode ip (set_size 0) ;;
  iupdate ip.

Definition iput (ip : nat) : MF unit :=
  lock_inode ip ;;
  x ← the_inode ip ;
  (if i_valid x && (i_nlink x =? 0) then
     if i_ref x =? 1 then
       itrunc ip ;; upd_inode ip (set_type 0) ;; iupdate ip ;; upd_inode ip (set_valid false)
     else mret tt
   else mret tt) ;;
  unlock_inode ip ;;
  upd_inode ip (fun x => set_ref (i_ref x - 1) x).

Definition iunlockput (ip : nat) : MF unit := iunlock ip ;; iput ip.

(** [stati]: dev, ino, type, nlink, size. *)
Definition stati (ip : nat) : MF (Z * Z * Z * Z * Z) :=
  x ← the_inode ip ; mret (i_dev x, i_inum x, i_type x, i_nlink x, i_size x).

Fixpoint readi_loop (fuel : nat) (ip : nat) (off tot n : Z) (acc : list Z) : MF (list Z) :=
  match fuel with
  | O => panic "out of fuel"
  | Datatypes.S f =>
      if negb (tot <? n) then mret acc
      else
        b ← bmap ip (off / BSIZE) ;
        x ← the_inode ip ;
        bp ← disk (bread (i_dev x) b) ;
        let m := Z.min (n - tot) (BSIZE - off mod BSIZE) in
        d ← data_of bp ;
        disk (brelse bp) ;;
        readi_loop f ip (off + m) (tot + m) n (acc ++ take (Z.to_nat m) (drop (Z.to_nat (off mod BSIZE)) d))
  end.

(** Blocks touched by [n] bytes at any offset, and the test that ends the loop. *)
Definition io_fuel (n : Z) : nat := Datatypes.S (Datatypes.S (Datatypes.S (Z.to_nat (n / BSIZE)))).

Definition readi (ip : nat) (off n : Z) : MF (Z * list Z) :=
  x ← the_inode ip ;
  if i_type x =? T_DEV then
    if (i_major x <? 0) || (NDEV <=? i_major x) then mret (-1, [])
    else match devread (i_major x) with None => mret (-1, []) | Some f => f ip n end
  else if (i_size x <? off) || (off +u n <? off) then mret (-1, [])
  else
    let n := if i_size x <? off +u n then i_size x -u off else n in
    d ← readi_loop (io_fuel n) ip off 0 n [] ;
    mret (n, d).

(** The bytes [src] stored at offset [o] of a block. *)
Definition splice (d : block) (o : nat) (src : list Z) : block :=
  take o d ++ src ++ drop (o + length src) d.

Fixpoint writei_loop (fuel : nat) (ip : nat) (off tot n : Z) (src : list Z) : MF Z :=
  match fuel with
  | O => panic "out of fuel"
  | Datatypes.S f =>
      if negb (tot <? n) then mret off
      else
        b ← bmap ip (off / BSIZE) ;
        x ← the_inode ip ;
        bp ← disk (bread (i_dev x) b) ;
        let m := Z.min (n - tot) (BSIZE - off mod BSIZE) in
        d ← data_of bp ;
        disk (buf_set bp (splice d (Z.to_nat (off mod BSIZE)) (take (Z.to_nat m) src))) ;;
        in_log_ (log_write bp) ;;
        disk (brelse bp) ;;
        writei_loop f ip (off + m) (tot + m) n (drop (Z.to_nat m) src)
  end.

Definition writei (ip : nat) (src : list Z) (off n : Z) : MF Z :=
  x ← the_inode ip ;
  if i_type x =? T_DEV then
    if (i_major x <? 0) || (NDEV <=? i_major x) then mret (-1)
    else match devwrite (i_major x) with None => mret (-1) | Some f => f ip src n end
  else if (i_size x <? off) || (off +u n <? off) then mret (-1)
  else if MAXFILE * BSIZE <? off +u n then mret (-1)
  else
    off' ← writei_loop (io_fuel n) ip off 0 n src ;
    x ← the_inode ip ;
    (if (0 <? n) && (i_size x <? off') then upd_inode ip (set_size off') ;; iupdate ip else mret tt) ;;
    mret n.

(** A directory entry: its inode number and its 14 bytes of name. *)
Definition de_inum (d : list Z) : Z := get16 d 0.
Definition de_name (d : list Z) : list Z := drop 2 d.
Definition dirent (inum : Z) (name : list Z) : list Z :=
  [u16 inum mod 256; u16 inum / 256] ++ strncpy_l DIRSIZ name.

(** The loop of [dirlookup]: the entry found and its offset. *)
Fixpoint dirlookup_loop (fuel : nat) (dp : nat) (name : list Z) (off : Z) : MF (option (Z * Z)) :=
  match fuel with
  | O => panic "out of fuel"
  | Datatypes.S f =>
      x ← the_inode dp ;
      if negb (off <? i_size x) then mret None
      else
        r ← readi dp off DIRENT_SIZE ;
        if negb (r.1 =? DIRENT_SIZE) then panic "dirlookup read"
        else if de_inum r.2 =? 0 then dirlookup_loop f dp name (off + DIRENT_SIZE)
        else if namecmp name (de_name r.2) =? 0 then mret (Some (off, de_inum r.2))
        else dirlookup_loop f dp name (off + DIRENT_SIZE)
  end.

Definition dir_fuel (n : Z) : nat := Datatypes.S (Datatypes.S (Z.to_nat (n / DIRENT_SIZE))).

(** The inode found and the offset of its entry. *)
Definition dirlookup (dp : nat) (name : list Z) : MF (option (nat * Z)) :=
  x ← the_inode dp ;
  if negb (i_type x =? T_DIR) then panic "dirlookup not DIR"
  else
    o ← dirlookup_loop (dir_fuel (i_size x)) dp name 0 ;
    match o with
    | None => mret None
    | Some (off, inum) => ip ← iget (i_dev x) inum ; mret (Some (ip, off))
    end.

(** The search of [dirlink] for an empty entry: its offset, or the size of the directory. *)
Fixpoint dirlink_loop (fuel : nat) (dp : nat) (off : Z) : MF Z :=
  match fuel with
  | O => panic "out of fuel"
  | Datatypes.S f =>
      x ← the_inode dp ;
      if negb (off <? i_size x) then mret off
      else
        r ← readi dp off DIRENT_SIZE ;
        if negb (r.1 =? DIRENT_SIZE) then panic "dirlink read"
        else if de_inum r.2 =? 0 then mret off
        else dirlink_loop f dp (off + DIRENT_SIZE)
  end.

Definition dirlink (dp : nat) (name : list Z) (inum : Z) : MF Z :=
  o ← dirlookup dp name ;
  match o with
  | Some (ip, _) => iput ip ;; mret (-1)
  | None =>
      x ← the_inode dp ;
      off ← dirlink_loop (dir_fuel (i_size x)) dp 0 ;
      r ← writei dp (dirent inum name) off DIRENT_SIZE ;
      if negb (r =? DIRENT_SIZE) then panic "dirlink" else mret 0
  end.

(** The loop of [namex] from inode [ip]; the result carries the last name copied. *)
Fixpoint namex_loop (fuel : nat) (path name : list Z) (parent : bool) (ip : nat) : MF (option nat * list Z) :=
  match fuel with
  | O => panic "out of fuel"
  | Datatypes.S f =>
      match skipelem path with
      | None => if parent then iput ip ;; mret (None, name) else mret (Some ip, name)
      | Some (path', name') =>
          ilock ip ;;
          x ← the_inode ip ;
          if negb (i_type x =? T_DIR) then iunlockput ip ;; mret (None, name')
          else if parent && match path' with [] => true | _ => false end then
            iunlock ip ;; mret (Some ip, name')
          else
            o ← dirlookup ip name' ;
            match o with
            | None => iunlockput ip ;; mret (None, name')
            | Some (next, _) => iunlockput ip ;; namex_loop f path' name' parent next
            end
      end
  end.

(** Each pass consumes at least one byte of the path. *)
Definition namex (path : list Z) (parent : bool) : MF (option nat * list Z) :=
  ip ← (if bool_decide (head path = Some slash) then iget ROOTDEV ROOTINO else idup curcwd) ;
  namex_loop (Datatypes.S (length path)) path [] parent ip.

Definition namei (path : list Z) : MF (option nat) := r ← namex path false ; mret r.1.
Definition nameiparent (path : list Z) : MF (option nat * list Z) := namex path true.
End code.
