(* ===== verification/FsSys.v ===== *)
(** * Theorems about fs.c

    Path elements, the layout of inodes on disk, the free map and the inode cache. *)
From S2P Require Import Prelude Lock Ide BlockStore Bytes Log LogSys Fs.
#[local] Open Scope Z_scope.

(** ** Paths *)

(** The text between slashes, empty pieces included. *)
Fixpoint pieces (path cur : list Z) : list (list Z) :=
  match path with
  | [] => [cur]
  | c :: p => if c =? slash then cur :: pieces p [] else pieces p (cur ++ [c])
  end.
Definition nonempty (l : list Z) : bool := match l with [] => false | _ => true end.
Definition elements (path : list Z) : list (list Z) := List.filter nonempty (pieces path []).

(** The names [namex] sees: [skipelem] until it gives nothing. *)
Fixpoint walk_elems (fuel : nat) (path : list Z) : list (list Z) :=
  match fuel with
  | O => []
  | S f => match skipelem path with
           | None => []
           | Some (path', name) => name :: walk_elems f path'
           end
  end.

Lemma pieces_skip path : List.filter nonempty (pieces path []) = List.filter nonempty (pieces (skip_slashes path) []).
Proof. induction path as [|c p IH]; simpl; [done |]. destruct (c =? slash) eqn:E; simpl; rewrite ?E; done. Qed.

Lemma pieces_elem path cur :
  pieces path cur = match drop (elem_len path) path with
                    | [] => [cur ++ path]
                    | _ :: p => (cur ++ take (elem_len path) path) :: pieces p []
                    end.
Proof.
  revert cur. induction path as [|c p IH]; intros cur; simpl; [by rewrite app_nil_r |].
  destruct (c =? slash) eqn:E; simpl; [by rewrite app_nil_r |]. rewrite IH.
  destruct (drop (elem_len p) p); by rewrite <- !app_assoc.
Qed.

Lemma elem_len_pos path c p : path = c :: p -> c <> slash -> (0 < elem_len path)%nat.
Proof. intros -> Hc. simpl. rewrite (proj2 (Z.eqb_neq _ _)) by done. simpl. lia. Qed.

Lemma skip_slashes_head path : match skip_slashes path with [] => True | c :: _ => c <> slash end.
Proof. induction path as [|c p IH]; simpl; [done |]. destruct (Z.eqb_spec c slash); [done | done]. Qed.

Lemma skip_slashes_length path : (length (skip_slashes path) <= length path)%nat.
Proof. induction path as [|c p IH]; simpl; [done |]. destruct (c =? slash); simpl; lia. Qed.

Lemma drop_elem_slash path c p : drop (elem_len path) path = c :: p -> c = slash.
Proof.
  induction path as [|a q IH]; simpl; [done |]. destruct (Z.eqb_spec a slash) as [E | E]; simpl; [| exact IH].
  intros [= <- _]. done.
Qed.

Lemma take_elem_all path : drop (elem_len path) path = [] -> take (elem_len path) path = path.
Proof. intros Hd. rewrite <- (take_drop (elem_len path) path) at 3. by rewrite Hd, app_nil_r. Qed.

(** One step of [skipelem] takes the first element off the path. *)
Lemma skipelem_elements path :
  match skipelem path with
  | None => elements path = []
  | Some (path', name) => exists e es, elements path = e :: es /\ name = take DIRSIZ e /\
      elements path' = es /\ (length path' < length path)%nat
  end.
Proof.
  unfold skipelem, elements. rewrite (pieces_skip path). pose proof (skip_slashes_length path) as Hlen.
  pose proof (skip_slashes_head path) as Hh. destruct (skip_slashes path) as [|c p] eqn:Hp; [done |].
  pose proof (elem_len_pos (c :: p) c p eq_refl Hh) as Hpos. set (q := c :: p) in *.
  assert (Hne : nonempty (take (elem_len q) q) = true).
  { unfold q in *. destruct (elem_len (c :: p)); [lia | done]. }
  exists (take (elem_len q) q), (List.filter nonempty (pieces (skip_slashes (drop (elem_len q) q)) [])).
  split_and!.
  - rewrite pieces_elem, !app_nil_l. destruct (drop (elem_len q) q) as [|d r] eqn:Hd.
    + pose proof (take_elem_all q Hd) as Hq. rewrite Hq in *. cbn [List.filter]. by rewrite Hne.
    + pose proof (drop_elem_slash q d r Hd) as ->. cbn [List.filter]. rewrite Hne. f_equal.
      simpl. by rewrite pieces_skip.
  - destruct (Nat.leb_spec DIRSIZ (elem_len q)).
    + rewrite take_take. f_equal. lia.
    + rewrite take_take. f_equal. lia.
  - done.
  - eapply Nat.le_lt_trans; [apply skip_slashes_length |]. rewrite length_drop. unfold q in *. simpl in *. lia.
Qed.

(** Path lookup sees the elements of the path.  Repeated [skipelem] gives exactly the nonempty
    pieces of the path between slashes, in order, each cut to DIRSIZ bytes, whatever slashes are
    leading, repeated or trailing; the loop ends within the length of the path plus one. *)
Theorem skipelem_splits_path (path : list Z) :
  walk_elems (S (length path)) path = take DIRSIZ <$> elements path.
Proof.
  assert (Hgen : forall fuel p, (length p < fuel)%nat -> walk_elems fuel p = take DIRSIZ <$> elements p).
  { induction fuel as [|f IH]; intros p Hf; [lia |]. simpl. pose proof (skipelem_elements p) as Hs.
    destruct (skipelem p) as [[p' name]|]; [| by rewrite Hs].
    destruct Hs as (e & es & -> & -> & <- & Hlt). simpl. f_equal. apply IH. lia. }
  apply Hgen. lia.
Qed.

(** ** Inodes on disk *)

Lemma din_off_eq inum : 0 <= inum -> exists k, (k < 8)%nat /\ din_off inum = (64 * k)%nat.
Proof.
  intros Hi. exists (Z.to_nat (inum mod 8)). unfold din_off, IPB, DINODE_SIZE, BSIZE. change (512 / 64) with 8.
  split; Z.to_euclidean_division_equations; lia.
Qed.

Lemma put_addrs_spec a : forall x inum k,
  (addr_off inum (k + length a) <= length x)%nat ->
  length (put_addrs x inum k a) = length x /\
  (forall o, (o + 4 <= addr_off inum k \/ addr_off inum (k + length a) <= o)%nat ->
     get32 (put_addrs x inum k a) o = get32 x o) /\
  (forall o, (o + 2 <= addr_off inum k \/ addr_off inum (k + length a) <= o)%nat ->
     get16 (put_addrs x inum k a) o = get16 x o) /\
  (forall j b, a !! j = Some b -> get32 (put_addrs x inum k a) (addr_off inum (k + j)) = u32 b).
Proof.
  induction a as [|b a IH]; intros x inum k Hl; simpl in *; [split_and!; done |].
  destruct (IH (put32 x (addr_off inum k) b) inum (S k)) as (H1 & H2 & H3 & H4).
  { rewrite length_put32. unfold addr_off in *. lia. }
  unfold addr_off in *. rewrite length_put32 in H1. split_and!; [done | | |].
  - intros o Ho. rewrite H2 by lia. apply get32_put32_other; lia.
  - intros o Ho. rewrite H3 by lia. apply get16_put32_other; lia.
  - intros j b' Hj. destruct j as [|j]; simpl in Hj.
    + injection Hj as ->. rewrite Nat.add_0_r. rewrite H2 by lia. apply get32_put32. lia.
    + replace (k + S j)%nat with (S k + j)%nat by lia. by apply H4.
Qed.

(** The values an inode's fields can have. *)
Record inode_ok (x : inode) : Prop := {
  io_num : 0 <= i_inum x;
  io_short : forall v, v ∈ [i_type x; i_major x; i_minor x; i_nlink x] -> - 2 ^ 15 <= v < 2 ^ 15;
  io_size : 0 <= i_size x < 2 ^ 32;
  io_addrs : length (i_addrs x) = S NDIRECT /\ forall b, b ∈ i_addrs x -> 0 <= b < 2 ^ 32
}.

Lemma s16_u16 v : - 2 ^ 15 <= v < 2 ^ 15 -> s16 (u16 v) = v.
Proof. intros H. unfold s16. cbv zeta. word. Qed.

(** Reads a field through the stores of other fields. *)
Ltac others :=
  rewrite ?get16_put32_other, ?get32_put32_other, ?get16_put16_other, ?get32_put16_other
    by (rewrite ?length_put32, ?length_put16; lia).

(** The fields of an inode, as [put_dinode] leaves them in a block. *)
Lemma put_dinode_fields x ip :
  length x = 512%nat -> inode_ok ip ->
  let o := din_off (i_inum ip) in
  let y := put_dinode x ip in
  length y = 512%nat /\ get16 y o = u16 (i_type ip) /\ get16 y (o + 2) = u16 (i_major ip) /\
  get16 y (o + 4) = u16 (i_minor ip) /\ get16 y (o + 6) = u16 (i_nlink ip) /\ get32 y (o + 8) = i_size ip /\
  (forall j b, i_addrs ip !! j = Some b -> get32 y (addr_off (i_inum ip) j) = u32 b) /\
  (forall i, (i + 2 <= o \/ o + 64 <= i)%nat -> get16 y i = get16 x i) /\
  (forall i, (i + 4 <= o \/ o + 64 <= i)%nat -> get32 y i = get32 x i).
Proof.
  intros Hx [H1 H2 H3 [H4 H5]] o y. destruct (din_off_eq _ H1) as (k & Hk & Ho). fold o in Ho.
  unfold y, put_dinode. fold o. cbv zeta.
  set (x1 := put16 x o _). set (x2 := put16 x1 _ _). set (x3 := put16 x2 _ _). set (x4 := put16 x3 _ _).
  set (x5 := put32 x4 _ _).
  assert (L1 : length x1 = 512%nat) by (unfold x1; by rewrite length_put16).
  assert (L2 : length x2 = 512%nat) by (unfold x2; by rewrite length_put16).
  assert (L3 : length x3 = 512%nat) by (unfold x3; by rewrite length_put16).
  assert (L4 : length x4 = 512%nat) by (unfold x4; by rewrite length_put16).
  assert (L5 : length x5 = 512%nat) by (unfold x5; by rewrite length_put32).
  destruct (put_addrs_spec (i_addrs ip) x5 (i_inum ip) 0) as (A1 & A2 & A3 & A4).
  { unfold addr_off. fold o. rewrite H4, L5. unfold NDIRECT. lia. }
  unfold addr_off in A2, A3. fold o in A2, A3. rewrite H4 in A2, A3. unfold NDIRECT in A2, A3.
  split_and!; [by rewrite A1 | ..].
  - rewrite A3 by lia. unfold x5, x4, x3, x2. others. apply get16_put16. lia.
  - rewrite A3 by lia. unfold x5, x4, x3. others. apply get16_put16. lia.
  - rewrite A3 by lia. unfold x5, x4. others. apply get16_put16. lia.
  - rewrite A3 by lia. unfold x5. others. apply get16_put16. lia.
  - rewrite A2 by lia. unfold x5. rewrite get32_put32 by lia. by apply u32_small.
  - exact A4.
  - intros i Hi. rewrite A3 by lia. unfold x5, x4, x3, x2, x1. by others.
  - intros i Hi. rewrite A2 by lia. unfold x5, x4, x3, x2, x1. by others.
Qed.

Lemma list_fields {A : Type} (l : list A) n (f : nat -> A) :
  length l = n -> (forall j b, l !! j = Some b -> f j = b) -> f <$> seq 0 n = l.
Proof.
  intros Hn Hf. apply list_eq. intros i. rewrite list_lookup_fmap. destruct (l !! i) as [b|] eqn:E.
  - rewrite lookup_seq_lt by (apply lookup_lt_Some in E; lia). simpl. by rewrite (Hf _ _ E).
  - rewrite lookup_seq_ge by (apply lookup_ge_None in E; lia). done.
Qed.

Lemma din_off_ne i j : 0 <= i -> 0 <= j -> i mod IPB <> j mod IPB ->
  (din_off i + 64 <= din_off j \/ din_off j + 64 <= din_off i)%nat.
Proof.
  intros Hi Hj. unfold din_off, IPB, DINODE_SIZE, BSIZE. change (512 / 64) with 8.
  Z.to_euclidean_division_equations; lia.
Qed.

(** The cache entry [q] filled with the fields of [ip] that are kept on disk. *)
Definition with_fields (q ip : inode) : inode :=
  Inode (i_dev q) (i_inum q) (i_ref q) (i_lock q) (i_valid q) (i_type ip) (i_major ip) (i_minor ip)
    (i_nlink ip) (i_size ip) (i_addrs ip).

(** What [get_dinode] loads after [put_dinode]. *)
Lemma dinode_roundtrip (x : block) (ip q : inode) :
  length x = 512%nat -> inode_ok ip -> 0 <= i_inum q ->
  get_dinode (put_dinode x ip) q =
    if decide (i_inum q mod IPB = i_inum ip mod IPB) then with_fields q ip else get_dinode x q.
Proof.
  intros Hx Hok Hq. pose proof Hok as [H1 H2 H3 [H4 H5]].
  destruct (put_dinode_fields x ip Hx Hok) as (P1 & P2 & P3 & P4 & P5 & P6 & P7 & P8 & P9).
  case_decide as E.
  - assert (Eo : din_off (i_inum q) = din_off (i_inum ip)) by (unfold din_off; by rewrite E).
    unfold get_dinode, with_fields. rewrite Eo, P2, P3, P4, P5, P6, !s16_u16 by (apply H2; set_solver).
    f_equal. apply (list_fields _ _ (fun k => get32 _ (addr_off _ k))); [exact H4 |]. intros j b Hj.
    assert (Ea : addr_off (i_inum q) j = addr_off (i_inum ip) j) by (unfold addr_off; by rewrite Eo).
    rewrite Ea, (P7 _ _ Hj). apply u32_small, H5. by eapply list_elem_of_lookup_2.
  - pose proof (din_off_ne _ _ Hq H1 E) as Ho. unfold get_dinode. rewrite !P8, P9 by lia. f_equal.
    apply list_fmap_ext. intros i k [-> Hk]%lookup_seq. unfold NDIRECT in Hk. apply P9. unfold addr_off. lia.
Qed.

(** Inodes survive on disk.  In a block of inodes into which [iupdate] stored inode [ip], the
    fields [ilock] loads for that inode are the ones that were stored, type, device numbers, link
    count, size and all thirteen block addresses, and every other inode of the block loads as it did
    before: the eight inodes packed in the block do not overlap. *)
Theorem inode_roundtrip (x : block) (ip q : inode) :
  length x = 512%nat -> inode_ok ip -> 0 <= i_inum q ->
  get_dinode (put_dinode x ip) q =
    if decide (i_inum q mod IPB = i_inum ip mod IPB) then with_fields q ip else get_dinode x q.
Proof. apply dinode_roundtrip. Qed.

Lemma inode_roundtrip_witness :
  let ip := Inode 1 13 1 Sleep.initsleeplock true 1 0 0 2 600 ([60; 61] ++ replicate 11 0) in
  let q := Inode 1 13 1 Sleep.initsleeplock false 0 0 0 0 0 [] in
  get_dinode (put_dinode (replicate 512 9) ip) q = with_fields q ip.
Proof.
  intros ip q. refine (eq_trans (inode_roundtrip (replicate 512 9) ip q _ _ _) _).
  - reflexivity.
  - split; simpl; [lia | | lia |].
    + intros v Hv. repeat (apply elem_of_cons in Hv as [-> | Hv]; [lia |]). by apply not_elem_of_nil in Hv.
    + split; [reflexivity |]. intros b Hb. repeat (apply elem_of_cons in Hb as [-> | Hb]; [lia |]).
      by apply not_elem_of_nil in Hb.
  - simpl. lia.
  - reflexivity.
Defined.

(** ** The inode cache *)

(** At most one entry per inode, and no negative reference counts. *)
Record icache_ok (c : nat -> inode) : Prop := {
  ic_ref : forall i, (i < NINODE)%nat -> 0 <= i_ref (c i);
  ic_uniq : forall i j, (i < NINODE)%nat -> (j < NINODE)%nat -> 0 < i_ref (c i) -> 0 < i_ref (c j) ->
      i_dev (c i) = i_dev (c j) -> i_inum (c i) = i_inum (c j) -> i = j
}.

Lemma iget_scan_spec n i c dev inum empty :
  match iget_scan n i c dev inum empty with
  | inl k => (i <= k < i + n)%nat /\ 0 < i_ref (c k) /\ i_dev (c k) = dev /\ i_inum (c k) = inum
  | inr r => (forall k, (i <= k < i + n)%nat -> ~ (0 < i_ref (c k) /\ i_dev (c k) = dev /\ i_inum (c k) = inum)) /\
      match empty with
      | Some e => r = Some e
      | None => match r with
                | Some k => (i <= k < i + n)%nat /\ i_ref (c k) = 0
                | None => forall k, (i <= k < i + n)%nat -> i_ref (c k) <> 0
                end
      end
  end.
Proof.
  revert i empty. induction n as [|n IH]; intros i empty; simpl.
  { split; [lia |]. destruct empty; [done | lia]. }
  destruct ((0 <? i_ref (c i)) && (i_dev (c i) =? dev) && (i_inum (c i) =? inum)) eqn:E.
  { reflect_bool. split_and!; [lia | lia | done | done | done]. }
  assert (Hne : ~ (0 < i_ref (c i) /\ i_dev (c i) = dev /\ i_inum (c i) = inum)).
  { intros (A & B & C). apply Z.ltb_lt in A. apply Z.eqb_eq in B, C. by rewrite A, B, C in E. }
  set (e' := match empty with Some e => Some e | None => _ end). specialize (IH (Datatypes.S i) e').
  destruct (iget_scan _ _ _ _ _ _) as [k | r].
  - destruct IH as [? IH]. split; [lia | done].
  - destruct IH as [I1 I2]. split.
    + intros k Hk. destruct (decide (k = i)) as [-> | ?]; [done | apply I1; lia].
    + unfold e' in I2. destruct empty as [e|]; [done |]. zcase (i_ref (c i) =? 0).
      * subst r. split; [lia | done].
      * destruct r as [k|]; [destruct I2; split; [lia | done] |].
        intros k Hk. destruct (decide (k = i)) as [-> | ?]; [done | apply I2; lia].
Qed.

Lemma icache_ok_set c i x :
  icache_ok c -> (i < NINODE)%nat -> 0 <= i_ref x ->
  (0 < i_ref x -> forall j, (j < NINODE)%nat -> j <> i -> 0 < i_ref (c j) ->
     ~ (i_dev (c j) = i_dev x /\ i_inum (c j) = i_inum x)) ->
  icache_ok (fupd c i x).
Proof.
  intros [H1 H2] Hi Hr Hu. split.
  - intros j Hj. unfold fupd. case_decide; auto.
  - intros j k Hj Hk. unfold fupd. destruct (decide (j = i)) as [-> | Nj], (decide (k = i)) as [-> | Nk];
      intros Rj Rk E1 E2; [done | | | by apply H2].
    + by destruct (Hu Rj k Hk Nk Rk).
    + by destruct (Hu Rk j Hj Nj Rj).
Qed.

(** One cache entry per inode.  With at most one entry per inode in the cache, [iget] gives the
    entry that already stands for the inode, with its reference count raised and its contents kept,
    or else an entry that was free, now marked as not yet read; no other entry changes and there is
    still at most one entry per inode, so two processes working on an inode meet on one lock.  It
    panics exactly when the inode is not cached and all entries are in use. *)
Theorem iget_unique {St : Type} (dev inum : Z) (s : fstate St) :
  icache_ok (icache s) ->
  match iget dev inum s with
  | Ok i s' =>
      (i < NINODE)%nat /\ icache_ok (icache s') /\
      i_dev (icache s' i) = dev /\ i_inum (icache s' i) = inum /\
      (forall j, j <> i -> icache s' j = icache s j) /\
      ((0 < i_ref (icache s i) /\ icache s' i = set_ref (i_ref (icache s i) + 1) (icache s i)) \/
       (i_ref (icache s i) = 0 /\ i_ref (icache s' i) = 1 /\ i_valid (icache s' i) = false))
  | Panicked _ =>
      forall k, (k < NINODE)%nat -> 0 < i_ref (icache s k) /\ ~ (i_dev (icache s k) = dev /\ i_inum (icache s k) = inum)
  | Slept _ _ => False
  end.
Proof.
  intros Hok. unfold iget. erewrite bind_ok by reflexivity.
  pose proof (iget_scan_spec NINODE 0 (icache s) dev inum None) as Hs.
  destruct (iget_scan _ _ _ _ _ _) as [k | [k|]]; unfold upd_inode, the_inode, set_inode; run_m; cbn [icache].
  - destruct Hs as (Hk & Hr & Hd & Hn). rewrite !fupd_same.
    split_and!; [lia | | done | done | intros j Hj; by apply fupd_other | by left].
    apply icache_ok_set; [done | lia | simpl; lia |]. simpl. intros _ j Hj Hne Hrj [E1 E2].
    apply Hne. destruct Hok as [_ Hu]. apply Hu; [done | lia | done | lia | congruence | congruence].
  - destruct Hs as (Hnone & Hk & Hr). rewrite !fupd_same.
    split_and!; [lia | | done | done | intros j Hj; by apply fupd_other | by right].
    apply icache_ok_set; [done | lia | simpl; lia |]. simpl. intros _ j Hj Hne Hrj [E1 E2].
    by apply (Hnone j); [lia |].
  - destruct Hs as (Hnone & Hr). intros k Hk. pose proof (ic_ref _ Hok k Hk). specialize (Hr k ltac:(lia)).
    specialize (Hnone k ltac:(lia)). split; [lia |]. intros [E1 E2]. apply Hnone. split_and!; [lia | done | done].
Qed.

Definition cold_cache : nat -> inode := fun i =>
  Inode 0 0 (if (i =? 3)%nat then 2 else 0) Sleep.initsleeplock false 0 0 0 0 0 [].

Lemma iget_unique_witness :
  let s := FState (LState demo_log tt) (Super 0 0 0 0 0 0 0) cold_cache in
  match iget 1 7 s with Ok i s' => i = 0%nat /\ icache_ok (icache s') /\ i_inum (icache s' i) = 7 | _ => False end.
Proof.
  intros s. unfold s.
  assert (Hok : icache_ok cold_cache).
  { split; unfold cold_cache; simpl.
    - intros i _. destruct (i =? 3)%nat; lia.
    - intros i j _ _. destruct (Nat.eqb_spec i 3), (Nat.eqb_spec j 3); subst; try lia; done. }
  pose proof (iget_unique 1 7 (FState (LState demo_log tt) (Super 0 0 0 0 0 0 0) cold_cache) Hok) as T.
  destruct (iget 1 7 _) as [i s' | m | c s'] eqn:E.
  - destruct T as (_ & A & _ & B & _). injection E as <- _. done.
  - discriminate E.
  - destruct T.
Defined.
