(* ===== verification/FsTx.v ===== *)
(** * The file system inside a transaction

    fs.c changes the disk by reading a block, changing its bytes, logging it and releasing it.
    [ftx] describes a file-system state by what readers see: [D] gives the contents of the blocks
    outside the log, [Hd] the blocks whose buffers are held, and [r] how many blocks outside [C] the
    log has room for.  The lemmas here take the code from one such description to the next. *)
From S2P Require Import Prelude Lock Ide BlockStore Bytes Log LogSys Fs FsSys.
#[local] Open Scope Z_scope.

(** The view without its held blocks, which is what the log invariant speaks of. *)
Definition v_free (v : bview) : bview := BView (v_data v) (v_disk v) (v_dirty v) ∅ (v_writes v).

Lemma size_union_le (X Y : gset Z) : (size (X ∪ Y) <= size X + size Y)%nat.
Proof.
  rewrite size_union_alt. assert (size (Y ∖ X) <= size Y)%nat by (apply subseteq_size; set_solver). lia.
Qed.

Section tx.
Context {S : Type} `{BlockStoreLaws S}.
Implicit Types (s : fstate S).
Variable g : log.   (* the place of the log, which does not change *)

Definition lh_set (l : log) : gset Z := list_to_set (lh_list l).

Record ftx (wr : bool) (C : gset Z) (r : Z) (D : Z -> block) (Hd : gset Z) (s : fstate S) (v : bview) : Prop := {
  tx_abs : abs (store (f_log s)) v;
  tx_log : linv (lg (f_log s)) (v_free v);
  tx_geom : start (lg (f_log s)) = start g /\ lsize (lg (f_log s)) = lsize g;
  tx_held : v_held v = Hd;
  tx_data : forall b, ~ in_log g b -> v_data v b = D b;
  tx_clean : forall b, b ∈ Hd -> b ∈ v_dirty v \/ v_data v b = v_disk v b;
  tx_open : wr = true -> 1 <= outstanding (lg (f_log s));
  tx_room : Z.of_nat (size (lh_set (lg (f_log s)) ∪ C)) + r <= lsize g - 2;
  tx_r : 0 <= r;
  tx_calm : wr = true -> committing (lg (f_log s)) = false
}.

(** A block a file-system operation may use. *)
Definition usable (b : Z) : Prop := 0 <= b < FSSIZE /\ ~ in_log g b.

(** Buffer [i] holds block [b]. *)
Definition bufof (s : fstate S) (i : nat) (b : Z) : Prop := is_buf (store (f_log s)) i b.

(** What the disk operations leave alone. *)
Definition same_fs (s s' : fstate S) : Prop := f_sb s' = f_sb s /\ icache s' = icache s.

Lemma same_fs_trans s s1 s2 : same_fs s s1 -> same_fs s1 s2 -> same_fs s s2.
Proof. intros [A1 A2] [B1 B2]. split; congruence. Qed.

Lemma disk_ok {A} (m : M S A) s a t :
  m (store (f_log s)) = Ok a t ->
  disk m s = Ok a (FState (LState (lg (f_log s)) t) (f_sb s) (icache s)).
Proof. intros E. unfold disk, in_log_, on_st, zoom. by rewrite E. Qed.

Lemma lh_size l v : linv l v -> size (lh_set l) = Z.to_nat (lh_n l).
Proof. intros Hl. unfold lh_set. rewrite size_list_to_set by apply Hl. apply length_lh_list. Qed.

Lemma lh_bound wr C r D Hd s v :
  ftx wr C r D Hd s v -> lh_n (lg (f_log s)) + r <= lsize g - 2 /\ 0 <= lh_n (lg (f_log s)).
Proof.
  intros T. pose proof (lh_size _ _ (tx_log _ _ _ _ _ _ _ T)) as Hs. pose proof (tx_room _ _ _ _ _ _ _ T) as Hr.
  pose proof (li_n _ _ (tx_log _ _ _ _ _ _ _ T)) as Hn.
  assert (size (lh_set (lg (f_log s))) <= size (lh_set (lg (f_log s)) ∪ C))%nat by (apply subseteq_size; set_solver).
  lia.
Qed.

Lemma bread_tx wr C r D Hd s v b :
  ftx wr C r D Hd s v -> usable b -> b ∉ Hd -> (size Hd <= 1)%nat ->
  exists i s', disk (bread ROOTDEV b) s = Ok i s' /\ ftx wr C r D ({[b]} ∪ Hd) s' (v_hold b v) /\ bufof s' i b /\
    same_fs s s' /\ buf_data i (store (f_log s')) = D b /\
    (forall j c, c ∈ Hd -> bufof s j c -> bufof s' j c).
Proof.
  intros T [Hb Hlog] Hnb Hsz. pose proof T as [T1 T2 T3 T4 T5 T6 T7 T8 T9 T10]. destruct (lh_bound _ _ _ _ _ _ _ T) as [Hn1 Hn2].
  pose proof (gm_size _ (li_geom _ _ T2)) as Hg. destruct T3 as [G1 G2].
  assert (Hroom : (size (v_dirty v ∪ v_held v) < NBUF)%nat).
  { rewrite T4, (li_dirty _ _ T2 : v_dirty v = _). fold (lh_set (lg (f_log s))).
    pose proof (lh_size _ _ T2). pose proof (size_union_le (lh_set (lg (f_log s))) Hd). unfold NBUF in *. lia. }
  destruct (bread_law _ v b T1 Hb) as (i & t & E & A & B & K); [by rewrite T4 | by right |].
  exists i, (FState (LState (lg (f_log s)) t) (f_sb s) (icache s)). split_and!.
  - by apply disk_ok.
  - split; simpl; try done.
    + by rewrite T4.
    + intros c [->%elem_of_singleton | Hc]%elem_of_union; [| by apply T6].
      destruct (decide (b ∈ v_dirty v)); [by left | right]. apply (clean_law _ _ _ T1). rewrite T4. set_solver.
  - exact B.
  - done.
  - simpl. rewrite (data_law _ _ _ _ A B). simpl. by apply T5.
  - intros j c Hc. apply K. by rewrite T4.
Qed.

Lemma brelse_tx wr C r D Hd s v i b :
  ftx wr C r D Hd s v -> b ∈ Hd -> bufof s i b ->
  exists s', disk (brelse i) s = Ok tt s' /\ ftx wr C r D (Hd ∖ {[b]}) s' (v_drop b v) /\ same_fs s s' /\
    (forall j c, c <> b -> c ∈ Hd -> bufof s j c -> bufof s' j c).
Proof.
  intros T Hb Bf. pose proof T as [T1 T2 T3 T4 T5 T6 T7 T8 T9 T10].
  destruct (brelse_law _ v i b T1) as (t & E & A & K); [by rewrite T4 | done | by apply T6 |].
  exists (FState (LState (lg (f_log s)) t) (f_sb s) (icache s)). split_and!; [by apply disk_ok | | done |].
  - split; simpl; try done.
    + by rewrite T4.
    + intros c Hc. apply T6. set_solver.
  - intros j c Hne Hc. apply K; [done |]. by rewrite T4.
Qed.

(** The budget after a block is logged: a block of [C] is paid for. *)
Definition charge (b : Z) (C : gset Z) (r : Z) : Z := if decide (b ∈ C) then r else r - 1.

(** Stores into a held block, logged: readers see the new contents. *)
Lemma setlog_tx C r D Hd s v i b x :
  ftx true C r D Hd s v -> b ∈ Hd -> usable b -> bufof s i b -> b ∈ C \/ 1 <= r ->
  exists s', (forall A (k : M (fstate S) A), (disk (buf_set i x) ;; in_log_ (log_write i) ;; k) s = k s') /\
    ftx true ({[b]} ∪ C) (charge b C r) (bupd D b x) Hd s' (v_pin b (v_set b x v)) /\ same_fs s s' /\
    (forall j c, bufof s j c -> bufof s' j c).
Proof.
  intros T Hb [Hr Hlog] Bf Hc. pose proof T as [T1 T2 T3 T4 T5 T6 T7 T8 T9 T10].
  destruct (lh_bound _ _ _ _ _ _ _ T) as [Hn1 Hn2]. destruct T3 as [G1 G2].
  destruct (set_law _ v i b x T1) as (t1 & E1 & A1 & K1); [by rewrite T4 | done |].
  assert (Hlog' : ~ in_log (lg (f_log s)) b) by (unfold in_log in *; by rewrite G1, G2).
  pose proof (gm_size _ (li_geom _ _ T2)) as Hg. unfold NBUF in Hg.
  destruct (log_write_ok (lg (f_log s)) t1 _ i b A1) as [(t2 & E2 & A2 & K2 & P1 & P2 & P3) | (msg & E2 & P)];
    [simpl; by rewrite T4 | by apply K1 | | specialize (T7 eq_refl); unfold LOGSIZE, MAXOPBLOCKS in P; lia].
  set (l' := logged b (lg (f_log s))). exists (FState (LState l' t2) (f_sb s) (icache s)). split_and!.
  - intros A k. erewrite bind_ok by (apply disk_ok; exact E1).
    erewrite bind_ok; [reflexivity |]. unfold in_log_, zoom. simpl. by rewrite E2.
  - destruct (logged_fields b (lg (f_log s))) as (F1 & F2 & F3 & F4 & F5).
    pose proof (linv_logged (lg (f_log s)) (v_free v) b x T2 Hr Hlog' P1 P2) as L.
    split; simpl; try done.
    + fold l' in F1, F2. split; congruence.
    + intros c Hc'. unfold bupd. case_decide; [done | by apply T5].
    + intros c Hc'. unfold bupd. case_decide as E; [left; set_solver |].
      destruct (T6 c Hc') as [? | ?]; [left; set_solver | by right].
    + intros _. unfold l'. rewrite F4. by apply T7.
    + assert (Hset : lh_set l' = {[b]} ∪ lh_set (lg (f_log s))).
      { unfold lh_set, l'. pose proof (li_dirty _ _ L) as Hd'. simpl in Hd'. rewrite <- Hd'.
        pose proof (li_dirty _ _ T2) as Hd0. simpl in Hd0. by rewrite Hd0. }
      rewrite Hset. unfold charge. case_decide as E.
      * replace ({[b]} ∪ lh_set (lg (f_log s)) ∪ ({[b]} ∪ C)) with (lh_set (lg (f_log s)) ∪ C) by set_solver. done.
      * replace ({[b]} ∪ lh_set (lg (f_log s)) ∪ ({[b]} ∪ C)) with ({[b]} ∪ (lh_set (lg (f_log s)) ∪ C)) by set_solver.
        pose proof (size_union_le {[b]} (lh_set (lg (f_log s)) ∪ C)). rewrite size_singleton in *. lia.
    + unfold charge. case_decide; [done | destruct Hc; [done | lia]].
    + intros _. unfold l'. rewrite F5. by apply T10.
  - done.
  - intros j c Hj. apply K2. by apply K1.
Qed.

Lemma charge_le b C r : charge b C r <= r.
Proof. unfold charge. case_decide; lia. Qed.

(** A state described by [D] has the description up to the log blocks. *)
Lemma ftx_ext wr C r D D' Hd s v : (forall b, ~ in_log g b -> D b = D' b) -> ftx wr C r D Hd s v -> ftx wr C r D' Hd s v.
Proof. intros HD [T1 T2 T3 T4 T5 T6 T7 T8 T9 T10]. split; try done. intros b Hb. rewrite T5 by done. by apply HD. Qed.

Lemma ftx_icache wr C r D Hd s v c : ftx wr C r D Hd s v -> ftx wr C r D Hd (FState (f_log s) (f_sb s) c) v.
Proof. intros [T1 T2 T3 T4 T5 T6 T7 T8 T9 T10]. by split. Qed.

Lemma ftx_weaken wr C r r' D Hd s v : 0 <= r' <= r -> ftx wr C r D Hd s v -> ftx wr C r' D Hd s v.
Proof. intros Hr [T1 T2 T3 T4 T5 T6 T7 T8 T9 T10]. split; try done; lia. Qed.

(** ** Between operations *)

Record idle (D : Z -> block) (s : fstate S) (v : bview) : Prop := {
  id_abs : abs (store (f_log s)) v;
  id_log : linv (lg (f_log s)) v;
  id_geom : start (lg (f_log s)) = start g /\ lsize (lg (f_log s)) = lsize g;
  id_data : forall b, ~ in_log g b -> v_data v b = D b;
  id_calm : committing (lg (f_log s)) = false;
  id_out : 0 <= outstanding (lg (f_log s))
}.

(** [begin_op] does not have to wait. *)
Definition admits (s : fstate S) : Prop :=
  lh_n (lg (f_log s)) + (outstanding (lg (f_log s)) + 1) * MAXOPBLOCKS <= LOGSIZE.

Lemma begin_tx D s v :
  lsize g = LOGSIZE -> idle D s v -> admits s ->
  exists s', in_log_ begin_op s = Ok tt s' /\ ftx true ∅ 8 D ∅ s' v /\ same_fs s s'.
Proof.
  intros Hg [A L G Hd Hc Ho] Hr. unfold admits in Hr. unfold in_log_, zoom, begin_op. unfold mbind, M_bind, gets. rewrite Hc. cbv iota.
  rewrite (proj2 (Z.ltb_ge _ _)) by lia. eexists. split; [reflexivity |]. split; [| done].
  pose proof (li_n _ _ L) as Hn. split; cbn [f_log lg store]; try done.
  - pose proof (linv_set_out (outstanding (lg (f_log s)) + 1) _ _ L) as L'. destruct v. pose proof (li_held _ _ L) as E. simpl in E. by subst.
  - apply (li_held _ _ L).
  - intros _. simpl. lia.
  - rewrite union_empty_r_L. change (lh_set (set_out _ (lg (f_log s)))) with (lh_set (lg (f_log s))). rewrite (lh_size _ _ L).
    unfold LOGSIZE, MAXOPBLOCKS in *. lia.
Qed.

Lemma end_tx C r D s v :
  ftx true C r D ∅ s v ->
  exists s' v', in_log_ end_op s = Ok [ChLog] s' /\ idle D s' v' /\ same_fs s s'.
Proof.
  intros [T1 T2 T3 T4 T5 T6 T7 T8 T9 T10]. specialize (T7 eq_refl). specialize (T10 eq_refl).
  assert (Ev : v_free v = v) by (unfold v_free; rewrite <- T4; by destruct v). rewrite Ev in T2.
  unfold in_log_, zoom. destruct s as [[l st] sb ic]. cbn [f_log lg store f_sb icache] in *.
  pose proof (end_op_enter_ok l st T10) as Een. cbv zeta in Een. unfold end_op. destruct (Z.eqb_spec (outstanding l - 1) 0) as [E | E].
  - erewrite bind_ok by exact Een. set (l1 := set_committing true (set_out (outstanding l - 1) l)).
    destruct (commit_done l1 st v T1) as (s1 & v1 & E1 & A1 & L1 & D1); [by apply linv_set_committing, linv_set_out |].
    erewrite bind_ok by exact E1. erewrite bind_ok by reflexivity. cbn [lg store]. eexists _, v1. split; [reflexivity |]. split; [| done].
    split; cbn [f_log lg store]; try done; [by apply (linv_set_committing false) in L1 | | simpl; lia].
    intros b Hb. destruct (D1 b) as [-> _]; [| by apply T5]. destruct T3 as [G1 G2]. unfold in_log, l1. simpl. by rewrite G1, G2.
  - erewrite bind_ok by exact Een. eexists _, v. split; [reflexivity |]. split; [| done]. split; cbn [f_log lg store]; try done; [by apply linv_set_out | simpl; lia].
Qed.

End tx.
