(* ===== verification/FsFile.v ===== *)
(** * The contents of files

    A file is the bytes its block addresses lead to, with zeros where there is no block.  [bmap],
    [readi] and [writei] are followed through the descriptions of [FsTx]: the free map, the indirect
    block and the budget of the log included. *)
From S2P Require Import Prelude Lock Ide Bytes Bio BlockStore Log LogSys Fs FsSys FsTx.
#[local] Open Scope Z_scope.

(** ** The free map *)

Lemma bit_used_testbit x bi : 0 <= bi -> bit_used x bi = Z.testbit (getb x (Z.to_nat (bi / 8))) (bi mod 8).
Proof.
  intros Hb. unfold bit_used, bit_mask. set (v := getb x _). set (k := bi mod 8).
  assert (Hk : 0 <= k < 8) by (apply Z.mod_pos_bound; lia). rewrite Z.shiftl_1_l.
  destruct (Z.testbit v k) eqn:E.
  - apply negb_true_iff, Z.eqb_neq. intros E0. apply (f_equal (fun z => Z.testbit z k)) in E0.
    rewrite Z.land_spec, E, Z.pow2_bits_true, Z.bits_0 in E0 by lia. done.
  - apply negb_false_iff, Z.eqb_eq. apply Z.bits_inj'. intros n Hn. rewrite Z.land_spec, Z.bits_0.
    destruct (decide (n = k)) as [-> | Hne]; [by rewrite E |].
    by rewrite Z.pow2_bits_false, andb_false_r by lia.
Qed.

Lemma bit_used_set x b c :
  length x = 512%nat -> 0 <= b < 4096 -> 0 <= c < 4096 ->
  bit_used (set_bit x b) c = (b =? c) || bit_used x c.
Proof.
  intros Hx Hb Hc. rewrite !bit_used_testbit by lia. unfold set_bit.
  assert (Hb8 : 0 <= b / 8 < 512) by (Z.to_euclidean_division_equations; lia).
  rewrite getb_putb by (rewrite Hx; lia). case_decide as E.
  - apply Z2Nat.inj in E; [| Z.to_euclidean_division_equations; lia | lia]. rewrite E.
    assert (Hk : 0 <= c mod 8 < 8) by (apply Z.mod_pos_bound; lia).
    change 256 with (2 ^ 8). rewrite Z.mod_pow2_bits_low, Z.lor_spec by lia. unfold bit_mask. rewrite Z.shiftl_1_l.
    rewrite orb_comm. f_equal. rewrite Z.pow2_bits_eqb by (apply Z.mod_pos_bound; lia).
    destruct (Z.eqb_spec b c) as [-> | Hne]; [apply Z.eqb_refl |]. apply Z.eqb_neq. intros Hm. apply Hne.
    Z.to_euclidean_division_equations; lia.
  - destruct (Z.eqb_spec b c) as [-> | Hne]; [done |]. done.
Qed.

Lemma free_bit_spec n x b bi size :
  match free_bit n x b bi size with
  | Some k => bi <= k < bi + Z.of_nat n /\ b + k < size /\ bit_used x k = false
  | None => forall k, bi <= k < bi + Z.of_nat n -> b + k < size -> bit_used x k = true
  end.
Proof.
  revert bi. induction n as [|n IH]; intros bi; cbn [free_bit]; [lia |].
  zcase (b + bi <? size); simpl; [| lia]. destruct (bit_used x bi) eqn:Hu; simpl.
  - specialize (IH (bi + 1)). destruct (free_bit _ _ _ _ _) as [k|].
    + destruct IH as (H1 & H2 & H3). split_and!; [lia | lia | done | done].
    + intros k Hk Hs. destruct (decide (k = bi)) as [-> | ?]; [done |]. apply IH; lia.
  - split_and!; [lia | lia | done | done].
Qed.

(** At least [m] blocks of the first [size] are free. *)
Definition free_at_least (x : block) (size : Z) (m : nat) : Prop :=
  exists fl, NoDup fl /\ (forall b, b ∈ fl -> 0 <= b < size /\ bit_used x b = false) /\ (m <= length fl)%nat.

Lemma free_at_least_set x size m b :
  length x = 512%nat -> size <= 4096 -> 0 <= b < size ->
  free_at_least x size (S m) -> free_at_least (set_bit x b) size m.
Proof.
  intros Hx Hs Hb (fl & Hnd & Hf & Hm). exists (filter (fun c => c <> b) fl). split_and!.
  - by apply list.NoDup_filter.
  - intros c [Hc Hin]%list_elem_of_filter. destruct (Hf c Hin) as [Hr Hu]. split; [done |].
    rewrite bit_used_set, Hu by lia. rewrite orb_false_r. apply Z.eqb_neq. congruence.
  - clear Hf. revert m Hm. induction Hnd as [|c l Hc Hl IH]; intros m Hm; simpl in *; [lia |].
    rewrite filter_cons. destruct (decide (c = b)) as [-> | Hne].
    + rewrite decide_False by (intros H; by apply H).
      assert (E : filter (fun c => c <> b) l = l).
      { clear -Hc. induction l as [|d l IH]; [done |]. apply not_elem_of_cons in Hc as [Hd Hl].
        rewrite filter_cons, decide_True by congruence. f_equal. by apply IH. }
      rewrite E. lia.
    + rewrite decide_True by done. simpl. destruct m as [|m]; [lia |]. apply le_n_S, IH. lia.
Qed.

Lemma free_at_least_le x size m n : (n <= m)%nat -> free_at_least x size m -> free_at_least x size n.
Proof. intros Hle (fl & H1 & H2 & H3). exists fl. split_and!; [done | done | lia]. Qed.

Lemma free_at_least_1 x size m : free_at_least x size (S m) -> exists b, 0 <= b < size /\ bit_used x b = false.
Proof. intros ([|b fl] & _ & Hf & Hm); simpl in Hm; [lia |]. exists b. apply Hf. by left. Qed.

(** ** Files *)

(** Address of the [n]-th block of a file, 0 if it has none. *)
Definition fblk (a : list Z) (D : Z -> block) (n : Z) : Z :=
  if n <? Z.of_nat NDIRECT then a !!! Z.to_nat n
  else let i := a !!! NDIRECT in
       if i =? 0 then 0 else get32 (D i) (4 * Z.to_nat (n - Z.of_nat NDIRECT)).

(** The byte of a file at an offset. *)
Definition fbyte (a : list Z) (D : Z -> block) (o : Z) : Z :=
  let b := fblk a D (o / BSIZE) in if b =? 0 then 0 else getb (D b) (Z.to_nat (o mod BSIZE)).

Section files.
Context {S : Type} `{BlockStoreLaws S}.
Implicit Types (s : fstate S).
Variable g : log.
Variable sb : superblock.
Variable ds : Z.   (* the first data block *)

Notation bm := (sb_bmapstart sb).
Notation size := (sb_size sb).

(** The layout of the disk: the map and the inodes lie before the data blocks, and the log apart. *)
Record layout : Prop := {
  lay_size : ds <= size <= FSSIZE;
  lay_ds : 0 < ds;
  lay_bm : usable g bm /\ bm < ds;
  lay_data : forall b, ds <= b < size -> usable g b;
  lay_inode : forall i, 0 <= i < sb_ninodes sb -> usable g (IBLOCK i sb) /\ 0 < IBLOCK i sb < ds /\ IBLOCK i sb <> bm
}.
Context (Hlay : layout).

(** The free map is a block, and what is not data is in use. *)
Record map_ok (D : Z -> block) : Prop := {
  mo_len : length (D bm) = 512%nat;
  mo_meta : forall b, 0 <= b < ds -> bit_used (D bm) b = true
}.

Definition data_block (D : Z -> block) (b : Z) : Prop :=
  ds <= b < size /\ bit_used (D bm) b = true /\ length (D b) = 512%nat.

(** Every block of the file is a data block in use, and they are all different. *)
Record file_ok (D : Z -> block) (a : list Z) : Prop := {
  fo_len : length a = Datatypes.S NDIRECT;
  fo_blk : forall n, 0 <= n < MAXFILE -> fblk a D n <> 0 -> data_block D (fblk a D n);
  fo_ind : a !!! NDIRECT <> 0 -> data_block D (a !!! NDIRECT);
  fo_inj : forall n m, 0 <= n < MAXFILE -> 0 <= m < MAXFILE -> fblk a D n <> 0 -> fblk a D n = fblk a D m -> n = m;
  fo_self : forall n, 0 <= n < MAXFILE -> fblk a D n <> 0 -> fblk a D n <> a !!! NDIRECT
}.

(** The disk after block [b] was taken from the free map and cleared. *)
Definition allocated (D : Z -> block) (b : Z) : Z -> block :=
  bupd (bupd D bm (set_bit (D bm) b)) b zero_block.

Lemma clear_is_data D b : map_ok D -> 0 <= b < size -> bit_used (D bm) b = false -> ds <= b < size.
Proof.
  intros [_ Hm] Hb Hu. split; [| lia]. destruct (decide (b < ds)); [| lia]. by rewrite Hm in Hu by lia.
Qed.

Lemma allocated_other D b c : c <> b -> c <> bm -> allocated D b c = D c.
Proof. intros H1 H2. unfold allocated. by rewrite !bupd_other. Qed.

Lemma allocated_map D b : b <> bm -> allocated D b bm = set_bit (D bm) b.
Proof. intros Hb. unfold allocated. by rewrite bupd_other, bupd_same. Qed.

Lemma allocated_map_ok D b : map_ok D -> ds <= b < size -> map_ok (allocated D b).
Proof.
  intros [M1 M2] Hb. pose proof (lay_bm Hlay) as [_ Hbm]. pose proof (lay_size Hlay). unfold FSSIZE in *.
  pose proof (lay_ds Hlay).
  split; rewrite allocated_map by lia.
  - unfold set_bit. by rewrite length_putb.
  - intros c Hc. rewrite bit_used_set, M2 by (done || lia). by rewrite orb_true_r.
Qed.

Lemma allocated_data D b c : map_ok D -> ds <= b < size -> c <> b -> data_block D c -> data_block (allocated D b) c.
Proof.
  intros [M1 M2] Hb Hc (H1 & H2 & H3). pose proof (lay_bm Hlay) as [_ Hbm]. pose proof (lay_size Hlay).
  pose proof (lay_ds Hlay). unfold FSSIZE in *. unfold data_block. rewrite allocated_map by lia. split_and!; try lia.
  - rewrite bit_used_set, H2 by (done || lia). by rewrite orb_true_r.
  - by rewrite allocated_other by lia.
Qed.

Lemma allocated_new D b : map_ok D -> ds <= b < size -> data_block (allocated D b) b.
Proof.
  intros [M1 M2] Hb. pose proof (lay_bm Hlay) as [_ Hbm]. pose proof (lay_size Hlay). pose proof (lay_ds Hlay).
  unfold FSSIZE in *. unfold data_block. rewrite allocated_map by lia. split_and!; try lia.
  - rewrite bit_used_set by (done || lia). by rewrite Z.eqb_refl.
  - unfold allocated. rewrite bupd_same. done.
Qed.

(** ** balloc *)

Definition txe (C : gset Z) (r : Z) (D : Z -> block) (Hd : gset Z) s : Prop := exists v, ftx g true C r D Hd s v.

Lemma bzero_tx C r D Hd s b :
  txe C r D Hd s -> usable g b -> b ∉ Hd -> (base.size Hd <= 1)%nat -> b ∈ C \/ 1 <= r ->
  exists s', bzero ROOTDEV b s = Ok tt s' /\ txe ({[b]} ∪ C) (charge b C r) (bupd D b zero_block) Hd s' /\ same_fs s s' /\
    (forall j c, c ∈ Hd -> bufof s j c -> bufof s' j c).
Proof.
  intros [v T] Hb Hn Hsz Hr. unfold bzero.
  destruct (bread_tx g _ _ _ _ _ _ _ _ T Hb Hn Hsz) as (i & s1 & E1 & T1 & B1 & S1 & _ & K1).
  erewrite bind_ok by exact E1.
  destruct (setlog_tx g C r D ({[b]} ∪ Hd) s1 _ i b zero_block T1) as (s2 & E2 & T2 & S2 & K2); [set_solver | done | done | done |].
  rewrite E2. destruct (brelse_tx g _ _ _ _ _ _ _ i b T2) as (s3 & E3 & T3 & S3 & K3); [set_solver | auto |].
  exists s3. split_and!; [exact E3 | | by eauto using same_fs_trans |].
  - eexists. replace Hd with (({[b]} ∪ Hd) ∖ {[b]}) by set_solver. exact T3.
  - intros j c Hc Hj. apply K3; [set_solver | set_solver | auto].
Qed.

Lemma balloc_tx C r D Hd s m :
  txe C r D Hd s -> f_sb s = sb -> map_ok D -> bm ∈ C -> bm ∉ Hd -> (base.size Hd <= 1)%nat ->
  (forall b, b ∈ Hd -> bit_used (D bm) b = true) -> 1 <= r -> free_at_least (D bm) size (Datatypes.S m) ->
  exists b s' C' r', balloc ROOTDEV s = Ok b s' /\ ds <= b < size /\ bit_used (D bm) b = false /\
    txe C' r' (allocated D b) Hd s' /\ same_fs s s' /\ C ⊆ C' /\ b ∈ C' /\ r - 1 <= r' /\
    free_at_least (allocated D b bm) size m /\
    (forall j c, c ∈ Hd -> bufof s j c -> bufof s' j c).
Proof.
  intros [v T] Hsb Hmap HbC HbH Hsz Hused Hr Hfree. pose proof Hlay as [L1 L2 [L3 L4] L5 _].
  destruct (free_at_least_1 _ _ _ Hfree) as (b0 & Hb0 & Hu0). unfold balloc. erewrite bind_ok by reflexivity. rewrite Hsb.
  cbn [balloc_loop]. erewrite bind_ok by reflexivity. rewrite Hsb, (proj2 (Z.ltb_lt 0 size)) by lia. cbn [negb].
  assert (EB : BBLOCK 0 sb = bm) by done. rewrite EB.
  destruct (bread_tx g _ _ _ _ _ _ _ _ T L3 HbH Hsz) as (i & s1 & E1 & T1 & B1 & S1 & D1 & K1).
  erewrite bind_ok by exact E1. unfold data_of at 1. erewrite bind_ok by reflexivity. rewrite D1.
  pose proof (free_bit_spec (Z.to_nat BPB) (D bm) 0 0 size) as Hfb.
  destruct (free_bit _ _ _ _ _) as [b|].
  2: { exfalso. rewrite Hfb in Hu0; [done | | lia]. unfold BPB, BSIZE, FSSIZE in *. lia. }
  destruct Hfb as (Hb1 & Hb2 & Hb3).
  pose proof (clear_is_data D b Hmap ltac:(lia) Hb3) as Hb.
  destruct (setlog_tx g C r D ({[bm]} ∪ Hd) s1 _ i bm (set_bit (D bm) b) T1) as (s2 & E2 & T2 & S2 & K2);
    [set_solver | done | done | by left |].
  rewrite E2. destruct (brelse_tx g _ _ _ _ _ _ _ i bm T2) as (s3 & E3 & T3 & S3 & K3); [set_solver | auto |].
  erewrite bind_ok by exact E3.
  assert (T3' : txe C r (bupd D bm (set_bit (D bm) b)) Hd s3).
  { eexists. replace Hd with (({[bm]} ∪ Hd) ∖ {[bm]}) by set_solver.
    replace C with ({[bm]} ∪ C) by set_solver. unfold charge in T3. rewrite decide_True in T3 by done. exact T3. }
  assert (HbHd : b ∉ Hd). { intros Hin. by rewrite Hused in Hb3. }
  destruct (bzero_tx _ _ _ _ _ (0 + b) T3') as (s4 & E4 & T4 & S4 & K4); [by apply L5; lia | done | done | by right |].
  erewrite bind_ok by exact E4. rewrite Z.add_0_l in *. exists b, s4, ({[b]} ∪ C), (charge b C r).
  assert (Hc : r - 1 <= charge b C r) by (unfold charge; case_decide; lia).
  split_and!; try done; [lia | by eauto using same_fs_trans | clear; set_solver | clear; set_solver | |].
  - rewrite allocated_map by lia. destruct Hmap as [M1 M2]. unfold FSSIZE in *. apply free_at_least_set; try done; lia.
  - intros j c Hc' Hj. apply K4; [done |]. apply K3; [set_solver | set_solver | auto].
Qed.

(** ** Growth of a file *)

Notation ind a := (a !!! NDIRECT).

(** A file after blocks were added to it and the blocks [W] were written: the blocks it had stay, new
    blocks were free and read as zeros, and nothing else that was in use has changed. *)
Record fgrow (W : gset Z) (D : Z -> block) (a : list Z) (D' : Z -> block) (a' : list Z) : Prop := {
  fg_map : map_ok D';
  fg_file : file_ok D' a';
  fg_blk : forall n, 0 <= n < MAXFILE -> fblk a D n <> 0 -> fblk a' D' n = fblk a D n;
  fg_free : forall n, 0 <= n < MAXFILE -> fblk a D n = 0 -> fblk a' D' n <> 0 -> bit_used (D bm) (fblk a' D' n) = false;
  fg_new : forall n, 0 <= n < MAXFILE -> fblk a D n = 0 -> fblk a' D' n <> 0 -> fblk a' D' n ∉ W ->
    D' (fblk a' D' n) = zero_block;
  fg_used : forall c, 0 <= c < size -> bit_used (D bm) c = true -> bit_used (D' bm) c = true;
  fg_other : forall c, 0 <= c < size -> bit_used (D bm) c = true -> c <> bm -> c <> ind a -> c ∉ W -> D' c = D c;
  fg_ind : ind a <> 0 -> ind a' = ind a;
  fg_ind0 : ind a = 0 -> ind a' <> 0 -> bit_used (D bm) (ind a') = false
}.

Lemma fgrow_refl D a : map_ok D -> file_ok D a -> fgrow ∅ D a D a.
Proof. intros H1 H2. by split. Qed.

Lemma data_range D c : data_block D c -> 0 <= c < size /\ c <> bm /\ c <> 0 /\ bit_used (D bm) c = true.
Proof.
  intros (H1 & H2 & H3). pose proof (lay_bm Hlay) as [_ Hbm]. pose proof (lay_ds Hlay). split_and!; try lia. done.
Qed.

(** What a later growth takes was free before as well. *)
Lemma fgrow_unused W D a D1 a1 D2 c :
  fgrow W D a D1 a1 -> data_block D2 c -> bit_used (D1 bm) c = false -> bit_used (D bm) c = false.
Proof.
  intros G (Hd & _ & _) Hu. destruct (bit_used (D bm) c) eqn:E; [| done]. pose proof (lay_ds Hlay).
  rewrite (fg_used _ _ _ _ _ G) in Hu by (done || lia). done.
Qed.

Lemma fgrow_trans W1 W2 D a D1 a1 D2 a2 :
  file_ok D a -> fgrow W1 D a D1 a1 -> fgrow W2 D1 a1 D2 a2 -> fgrow (W1 ∪ W2) D a D2 a2.
Proof.
  intros F0 G1 G2. pose proof (fg_file _ _ _ _ _ G1) as F1. pose proof (fg_file _ _ _ _ _ G2) as F2. split.
  - apply G2.
  - apply G2.
  - intros n Hn Hb. rewrite (fg_blk _ _ _ _ _ G2), (fg_blk _ _ _ _ _ G1); try done. by rewrite (fg_blk _ _ _ _ _ G1).
  - intros n Hn N0 H2. destruct (decide (fblk a1 D1 n = 0)) as [H1 | H1].
    + apply (fgrow_unused _ _ _ _ _ D2 _ G1); [by apply F2 | by apply G2].
    + rewrite (fg_blk _ _ _ _ _ G2 n Hn H1). by apply G1.
  - intros n Hn N0 H2 HW. destruct (decide (fblk a1 D1 n = 0)) as [H1 | H1].
    + apply G2; try done. set_solver.
    + rewrite (fg_blk _ _ _ _ _ G2 n Hn H1) in *.
      pose proof (data_range _ _ (fo_blk _ _ F1 n Hn H1)) as (P1 & P2 & P3 & P4).
      rewrite (fg_other _ _ _ _ _ G2); [apply G1; try done; set_solver | done | done | done | by apply F1 | set_solver].
  - intros c Hc Hu. by apply (fg_used _ _ _ _ _ G2), (fg_used _ _ _ _ _ G1).
  - intros c Hc Hu H1 H2 HW. rewrite (fg_other _ _ _ _ _ G2);
      [apply (fg_other _ _ _ _ _ G1); try done; set_solver | done | | done | | set_solver].
    + by apply (fg_used _ _ _ _ _ G1).
    + destruct (decide (ind a = 0)) as [E | E]; [| by rewrite (fg_ind _ _ _ _ _ G1)].
      intros ->. destruct (decide (ind a1 = 0)) as [E1 | E1].
      * congruence.
      * by rewrite (fg_ind0 _ _ _ _ _ G1) in Hu.
  - intros Hi. rewrite (fg_ind _ _ _ _ _ G2), (fg_ind _ _ _ _ _ G1); try done. by rewrite (fg_ind _ _ _ _ _ G1).
  - intros N0 H2. destruct (decide (ind a1 = 0)) as [H1 | H1].
    + apply (fgrow_unused _ _ _ _ _ D2 _ G1); [by apply F2 | by apply G2].
    + rewrite (fg_ind _ _ _ _ _ G2) by done. by apply (fg_ind0 _ _ _ _ _ G1).
Qed.

Lemma getb_zero_block k : (k < 512)%nat -> getb zero_block k = 0.
Proof. intros Hk. unfold getb, zero_block. by apply lookup_total_replicate_2. Qed.

(** The bytes of the file do not change when it grows. *)
Lemma fgrow_fbyte D a D' a' o :
  file_ok D a -> fgrow ∅ D a D' a' -> 0 <= o < MAXFILE * BSIZE -> fbyte a' D' o = fbyte a D o.
Proof.
  intros F G Ho. unfold fbyte. assert (Hn : 0 <= o / BSIZE < MAXFILE) by (unfold BSIZE in *; Z.to_euclidean_division_equations; lia).
  destruct (Z.eqb_spec (fblk a D (o / BSIZE)) 0) as [E | E].
  - destruct (Z.eqb_spec (fblk a' D' (o / BSIZE)) 0) as [E' | E']; [done |].
    rewrite (fg_new _ _ _ _ _ G _ Hn E E') by set_solver. apply getb_zero_block.
    unfold BSIZE. Z.to_euclidean_division_equations; lia.
  - rewrite (fg_blk _ _ _ _ _ G _ Hn E), (proj2 (Z.eqb_neq _ _) E).
    pose proof (data_range _ _ (fo_blk _ _ F _ Hn E)) as (P1 & P2 & P3 & P4).
    rewrite (fg_other _ _ _ _ _ G); try done. by apply F.
Qed.

(** A file that gains block [b] as its [n]-th. *)
Lemma fgrow_block D a D' a' n b :
  map_ok D -> file_ok D a -> map_ok D' -> length a' = Datatypes.S NDIRECT -> 0 <= n < MAXFILE -> fblk a D n = 0 ->
  ds <= b < size -> bit_used (D bm) b = false -> data_block D' b -> D' b = zero_block ->
  (forall m, 0 <= m < MAXFILE -> fblk a' D' m = if decide (m = n) then b else fblk a D m) ->
  ind a' = ind a ->
  (forall c, data_block D c -> data_block D' c) ->
  (forall c, 0 <= c < size -> bit_used (D bm) c = true -> bit_used (D' bm) c = true) ->
  (forall c, 0 <= c < size -> bit_used (D bm) c = true -> c <> bm -> c <> ind a -> D' c = D c) ->
  fgrow ∅ D a D' a'.
Proof.
  intros M F M' Hl Hn N0 Hb Hu Hbd Hz Hf Hi Hdat Husd Hoth. pose proof (lay_ds Hlay) as Hds.
  assert (Hold : forall m, 0 <= m < MAXFILE -> fblk a D m <> 0 -> fblk a D m <> b).
  { intros m Hm H1 E. apply F in H1 as (_ & ? & _); [congruence | done]. }
  assert (Hib : ind a <> b). { intros E. assert (Hi0 : ind a <> 0) by lia. apply F in Hi0 as (_ & ? & _). congruence. }
  split; try done.
  - split; [done | | rewrite Hi; intros ?; by apply Hdat, F | |].
    + intros m Hm. rewrite Hf by done. case_decide; [done |]. intros ?. by apply Hdat, F.
    + intros k m Hk Hm. rewrite !Hf by done. repeat case_decide; subst; try done.
      * intros _ E. destruct (decide (fblk a D m = 0)) as [E0 | E0]; [lia |]. by destruct (Hold m Hm E0).
      * intros Hk0 E. by destruct (Hold k Hk Hk0).
      * by apply F.
    + intros m Hm. rewrite Hf, Hi by done. case_decide; [congruence | by apply F].
  - intros m Hm H1. rewrite Hf by done. case_decide; [| done]. by subst.
  - intros m Hm H1. rewrite Hf by done. case_decide; [| done]. by subst.
  - intros m Hm H1. rewrite Hf by done. case_decide; [| done]. by subst.
  - intros c Hc Hcu Hcb Hci _. by apply Hoth.
  - intros H1 H2. congruence.
Qed.

Lemma allocated_used D b c :
  map_ok D -> ds <= b < size -> 0 <= c < size -> bit_used (D bm) c = true -> bit_used (allocated D b bm) c = true.
Proof.
  intros [M1 _] Hb Hc Hu. pose proof (lay_bm Hlay) as [_ Hbm]. pose proof (lay_size Hlay). pose proof (lay_ds Hlay).
  unfold FSSIZE in *. rewrite allocated_map, bit_used_set, Hu by (done || lia). apply orb_true_r.
Qed.

Lemma allocated_keep D b c :
  bit_used (D bm) b = false -> bit_used (D bm) c = true -> c <> bm -> allocated D b c = D c.
Proof. intros Hb Hc Hm. apply allocated_other; congruence. Qed.

Lemma allocated_keeps_data D b c :
  map_ok D -> ds <= b < size -> bit_used (D bm) b = false -> data_block D c -> data_block (allocated D b) c.
Proof. intros M Hb Hu Hc. apply allocated_data; [done | done | | done]. intros ->. destruct Hc as (_ & ? & _). congruence. Qed.

Lemma allocated_fblk D a b n :
  file_ok D a -> bit_used (D bm) b = false -> 0 <= n < MAXFILE -> fblk a (allocated D b) n = fblk a D n.
Proof.
  intros F Hu Hn. unfold fblk. destruct (n <? _); [done |]. destruct (Z.eqb_spec (ind a) 0) as [E | E]; [done |].
  pose proof (data_range _ _ (fo_ind _ _ F E)) as (P1 & P2 & P3 & P4). by rewrite allocated_keep.
Qed.

Lemma fgrow_direct D a n b :
  map_ok D -> file_ok D a -> 0 <= n < Z.of_nat NDIRECT -> fblk a D n = 0 -> ds <= b < size ->
  bit_used (D bm) b = false -> fgrow ∅ D a (allocated D b) (<[Z.to_nat n := b]> a).
Proof.
  intros M F Hn N0 Hb Hu. pose proof (fo_len _ _ F) as Hl. unfold MAXFILE, NINDIRECT, BSIZE, NDIRECT in *.
  assert (Hi : ind (<[Z.to_nat n := b]> a) = ind a) by (apply list_lookup_total_insert_ne; unfold NDIRECT; lia).
  apply (fgrow_block _ _ _ _ n b); try done.
  - by apply allocated_map_ok.
  - by rewrite length_insert.
  - unfold MAXFILE, NINDIRECT, BSIZE, NDIRECT. change (512 / 4) with 128. lia.
  - by apply allocated_new.
  - unfold allocated. by rewrite bupd_same.
  - intros m Hm. pose proof (allocated_fblk D a b m F Hu Hm) as E. rewrite <- E. unfold fblk. rewrite Hi. unfold NDIRECT.
    zcase (m <? Z.of_nat 12).
    + case_decide as E1; [subst; apply list_lookup_total_insert_eq; lia |]. apply list_lookup_total_insert_ne; lia.
    + by rewrite decide_False by lia.
  - intros c Hc. by apply allocated_keeps_data.
  - intros c Hc. by apply allocated_used.
  - intros c Hc Hcu Hcb _. by apply allocated_keep.
Qed.

(** The offset of an entry of the indirect block. *)
Lemma entry_room n : Z.of_nat NDIRECT <= n < MAXFILE -> (4 * Z.to_nat (n - Z.of_nat NDIRECT) + 4 <= 512)%nat.
Proof. unfold MAXFILE, NINDIRECT, BSIZE, NDIRECT. change (512 / 4) with 128. lia. Qed.

Lemma fgrow_entry D a n b :
  map_ok D -> file_ok D a -> Z.of_nat NDIRECT <= n < MAXFILE -> ind a <> 0 -> fblk a D n = 0 -> ds <= b < size ->
  bit_used (D bm) b = false ->
  fgrow ∅ D a (bupd (allocated D b) (ind a) (put32 (D (ind a)) (4 * Z.to_nat (n - Z.of_nat NDIRECT)) b)) a.
Proof.
  intros M F Hn Hi N0 Hb Hu. set (x := put32 _ _ _). pose proof (fo_ind _ _ F Hi) as Hdi.
  pose proof (data_range _ _ Hdi) as (P1 & P2 & P3 & P4). pose proof Hdi as (_ & _ & Hlen).
  assert (Hib : b <> ind a) by congruence. pose proof (lay_size Hlay). unfold FSSIZE in *. pose proof (lay_ds Hlay).
  pose proof (lay_bm Hlay) as [_ Hbm].
  assert (Hx : length x = 512%nat) by (unfold x; by rewrite length_put32).
  assert (Hmap : bupd (allocated D b) (ind a) x bm = allocated D b bm) by (by apply bupd_other).
  assert (Hdata : forall c, data_block (allocated D b) c -> data_block (bupd (allocated D b) (ind a) x) c).
  { intros c (Q1 & Q2 & Q3). unfold data_block. rewrite Hmap. split_and!; try lia; [done |].
    unfold bupd. by case_decide. }
  apply (fgrow_block _ _ _ _ n b); try done.
  - destruct (allocated_map_ok D b M Hb) as [Q1 Q2]. split; by rewrite Hmap.
  - apply F.
  - unfold NDIRECT in *. lia.
  - by apply Hdata, allocated_new.
  - rewrite bupd_other by done. unfold allocated. by rewrite bupd_same.
  - intros m Hm. unfold fblk. rewrite bupd_same, (proj2 (Z.eqb_neq _ _) Hi). zcase (m <? Z.of_nat NDIRECT).
    + by rewrite decide_False by lia.
    + pose proof (entry_room n Hn). pose proof (entry_room m ltac:(lia)). case_decide as E; [subst |]; unfold x.
      * rewrite get32_put32 by (rewrite Hlen; lia). apply u32_small. lia.
      * apply get32_put32_other; rewrite ?Hlen; lia.
  - intros c Hc. by apply Hdata, allocated_keeps_data.
  - intros c Hc Hcu. rewrite Hmap. by apply allocated_used.
  - intros c Hc Hcu Hcb Hci. rewrite bupd_other by done. by apply allocated_keep.
Qed.

Lemma get32_zero_block o : (o + 4 <= 512)%nat -> get32 zero_block o = 0.
Proof. intros Ho. unfold get32. rewrite !getb_zero_block by lia. done. Qed.

Lemma fgrow_ind D a i :
  map_ok D -> file_ok D a -> ind a = 0 -> ds <= i < size -> bit_used (D bm) i = false ->
  fgrow ∅ D a (allocated D i) (<[NDIRECT := i]> a).
Proof.
  intros M F Hi Hb Hu. pose proof (fo_len _ _ F) as Hl. pose proof (lay_ds Hlay) as Hds.
  assert (Hi' : ind (<[NDIRECT := i]> a) = i) by (apply list_lookup_total_insert_eq; lia).
  assert (Hf : forall m, 0 <= m < MAXFILE -> fblk (<[NDIRECT := i]> a) (allocated D i) m = fblk a D m).
  { intros m Hm. unfold fblk. zcase (m <? Z.of_nat NDIRECT).
    - apply list_lookup_total_insert_ne. lia.
    - rewrite Hi', Hi, (proj2 (Z.eqb_neq i 0)) by lia. unfold allocated. rewrite bupd_same.
      pose proof (entry_room m ltac:(lia)). by apply get32_zero_block. }
  split.
  - by apply allocated_map_ok.
  - split.
    + by rewrite length_insert.
    + intros m Hm. rewrite Hf by done. intros ?. by apply allocated_keeps_data, F.
    + intros _. rewrite Hi'. by apply allocated_new.
    + intros k m Hk Hm. rewrite !Hf by done. by apply F.
    + intros m Hm. rewrite Hf, Hi' by done. intros E1 E2. apply F in E1 as (_ & Q & _); [| done]. congruence.
  - intros m Hm _. by apply Hf.
  - intros m Hm E1. rewrite Hf by done. done.
  - intros m Hm E1. rewrite Hf by done. done.
  - intros c. by apply allocated_used.
  - intros c Hc Hcu Hcb _ _. by apply allocated_keep.
  - done.
  - intros _ _. by rewrite Hi'.
Qed.

(** ** bmap *)

Definition with_addrs (a : list Z) (x : inode) : inode :=
  Inode (i_dev x) (i_inum x) (i_ref x) (i_lock x) (i_valid x) (i_type x) (i_major x) (i_minor x)
    (i_nlink x) (i_size x) a.

(** The cache entry [ip] has got the addresses [a]; no other entry changed. *)
Definition only_addrs (ip : nat) (a : list Z) s s' : Prop :=
  f_sb s' = f_sb s /\ icache s' = fupd (icache s) ip (with_addrs a (icache s ip)).

Lemma only_addrs_refl ip s s' : same_fs s s' -> only_addrs ip (i_addrs (icache s ip)) s s'.
Proof.
  intros [E1 E2]. split; [done |]. rewrite E2. extensionality j. unfold fupd. case_decide; [subst | done].
  by destruct (icache s ip).
Qed.

Lemma only_addrs_trans ip a a' s s1 s2 : only_addrs ip a s s1 -> only_addrs ip a' s1 s2 -> only_addrs ip a' s s2.
Proof. intros [A1 A2] [B1 B2]. split; [congruence |]. rewrite B2, A2, fupd_same. apply fupd_fupd. Qed.

Lemma only_addrs_same ip a s s1 s2 : only_addrs ip a s s1 -> same_fs s1 s2 -> only_addrs ip a s s2.
Proof. intros [A1 A2] [B1 B2]. split; congruence. Qed.

Lemma set_addr_only ip k b s :
  exists s', upd_inode ip (set_addr k b) s = Ok tt s' /\ only_addrs ip (<[k := b]> (i_addrs (icache s ip))) s s' /\
    f_log s' = f_log s.
Proof. eexists. split; [reflexivity |]. by split. Qed.

Lemma ftx_log wr C r D Hd s s' v : f_log s' = f_log s -> ftx g wr C r D Hd s v -> ftx g wr C r D Hd s' v.
Proof. intros E [T1 T2 T3 T4 T5 T6 T7 T8 T9 T10]. split; rewrite ?E; done. Qed.

Lemma bufof_data wr C r D Hd s v i b :
  ftx g wr C r D Hd s v -> usable g b -> bufof s i b -> buf_data i (store (f_log s)) = D b.
Proof.
  intros T [_ Hb] Bf. rewrite (data_law _ _ _ _ (tx_abs _ _ _ _ _ _ _ _ T) Bf). by apply T.
Qed.

Lemma data_usable D b : data_block D b -> usable g b.
Proof. intros (Hb & _). by apply Hlay. Qed.

(** The second half of [bmap], from the indirect block [i] on. *)
Definition bmap_entry (dev i bn : Z) : M (fstate S) Z :=
  bp ← disk (bread dev i) ;
  a ← data_of bp ;
  let addr := get32 a (4 * Z.to_nat bn) in
  r ← (if addr =? 0 then
         b ← balloc dev ;
         a ← data_of bp ;
         disk (buf_set bp (put32 a (4 * Z.to_nat bn) b)) ;;
         in_log_ (log_write bp) ;;
         mret b
       else mret addr) ;
  disk (brelse bp) ;;
  mret r.

(** Looking up a block the file has changes nothing. *)
Lemma bmap_found wr C r D s v ip n :
  ftx g wr C r D ∅ s v -> i_dev (icache s ip) = ROOTDEV -> file_ok D (i_addrs (icache s ip)) -> 0 <= n < MAXFILE ->
  fblk (i_addrs (icache s ip)) D n <> 0 ->
  exists s' v', bmap ip n s = Ok (fblk (i_addrs (icache s ip)) D n) s' /\ ftx g wr C r D ∅ s' v' /\ same_fs s s'.
Proof.
  intros T Hdev F Hn. unfold bmap, fblk. erewrite bind_ok by reflexivity.
  zcase (n <? Z.of_nat NDIRECT).
  - intros Hb. rewrite (proj2 (Z.eqb_neq _ _) Hb). by exists s, v.
  - destruct (Z.eqb_spec (ind (i_addrs (icache s ip))) 0) as [E | E]; [done |]. intros Hb.
    rewrite (proj2 (Z.ltb_lt _ _)) by (unfold MAXFILE in *; lia). erewrite bind_ok by reflexivity. rewrite Hdev.
    destruct (bread_tx g _ _ _ _ _ _ _ _ T (data_usable _ _ (fo_ind _ _ F E))) as (i & s1 & E1 & T1 & B1 & S1 & D1 & K1);
      [set_solver | by rewrite size_empty; lia |].
    erewrite bind_ok by exact E1. erewrite bind_ok by reflexivity. rewrite D1. cbv zeta.
    rewrite (proj2 (Z.eqb_neq _ _) Hb). erewrite bind_ok by reflexivity.
    destruct (brelse_tx g _ _ _ _ _ _ _ i (ind (i_addrs (icache s ip))) T1) as (s2 & E2 & T2 & S2 & K2); [set_solver | done |].
    erewrite bind_ok by exact E2. eexists s2, _. split_and!; [reflexivity | | by eauto using same_fs_trans].
    replace ∅ with (({[ind (i_addrs (icache s ip))]} ∪ ∅) ∖ {[ind (i_addrs (icache s ip))]} : gset Z) by set_solver.
    exact T2.
Qed.

(** What a lookup may still have to log for the indirect block, and to allocate for it. *)
Definition pot (C : gset Z) (a : list Z) : Z := if decide (ind a <> 0 /\ ind a ∈ C) then 0 else 1.
Definition pfree (a : list Z) : nat := if decide (ind a = 0) then 1 else 0.

Lemma pot_mono C C' a a' : C ⊆ C' -> ind a' = ind a -> pot C' a' <= pot C a.
Proof. intros HC E. unfold pot. rewrite E. repeat case_decide; try lia. set_solver. Qed.

Definition logged_cost (b : Z) (C : gset Z) : Z := if decide (b ∈ C) then 1 else 0.

(** The outcome of [bmap] for block [n]: the file may have grown, and the rest of the budget is at
    least what it was less one block, if that block is logged already. *)
Definition bmap_post (C : gset Z) (r : Z) (D : Z -> block) (a : list Z) (ip : nat) (n : Z) (m : nat) s (b : Z) s' : Prop :=
  exists C' r' D' a', txe C' r' D' ∅ s' /\ only_addrs ip a' s s' /\ fgrow ∅ D a D' a' /\ fblk a' D' n = b /\ b <> 0 /\
    C ⊆ C' /\ r - pot C a - logged_cost b C' <= r' - pot C' a' /\ free_at_least (D' bm) size (m + pfree a').

Lemma bmap_entry_tx C r D s ip n m :
  let a := i_addrs (icache s ip) in
  txe C r D ∅ s -> f_sb s = sb -> map_ok D -> file_ok D a -> bm ∈ C -> Z.of_nat NDIRECT <= n < MAXFILE -> ind a <> 0 ->
  fblk a D n = 0 -> pot C a + 1 <= r -> free_at_least (D bm) size (Datatypes.S m) ->
  exists b s', bmap_entry ROOTDEV (ind a) (n - Z.of_nat NDIRECT) s = Ok b s' /\ bmap_post C r D a ip n m s b s'.
Proof.
  intros a [v T] Hsb M F HbC Hn Hi N0 Hr Hfree. pose proof (fo_ind _ _ F Hi) as Hdi.
  pose proof (data_range _ _ Hdi) as (P1 & P2 & P3 & P4). pose proof (data_usable _ _ Hdi) as Hus.
  unfold bmap_entry.
  destruct (bread_tx g _ _ _ _ _ _ _ _ T Hus) as (i & s1 & E1 & T1 & B1 & S1 & D1 & K1);
    [set_solver | by rewrite size_empty; lia |].
  erewrite bind_ok by exact E1. erewrite bind_ok by reflexivity. rewrite D1. cbv zeta.
  set (o := (4 * Z.to_nat (n - Z.of_nat NDIRECT))%nat).
  assert (E0 : get32 (D (ind a)) o = 0).
  { unfold fblk in N0. by rewrite (proj2 (Z.ltb_ge _ _)), (proj2 (Z.eqb_neq _ _) Hi) in N0 by lia. }
  rewrite E0, Z.eqb_refl.
  rewrite union_empty_r_L in T1.
  destruct (balloc_tx C r D {[ind a]} s1 m) as
    (b & s2 & C2 & r2 & E2 & Hb & Hu & [v2 T2] & S2 & HC2 & HbC2 & Hr2 & Hf2 & K2);
    [by eexists | by rewrite (proj1 S1) | done | done | set_solver | by rewrite size_singleton |
     by intros c ->%elem_of_singleton | unfold pot in Hr; case_decide; lia | done |].
  assert (Hcost : ind a ∈ C2 \/ 1 <= r2).
  { unfold pot in Hr. case_decide as Hp; [left; apply HC2, Hp | right; lia]. }
  pose proof (K2 i (ind a) (proj2 (elem_of_singleton _ _) eq_refl) B1) as B2.
  pose proof (bufof_data _ _ _ _ _ _ _ _ _ T2 Hus B2) as D2. rewrite allocated_keep in D2 by done.
  destruct (setlog_tx g C2 r2 _ _ s2 _ i (ind a) (put32 (D (ind a)) o b) T2) as (s3 & E3 & T3 & S3 & K3);
    [set_solver | done | done | done |].
  erewrite bind_ok by (erewrite bind_ok by exact E2; erewrite bind_ok by reflexivity; rewrite D2; apply E3).
  destruct (brelse_tx g _ _ _ _ _ _ _ i (ind a) T3) as (s4 & E4 & T4 & S4 & K4); [set_solver | by apply K3 |].
  erewrite bind_ok by exact E4. exists b, s4. split; [reflexivity |].
  assert (S04 : same_fs s s4) by eauto using same_fs_trans.
  pose proof (fgrow_entry D a n b M F Hn Hi N0 Hb Hu) as G. pose proof (lay_ds Hlay) as Hds.
  exists ({[ind a]} ∪ C2), (charge (ind a) C2 r2), (bupd (allocated D b) (ind a) (put32 (D (ind a)) o b)), a.
  split_and!.
  - eexists. replace ∅ with ({[ind a]} ∖ {[ind a]} : gset Z) by set_solver. exact T4.
  - by apply only_addrs_refl.
  - exact G.
  - unfold fblk. rewrite bupd_same, (proj2 (Z.ltb_ge _ _)), (proj2 (Z.eqb_neq _ _) Hi) by lia.
    destruct Hdi as (_ & _ & Hlen). pose proof (entry_room n Hn). pose proof (lay_size Hlay). unfold FSSIZE in *.
    rewrite get32_put32 by (rewrite Hlen; unfold o; lia). apply u32_small. lia.
  - lia.
  - set_solver.
  - unfold logged_cost. rewrite decide_True by set_solver.
    assert (E5 : pot ({[ind a]} ∪ C2) a = 0) by (unfold pot; rewrite decide_True by set_solver; done).
    rewrite E5. unfold pot, charge. repeat case_decide; try lia. exfalso. set_solver.
  - rewrite bupd_other by done. unfold pfree. rewrite decide_False by done. by rewrite Nat.add_0_r.
Qed.

Lemma only_addrs_ip ip a s s' : only_addrs ip a s s' -> i_addrs (icache s' ip) = a /\ i_dev (icache s' ip) = i_dev (icache s ip).
Proof. intros [_ ->]. by rewrite fupd_same. Qed.

(** A post-condition reached after the file grew by its indirect block. *)
Lemma bmap_post_after C r D a C1 r1 D1 a1 ip n m s s1 b s' :
  file_ok D a -> only_addrs ip a1 s s1 -> fgrow ∅ D a D1 a1 -> C ⊆ C1 -> r - pot C a <= r1 - pot C1 a1 ->
  bmap_post C1 r1 D1 a1 ip n m s1 b s' -> bmap_post C r D a ip n m s b s'.
Proof.
  intros F O G HC Hr (C' & r' & D' & a' & T & O' & G' & H1 & H2 & H3 & H4 & H5). exists C', r', D', a'.
  split_and!; try done; [by eapply only_addrs_trans | | set_solver | lia].
  rewrite <- (union_empty_l_L ∅). by eapply fgrow_trans.
Qed.

Lemma bmap_post_found C r D ip n m s s' :
  let a := i_addrs (icache s ip) in
  txe C r D ∅ s' -> same_fs s s' -> map_ok D -> file_ok D a -> fblk a D n <> 0 ->
  free_at_least (D bm) size (Datatypes.S m + pfree a) -> bmap_post C r D a ip n m s (fblk a D n) s'.
Proof.
  intros a T Hs M F Hn Hfree. exists C, r, D, a. split_and!; try done.
  - by apply only_addrs_refl.
  - unfold logged_cost. case_decide; lia.
  - eapply free_at_least_le; [| exact Hfree]. lia.
Qed.

Lemma bmap_tx C r D s ip n m :
  let a := i_addrs (icache s ip) in
  txe C r D ∅ s -> f_sb s = sb -> i_dev (icache s ip) = ROOTDEV -> map_ok D -> file_ok D a -> bm ∈ C ->
  0 <= n < MAXFILE -> pot C a + 1 <= r -> free_at_least (D bm) size (Datatypes.S m + pfree a) ->
  exists b s', bmap ip n s = Ok b s' /\ bmap_post C r D a ip n m s b s'.
Proof.
  intros a T Hsb Hdev M F HbC Hn Hr Hfree. destruct (decide (fblk a D n = 0)) as [N0 | Hb].
  2: { destruct T as [v T]. destruct (bmap_found _ _ _ _ _ _ ip n T Hdev F Hn Hb) as (s' & v' & E & T' & S').
       exists (fblk a D n), s'. split; [exact E |]. apply bmap_post_found; try done. by eexists. }
  assert (Hpot : 0 <= pot C a <= 1) by (unfold pot; case_decide; lia).
  assert (Hsz : (base.size (∅ : gset Z) <= 1)%nat) by (rewrite size_empty; lia). pose proof (lay_ds Hlay) as Hds.
  unfold bmap. erewrite bind_ok by reflexivity. fold a. rewrite Hdev. zcase (n <? Z.of_nat NDIRECT).
  - assert (E0 : a !!! Z.to_nat n = 0). { unfold fblk in N0. by rewrite (proj2 (Z.ltb_lt _ _)) in N0 by done. }
    rewrite E0, Z.eqb_refl.
    destruct (balloc_tx C r D ∅ s (m + pfree a)) as
      (b & s1 & C1 & r1 & E1 & Hb & Hu & [v1 T1] & S1 & HC1 & HbC1 & Hr1 & Hf1 & K1);
      [done | done | done | done | set_solver | done | set_solver | lia | done |].
    erewrite bind_ok by exact E1. destruct (set_addr_only ip (Z.to_nat n) b s1) as (s2 & E2 & O2 & L2).
    erewrite bind_ok by exact E2. exists b, s2. split; [reflexivity |].
    pose proof (fgrow_direct D a n b M F ltac:(lia) N0 Hb Hu) as G.
    rewrite (proj2 S1) in O2. fold a in O2. pose proof (fo_len _ _ F) as Hl.
    assert (Hi : ind (<[Z.to_nat n := b]> a) = ind a) by (apply list_lookup_total_insert_ne; lia).
    exists C1, r1, (allocated D b), (<[Z.to_nat n := b]> a). split_and!; try done.
    + eexists. eapply ftx_log; [exact L2 | exact T1].
    + destruct O2 as [O3 O4]. split; [by rewrite O3; apply S1 |]. rewrite O4. by rewrite (proj2 S1).
    + unfold fblk. rewrite (proj2 (Z.ltb_lt _ _)) by done. apply list_lookup_total_insert_eq. unfold NDIRECT in *. lia.
    + lia.
    + pose proof (pot_mono C C1 a (<[Z.to_nat n := b]> a) HC1 Hi). unfold logged_cost. rewrite decide_True by done. lia.
    + unfold pfree. by rewrite Hi.
  - rewrite (proj2 (Z.ltb_lt _ _)) by (unfold MAXFILE in *; lia).
    destruct (Z.eqb_spec (ind a) 0) as [Hi | Hi].
    + assert (Hp : pfree a = 1%nat) by (unfold pfree; by rewrite decide_True).
      assert (Hpa : pot C a = 1) by (unfold pot; rewrite decide_False; [done | by intros [? _]]).
      destruct (balloc_tx C r D ∅ s (Datatypes.S m)) as
        (i & s1 & C1 & r1 & E1 & Hb & Hu & [v1 T1] & S1 & HC1 & HbC1 & Hr1 & Hf1 & K1);
        [done | done | done | done | set_solver | done | set_solver | lia |
         by replace (Datatypes.S (Datatypes.S m)) with (Datatypes.S m + pfree a)%nat by lia |].
      destruct (set_addr_only ip NDIRECT i s1) as (s2 & E2 & O2 & L2). rewrite (proj2 S1) in O2. fold a in O2.
      assert (O02 : only_addrs ip (<[NDIRECT := i]> a) s s2).
      { destruct O2 as [O3 O4]. split; [by rewrite O3; apply S1 |]. rewrite O4. by rewrite (proj2 S1). }
      erewrite bind_ok by (erewrite bind_ok by exact E1; erewrite bind_ok by exact E2; reflexivity).
      pose proof (fgrow_ind D a i M F Hi Hb Hu) as G. destruct (only_addrs_ip _ _ _ _ O02) as [Ha _].
      assert (Hi1 : ind (<[NDIRECT := i]> a) = i) by (apply list_lookup_total_insert_eq; rewrite (fo_len _ _ F); lia).
      assert (Hpa1 : pot C1 (<[NDIRECT := i]> a) = 0) by (unfold pot; rewrite Hi1, decide_True; [done | split; [lia | done]]).
      destruct (bmap_entry_tx C1 r1 (allocated D i) s2 ip n m) as (b & s' & E & P); rewrite ?Ha, ?Hi1, ?Hpa1;
        [eexists; eapply ftx_log; [exact L2 | exact T1] | by rewrite (proj1 O02) | apply G | apply G | by apply HC1 |
         lia | lia | | lia | done |].
      { unfold fblk. rewrite Hi1, (proj2 (Z.ltb_ge _ _)), (proj2 (Z.eqb_neq i 0)) by lia. unfold allocated.
        rewrite bupd_same. apply get32_zero_block. pose proof (entry_room n ltac:(lia)). done. }
      rewrite Ha in E, P. rewrite Hi1 in E. exists b, s'. split; [exact E |].
      eapply bmap_post_after; [done | exact O02 | exact G | done | | exact P]. rewrite Hpa1. lia.
    + erewrite bind_ok by reflexivity. destruct (bmap_entry_tx C r D s ip n m) as (b & s' & E & P); try done.
      { lia. }
      { eapply free_at_least_le; [| exact Hfree]. lia. }
      exists b, s'. split; [exact E | exact P].
Qed.

(** ** readi *)

(** [k] bytes of the file from offset [o]. *)
Definition fbytes (a : list Z) (D : Z -> block) (o : Z) (k : nat) : list Z :=
  (fun i => fbyte a D (o + Z.of_nat i)) <$> seq 0 k.

Lemma fbytes_app a D o k j : fbytes a D o (k + j) = fbytes a D o k ++ fbytes a D (o + Z.of_nat k) j.
Proof.
  unfold fbytes. rewrite seq_app, fmap_app. f_equal. rewrite <- (Nat.add_0_r (0 + k)), <- fmap_add_seq, <- list_fmap_compose.
  apply list_fmap_ext. intros i x _. simpl. f_equal. lia.
Qed.

(** Blocks that [n] bytes from offset [off] touch. *)
Definition nblocks (off n : Z) : Z := if n =? 0 then 0 else (off mod BSIZE + n + (BSIZE - 1)) / BSIZE.

Lemma nblocks_step off n :
  0 <= off -> 0 < n -> let m := Z.min n (BSIZE - off mod BSIZE) in
  0 < m <= n /\ m <= BSIZE - off mod BSIZE /\ nblocks (off + m) (n - m) = nblocks off n - 1 /\ 1 <= nblocks off n.
Proof.
  intros Ho Hn m. assert (Hw : 0 <= off mod BSIZE < BSIZE) by (apply Z.mod_pos_bound; unfold BSIZE; lia).
  split_and!; [lia | lia | lia | |].
  - unfold nblocks. rewrite (proj2 (Z.eqb_neq n 0)) by lia. unfold m. destruct (Z.min_spec n (BSIZE - off mod BSIZE)) as [[Hc ->] | [Hc ->]].
    + rewrite Z.sub_diag, Z.eqb_refl. unfold BSIZE in *. Z.to_euclidean_division_equations; lia.
    + destruct (Z.eqb_spec (n - (BSIZE - off mod BSIZE)) 0); unfold BSIZE in *; Z.to_euclidean_division_equations; lia.
  - unfold nblocks. rewrite (proj2 (Z.eqb_neq n 0)) by lia. unfold BSIZE in *. Z.to_euclidean_division_equations; lia.
Qed.

Lemma nblocks_nonneg off n : 0 <= off -> 0 <= n -> 0 <= nblocks off n.
Proof. intros Ho Hn. unfold nblocks, BSIZE. destruct (n =? 0); Z.to_euclidean_division_equations; lia. Qed.

Lemma io_fuel_enough off n : 0 <= off -> 0 <= n -> nblocks off n < Z.of_nat (io_fuel n).
Proof.
  intros Ho Hn. unfold nblocks, io_fuel, BSIZE. destruct (n =? 0); Z.to_euclidean_division_equations; lia.
Qed.

Lemma same_block off m i :
  0 <= off -> 0 <= i < m -> m <= BSIZE - off mod BSIZE ->
  (off + i) / BSIZE = off / BSIZE /\ (off + i) mod BSIZE = off mod BSIZE + i.
Proof. unfold BSIZE. intros H1 H2 H3. split; Z.to_euclidean_division_equations; lia. Qed.

Lemma block_index off : 0 <= off < MAXFILE * BSIZE -> 0 <= off / BSIZE < MAXFILE.
Proof. unfold BSIZE. intros Ho. Z.to_euclidean_division_equations; lia. Qed.

Lemma block_bytes a D off m :
  fblk a D (off / BSIZE) <> 0 -> length (D (fblk a D (off / BSIZE))) = 512%nat -> 0 <= off -> 0 <= m <= BSIZE - off mod BSIZE ->
  take (Z.to_nat m) (drop (Z.to_nat (off mod BSIZE)) (D (fblk a D (off / BSIZE)))) = fbytes a D off (Z.to_nat m).
Proof.
  intros Hb Hl Ho Hm. assert (Hmod : 0 <= off mod BSIZE < 512) by (apply Z.mod_pos_bound; unfold BSIZE; lia).
  assert (Hm' : m <= 512 - off mod BSIZE) by apply Hm. apply list_eq_same_length with (n := Z.to_nat m).
  - unfold fbytes. by rewrite length_fmap, length_seq.
  - rewrite length_take, length_drop, Hl. lia.
  - intros i x y Hi Hx Hy. rewrite lookup_take_lt, lookup_drop in Hx by done.
    unfold fbytes in Hy. rewrite list_lookup_fmap, lookup_seq_lt in Hy by done. injection Hy as <-. unfold fbyte.
    destruct (same_block off m (Z.of_nat i)) as [E1 E2]; [done | lia | apply Hm |]. simpl. rewrite E1, E2.
    rewrite (proj2 (Z.eqb_neq _ _) Hb). unfold getb. rewrite Z2Nat.inj_add, Nat2Z.id by lia.
    symmetry. by apply list_lookup_total_correct.
Qed.

Lemma readi_loop_tx wr C r D fuel ip n : forall s v off tot acc,
  let a := i_addrs (icache s ip) in
  ftx g wr C r D ∅ s v -> i_dev (icache s ip) = ROOTDEV -> file_ok D a -> 0 <= tot <= n -> 0 <= off ->
  off + (n - tot) <= MAXFILE * BSIZE -> (forall o, off <= o < off + (n - tot) -> fblk a D (o / BSIZE) <> 0) ->
  nblocks off (n - tot) < Z.of_nat fuel ->
  exists s' v', readi_loop fuel ip off tot n acc s = Ok (acc ++ fbytes a D off (Z.to_nat (n - tot))) s' /\
    ftx g wr C r D ∅ s' v' /\ same_fs s s'.
Proof.
  induction fuel as [|f IH]; intros s v off tot acc a T Hdev F Ht Ho Hend Hfull Hfuel.
  { pose proof (nblocks_nonneg off (n - tot)). lia. }
  cbn [readi_loop]. zcase (tot <? n); cbn [negb].
  2: { replace (n - tot) with 0 by lia. exists s, v. by rewrite app_nil_r. }
  destruct (nblocks_step off (n - tot)) as (Hm1 & Hm2 & Hnb & Hnb1); [lia | lia |].
  set (m := Z.min (n - tot) (BSIZE - off mod BSIZE)) in *.
  assert (Hb : fblk a D (off / BSIZE) <> 0) by (apply Hfull; lia).
  assert (Hidx : 0 <= off / BSIZE < MAXFILE) by (apply block_index; lia).
  destruct (bmap_found _ _ _ _ _ _ ip _ T Hdev F Hidx Hb) as (s1 & v1 & E1 & T1 & S1). fold a in E1.
  erewrite bind_ok by exact E1. erewrite bind_ok by reflexivity. rewrite (proj2 S1), Hdev.
  pose proof (fo_blk _ _ F _ Hidx Hb) as Hd.
  destruct (bread_tx g _ _ _ _ _ _ _ _ T1 (data_usable _ _ Hd)) as (i & s2 & E2 & T2 & B2 & S2 & D2 & _);
    [set_solver | by rewrite size_empty; lia |].
  erewrite bind_ok by exact E2. cbv zeta. erewrite bind_ok by reflexivity. rewrite D2.
  destruct (brelse_tx g _ _ _ _ _ _ _ i (fblk a D (off / BSIZE)) T2) as (s3 & E3 & T3 & S3 & _); [set_solver | done |].
  erewrite bind_ok by exact E3. assert (S03 : same_fs s s3) by eauto using same_fs_trans.
  rewrite block_bytes by (done || apply Hd || lia).
  replace (({[fblk a D (off / BSIZE)]} ∪ ∅) ∖ {[fblk a D (off / BSIZE)]} : gset Z) with (∅ : gset Z) in T3 by set_solver.
  assert (Ea : i_addrs (icache s3 ip) = a) by (by rewrite (proj2 S03)).
  destruct (IH s3 _ (off + m) (tot + m) (acc ++ fbytes a D off (Z.to_nat m)) T3) as (s' & v' & E' & T' & S');
    rewrite ?Ea, ?(proj2 S03); try done; try lia.
  { intros o Ho'. apply Hfull. lia. }
  { replace (n - (tot + m)) with (n - tot - m) by lia. lia. }
  rewrite Ea in E'. exists s', v'. split_and!; [| done | by eauto using same_fs_trans].
  fold m. rewrite E'. f_equal. rewrite <- app_assoc. f_equal.
  replace (off + m) with (off + Z.of_nat (Z.to_nat m)) by lia. rewrite <- fbytes_app. f_equal. lia.
Qed.

(** ** writei *)

Lemma length_splice d o src : (o + length src <= length d)%nat -> length (splice d o src) = length d.
Proof. intros Hl. unfold splice. rewrite !length_app, length_take, length_drop. lia. Qed.

Lemma getb_splice d o src k :
  (o + length src <= length d)%nat -> (k < length d)%nat ->
  getb (splice d o src) k = if decide (o <= k < o + length src)%nat then src !!! (k - o)%nat else getb d k.
Proof.
  intros Hl Hk. unfold getb, splice. assert (Ht : length (take o d) = o) by (rewrite length_take; lia). case_decide as E.
  - rewrite lookup_total_app_r by lia. rewrite Ht. apply lookup_total_app_l. lia.
  - destruct (decide (k < o)%nat) as [Hlt | Hge].
    + rewrite lookup_total_app_l by lia. by rewrite lookup_total_take_lt.
    + rewrite !lookup_total_app_r by (rewrite ?Ht; lia). rewrite lookup_total_drop, Ht. f_equal. lia.
Qed.

Lemma write_fblk D a b x n : b <> ind a -> fblk a (bupd D b x) n = fblk a D n.
Proof. intros Hb. unfold fblk. by rewrite bupd_other by congruence. Qed.

(** Contents stored in a block of the file. *)
Lemma fgrow_write D a n x :
  map_ok D -> file_ok D a -> 0 <= n < MAXFILE -> fblk a D n <> 0 -> length x = 512%nat ->
  fgrow {[fblk a D n]} D a (bupd D (fblk a D n) x) a.
Proof.
  intros M F Hn Hb Hx. set (b := fblk a D n) in *. pose proof (data_range _ _ (fo_blk _ _ F n Hn Hb)) as (P1 & P2 & P3 & P4).
  fold b in P1, P2, P3, P4. assert (Hbi : b <> ind a) by (by apply F).
  assert (Hmap : bupd D b x bm = D bm) by (by apply bupd_other).
  assert (Hdata : forall c, data_block D c -> data_block (bupd D b x) c).
  { intros c (Q1 & Q2 & Q3). unfold data_block. rewrite Hmap. split_and!; try lia; [done |]. unfold bupd. by case_decide. }
  split; try done.
  - destruct M as [Q1 Q2]. split; by rewrite Hmap.
  - split; try apply F.
    + intros m Hm. rewrite write_fblk by done. intros ?. by apply Hdata, F.
    + intros ?. by apply Hdata, F.
    + intros k m Hk Hm. rewrite !write_fblk by done. by apply F.
    + intros m Hm. rewrite write_fblk by done. by apply F.
  - intros m Hm _. by apply write_fblk.
  - intros m Hm E. rewrite write_fblk by done. done.
  - intros m Hm E. rewrite write_fblk by done. done.
  - intros c Hc. by rewrite Hmap.
  - intros c _ _ _ _ Hc. apply bupd_other. set_solver.
Qed.

(** The bytes [src] are in the file at [off], in blocks it has, and the other bytes are as before. *)
Record wrote (off : Z) (src : list Z) (D : Z -> block) (a : list Z) (D' : Z -> block) (a' : list Z) : Prop := {
  wr_byte : forall o, 0 <= o < MAXFILE * BSIZE -> fbyte a' D' o =
    if decide (off <= o < off + Z.of_nat (length src)) then src !!! Z.to_nat (o - off) else fbyte a D o;
  wr_full : forall o, off <= o < off + Z.of_nat (length src) -> fblk a' D' (o / BSIZE) <> 0
}.

(** Storing part of a block. *)
Lemma wrote_block D a off src :
  file_ok D a -> 0 <= off -> off + Z.of_nat (length src) <= MAXFILE * BSIZE -> fblk a D (off / BSIZE) <> 0 ->
  0 < Z.of_nat (length src) <= BSIZE - off mod BSIZE ->
  let b := fblk a D (off / BSIZE) in
  wrote off src D a (bupd D b (splice (D b) (Z.to_nat (off mod BSIZE)) src)) a.
Proof.
  intros F Ho Hend Hb Hlen b. assert (Hidx : 0 <= off / BSIZE < MAXFILE) by (apply block_index; lia).
  assert (Hbi : b <> ind a) by (by apply F). pose proof (fo_blk _ _ F _ Hidx Hb) as (_ & _ & Hl). fold b in Hl.
  assert (Hmod : 0 <= off mod BSIZE < 512) by (apply Z.mod_pos_bound; unfold BSIZE; lia).
  assert (Hlen' : Z.of_nat (length src) <= 512 - off mod BSIZE) by apply Hlen.
  split.
  - intros o Hor. unfold fbyte. rewrite write_fblk by done. pose proof (block_index _ Hor) as Hio.
    assert (Hmo : 0 <= o mod BSIZE < 512) by (apply Z.mod_pos_bound; unfold BSIZE; lia).
    destruct (decide (o / BSIZE = off / BSIZE)) as [Ei | Ei].
    + rewrite Ei, (proj2 (Z.eqb_neq _ _) Hb). fold b. rewrite bupd_same, getb_splice by lia.
      pose proof (Z.div_mod o BSIZE ltac:(done)). pose proof (Z.div_mod off BSIZE ltac:(done)).
      unfold BSIZE in *. repeat case_decide; try lia. f_equal. lia.
    + destruct (Z.eqb_spec (fblk a D (o / BSIZE)) 0) as [E | E].
      * rewrite decide_False; [done |]. intros Hin. destruct (same_block off (Z.of_nat (length src)) (o - off)) as [Q _]; try lia.
        replace (off + (o - off)) with o in Q by lia. done.
      * rewrite bupd_other by (intros Eb; apply Ei; by apply (fo_inj _ _ F)). rewrite decide_False; [done |].
        intros Hin. destruct (same_block off (Z.of_nat (length src)) (o - off)) as [Q _]; try lia.
        replace (off + (o - off)) with o in Q by lia. done.
  - intros o Hin. rewrite write_fblk by done. destruct (same_block off (Z.of_nat (length src)) (o - off)) as [Q _]; try lia.
    replace (off + (o - off)) with o in Q by lia. by rewrite Q.
Qed.

Lemma wrote_grow off src D a D1 a1 D' a' :
  file_ok D a -> fgrow ∅ D a D1 a1 -> wrote off src D1 a1 D' a' -> wrote off src D a D' a'.
Proof.
  intros F G [W1 W2]. split; [| done]. intros o Ho. rewrite W1 by done. case_decide; [done |]. by apply fgrow_fbyte.
Qed.

Lemma wrote_app off src src' W D a D1 a1 D2 a2 :
  0 <= off -> off + Z.of_nat (length src) <= MAXFILE * BSIZE ->
  wrote off src D a D1 a1 -> fgrow W D1 a1 D2 a2 -> wrote (off + Z.of_nat (length src)) src' D1 a1 D2 a2 ->
  wrote off (src ++ src') D a D2 a2.
Proof.
  intros Ho Hend [W1 W2] G [V1 V2]. split; rewrite length_app, Nat2Z.inj_add.
  - intros o Hr. rewrite V1 by done. case_decide.
    + rewrite decide_True by lia. rewrite lookup_total_app_r by lia. f_equal. lia.
    + rewrite W1 by done. case_decide.
      * rewrite decide_True by lia. symmetry. apply lookup_total_app_l. lia.
      * by rewrite decide_False by lia.
  - intros o Hr. destruct (decide (o < off + Z.of_nat (length src))); [| apply V2; lia].
    pose proof (W2 o ltac:(lia)) as Hb. rewrite (fg_blk _ _ _ _ _ G); [done | apply block_index; lia | done].
Qed.

(** Every block written belongs to the file. *)
Definition in_file (W : gset Z) (D : Z -> block) (a : list Z) : Prop :=
  forall c, c ∈ W -> exists n, 0 <= n < MAXFILE /\ c <> 0 /\ fblk a D n = c.

Lemma in_file_grow W W' D a D' a' : in_file W D a -> fgrow W' D a D' a' -> in_file W D' a'.
Proof.
  intros HW G c Hc. destruct (HW c Hc) as (n & Hn & H0' & E). exists n. split; [done | split; [done |]].
  rewrite (fg_blk _ _ _ _ _ G); congruence.
Qed.

(** One pass of the loop of [writei]: the bytes [chunk] stored in block [off / BSIZE] of the file. *)
Lemma write_block_tx C r D s ip off chunk m :
  let a := i_addrs (icache s ip) in
  txe C r D ∅ s -> f_sb s = sb -> i_dev (icache s ip) = ROOTDEV -> map_ok D -> file_ok D a -> bm ∈ C ->
  0 <= off -> off + Z.of_nat (length chunk) <= MAXFILE * BSIZE -> 0 < Z.of_nat (length chunk) <= BSIZE - off mod BSIZE ->
  pot C a + 1 <= r -> free_at_least (D bm) size (Datatypes.S m + pfree a) ->
  exists C' r' D' a' W s',
    (forall A (k : M (fstate S) A),
      (b ← bmap ip (off / BSIZE) ; x ← the_inode ip ; bp ← disk (bread (i_dev x) b) ; d ← data_of bp ;
       disk (buf_set bp (splice d (Z.to_nat (off mod BSIZE)) chunk)) ;; in_log_ (log_write bp) ;; disk (brelse bp) ;; k) s = k s') /\
    txe C' r' D' ∅ s' /\ only_addrs ip a' s s' /\ fgrow W D a D' a' /\ in_file W D' a' /\ wrote off chunk D a D' a' /\
    C ⊆ C' /\ r - pot C a - 1 <= r' - pot C' a' /\ free_at_least (D' bm) size (m + pfree a').
Proof.
  intros a T Hsb Hdev M F HbC Ho Hend Hlen Hr Hfree.
  assert (Hidx : 0 <= off / BSIZE < MAXFILE) by (apply block_index; lia).
  destruct (bmap_tx C r D s ip (off / BSIZE) m T Hsb Hdev M F HbC Hidx Hr Hfree) as
    (b & s1 & E1 & C1 & r1 & D1 & a1 & [v1 T1] & O1 & G1 & Eb & Hb & HC1 & Hr1 & Hf1).
  destruct (only_addrs_ip _ _ _ _ O1) as [Ea1 Ed1]. fold a in G1, Hr1. pose proof (fg_file _ _ _ _ _ G1) as F1. subst b.
  pose proof (fo_blk _ _ F1 _ Hidx Hb) as Hd. pose proof (data_range _ _ Hd) as (P1 & P2 & P3 & P4).
  destruct (bread_tx g _ _ _ _ _ _ _ _ T1 (data_usable _ _ Hd)) as (i & s2 & E2 & T2 & B2 & S2 & D2 & _);
    [set_solver | by rewrite size_empty; lia |].
  set (b := fblk a1 D1 (off / BSIZE)) in *. set (x := splice (D1 b) (Z.to_nat (off mod BSIZE)) chunk).
  assert (Hcost : b ∈ C1 \/ 1 <= r1).
  { unfold logged_cost in Hr1. destruct (decide (b ∈ C1)); [by left | right].
    assert (0 <= pot C1 a1) by (unfold pot; case_decide; lia). lia. }
  destruct (setlog_tx g C1 r1 D1 ({[b]} ∪ ∅) s2 _ i b x T2) as (s3 & E3 & T3 & S3 & K3);
    [set_solver | by apply (data_usable D1) | done | done |].
  destruct (brelse_tx g _ _ _ _ _ _ _ i b T3) as (s4 & E4 & T4 & S4 & _); [set_solver | by apply K3 |].
  assert (S14 : same_fs s1 s4) by eauto using same_fs_trans.
  assert (Hmod : 0 <= off mod BSIZE < BSIZE) by (apply Z.mod_pos_bound; unfold BSIZE; lia).
  assert (Hx : length x = 512%nat).
  { destruct Hd as (_ & _ & Hl). unfold x. rewrite length_splice; [done |]. rewrite Hl. unfold BSIZE in *. lia. }
  pose proof (fgrow_write D1 a1 (off / BSIZE) x (fg_map _ _ _ _ _ G1) F1 Hidx Hb Hx) as G2. fold b in G2.
  exists ({[b]} ∪ C1), (charge b C1 r1), (bupd D1 b x), a1, (∅ ∪ {[b]}), s4. split_and!.
  - intros A k. erewrite bind_ok by exact E1. erewrite bind_ok by reflexivity. rewrite Ed1, Hdev.
    erewrite bind_ok by exact E2. erewrite bind_ok by reflexivity. rewrite D2. fold x. rewrite E3.
    by erewrite bind_ok by exact E4.
  - eexists. replace ∅ with (({[b]} ∪ ∅) ∖ {[b]} : gset Z) by set_solver. exact T4.
  - by eapply only_addrs_same.
  - by eapply fgrow_trans.
  - intros c Hc. assert (c = b) as -> by set_solver. exists (off / BSIZE). split; [done | split; [done |]].
    apply write_fblk. by apply F1.
  - eapply wrote_grow; [done | exact G1 |]. unfold x, b. by apply wrote_block.
  - set_solver.
  - pose proof (pot_mono C1 ({[b]} ∪ C1) a1 a1 ltac:(set_solver) eq_refl). unfold charge, logged_cost in *. case_decide; lia.
  - by rewrite bupd_other by done.
Qed.

Lemma writei_loop_tx ip n fuel : forall C r D s off tot src,
  let a := i_addrs (icache s ip) in
  txe C r D ∅ s -> f_sb s = sb -> i_dev (icache s ip) = ROOTDEV -> map_ok D -> file_ok D a -> bm ∈ C ->
  0 <= off -> 0 <= tot <= n -> off + (n - tot) <= MAXFILE * BSIZE -> Z.of_nat (length src) = n - tot ->
  nblocks off (n - tot) < Z.of_nat fuel -> nblocks off (n - tot) + pot C a <= r ->
  free_at_least (D bm) size (Z.to_nat (nblocks off (n - tot)) + pfree a) ->
  exists C' r' D' a' W s', writei_loop fuel ip off tot n src s = Ok (off + (n - tot)) s' /\
    txe C' r' D' ∅ s' /\ only_addrs ip a' s s' /\ fgrow W D a D' a' /\ in_file W D' a' /\ wrote off src D a D' a' /\
    C ⊆ C' /\ r - pot C a - nblocks off (n - tot) <= r' - pot C' a'.
Proof.
  induction fuel as [|f IH]; intros C r D s off tot src a T Hsb Hdev M F HbC Ho Ht Hend Hlen Hfuel Hr Hfree.
  { pose proof (nblocks_nonneg off (n - tot)). lia. }
  cbn [writei_loop]. zcase (tot <? n); cbn [negb].
  2: { assert (n - tot = 0) as E0 by lia. rewrite E0 in *. exists C, r, D, a, ∅, s. rewrite Z.add_0_r.
       assert (Enb : nblocks off 0 = 0) by done. rewrite Enb in *.
       split_and!; try done; [by apply only_addrs_refl | split |]; rewrite ?Hlen.
       - intros o Hor. by rewrite decide_False by lia.
       - lia.
       - lia. }
  destruct (nblocks_step off (n - tot)) as (Hm1 & Hm2 & Hnb & Hnb1); [lia | lia |].
  set (m := Z.min (n - tot) (BSIZE - off mod BSIZE)) in *. set (chunk := take (Z.to_nat m) src).
  assert (Hcl : Z.of_nat (length chunk) = m) by (unfold chunk; rewrite length_take; lia).
  destruct (write_block_tx C r D s ip off chunk (Z.to_nat (nblocks off (n - tot) - 1))) as
    (C1 & r1 & D1 & a1 & W1 & s1 & E1 & T1 & O1 & G1 & I1 & V1 & HC1 & Hr1 & Hf1); try done; try lia.
  { fold a. lia. }
  { fold a. by replace (Datatypes.S (Z.to_nat (nblocks off (n - tot) - 1))) with (Z.to_nat (nblocks off (n - tot))) by lia. }
  cbv zeta. rewrite E1. destruct (only_addrs_ip _ _ _ _ O1) as [Ea1 Ed1]. fold a in G1, V1, Hr1.
  destruct (IH C1 r1 D1 s1 (off + m) (tot + m) (drop (Z.to_nat m) src)) as
    (C2 & r2 & D2 & a2 & W2 & s2 & E2 & T2 & O2 & G2 & I2 & V2 & HC2 & Hr2);
    replace (n - (tot + m)) with (n - tot - m) in * by lia; rewrite ?Ea1, ?Hnb in *;
    [done | by rewrite (proj1 O1) | congruence | apply G1 | apply G1 | by apply HC1 | lia | lia | lia |
     rewrite length_drop; lia | lia | lia | done |].
  exists C2, r2, D2, a2, (W1 ∪ W2), s2. split_and!.
  - rewrite E2. f_equal. lia.
  - done.
  - by eapply only_addrs_trans.
  - by eapply fgrow_trans.
  - intros c [Hc | Hc]%elem_of_union; [exact (in_file_grow _ _ _ _ _ _ I1 G2 c Hc) | by apply I2].
  - rewrite <- (take_drop (Z.to_nat m) src). fold chunk. eapply wrote_app; [done | lia | exact V1 | exact G2 |].
    by rewrite Hcl.
  - set_solver.
  - lia.
Qed.

(** Contents stored in a block that is not data leave the file alone. *)
Lemma meta_write D a c x :
  map_ok D -> file_ok D a -> c < ds -> c <> bm ->
  map_ok (bupd D c x) /\ file_ok (bupd D c x) a /\ (forall n, fblk a (bupd D c x) n = fblk a D n) /\
  (forall o, 0 <= o < MAXFILE * BSIZE -> fbyte a (bupd D c x) o = fbyte a D o).
Proof.
  intros M F Hc Hbm. assert (Hmap : bupd D c x bm = D bm) by (apply bupd_other; congruence).
  assert (Hd : forall d, data_block D d -> bupd D c x d = D d /\ data_block (bupd D c x) d).
  { intros d (Q1 & Q2 & Q3). assert (E : bupd D c x d = D d) by (apply bupd_other; lia).
    split; [done |]. unfold data_block. rewrite Hmap, E. done. }
  assert (Hf : forall n, fblk a (bupd D c x) n = fblk a D n).
  { intros n. unfold fblk. destruct (n <? _); [done |]. destruct (Z.eqb_spec (ind a) 0) as [E | E]; [done |].
    by rewrite (proj1 (Hd _ (fo_ind _ _ F E))). }
  split_and!.
  - destruct M as [M1 M2]. split; by rewrite Hmap.
  - split; try apply F.
    + intros n Hn. rewrite Hf. intros E. by apply Hd, F.
    + intros E. by apply Hd, F.
    + intros n m Hn Hm. rewrite !Hf. by apply F.
    + intros n Hn. rewrite Hf. by apply F.
  - exact Hf.
  - intros o Ho. unfold fbyte. rewrite Hf. destruct (Z.eqb_spec (fblk a D (o / BSIZE)) 0) as [E | E]; [done |].
    by rewrite (proj1 (Hd _ (fo_blk _ _ F _ (block_index _ Ho) E))).
Qed.

Lemma iupdate_tx C r D s ip :
  let x := icache s ip in let c := IBLOCK (i_inum x) sb in
  txe C r D ∅ s -> f_sb s = sb -> i_dev x = ROOTDEV -> 0 <= i_inum x < sb_ninodes sb -> 1 <= r ->
  exists C' r' s', iupdate ip s = Ok tt s' /\ txe C' r' (bupd D c (put_dinode (D c) x)) ∅ s' /\ same_fs s s' /\
    C ⊆ C' /\ r - 1 <= r'.
Proof.
  intros x c [v T] Hsb Hdev Hi Hr. unfold iupdate. erewrite bind_ok by reflexivity. fold x.
  erewrite bind_ok by reflexivity. rewrite Hsb, Hdev. fold c. destruct (lay_inode Hlay _ Hi) as (Hc & _).
  destruct (bread_tx g _ _ _ _ _ _ _ _ T Hc) as (i & s1 & E1 & T1 & B1 & S1 & D1 & _);
    [set_solver | by rewrite size_empty; lia |].
  fold c in E1, T1, B1, D1. erewrite bind_ok by exact E1. erewrite bind_ok by reflexivity. rewrite D1.
  destruct (setlog_tx g C r D ({[c]} ∪ ∅) s1 _ i c (put_dinode (D c) x) T1) as (s2 & E2 & T2 & S2 & K2);
    [set_solver | done | done | by right |].
  rewrite E2. destruct (brelse_tx g _ _ _ _ _ _ _ i c T2) as (s3 & E3 & T3 & S3 & _); [set_solver | by apply K2 |].
  exists ({[c]} ∪ C), (charge c C r), s3. split_and!; [exact E3 | | by eauto using same_fs_trans | set_solver |].
  - eexists. replace ∅ with (({[c]} ∪ ∅) ∖ {[c]} : gset Z) by set_solver. exact T3.
  - unfold charge. case_decide; lia.
Qed.

(** A regular file, locked, with its inode in the cache: no holes below its size. *)
Record regular (D : Z -> block) (x : inode) : Prop := {
  rg_dev : i_dev x = ROOTDEV;
  rg_inum : 0 <= i_inum x < sb_ninodes sb;
  rg_type : i_type x <> T_DEV;
  rg_size : 0 <= i_size x <= MAXFILE * BSIZE;
  rg_ok : file_ok D (i_addrs x);
  rg_full : forall o, 0 <= o < i_size x -> fblk (i_addrs x) D (o / BSIZE) <> 0
}.

Lemma max_bytes : MAXFILE * BSIZE = 71680.
Proof. reflexivity. Qed.

(** [readi] gives the bytes of the file, up to its end. *)
Lemma readi_tx devread wr C r D s v ip off n :
  let x := icache s ip in
  ftx g wr C r D ∅ s v -> regular D x -> 0 <= off <= i_size x -> 0 <= n < 2 ^ 31 ->
  let k := Z.min n (i_size x - off) in
  exists s' v', readi devread ip off n s = Ok (k, fbytes (i_addrs x) D off (Z.to_nat k)) s' /\
    ftx g wr C r D ∅ s' v' /\ same_fs s s'.
Proof.
  intros x T [R1 R2 R3 R4 R5 R6] Ho Hn k. pose proof max_bytes as Hmax. unfold readi. erewrite bind_ok by reflexivity. fold x.
  rewrite (proj2 (Z.eqb_neq _ _) R3). rewrite u32_small by lia.
  rewrite (proj2 (Z.ltb_ge (i_size x) off)), (proj2 (Z.ltb_ge (off + n) off)) by lia. cbn [orb].
  assert (Ek : (if i_size x <? off + n then i_size x -u off else n) = k).
  { zcase (i_size x <? off + n); [rewrite u32_small by lia |]; unfold k; lia. }
  rewrite Ek. cbv zeta.
  destruct (readi_loop_tx wr C r D (io_fuel k) ip k s v off 0 []) as (s' & v' & E & T' & S'); try done; fold x; try lia.
  { intros o Hor. apply R6. lia. }
  { rewrite Z.sub_0_r. apply io_fuel_enough; lia. }
  fold x in E. rewrite Z.sub_0_r in E. erewrite bind_ok by exact E. by exists s', v'.
Qed.

(** A block in use that is neither the free map nor a block of the file or its inode. *)
Definition foreign (D : Z -> block) (x : inode) (c : Z) : Prop :=
  0 <= c < size /\ bit_used (D bm) c = true /\ c <> bm /\ c <> IBLOCK (i_inum x) sb /\ c <> ind (i_addrs x) /\
  forall n, 0 <= n < MAXFILE -> fblk (i_addrs x) D n <> c.

(** What [writei] leaves of the bytes [src] at [off]. *)
Record written (off : Z) (src : list Z) (D : Z -> block) (s : fstate S) (ip : nat) (D' : Z -> block) (s' : fstate S) : Prop := {
  wn_map : map_ok D';
  wn_regular : regular D' (icache s' ip);
  wn_size : i_size (icache s' ip) = Z.max (i_size (icache s ip)) (off + Z.of_nat (length src));
  wn_byte : forall o, 0 <= o < MAXFILE * BSIZE -> fbyte (i_addrs (icache s' ip)) D' o =
    if decide (off <= o < off + Z.of_nat (length src)) then src !!! Z.to_nat (o - off)
    else fbyte (i_addrs (icache s ip)) D o;
  wn_foreign : forall c, foreign D (icache s ip) c -> D' c = D c /\ bit_used (D' bm) c = true;
  wn_icache : f_sb s' = f_sb s /\ forall j, j <> ip -> icache s' j = icache s j;
  wn_inode : exists a', icache s' ip =
    set_size (Z.max (i_size (icache s ip)) (off + Z.of_nat (length src))) (with_addrs a' (icache s ip));
  wn_disk : i_size (icache s ip) < off + Z.of_nat (length src) ->
    let c := IBLOCK (i_inum (icache s ip)) sb in D' c = put_dinode (D c) (icache s' ip)
}.

(** A foreign block is none of those the file gained or wrote. *)
Lemma foreign_kept W D x D' a' c :
  file_ok D (i_addrs x) -> fgrow W D (i_addrs x) D' a' -> in_file W D' a' -> foreign D x c -> D' c = D c /\ bit_used (D' bm) c = true.
Proof.
  intros F G I (H1 & H2 & H3 & H4 & H5 & H6). split; [| by apply (fg_used _ _ _ _ _ G)].
  apply (fg_other _ _ _ _ _ G); try done. intros Hc. destruct (I c Hc) as (n & Hn & Hc0 & E).
  destruct (decide (fblk (i_addrs x) D n = 0)) as [N0 | N0].
  - pose proof (fg_free _ _ _ _ _ G n Hn N0) as Hu. rewrite E in Hu. rewrite Hu in H2 by done. done.
  - rewrite (fg_blk _ _ _ _ _ G n Hn N0) in E. by destruct (H6 n Hn).
Qed.

(** The inode's block is neither data nor the free map. *)
Lemma iblock_kept W D x D' a' :
  map_ok D -> file_ok D (i_addrs x) -> 0 <= i_inum x < sb_ninodes sb -> fgrow W D (i_addrs x) D' a' -> in_file W D' a' ->
  D' (IBLOCK (i_inum x) sb) = D (IBLOCK (i_inum x) sb).
Proof.
  intros M F Hi G I. set (c := IBLOCK (i_inum x) sb). destruct (lay_inode Hlay _ Hi) as ((Q1 & _) & Q2 & Q3). fold c in Q1, Q2, Q3.
  pose proof (lay_size Hlay). apply (fg_other _ _ _ _ _ G); [lia | apply M; lia | done | |].
  - intros E. assert (Hi0 : ind (i_addrs x) <> 0) by lia. apply F in Hi0 as (Hd & _). lia.
  - intros Hc. destruct (I c Hc) as (n & Hn & Hc0 & E). rewrite <- E in Hc0. apply G in Hc0 as (Hd & _); [lia | done].
Qed.

(** The parts of [written], from the growth of the file and a last store outside its data. *)
Lemma written_intro W D D1 D2 s s2 ip off src a1 :
  let x := icache s ip in let n := Z.of_nat (length src) in
  map_ok D -> regular D x -> 0 <= off <= i_size x -> off + n <= MAXFILE * BSIZE ->
  fgrow W D (i_addrs x) D1 a1 -> in_file W D1 a1 -> wrote off src D (i_addrs x) D1 a1 ->
  map_ok D2 -> file_ok D2 a1 -> (forall k, fblk a1 D2 k = fblk a1 D1 k) ->
  (forall o, 0 <= o < MAXFILE * BSIZE -> fbyte a1 D2 o = fbyte a1 D1 o) -> D2 bm = D1 bm ->
  (forall c, c <> IBLOCK (i_inum x) sb -> D2 c = D1 c) ->
  f_sb s2 = f_sb s -> icache s2 = fupd (icache s) ip (set_size (Z.max (i_size x) (off + n)) (with_addrs a1 x)) ->
  (i_size x < off + n -> D2 (IBLOCK (i_inum x) sb) = put_dinode (D (IBLOCK (i_inum x) sb)) (icache s2 ip)) ->
  written off src D s ip D2 s2.
Proof.
  intros x n M [R1 R2 R3 R4 R5 R6] Ho Hend G1 I1 V1 M2 F2 Hf Hb Hbm Hoth Hsb E Hdisk.
  split; rewrite ?E, ?fupd_same; simpl; try done.
  - split; simpl; try done; [lia |]. intros o Hor. rewrite Hf.
    destruct (decide (off <= o < off + n)); [apply (wr_full _ _ _ _ _ _ V1); fold n; lia |].
    pose proof (R6 o ltac:(lia)) as Hbo. rewrite (fg_blk _ _ _ _ _ G1); [done | apply block_index; lia | done].
  - intros o Hor. rewrite Hb by done. by apply V1.
  - intros c Hc. rewrite Hbm, Hoth by apply Hc. by eapply foreign_kept.
  - split; [done |]. intros j Hj. by apply fupd_other.
  - by exists a1.
  - intros Hlt. specialize (Hdisk Hlt). rewrite E, fupd_same in Hdisk. exact Hdisk.
Qed.

Lemma writei_tx devwrite C r D s ip off src :
  let x := icache s ip in let n := Z.of_nat (length src) in
  txe C r D ∅ s -> f_sb s = sb -> map_ok D -> regular D x -> bm ∈ C -> 0 <= off <= i_size x -> off + n <= MAXFILE * BSIZE ->
  nblocks off n + 2 <= r -> free_at_least (D bm) size (Z.to_nat (nblocks off n) + 1) ->
  exists C' r' D' s', writei devwrite ip src off n s = Ok n s' /\ txe C' r' D' ∅ s' /\ written off src D s ip D' s'.
Proof.
  intros x n T Hsb M R HbC Ho Hend Hr Hfree. pose proof R as [R1 R2 R3 R4 R5 R6]. pose proof max_bytes as Hmax.
  unfold writei. erewrite bind_ok by reflexivity. fold x. rewrite (proj2 (Z.eqb_neq _ _) R3). rewrite u32_small by lia.
  rewrite (proj2 (Z.ltb_ge (i_size x) off)), (proj2 (Z.ltb_ge (off + n) off)), (proj2 (Z.ltb_ge (MAXFILE * BSIZE) (off + n))) by lia.
  cbn [orb].
  assert (Hpot : 0 <= pot C (i_addrs x) <= 1) by (unfold pot; case_decide; lia).
  destruct (writei_loop_tx ip n (io_fuel n) C r D s off 0 src) as
    (C1 & r1 & D1 & a1 & W & s1 & E1 & T1 & O1 & G1 & I1 & V1 & HC1 & Hr1); rewrite ?Z.sub_0_r; try done; fold x; try lia.
  { apply io_fuel_enough; lia. }
  { eapply free_at_least_le; [| exact Hfree]. unfold pfree. case_decide; lia. }
  rewrite Z.sub_0_r in *. fold x in G1, V1, Hr1. erewrite bind_ok by exact E1. erewrite bind_ok by reflexivity.
  destruct O1 as [O1 O2]. fold x in O2. rewrite O2, fupd_same. cbn [i_size with_addrs].
  assert (Hpot1 : 0 <= pot C1 a1) by (unfold pot; case_decide; lia).
  pose proof (iblock_kept _ _ _ _ _ M R5 R2 G1 I1) as Hib. destruct (lay_inode Hlay _ R2) as (_ & Q2 & Q3).
  zcase ((0 <? n) && (i_size x <? off + n)).
  - set (s2 := FState (f_log s1) (f_sb s1) (fupd (icache s) ip (set_size (off + n) (with_addrs a1 x)))).
    assert (E2 : upd_inode ip (set_size (off + n)) s1 = Ok tt s2).
    { unfold upd_inode. erewrite bind_ok by reflexivity. unfold set_inode, modify, s2. by rewrite O2, fupd_same, fupd_fupd. }
    assert (Ex : icache s2 ip = set_size (off + n) (with_addrs a1 x)) by (apply fupd_same).
    destruct (iupdate_tx C1 r1 D1 s2 ip) as (C3 & r3 & s3 & E3 & T3 & S3 & HC3 & Hr3); rewrite ?Ex; try done.
    { destruct T1 as [v1 T1]. eexists. eapply ftx_log; [| exact T1]. done. }
    { simpl. congruence. }
    { lia. }
    rewrite Ex in T3. cbn [i_inum set_size with_addrs] in T3.
    erewrite bind_ok by (erewrite bind_ok by exact E2; exact E3).
    destruct (meta_write D1 a1 (IBLOCK (i_inum x) sb) (put_dinode (D1 (IBLOCK (i_inum x) sb)) (set_size (off + n) (with_addrs a1 x)))
      (fg_map _ _ _ _ _ G1) (fg_file _ _ _ _ _ G1) ltac:(lia) Q3) as (W1 & W2 & W3 & W4).
    eexists C3, r3, _, s3. split; [reflexivity |]. split; [exact T3 |]. eapply written_intro; fold x n; try done.
    + apply bupd_other. congruence.
    + intros c Hc. by apply bupd_other.
    + rewrite (proj1 S3). simpl. congruence.
    + rewrite (proj2 S3). unfold s2. cbn [icache]. by replace (Z.max (i_size x) (off + n)) with (off + n) by lia.
    + intros _. by rewrite bupd_same, Hib, (proj2 S3), Ex.
  - erewrite bind_ok by reflexivity. assert (Hle : Z.max (i_size x) (off + n) = i_size x).
    { destruct (Z.ltb_spec 0 n); destruct (Z.ltb_spec (i_size x) (off + n)); simpl in *; try done; lia. }
    exists C1, r1, D1, s1. split; [reflexivity |]. split; [done |]. eapply written_intro; fold x n; try done; try apply G1.
    + rewrite Hle, O2. done.
    + lia.
Qed.
End files.

(** ** Properties *)

(** C2: what is written to a file is read back.  Inside a transaction with room in the log, on a disk
    laid out as mkfs does it with enough free blocks, [writei] of bytes [src] at an offset within a
    regular file returns their number, allocating direct blocks, the indirect block and its entries
    as needed; then [readi] at that offset returns exactly [src].  Every other byte of the file, the
    blocks of every other file and the other cached inodes are as before, the file is still regular
    with the larger of the two sizes, and where it grew its inode was stored in its block on disk. *)
Theorem writei_readi_roundtrip {St : Type} `{BlockStoreLaws St} (g : log) (sb : superblock) (ds : Z)
    (devread : Z -> option (nat -> Z -> M (fstate St) (Z * list Z)))
    (devwrite : Z -> option (nat -> list Z -> Z -> M (fstate St) Z))
    (C : gset Z) (r : Z) (D : Z -> block) (s : fstate St) (v : bview) (ip : nat) (off : Z) (src : list Z) :
  let n := Z.of_nat (length src) in
  layout g sb ds -> ftx g true C r D ∅ s v -> f_sb s = sb -> map_ok sb ds D -> regular sb ds D (icache s ip) ->
  sb_bmapstart sb ∈ C -> 0 <= off <= i_size (icache s ip) -> off + n <= MAXFILE * BSIZE ->
  nblocks off n + 2 <= r -> free_at_least (D (sb_bmapstart sb)) (sb_size sb) (Z.to_nat (nblocks off n) + 1) ->
  exists C' r' D' s' v', writei devwrite ip src off n s = Ok n s' /\ ftx g true C' r' D' ∅ s' v' /\
    written sb ds off src D s ip D' s' /\
    exists s2 v2, readi devread ip off n s' = Ok (n, src) s2 /\ ftx g true C' r' D' ∅ s2 v2 /\ same_fs s' s2.
Proof.
  intros n L T Hsb M R HbC Ho Hend Hr Hfree. pose proof max_bytes as Hmax.
  destruct (writei_tx g sb ds L devwrite C r D s ip off src) as (C' & r' & D' & s' & E & [v' T'] & W); try done; [by eexists |].
  exists C', r', D', s', v'. split_and!; try done. pose proof (wn_size _ _ _ _ _ _ _ _ _ W) as Hsz. fold n in Hsz.
  destruct (readi_tx g sb ds L devread true C' r' D' s' v' ip off n) as (s2 & v2 & E2 & T2 & S2); try done; try lia; [apply W |].
  exists s2, v2. split_and!; try done. rewrite E2. rewrite Z.min_l by lia. do 2 f_equal.
  apply list_eq_same_length with (n := length src); [done | unfold fbytes; rewrite length_fmap, length_seq; lia |].
  intros i x y Hi Hx Hy. unfold fbytes in Hx. rewrite list_lookup_fmap, lookup_seq_lt in Hx by lia. injection Hx as <-.
  rewrite (wn_byte _ _ _ _ _ _ _ _ _ W), decide_True by lia. apply list_lookup_total_correct. rewrite <- Hy. f_equal. lia.
Qed.

(** A disk with 200 inodes from block 32, the free map at 58 and data from 59, and an empty file. *)
Definition fresh_sb : superblock := Super 1000 941 200 30 2 32 58.
Definition fresh_disk : Z -> block := fun b =>
  if b =? 58 then replicate 7 255 ++ [7] ++ replicate 504 0 else zero_block.
Definition fresh_inode : inode := Inode 1 5 1 (Sleep.SL true 1) true T_FILE 0 0 1 0 (replicate 13 0).

Lemma fresh_layout : layout demo_log fresh_sb 59.
Proof.
  split; unfold usable, in_log, FSSIZE; simpl; try lia.
  intros i Hi. unfold IBLOCK, IPB, BSIZE, DINODE_SIZE. simpl. change (512 / 64) with 8.
  split_and!; Z.to_euclidean_division_equations; lia.
Qed.

Lemma fresh_map : map_ok fresh_sb 59 fresh_disk.
Proof.
  split; [done |]. intros b Hb. assert (E : forallb (fun k => bit_used (fresh_disk 58) (Z.of_nat k)) (seq 0 59) = true)
    by (vm_compute; reflexivity).
  rewrite forallb_forall in E. replace b with (Z.of_nat (Z.to_nat b)) by lia. apply E, in_seq. lia.
Qed.

Lemma fresh_blk n : 0 <= n < MAXFILE -> fblk (i_addrs fresh_inode) fresh_disk n = 0.
Proof.
  intros Hn. unfold fblk. zcase (n <? Z.of_nat NDIRECT); [| done]. apply lookup_total_replicate_2. unfold NDIRECT in *. lia.
Qed.

Lemma fresh_regular : regular fresh_sb 59 fresh_disk fresh_inode.
Proof.
  split; try done.
  - split; [done | | done | |].
    + intros n Hn E. by rewrite fresh_blk in E.
    + intros n m Hn Hm E. by rewrite fresh_blk in E.
    + intros n Hn E. by rewrite fresh_blk in E.
  - intros o Ho. simpl in Ho. lia.
Qed.

Lemma fresh_linv l : l = set_out 1 demo_log -> linv l (view_on fresh_disk).
Proof.
  intros ->. apply linv_set_out. split; [apply demo_geom | done | apply homes_nil, demo_geom | done ..].
Qed.

Lemma writei_readi_roundtrip_witness :
  exists (s s' s2 : fstate bcache), icache s 0%nat = fresh_inode /\
    writei (H := bio_store 1) (fun _ => None) 0 [104; 105] 0 2 s = Ok 2 s' /\
    readi (H := bio_store 1) (fun _ => None) 0 0 2 s' = Ok (2, [104; 105]) s2 /\ i_size (icache s' 0%nat) = 2.
Proof.
  destruct (boot_on fresh_disk) as (b & _ & A).
  set (s := FState (LState (set_out 1 demo_log) b) fresh_sb (fun _ => fresh_inode)).
  assert (T : ftx (H0 := bio_laws 1) demo_log true {[58]} 25 fresh_disk ∅ s (view_on fresh_disk)).
  { split; try done. by apply fresh_linv. }
  destruct (writei_readi_roundtrip (H0 := bio_laws 1) demo_log fresh_sb 59 (fun _ => None) (fun _ => None) {[58]} 25
    fresh_disk s (view_on fresh_disk) 0 0 [104; 105]) as (C' & r' & D' & s' & v' & E & _ & W & s2 & v2 & E2 & _);
    [exact fresh_layout | exact T | done | exact fresh_map | exact fresh_regular | set_solver | done | done | done | |].
  - exists [59; 60]. split_and!; [repeat constructor; set_solver | | done].
    intros c [-> | [-> | Hc%not_elem_of_nil]%elem_of_cons]%elem_of_cons; try done; by vm_compute.
  - exists s, s', s2. split_and!; try done. by rewrite (wn_size _ _ _ _ _ _ _ _ _ W).
Defined.
