(* ===== verification/FsDir.v ===== *)
(** * Directories

    A directory is a file of 16-byte entries, an inode number and a name of 14 bytes each; an entry
    with inode number 0 is free.  Here a directory is the list of its entries; [dirlookup] and
    [dirlink] of fs.c are related to searching and adding in that list. *)
From S2P Require Import Prelude Lock Ide Bytes Bio BlockStore Log LogSys Fs FsSys FsTx FsFile.
#[local] Open Scope Z_scope.

Module Dir.

(** ** Entries as data *)

#[local] Notation entry := (Z * list Z)%type.
Definition to_entry (d : list Z) : entry := (de_inum d, de_name d).

(** The entries of a directory of [size] bytes with the block addresses [a]. *)
Definition slot (a : list Z) (D : Z -> block) (k : nat) : entry := to_entry (fbytes a D (16 * Z.of_nat k) 16).
Definition entries (a : list Z) (D : Z -> block) (size : Z) : list entry := slot a D <$> seq 0 (Z.to_nat (size / 16)).

(** An entry in use with a given name. *)
Definition named (name : list Z) (e : entry) : Prop := e.1 <> 0 /\ namecmp name e.2 = 0.
#[global] Instance named_dec name e : Decision (named name e).
Proof. unfold named. apply _. Defined.

Definition find (name : list Z) (E : list entry) : option (nat * entry) := list_find (named name) E.

(** The first free entry, or the one behind the last. *)
Definition vacancy (E : list entry) : nat :=
  match list_find (fun e : entry => e.1 = 0) E with Some (k, _) => k | None => length E end.
Definition add (E : list entry) (name : list Z) (inum : Z) : list entry :=
  let k := vacancy E in take k E ++ [(inum, strncpy_l DIRSIZ name) : entry] ++ drop (S k) E.

(** Names as strings of C: bytes other than NUL. *)
Definition cname (name : list Z) : Prop := Forall (fun c => c <> 0) name.

Lemma strncmp_pad : forall n s t, cname s -> cname t -> strncmp_l n s (strncpy_l n t) = 0 <-> take n s = take n t.
Proof.
  unfold cname. induction n as [|n IH]; intros s t Hs Ht; [done |]. unfold strncpy_l in *.
  destruct s as [|p s], t as [|q t]; simpl.
  - done.
  - apply list.Forall_cons in Ht as [Hq Ht]. split; [lia | done].
  - apply list.Forall_cons in Hs as [Hp Hs]. rewrite (proj2 (Z.eqb_neq p 0) Hp). simpl. split; [lia | done].
  - apply list.Forall_cons in Hs as [Hp Hs], Ht as [Hq Ht]. rewrite (proj2 (Z.eqb_neq p 0) Hp). cbn [negb andb].
    destruct (Z.eqb_spec p q) as [-> | Hne].
    + rewrite IH by done. split; [by intros -> | congruence].
    + split; [lia | congruence].
Qed.

Lemma named_new name name' inum :
  cname name -> cname name' -> inum <> 0 ->
  named name' (inum, strncpy_l DIRSIZ name) <-> take DIRSIZ name' = take DIRSIZ name.
Proof. intros H1 H2 Hi. unfold named, namecmp. cbn [fst snd]. rewrite strncmp_pad by done. tauto. Qed.

Lemma strncmp_take : forall n s t, strncmp_l n s t = strncmp_l n (take n s) t.
Proof.
  induction n as [|n IH]; intros s t; [done |]. destruct s as [|p s]; [done |]. simpl. by rewrite IH.
Qed.

(** [list_find] on a nonempty list. *)
Lemma list_find_cons_eq {A} (P : A -> Prop) `{!forall x, Decision (P x)} x l : P x -> list_find P (x :: l) = Some (0%nat, x).
Proof. intros Hx. simpl. by rewrite decide_True. Qed.
Lemma list_find_cons_ne {A} (P : A -> Prop) `{!forall x, Decision (P x)} x l :
  ~ P x -> list_find P (x :: l) = prod_map S id <$> list_find P l.
Proof. intros Hx. simpl. by rewrite decide_False. Qed.

(** The first entry with a property depends only on where such entries are. *)
Lemma list_find_same {A} (P : A -> Prop) `{!forall x, Decision (P x)} l l' :
  (forall i x, P x -> l !! i = Some x <-> l' !! i = Some x) -> list_find P l = list_find P l'.
Proof.
  intros Hs. apply option_eq. intros [i x]. rewrite !list_find_Some. split; intros (H1 & H2 & H3); split_and!; try done;
    try (by apply Hs); intros j y Hj Hlt HP; apply (H3 j y); try done; by apply Hs.
Qed.

Lemma vacancy_le E : (vacancy E <= length E)%nat.
Proof.
  unfold vacancy. destruct (list_find _ _) as [[k e]|] eqn:F; [| done]. apply list_find_Some in F as (F & _).
  apply lookup_lt_Some in F. lia.
Qed.

Lemma vacancy_free E (e : entry) : E !! vacancy E = Some e -> e.1 = 0.
Proof.
  unfold vacancy. destruct (list_find _ _) as [[k e']|] eqn:F.
  - apply list_find_Some in F as (F & F0 & _). intros Hv. simpl in Hv. rewrite F in Hv. by injection Hv as <-.
  - by rewrite lookup_ge_None_2.
Qed.

Lemma add_lookup E name inum i :
  add E name inum !! i = if decide (i = vacancy E) then Some (inum, strncpy_l DIRSIZ name) else E !! i.
Proof.
  pose proof (vacancy_le E) as Hv. unfold add. cbv zeta. set (k := vacancy E) in *. case_decide as Hi.
  - subst i. rewrite lookup_app_r by (rewrite length_take; lia). rewrite length_take. by rewrite Nat.min_l, Nat.sub_diag by lia.
  - destruct (decide (i < k)%nat) as [Hlt | Hge].
    + rewrite lookup_app_l by (rewrite length_take; lia). by apply lookup_take_lt.
    + rewrite lookup_app_r by (rewrite length_take; lia). rewrite length_take, Nat.min_l by lia.
      destruct (i - k)%nat as [|j] eqn:Ej; [lia |]. simpl. rewrite lookup_drop. f_equal. lia.
Qed.

(** What a lookup gives after an entry was added. *)
Lemma find_add E name name' inum :
  cname name -> cname name' -> inum <> 0 -> find name E = None ->
  find name' (add E name inum) =
    if decide (take DIRSIZ name' = take DIRSIZ name) then Some (vacancy E, (inum, strncpy_l DIRSIZ name)) else find name' E.
Proof.
  intros H1 H2 Hi Hnone. case_decide as Hn.
  - apply list_find_Some. split_and!.
    + by rewrite add_lookup, decide_True.
    + by apply named_new.
    + intros j y. rewrite add_lookup. case_decide; [lia |]. intros Hj _ [Hy1 Hy2].
      unfold find in Hnone. rewrite list_find_None, list.Forall_lookup in Hnone. apply (Hnone j y Hj). split; [done |].
      unfold namecmp in *. by rewrite strncmp_take, <- Hn, <- strncmp_take.
  - apply list_find_same. intros i x Hx. rewrite add_lookup. case_decide as Ei; [| done]. subst i. split.
    + intros [= <-]. by apply named_new in Hx.
    + intros Hv. apply vacancy_free in Hv. by destruct Hx.
Qed.

Lemma length_entries a D size : length (entries a D size) = Z.to_nat (size / 16).
Proof. unfold entries. by rewrite length_fmap, length_seq. Qed.

Lemma entries_lookup a D size k :
  entries a D size !! k = if decide (Z.of_nat k < size / 16) then Some (slot a D k) else None.
Proof.
  unfold entries. rewrite list_lookup_fmap. case_decide.
  - by rewrite lookup_seq_lt by lia.
  - by rewrite lookup_seq_ge by lia.
Qed.

Lemma drop_entries a D size k :
  Z.of_nat k < size / 16 -> drop k (entries a D size) = slot a D k :: drop (S k) (entries a D size).
Proof. intros Hk. apply drop_S. by rewrite entries_lookup, decide_True. Qed.

Lemma drop_entries_end a D size k : 0 <= size -> size <= 16 * Z.of_nat k -> drop k (entries a D size) = [].
Proof. intros H0' Hk. apply drop_ge. rewrite length_entries. Z.to_euclidean_division_equations; lia. Qed.

(** The entry found, as the code gives it: its offset and its inode number. *)
Definition found (k : nat) (o : option (nat * entry)) : option (Z * Z) :=
  match o with Some (i, e) => Some (16 * Z.of_nat (k + i), e.1) | None => None end.

Lemma found_tail name k e E : ~ named name e -> found k (list_find (named name) (e :: E)) = found (S k) (list_find (named name) E).
Proof.
  intros Hn. rewrite list_find_cons_ne by done. destruct (list_find _ E) as [[i e']|]; simpl; [| done]. do 3 f_equal. lia.
Qed.

Lemma dir_fuel_enough n : 0 <= n -> n / 16 - 0 < Z.of_nat (dir_fuel n).
Proof. intros Hn. unfold dir_fuel, DIRENT_SIZE. Z.to_euclidean_division_equations; lia. Qed.

(** ** Directories on disk *)

Section on_disk.
Context {S : Type} `{BlockStoreLaws S}.
Implicit Types (s : fstate S).
Variable g : log.
Variable sb : superblock.
Variable ds : Z.
Context (Hlay : layout g sb ds).
Variable devread : Z -> option (nat -> Z -> M (fstate S) (Z * list Z)).

Record directory (D : Z -> block) (x : inode) : Prop := {
  dr_regular : regular sb ds D x;
  dr_type : i_type x = T_DIR;
  dr_whole : i_size x mod 16 = 0
}.

(** The entries of the directory whose inode is [x]. *)
Definition listing (D : Z -> block) (x : inode) : list entry := entries (i_addrs x) D (i_size x).

(** Reading entry [k]. *)
Lemma read_slot wr C r D s v dp k :
  ftx g wr C r D ∅ s v -> directory D (icache s dp) -> Z.of_nat k < i_size (icache s dp) / 16 ->
  exists d s' v', readi devread dp (16 * Z.of_nat k) DIRENT_SIZE s = Ok (DIRENT_SIZE, d) s' /\
    to_entry d = slot (i_addrs (icache s dp)) D k /\ ftx g wr C r D ∅ s' v' /\ same_fs s s'.
Proof.
  intros T [R _ Hw] Hk. pose proof (rg_size _ _ _ _ R) as Hsz.
  assert (Hoff : 16 * Z.of_nat k + 16 <= i_size (icache s dp)) by (Z.to_euclidean_division_equations; lia).
  destruct (readi_tx g sb ds Hlay devread wr C r D s v dp (16 * Z.of_nat k) 16) as (s' & v' & E & T' & S'); try done; try lia.
  rewrite Z.min_l in E by lia. by exists (fbytes (i_addrs (icache s dp)) D (16 * Z.of_nat k) 16), s', v'.
Qed.

Lemma dirlookup_loop_tx wr C r D dp name x : directory D x ->
  forall fuel s v k, ftx g wr C r D ∅ s v -> icache s dp = x -> 16 * Z.of_nat k <= i_size x ->
  i_size x / 16 - Z.of_nat k < Z.of_nat fuel ->
  exists s' v', dirlookup_loop devread fuel dp name (16 * Z.of_nat k) s = Ok (found k (find name (drop k (listing D x)))) s' /\
    ftx g wr C r D ∅ s' v' /\ same_fs s s'.
Proof.
  intros Hd. induction fuel as [|f IH]; intros s v k T Ex Hk Hf.
  { pose proof (dr_whole _ _ Hd). Z.to_euclidean_division_equations; lia. }
  pose proof (rg_size _ _ _ _ (dr_regular _ _ Hd)) as Hsz. pose proof (dr_whole _ _ Hd) as Hw.
  cbn [dirlookup_loop]. erewrite bind_ok by reflexivity. rewrite Ex. unfold find, listing.
  destruct (Z.ltb_spec (16 * Z.of_nat k) (i_size x)) as [Hlt | Hge]; cbn [negb].
  2: { exists s, v. by rewrite drop_entries_end by lia. }
  assert (Hk' : Z.of_nat k < i_size x / 16) by (Z.to_euclidean_division_equations; lia).
  destruct (read_slot wr C r D s v dp k T) as (d & s1 & v1 & E1 & Ed & T1 & S1); [by rewrite Ex | by rewrite Ex |].
  rewrite Ex in Ed. erewrite bind_ok by exact E1. cbn [fst snd]. rewrite Z.eqb_refl. cbn [negb].
  rewrite drop_entries by done. rewrite <- Ed.
  assert (Ex1 : icache s1 dp = x) by (by rewrite (proj2 S1)).
  destruct (IH s1 v1 (Datatypes.S k) T1 Ex1) as (s2 & v2 & E2 & T2 & S2); [Z.to_euclidean_division_equations; lia | lia |].
  replace (16 * Z.of_nat (Datatypes.S k)) with (16 * Z.of_nat k + DIRENT_SIZE) in E2 by (unfold DIRENT_SIZE; lia).
  assert (S02 : same_fs s s2) by eauto using same_fs_trans.
  destruct (Z.eqb_spec (de_inum d) 0) as [E0 | E0]; [| destruct (Z.eqb_spec (namecmp name (de_name d)) 0) as [En | En]].
  - exists s2, v2. split_and!; [| done | done]. rewrite E2. f_equal. symmetry. apply found_tail. intros [Hn _]. done.
  - exists s1, v1. split_and!; [| done | done]. rewrite list_find_cons_eq by done. simpl. by rewrite Nat.add_0_r.
  - exists s2, v2. split_and!; [| done | done]. rewrite E2. f_equal. symmetry. apply found_tail. intros [_ Hn]. done.
Qed.

(** [dirlookup] up to the call of [iget]. *)
Lemma dirlookup_tx wr C r D s v dp name :
  ftx g wr C r D ∅ s v -> directory D (icache s dp) ->
  exists s' v', dirlookup devread dp name s =
    (match found 0 (find name (listing D (icache s dp))) with
     | None => mret None
     | Some (off, inum) => ip ← iget ROOTDEV inum ; mret (Some (ip, off))
     end) s' /\ ftx g wr C r D ∅ s' v' /\ same_fs s s'.
Proof.
  intros T Hd. unfold dirlookup. erewrite bind_ok by reflexivity. rewrite (dr_type _ _ Hd). cbn [Z.eqb negb T_DIR Pos.eqb].
  pose proof (rg_size _ _ _ _ (dr_regular _ _ Hd)) as Hsz.
  destruct (dirlookup_loop_tx wr C r D dp name _ Hd (dir_fuel (i_size (icache s dp))) s v 0 T eq_refl) as (s' & v' & E & T' & S');
    [lia | apply dir_fuel_enough; lia |].
  exists s', v'. split_and!; [| done | done]. erewrite bind_ok by exact E. rewrite drop_0.
  by rewrite (rg_dev _ _ _ _ (dr_regular _ _ Hd)).
Qed.

(** The search for a free entry. *)
Lemma dirlink_loop_tx wr C r D dp x : directory D x ->
  forall fuel s v k, ftx g wr C r D ∅ s v -> icache s dp = x -> 16 * Z.of_nat k <= i_size x ->
  i_size x / 16 - Z.of_nat k < Z.of_nat fuel ->
  exists s' v', dirlink_loop devread fuel dp (16 * Z.of_nat k) s = Ok (16 * Z.of_nat (k + vacancy (drop k (listing D x)))) s' /\
    ftx g wr C r D ∅ s' v' /\ same_fs s s'.
Proof.
  intros Hd. induction fuel as [|f IH]; intros s v k T Ex Hk Hf.
  { pose proof (dr_whole _ _ Hd). Z.to_euclidean_division_equations; lia. }
  pose proof (rg_size _ _ _ _ (dr_regular _ _ Hd)) as Hsz. pose proof (dr_whole _ _ Hd) as Hw.
  cbn [dirlink_loop]. erewrite bind_ok by reflexivity. rewrite Ex. unfold vacancy, listing.
  destruct (Z.ltb_spec (16 * Z.of_nat k) (i_size x)) as [Hlt | Hge]; cbn [negb].
  2: { exists s, v. rewrite drop_entries_end by lia. simpl. by rewrite Nat.add_0_r. }
  assert (Hk' : Z.of_nat k < i_size x / 16) by (Z.to_euclidean_division_equations; lia).
  destruct (read_slot wr C r D s v dp k T) as (d & s1 & v1 & E1 & Ed & T1 & S1); [by rewrite Ex | by rewrite Ex |].
  rewrite Ex in Ed. erewrite bind_ok by exact E1. cbn [fst snd]. rewrite Z.eqb_refl. cbn [negb].
  rewrite drop_entries by done. rewrite <- Ed.
  assert (Ex1 : icache s1 dp = x) by (by rewrite (proj2 S1)).
  destruct (Z.eqb_spec (de_inum d) 0) as [E0 | E0].
  - exists s1, v1. split_and!; [| done | done]. rewrite list_find_cons_eq by done. by rewrite Nat.add_0_r.
  - destruct (IH s1 v1 (Datatypes.S k) T1 Ex1) as (s2 & v2 & E2 & T2 & S2); [Z.to_euclidean_division_equations; lia | lia |].
    exists s2, v2. split_and!; [| done | by eauto using same_fs_trans].
    replace (16 * Z.of_nat k + DIRENT_SIZE) with (16 * Z.of_nat (Datatypes.S k)) by (unfold DIRENT_SIZE; lia).
    rewrite E2. f_equal. rewrite list_find_cons_ne by done. unfold vacancy, listing.
    destruct (list_find _ (drop _ _)) as [[i e]|]; simpl; lia.
Qed.
End on_disk.


(** ** Adding an entry *)

Lemma fbytes_same a D a' D' o k :
  (forall i, o <= i < o + Z.of_nat k -> fbyte a' D' i = fbyte a D i) -> fbytes a' D' o k = fbytes a D o k.
Proof. intros Hb. unfold fbytes. apply list_fmap_ext. intros i x Hx. apply lookup_seq in Hx as [-> Hi]. apply Hb. lia. Qed.

Lemma fbytes_are a D o l :
  (forall i, o <= i < o + Z.of_nat (length l) -> fbyte a D i = l !!! Z.to_nat (i - o)) -> fbytes a D o (length l) = l.
Proof.
  intros Hb. unfold fbytes. apply list_eq_same_length with (n := length l); [done | by rewrite length_fmap, length_seq |].
  intros i x y Hi Hx Hy. rewrite list_lookup_fmap, lookup_seq_lt in Hx by done. injection Hx as <-.
  rewrite Hb by lia. rewrite <- (list_lookup_total_correct _ _ _ Hy). f_equal. lia.
Qed.

Lemma length_dirent inum name : length (dirent inum name) = 16%nat.
Proof. unfold dirent, strncpy_l, DIRSIZ. rewrite !length_app, length_take, length_replicate. simpl length. lia. Qed.

Lemma to_entry_dirent inum name : 0 <= inum < 65536 -> to_entry (dirent inum name) = (inum, strncpy_l DIRSIZ name).
Proof.
  intros Hi. unfold to_entry, dirent. f_equal. unfold de_inum, get16. cbn. change (u16 inum mod 256 + 256 * (u16 inum / 256) = inum).
  word.
Qed.

Section add_entry.
Context {S : Type} `{BlockStoreLaws S}.
Implicit Types (s : fstate S).
Variable sb : superblock.
Variable ds : Z.

Lemma written_listing D s dp name inum D' s' :
  let x := icache s dp in let E := listing D x in
  directory sb ds D x -> 0 <= inum < 65536 -> 16 * Z.of_nat (vacancy E) + 16 <= MAXFILE * BSIZE ->
  written sb ds (16 * Z.of_nat (vacancy E)) (dirent inum name) D s dp D' s' ->
  directory sb ds D' (icache s' dp) /\ listing D' (icache s' dp) = add E name inum.
Proof.
  intros x E Hd Hi Hend W. pose proof (vacancy_le E) as Hv. set (k := vacancy E) in *. pose proof Hd as [R Ht Hw].
  assert (HE : length E = Z.to_nat (i_size x / 16)) by (apply length_entries).
  pose proof (rg_size _ _ _ _ R) as Hsz. fold x in Hsz, Hw, R. pose proof max_bytes as Hmax.
  pose proof (wn_size _ _ _ _ _ _ _ _ _ W) as Hsize. fold x in Hsize. rewrite length_dirent in Hsize. change (Z.of_nat 16) with 16 in Hsize.
  destruct (wn_inode _ _ _ _ _ _ _ _ _ W) as [a' Ex].
  split.
  { split; [apply W | by rewrite Ex |]. rewrite Hsize. Z.to_euclidean_division_equations; lia. }
  set (x' := icache s' dp) in *. apply list_eq. intros i. rewrite add_lookup. unfold listing. rewrite !entries_lookup, Hsize. fold k.
  pose proof (wn_byte _ _ _ _ _ _ _ _ _ W) as Hb. fold x x' in Hb. rewrite length_dirent in Hb. change (Z.of_nat 16) with 16 in Hb.
  case_decide as Hs; case_decide as Ei.
  - subst i. f_equal. rewrite <- (to_entry_dirent inum name) by done. unfold slot. f_equal.
    rewrite <- (length_dirent inum name). apply fbytes_are. rewrite length_dirent. intros o Ho. rewrite Hb by lia. by rewrite decide_True by lia.
  - assert (Hlt : Z.of_nat i < i_size x / 16) by (Z.to_euclidean_division_equations; lia).
    unfold E, listing. rewrite entries_lookup, decide_True by done. f_equal. unfold slot. f_equal. apply fbytes_same.
    intros o Ho. rewrite Hb by (Z.to_euclidean_division_equations; lia). apply decide_False. lia.
  - exfalso. apply Hs. subst i. Z.to_euclidean_division_equations; lia.
  - unfold E, listing. rewrite entries_lookup, decide_False; [done |]. Z.to_euclidean_division_equations; lia.
Qed.
End add_entry.


(** ** Looking a name up *)

Section lookup.
Context {S : Type} `{BlockStoreLaws S}.
Implicit Types (s : fstate S).

(** What [dirlookup] of a name has to answer: nothing, or the inode and offset of entry [o], with the
    inode in the cache and referenced; no other cache entry changes. *)
Definition answers (devread : Z -> option (nat -> Z -> M (fstate S) (Z * list Z))) (dp : nat) (name : list Z) s (o : option (nat * entry)) : Prop :=
  match o with
  | None => exists s', dirlookup devread dp name s = Ok None s' /\ icache s' = icache s
  | Some (k, e) => exists ip s', dirlookup devread dp name s = Ok (Some (ip, 16 * Z.of_nat k)) s' /\
      i_dev (icache s' ip) = ROOTDEV /\ i_inum (icache s' ip) = e.1 /\ 0 < i_ref (icache s' ip) /\
      forall j, j <> ip -> icache s' j = icache s j
  end.

Definition some_free s : Prop := exists k, (k < NINODE)%nat /\ i_ref (icache s k) = 0.

Lemma iget_free dev inum s :
  icache_ok (icache s) -> some_free s ->
  exists ip s', iget dev inum s = Ok ip s' /\ i_dev (icache s' ip) = dev /\ i_inum (icache s' ip) = inum /\ 0 < i_ref (icache s' ip) /\
    forall j, j <> ip -> icache s' j = icache s j.
Proof.
  intros Hok (k & Hk & Hk0). pose proof (iget_unique dev inum s Hok) as Hi. destruct (iget dev inum s) as [ip s' | m | c s'].
  - destruct Hi as (_ & _ & H1 & H2 & H3 & H4). exists ip, s'. split_and!; try done.
    destruct H4 as [[Hr ->] | (_ & -> & _)]; [simpl |]; lia.
  - destruct (Hi k Hk). lia.
  - done.
Qed.

Lemma dirlookup_answers g sb ds devread wr C r D s v dp name :
  layout g sb ds -> ftx g wr C r D ∅ s v -> directory sb ds D (icache s dp) -> icache_ok (icache s) -> some_free s ->
  answers devread dp name s (find name (listing D (icache s dp))).
Proof.
  intros L T Hd Hok Hfree. destruct (dirlookup_tx g sb ds L devread wr C r D s v dp name T Hd) as (s1 & v1 & E & T1 & S1).
  unfold answers. destruct (find name _) as [[k e]|]; rewrite E; simpl; [| exists s1; by destruct S1].
  destruct (iget_free ROOTDEV e.1 s1) as (ip & s2 & E2 & Hi); [by rewrite (proj2 S1) | unfold some_free; by rewrite (proj2 S1) |].
  exists ip, s2. erewrite bind_ok by exact E2. rewrite (proj2 S1) in Hi. done.
Qed.

(** A change of size and addresses does not matter for the references. *)
Lemma cache_refs s s' dp n a :
  icache s' dp = set_size n (with_addrs a (icache s dp)) -> (forall j, j <> dp -> icache s' j = icache s j) ->
  (icache_ok (icache s) -> icache_ok (icache s')) /\ (some_free s -> some_free s').
Proof.
  intros E Ho. assert (Hj : forall j, i_ref (icache s' j) = i_ref (icache s j) /\ i_dev (icache s' j) = i_dev (icache s j) /\
    i_inum (icache s' j) = i_inum (icache s j)).
  { intros j. destruct (decide (j = dp)) as [-> | Hne]; [by rewrite E | by rewrite Ho]. }
  split.
  - intros [H1 H2]. split.
    + intros i Hi. rewrite (proj1 (Hj i)). by apply H1.
    + intros i j Hi Hj'. destruct (Hj i) as (-> & -> & ->), (Hj j) as (-> & -> & ->). by apply H2.
  - intros (k & Hk & Hk0). exists k. by rewrite (proj1 (Hj k)).
Qed.
End lookup.


End Dir.

(** ** Properties *)

(** C19: linking and looking up.  Inside a transaction with room in the log, on a consistent disk,
    [dirlink] of a name the directory does not have returns 0; the directory is then the old one with
    the entry in the first free slot, or behind the last, the blocks of other files and the other
    cached inodes are as before, and [dirlookup] finds the new inode under every name that agrees
    with the linked one in its first 14 bytes and answers as before for all other names. *)
Theorem dirlink_dirlookup_roundtrip {St : Type} `{BlockStoreLaws St} (g : log) (sb : superblock) (ds : Z)
    (devread : Z -> option (nat -> Z -> M (fstate St) (Z * list Z)))
    (devwrite : Z -> option (nat -> list Z -> Z -> M (fstate St) Z)) (curpid : Z)
    (C : gset Z) (r : Z) (D : Z -> block) (s : fstate St) (v : bview) (dp : nat) (name : list Z) (inum : Z) :
  let E := Dir.listing D (icache s dp) in
  layout g sb ds -> ftx g true C r D ∅ s v -> f_sb s = sb -> map_ok sb ds D -> Dir.directory sb ds D (icache s dp) ->
  sb_bmapstart sb ∈ C -> 3 <= r -> free_at_least (D (sb_bmapstart sb)) (sb_size sb) 2 ->
  Dir.cname name -> 0 < inum < 65536 -> Dir.find name E = None -> 16 * Z.of_nat (Dir.vacancy E) + 16 <= MAXFILE * BSIZE ->
  exists C' r' D' s' v', dirlink devread devwrite curpid dp name inum s = Ok 0 s' /\ ftx g true C' r' D' ∅ s' v' /\
    Dir.directory sb ds D' (icache s' dp) /\ Dir.listing D' (icache s' dp) = Dir.add E name inum /\
    (forall c, foreign sb D (icache s dp) c -> D' c = D c) /\ (forall j, j <> dp -> icache s' j = icache s j) /\
    (icache_ok (icache s) -> Dir.some_free s -> forall name', Dir.cname name' ->
      Dir.answers devread dp name' s'
        (if decide (take DIRSIZ name' = take DIRSIZ name) then Some (Dir.vacancy E, (inum, strncpy_l DIRSIZ name)) else Dir.find name' E)).
Proof.
  intros E L T Hsb Hm Hd HC Hr Hfree Hname Hi Hnone Hend. unfold dirlink.
  destruct (Dir.dirlookup_tx g sb ds L devread true C r D s v dp name T Hd) as (s1 & v1 & E1 & T1 & S1).
  fold E in E1. rewrite Hnone in E1. erewrite bind_ok by exact E1. cbv iota beta. erewrite bind_ok by reflexivity.
  assert (Ex1 : icache s1 dp = icache s dp) by (by rewrite (proj2 S1)). pose proof (rg_size _ _ _ _ (Dir.dr_regular _ _ _ _ Hd)) as Hsz.
  destruct (Dir.dirlink_loop_tx g sb ds L devread true C r D dp (icache s dp) Hd (dir_fuel (i_size (icache s1 dp))) s1 v1 0 T1 Ex1)
    as (s2 & v2 & E2 & T2 & S2); [lia | rewrite Ex1; apply Dir.dir_fuel_enough; lia |].
  rewrite drop_0, Nat.add_0_l in E2. fold E in E2. erewrite bind_ok by exact E2.
  assert (S02 : same_fs s s2) by eauto using same_fs_trans. destruct S02 as [Q1 Q2].
  assert (Hoff : 16 * Z.of_nat (Dir.vacancy E) <= i_size (icache s dp)).
  { pose proof (Dir.vacancy_le E). unfold E, Dir.listing in *. rewrite Dir.length_entries in *. Z.to_euclidean_division_equations; lia. }
  assert (Hnb : nblocks (16 * Z.of_nat (Dir.vacancy E)) 16 = 1).
  { unfold nblocks, BSIZE. cbn [Z.eqb]. Z.to_euclidean_division_equations; lia. }
  destruct (writei_tx g sb ds L devwrite C r D s2 dp (16 * Z.of_nat (Dir.vacancy E)) (dirent inum name)) as (C' & r' & D' & s' & E3 & [v' T'] & W);
    rewrite ?Dir.length_dirent, ?Q2; change (Z.of_nat 16) with 16; rewrite ?Hnb; try done; try lia; [by eexists | congruence | apply Hd |].
  rewrite Dir.length_dirent in E3. change (Z.of_nat 16) with DIRENT_SIZE in E3. erewrite bind_ok by exact E3.
  destruct (Dir.written_listing sb ds D s2 dp name inum D' s') as [Hd' HE']; rewrite ?Q2; try done; [lia |]. rewrite Q2 in HE'. fold E in HE'.
  destruct (wn_icache _ _ _ _ _ _ _ _ _ W) as [_ Hoth]. rewrite Q2 in Hoth.
  exists C', r', D', s', v'. split_and!; try done.
  - intros c Hc. apply (wn_foreign _ _ _ _ _ _ _ _ _ W). by rewrite Q2.
  - intros Hok Hf name' Hn'. destruct (wn_inode _ _ _ _ _ _ _ _ _ W) as [a' Ex']. rewrite Q2 in Ex'.
    destruct (Dir.cache_refs s s' dp _ a' Ex' Hoth) as [K1 K2].
    rewrite <- Dir.find_add, <- HE' by (done || lia). eapply Dir.dirlookup_answers; eauto.
Qed.

(** An empty directory in an otherwise empty inode cache. *)
Definition dir_inode : inode := set_type T_DIR fresh_inode.
Definition dir_cache : nat -> inode := fun i =>
  match i with O => dir_inode | _ => Inode 0 0 0 Sleep.initsleeplock false 0 0 0 0 0 [] end.

Lemma dir_cache_ok : icache_ok dir_cache.
Proof. split; [by intros [|i] |]. intros [|i] [|j] _ _; simpl; try lia; done. Qed.

Lemma dirlink_dirlookup_roundtrip_witness :
  exists s s' s2 : fstate bcache, icache s = dir_cache /\
    dirlink (H := bio_store 1) (fun _ => None) (fun _ => None) 1 0 [104; 105] 7 s = Ok 0 s' /\
    exists ip, dirlookup (H := bio_store 1) (fun _ => None) 0 [104; 105] s' = Ok (Some (ip, 0)) s2 /\ i_inum (icache s2 ip) = 7.
Proof.
  destruct (boot_on fresh_disk) as (b & _ & A).
  set (s := FState (LState (set_out 1 demo_log) b) fresh_sb dir_cache).
  assert (T : ftx (H0 := bio_laws 1) demo_log true {[58]} 25 fresh_disk ∅ s (view_on fresh_disk)).
  { split; try done. by apply fresh_linv. }
  destruct (dirlink_dirlookup_roundtrip (H0 := bio_laws 1) demo_log fresh_sb 59 (fun _ => None) (fun _ => None) 1 {[58]} 25
    fresh_disk s (view_on fresh_disk) 0 [104; 105] 7) as (C' & r' & D' & s' & v' & E & _ & _ & _ & _ & _ & W);
    [exact fresh_layout | exact T | done | exact fresh_map | | set_solver | done | | | done | done | done |].
  - split; [| done | done]. destruct fresh_regular as [R1 R2 R3 R4 R5 R6]. by split.
  - exists [59; 60]. split_and!; [repeat constructor; set_solver | | done].
    intros c [-> | [-> | Hc%not_elem_of_nil]%elem_of_cons]%elem_of_cons; try done; by vm_compute.
  - by repeat constructor.
  - destruct (W dir_cache_ok) with (name' := [104; 105]) as (ip & s2 & E2 & _ & E3 & _).
    + exists 1%nat. split; [unfold NINODE; lia | done].
    + by repeat constructor.
    + exists s, s', s2. split_and!; [done | done |]. by exists ip.
Defined.
