(* ===== verification/FsTrunc.v ===== *)
(** * Freeing the blocks of a file

    [bfree] and [itrunc] of fs.c, followed through the descriptions of [FsTx]: the blocks of a file,
    direct, indirect and the indirect block itself, go back to the free map, each once. *)
From S2P Require Import Prelude Lock Ide Bytes Bio BlockStore Log LogSys Fs FsSys FsTx FsFile.
#[local] Open Scope Z_scope.

Module Trunc.

Lemma bit_used_clear x b c :
  length x = 512%nat -> 0 <= b < 4096 -> 0 <= c < 4096 ->
  bit_used (clear_bit x b) c = negb (b =? c) && bit_used x c.
Proof.
  intros Hx Hb Hc. rewrite !bit_used_testbit by lia. unfold clear_bit.
  assert (Hb8 : 0 <= b / 8 < 512) by (Z.to_euclidean_division_equations; lia).
  rewrite getb_putb by (rewrite Hx; lia). case_decide as E.
  - apply Z2Nat.inj in E; [| Z.to_euclidean_division_equations; lia | lia]. rewrite E.
    assert (Hk : 0 <= c mod 8 < 8) by (apply Z.mod_pos_bound; lia).
    change 256 with (2 ^ 8). rewrite Z.mod_pow2_bits_low, Z.land_spec by lia. unfold u8, bit_mask.
    rewrite Z.mod_pow2_bits_low, Z.lnot_spec, Z.shiftl_1_l by lia.
    rewrite andb_comm. f_equal. f_equal. rewrite Z.pow2_bits_eqb by (apply Z.mod_pos_bound; lia).
    destruct (Z.eqb_spec b c) as [-> | Hne]; [apply Z.eqb_refl |]. apply Z.eqb_neq. intros Hm. apply Hne.
    Z.to_euclidean_division_equations; lia.
  - destruct (Z.eqb_spec b c) as [-> | Hne]; done.
Qed.

(** The superblock as [readsb] takes it from its block. *)
Definition super_of (x : block) : superblock :=
  Super (get32 x 0) (get32 x 4) (get32 x 8) (get32 x 12) (get32 x 16) (get32 x 20) (get32 x 24).

(** The disk after the blocks [l] were given back. *)
Record freed (sb : superblock) (l : list Z) (D D' : Z -> block) : Prop := {
  fr_len : length (D' (sb_bmapstart sb)) = 512%nat;
  fr_other : forall c, c <> sb_bmapstart sb -> D' c = D c;
  fr_bits : forall c, 0 <= c < 4096 ->
    bit_used (D' (sb_bmapstart sb)) c = bit_used (D (sb_bmapstart sb)) c && negb (bool_decide (c ∈ l))
}.

Lemma freed_nil sb D : length (D (sb_bmapstart sb)) = 512%nat -> freed sb [] D D.
Proof. intros Hl. split; try done. intros c _. by rewrite bool_decide_false, andb_true_r by (apply not_elem_of_nil). Qed.

Lemma freed_app sb l1 l2 D D1 D2 : freed sb l1 D D1 -> freed sb l2 D1 D2 -> freed sb (l1 ++ l2) D D2.
Proof.
  intros [A1 A2 A3] [B1 B2 B3]. split; [done | |].
  - intros c Hc. by rewrite B2, A2.
  - intros c Hc. rewrite B3, A3, <- andb_assoc, <- negb_orb by done. f_equal. f_equal.
    rewrite <- bool_decide_or. apply bool_decide_ext. by rewrite elem_of_app.
Qed.

Lemma freed_one sb D b :
  length (D (sb_bmapstart sb)) = 512%nat -> 0 <= b < 4096 ->
  freed sb [b] D (bupd D (sb_bmapstart sb) (clear_bit (D (sb_bmapstart sb)) b)).
Proof.
  intros Hl Hb. split.
  - rewrite bupd_same. unfold clear_bit. by rewrite length_putb.
  - intros c Hc. by apply bupd_other.
  - intros c Hc. rewrite bupd_same, bit_used_clear, andb_comm by done. f_equal. f_equal.
    destruct (Z.eqb_spec b c) as [-> | Hne]; symmetry; [apply bool_decide_true | apply bool_decide_false];
      rewrite list_elem_of_singleton; congruence.
Qed.

(** The blocks of a file: direct blocks, those named by the indirect block, and the indirect block. *)
Definition nonzero (l : list Z) : list Z := filter (fun b => b <> 0) l.
Definition ind_entries (x : block) : list Z := (fun j => get32 x (4 * j)) <$> seq 0 128.
Definition file_blocks (D : Z -> block) (a : list Z) : list Z :=
  nonzero (take NDIRECT a) ++
  (let i := a !!! NDIRECT in if i =? 0 then [] else nonzero (ind_entries (D i)) ++ [i]).

Section trunc.
Context {S : Type} `{BlockStoreLaws S}.
Implicit Types (s : fstate S).
Variable g : log.
Context (Hone : usable g 1).

Lemma readsb_ftx wr C r D Hd s v :
  ftx g wr C r D Hd s v -> 1 ∉ Hd -> (base.size Hd <= 1)%nat ->
  exists s' v', disk (readsb ROOTDEV) s = Ok (super_of (D 1)) s' /\ ftx g wr C r D Hd s' v' /\ same_fs s s' /\
    (forall j c, c ∈ Hd -> bufof s j c -> bufof s' j c).
Proof.
  intros T Hn Hsz.
  destruct (bread_tx g _ _ _ _ _ _ _ _ T Hone Hn Hsz) as (i & s1 & E1 & T1 & B1 & S1 & D1 & K1).
  destruct (brelse_tx g _ _ _ _ _ _ _ i 1 T1) as (s2 & E2 & T2 & S2 & K2); [set_solver | done |].
  exists s2. eexists. split_and!; [| | by eauto using same_fs_trans |].
  - unfold disk, readsb, in_log_, on_st, zoom, mbind, M_bind in *. destruct (bread ROOTDEV 1 _) as [i' t | |]; [| done | done].
    injection E1 as -> <-. cbn in *. destruct (brelse i t) as [[] t' | |]; [| done | done]. injection E2 as <-. by rewrite D1.
  - replace Hd with (({[1]} ∪ Hd) ∖ {[1]}) by set_solver. exact T2.
  - intros j c Hc Hj. apply K2; [set_solver | set_solver | auto].
Qed.

Variable sb : superblock.
Variable ds : Z.
Context (Hlay : layout g sb ds) (Hds : 1 < ds) (Hone_bm : sb_bmapstart sb <> 1).

Notation bm := (sb_bmapstart sb).
Notation size := (sb_size sb).

Lemma readsb_tx C r D Hd s :
  txe g C r D Hd s -> 1 ∉ Hd -> (base.size Hd <= 1)%nat ->
  exists s', disk (readsb ROOTDEV) s = Ok (super_of (D 1)) s' /\ txe g C r D Hd s' /\ same_fs s s' /\
    (forall j c, c ∈ Hd -> bufof s j c -> bufof s' j c).
Proof.
  intros [v T] Hn Hsz. destruct (readsb_ftx _ _ _ _ _ _ _ T Hn Hsz) as (s' & v' & E & T' & Hs & K). exists s'. by split_and!; [| exists v' | |].
Qed.

Lemma bfree_tx C r D Hd s b :
  txe g C r D Hd s -> f_sb s = sb -> super_of (D 1) = sb -> bm ∈ C -> bm ∉ Hd -> 1 ∉ Hd -> (base.size Hd <= 1)%nat ->
  data_block sb ds D b ->
  exists s', bfree ROOTDEV b s = Ok tt s' /\ txe g C r (bupd D bm (clear_bit (D bm) b)) Hd s' /\ same_fs s s' /\
    (forall j c, c ∈ Hd -> bufof s j c -> bufof s' j c).
Proof.
  intros T Hsb Hsup HC Hbm H1 Hsz (Hb & Hu & _). pose proof (lay_size _ _ _ Hlay). pose proof (lay_ds _ _ _ Hlay). unfold FSSIZE in *.
  destruct (readsb_tx C r D Hd s T H1 Hsz) as (s1 & E1 & [v1 T1] & S1 & K1). rewrite Hsup in E1. unfold bfree, read_sb.
  erewrite bind_ok by (erewrite bind_ok by exact E1; reflexivity). erewrite bind_ok by reflexivity. cbn [f_sb].
  set (s2 := FState (f_log s1) sb (icache s1)).
  assert (S2 : same_fs s s2) by (split; [by rewrite Hsb | apply S1]).
  assert (T2 : ftx g true C r D Hd s2 v1) by (by destruct T1).
  assert (EB : BBLOCK b sb = bm). { unfold BBLOCK, BPB, BSIZE. rewrite Z.div_small by lia. done. }
  rewrite EB. destruct (bread_tx g _ _ _ _ _ _ _ _ T2 (proj1 (lay_bm _ _ _ Hlay)) Hbm Hsz) as (i & s3 & E3 & T3 & B3 & S3 & D3 & K3).
  erewrite bind_ok by exact E3. erewrite bind_ok by reflexivity. rewrite D3.
  assert (Em : b mod BPB = b) by (apply Z.mod_small; unfold BPB, BSIZE; lia). rewrite Em, Hu. cbn [negb].
  destruct (setlog_tx g C r D ({[bm]} ∪ Hd) s3 _ i bm (clear_bit (D bm) b) T3) as (s4 & E4 & T4 & S4 & K4);
    [set_solver | apply Hlay | done | by left |].
  rewrite E4. destruct (brelse_tx g _ _ _ _ _ _ _ i bm T4) as (s5 & E5 & T5 & S5 & K5); [set_solver | auto |].
  exists s5. split_and!; [exact E5 | | |].
  - eexists. replace Hd with (({[bm]} ∪ Hd) ∖ {[bm]}) by set_solver. unfold charge in T5. rewrite decide_True in T5 by done.
    replace ({[bm]} ∪ C) with C in T5 by set_solver. exact T5.
  - eapply same_fs_trans; [exact S2 |]. by eauto using same_fs_trans.
  - intros j c Hc Hj. apply K5; [set_solver | set_solver |]. apply K4, K3; [done |]. by apply K1.
Qed.

Lemma freed_data l D D' c : freed sb l D D' -> data_block sb ds D c -> c ∉ l -> data_block sb ds D' c.
Proof.
  intros [F1 F2 F3] (H1 & H2 & H3) Hc. pose proof (lay_bm _ _ _ Hlay) as [_ Hbm]. pose proof (lay_size _ _ _ Hlay).
  pose proof (lay_ds _ _ _ Hlay). unfold FSSIZE in *. split_and!; try lia.
  - rewrite F3, H2 by lia. by rewrite bool_decide_false.
  - by rewrite F2 by lia.
Qed.

(** What holds between the steps of [itrunc]. *)
Record ready (C : gset Z) (r : Z) (D : Z -> block) (Hd : gset Z) (ip : nat) s : Prop := {
  rd_tx : txe g C r D Hd s;
  rd_sb : f_sb s = sb;
  rd_super : super_of (D 1) = sb;
  rd_dev : i_dev (icache s ip) = ROOTDEV;
  rd_map : length (D bm) = 512%nat;
  rd_C : bm ∈ C
}.

Lemma ready_freed C r D Hd ip s l D' s' :
  ready C r D Hd ip s -> freed sb l D D' -> txe g C r D' Hd s' -> f_sb s' = f_sb s ->
  i_dev (icache s' ip) = i_dev (icache s ip) -> ready C r D' Hd ip s'.
Proof.
  intros [R1 R2 R3 R4 R5 R6] [F1 F2 F3] T E1 E2. split; try done; [congruence | | congruence].
  by rewrite F2 by done.
Qed.

Lemma data_bound D b : data_block sb ds D b -> 0 <= b < 4096 /\ b <> 0.
Proof.
  intros (Hb & _). pose proof (lay_size _ _ _ Hlay). pose proof (lay_ds _ _ _ Hlay). unfold FSSIZE in *. lia.
Qed.

(** The rest of the list, after its first block was freed. *)
Lemma rest_data D b l :
  length (D bm) = 512%nat -> NoDup (b :: l) -> Forall (data_block sb ds D) (b :: l) ->
  let D1 := bupd D bm (clear_bit (D bm) b) in
  freed sb [b] D D1 /\ NoDup l /\ Forall (data_block sb ds D1) l.
Proof.
  intros Hl [Hb Hnd]%list.NoDup_cons [Hd Hf]%list.Forall_cons D1.
  pose proof (freed_one sb D b Hl (proj1 (data_bound D b Hd))) as Hfr. split_and!; [done | done |].
  rewrite list.Forall_forall in *. intros c Hc. eapply freed_data; [exact Hfr | by apply Hf |]. rewrite list_elem_of_singleton. congruence.
Qed.

Lemma drop_take_S {A} (l : list A) i n x : l !! i = Some x -> take (Datatypes.S n) (drop i l) = x :: take n (drop (Datatypes.S i) l).
Proof. intros Hx. by rewrite (drop_S _ _ _ Hx). Qed.

Lemma nonzero_cons b l : nonzero (b :: l) = if b =? 0 then nonzero l else b :: nonzero l.
Proof.
  unfold nonzero. rewrite filter_cons. destruct (Z.eqb_spec b 0) as [-> | Hne].
  - rewrite decide_False; [done | by intros Hn].
  - by rewrite decide_True.
Qed.

Lemma free_direct_tx C r ip : forall n i D s,
  let a := i_addrs (icache s ip) in let l := nonzero (take n (drop i a)) in
  ready C r D ∅ ip s -> (i + n <= length a)%nat -> NoDup l -> Forall (data_block sb ds D) l ->
  exists D' s', free_direct n i ip s = Ok tt s' /\ ready C r D' ∅ ip s' /\ freed sb l D D' /\
    only_addrs ip (take i a ++ replicate n 0 ++ drop (i + n) a) s s'.
Proof.
  induction n as [|n IH]; intros i D s a l R Hn Hnd Hf.
  { exists D, s. split_and!; [done | done | by apply freed_nil, R |]. rewrite Nat.add_0_r. simpl. rewrite take_drop.
    by apply only_addrs_refl. }
  destruct (lookup_lt_is_Some_2 a i) as [b Hb]; [lia |]. subst l. rewrite (drop_take_S _ _ _ _ Hb), nonzero_cons in Hnd, Hf. rewrite (drop_take_S _ _ _ _ Hb), nonzero_cons.
  cbn [free_direct]. erewrite bind_ok by reflexivity. fold a. rewrite (list_lookup_total_correct _ _ _ Hb), (rd_dev _ _ _ _ _ _ R).
  cbv zeta. destruct (Z.eqb_spec b 0) as [Eb | Hb0].
  - erewrite bind_ok by reflexivity. destruct (IH (Datatypes.S i) D s R) as (D' & s' & E & R' & F' & O'); [fold a; lia | done | done |].
    exists D', s'. split_and!; [exact E | done | done |]. fold a in O'. rewrite (take_S_r _ _ _ Hb), <- app_assoc, Eb in O'.
    by rewrite Nat.add_succ_r.
  - destruct (rest_data D b _ (rd_map _ _ _ _ _ _ R) Hnd Hf) as (Hfr & Hnd1 & Hf1). pose proof (Forall_inv Hf) as Hdb.
    destruct (bfree_tx C r D ∅ s b) as (s1 & E1 & T1 & S1 & _); [apply R | apply R | apply R | apply R | set_solver | set_solver | by rewrite size_empty; lia | done |].
    destruct (set_addr_only ip i 0 s1) as (s2 & E2 & O2 & L2).
    assert (O02 : only_addrs ip (<[i := 0]> a) s s2).
    { eapply only_addrs_trans; [by apply only_addrs_refl, S1 |]. unfold a. by rewrite <- (proj2 S1). }
    destruct (only_addrs_ip _ _ _ _ O02) as [Ea Ed].
    assert (R2 : ready C r (bupd D bm (clear_bit (D bm) b)) ∅ ip s2).
    { eapply ready_freed; [exact R | exact Hfr | | apply O02 | done]. destruct T1 as [v1 T1]. exists v1.
      eapply ftx_log; [| exact T1]. done. }
    destruct (IH (Datatypes.S i) _ s2 R2) as (D' & s' & E & R' & F' & O'); rewrite ?Ea, ?length_insert, ?drop_insert_lt by lia; try done; [lia |].
    exists D', s'. rewrite Ea, drop_insert_lt in F' by lia. split_and!; [| done | exact (freed_app sb [b] _ _ _ _ Hfr F') |].
    + erewrite bind_ok by (erewrite bind_ok by exact E1; exact E2). exact E.
    + rewrite Ea in O'. eapply only_addrs_trans; [exact O02 |].
      rewrite (take_S_r _ _ 0), take_insert_ge, drop_insert_lt, <- app_assoc in O' by (lia || by apply list_lookup_insert_eq; lia).
      by rewrite Nat.add_succ_r.
Qed.


(** The buffer of a held block shows what the description says. *)
Lemma held_data C r D Hd s i b : txe g C r D Hd s -> ~ in_log g b -> bufof s i b -> buf_data i (store (f_log s)) = D b.
Proof. intros [v T] Hl Hb. rewrite (data_law _ _ _ _ (tx_abs _ _ _ _ _ _ _ _ T) Hb). by apply T. Qed.

Lemma free_indirect_tx C r ip i bp : forall n j D s,
  let l := nonzero (take n (drop j (ind_entries (D i)))) in
  ready C r D {[i]} ip s -> bufof s bp i -> data_block sb ds D i -> (j + n <= 128)%nat -> NoDup l -> i ∉ l -> Forall (data_block sb ds D) l ->
  exists D' s', free_indirect n j ROOTDEV bp s = Ok tt s' /\ ready C r D' {[i]} ip s' /\ freed sb l D D' /\ same_fs s s' /\ bufof s' bp i.
Proof.
  induction n as [|n IH]; intros j D s l R Hbuf Hi Hn Hnd Hil Hf.
  { exists D, s. split_and!; [done | done | by apply freed_nil, R | done | done]. }
  pose proof (lay_bm _ _ _ Hlay) as [_ Hbm]. pose proof Hi as (Hir & _).
  assert (Hb : ind_entries (D i) !! j = Some (get32 (D i) (4 * j))).
  { unfold ind_entries. by rewrite list_lookup_fmap, lookup_seq_lt by lia. }
  subst l. rewrite (drop_take_S _ _ _ _ Hb), nonzero_cons in Hnd, Hil, Hf. rewrite (drop_take_S _ _ _ _ Hb), nonzero_cons.
  cbn [free_indirect]. unfold data_of at 1. erewrite bind_ok by reflexivity.
  rewrite (held_data C r D {[i]} s bp i) by (done || apply R || apply (data_usable g sb ds Hlay D i Hi)).
  set (b := get32 (D i) (4 * j)) in *. cbv zeta. destruct (Z.eqb_spec b 0) as [Eb | Hb0].
  - erewrite bind_ok by reflexivity. apply (IH (Datatypes.S j) D s); try done. lia.
  - destruct (rest_data D b _ (rd_map _ _ _ _ _ _ R) Hnd Hf) as (Hfr & Hnd1 & Hf1). pose proof (Forall_inv Hf) as Hdb.
    apply not_elem_of_cons in Hil as [Hib Hil].
    destruct (bfree_tx C r D {[i]} s b) as (s1 & E1 & T1 & S1 & K1);
      [apply R | apply R | apply R | apply R | rewrite elem_of_singleton; lia | rewrite elem_of_singleton; lia |
       by rewrite size_singleton | done |].
    erewrite bind_ok by exact E1. set (D1 := bupd D bm (clear_bit (D bm) b)) in *.
    assert (Ei : D1 i = D i) by (apply bupd_other; lia).
    assert (R1 : ready C r D1 {[i]} ip s1).
    { eapply ready_freed; [exact R | exact Hfr | done | apply S1 | by rewrite (proj2 S1)]. }
    destruct (IH (Datatypes.S j) D1 s1 R1) as (D' & s' & E & R' & F' & S' & B'); rewrite ?Ei; try done.
    { apply K1; [by apply elem_of_singleton | done]. }
    { eapply freed_data; [exact Hfr | done | by rewrite list_elem_of_singleton]. }
    { lia. }
    rewrite Ei in F'. exists D', s'. split_and!; [exact E | done | exact (freed_app sb [b] _ _ _ _ Hfr F') | by eapply same_fs_trans | done].
Qed.

(** The second half of [itrunc]. *)
Lemma free_rest_tx C r D ip s :
  let x := icache s ip in let i := i_addrs x !!! NDIRECT in let l := nonzero (ind_entries (D i)) in
  ready C r D ∅ ip s -> length (i_addrs x) = Datatypes.S NDIRECT ->
  (i <> 0 -> data_block sb ds D i /\ NoDup l /\ i ∉ l /\ Forall (data_block sb ds D) l) ->
  exists D' s', (if i =? 0 then mret tt
     else bp ← disk (bread (i_dev x) i) ;
          free_indirect (Z.to_nat NINDIRECT) 0 (i_dev x) bp ;; disk (brelse bp) ;; bfree (i_dev x) i ;; upd_inode ip (set_addr NDIRECT 0)) s = Ok tt s' /\
    ready C r D' ∅ ip s' /\ freed sb (if i =? 0 then [] else l ++ [i]) D D' /\ only_addrs ip (<[NDIRECT := 0]> (i_addrs x)) s s'.
Proof.
  intros x i l R Hlen Hi. destruct (Z.eqb_spec i 0) as [E0 | E0].
  { exists D, s. split_and!; [done | done | by apply freed_nil, R |]. rewrite list_insert_id; [by apply only_addrs_refl |].
    unfold i in E0. rewrite <- E0. apply list_lookup_lookup_total_lt. lia. }
  destruct (Hi E0) as (Hdi & Hnd & Hil & Hf). assert (Ed : i_dev x = ROOTDEV) by apply R. rewrite Ed. destruct (rd_tx _ _ _ _ _ _ R) as [v T].
  destruct (bread_tx g _ _ _ _ _ _ _ _ T (data_usable g sb ds Hlay D i Hdi)) as (bp & s1 & E1 & T1 & B1 & S1 & _);
    [set_solver | by rewrite size_empty; lia |]. rewrite union_empty_r_L in T1.
  erewrite bind_ok by exact E1. assert (HN : Z.to_nat NINDIRECT = 128%nat) by done. set (N := Z.to_nat NINDIRECT) in *. clearbody N.
  assert (R1 : ready C r D {[i]} ip s1).
  { destruct R as [Q1 Q2 Q3 Q4 Q5 Q6]. destruct S1 as [P1 P2]. split; try done; [by eexists | congruence | by rewrite P2]. }
  assert (Hfull : drop 0 (ind_entries (D i)) = ind_entries (D i) /\ take N (ind_entries (D i)) = ind_entries (D i)).
  { split; [done |]. apply take_ge. unfold ind_entries. rewrite length_fmap, length_seq. lia. }
  destruct Hfull as [H0' H1].
  destruct (free_indirect_tx C r ip i bp N 0 D s1 R1 B1 Hdi) as (D2 & s2 & E2 & R2 & F2 & S2 & B2); rewrite ?H0', ?H1; [lia | done | done | done |].
  rewrite H0', H1 in F2. erewrite bind_ok by exact E2. destruct (rd_tx _ _ _ _ _ _ R2) as [v2 T2].
  destruct (brelse_tx g _ _ _ _ _ _ _ bp i T2) as (s3 & E3 & T3 & S3 & _); [by apply elem_of_singleton | done |].
  rewrite difference_diag_L in T3. erewrite bind_ok by exact E3.
  assert (S03 : same_fs s s3) by eauto using same_fs_trans.
  assert (R3 : ready C r D2 ∅ ip s3).
  { eapply ready_freed; [exact R | exact F2 | by eexists | apply S03 | by rewrite (proj2 S03)]. }
  pose proof (freed_data _ _ _ _ F2 Hdi Hil) as Hdi2.
  destruct (bfree_tx C r D2 ∅ s3 i) as (s4 & E4 & T4 & S4 & _);
    [apply R3 | apply R3 | apply R3 | apply R3 | apply not_elem_of_empty | apply not_elem_of_empty | by rewrite size_empty; lia | done |].
  erewrite bind_ok by exact E4. destruct (set_addr_only ip NDIRECT 0 s4) as (s5 & E5 & O5 & L5).
  assert (S04 : same_fs s s4) by eauto using same_fs_trans.
  assert (O05 : only_addrs ip (<[NDIRECT := 0]> (i_addrs x)) s s5).
  { eapply only_addrs_trans; [by apply only_addrs_refl, S04 |]. unfold x. by rewrite <- (proj2 S04). }
  pose proof (freed_one sb D2 i (rd_map _ _ _ _ _ _ R3) (proj1 (data_bound _ _ Hdi2))) as F4.
  eexists _, s5. split_and!; [exact E5 | | exact (freed_app _ _ _ _ _ _ F2 F4) | done].
  eapply ready_freed; [exact R3 | exact F4 | | rewrite (proj1 O05); by rewrite (proj1 S03) |].
  - destruct T4 as [v4 T4]. exists v4. eapply ftx_log; [| exact T4]. done.
  - destruct (only_addrs_ip _ _ _ _ O05) as [_ ->]. by rewrite (proj2 S03).
Qed.


(** The blocks of a file, as those of its block numbers. *)
Lemma direct_blocks D a : length a = Datatypes.S NDIRECT -> take NDIRECT a = (fun k => fblk a D (Z.of_nat k)) <$> seq 0 NDIRECT.
Proof.
  intros Hl. apply list_eq_same_length with (n := NDIRECT); [by rewrite length_fmap, length_seq | rewrite length_take; lia |].
  intros k x y Hk Hx Hy. rewrite list_lookup_fmap, lookup_seq_lt in Hy by done. injection Hy as <-.
  rewrite lookup_take_lt in Hx by done. unfold fblk. simpl. rewrite (proj2 (Z.ltb_lt _ _)) by lia. rewrite Nat2Z.id.
  symmetry. by apply list_lookup_total_correct.
Qed.

Lemma entry_blocks D a : a !!! NDIRECT <> 0 -> ind_entries (D (a !!! NDIRECT)) = (fun k => fblk a D (Z.of_nat k)) <$> seq NDIRECT 128.
Proof.
  intros Hi. unfold ind_entries. replace (seq NDIRECT 128) with (seq (NDIRECT + 0) 128) by done. rewrite <- fmap_add_seq, <- list_fmap_compose.
  apply list_fmap_ext. intros j x _. simpl. unfold fblk. rewrite (proj2 (Z.ltb_ge _ _)), (proj2 (Z.eqb_neq _ _) Hi) by (unfold NDIRECT; lia).
  f_equal. unfold NDIRECT. lia.
Qed.

Lemma nonzero_nodup (f : nat -> Z) l :
  NoDup l -> (forall i j, i ∈ l -> j ∈ l -> f i <> 0 -> f i = f j -> i = j) -> NoDup (nonzero (f <$> l)).
Proof.
  induction l as [|k l IH]; intros Hnd Hinj; [constructor |]. apply list.NoDup_cons in Hnd as [Hk Hnd]. rewrite fmap_cons, nonzero_cons.
  assert (Hl : NoDup (nonzero (f <$> l))). { apply IH; [done |]. intros i j Hi Hj. apply Hinj; by right. }
  destruct (Z.eqb_spec (f k) 0) as [E | E]; [done |]. apply list.NoDup_cons. split; [| done].
  intros [_ (j & Ej & Hj)%list_elem_of_fmap]%list_elem_of_filter. apply Hk. rewrite (Hinj k j); try done; [by left | by right].
Qed.

Lemma file_blocks_numbers D a b : file_ok sb ds D a ->
  b ∈ file_blocks D a <-> b <> 0 /\ (b = a !!! NDIRECT \/ exists n, 0 <= n < MAXFILE /\ b = fblk a D n).
Proof.
  intros F. pose proof (fo_len _ _ _ _ F) as Hl. unfold file_blocks. rewrite elem_of_app. rewrite (direct_blocks D a Hl).
  assert (HM : MAXFILE = 140) by done. cbv zeta. split.
  - intros [[Hb (k & -> & Hk%elem_of_seq)%list_elem_of_fmap]%list_elem_of_filter | Hb].
    + split; [done |]. right. exists (Z.of_nat k). unfold NDIRECT in *. split; [lia | done].
    + destruct (Z.eqb_spec (a !!! NDIRECT) 0) as [E | E]; [by apply not_elem_of_nil in Hb |]. rewrite (entry_blocks D a E) in Hb.
      apply elem_of_app in Hb as [[Hb (k & -> & Hk%elem_of_seq)%list_elem_of_fmap]%list_elem_of_filter | ->%list_elem_of_singleton].
      * split; [done |]. right. exists (Z.of_nat k). unfold NDIRECT in *. split; [lia | done].
      * split; [done | by left].
  - intros [Hb Hcase]. destruct (Z.eqb_spec (a !!! NDIRECT) 0) as [E | E].
    + destruct Hcase as [-> | (n & Hn & ->)]; [done |]. left. apply list_elem_of_filter. split; [done |]. apply list_elem_of_fmap.
      destruct (decide (n < 12)) as [Hlt | Hge].
      * exists (Z.to_nat n). rewrite elem_of_seq, Z2Nat.id by lia. split; [done | unfold NDIRECT; lia].
      * exfalso. apply Hb. unfold fblk. by rewrite (proj2 (Z.ltb_ge _ _)), E by (unfold NDIRECT; lia).
    + rewrite (entry_blocks D a E). rewrite elem_of_app, list_elem_of_singleton. destruct Hcase as [-> | (n & Hn & ->)]; [tauto |].
      destruct (decide (n < 12)) as [Hlt | Hge]; [left | right; left]; apply list_elem_of_filter; (split; [done |]); apply list_elem_of_fmap;
        exists (Z.to_nat n); rewrite elem_of_seq, Z2Nat.id by lia; (split; [done | unfold NDIRECT; lia]).
Qed.

Lemma file_blocks_nodup D a : file_ok sb ds D a -> NoDup (file_blocks D a).
Proof.
  intros F. pose proof (fo_len _ _ _ _ F) as Hl. assert (HM : MAXFILE = 140) by done. unfold file_blocks. rewrite (direct_blocks D a Hl).
  cbv zeta. set (f := fun k => fblk a D (Z.of_nat k)).
  assert (Hn : forall k n, (k + n <= 140)%nat -> NoDup (nonzero (f <$> seq k n))).
  { intros k n Hk. apply nonzero_nodup; [apply NoDup_seq |]. intros i j Hi%elem_of_seq Hj%elem_of_seq H1 H2.
    apply Nat2Z.inj, (fo_inj _ _ _ _ F); unfold f in *; try done; lia. }
  destruct (Z.eqb_spec (a !!! NDIRECT) 0) as [E | E]; [rewrite app_nil_r; apply Hn; unfold NDIRECT; lia |].
  rewrite (entry_blocks D a E). fold f. rewrite app_assoc. unfold nonzero at 1 2. rewrite <- list.filter_app, <- fmap_app. change (seq 0 NDIRECT ++ seq NDIRECT 128) with (seq 0 140).
  apply list.NoDup_app. split_and!; [apply Hn; unfold NDIRECT; lia | | apply NoDup_singleton].
  intros b [Hb (k & -> & Hk%elem_of_seq)%list_elem_of_fmap]%list_elem_of_filter Hs%list_elem_of_singleton.
  revert Hs. apply (fo_self _ _ _ _ F (Z.of_nat k)); [lia | done].
Qed.

Lemma file_blocks_data D a : file_ok sb ds D a -> Forall (data_block sb ds D) (file_blocks D a).
Proof.
  intros F. apply list.Forall_forall. intros b [Hb [-> | (n & Hn & ->)]]%(file_blocks_numbers D a b F); by apply F.
Qed.


(** The parts of the list of blocks that the two halves of [itrunc] free. *)
Lemma rest_blocks D a D1 :
  file_ok sb ds D a -> freed sb (nonzero (take NDIRECT a)) D D1 ->
  let i := a !!! NDIRECT in let l := nonzero (ind_entries (D1 i)) in
  i <> 0 -> ind_entries (D1 i) = ind_entries (D i) /\ data_block sb ds D1 i /\ NoDup l /\ i ∉ l /\ Forall (data_block sb ds D1) l.
Proof.
  intros F Hfr i l Hi. pose proof (fo_ind _ _ _ _ F Hi) as Hdi. pose proof (lay_bm _ _ _ Hlay) as [_ Hbm].
  assert (Ei : D1 i = D i). { apply Hfr. destruct Hdi as (Hdi & _). change (a !!! NDIRECT) with i in Hdi. lia. }
  pose proof (file_blocks_nodup D a F) as Hnd. pose proof (file_blocks_data D a F) as Hdat. unfold file_blocks in Hnd, Hdat.
  cbv zeta in Hnd, Hdat. fold i in Hnd, Hdat. rewrite (proj2 (Z.eqb_neq i 0) Hi) in Hnd, Hdat. rewrite <- Ei in Hnd, Hdat. fold l in Hnd, Hdat.
  apply list.NoDup_app in Hnd as (_ & Hdis & (Hnd & Hil & _)%list.NoDup_app). rewrite Forall_app in Hdat. destruct Hdat as [_ Hdat].
  assert (Hd1 : forall c, c ∈ l ++ [i] -> data_block sb ds D1 c).
  { intros c Hc. eapply freed_data; [exact Hfr | rewrite list.Forall_forall in Hdat; by apply Hdat |].
    intros Hin. by apply (Hdis c Hin). }
  split_and!; [by rewrite Ei | apply Hd1; rewrite elem_of_app, list_elem_of_singleton; by right | done | |].
  - intros Hin. apply (Hil i Hin). by apply list_elem_of_singleton.
  - apply list.Forall_forall. intros c Hc. apply Hd1. rewrite elem_of_app. by left.
Qed.

Lemma itrunc_tx C r D s ip :
  let x := icache s ip in let x' := set_size 0 (with_addrs (replicate (Datatypes.S NDIRECT) 0) x) in let c := IBLOCK (i_inum x) sb in
  ready C r D ∅ ip s -> regular sb ds D x -> 1 <= r ->
  exists C' r' D1 s', itrunc ip s = Ok tt s' /\ txe g C' r' (bupd D1 c (put_dinode (D c) x')) ∅ s' /\
    freed sb (file_blocks D (i_addrs x)) D D1 /\ f_sb s' = sb /\ icache s' = fupd (icache s) ip x' /\ C ⊆ C' /\ r - 1 <= r'.
Proof.
  intros x x' c R Rg Hr. set (a := i_addrs x). pose proof (rg_ok _ _ _ _ Rg) as F. fold a in F. pose proof (fo_len _ _ _ _ F) as Hl.
  pose proof (file_blocks_nodup D a F) as Hnd. pose proof (file_blocks_data D a F) as Hdat.
  unfold file_blocks in Hnd, Hdat. apply list.NoDup_app in Hnd as (Hnd1 & _). apply Forall_app in Hdat as [Hd1 _].
  destruct (free_direct_tx C r ip NDIRECT 0 D s R) as (D1 & s1 & E1 & R1 & F1 & O1); fold x a; rewrite ?drop_0; try done; [lia |].
  fold x a in F1, O1. rewrite drop_0 in F1. rewrite Nat.add_0_l, take_0, app_nil_l in O1.
  destruct (only_addrs_ip _ _ _ _ O1) as [Ea1 Ed1].
  assert (Ei : i_addrs (icache s1 ip) !!! NDIRECT = a !!! NDIRECT).
  { rewrite Ea1. rewrite lookup_total_app_r by (rewrite length_replicate; lia). rewrite length_replicate, Nat.sub_diag.
    rewrite lookup_total_drop. by rewrite Nat.add_0_r. }
  destruct (free_rest_tx C r D1 ip s1 R1) as (D2 & s2 & E2 & R2 & F2 & O2).
  { rewrite Ea1, length_app, length_replicate, length_drop. lia. }
  { rewrite Ei. intros Hi. exact (proj2 (rest_blocks D a D1 F F1 Hi)). }
  unfold itrunc. erewrite bind_ok by exact E1. erewrite bind_ok by reflexivity. cbv zeta. erewrite bind_ok by exact E2.
  assert (O02 : only_addrs ip (replicate (Datatypes.S NDIRECT) 0) s s2).
  { eapply only_addrs_trans; [exact O1 |]. rewrite Ea1 in O2.
    replace (<[NDIRECT:=0]> (replicate NDIRECT 0 ++ drop NDIRECT a)) with (replicate (Datatypes.S NDIRECT) 0) in O2; [done |].
    rewrite insert_app_r_alt by (rewrite length_replicate; lia). rewrite length_replicate, Nat.sub_diag.
    assert (length (drop NDIRECT a) = 1%nat) by (rewrite length_drop; lia). by destruct (drop NDIRECT a) as [|? [|]]. }
  set (s3 := FState (f_log s2) (f_sb s2) (fupd (icache s) ip x')).
  assert (E3 : upd_inode ip (set_size 0) s2 = Ok tt s3).
  { unfold upd_inode. erewrite bind_ok by reflexivity. unfold set_inode, modify, s3. by rewrite (proj2 O02), fupd_same, fupd_fupd. }
  erewrite bind_ok by exact E3. assert (Ex : icache s3 ip = x') by (apply fupd_same).
  assert (Hfr : freed sb (file_blocks D a) D D2).
  { unfold file_blocks. eapply freed_app; [exact F1 |]. rewrite Ei in F2. cbv zeta. destruct (Z.eqb_spec (a !!! NDIRECT) 0) as [E | E]; [done |].
    by rewrite (proj1 (rest_blocks D a D1 F F1 E)) in F2. }
  destruct (iupdate_tx g sb ds Hlay C r D2 s3 ip) as (C' & r' & s' & E4 & T4 & S4 & HC & Hr'); rewrite ?Ex; try done.
  { destruct (rd_tx _ _ _ _ _ _ R2) as [v2 T2]. exists v2. eapply ftx_log; [| exact T2]. done. }
  { apply R2. }
  { apply Rg. }
  { apply Rg. }
  exists C', r', D2, s'. rewrite Ex in T4. cbn [i_inum x' set_size with_addrs] in T4. fold c in T4.
  assert (Ec : D2 c = D c). { apply Hfr. destruct (lay_inode _ _ _ Hlay (i_inum x) (rg_inum _ _ _ _ Rg)) as (_ & _ & ?). done. }
  rewrite Ec in T4. destruct S4 as [P1 P2]. split_and!; try done.
  rewrite P1. apply R2.
Qed.

End trunc.

End Trunc.

(** ** Properties *)

(** C20: truncation gives back exactly the blocks of the file.  Inside a transaction, on a consistent
    disk, [itrunc] of a regular file returns (it never finds a block already free); in the free map the
    bits of the direct blocks, of the blocks in the indirect block and of the indirect block are
    cleared and no others, so that many more blocks are free; the contents of all blocks but the map
    and the block of the inode are untouched, the inode is empty in the cache and stored on disk, and
    no other cached inode changes. *)
Theorem itrunc_frees_blocks {St : Type} `{BlockStoreLaws St} (g : log) (sb : superblock) (ds : Z)
    (C : gset Z) (r : Z) (D : Z -> block) (s : fstate St) (v : bview) (ip : nat) (m : nat) :
  let bm := sb_bmapstart sb in let x := icache s ip in let c := IBLOCK (i_inum x) sb in
  let x' := set_size 0 (with_addrs (replicate 13 0) x) in let l := Trunc.file_blocks D (i_addrs x) in
  layout g sb ds -> usable g 1 -> 1 < ds -> bm <> 1 -> Trunc.super_of (D 1) = sb ->
  ftx g true C r D ∅ s v -> f_sb s = sb -> map_ok sb ds D -> regular sb ds D x -> bm ∈ C -> 1 <= r ->
  free_at_least (D bm) (sb_size sb) m ->
  exists C' r' D' s' v', itrunc ip s = Ok tt s' /\ ftx g true C' r' D' ∅ s' v' /\
    (forall b, 0 <= b < sb_size sb -> bit_used (D' bm) b = bit_used (D bm) b && negb (bool_decide (b ∈ l))) /\
    (forall b, b ∈ l <-> b <> 0 /\ (b = i_addrs x !!! NDIRECT \/ exists n, 0 <= n < MAXFILE /\ b = fblk (i_addrs x) D n)) /\
    free_at_least (D' bm) (sb_size sb) (m + length l) /\
    (forall b, b <> bm -> b <> c -> D' b = D b) /\ D' c = put_dinode (D c) x' /\
    icache s' = fupd (icache s) ip x'.
Proof.
  intros bm x c x' l L H1 Hds Hbm1 Hsup T Hsb M Rg HC Hr Hfree.
  assert (R : Trunc.ready g sb C r D ∅ ip s).
  { split; try done; [by eexists | apply Rg | apply M]. }
  destruct (Trunc.itrunc_tx g H1 sb ds L Hds Hbm1 C r D s ip R Rg Hr) as (C' & r' & D1 & s' & E & [v' T'] & Fr & _ & Ec & _).
  fold x in Fr, T'. fold l in Fr. destruct (lay_inode _ _ _ L (i_inum x) (rg_inum _ _ _ _ Rg)) as (_ & Hc & Hcb).
  pose proof (lay_size _ _ _ L) as Hsize. unfold FSSIZE in Hsize. pose proof (rg_ok _ _ _ _ Rg) as F.
  set (D' := bupd D1 _ _) in T'. assert (Em : D' bm = D1 bm) by (by apply bupd_other).
  assert (Hbits : forall b, 0 <= b < sb_size sb -> bit_used (D' bm) b = bit_used (D bm) b && negb (bool_decide (b ∈ l))).
  { intros b Hb. rewrite Em. apply Fr. lia. }
  exists C', r', D', s', v'. split_and!; try done.
  - intros b. apply Trunc.file_blocks_numbers with (sb := sb) (ds := ds). done.
  - destruct Hfree as (fl & Hnd & Hfl & Hm). exists (fl ++ l). pose proof (Trunc.file_blocks_data sb ds D _ F) as Hdat.
    rewrite list.Forall_forall in Hdat. fold l in Hdat. split_and!.
    + apply list.NoDup_app. split_and!; [done | | by apply (Trunc.file_blocks_nodup sb ds)].
      intros b [_ Hb]%Hfl (_ & Hu & _)%Hdat. unfold bm in Hb. congruence.
    + intros b [Hb | Hb]%elem_of_app.
      * destruct (Hfl b Hb) as [Hb1 Hb2]. split; [done |]. by rewrite Hbits, Hb2.
      * destruct (Hdat b Hb) as (Hb1 & _). pose proof (lay_ds _ _ _ L). split; [lia |]. rewrite Hbits by lia.
        by rewrite bool_decide_true, andb_false_r.
    + rewrite length_app. lia.
  - intros b Hb Hb'. unfold D'. rewrite bupd_other by done. by apply Fr.
  - apply bupd_same.
Qed.

(** A disk with its superblock and a file of one block, number 59. *)
Definition super_block : block :=
  put32 (put32 (put32 (put32 (put32 (put32 (put32 zero_block 0 1000) 4 941) 8 200) 12 30) 16 2) 20 32) 24 58.
Definition one_disk : Z -> block := fun b =>
  if b =? 1 then super_block else if b =? 58 then replicate 7 255 ++ [15] ++ replicate 504 0 else zero_block.
Definition one_inode : inode := Inode 1 5 1 (Sleep.SL true 1) true T_FILE 0 0 1 3 (59 :: replicate 12 0).

Lemma one_blk n : 0 <= n < MAXFILE -> fblk (i_addrs one_inode) one_disk n = if n =? 0 then 59 else 0.
Proof.
  intros Hn. unfold fblk. zcase (n <? Z.of_nat NDIRECT).
  - zcase (n =? 0); [by subst |]. replace (Z.to_nat n) with (S (Z.to_nat (n - 1))) by lia.
    change (replicate 12 0 !!! Z.to_nat (n - 1) = 0). apply lookup_total_replicate_2. unfold NDIRECT in *. lia.
  - rewrite (proj2 (Z.eqb_neq n 0)) by (unfold NDIRECT in *; lia). done.
Qed.

Lemma one_data : data_block fresh_sb 59 one_disk 59.
Proof. split_and!; [done | done | by vm_compute | done]. Qed.

Lemma one_regular : regular fresh_sb 59 one_disk one_inode.
Proof.
  split; try done.
  - split; [done | | done | |].
    + intros n Hn. rewrite one_blk by done. zcase (n =? 0); [intros _; apply one_data | done].
    + intros n m Hn Hm. rewrite !one_blk by done. zcase (n =? 0); zcase (m =? 0); try done. intros _ _. congruence.
    + intros n Hn. rewrite one_blk by done. zcase (n =? 0); [| done]. intros _. done.
  - intros o Ho. cbn in Ho. replace (o / BSIZE) with 0 by (unfold BSIZE; Z.to_euclidean_division_equations; lia). done.
Qed.

Lemma one_map : map_ok fresh_sb 59 one_disk.
Proof.
  split; [done |]. intros b Hb. assert (E : forallb (fun k => bit_used (one_disk 58) (Z.of_nat k)) (seq 0 59) = true)
    by (vm_compute; reflexivity).
  rewrite forallb_forall in E. replace b with (Z.of_nat (Z.to_nat b)) by lia. apply E, in_seq. lia.
Qed.

Lemma itrunc_frees_blocks_witness :
  exists (s s' : fstate bcache) (D' : Z -> block), icache s 0%nat = one_inode /\ itrunc (H := bio_store 1) 0 s = Ok tt s' /\
    bit_used (one_disk 58) 59 = true /\ bit_used (D' 58) 59 = false.
Proof.
  destruct (boot_on one_disk) as (b & _ & A).
  set (s := FState (LState (set_out 1 demo_log) b) fresh_sb (fun _ => one_inode)).
  assert (T : ftx (H0 := bio_laws 1) demo_log true {[58]} 25 one_disk ∅ s (view_on one_disk)).
  { split; try done. apply linv_set_out. split; [apply demo_geom | done | apply homes_nil, demo_geom | done ..]. }
  destruct (itrunc_frees_blocks (H0 := bio_laws 1) demo_log fresh_sb 59 {[58]} 25 one_disk s (view_on one_disk) 0 0)
    as (C' & r' & D' & s' & v' & E & _ & Hb & _);
    [exact fresh_layout | | done | done | by vm_compute | exact T | done | exact one_map | exact one_regular | set_solver | done | |].
  - unfold usable, in_log, FSSIZE. change (start demo_log) with 2. change (lsize demo_log) with 30. lia.
  - exists []. split_and!; [constructor | by intros ? ?%not_elem_of_nil | done].
  - exists s, s', D'. split_and!; [done | done | by vm_compute |]. etransitivity; [exact (Hb 59 ltac:(done)) | by vm_compute].
Defined.
