(* ===== verification/Mkfs.v ===== *)
(** * mkfs.c: the file system image

    The program that builds the first disk: boot block, superblock, log, inodes, free map and data
    blocks.  The image is an array of sectors; reading beyond its end ends the program, as do failed
    assertions ([panic]).  What [open] and [read] of the host give for a file name is the parameter
    [host]: the pieces successive reads return.  Words are stored in Intel byte order ([xint],
    [xshort]) by [put32], [put16] and [dirent]. *)
From S2P Require Import Prelude Lock Ide Bytes Bio BlockStore Log LogSys Fs FsSys FsTx FsFile FsDir FsTrunc.
#[local] Open Scope Z_scope.

Module Mkfs.

Definition NINODES : Z := 200.
Definition nbitmap : Z := FSSIZE / (BSIZE * 8) + 1.
Definition ninodeblocks : Z := NINODES / IPB + 1.
Definition nlog : Z := LOGSIZE.
Definition nmeta : Z := 2 + nlog + ninodeblocks + nbitmap.
Definition nblocks : Z := FSSIZE - nmeta.

(** The image file, with its length in sectors, and the globals of the program. *)
Record image := Image { sect : Z -> block; nsect : Z; sb : superblock; freeinode : Z; freeblock : Z }.
Notation MK := (M image).

Definition wsect (sec : Z) (buf : block) : MK unit :=
  modify (fun m => Image (bupd (sect m) sec buf) (Z.max (nsect m) (sec + 1)) (sb m) (freeinode m) (freeblock m)).

Definition rsect (sec : Z) : MK block :=
  m ← gets id ; if sec <? nsect m then mret (sect m sec) else panic "read".

(** A [struct dinode] of inode [inum]: the fields of [inode] that are kept on disk. *)
Definition din_of (inum : Z) : inode := Inode ROOTDEV inum 0 Sleep.initsleeplock true 0 0 0 0 0 [].

Definition winode (din : inode) : MK unit :=
  m ← gets id ;
  let bn := IBLOCK (i_inum din) (sb m) in
  buf ← rsect bn ;
  wsect bn (put_dinode buf din).

Definition rinode (inum : Z) : MK inode :=
  m ← gets id ;
  buf ← rsect (IBLOCK inum (sb m)) ;
  mret (get_dinode buf (din_of inum)).

Definition new_dinode (inum ty : Z) : inode :=
  Inode ROOTDEV inum 0 Sleep.initsleeplock true ty 0 0 1 0 (replicate (S NDIRECT) 0).

Definition ialloc (ty : Z) : MK Z :=
  m ← gets id ;
  let inum := freeinode m in
  modify (fun m => Image (sect m) (nsect m) (sb m) (freeinode m + 1) (freeblock m)) ;;
  winode (new_dinode inum ty) ;;
  mret inum.

(** The loop of [balloc]: [n] bits from [i]. *)
Fixpoint mark (n : nat) (i : Z) (buf : block) : block :=
  match n with O => buf | S n' => mark n' (i + 1) (set_bit buf i) end.

Definition balloc (used : Z) : MK unit :=
  if negb (used <? BSIZE * 8) then panic "assert"
  else m ← gets id ; wsect (sb_bmapstart (sb m)) (mark (Z.to_nat used) 0 zero_block).

(** [freeblock++]. *)
Definition next_block : MK Z :=
  m ← gets id ;
  modify (fun m => Image (sect m) (nsect m) (sb m) (freeinode m) (freeblock m + 1)) ;;
  mret (freeblock m).

(** The block for file block [fbn], taking new ones as needed: the inode and its address. *)
Definition block_for (din : inode) (fbn : Z) : MK (inode * Z) :=
  if fbn <? Z.of_nat NDIRECT then
    din ← (if i_addrs din !!! Z.to_nat fbn =? 0 then b ← next_block ; mret (set_addr (Z.to_nat fbn) b din) else mret din) ;
    mret (din, i_addrs din !!! Z.to_nat fbn)
  else
    din ← (if i_addrs din !!! NDIRECT =? 0 then b ← next_block ; mret (set_addr NDIRECT b din) else mret din) ;
    let o := (4 * Z.to_nat (fbn - Z.of_nat NDIRECT))%nat in
    indirect ← rsect (i_addrs din !!! NDIRECT) ;
    indirect ← (if get32 indirect o =? 0 then
                  b ← next_block ; wsect (i_addrs din !!! NDIRECT) (put32 indirect o b) ;; mret (put32 indirect o b)
                else mret indirect) ;
    mret (din, get32 indirect o).

Fixpoint iappend_loop (fuel : nat) (din : inode) (off : Z) (p : list Z) : MK (inode * Z) :=
  match fuel with
  | O => panic "out of fuel"
  | S f =>
      match p with
      | [] => mret (din, off)
      | _ =>
          let fbn := off / BSIZE in
          if negb (fbn <? MAXFILE) then panic "assert"
          else
            '(din, x) ← block_for din fbn ;
            let n1 := Z.min (Z.of_nat (length p)) ((fbn + 1) * BSIZE - off) in
            buf ← rsect x ;
            wsect x (splice buf (Z.to_nat (off - fbn * BSIZE)) (take (Z.to_nat n1) p)) ;;
            iappend_loop f din (off + n1) (drop (Z.to_nat n1) p)
      end
  end.

(** Every pass stores at least one byte. *)
Definition iappend (inum : Z) (p : list Z) : MK unit :=
  din ← rinode inum ;
  '(din, off) ← iappend_loop (S (length p)) din (i_size din) p ;
  winode (set_size off din).

Section main.
Variable host : list Z -> option (list (list Z)).

(** [while((cc = read(fd, buf, sizeof(buf))) > 0) iappend(inum, buf, cc)]. *)
Fixpoint append_all (inum : Z) (chunks : list (list Z)) : MK unit :=
  match chunks with
  | [] => mret tt
  | c :: cs => match c with [] => mret tt | _ => iappend inum c ;; append_all inum cs end
  end.

(** The name in the file system: without a leading underscore. *)
Definition fs_name (name : list Z) : list Z := match name with c :: t => if c =? 95 then t else name | [] => [] end.

Definition add_file (name : list Z) : MK unit :=
  if bool_decide (slash ∈ name) then panic "assert"
  else match host name with
       | None => panic "open"
       | Some chunks =>
           inum ← ialloc T_FILE ;
           iappend ROOTINO (dirent inum (fs_name name)) ;;
           append_all inum chunks
       end.

Fixpoint add_files (names : list (list Z)) : MK unit :=
  match names with [] => mret tt | n :: ns => add_file n ;; add_files ns end.

Fixpoint zero_sects (n : nat) (i : Z) : MK unit :=
  match n with O => mret tt | S n' => wsect i zero_block ;; zero_sects n' (i + 1) end.

Definition super : superblock := Super FSSIZE nblocks NINODES nlog 2 (2 + nlog) (2 + nlog + ninodeblocks).

(** The bytes of the superblock in a cleared buffer. *)
Definition super_bytes (s : superblock) : block :=
  put32 (put32 (put32 (put32 (put32 (put32 (put32 zero_block 0 (sb_size s)) 4 (sb_nblocks s)) 8 (sb_ninodes s))
    12 (sb_nlog s)) 16 (sb_logstart s)) 20 (sb_inodestart s)) 24 (sb_bmapstart s).

Definition empty_image : image := Image (fun _ => zero_block) 0 super 1 nmeta.

Definition main (names : list (list Z)) : MK unit :=
  zero_sects (Z.to_nat FSSIZE) 0 ;;
  wsect 1 (super_bytes super) ;;
  rootino ← ialloc T_DIR ;
  if negb (rootino =? ROOTINO) then panic "assert"
  else
    iappend rootino (dirent rootino [46]) ;;
    iappend rootino (dirent rootino [46; 46]) ;;
    add_files names ;;
    din ← rinode rootino ;
    winode (set_size ((i_size din / BSIZE + 1) * BSIZE) din) ;;
    m ← gets id ;
    balloc (freeblock m).
End main.

(** ** The image as a disk

    While the program runs, the free map is only the counter [freeblock]; the disk it stands for has
    the map that [balloc] would write now.  Growing a file then is what it is in the kernel. *)

Definition bmap_sect : Z := 58.
Definition first_data : Z := 59.

Lemma super_eq : super = fresh_sb.
Proof. reflexivity. Qed.

Lemma image_layout : layout demo_log super first_data.
Proof. rewrite super_eq. exact fresh_layout. Qed.

Definition disk_of (m : image) : Z -> block := bupd (sect m) bmap_sect (mark (Z.to_nat (freeblock m)) 0 zero_block).

Lemma mark_snoc : forall n i x, mark (S n) i x = set_bit (mark n i x) (i + Z.of_nat n).
Proof.
  induction n as [|n IH]; intros i x; [simpl; by rewrite Z.add_0_r |].
  change (mark (S (S n)) i x) with (mark (S n) (i + 1) (set_bit x i)). rewrite IH. cbn [mark]. f_equal. lia.
Qed.

Lemma length_mark : forall n i x, length (mark n i x) = length x.
Proof. induction n as [|n IH]; intros i x; [done |]. cbn [mark]. rewrite IH. unfold set_bit. apply length_putb. Qed.

Lemma bit_used_zero c : 0 <= c < 4096 -> bit_used zero_block c = false.
Proof.
  intros Hc. rewrite bit_used_testbit by lia. rewrite getb_zero_block; [apply Z.bits_0 |]. Z.to_euclidean_division_equations; lia.
Qed.

Lemma mark_bits n c : Z.of_nat n <= 4096 -> 0 <= c < 4096 -> bit_used (mark n 0 zero_block) c = (c <? Z.of_nat n).
Proof.
  induction n as [|n IH]; intros Hn Hc.
  { rewrite (proj2 (Z.ltb_ge _ _)) by lia. by apply bit_used_zero. }
  rewrite mark_snoc, bit_used_set, IH by (rewrite ?length_mark; try done; lia). rewrite Z.add_0_l.
  destruct (Z.eqb_spec (Z.of_nat n) c), (Z.ltb_spec c (Z.of_nat n)), (Z.ltb_spec c (Z.of_nat (S n))); simpl; lia || done.
Qed.

(** What holds of the image once its sectors were cleared. *)
Record sane (m : image) : Prop := {
  sn_sb : sb m = super;
  sn_size : nsect m = FSSIZE;
  sn_free : first_data <= freeblock m <= FSSIZE;
  sn_len : forall b, 0 <= b < FSSIZE -> length (sect m b) = 512%nat;
  sn_zero : forall b, freeblock m <= b < FSSIZE -> sect m b = zero_block
}.

Lemma disk_map m : disk_of m bmap_sect = mark (Z.to_nat (freeblock m)) 0 zero_block.
Proof. apply bupd_same. Qed.

Lemma disk_sect m b : b <> bmap_sect -> disk_of m b = sect m b.
Proof. intros Hb. by apply bupd_other. Qed.

Lemma disk_used m b : sane m -> 0 <= b < 4096 -> bit_used (disk_of m bmap_sect) b = (b <? freeblock m).
Proof.
  intros [_ _ Hf _ _] Hb. unfold first_data, FSSIZE in Hf. rewrite disk_map, mark_bits by lia. by rewrite Z2Nat.id by lia.
Qed.

Lemma disk_map_ok m : sane m -> map_ok super first_data (disk_of m).
Proof.
  intros Hs. change super with fresh_sb. split.
  - change (sb_bmapstart fresh_sb) with bmap_sect. by rewrite disk_map, length_mark.
  - intros b Hb. change (sb_bmapstart fresh_sb) with bmap_sect. pose proof (sn_free _ Hs). unfold first_data in *.
    rewrite disk_used by (done || lia). apply Z.ltb_lt. lia.
Qed.

Lemma rsect_ok m b : sane m -> 0 <= b < FSSIZE -> rsect b m = Ok (sect m b) m.
Proof. intros Hs Hb. unfold rsect. erewrite bind_ok by reflexivity. cbn [id]. rewrite (sn_size _ Hs). by rewrite (proj2 (Z.ltb_lt _ _)) by lia. Qed.

(** The image after a block was taken. *)
Definition took (m : image) : image := Image (sect m) (nsect m) (sb m) (freeinode m) (freeblock m + 1).

Lemma next_block_ok m : next_block m = Ok (freeblock m) (took m).
Proof. reflexivity. Qed.

Lemma took_sane m : sane m -> freeblock m < FSSIZE -> sane (took m).
Proof. intros [H1 H2 H3 H4 H5] Hf. split; simpl; try done; [lia |]. intros b Hb. apply H5. lia. Qed.

(** To the kernel, a block taken is a block allocated. *)
Lemma took_allocated m : sane m -> freeblock m < FSSIZE -> disk_of (took m) = allocated super (disk_of m) (freeblock m).
Proof.
  intros Hs Hf. pose proof (sn_free _ Hs) as Hr. unfold first_data in Hr. extensionality c. unfold allocated. change (sb_bmapstart super) with bmap_sect.
  destruct (decide (c = freeblock m)) as [-> | Hc].
  - rewrite bupd_same, disk_sect by (unfold bmap_sect; lia). apply Hs. lia.
  - rewrite bupd_other by done. destruct (decide (c = bmap_sect)) as [-> | Hb].
    + rewrite bupd_same, !disk_map. cbn [freeblock took]. replace (Z.to_nat (freeblock m + 1)) with (S (Z.to_nat (freeblock m))) by lia.
      rewrite mark_snoc. f_equal. lia.
    + rewrite bupd_other, !disk_sect by done. done.
Qed.

(** A sector of data written. *)
Definition wrote_sect (m : image) (b : Z) (x : block) : image := Image (bupd (sect m) b x) FSSIZE (sb m) (freeinode m) (freeblock m).

Lemma wsect_ok m b x : sane m -> 0 <= b < FSSIZE -> wsect b x m = Ok tt (wrote_sect m b x).
Proof. intros Hs Hb. unfold wsect, modify, wrote_sect. rewrite (sn_size _ Hs). by rewrite Z.max_l by lia. Qed.

Lemma wrote_sane m b x : sane m -> 0 <= b < freeblock m -> length x = 512%nat -> sane (wrote_sect m b x).
Proof.
  intros [H1 H2 H3 H4 H5] Hb Hx. split; simpl; try done.
  - intros c Hc. unfold bupd. case_decide; auto.
  - intros c Hc. rewrite bupd_other by lia. by apply H5.
Qed.

Lemma wrote_disk m b x : b <> bmap_sect -> disk_of (wrote_sect m b x) = bupd (disk_of m) b x.
Proof.
  intros Hb. extensionality c. unfold disk_of, wrote_sect. cbn [sect freeblock]. unfold bupd. repeat case_decide; congruence.
Qed.


(** ** Appending to a file *)

Notation grows W m a m' a' := (fgrow super first_data W (disk_of m) a (disk_of m') a').
Notation fine m a := (file_ok super first_data (disk_of m) a).
Notation ind a := (a !!! NDIRECT).

(** A block that appears in a file while [freeblock] goes up by one is that one. *)
Lemma fresh_number m m' b :
  sane m -> sane m' -> freeblock m' = freeblock m + 1 -> bit_used (disk_of m bmap_sect) b = false ->
  data_block super first_data (disk_of m') b -> b = freeblock m.
Proof.
  intros H1 H2 Hf Hu (Hr & Hu' & _). change (sb_bmapstart super) with bmap_sect in Hu'. change (sb_size super) with 1000 in Hr.
  unfold first_data in Hr. rewrite disk_used in Hu, Hu' by (done || lia). reflect_bool. lia.
Qed.

Lemma other_blocks m a m' a' k :
  sane m -> sane m' -> freeblock m' = freeblock m + 1 -> grows ∅ m a m' a' -> 0 <= k < MAXFILE ->
  fblk a (disk_of m) k = 0 -> fblk a' (disk_of m') k <> 0 ->
  forall n, 0 <= n < MAXFILE -> n <> k -> fblk a' (disk_of m') n = fblk a (disk_of m) n.
Proof.
  intros H1 H2 Hf G Hk K0 K1 n Hn Hne. destruct (decide (fblk a (disk_of m) n = 0)) as [N0 | N0]; [| by apply (fg_blk _ _ _ _ _ _ _ G)].
  destruct (decide (fblk a' (disk_of m') n = 0)) as [N1 | N1]; [congruence |]. pose proof (fg_file _ _ _ _ _ _ _ G) as F. exfalso. apply Hne.
  apply (fo_inj _ _ _ _ F); try done. trans (freeblock m); [| symmetry].
  - apply (fresh_number m m'); try done; [by apply (fg_free _ _ _ _ _ _ _ G) | by apply (fo_blk _ _ _ _ F)].
  - apply (fresh_number m m'); try done; [by apply (fg_free _ _ _ _ _ _ _ G) | by apply (fo_blk _ _ _ _ F)].
Qed.

Lemma ind_blocks m a m' a' :
  sane m -> sane m' -> freeblock m' = freeblock m + 1 -> grows ∅ m a m' a' -> ind a = 0 -> ind a' <> 0 ->
  forall n, 0 <= n < MAXFILE -> fblk a' (disk_of m') n = fblk a (disk_of m) n.
Proof.
  intros H1 H2 Hf G I0 I1 n Hn. destruct (decide (fblk a (disk_of m) n = 0)) as [N0 | N0]; [| by apply (fg_blk _ _ _ _ _ _ _ G)].
  destruct (decide (fblk a' (disk_of m') n = 0)) as [N1 | N1]; [congruence |]. pose proof (fg_file _ _ _ _ _ _ _ G) as F. exfalso.
  apply (fo_self _ _ _ _ F n Hn N1). trans (freeblock m); [| symmetry].
  - apply (fresh_number m m'); try done; [by apply (fg_free _ _ _ _ _ _ _ G) | by apply (fo_blk _ _ _ _ F)].
  - apply (fresh_number m m'); try done; [by apply (fg_ind0 _ _ _ _ _ _ _ G) | by apply (fo_ind _ _ _ _ F)].
Qed.

(** Blocks of a file of [sz] bytes, and with its indirect block. *)
Definition blocks_of (sz : Z) : Z := (sz + 511) / 512.
Definition need (sz : Z) : Z := blocks_of sz + (if 12 <? blocks_of sz then 1 else 0).

(** The file has the blocks that [sz] bytes take, and no more. *)
Record tight (m : image) (a : list Z) (sz : Z) : Prop := {
  tg_blk : forall n, 0 <= n < MAXFILE -> fblk a (disk_of m) n <> 0 <-> n < blocks_of sz;
  tg_ind : ind a <> 0 <-> 12 < blocks_of sz
}.

Lemma tight_blocks m a sz sz' : blocks_of sz = blocks_of sz' -> tight m a sz -> tight m a sz'.
Proof. intros E [H1 H2]. split; rewrite <- E; done. Qed.

Lemma tight_new m a m' a' k sz :
  sane m -> sane m' -> freeblock m' = freeblock m + 1 -> grows ∅ m a m' a' -> 0 <= k < MAXFILE ->
  blocks_of sz = k -> blocks_of (sz + 1) = k + 1 -> (ind a' <> 0 <-> 12 < k + 1) -> fblk a (disk_of m) k = 0 -> fblk a' (disk_of m') k <> 0 ->
  (forall n, 0 <= n < MAXFILE -> fblk a (disk_of m) n <> 0 <-> n < k) -> tight m' a' (sz + 1).
Proof.
  intros H1 H2 Hf G Hk E1 E2 Hi K0 K1 T. split; rewrite E2; [| done]. intros n Hn. destruct (decide (n = k)) as [-> | Hne]; [split; [lia | done] |].
  rewrite (other_blocks m a m' a' k) by done. rewrite T by done. lia.
Qed.

(** What [block_for] has to give for the next byte of a file of [off] bytes. *)
Definition got_block (m : image) (din : inode) (off : Z) (r : outcome image (inode * Z)) : Prop :=
  exists a' m', r = Ok (with_addrs a' din, fblk a' (disk_of m') (off / BSIZE)) m' /\ sane m' /\ grows ∅ m (i_addrs din) m' a' /\
    fblk a' (disk_of m') (off / BSIZE) <> 0 /\ tight m' a' (off + 1) /\
    freeblock m' = freeblock m + (need (off + 1) - need off) /\ freeinode m' = freeinode m.

Lemma with_addrs_id din : with_addrs (i_addrs din) din = din.
Proof. by destruct din. Qed.

(** The next byte lies in the last block, or in the block behind it. *)
Lemma next_byte off : 0 <= off ->
  blocks_of (off + 1) = off / BSIZE + 1 /\ (blocks_of off = off / BSIZE \/ blocks_of off = off / BSIZE + 1).
Proof. intros Ho. unfold blocks_of, BSIZE. Z.to_euclidean_division_equations; lia. Qed.

Lemma block_for_direct m din off :
  sane m -> fine m (i_addrs din) -> tight m (i_addrs din) off -> 0 <= off -> off / BSIZE < 12 ->
  freeblock m + (need (off + 1) - need off) <= FSSIZE -> got_block m din off (block_for din (off / BSIZE) m).
Proof.
  intros Hs F [T1 T2] Ho Hk Hfree. set (a := i_addrs din) in *. set (k := off / BSIZE) in *. assert (HM : MAXFILE = 140) by done.
  assert (Hk0 : 0 <= k) by (unfold k, BSIZE; Z.to_euclidean_division_equations; lia).
  destruct (next_byte off Ho) as [B1 B2]. fold k in B1, B2. pose proof (disk_map_ok m Hs) as M.
  assert (Ek : fblk a (disk_of m) k = a !!! Z.to_nat k) by (unfold fblk; by rewrite (proj2 (Z.ltb_lt _ _)) by (unfold NDIRECT; lia)).
  assert (I0 : ind a = 0) by (destruct (decide (ind a = 0)) as [|E]; [done | apply T2 in E; lia]).
  unfold block_for. rewrite (proj2 (Z.ltb_lt k _)) by (unfold NDIRECT; lia). fold a. unfold got_block. fold a k.
  destruct (Z.eqb_spec (a !!! Z.to_nat k) 0) as [E | E].
  - assert (Bo : blocks_of off = k). { destruct B2; [done |]. exfalso. apply (T1 k); [lia | lia | congruence]. }
    assert (Hn : need (off + 1) - need off = 1). { unfold need. rewrite B1, Bo. rewrite !(proj2 (Z.ltb_ge _ _)) by lia. lia. }
    rewrite Hn in *. assert (Hlt : freeblock m < FSSIZE) by lia. pose proof (took_sane m Hs Hlt) as Hs'.
    pose proof (sn_free _ Hs) as Hfr. unfold first_data, FSSIZE in *.
    assert (G : grows ∅ m a (took m) (<[Z.to_nat k := freeblock m]> a)).
    { rewrite took_allocated by done. apply (fgrow_direct demo_log super first_data image_layout); try done; [congruence | |].
      - change (sb_size super) with 1000. unfold first_data. lia.
      - change (sb_bmapstart super) with bmap_sect. rewrite disk_used by (done || lia). apply Z.ltb_ge. lia. }
    pose proof (fo_len _ _ _ _ F) as Hl. unfold NDIRECT in Hl.
    assert (Eb : fblk (<[Z.to_nat k := freeblock m]> a) (disk_of (took m)) k = freeblock m).
    { unfold fblk. rewrite (proj2 (Z.ltb_lt _ _)) by (unfold NDIRECT; lia). apply list_lookup_total_insert_eq. lia. }
    exists (<[Z.to_nat k := freeblock m]> a), (took m). rewrite Eb. split_and!; try done; [| lia |].
    + erewrite bind_ok by (erewrite bind_ok by apply next_block_ok; reflexivity). unfold mret, M_ret. do 2 f_equal. simpl.
      apply list_lookup_total_insert_eq. fold a. lia.
    + apply (tight_new m a (took m) _ k); try done; try lia.
      * rewrite list_lookup_total_insert_ne by (unfold NDIRECT; lia). rewrite I0. split; [done | lia].
      * intros n Hn'. rewrite T1 by done. lia.
  - assert (Bo : blocks_of off = k + 1). { destruct B2; [| done]. exfalso. rewrite <- Ek in E. apply T1 in E; lia. }
    exists a, m. assert (Hn : need (off + 1) - need off = 0) by (unfold need; rewrite B1, Bo; lia).
    split_and!; try done; [| congruence | | lia].
    + erewrite bind_ok by reflexivity. unfold a. rewrite with_addrs_id. fold a. by rewrite Ek.
    + apply (tight_blocks _ _ off); [lia | done].
Qed.


Lemma took_facts m : sane m -> freeblock m < FSSIZE ->
  first_data <= freeblock m < sb_size super /\ bit_used (disk_of m (sb_bmapstart super)) (freeblock m) = false /\ freeblock m <> 0.
Proof.
  intros Hs Hlt. pose proof (sn_free _ Hs) as Hfr. unfold first_data, FSSIZE in *. change (sb_size super) with 1000.
  change (sb_bmapstart super) with bmap_sect. rewrite disk_used by (done || lia). split_and!; [lia | lia | apply Z.ltb_ge; lia | lia].
Qed.

Lemma file_sect m b : data_block super first_data (disk_of m) b -> disk_of m b = sect m b /\ 0 <= b < FSSIZE /\ b <> bmap_sect /\ 59 <= b.
Proof.
  intros (Hb & _). change (sb_size super) with 1000 in Hb. unfold first_data, FSSIZE, bmap_sect in *. split_and!; try lia. apply disk_sect. unfold bmap_sect. lia.
Qed.

(** The indirect block of a file, taken if it has none. *)
Lemma ind_step m din :
  let a := i_addrs din in
  sane m -> fine m a -> (ind a = 0 -> freeblock m < FSSIZE) ->
  exists a1 m1, (if ind a =? 0 then b ← next_block ; mret (set_addr NDIRECT b din) else mret din) m = Ok (with_addrs a1 din) m1 /\
    sane m1 /\ grows ∅ m a m1 a1 /\ ind a1 <> 0 /\ (forall n, 0 <= n < MAXFILE -> fblk a1 (disk_of m1) n = fblk a (disk_of m) n) /\
    freeblock m1 = freeblock m + (if ind a =? 0 then 1 else 0) /\ freeinode m1 = freeinode m.
Proof.
  intros a Hs F Hfree. pose proof (disk_map_ok m Hs) as M. destruct (Z.eqb_spec (ind a) 0) as [E | E].
  - specialize (Hfree E). destruct (took_facts m Hs Hfree) as (Q1 & Q2 & Q3).
    assert (G : grows ∅ m a (took m) (<[NDIRECT := freeblock m]> a)).
    { rewrite took_allocated by done. by apply (fgrow_ind demo_log super first_data image_layout). }
    assert (Ei : ind (<[NDIRECT := freeblock m]> a) = freeblock m) by (apply list_lookup_total_insert_eq; rewrite (fo_len _ _ _ _ F); lia).
    exists (<[NDIRECT := freeblock m]> a), (took m). split_and!; try done; [by apply took_sane | congruence |].
    apply ind_blocks; try done; [by apply took_sane | congruence].
  - exists a, m. split_and!; try done; [unfold a; by rewrite with_addrs_id | lia].
Qed.

(** Block [k] of a file that has its indirect block. *)
Lemma entry_step m din k :
  let a := i_addrs din in let o := (4 * Z.to_nat (k - Z.of_nat NDIRECT))%nat in
  sane m -> fine m a -> ind a <> 0 -> Z.of_nat NDIRECT <= k < MAXFILE -> (fblk a (disk_of m) k = 0 -> freeblock m < FSSIZE) ->
  exists m1, (indirect ← rsect (ind a) ;
     indirect ← (if get32 indirect o =? 0 then b ← next_block ; wsect (ind a) (put32 indirect o b) ;; mret (put32 indirect o b) else mret indirect) ;
     mret (din, get32 indirect o)) m = Ok (din, fblk a (disk_of m1) k) m1 /\
    sane m1 /\ grows ∅ m a m1 a /\ fblk a (disk_of m1) k <> 0 /\
    (forall n, 0 <= n < MAXFILE -> n <> k -> fblk a (disk_of m1) n = fblk a (disk_of m) n) /\
    freeblock m1 = freeblock m + (if fblk a (disk_of m) k =? 0 then 1 else 0) /\ freeinode m1 = freeinode m.
Proof.
  intros a o Hs F Hi Hk Hfree. pose proof (disk_map_ok m Hs) as M. pose proof (fo_ind _ _ _ _ F Hi) as Hdi.
  destruct (file_sect m _ Hdi) as (Ei & Hri & Hib & Hi59).
  assert (Ek : forall m', fblk a (disk_of m') k = get32 (disk_of m' (ind a)) o).
  { intros m'. unfold fblk. by rewrite (proj2 (Z.ltb_ge _ _)), (proj2 (Z.eqb_neq _ _) Hi) by lia. }
  pose proof (entry_room k Hk) as Hroom. fold o in Hroom. erewrite bind_ok by (by apply rsect_ok). rewrite <- Ei, <- Ek.
  destruct (Z.eqb_spec (fblk a (disk_of m) k) 0) as [E | E].
  - specialize (Hfree E). destruct (took_facts m Hs Hfree) as (Q1 & Q2 & Q3). pose proof (took_sane m Hs Hfree) as Hs1.
    set (x := put32 (disk_of m (ind a)) o (freeblock m)). set (m1 := wrote_sect (took m) (ind a) x).
    assert (Hx : length x = 512%nat) by (unfold x; rewrite length_put32; apply Hdi).
    assert (Hiu : ind a < freeblock m).
    { destruct Hdi as (_ & Hu & _). change (sb_bmapstart super) with bmap_sect in Hu. unfold FSSIZE in *. rewrite disk_used in Hu by (done || lia).
      by apply Z.ltb_lt in Hu. }
    assert (Hs2 : sane m1) by (apply wrote_sane; [done | simpl; lia | done]).
    assert (HD : disk_of m1 = bupd (allocated super (disk_of m) (freeblock m)) (ind a) x).
    { unfold m1. rewrite wrote_disk by done. by rewrite took_allocated. }
    assert (G : grows ∅ m a m1 a).
    { rewrite HD. apply (fgrow_entry demo_log super first_data image_layout); done. }
    assert (Ex : get32 x o = freeblock m).
    { unfold x. rewrite get32_put32 by (destruct Hdi as (_ & _ & ->); done). apply u32_small. unfold FSSIZE in *. lia. }
    assert (Eb : fblk a (disk_of m1) k = freeblock m) by (by rewrite Ek, HD, bupd_same).
    exists m1. rewrite Eb. split_and!; try done.
    + erewrite bind_ok by (erewrite bind_ok by apply next_block_ok; erewrite bind_ok by (by apply wsect_ok); reflexivity).
      fold x. rewrite Ex. done.
    + intros n Hn Hne. apply (other_blocks m a m1 a k); try done; [| congruence]. unfold NDIRECT in Hk. lia.
  - exists m. split_and!; try done; [| lia]. erewrite bind_ok by reflexivity. by rewrite Ek.
Qed.

Lemma block_for_ok m din off :
  sane m -> fine m (i_addrs din) -> tight m (i_addrs din) off -> 0 <= off -> off / BSIZE < MAXFILE ->
  freeblock m + (need (off + 1) - need off) <= FSSIZE -> got_block m din off (block_for din (off / BSIZE) m).
Proof.
  intros Hs F T Ho Hk Hfree. destruct (decide (off / BSIZE < 12)) as [Hd | Hd]; [by apply block_for_direct |].
  set (a := i_addrs din) in *. set (k := off / BSIZE) in *. assert (HM : MAXFILE = 140) by done. pose proof T as [T1 T2].
  destruct (next_byte off Ho) as [B1 B2]. fold k in B1, B2.
  assert (P1 : ind a = 0 <-> blocks_of off <= 12).
  { split; intros Hc; [destruct (decide (12 < blocks_of off)) as [E | E]; [by apply T2 in E | lia] |].
    destruct (decide (ind a = 0)) as [E | E]; [done | apply T2 in E; lia]. }
  assert (P2 : fblk a (disk_of m) k = 0 <-> blocks_of off <= k).
  { split; intros Hc; [destruct (decide (k < blocks_of off)) as [E | E]; [by apply T1 in E; [| lia] | lia] |].
    destruct (decide (fblk a (disk_of m) k = 0)) as [E | E]; [done | apply T1 in E; lia]. }
  assert (Hn : need (off + 1) - need off = (if ind a =? 0 then 1 else 0) + (if fblk a (disk_of m) k =? 0 then 1 else 0)).
  { unfold need. rewrite B1, (proj2 (Z.ltb_lt 12 (k + 1))) by lia.
    destruct (Z.eqb_spec (ind a) 0), (Z.eqb_spec (fblk a (disk_of m) k) 0), (Z.ltb_spec 12 (blocks_of off)); lia. }
  rewrite Hn in Hfree. destruct (ind_step m din Hs F) as (a1 & m1 & E1 & Hs1 & G1 & Hi1 & Hb1 & Hf1 & Hn1).
  { fold a. intros E. rewrite E in Hfree. simpl in Hfree. destruct (_ =? 0); lia. }
  fold a in E1, G1, Hb1, Hf1. assert (Hk12 : Z.of_nat NDIRECT <= k < MAXFILE) by (unfold NDIRECT; lia).
  destruct (entry_step m1 (with_addrs a1 din) k Hs1) as (m2 & E2 & Hs2 & G2 & Hb2 & Ho2 & Hf2 & Hn2); cbn [i_addrs with_addrs] in *; try done.
  { apply G1. }
  { rewrite Hb1 by lia. intros E. rewrite E in Hfree. simpl in Hfree. destruct (_ =? 0); lia. }
  exists a1, m2. fold a k. split_and!; try done.
  - unfold block_for. rewrite (proj2 (Z.ltb_ge k _)) by lia. fold a. erewrite bind_ok by exact E1. exact E2.
  - rewrite <- (union_empty_l_L ∅). eapply (fgrow_trans demo_log super first_data image_layout); done.
  - split; rewrite B1; [| split; [lia | done]]. intros n Hr. destruct (decide (n = k)) as [-> | Hne]; [split; [lia | done] |].
    rewrite Ho2, Hb1, T1 by done. lia.
  - rewrite Hb1 in Hf2 by lia. lia.
  - congruence.
Qed.


Lemma blocks_of_mono a b : a <= b -> blocks_of a <= blocks_of b.
Proof. intros Hab. unfold blocks_of. apply Z.div_le_mono; lia. Qed.

Lemma need_mono a b : a <= b -> need a <= need b.
Proof.
  intros Hab. pose proof (blocks_of_mono a b Hab). unfold need. destruct (Z.ltb_spec 12 (blocks_of a)), (Z.ltb_spec 12 (blocks_of b)); lia.
Qed.

(** What the loop of [iappend] leaves: the bytes [p] at the end of the file of [off] bytes. *)
Record appended (m : image) (a : list Z) (off : Z) (p : list Z) (m' : image) (a' : list Z) : Prop := {
  ap_sane : sane m';
  ap_grow : exists W, grows W m a m' a' /\ in_file W (disk_of m') a';
  ap_wrote : wrote off p (disk_of m) a (disk_of m') a';
  ap_tight : tight m' a' (off + Z.of_nat (length p));
  ap_free : freeblock m' = freeblock m + (need (off + Z.of_nat (length p)) - need off);
  ap_inode : freeinode m' = freeinode m
}.

Lemma appended_nil m a off : sane m -> fine m a -> tight m a off -> appended m a off [] m a.
Proof.
  intros Hs F T. split; rewrite ?Z.add_0_r; try done; [| | simpl; lia].
  - exists ∅. split; [| by intros ? ?%not_elem_of_empty]. apply fgrow_refl; [by apply disk_map_ok | done].
  - split; simpl; [| lia]. intros o _. by rewrite decide_False by lia.
Qed.

Lemma appended_app m a off p m1 a1 q m2 a2 :
  fine m a -> 0 <= off -> off + Z.of_nat (length p) <= MAXFILE * BSIZE ->
  appended m a off p m1 a1 -> appended m1 a1 (off + Z.of_nat (length p)) q m2 a2 -> appended m a off (p ++ q) m2 a2.
Proof.
  intros F Ho He [A1 (W1 & G1 & I1) A3 A4 A5 A6] [B1 (W2 & G2 & I2) B3 B4 B5 B6]. split; rewrite ?length_app, ?Nat2Z.inj_add, ?Z.add_assoc; try done; [| | lia | lia].
  - exists (W1 ∪ W2). split; [by apply (fgrow_trans demo_log super first_data image_layout) with (D1 := disk_of m1) (a1 := a1) |].
    intros c [Hc | Hc]%elem_of_union; [exact (in_file_grow _ _ _ _ _ _ _ _ I1 G2 c Hc) | by apply I2].
  - eapply wrote_app; [done | done | exact A3 | exact G2 | exact B3].
Qed.

(** One pass of the loop. *)
Lemma append_block m din off chunk :
  let a := i_addrs din in let n := Z.of_nat (length chunk) in
  sane m -> fine m a -> tight m a off -> 0 <= off -> off + n <= MAXFILE * BSIZE -> 0 < n <= BSIZE - off mod BSIZE ->
  freeblock m + (need (off + n) - need off) <= FSSIZE ->
  exists a' m', appended m a off chunk m' a' /\
    forall B (k : inode -> MK B), ('(din, x) ← block_for din (off / BSIZE) ; buf ← rsect x ;
      wsect x (splice buf (Z.to_nat (off mod BSIZE)) chunk) ;; k din) m = k (with_addrs a' din) m'.
Proof.
  intros a n Hs F T Ho He Hn Hfree.
  assert (Hb : blocks_of (off + n) = blocks_of (off + 1)).
  { unfold blocks_of, BSIZE in *. Z.to_euclidean_division_equations; lia. }
  assert (Hneed : need (off + n) = need (off + 1)) by (unfold need; by rewrite Hb). rewrite Hneed in Hfree.
  assert (Hidx : 0 <= off / BSIZE < MAXFILE) by (apply block_index; lia).
  destruct (block_for_ok m din off Hs F T Ho (proj2 Hidx) Hfree) as (a1 & m1 & E1 & Hs1 & G1 & Hb1 & T1 & Hf1 & Hi1).
  fold a in G1. pose proof (fg_file _ _ _ _ _ _ _ G1) as F1. set (b := fblk a1 (disk_of m1) (off / BSIZE)) in *.
  pose proof (fo_blk _ _ _ _ F1 _ Hidx Hb1) as Hd. fold b in Hd. destruct (file_sect m1 b Hd) as (Eb & Hbr & Hbm & _).
  set (x := splice (sect m1 b) (Z.to_nat (off mod BSIZE)) chunk).
  assert (Hmod : 0 <= off mod BSIZE < BSIZE) by (apply Z.mod_pos_bound; unfold BSIZE; lia).
  assert (Hx : length x = 512%nat).
  { pose proof (sn_len _ Hs1 b Hbr) as Hl. unfold x. rewrite length_splice, Hl; [done |]. unfold BSIZE in *. lia. }
  assert (Hbu : b < freeblock m1).
  { destruct Hd as (_ & Hu & _). change (sb_bmapstart super) with bmap_sect in Hu. unfold FSSIZE in *. rewrite disk_used in Hu by (done || lia).
    by apply Z.ltb_lt in Hu. }
  set (m2 := wrote_sect m1 b x). assert (HD : disk_of m2 = bupd (disk_of m1) b x) by (by apply wrote_disk).
  assert (G2 : grows {[b]} m1 a1 m2 a1).
  { rewrite HD. apply (fgrow_write demo_log super first_data image_layout); try done. by apply disk_map_ok. }
  assert (Hs2 : sane m2) by (apply wrote_sane; [done | lia | done]).
  assert (Hfb : forall k, fblk a1 (disk_of m2) k = fblk a1 (disk_of m1) k).
  { intros k. rewrite HD. apply write_fblk. by apply F1. }
  exists a1, m2. split.
  - split; fold n; try done.
    + exists (∅ ∪ {[b]}). split; [by eapply (fgrow_trans demo_log super first_data image_layout) |].
      intros c Hc. assert (c = b) as -> by set_solver. exists (off / BSIZE). rewrite Hfb. done.
    + eapply (wrote_grow demo_log super first_data image_layout); [exact F | exact G1 |]. rewrite HD. unfold x. rewrite <- Eb. by apply (wrote_block super first_data).
    + destruct (tight_blocks m1 a1 (off + 1) (off + n) (eq_sym Hb) T1) as [Q1 Q2]. split; [| done]. intros k Hk. by rewrite Hfb, Q1.
    + rewrite Hneed. exact Hf1.
  - intros B k. erewrite bind_ok by exact E1. cbv beta iota. erewrite bind_ok by (by apply rsect_ok). by erewrite bind_ok by (by apply wsect_ok).
Qed.

Lemma iappend_loop_ok : forall fuel m din off p,
  let a := i_addrs din in let n := Z.of_nat (length p) in
  sane m -> fine m a -> tight m a off -> 0 <= off -> off + n <= MAXFILE * BSIZE -> (length p < fuel)%nat ->
  freeblock m + (need (off + n) - need off) <= FSSIZE ->
  exists a' m', iappend_loop fuel din off p m = Ok (with_addrs a' din, off + n) m' /\ appended m a off p m' a'.
Proof.
  induction fuel as [|f IH]; intros m din off p a n Hs F T Ho He Hf Hfree; [lia |].
  destruct p as [|c p']; cbn [iappend_loop].
  { exists a, m. split; [| by apply appended_nil]. unfold a, n. by rewrite with_addrs_id, Z.add_0_r. }
  set (p := c :: p') in *. assert (Hn0 : 0 < n) by (unfold n, p; simpl; lia). assert (En : n = Z.of_nat (length p)) by done. cbv zeta.
  assert (Hidx : 0 <= off / BSIZE < MAXFILE) by (apply block_index; lia). rewrite (proj2 (Z.ltb_lt _ _)) by lia. cbn [negb].
  assert (Em : (off / BSIZE + 1) * BSIZE - off = BSIZE - off mod BSIZE /\ off - off / BSIZE * BSIZE = off mod BSIZE).
  { unfold BSIZE. Z.to_euclidean_division_equations; lia. }
  destruct Em as [-> ->]. fold n. assert (Hmod : 0 <= off mod BSIZE < BSIZE) by (apply Z.mod_pos_bound; unfold BSIZE; lia).
  set (n1 := Z.min n (BSIZE - off mod BSIZE)). set (chunk := take (Z.to_nat n1) p).
  assert (Hc : Z.of_nat (length chunk) = n1) by (unfold chunk; rewrite length_take; lia).
  assert (Hr : Z.of_nat (length (drop (Z.to_nat n1) p)) = n - n1) by (rewrite length_drop; lia).
  pose proof (need_mono (off + n1) (off + n) ltac:(lia)) as Hm1.
  destruct (append_block m din off chunk) as (a1 & m1 & A1 & E1); fold a; rewrite ?Hc; try done; try lia.
  fold a in A1. rewrite E1. pose proof (ap_free _ _ _ _ _ _ A1) as Hf1. rewrite Hc in Hf1. pose proof (ap_tight _ _ _ _ _ _ A1) as T1. rewrite Hc in T1.
  destruct (IH m1 (with_addrs a1 din) (off + n1) (drop (Z.to_nat n1) p)) as (a2 & m2 & E2 & A2); cbn [i_addrs with_addrs]; rewrite ?Hr;
    [apply A1 | destruct (ap_grow _ _ _ _ _ _ A1) as (W & G & _); apply G | done | lia | lia | rewrite length_drop; lia | |].
  { replace (off + n1 + (n - n1)) with (off + n) by lia. lia. }
  rewrite Hr in E2. exists a2, m2. split; [rewrite E2; by replace (off + n1 + (n - n1)) with (off + n) by lia |].
  rewrite <- (take_drop (Z.to_nat n1) p). fold chunk. eapply appended_app; [done | done | lia | exact A1 | by rewrite Hc].
Qed.


(** ** Inodes of the image *)

Definition dinode_at (m : image) (inum : Z) : inode := get_dinode (sect m (IBLOCK inum super)) (din_of inum).
Definition owned (m : image) (inum : Z) : list Z := Trunc.file_blocks (disk_of m) (i_addrs (dinode_at m inum)).

(** Inode [inum] is a file of type [ty] with the bytes [c]. *)
Record holds (m : image) (inum ty : Z) (c : list Z) : Prop := {
  hd_type : i_type (dinode_at m inum) = ty;
  hd_dev : i_major (dinode_at m inum) = 0 /\ i_minor (dinode_at m inum) = 0;
  hd_link : i_nlink (dinode_at m inum) = 1;
  hd_size : i_size (dinode_at m inum) = Z.of_nat (length c);
  hd_max : Z.of_nat (length c) <= MAXFILE * BSIZE;
  hd_fine : fine m (i_addrs (dinode_at m inum));
  hd_tight : tight m (i_addrs (dinode_at m inum)) (Z.of_nat (length c));
  hd_byte : forall o, 0 <= o < MAXFILE * BSIZE -> fbyte (i_addrs (dinode_at m inum)) (disk_of m) o =
    if decide (o < Z.of_nat (length c)) then c !!! Z.to_nat o else 0
}.

Lemma iblock_range i : 0 <= i < 200 -> 32 <= IBLOCK i super < 58.
Proof.
  intros Hi. unfold IBLOCK. change (sb_inodestart super) with 32. change IPB with 8. Z.to_euclidean_division_equations; lia.
Qed.

Lemma iblock_inj i j : IBLOCK i super = IBLOCK j super -> i mod IPB = j mod IPB -> i = j.
Proof. unfold IBLOCK. change IPB with 8. intros E1 E2. Z.to_euclidean_division_equations; lia. Qed.

(** The image after the inode [y] was stored. *)
Definition stored (m : image) (y : inode) : image :=
  let ib := IBLOCK (i_inum y) super in wrote_sect m ib (put_dinode (sect m ib) y).

Lemma winode_ok m y : sane m -> 0 <= i_inum y < 200 -> winode y m = Ok tt (stored m y).
Proof.
  intros Hs Hi. pose proof (iblock_range _ Hi). unfold winode. erewrite bind_ok by reflexivity. cbn [id]. rewrite (sn_sb _ Hs).
  assert (Hr : 0 <= IBLOCK (i_inum y) super < FSSIZE) by (unfold FSSIZE; lia). cbv zeta.
  erewrite bind_ok by (by apply rsect_ok). by apply wsect_ok.
Qed.

Lemma rinode_ok m i : sane m -> 0 <= i < 200 -> rinode i m = Ok (dinode_at m i) m.
Proof.
  intros Hs Hi. pose proof (iblock_range _ Hi). unfold rinode. erewrite bind_ok by reflexivity. cbn [id]. rewrite (sn_sb _ Hs).
  assert (Hr : 0 <= IBLOCK i super < FSSIZE) by (unfold FSSIZE; lia). by erewrite bind_ok by (by apply rsect_ok).
Qed.

Section store.
Variable m : image.
Variable y : inode.
Context (Hs : sane m) (Hy : inode_ok y) (Hi : 0 <= i_inum y < 200).
Notation ib := (IBLOCK (i_inum y) super).

Lemma stored_len : length (sect m ib) = 512%nat.
Proof using Hs Hy Hi. pose proof (iblock_range _ Hi). apply Hs. unfold FSSIZE. lia. Qed.

Lemma stored_sane : sane (stored m y).
Proof using Hs Hy Hi.
  pose proof (iblock_range _ Hi). pose proof (sn_free _ Hs). unfold first_data in *. apply wrote_sane; [done | lia |].
  apply (put_dinode_fields _ _ stored_len Hy).
Qed.

Lemma stored_disk : disk_of (stored m y) = bupd (disk_of m) ib (put_dinode (sect m ib) y).
Proof using Hs Hy Hi. pose proof (iblock_range _ Hi). apply wrote_disk. unfold bmap_sect. lia. Qed.

Lemma stored_this : dinode_at (stored m y) (i_inum y) = with_fields (din_of (i_inum y)) y.
Proof using Hs Hy Hi.
  unfold dinode_at, stored. cbn [sect wrote_sect]. rewrite bupd_same. rewrite dinode_roundtrip; [| exact stored_len | done | simpl; lia].
  by rewrite decide_True.
Qed.

Lemma stored_other j : 0 <= j -> j <> i_inum y -> dinode_at (stored m y) j = dinode_at m j.
Proof using Hs Hy Hi.
  intros Hj Hne. unfold dinode_at, stored. cbn [sect wrote_sect]. unfold bupd. case_decide as E; [| done].
  rewrite dinode_roundtrip; [| exact stored_len | done | simpl; lia]. cbn [i_inum din_of]. rewrite decide_False, E; [done |].
  intros Em. apply Hne. by apply iblock_inj.
Qed.

Lemma stored_type j : 0 <= j -> j <> i_inum y ->
  get16 (sect (stored m y) (IBLOCK j super)) (din_off j) = get16 (sect m (IBLOCK j super)) (din_off j).
Proof using Hs Hy Hi.
  intros Hj Hne. unfold stored. cbn [sect wrote_sect]. unfold bupd. case_decide as E; [| done]. rewrite E.
  destruct (put_dinode_fields _ _ stored_len Hy) as (_ & _ & _ & _ & _ & _ & _ & Q & _). apply Q.
  assert (Hm : j mod IPB <> i_inum y mod IPB) by (intros Em; apply Hne; by apply iblock_inj).
  pose proof (din_off_ne j (i_inum y) Hj (proj1 Hi) Hm). lia.
Qed.

(** Files keep their blocks and bytes when an inode is stored. *)
Lemma stored_file a : fine m a ->
  fine (stored m y) a /\ (forall n, fblk a (disk_of (stored m y)) n = fblk a (disk_of m) n) /\
  (forall o, 0 <= o < MAXFILE * BSIZE -> fbyte a (disk_of (stored m y)) o = fbyte a (disk_of m) o) /\
  Trunc.file_blocks (disk_of (stored m y)) a = Trunc.file_blocks (disk_of m) a.
Proof using Hs Hy Hi.
  intros F. pose proof (iblock_range _ Hi) as Hib. rewrite stored_disk.
  destruct (meta_write super first_data (disk_of m) a ib (put_dinode (sect m ib) y) (disk_map_ok m Hs) F) as (_ & F' & Hf & Hb).
  { unfold first_data. lia. }
  { change (sb_bmapstart super) with 58. lia. }
  split_and!; try done. unfold Trunc.file_blocks. destruct (Z.eqb_spec (a !!! NDIRECT) 0) as [E | E]; [done |].
  rewrite bupd_other; [done |]. pose proof (file_sect m _ (fo_ind _ _ _ _ F E)) as (_ & _ & _ & ?). lia.
Qed.

Lemma stored_tight a sz : fine m a -> tight m a sz -> tight (stored m y) a sz.
Proof using Hs Hy Hi. intros F [T1 T2]. destruct (stored_file a F) as (_ & Hf & _). split; [| done]. intros n Hn. by rewrite Hf, T1. Qed.

Lemma stored_holds j ty c : 0 <= j -> j <> i_inum y -> holds m j ty c -> holds (stored m y) j ty c.
Proof using Hs Hy Hi.
  intros Hj Hne [H1 H2 H3 H4 H5 H6 H7 H8]. destruct (stored_file _ H6) as (F & _ & Hb & _).
  split; rewrite ?stored_other by done; try done; [by apply stored_tight |]. intros o Ho. rewrite Hb by lia. by apply H8.
Qed.

Lemma stored_owned j : 0 <= j -> j <> i_inum y -> fine m (i_addrs (dinode_at m j)) -> owned (stored m y) j = owned m j.
Proof using Hs Hy Hi. intros Hj Hne F. unfold owned. rewrite stored_other by done. by apply stored_file. Qed.
End store.

(** The addresses of a file are words. *)
Lemma fine_words m a b : fine m a -> b ∈ a -> 0 <= b < 2 ^ 32.
Proof.
  intros F (k & Hk)%list_elem_of_lookup. pose proof (fo_len _ _ _ _ F) as Hl. pose proof (lookup_lt_Some _ _ _ Hk) as Hlt.
  destruct (decide (b = 0)) as [-> | Hb]; [lia |].
  assert (Hd : data_block super first_data (disk_of m) b).
  { destruct (decide (k = NDIRECT)) as [-> | Hne].
    - rewrite <- (list_lookup_total_correct _ _ _ Hk) in *. by apply F.
    - assert (Ef : fblk a (disk_of m) (Z.of_nat k) = b).
      { unfold fblk. rewrite (proj2 (Z.ltb_lt _ _)) by lia. rewrite Nat2Z.id. by apply list_lookup_total_correct. }
      rewrite <- Ef in *. apply F; [| done]. assert (MAXFILE = 140) by done. unfold NDIRECT in *. lia. }
  destruct (file_sect m b Hd) as (_ & Hr & _). unfold FSSIZE in Hr. lia.
Qed.


(** ** The files of the image *)

Notation contents := (list (Z * list Z)).

Definition blocks_needed (F : contents) : Z := foldr Z.add 0 ((fun e : Z * list Z => need (Z.of_nat (length e.2))) <$> F).

(** The image holds the files [F], types and bytes, in inodes 1, 2, ... *)
Record inv (m : image) (F : contents) : Prop := {
  iv_sane : sane m;
  iv_next : freeinode m = 1 + Z.of_nat (length F);
  iv_room : Z.of_nat (length F) <= 199;
  iv_files : forall k ty c, F !! k = Some (ty, c) -> holds m (Z.of_nat k + 1) ty c;
  iv_apart : forall j k b, (j < length F)%nat -> (k < length F)%nat -> j <> k ->
    b ∈ owned m (Z.of_nat j + 1) -> b ∉ owned m (Z.of_nat k + 1);
  iv_super : sect m 1 = super_bytes super;
  iv_log : forall b, 2 <= b < 32 -> sect m b = zero_block;
  iv_unused : forall i, freeinode m <= i < 200 -> get16 (sect m (IBLOCK i super)) (din_off i) = 0;
  iv_count : freeblock m = first_data + blocks_needed F
}.

Lemma blocks_needed_set F k ty c c' :
  F !! k = Some (ty, c) ->
  blocks_needed (<[k := (ty, c')]> F) = blocks_needed F + (need (Z.of_nat (length c')) - need (Z.of_nat (length c))).
Proof.
  revert k. induction F as [|e F IH]; intros [|k] Hk; simpl in Hk; try done.
  - injection Hk as ->. change (need (Z.of_nat (length c')) + blocks_needed F = need (Z.of_nat (length c)) + blocks_needed F
      + (need (Z.of_nat (length c')) - need (Z.of_nat (length c)))). lia.
  - specialize (IH k Hk). change (need (Z.of_nat (length e.2)) + blocks_needed (<[k := (ty, c')]> F) =
      need (Z.of_nat (length e.2)) + blocks_needed F + (need (Z.of_nat (length c')) - need (Z.of_nat (length c)))). lia.
Qed.

Lemma blocks_needed_app F e : blocks_needed (F ++ [e]) = blocks_needed F + need (Z.of_nat (length e.2)).
Proof.
  induction F as [|e' F IH]; [change (need (Z.of_nat (length e.2)) + 0 = 0 + need (Z.of_nat (length e.2))); lia |].
  change (need (Z.of_nat (length e'.2)) + blocks_needed (F ++ [e]) =
    need (Z.of_nat (length e'.2)) + blocks_needed F + need (Z.of_nat (length e.2))). lia.
Qed.

Lemma owned_used m F k b : inv m F -> (k < length F)%nat -> b ∈ owned m (Z.of_nat k + 1) ->
  data_block super first_data (disk_of m) b.
Proof.
  intros I Hk Hb. destruct (lookup_lt_is_Some_2 F k Hk) as [[ty c] Hc]. pose proof (hd_fine _ _ _ _ (iv_files _ _ I _ _ _ Hc)) as Hf.
  pose proof (Trunc.file_blocks_data super first_data _ _ Hf) as Hd. rewrite list.Forall_forall in Hd. by apply Hd.
Qed.

(** Appending leaves everything in use outside the file as it was. *)
Lemma appended_kept m a off p m' a' c :
  sane m -> fine m a -> appended m a off p m' a' -> 0 < c < FSSIZE -> bit_used (disk_of m bmap_sect) c = true -> c <> bmap_sect ->
  c ∉ Trunc.file_blocks (disk_of m) a -> disk_of m' c = disk_of m c /\ bit_used (disk_of m' bmap_sect) c = true.
Proof.
  intros Hs F A Hc Hu Hcb Ho. destruct (ap_grow _ _ _ _ _ _ A) as (W & G & I). rewrite (Trunc.file_blocks_numbers super first_data) in Ho by done.
  assert (H1 : 0 <= c < sb_size super) by (change (sb_size super) with FSSIZE; lia). split; [| by apply (fg_used _ _ _ _ _ _ _ G)].
  assert (Hc0 : c <> 0) by lia. apply (fg_other _ _ _ _ _ _ _ G); try done.
  - intros E. apply Ho. split; [done | by left].
  - intros Hw. destruct (I c Hw) as (n & Hn & _ & E). destruct (decide (fblk a (disk_of m) n = 0)) as [N0 | N0].
    + rewrite <- E in Hc0. pose proof (fg_free _ _ _ _ _ _ _ G n Hn N0 Hc0) as Hfree. rewrite E in Hfree.
      change (sb_bmapstart super) with bmap_sect in Hfree. congruence.
    + rewrite (fg_blk _ _ _ _ _ _ _ G n Hn N0) in E. apply Ho. split; [done |]. right. by exists n.
Qed.

(** The blocks in front of the data are kept. *)
Lemma appended_meta m a off p m' a' c :
  sane m -> fine m a -> appended m a off p m' a' -> 0 < c < bmap_sect -> sect m' c = sect m c.
Proof.
  intros Hs F A Hc. pose proof (sn_free _ Hs) as Hf. unfold bmap_sect, first_data in *.
  rewrite <- !disk_sect by (unfold bmap_sect; lia). apply (appended_kept m a off p m' a'); try done; unfold FSSIZE; try lia.
  - rewrite disk_used by (done || lia). apply Z.ltb_lt. lia.
  - unfold bmap_sect. lia.
  - intros Hin. pose proof (Trunc.file_blocks_data super first_data _ _ F) as Hd. rewrite list.Forall_forall in Hd.
    destruct (file_sect m c (Hd c Hin)) as (_ & _ & _ & ?). lia.
Qed.

(** What the file has after appending: its own blocks and blocks that were free. *)
Lemma appended_blocks m a off p m' a' b :
  fine m a -> appended m a off p m' a' -> b ∈ Trunc.file_blocks (disk_of m') a' ->
  b ∈ Trunc.file_blocks (disk_of m) a \/ bit_used (disk_of m bmap_sect) b = false.
Proof.
  intros F A. destruct (ap_grow _ _ _ _ _ _ A) as (W & G & I). pose proof (fg_file _ _ _ _ _ _ _ G) as F'.
  rewrite !(Trunc.file_blocks_numbers super first_data) by done. intros [Hb [-> | (n & Hn & ->)]].
  - destruct (decide (ind a = 0)) as [E | E]; [right; by apply (fg_ind0 _ _ _ _ _ _ _ G) |]. left.
    rewrite (fg_ind _ _ _ _ _ _ _ G E). split; [done | by left].
  - destruct (decide (fblk a (disk_of m) n = 0)) as [E | E]; [right; by apply (fg_free _ _ _ _ _ _ _ G) |]. left.
    rewrite (fg_blk _ _ _ _ _ _ _ G n Hn E). split; [done |]. right. by exists n.
Qed.


(** A file whose blocks did not change is the same file. *)
Lemma same_file m m' a :
  fine m a -> (forall b, b ∈ Trunc.file_blocks (disk_of m) a -> disk_of m' b = disk_of m b /\ bit_used (disk_of m' bmap_sect) b = true) ->
  fine m' a /\ (forall n, 0 <= n < MAXFILE -> fblk a (disk_of m') n = fblk a (disk_of m) n) /\
  (forall o, 0 <= o < MAXFILE * BSIZE -> fbyte a (disk_of m') o = fbyte a (disk_of m) o) /\
  Trunc.file_blocks (disk_of m') a = Trunc.file_blocks (disk_of m) a.
Proof.
  intros F Hb. assert (Hown : forall b, b <> 0 -> (b = ind a \/ exists n, 0 <= n < MAXFILE /\ b = fblk a (disk_of m) n) ->
    disk_of m' b = disk_of m b /\ bit_used (disk_of m' bmap_sect) b = true).
  { intros b H0 H1. apply Hb. by apply (Trunc.file_blocks_numbers super first_data). }
  assert (Hi : ind a <> 0 -> disk_of m' (ind a) = disk_of m (ind a)) by (intros E; apply Hown; [done | by left]).
  assert (Hf : forall n, 0 <= n < MAXFILE -> fblk a (disk_of m') n = fblk a (disk_of m) n).
  { intros n Hn. unfold fblk. destruct (n <? _); [done |]. destruct (Z.eqb_spec (ind a) 0) as [E | E]; [done | by rewrite Hi]. }
  assert (Hd : forall b, b <> 0 -> (b = ind a \/ exists n, 0 <= n < MAXFILE /\ b = fblk a (disk_of m) n) ->
    data_block super first_data (disk_of m) b -> data_block super first_data (disk_of m') b).
  { intros b H0 H1 (Q1 & Q2 & Q3). destruct (Hown b H0 H1) as [E1 E2]. split_and!; [lia | lia | exact E2 | by rewrite E1]. }
  split_and!; [| done | |].
  - split; try apply F.
    + intros n Hn. rewrite Hf by done. intros H0. apply Hd; [done | right; by exists n | by apply F].
    + intros H0. apply Hd; [done | by left | by apply F].
    + intros n k Hn Hk. rewrite !Hf by done. by apply F.
    + intros n Hn. rewrite Hf by done. by apply F.
  - intros o Ho. pose proof (block_index o Ho) as Hn. unfold fbyte. rewrite Hf by done.
    destruct (Z.eqb_spec (fblk a (disk_of m) (o / BSIZE)) 0) as [E | E]; [done |].
    rewrite (proj1 (Hown _ E ltac:(right; by exists (o / BSIZE)))). done.
  - unfold Trunc.file_blocks. destruct (Z.eqb_spec (ind a) 0) as [E | E]; [done | by rewrite Hi].
Qed.

(** Appending [p] to the file in inode [i]: the addresses change, then the inode is stored. *)
Section append.
Variables (m m1 : image) (F : contents) (k : nat) (ty : Z) (c p a' : list Z).
Notation i := (Z.of_nat k + 1).
Notation x := (dinode_at m i).
Notation y := (set_size (Z.of_nat (length c) + Z.of_nat (length p)) (with_addrs a' x)).
Context (I : inv m F) (Hk : F !! k = Some (ty, c)) (Hty : 0 <= ty < 2 ^ 15) (A : appended m (i_addrs x) (Z.of_nat (length c)) p m1 a').
Context (Hmax : Z.of_nat (length c) + Z.of_nat (length p) <= MAXFILE * BSIZE).

Lemma append_holds : holds m i ty c.
Proof. by apply I. Qed.

Lemma append_num : (k < length F)%nat /\ 0 <= i < 200.
Proof. pose proof (lookup_lt_Some _ _ _ Hk). pose proof (iv_room _ _ I). lia. Qed.

Lemma append_fine : fine m1 a'.
Proof. destruct (ap_grow _ _ _ _ _ _ A) as (W & G & _). apply G. Qed.

Lemma append_inode_ok : inode_ok y.
Proof.
  destruct append_holds as [H1 [H2 H3] H4 H5 H6 H7 H8 H9]. pose proof append_num. pose proof append_fine as Ff.
  pose proof max_bytes. split; cbn [i_inum i_type i_major i_minor i_nlink i_size i_addrs set_size with_addrs].
  - change (i_inum x) with i. lia.
  - rewrite H1, H2, H3, H4. intros v Hv. rewrite !elem_of_cons, elem_of_nil in Hv. lia.
  - lia.
  - split; [apply Ff | intros b; by apply (fine_words m1)].
Qed.

Lemma append_inode_at j : 0 < j < 200 -> dinode_at m1 j = dinode_at m j.
Proof.
  intros Hj. unfold dinode_at. pose proof (iblock_range j ltac:(lia)). f_equal.
  apply (appended_meta m (i_addrs x) (Z.of_nat (length c)) p m1 a'); [apply I | apply append_holds | done | unfold bmap_sect; lia].
Qed.

(** Another file is kept by the growth. *)
Lemma append_other j : (j < length F)%nat -> j <> k ->
  forall b, b ∈ owned m (Z.of_nat j + 1) -> disk_of m1 b = disk_of m b /\ bit_used (disk_of m1 bmap_sect) b = true.
Proof.
  intros Hj Hne b Hb. destruct append_num as [Hk' _]. pose proof (owned_used m F j b I Hj Hb) as Hd.
  destruct (file_sect m b Hd) as (_ & Hr & Hbm & Hb59).
  apply (appended_kept m (i_addrs x) (Z.of_nat (length c)) p m1 a'); [apply I | apply append_holds | done | lia | apply Hd | done |].
  apply (iv_apart _ _ I j k b Hj Hk' Hne Hb).
Qed.

Lemma append_other_holds j ty' c' : F !! j = Some (ty', c') -> j <> k ->
  holds m1 (Z.of_nat j + 1) ty' c' /\ owned m1 (Z.of_nat j + 1) = owned m (Z.of_nat j + 1).
Proof.
  intros Hj Hne. pose proof (lookup_lt_Some _ _ _ Hj) as Hlt. pose proof (iv_room _ _ I) as Hroom.
  destruct (iv_files _ _ I _ _ _ Hj) as [H1 H2 H3 H4 H5 H6 H7 H8].
  assert (E : dinode_at m1 (Z.of_nat j + 1) = dinode_at m (Z.of_nat j + 1)) by (apply append_inode_at; lia).
  destruct (same_file m m1 _ H6 (append_other j Hlt Hne)) as (Ff & Hf & Hb & Ho). split; [| unfold owned; by rewrite E].
  split; rewrite ?E; try done.
  - destruct H7 as [T1 T2]. split; [| done]. intros n Hn. by rewrite Hf, T1.
  - intros o Ho'. rewrite Hb by lia. by apply H8.
Qed.

Lemma append_inv : inv (stored m1 y) (<[k := (ty, c ++ p)]> F).
Proof.
  destruct append_num as [Hk' Hi]. pose proof append_inode_ok as Hy. pose proof (ap_sane _ _ _ _ _ _ A) as Hs1. pose proof append_fine as Ff.
  assert (Hiy : 0 <= i_inum y < 200) by exact Hi. pose proof (iv_room _ _ I) as Hroom.
  destruct (stored_file m1 y Hs1 Hy Hiy a' Ff) as (Sf & _ & Sb & So).
  assert (Ei : dinode_at (stored m1 y) i = with_fields (din_of i) y) by (apply (stored_this m1 y Hs1 Hy Hiy)).
  assert (Hoth : forall j, (j < length F)%nat -> j <> k -> owned (stored m1 y) (Z.of_nat j + 1) = owned m (Z.of_nat j + 1)).
  { intros j Hj Hne. destruct (lookup_lt_is_Some_2 F j Hj) as [[ty' c'] Hc]. destruct (append_other_holds j ty' c' Hc Hne) as [Hh Ho].
    rewrite <- Ho. apply (stored_owned m1 y Hs1 Hy Hiy); [lia | simpl; lia | apply Hh]. }
  assert (Hown : forall b j, (j < length F)%nat -> j <> k -> b ∈ owned (stored m1 y) i -> b ∉ owned m (Z.of_nat j + 1)).
  { intros b j Hj Hne Hb Hb'. unfold owned in Hb. rewrite Ei in Hb. cbn [i_addrs with_fields set_size with_addrs] in Hb. rewrite So in Hb.
    apply (appended_blocks m (i_addrs x) (Z.of_nat (length c)) p m1 a' b) in Hb as [Hb | Hb]; [| | apply append_holds | done].
    - by apply (iv_apart _ _ I k j b Hk' Hj).
    - destruct (owned_used m F j b I Hj Hb') as (_ & Hu & _). change (sb_bmapstart super) with bmap_sect in Hu. congruence. }
  split; rewrite ?length_insert.
  - by apply stored_sane.
  - simpl. rewrite (ap_inode _ _ _ _ _ _ A). apply I.
  - done.
  - intros j ty' c' [(Ej & E & _) | [Hne Hj]]%list_lookup_insert_Some; [injection E as <- <-; rewrite <- Ej |].
    + split; rewrite ?Ei, ?length_app, ?Nat2Z.inj_add; cbn [i_type i_major i_minor i_nlink i_size i_addrs with_fields set_size with_addrs];
        [apply append_holds | apply append_holds | apply append_holds | done | done | done | |].
      * apply (stored_tight m1 y Hs1 Hy Hiy); [done | apply A].
      * intros o Ho. rewrite Sb by lia. rewrite (wr_byte _ _ _ _ _ _ (ap_wrote _ _ _ _ _ _ A)) by lia. case_decide.
        -- rewrite decide_True, lookup_total_app_r by lia. f_equal. lia.
        -- rewrite (hd_byte _ _ _ _ append_holds) by done. case_decide.
           ++ by rewrite decide_True, lookup_total_app_l by lia.
           ++ by rewrite decide_False by lia.
    + destruct (append_other_holds j ty' c' Hj ltac:(congruence)) as [Hh _].
      apply stored_holds; try done; [lia | simpl; lia].
  - intros j l b Hj Hl Hne. destruct (decide (j = k)) as [-> | Nj]; [| destruct (decide (l = k)) as [-> | Nl]].
    + intros Hb. rewrite (Hoth l) by done. by apply (Hown b l).
    + rewrite (Hoth j) by done. intros Hb Hb'. by apply (Hown b j Hj Nj).
    + rewrite (Hoth j), (Hoth l) by done. by apply I.
  - simpl. rewrite bupd_other by (pose proof (iblock_range _ Hiy); simpl in *; lia). rewrite <- (iv_super _ _ I).
    apply (appended_meta m (i_addrs x) (Z.of_nat (length c)) p m1 a'); [apply I | apply append_holds | done | unfold bmap_sect; lia].
  - intros b Hb. simpl. rewrite bupd_other by (pose proof (iblock_range _ Hiy); simpl in *; lia). rewrite <- (iv_log _ _ I b Hb).
    apply (appended_meta m (i_addrs x) (Z.of_nat (length c)) p m1 a'); [apply I | apply append_holds | done | unfold bmap_sect; lia].
  - intros j. simpl freeinode. rewrite (ap_inode _ _ _ _ _ _ A). intros Hj. rewrite (iv_next _ _ I) in Hj.
    rewrite (stored_type m1 y Hs1 Hy Hiy) by (simpl; lia). rewrite <- (iv_unused _ _ I j) by (rewrite (iv_next _ _ I); lia). f_equal.
    pose proof (iblock_range j ltac:(lia)).
    apply (appended_meta m (i_addrs x) (Z.of_nat (length c)) p m1 a'); [apply I | apply append_holds | done | unfold bmap_sect; lia].
  - simpl. rewrite (ap_free _ _ _ _ _ _ A), (iv_count _ _ I), (blocks_needed_set F k ty c) by done. rewrite length_app, Nat2Z.inj_add. lia.
Qed.
End append.


Lemma iappend_ok m F k ty c p :
  let F' := <[k := (ty, c ++ p)]> F in
  inv m F -> F !! k = Some (ty, c) -> 0 <= ty < 2 ^ 15 -> Z.of_nat (length (c ++ p)) <= MAXFILE * BSIZE ->
  first_data + blocks_needed F' <= FSSIZE ->
  exists m', iappend (Z.of_nat k + 1) p m = Ok tt m' /\ inv m' F'.
Proof.
  intros F' I Hk Hty Hmax Hfree. pose proof (lookup_lt_Some _ _ _ Hk) as Hlt. pose proof (iv_room _ _ I) as Hroom.
  pose proof (iv_files _ _ I _ _ _ Hk) as Hh. pose proof (iv_sane _ _ I) as Hs. rewrite length_app, Nat2Z.inj_add in Hmax.
  unfold F' in Hfree. rewrite (blocks_needed_set F k ty c), length_app, Nat2Z.inj_add in Hfree by done.
  unfold iappend. erewrite bind_ok by (apply rinode_ok; [done | lia]). rewrite (hd_size _ _ _ _ Hh).
  destruct (iappend_loop_ok (S (length p)) m (dinode_at m (Z.of_nat k + 1)) (Z.of_nat (length c)) p) as (a' & m1 & E1 & A);
    [done | apply Hh | apply Hh | lia | lia | lia | rewrite (iv_count _ _ I); lia |].
  erewrite bind_ok by exact E1. cbv beta iota.
  eexists. split; [| by apply (append_inv m m1 F k ty c p a')].
  apply winode_ok; [apply A |]. change (0 <= Z.of_nat k + 1 < 200). lia.
Qed.

(** An empty file. *)
Lemma zero_fblk D n : 0 <= n < MAXFILE -> fblk (replicate (S NDIRECT) 0) D n = 0.
Proof.
  intros Hn. unfold fblk. zcase (n <? Z.of_nat NDIRECT); [| done]. apply lookup_total_replicate_2. unfold NDIRECT in *. lia.
Qed.

Lemma zero_fine m : fine m (replicate (S NDIRECT) 0).
Proof.
  split; [done | | done | |].
  - intros n Hn. by rewrite zero_fblk.
  - intros n k Hn Hk. by rewrite zero_fblk.
  - intros n Hn. by rewrite zero_fblk.
Qed.

Lemma zero_blocks D : Trunc.file_blocks D (replicate (S NDIRECT) 0) = [].
Proof. reflexivity. Qed.

Lemma new_inode_ok i ty : 0 <= i -> 0 <= ty < 2 ^ 15 -> inode_ok (new_dinode i ty).
Proof.
  intros Hi Hty. split; simpl; [done | | lia |].
  - intros v Hv. rewrite !elem_of_cons, elem_of_nil in Hv. lia.
  - split; [done |]. intros b Hb. repeat (apply elem_of_cons in Hb as [-> | Hb]; [lia |]). by apply not_elem_of_nil in Hb.
Qed.

Lemma ialloc_ok m F ty :
  inv m F -> 0 <= ty < 2 ^ 15 -> Z.of_nat (length F) <= 198 ->
  exists m', ialloc ty m = Ok (1 + Z.of_nat (length F)) m' /\ inv m' (F ++ [(ty, [])]).
Proof.
  intros I Hty Hroom. unfold ialloc. erewrite bind_ok by reflexivity. cbn [id]. erewrite bind_ok by reflexivity. rewrite (iv_next _ _ I).
  set (i := 1 + Z.of_nat (length F)). set (m0 := Image _ _ _ _ _). set (y := new_dinode i ty).
  assert (Hs0 : sane m0) by (destruct (iv_sane _ _ I); by split).
  assert (Hi : 0 <= i_inum y < 200) by (unfold y; simpl; lia). assert (Hy : inode_ok y) by (apply new_inode_ok; lia).
  erewrite bind_ok by (by apply winode_ok). exists (stored m0 y). split; [done |].
  assert (Eold : forall j ty' c, F !! j = Some (ty', c) -> holds (stored m0 y) (Z.of_nat j + 1) ty' c /\
    owned (stored m0 y) (Z.of_nat j + 1) = owned m (Z.of_nat j + 1)).
  { intros j ty' c Hj. pose proof (lookup_lt_Some _ _ _ Hj). assert (Hh : holds m0 (Z.of_nat j + 1) ty' c).
    { destruct (iv_files _ _ I _ _ _ Hj) as [H1 H2 H3 H4 H5 H6 [H7 H8] H9]. by split. }
    split; [apply stored_holds | rewrite (stored_owned m0 y Hs0 Hy Hi)]; try done; try lia; try (unfold y; simpl; lia). apply Hh. }
  assert (Ei : dinode_at (stored m0 y) i = with_fields (din_of i) y) by (apply (stored_this m0 y Hs0 Hy Hi)).
  assert (En : Z.of_nat (length F) + 1 = i) by (unfold i; lia).
  assert (Eo : owned (stored m0 y) i = []) by (unfold owned; by rewrite Ei).
  destruct I as [I1 I2 I3 I4 I5 I6 I7 I8 I9]. split; rewrite ?length_app; simpl length.
  - by apply stored_sane.
  - simpl. lia.
  - lia.
  - intros j ty' c [Hj | [Hj Hc]]%lookup_app_Some; [by apply Eold |]. destruct (j - length F)%nat as [|d] eqn:Ej; [| done].
    injection Hc as <- <-. assert (j = length F) as -> by lia. rewrite En. split; rewrite ?Ei; try done.
    + apply zero_fine.
    + split; [| done]. intros n Hn. cbn [i_addrs with_fields y new_dinode]. rewrite zero_fblk by done. change (blocks_of _) with 0. split; [done | lia].
    + intros o Ho. rewrite decide_False by (simpl; lia). unfold fbyte. cbn [i_addrs with_fields y new_dinode].
      by rewrite zero_fblk by (by apply block_index).
  - intros j k b Hj Hk Hne. destruct (decide (j = length F)) as [-> | Nj].
    + rewrite En, Eo. by intros ?%not_elem_of_nil.
    + destruct (lookup_lt_is_Some_2 F j ltac:(lia)) as [[tj cj] Fj]. rewrite (proj2 (Eold j tj cj Fj)).
      destruct (decide (k = length F)) as [-> | Nk]; [rewrite En, Eo; intros _; apply not_elem_of_nil |].
      destruct (lookup_lt_is_Some_2 F k ltac:(lia)) as [[tk ck] Fk]. rewrite (proj2 (Eold k tk ck Fk)). apply I5; lia.
  - simpl. rewrite bupd_other; [done |]. pose proof (iblock_range _ Hi). unfold y in *. simpl in *. lia.
  - intros b Hb. simpl. rewrite bupd_other; [by apply I7 |]. pose proof (iblock_range _ Hi). unfold y in *. simpl in *. lia.
  - intros j Hj. cbn [freeinode stored wrote_sect m0] in Hj. rewrite (stored_type m0 y Hs0 Hy Hi) by (unfold y; simpl; lia). apply I8. lia.
  - simpl. rewrite blocks_needed_app. change (need (Z.of_nat (length (ty, [] : list Z).2))) with 0. lia.
Qed.


(** ** The program *)

Section run.
Variable host : list Z -> option (list (list Z)).

(** The bytes of a host file. *)
Definition text (name : list Z) : list Z := match host name with Some chunks => concat chunks | None => [] end.

(** A file that mkfs accepts: it opens, reads return at least a byte until its end, and it is not too long. *)
Record usable_file (name : list Z) : Prop := {
  uf_name : slash ∉ name;
  uf_open : exists chunks, host name = Some chunks /\ Forall (fun c => c <> []) chunks;
  uf_len : Z.of_nat (length (text name)) <= MAXFILE * BSIZE
}.

(** The files after [names] were added to a root directory with the bytes [r] and files [fs]. *)
Fixpoint with_files (r : list Z) (fs : contents) (names : list (list Z)) : contents :=
  match names with
  | [] => (T_DIR, r) :: fs
  | n :: ns => with_files (r ++ dirent (2 + Z.of_nat (length fs)) (fs_name n)) (fs ++ [(T_FILE, text n)]) ns
  end.

Lemma needed_cons e F : blocks_needed (e :: F) = need (Z.of_nat (length e.2)) + blocks_needed F.
Proof. reflexivity. Qed.

Lemma need_nonneg sz : 0 <= sz -> 0 <= need sz.
Proof. intros Hs. pose proof (need_mono 0 sz Hs). change (need 0) with 0 in *. lia. Qed.

Lemma need_app (r q : list Z) : need (Z.of_nat (length r)) <= need (Z.of_nat (length (r ++ q))).
Proof. apply need_mono. rewrite length_app. lia. Qed.

Lemma with_files_mono : forall names r fs, blocks_needed ((T_DIR, r) :: fs) <= blocks_needed (with_files r fs names).
Proof.
  induction names as [|n ns IH]; intros r fs; [done |]. cbn [with_files]. etrans; [| apply IH].
  rewrite !needed_cons, blocks_needed_app. cbn [snd]. pose proof (need_app r (dirent (2 + Z.of_nat (length fs)) (fs_name n))).
  pose proof (need_nonneg (Z.of_nat (length (text n)))). lia.
Qed.

Lemma append_all_ok : forall chunks m F k c,
  let F' := <[k := (T_FILE, c ++ concat chunks)]> F in
  inv m F -> F !! k = Some (T_FILE, c) -> Forall (fun c => c <> []) chunks -> Z.of_nat (length (c ++ concat chunks)) <= MAXFILE * BSIZE ->
  first_data + blocks_needed F' <= FSSIZE ->
  exists m', append_all (Z.of_nat k + 1) chunks m = Ok tt m' /\ inv m' F'.
Proof.
  induction chunks as [|d ds IH]; intros m F k c F' I Hk Hne Hmax Hfree.
  { exists m. split; [done |]. unfold F'. cbn [concat]. rewrite app_nil_r. by rewrite list_insert_id. }
  apply list.Forall_cons in Hne as [Hd Hne]. pose proof (lookup_lt_Some _ _ _ Hk) as Hlt. cbn [append_all concat] in *. unfold F' in *. clear F'.
  rewrite app_assoc in *. rewrite (blocks_needed_set F k T_FILE c) in Hfree by done. pose proof (need_app (c ++ d) (concat ds)) as Hm.
  destruct (iappend_ok m F k T_FILE c d) as (m1 & E1 & I1); try done.
  { rewrite length_app in Hmax. lia. }
  { rewrite (blocks_needed_set F k T_FILE c) by done. lia. }
  destruct (IH m1 (<[k := (T_FILE, c ++ d)]> F) k (c ++ d)) as (m2 & E2 & I2); rewrite ?list_insert_insert_eq in *; try done.
  { by apply list_lookup_insert_eq. }
  { rewrite (blocks_needed_set F k T_FILE c) by done. lia. }
  exists m2. split; [| done]. destruct d as [|b d]; [done |]. by erewrite bind_ok by exact E1.
Qed.

Lemma add_file_ok m r fs name :
  let i := 2 + Z.of_nat (length fs) in let F' := (T_DIR, r ++ dirent i (fs_name name)) :: fs ++ [(T_FILE, text name)] in
  inv m ((T_DIR, r) :: fs) -> usable_file name -> Z.of_nat (length fs) <= 197 -> Z.of_nat (length r) + 16 <= MAXFILE * BSIZE ->
  first_data + blocks_needed F' <= FSSIZE ->
  exists m', add_file host name m = Ok tt m' /\ inv m' F'.
Proof.
  intros i F' I [U1 (chunks & U2 & U3) U4] Hn Hr Hfree. unfold add_file. rewrite bool_decide_false, U2 by done.
  unfold F' in *. clear F'. unfold text in *. rewrite U2 in *. rewrite needed_cons, blocks_needed_app in Hfree. cbn [snd] in Hfree.
  destruct (ialloc_ok m _ T_FILE I) as (m1 & E1 & I1); [done | simpl; lia |]. erewrite bind_ok by exact E1.
  replace (1 + Z.of_nat (length ((T_DIR, r) :: fs))) with i in * by (simpl; lia).
  pose proof (need_nonneg (Z.of_nat (length (concat chunks)))) as Hc.
  destruct (iappend_ok m1 _ 0 T_DIR r (dirent i (fs_name name)) I1) as (m2 & E2 & I2); [done | done | rewrite length_app, Dir.length_dirent; lia | |].
  { cbn [app insert list_insert]. rewrite needed_cons, blocks_needed_app. cbn [snd length]. change (need (Z.of_nat 0)) with 0. lia. }
  erewrite bind_ok by exact E2. cbn [app insert list_insert] in I2.
  assert (Hlk : ((T_DIR, r ++ dirent i (fs_name name)) :: fs ++ [(T_FILE, [] : list Z)]) !! S (length fs) = Some (T_FILE, [])).
  { simpl. rewrite lookup_app_r, Nat.sub_diag by lia. done. }
  assert (Hins : forall e, <[S (length fs) := e]> ((T_DIR, r ++ dirent i (fs_name name)) :: fs ++ [(T_FILE, [] : list Z)]) =
    (T_DIR, r ++ dirent i (fs_name name)) :: fs ++ [e]).
  { intros e. simpl. f_equal. rewrite insert_app_r_alt, Nat.sub_diag by lia. done. }
  destruct (append_all_ok chunks m2 _ (S (length fs)) [] I2 Hlk U3 U4) as (m3 & E3 & I3).
  { rewrite Hins, needed_cons, blocks_needed_app. cbn [snd app]. lia. }
  rewrite Hins in I3. exists m3. split; [| done]. replace (Z.of_nat (S (length fs)) + 1) with i in E3 by lia. exact E3.
Qed.

Lemma add_files_ok : forall names m r fs,
  inv m ((T_DIR, r) :: fs) -> Forall usable_file names -> Z.of_nat (length fs + length names) <= 198 ->
  Z.of_nat (length r) = 16 * (2 + Z.of_nat (length fs)) -> first_data + blocks_needed (with_files r fs names) <= FSSIZE ->
  exists m', add_files host names m = Ok tt m' /\ inv m' (with_files r fs names).
Proof.
  induction names as [|n ns IH]; intros m r fs I Hu Hn Hr Hfree; [by exists m |].
  apply list.Forall_cons in Hu as [Hu Hus]. cbn [add_files with_files] in *. pose proof max_bytes as Hmax.
  assert (Hlen : (length fs + length (n :: ns))%nat = S (length fs + length ns)) by (simpl; lia).
  destruct (add_file_ok m r fs n I Hu) as (m1 & E1 & I1); [lia | lia | |].
  { pose proof (with_files_mono ns (r ++ dirent (2 + Z.of_nat (length fs)) (fs_name n)) (fs ++ [(T_FILE, text n)])). lia. }
  destruct (IH m1 _ _ I1 Hus) as (m2 & E2 & I2); [rewrite length_app; simpl; lia | | done |].
  { rewrite !length_app, Dir.length_dirent. simpl. lia. }
  exists m2. split; [| done]. by erewrite bind_ok by exact E1.
Qed.
End run.


(** ** The finished image *)

Lemma zero_sects_ok : forall n m, (forall b, sect m b = zero_block) ->
  zero_sects n (nsect m) m = Ok tt (Image (sect m) (nsect m + Z.of_nat n) (sb m) (freeinode m) (freeblock m)).
Proof.
  induction n as [|n IH]; intros m Hz; [simpl; rewrite Z.add_0_r; by destruct m |]. cbn [zero_sects].
  assert (E : wsect (nsect m) zero_block m = Ok tt (Image (sect m) (nsect m + 1) (sb m) (freeinode m) (freeblock m))).
  { unfold wsect, modify. do 2 f_equal; [| lia]. extensionality b. unfold bupd. case_decide; [by rewrite Hz | done]. }
  erewrite bind_ok by exact E. etransitivity; [apply (IH (Image (sect m) (nsect m + 1) (sb m) (freeinode m) (freeblock m))); done |].
  cbn [nsect sect sb freeinode freeblock]. do 2 f_equal. lia.
Qed.

Definition first_image : image := Image (bupd (fun _ => zero_block) 1 (super_bytes super)) FSSIZE super 1 nmeta.

Lemma first_inv : inv first_image [].
Proof.
  assert (Hz : forall b, b <> 1 -> sect first_image b = zero_block) by (intros b Hb; by apply bupd_other).
  split; try done.
  - split; try done.
    + intros b Hb. destruct (decide (b = 1)) as [-> | Hne]; [reflexivity | by rewrite Hz].
    + intros b Hb. apply Hz. simpl in Hb. unfold nmeta in Hb. intros ->. vm_compute in Hb. by destruct Hb.
  - intros j k b Hj. simpl in Hj. lia.
  - intros b Hb. apply Hz. lia.
  - intros i Hi. simpl in Hi. pose proof (iblock_range i ltac:(lia)). rewrite Hz by lia. unfold get16.
    unfold din_off, IPB, DINODE_SIZE, BSIZE. change (512 / 64) with 8. rewrite !getb_zero_block; [done | |]; Z.to_euclidean_division_equations; lia.
Qed.

(** The first two entries. *)
Definition dots : list Z := dirent 1 [46] ++ dirent 1 [46; 46].

Lemma root_inv : exists m, (ialloc T_DIR first_image = Ok 1 m) /\ inv m [(T_DIR, [])].
Proof. destruct (ialloc_ok first_image [] T_DIR first_inv) as (m & E & I); [done | simpl; lia |]. by exists m. Qed.

Definition rounded (len : Z) : Z := (len / BSIZE + 1) * BSIZE.

(** The image before the last call of [balloc], for the files [F]. *)
Definition fix_root (m : image) : image := stored m (set_size (rounded (i_size (dinode_at m ROOTINO))) (dinode_at m ROOTINO)).

Lemma main_ok host names :
  let F := with_files host dots [] names in
  Forall (usable_file host) names -> Z.of_nat (length names) <= 198 -> first_data + blocks_needed F <= FSSIZE ->
  exists m m', inv m F /\ main host names empty_image = Ok tt m' /\ sect m' = disk_of (fix_root m) /\ freeblock m' = freeblock m.
Proof.
  intros F Hu Hn Hfree. unfold main. pose proof max_bytes as Hmax.
  erewrite bind_ok by (apply (zero_sects_ok (Z.to_nat FSSIZE) empty_image); done).
  erewrite bind_ok by reflexivity. destruct root_inv as (m0 & E0 & I0).
  erewrite bind_ok by exact E0. cbn [Z.eqb ROOTINO negb Pos.eqb].
  pose proof (with_files_mono host names dots []) as Hmono. rewrite needed_cons in Hmono. cbn [snd] in Hmono.
  destruct (iappend_ok m0 [(T_DIR, [])] 0 T_DIR [] (dirent 1 [46]) I0) as (m1 & E1 & I1); [done | done | done | |].
  { vm_compute. done. }
  change (Z.of_nat 0 + 1) with 1 in E1. erewrite bind_ok by exact E1. cbn [insert list_insert app] in I1.
  destruct (iappend_ok m1 [(T_DIR, dirent 1 [46])] 0 T_DIR (dirent 1 [46]) (dirent 1 [46; 46]) I1) as (m2 & E2 & I2); [done | done | done | |].
  { vm_compute. done. }
  change (Z.of_nat 0 + 1) with 1 in E2. erewrite bind_ok by exact E2. cbn [insert list_insert] in I2. fold dots in I2.
  destruct (add_files_ok host names m2 dots [] I2 Hu) as (m3 & E3 & I3); [simpl; lia | done | done |].
  erewrite bind_ok by exact E3. pose proof (iv_sane _ _ I3) as Hs3. fold F in I3.
  erewrite bind_ok by (apply rinode_ok; [done | lia]).
  set (y := set_size _ _). assert (Hi : 0 <= i_inum y < 200) by (change (0 <= 1 < 200); lia).
  erewrite bind_ok by (by apply winode_ok). erewrite bind_ok by reflexivity. cbn [id].
  assert (Hf : freeblock (stored m3 y) = freeblock m3) by done. rewrite Hf. pose proof (sn_free _ Hs3) as Hr. unfold FSSIZE in Hr.
  unfold balloc. rewrite (proj2 (Z.ltb_lt _ _)) by (unfold BSIZE; lia). cbn [negb].
  exists m3. eexists. split_and!; [done | | |].
  - erewrite bind_ok by reflexivity. unfold wsect, modify. reflexivity.
  - cbn [sect]. change (sb (id (stored m3 y))) with (sb m3). rewrite (sn_sb _ Hs3). done.
  - done.
Qed.


(** The directory entries of the files, from inode [i] on. *)
Fixpoint name_entries (i : Z) (names : list (list Z)) : list (list Z) :=
  match names with [] => [] | n :: ns => dirent i (fs_name n) :: name_entries (i + 1) ns end.

Lemma with_files_shape host : forall names r fs, with_files host r fs names =
  (T_DIR, r ++ concat (name_entries (2 + Z.of_nat (length fs)) names)) :: fs ++ ((fun n => (T_FILE, text host n)) <$> names).
Proof.
  induction names as [|n ns IH]; intros r fs; [cbn; by rewrite !app_nil_r |]. cbn [with_files name_entries concat]. rewrite IH.
  rewrite <- !app_assoc. cbn [app]. rewrite length_app. cbn [length]. rewrite fmap_cons. by replace (2 + Z.of_nat (length fs + 1)) with (2 + Z.of_nat (length fs) + 1) by lia.
Qed.

Lemma length_name_entries : forall names i, length (name_entries i names) = length names.
Proof. induction names as [|n ns IH]; intros i; [done |]. cbn [name_entries length]. by rewrite IH. Qed.

Lemma name_entries_16 : forall names i, Forall (fun d => length d = 16%nat) (name_entries i names).
Proof. induction names as [|n ns IH]; intros i; constructor; [apply Dir.length_dirent | apply IH]. Qed.

Lemma length_concat_16 (L : list (list Z)) : Forall (fun d => length d = 16%nat) L -> length (concat L) = (16 * length L)%nat.
Proof. induction 1 as [|d L Hd HL IH]; [done |]. cbn [concat]. rewrite length_app, Hd, IH. simpl. lia. Qed.

Lemma concat_16 (L : list (list Z)) : Forall (fun d => length d = 16%nat) L ->
  forall k, (k < length L)%nat -> take 16 (drop (16 * k) (concat L)) = L !!! k.
Proof.
  induction 1 as [|d L Hd HL IH]; intros k Hk; [simpl in Hk; lia |]. cbn [concat]. destruct k as [|k].
  - rewrite Nat.mul_0_r, drop_0, take_app_le by lia. by rewrite take_ge by lia.
  - replace (16 * S k)%nat with (length d + 16 * k)%nat by lia. rewrite drop_app_add. apply IH. simpl in Hk. lia.
Qed.

(** ** The image as the kernel sees it *)

Definition disk_inode (D : Z -> block) (i : Z) : inode := get_dinode (D (IBLOCK i super)) (din_of i).

Definition no_entry : Z * list Z := (0, replicate DIRSIZ 0).

Record formatted (D : Z -> block) (root : list (Z * list Z)) (files : list (list Z)) (used : Z) : Prop := {
  fm_super : Trunc.super_of (D 1) = super;
  fm_map : map_ok super first_data D;
  fm_bits : forall b, 0 <= b < FSSIZE -> bit_used (D bmap_sect) b = (b <? used);
  fm_log : forall b, 2 <= b < 32 -> D b = zero_block;
  fm_root : Dir.directory super first_data D (disk_inode D ROOTINO) /\ i_nlink (disk_inode D ROOTINO) = 1 /\
    exists n, Dir.listing D (disk_inode D ROOTINO) = root ++ replicate n no_entry;
  fm_file : forall k c, files !! k = Some c -> let x := disk_inode D (Z.of_nat k + 2) in
    regular super first_data D x /\ i_type x = T_FILE /\ i_nlink x = 1 /\ i_size x = Z.of_nat (length c) /\ fbytes (i_addrs x) D 0 (length c) = c;
  fm_apart : forall i j b, 1 <= i <= 1 + Z.of_nat (length files) -> 1 <= j <= 1 + Z.of_nat (length files) -> i <> j ->
    b ∈ Trunc.file_blocks D (i_addrs (disk_inode D i)) -> b ∉ Trunc.file_blocks D (i_addrs (disk_inode D j));
  fm_inodes : forall i, 2 + Z.of_nat (length files) <= i < 200 -> get16 (D (IBLOCK i super)) (din_off i) = 0
}.

Lemma disk_inode_at m i : 0 <= i < 200 -> disk_inode (disk_of m) i = dinode_at m i.
Proof. intros Hi. pose proof (iblock_range i Hi). unfold disk_inode, dinode_at. rewrite disk_sect; [done | unfold bmap_sect; lia]. Qed.

(** No holes below [n] bytes. *)
Lemma tight_full m a len n o :
  tight m a len -> blocks_of n <= blocks_of len -> n <= MAXFILE * BSIZE -> 0 <= o < n -> fblk a (disk_of m) (o / BSIZE) <> 0.
Proof.
  intros [T _] Hb Hn Ho. apply T; [apply block_index; lia |]. unfold blocks_of, BSIZE in *. Z.to_euclidean_division_equations; lia.
Qed.

Lemma holds_file m i c : holds m i T_FILE c -> 0 <= i < 200 ->
  let x := dinode_at m i in
  regular super first_data (disk_of m) x /\ i_type x = T_FILE /\ i_nlink x = 1 /\ i_size x = Z.of_nat (length c) /\ fbytes (i_addrs x) (disk_of m) 0 (length c) = c.
Proof.
  intros [H1 H2 H3 H4 H5 H6 H7 H8] Hi x. split_and!; try done.
  - unfold x. split; [done | done | by rewrite H1 | rewrite H4; lia | done |]. intros o. rewrite H4. intros Ho. by apply (tight_full m _ (Z.of_nat (length c)) (Z.of_nat (length c))).
  - apply Dir.fbytes_are. intros o Ho. rewrite H8 by lia. rewrite decide_True by lia. f_equal. lia.
Qed.

Section finish.
Variables (m : image) (L : list (list Z)) (files : contents).
Notation root := (concat L).
Notation len := (Z.of_nat (length root)).
Notation x := (dinode_at m ROOTINO).
Notation y := (set_size (rounded (i_size x)) x).
Context (I : inv m ((T_DIR, root) :: files)) (HL : Forall (fun d => length d = 16%nat) L) (Hmod : Z.of_nat (length L) mod 32 <> 0).
Context (Hsmall : (length L <= 200)%nat).

Lemma root_holds : holds m ROOTINO T_DIR root.
Proof. by apply (iv_files _ _ I 0%nat). Qed.

Lemma root_len : len = 16 * Z.of_nat (length L).
Proof. rewrite (length_concat_16 L HL). lia. Qed.

Lemma rounded_blocks : blocks_of (rounded len) = blocks_of len /\ rounded len mod 16 = 0 /\ len < rounded len <= len + 512.
Proof.
  pose proof root_len as E. assert (Hm : len mod 512 <> 0).
  { rewrite E. intros Hc. apply Hmod. Z.to_euclidean_division_equations; lia. }
  unfold blocks_of, rounded, BSIZE. Z.to_euclidean_division_equations; lia.
Qed.

Lemma fix_inode_ok : inode_ok y.
Proof.
  destruct root_holds as [H1 [H2 H3] H4 H5 H6 H7 H8 H9]. pose proof rounded_blocks as (_ & _ & Hr). pose proof root_len as El.
  split; cbn [i_inum i_type i_major i_minor i_nlink i_size i_addrs set_size].
  - change (0 <= 1). lia.
  - rewrite H1, H2, H3, H4. intros v Hv. rewrite !elem_of_cons, elem_of_nil in Hv. unfold T_DIR in Hv. lia.
  - rewrite H5. lia.
  - split; [apply H7 | intros b; by apply (fine_words m)].
Qed.

Lemma fix_this : dinode_at (fix_root m) ROOTINO = with_fields (din_of ROOTINO) y.
Proof. apply (stored_this m y (iv_sane _ _ I) fix_inode_ok). change (0 <= 1 < 200). lia. Qed.

Lemma fix_other i : 0 <= i -> i <> ROOTINO -> dinode_at (fix_root m) i = dinode_at m i.
Proof. intros Hi Hne. apply (stored_other m y (iv_sane _ _ I) fix_inode_ok); [change (0 <= 1 < 200); lia | done | done]. Qed.

Lemma fix_num : 0 <= i_inum y < 200.
Proof. change (0 <= 1 < 200). lia. Qed.

Lemma fix_sane : sane (fix_root m).
Proof. apply (stored_sane m y (iv_sane _ _ I) fix_inode_ok fix_num). Qed.

Lemma fix_size : i_size (dinode_at (fix_root m) ROOTINO) = rounded len /\ i_addrs (dinode_at (fix_root m) ROOTINO) = i_addrs x.
Proof. rewrite fix_this. cbn [i_size i_addrs with_fields set_size]. by rewrite (hd_size _ _ _ _ root_holds). Qed.

(** The bytes of the root directory: the entries, then zeros. *)
Lemma fix_byte o : 0 <= o < MAXFILE * BSIZE ->
  fbyte (i_addrs x) (disk_of (fix_root m)) o = if decide (o < len) then root !!! Z.to_nat o else 0.
Proof.
  intros Ho. pose proof root_holds as Hh.
  destruct (stored_file m y (iv_sane _ _ I) fix_inode_ok fix_num _ (hd_fine _ _ _ _ Hh)) as (_ & _ & Hb & _).
  unfold fix_root. rewrite Hb by done. by apply (hd_byte _ _ _ _ Hh).
Qed.

Lemma fix_directory : Dir.directory super first_data (disk_of (fix_root m)) (dinode_at (fix_root m) ROOTINO).
Proof.
  pose proof root_holds as Hh. pose proof rounded_blocks as (Hb & H16 & Hr). pose proof root_len as El. destruct fix_size as [Es Ea].
  destruct (stored_file m y (iv_sane _ _ I) fix_inode_ok fix_num _ (hd_fine _ _ _ _ Hh)) as (Sf & _).
  assert (Ht : i_type (dinode_at (fix_root m) ROOTINO) = T_DIR) by (rewrite fix_this; apply Hh).
  pose proof max_bytes as Hmax. split; [| done | by rewrite Es].
  split; [done | done | by rewrite Ht | rewrite Es; lia | by rewrite Ea |]. intros o. rewrite Es, Ea. intros Ho.
  apply (tight_full (fix_root m) _ len (rounded len)); [| lia | lia | done].
  apply (stored_tight m y (iv_sane _ _ I) fix_inode_ok fix_num); apply Hh.
Qed.

Lemma fix_slot k : (k < length L)%nat -> Dir.slot (i_addrs x) (disk_of (fix_root m)) k = Dir.to_entry (L !!! k).
Proof.
  intros Hk. unfold Dir.slot. f_equal. rewrite <- (concat_16 L HL k Hk). pose proof root_len as El. pose proof max_bytes as Hmax.
  assert (Hl : length (take 16 (drop (16 * k) root)) = 16%nat) by (rewrite length_take, length_drop, (length_concat_16 L HL); lia).
  rewrite <- Hl at 1. apply Dir.fbytes_are. rewrite Hl. intros o Ho. rewrite fix_byte by lia. rewrite decide_True by lia.
  rewrite lookup_total_take_lt by lia. rewrite lookup_total_drop. f_equal. lia.
Qed.

Lemma fix_slot_free k : (length L <= k)%nat -> 16 * Z.of_nat k + 16 <= MAXFILE * BSIZE -> Dir.slot (i_addrs x) (disk_of (fix_root m)) k = no_entry.
Proof.
  intros Hk He. unfold Dir.slot. pose proof root_len as El.
  assert (E : fbytes (i_addrs x) (disk_of (fix_root m)) (16 * Z.of_nat k) 16 = replicate 16 0); [| by rewrite E].
  change 16%nat with (length (replicate 16 0)) at 1. apply Dir.fbytes_are. rewrite length_replicate. intros o Ho.
  rewrite fix_byte by lia. rewrite decide_False by lia. rewrite lookup_total_replicate_2; [done | lia].
Qed.

Lemma fix_listing : exists n, Dir.listing (disk_of (fix_root m)) (dinode_at (fix_root m) ROOTINO) = (Dir.to_entry <$> L) ++ replicate n no_entry.
Proof.
  destruct fix_size as [Es Ea]. pose proof rounded_blocks as (_ & H16 & Hr). pose proof root_len as El. pose proof max_bytes as Hmax.
  exists (Z.to_nat (rounded len / 16) - length L)%nat. unfold Dir.listing. rewrite Es, Ea. apply list_eq. intros k.
  rewrite Dir.entries_lookup. destruct (decide (k < length L)%nat) as [Hlt | Hge].
  - rewrite decide_True by (Z.to_euclidean_division_equations; lia). rewrite lookup_app_l by (by rewrite length_fmap).
    rewrite fix_slot by done. rewrite list_lookup_fmap. by rewrite (list_lookup_lookup_total_lt L k) by done.
  - rewrite lookup_app_r by (rewrite length_fmap; lia). rewrite length_fmap. case_decide.
    + rewrite lookup_replicate_2 by lia. rewrite fix_slot_free; [done | lia |]. Z.to_euclidean_division_equations; lia.
    + symmetry. apply lookup_ge_None. rewrite length_replicate. lia.
Qed.

Lemma finish_formatted : Forall (fun e => e.1 = T_FILE) files ->
  formatted (disk_of (fix_root m)) (Dir.to_entry <$> L) files.*2 (freeblock m).
Proof.
  intros Hft. pose proof fix_sane as Hs. pose proof (iv_room _ _ I) as Hroom. cbn [length] in Hroom.
  assert (Hmeta : forall b, 0 < b < 32 -> disk_of (fix_root m) b = sect m b).
  { intros b Hb. rewrite disk_sect by (unfold bmap_sect; lia). unfold fix_root, stored. cbn [sect wrote_sect].
    apply bupd_other. pose proof (iblock_range _ fix_num). lia. }
  assert (Hfile : forall k ty c, files !! k = Some (ty, c) -> holds (fix_root m) (Z.of_nat k + 2) ty c).
  { intros k ty c Hk. replace (Z.of_nat k + 2) with (Z.of_nat (S k) + 1) by lia.
    apply (stored_holds m y (iv_sane _ _ I) fix_inode_ok fix_num); [lia | change (i_inum y) with 1; lia | by apply I]. }
  assert (Hown : forall i, 1 <= i <= 1 + Z.of_nat (length files) -> Trunc.file_blocks (disk_of (fix_root m)) (i_addrs (disk_inode (disk_of (fix_root m)) i)) = owned m i).
  { intros i Hi. rewrite disk_inode_at by lia. destruct (decide (i = ROOTINO)) as [-> | Hne].
    - rewrite (proj2 fix_size). apply (stored_file m y (iv_sane _ _ I) fix_inode_ok fix_num). apply root_holds.
    - unfold ROOTINO in Hne. destruct (lookup_lt_is_Some_2 files (Z.to_nat (i - 2)) ltac:(lia)) as [[ty c] Hc].
      apply (stored_owned m y (iv_sane _ _ I) fix_inode_ok fix_num); [lia | done |].
      pose proof (iv_files _ _ I (S (Z.to_nat (i - 2))) ty c Hc) as Hh. replace (Z.of_nat (S (Z.to_nat (i - 2))) + 1) with i in Hh by lia. apply Hh. }
  split; rewrite ?length_fmap.
  - rewrite Hmeta, (iv_super _ _ I) by lia. reflexivity.
  - by apply disk_map_ok.
  - intros b Hb. unfold FSSIZE in Hb. by rewrite disk_used by (done || lia).
  - intros b Hb. rewrite Hmeta by lia. by apply (iv_log _ _ I).
  - rewrite disk_inode_at by (unfold ROOTINO; lia). split_and!; [apply fix_directory | | apply fix_listing].
    rewrite fix_this. apply root_holds.
  - intros k c Hk. rewrite list_lookup_fmap in Hk. destruct (files !! k) as [[ty c']|] eqn:Hf; [| done]. injection Hk as ->.
    rewrite list.Forall_lookup in Hft. pose proof (Hft k _ Hf) as Hty. simpl in Hty. subst ty. pose proof (lookup_lt_Some _ _ _ Hf).
    cbv zeta. rewrite disk_inode_at by lia. apply holds_file; [by apply Hfile | lia].
  - intros i j b Hi Hj Hne. rewrite (Hown i Hi), (Hown j Hj). intros Hb.
    replace i with (Z.of_nat (Z.to_nat (i - 1)) + 1) in Hb by lia. replace j with (Z.of_nat (Z.to_nat (j - 1)) + 1) by lia.
    apply (iv_apart _ _ I (Z.to_nat (i - 1)) (Z.to_nat (j - 1))); cbn [length]; [lia | lia | lia | done].
  - intros i Hi. pose proof (iblock_range i ltac:(lia)). rewrite disk_sect by (unfold bmap_sect; lia).
    unfold fix_root. rewrite (stored_type m y (iv_sane _ _ I) fix_inode_ok fix_num) by (lia || (change (i_inum y) with 1; lia)).
    apply I. rewrite (iv_next _ _ I). cbn [length]. lia.
Qed.

End finish.


(** The entries of the root directory of an image with the files [names]. *)
Fixpoint file_entries (i : Z) (names : list (list Z)) : list (Z * list Z) :=
  match names with [] => [] | n :: ns => (i, strncpy_l DIRSIZ (fs_name n)) :: file_entries (i + 1) ns end.
Definition root_entries (names : list (list Z)) : list (Z * list Z) :=
  (1, strncpy_l DIRSIZ [46]) :: (1, strncpy_l DIRSIZ [46; 46]) :: file_entries 2 names.

Lemma file_entries_ok : forall names i, 0 <= i -> i + Z.of_nat (length names) <= 65536 -> Dir.to_entry <$> name_entries i names = file_entries i names.
Proof.
  induction names as [|n ns IH]; intros i Hi Hn; [done |]. cbn [length] in Hn. cbn [name_entries file_entries]. rewrite fmap_cons.
  rewrite Dir.to_entry_dirent by lia. f_equal. apply IH; lia.
Qed.

(** Blocks in use when [names] are on the image. *)
Definition used_blocks (host : list Z -> option (list (list Z))) (names : list (list Z)) : Z :=
  nmeta + need (16 * (2 + Z.of_nat (length names))) + foldr Z.add 0 ((fun n => need (Z.of_nat (length (text host n)))) <$> names).

Definition root_dirents (names : list (list Z)) : list (list Z) := dirent 1 [46] :: dirent 1 [46; 46] :: name_entries 2 names.

Lemma root_dirents_16 names : Forall (fun d => length d = 16%nat) (root_dirents names).
Proof. repeat constructor. apply name_entries_16. Qed.

Lemma root_dirents_entries names : Z.of_nat (length names) <= 198 -> Dir.to_entry <$> root_dirents names = root_entries names.
Proof.
  intros Hn. unfold root_dirents, root_entries. rewrite !fmap_cons, !Dir.to_entry_dirent by lia. do 2 f_equal. apply file_entries_ok; lia.
Qed.

Lemma image_files host names :
  with_files host dots [] names = (T_DIR, concat (root_dirents names)) :: ((fun n => (T_FILE, text host n)) <$> names) /\
  first_data + blocks_needed (with_files host dots [] names) = used_blocks host names.
Proof.
  assert (E : with_files host dots [] names = (T_DIR, concat (root_dirents names)) :: ((fun n => (T_FILE, text host n)) <$> names)).
  { rewrite with_files_shape. unfold dots, root_dirents. cbn [concat app length]. by rewrite <- app_assoc. }
  split; [done |]. rewrite E, needed_cons. cbn [snd]. rewrite (length_concat_16 _ (root_dirents_16 names)).
  unfold root_dirents at 1. cbn [length]. rewrite length_name_entries. unfold used_blocks. change nmeta with first_data.
  replace (Z.of_nat (16 * S (S (length names)))) with (16 * (2 + Z.of_nat (length names))) by lia.
  unfold blocks_needed. rewrite <- list_fmap_compose. unfold compose. cbn [snd]. lia.
Qed.


(** The image of [main] for usable host files. *)
Lemma image_formatted host names :
  Forall (usable_file host) names -> Z.of_nat (length names) <= 198 -> (2 + Z.of_nat (length names)) mod 32 <> 0 -> used_blocks host names <= FSSIZE ->
  exists m, main host names empty_image = Ok tt m /\ formatted (sect m) (root_entries names) (text host <$> names) (used_blocks host names).
Proof.
  intros Hu Hn Hmod Hfree. destruct (image_files host names) as [EF Eu].
  destruct (main_ok host names Hu Hn) as (m0 & m & I & E & Es & Ef); [lia |].
  pose proof (iv_count _ _ I) as Hc. rewrite Eu in Hc. rewrite EF in I. exists m. split; [done |]. rewrite Es, <- Hc.
  pose proof (finish_formatted m0 (root_dirents names) ((fun n => (T_FILE, text host n)) <$> names) I (root_dirents_16 names)) as HF.
  rewrite <- list_fmap_compose, root_dirents_entries in HF by lia. apply HF.
  - cbn [root_dirents length]. rewrite length_name_entries. by replace (Z.of_nat (S (S (length names)))) with (2 + Z.of_nat (length names)) by lia.
  - cbn [root_dirents length]. rewrite length_name_entries. lia.
  - apply Forall_fmap, Forall_true. done.
Qed.

End Mkfs.

(** ** Properties *)

(** C3: mkfs builds a file system that the kernel can use.  For host files that open, are not too
    long and fit on the disk, the program ends without a failed assertion, and its image has the
    superblock and layout the kernel expects, an empty log, a free map with exactly the blocks in use
    marked, a root directory with the entries ".", ".." and one for each file, each file in its own
    inode with the bytes of the host file in blocks of its own, and all other inodes free; so, on that
    disk, [readi] of a file's inode gives the bytes of the host file.  (With a multiple of 32 entries
    the size of the root directory is rounded up to a block it does not have.) *)
Theorem mkfs_builds_filesystem (host : list Z -> option (list (list Z))) (names : list (list Z)) :
  Forall (Mkfs.usable_file host) names -> Z.of_nat (length names) <= 198 -> (2 + Z.of_nat (length names)) mod 32 <> 0 ->
  Mkfs.used_blocks host names <= FSSIZE ->
  exists m, Mkfs.main host names Mkfs.empty_image = Ok tt m /\
    (forall g, start g = sb_logstart Mkfs.super -> lsize g = sb_nlog Mkfs.super -> layout g Mkfs.super Mkfs.first_data) /\
    Mkfs.formatted (Mkfs.sect m) (Mkfs.root_entries names) (Mkfs.text host <$> names) (Mkfs.used_blocks host names) /\
    forall (St : Type) (B : BlockStore St) (BL : BlockStoreLaws St) g devread wr C r (s : fstate St) v ip k name,
      layout g Mkfs.super Mkfs.first_data -> ftx g wr C r (Mkfs.sect m) ∅ s v -> names !! k = Some name ->
      icache s ip = Mkfs.disk_inode (Mkfs.sect m) (Z.of_nat k + 2) ->
      exists s', readi devread ip 0 (Z.of_nat (length (Mkfs.text host name))) s =
        Ok (Z.of_nat (length (Mkfs.text host name)), Mkfs.text host name) s'.
Proof.
  intros Hu Hn Hmod Hfree. destruct (Mkfs.image_formatted host names Hu Hn Hmod Hfree) as (m & E & HF).
  exists m. split_and!; [done | | done |].
  - intros g Hg1 Hg2. destruct Mkfs.image_layout as [L1 L2 [L3 L3'] L4 L5].
    assert (Hus : forall b, usable demo_log b -> usable g b) by (unfold usable, in_log; by rewrite Hg1, Hg2).
    split; [done | done | by auto | by auto |]. intros i Hi. destruct (L5 i Hi) as [Q1 Q2]. by auto.
  - intros St B BL g devread wr C r s v ip k name L T Hk Ei.
    destruct (Mkfs.fm_file _ _ _ _ HF k (Mkfs.text host name)) as (R & _ & _ & Hsz & Hb); [by rewrite list_lookup_fmap, Hk |].
    rewrite <- Ei in R, Hsz, Hb. pose proof (rg_size _ _ _ _ R) as Hr. pose proof max_bytes.
    destruct (readi_tx g Mkfs.super Mkfs.first_data L devread wr C r (Mkfs.sect m) s v ip 0 (i_size (icache s ip))) as (s' & v' & E' & _); [exact T | exact R | lia | lia |].
    rewrite Z.sub_0_r, Z.min_id, Hsz, Nat2Z.id, Hb in E'. by exists s'.
Qed.

(** Two small files, one of them read in two pieces. *)
Definition demo_host (name : list Z) : option (list (list Z)) :=
  if bool_decide (name = [95; 97]) then Some [[1; 2; 3]; [4; 5]] else if bool_decide (name = [98]) then Some [[7]] else None.

Lemma demo_host_usable : Forall (Mkfs.usable_file demo_host) [[95; 97]; [98]].
Proof.
  apply list.Forall_cons. split; [| apply list.Forall_cons; split; [| apply list.Forall_nil_2]].
  - split; [unfold slash; intros Hin; rewrite !elem_of_cons, elem_of_nil in Hin; lia | | done]. exists [[1; 2; 3]; [4; 5]]. split; [done | by repeat constructor].
  - split; [unfold slash; intros Hin; rewrite !elem_of_cons, elem_of_nil in Hin; lia | | done]. exists [[7]]. split; [done | by repeat constructor].
Qed.

Lemma mkfs_builds_filesystem_witness :
  exists m, Mkfs.main demo_host [[95; 97]; [98]] Mkfs.empty_image = Ok tt m /\
    Mkfs.formatted (Mkfs.sect m) (Mkfs.root_entries [[95; 97]; [98]]) [[1; 2; 3; 4; 5]; [7]] 62.
Proof.
  destruct (mkfs_builds_filesystem demo_host [[95; 97]; [98]]) as (m & E & _ & HF & _); [exact demo_host_usable | done | done | done |].
  exists m. split; [exact E | exact HF].
Defined.
