(* ===== verification/FsPath.v ===== *)
(** * Path lookup

    [namex] of fs.c: from the root or the current directory, one element of the path at a time, with
    the inode of each directory locked while it is searched and released before the next step.  The
    tree of directories is read off the disk; the inode cache is related to it. *)
From S2P Require Import Prelude Lock Ide Bytes Bio BlockStore Log LogSys Fs FsSys FsTx FsFile FsDir FsTrunc Mkfs.
#[local] Open Scope Z_scope.

Module Path.

(** ** Sums over the inode cache *)

Definition csum (f : inode -> Z) (c : nat -> inode) : Z := foldr Z.add 0 ((fun i => f (c i)) <$> seq 0 NINODE).

(** References to inode [n], and free entries. *)
Definition refs (c : nat -> inode) (n : Z) : Z := csum (fun x => if i_inum x =? n then i_ref x else 0) c.
Definition frees (c : nat -> inode) : Z := csum (fun x => if i_ref x =? 0 then 1 else 0) c.

Lemma sum_upd (f : inode -> Z) c i x l : NoDup l ->
  foldr Z.add 0 ((fun j => f (fupd c i x j)) <$> l) = foldr Z.add 0 ((fun j => f (c j)) <$> l) + (if decide (i ∈ l) then f x - f (c i) else 0).
Proof.
  induction l as [|j l IH]; intros Hnd; [simpl; lia |]. apply list.NoDup_cons in Hnd as [Hj Hnd]. rewrite !fmap_cons. cbn [foldr].
  rewrite (IH Hnd). unfold fupd. destruct (decide (j = i)) as [-> | Hne].
  - rewrite (decide_True (P := i ∈ i :: l)) by (by left). rewrite (decide_False (P := i ∈ l)) by done. lia.
  - destruct (decide (i ∈ l)) as [Hin | Hin].
    + rewrite decide_True by (by right). lia.
    + rewrite decide_False; [lia |]. intros [-> | ?]%elem_of_cons; done.
Qed.

Lemma csum_upd f c i x : (i < NINODE)%nat -> csum f (fupd c i x) = csum f c + (f x - f (c i)).
Proof.
  intros Hi. unfold csum. rewrite sum_upd by apply NoDup_seq. rewrite decide_True; [done |]. apply elem_of_seq. lia.
Qed.

Lemma frees_some c : 1 <= frees c -> exists k, (k < NINODE)%nat /\ i_ref (c k) = 0.
Proof.
  unfold frees, csum. assert (Hgen : forall l : list nat, 1 <= foldr Z.add 0 ((fun i => if i_ref (c i) =? 0 then 1 else 0) <$> l) ->
    exists k, k ∈ l /\ i_ref (c k) = 0).
  { induction l as [|k l IH]; [simpl; lia |]. rewrite fmap_cons. cbn [foldr]. destruct (Z.eqb_spec (i_ref (c k)) 0) as [E | E].
    - intros _. exists k. split; [by left | done].
    - intros H. destruct IH as (j & Hj & Ej); [lia |]. exists j. split; [by right | done]. }
  intros H. destruct (Hgen _ H) as (k & Hk%elem_of_seq & Ek). exists k. split; [lia | done].
Qed.

(** What [skipelem] leaves is empty when no element is left. *)
Lemma skipelem_rest path :
  match skipelem path with Some (path', _) => FsSys.elements path' = [] -> path' = [] | None => True end.
Proof.
  unfold skipelem. destruct (skip_slashes path) as [|c p]; [done |]. set (q := drop _ _). cbv iota.
  pose proof (skip_slashes_head q) as Hh. pose proof (pieces_elem (skip_slashes q) []) as Hp. unfold FsSys.elements.
  destruct (skip_slashes q) as [|a l] eqn:Eq; [done |]. pose proof (elem_len_pos (a :: l) a l eq_refl Hh) as Hpos. rewrite Hp.
  destruct (elem_len (a :: l)) as [|k]; [lia |]. destruct (drop _ (a :: l)); done.
Qed.

Section tree.
Variable sb : superblock.
Variable ds : Z.
Variable D : Z -> block.

(** Inode [n] as it is on disk. *)
Definition node (n : Z) : inode := get_dinode (D (IBLOCK n sb)) (Mkfs.din_of n).
Definition loaded (x : inode) : inode := get_dinode (D (IBLOCK (i_inum x) sb)) x.

(** An inode that exists and has a name. *)
Definition live (n : Z) : Prop := 0 < n < sb_ninodes sb /\ i_type (node n) <> 0 /\ i_nlink (node n) <> 0.

(** Directories are in order, and their entries lead to inodes that exist. *)
Definition tree_ok : Prop :=
  forall n, live n -> i_type (node n) = T_DIR ->
    Dir.directory sb ds D (node n) /\
    forall name k e, Dir.find name (Dir.listing D (node n)) = Some (k, e) -> live e.1.

(** The inode a list of names leads to, or with [parent] the directory in which the last name is. *)
Fixpoint walk (parent : bool) (n : Z) (names : list (list Z)) : option Z :=
  match names with
  | [] => if parent then None else Some n
  | e :: es => if i_type (node n) =? T_DIR
               then if parent && match es with [] => true | _ => false end then Some n
                    else match Dir.find e (Dir.listing D (node n)) with Some (_, (n', _)) => walk parent n' es | None => None end
               else None
  end.

(** The cache: at most one entry per inode, none locked, and contents that were read agree with the disk. *)
Record entry_ok (x : inode) : Prop := {
  eo_dev : i_dev x = ROOTDEV;
  eo_live : live (i_inum x);
  eo_valid : i_valid x = true -> loaded x = x
}.
Record cache_ok (c : nat -> inode) : Prop := {
  co_uniq : icache_ok c;
  co_free : forall i, (i < NINODE)%nat -> Sleep.slocked (i_lock (c i)) = false;
  co_entry : forall i, (i < NINODE)%nat -> 0 < i_ref (c i) -> entry_ok (c i)
}.

(** A locked directory is the one on disk. *)
Lemma loaded_node x : i_type (loaded x) = i_type (node (i_inum x)) /\ i_size (loaded x) = i_size (node (i_inum x)) /\
  i_addrs (loaded x) = i_addrs (node (i_inum x)) /\ i_nlink (loaded x) = i_nlink (node (i_inum x)).
Proof. done. Qed.

Lemma directory_same x y :
  i_dev y = i_dev x -> i_inum y = i_inum x -> i_type y = i_type x -> i_size y = i_size x -> i_addrs y = i_addrs x ->
  Dir.directory sb ds D x -> Dir.directory sb ds D y /\ Dir.listing D y = Dir.listing D x.
Proof.
  intros E1 E2 E3 E4 E5 [[R1 R2 R3 R4 R5 R6] Ht Hw]. unfold Dir.listing. rewrite E4, E5. split; [| done].
  split; [split | |]; rewrite ?E1, ?E2, ?E3, ?E4, ?E5; done.
Qed.
End tree.

(** ** Locking, looking up, releasing *)

Section ops.
Context {S : Type} `{BlockStoreLaws S}.
Implicit Types (s : fstate S).
Variable g : log.
Variable sb : superblock.
Variable ds : Z.
Context (Hlay : layout g sb ds).
Variable devread : Z -> option (nat -> Z -> M (fstate S) (Z * list Z)).
Variable curpid : Z.
Variable D : Z -> block.

Definition up s (ip : nat) (x : inode) : fstate S := FState (f_log s) (f_sb s) (fupd (icache s) ip x).

Lemma up_tx wr C r Hd s v ip x : ftx g wr C r D Hd s v -> ftx g wr C r D Hd (up s ip x) v.
Proof. apply ftx_icache. Qed.

(** The entry while it is locked: contents read. *)
Definition held (x : inode) : inode := set_ilock (Sleep.SL true curpid) (set_valid true (loaded sb D x)).

Lemma lock_inode_ok s ip : Sleep.slocked (i_lock (icache s ip)) = false ->
  lock_inode curpid ip s = Ok tt (up s ip (set_ilock (Sleep.SL true curpid) (icache s ip))).
Proof.
  intros E. unfold lock_inode, Sleep.acquiresleep. unfold mbind at 1, M_bind at 1, gets. rewrite E. reflexivity.
Qed.

Lemma unlock_inode_ok s ip : unlock_inode ip s = Ok tt (up s ip (set_ilock (Sleep.SL false 0) (icache s ip))).
Proof. reflexivity. Qed.

Lemma ilock_tx wr C r s v ip :
  ftx g wr C r D ∅ s v -> f_sb s = sb -> 0 < i_ref (icache s ip) -> Sleep.slocked (i_lock (icache s ip)) = false ->
  entry_ok sb D (icache s ip) ->
  exists s' v', ilock curpid ip s = Ok tt s' /\ ftx g wr C r D ∅ s' v' /\ f_sb s' = sb /\
    icache s' = fupd (icache s) ip (held (icache s ip)).
Proof.
  intros T Hsb Hr Hl [E1 E2 E3]. set (x := icache s ip) in *. unfold ilock. erewrite bind_ok by reflexivity. fold x.
  rewrite (proj2 (Z.ltb_ge _ _)) by lia. erewrite bind_ok by (by apply lock_inode_ok). fold x. erewrite bind_ok by reflexivity.
  set (s1 := up s ip _). assert (Ex : icache s1 ip = set_ilock (Sleep.SL true curpid) x) by (apply fupd_same). rewrite Ex.
  change (i_valid (set_ilock (Sleep.SL true curpid) x)) with (i_valid x). destruct (i_valid x) eqn:Hv.
  - exists s1, v. split_and!; [done | by apply up_tx | done |]. unfold s1. cbn [icache up]. f_equal. unfold held. rewrite (E3 eq_refl).
    destruct x. simpl in Hv. by subst.
  - destruct E2 as (Hn & Ht & _). destruct (lay_inode _ _ _ Hlay (i_inum x)) as (Hu & _); [lia |]. erewrite bind_ok by reflexivity.
    change (f_sb s1) with (f_sb s). rewrite Hsb. cbn [i_dev i_inum set_ilock]. rewrite E1.
    destruct (bread_tx g _ _ _ _ _ s1 _ _ (up_tx _ _ _ _ _ _ ip _ T) Hu) as (i & s2 & B1 & T2 & B2 & S2 & D2 & _);
      [set_solver | by rewrite size_empty; lia |].
    erewrite bind_ok by exact B1. erewrite bind_ok by reflexivity. rewrite D2.
    set (s3 := up s2 ip (get_dinode (D (IBLOCK (i_inum x) sb)) (icache s2 ip))). erewrite bind_ok by reflexivity. fold s3.
    assert (T3 : ftx g wr C r D ({[IBLOCK (i_inum x) sb]} ∪ ∅) s3 (v_hold (IBLOCK (i_inum x) sb) v)) by (by apply up_tx).
    destruct (brelse_tx g _ _ _ _ _ _ _ i (IBLOCK (i_inum x) sb) T3) as (s4 & B4 & T4 & S4 & _); [set_solver | exact B2 |].
    erewrite bind_ok by exact B4. erewrite bind_ok by reflexivity. erewrite bind_ok by reflexivity.
    assert (E3' : icache s4 ip = set_ilock (Sleep.SL true curpid) (loaded sb D x)).
    { rewrite (proj2 S4). unfold s3. cbn [icache up]. rewrite fupd_same, (proj2 S2), Ex. reflexivity. }
    set (s5 := FState _ _ _).
    assert (E5 : icache s5 = fupd (icache s) ip (held x)).
    { unfold s5. cbn [icache]. unfold held. rewrite E3'. rewrite (proj2 S4). unfold s3. cbn [icache up]. rewrite (proj2 S2). unfold s1. cbn [icache up].
      by rewrite !fupd_fupd. }
    rewrite E5, fupd_same. change (i_type (held x)) with (i_type (node sb D (i_inum x))). rewrite (proj2 (Z.eqb_neq _ _) Ht).
    rewrite union_empty_r_L, difference_diag_L in T4. eexists s5, _. split_and!; [done | | |done].
    + exact (ftx_log g _ _ _ _ _ s4 s5 _ eq_refl T4).
    + unfold s5. cbn [f_sb]. rewrite (proj1 S4). unfold s3. cbn [f_sb up]. rewrite (proj1 S2). exact Hsb.
Qed.

(** The entry after it was released: one reference less. *)
Definition dropped (x : inode) : inode := set_ref (i_ref x - 1) (set_ilock (Sleep.SL false 0) x).

Lemma iunlock_ok s ip : Sleep.slocked (i_lock (icache s ip)) = true -> 1 <= i_ref (icache s ip) ->
  iunlock ip s = Ok tt (up s ip (set_ilock (Sleep.SL false 0) (icache s ip))).
Proof.
  intros Hl Hr. unfold iunlock. erewrite bind_ok by reflexivity. unfold Sleep.holdingsleep. rewrite Hl, (proj2 (Z.ltb_ge _ _)) by lia. apply unlock_inode_ok.
Qed.

(** An entry that is not locked loses a reference. *)
Lemma iput_ok s ip :
  let x := icache s ip in Sleep.slocked (i_lock x) = false -> i_nlink x <> 0 \/ i_valid x = false ->
  iput curpid ip s = Ok tt (up s ip (dropped x)).
Proof.
  intros x Hl Hn. unfold iput. erewrite bind_ok by (by apply lock_inode_ok). fold x.
  set (s2 := up s ip _). assert (E2 : icache s2 ip = set_ilock (Sleep.SL true curpid) x) by (apply fupd_same).
  erewrite bind_ok by reflexivity. rewrite E2. cbn [i_nlink i_valid set_ilock].
  replace (i_valid x && (i_nlink x =? 0)) with false by (destruct Hn as [Hn | ->]; [by rewrite (proj2 (Z.eqb_neq _ _) Hn), andb_false_r | done]).
  erewrite bind_ok by reflexivity. erewrite bind_ok by apply unlock_inode_ok. rewrite E2.
  unfold upd_inode, the_inode, set_inode. erewrite bind_ok by reflexivity. unfold modify, up. cbn [icache f_log f_sb]. rewrite fupd_same.
  unfold s2, up. cbn [icache f_log f_sb]. by rewrite !fupd_fupd.
Qed.

Lemma iunlockput_ok s ip :
  let x := icache s ip in Sleep.slocked (i_lock x) = true -> 1 <= i_ref x -> i_nlink x <> 0 ->
  iunlockput curpid ip s = Ok tt (up s ip (dropped x)).
Proof.
  intros x Hl Hr Hn. unfold iunlockput. erewrite bind_ok by (by apply iunlock_ok). fold x.
  set (s1 := up s ip _). assert (E1 : icache s1 ip = set_ilock (Sleep.SL false 0) x) by (apply fupd_same).
  rewrite (iput_ok s1); rewrite ?E1; [| done | by left]. unfold s1, up. cbn [icache f_log f_sb]. by rewrite fupd_fupd.
Qed.

(** [iget] when an entry is free: the entry of the inode with one more reference, or a fresh one. *)
Lemma iget_step dev n s :
  icache_ok (icache s) -> 1 <= frees (icache s) ->
  exists ip x, iget dev n s = Ok ip (up s ip x) /\ (ip < NINODE)%nat /\ icache_ok (fupd (icache s) ip x) /\ i_dev x = dev /\ i_inum x = n /\
    i_lock x = i_lock (icache s ip) /\
    ((0 < i_ref (icache s ip) /\ i_inum (icache s ip) = n /\ i_dev (icache s ip) = dev /\ x = set_ref (i_ref (icache s ip) + 1) (icache s ip)) \/
     (i_ref (icache s ip) = 0 /\ i_ref x = 1 /\ i_valid x = false)).
Proof.
  intros Hok Hf. pose proof (iget_unique dev n s Hok) as Hu. destruct (frees_some _ Hf) as (k0 & Hk0 & Hr0).
  pose proof (iget_scan_spec NINODE 0 (icache s) dev n None) as Hs. revert Hu. unfold iget. erewrite bind_ok by reflexivity.
  destruct (iget_scan _ _ _ _ _ _) as [k | [k|]].
  - erewrite bind_ok by reflexivity. cbn beta iota. intros (_ & Hok' & _). destruct Hs as (Hk & Hr & Hd & Hn).
    eexists k, _. split; [reflexivity |]. split_and!; try done; [lia | left]. split_and!; done.
  - erewrite bind_ok by reflexivity. cbn beta iota. intros (_ & Hok' & _). destruct Hs as (Hnone & Hk & Hr).
    eexists k, _. split; [reflexivity |]. split_and!; try done; [lia | right]. split_and!; done.
  - destruct Hs as (_ & Hn). by destruct (Hn k0 ltac:(lia)).
Qed.

Lemma refs_upd c i x n : (i < NINODE)%nat ->
  refs (fupd c i x) n = refs c n + ((if i_inum x =? n then i_ref x else 0) - (if i_inum (c i) =? n then i_ref (c i) else 0)).
Proof. apply csum_upd. Qed.

Lemma frees_upd c i x : (i < NINODE)%nat ->
  frees (fupd c i x) = frees c + ((if i_ref x =? 0 then 1 else 0) - (if i_ref (c i) =? 0 then 1 else 0)).
Proof. apply csum_upd. Qed.

(** The entry [ip] may be the only one the lookup holds. *)
Definition alone (c : nat -> inode) (ip : nat) : Z := if i_ref (c ip) =? 1 then 1 else 0.

Lemma held_fields x : i_ref (held x) = i_ref x /\ i_inum (held x) = i_inum x /\ i_dev (held x) = i_dev x /\
  Sleep.slocked (i_lock (held x)) = true /\ i_valid (held x) = true.
Proof. done. Qed.

(** After the directory was released its entry is in order again. *)
Lemma dropped_ok c ip x : cache_ok sb D c -> (ip < NINODE)%nat -> 0 < i_ref (c ip) ->
  i_inum x = i_inum (c ip) -> i_dev x = i_dev (c ip) -> i_valid x = true -> loaded sb D x = x -> 1 <= i_ref x ->
  Sleep.slocked (i_lock (dropped x)) = false /\ (0 < i_ref (dropped x) -> entry_ok sb D (dropped x)).
Proof.
  intros Hc Hip Hr E1 E2 Hv Hl Hrx. split; [done |]. intros _. destruct (co_entry _ _ _ Hc ip Hip Hr) as [Q1 Q2 Q3].
  split; [by rewrite <- Q1 | by rewrite <- E1 in Q2 |]. intros _. rewrite <- Hl at 2. destruct x. reflexivity.
Qed.

Lemma loaded_held x : loaded sb D (held x) = held x.
Proof. reflexivity. Qed.

(** The cache with two entries changed, the entry [ip] released. *)
Lemma release_cache c ip x c2 :
  cache_ok sb D c -> (ip < NINODE)%nat -> 0 < i_ref (c ip) -> icache_ok c2 ->
  (forall j, (j < NINODE)%nat -> j <> ip -> Sleep.slocked (i_lock (c2 j)) = false /\ (0 < i_ref (c2 j) -> entry_ok sb D (c2 j))) ->
  x = c2 ip -> i_inum x = i_inum (c ip) -> i_dev x = i_dev (c ip) -> i_valid x = true -> loaded sb D x = x -> 1 <= i_ref x ->
  cache_ok sb D (fupd c2 ip (dropped x)).
Proof.
  intros Hc Hip Hr Hok Hoth Ex E1 E2 Hv Hl Hrx. destruct (dropped_ok c ip x Hc Hip Hr E1 E2 Hv Hl Hrx) as [Q1 Q2]. split.
  - apply icache_ok_set; [done | done | simpl; lia |]. intros _ j Hj Hne Hrj [F1 F2]. apply Hne.
    apply (ic_uniq _ Hok); try done; [rewrite <- Ex; lia | |]; rewrite <- Ex; done.
  - intros j Hj. unfold fupd. case_decide; [done | by apply Hoth].
  - intros j Hj. unfold fupd. case_decide; [done | by apply Hoth].
Qed.

Lemma held_cache_ok c ip : icache_ok c -> (ip < NINODE)%nat -> icache_ok (fupd c ip (held (c ip))).
Proof.
  intros Hok Hip. apply icache_ok_set; [done | done | apply (ic_ref _ Hok); done |]. intros Hr j Hj Hne Hrj [F1 F2]. apply Hne.
  by apply (ic_uniq _ Hok).
Qed.

(** What a step of the lookup leaves: the cache in order, with the references of [n] to [-1] and of [t] to [+1]. *)
Record moved (c c' : nat -> inode) (n : Z) (t : option Z) : Prop := {
  mv_ok : cache_ok sb D c';
  mv_refs : forall m, refs c' m = refs c m - (if n =? m then 1 else 0) + (match t with Some t => if t =? m then 1 else 0 | None => 0 end)
}.

(** The directory [ip], locked, is given up. *)
Lemma drop_dir wr C r s v c ip :
  cache_ok sb D c -> (ip < NINODE)%nat -> 0 < i_ref (c ip) -> icache s = fupd c ip (held (c ip)) ->
  ftx g wr C r D ∅ s v ->
  exists s', iunlockput curpid ip s = Ok tt s' /\ ftx g wr C r D ∅ s' v /\ f_sb s' = f_sb s /\ moved c (icache s') (i_inum (c ip)) None.
Proof.
  intros Hc Hip Hr Ec T. destruct (co_entry _ _ _ Hc ip Hip Hr) as [Q1 Q2 Q3].
  assert (Ex : icache s ip = held (c ip)) by (rewrite Ec; apply fupd_same).
  eexists. split; [apply iunlockput_ok; rewrite Ex; [done | simpl; lia | apply Q2] |]. split_and!; [by apply up_tx | done |].
  cbn [icache up]. rewrite Ex, Ec. split.
  - apply (release_cache c); try done; [exact (held_cache_ok c ip (co_uniq _ _ _ Hc) Hip) | | by rewrite fupd_same | simpl; lia].
    intros j Hj Hne. rewrite fupd_other by done. split; [by apply (co_free _ _ _ Hc) | by apply (co_entry _ _ _ Hc)].
  - intros m. rewrite fupd_fupd, refs_upd by done. simpl. destruct (_ =? m); lia.
Qed.

(** The locked directory after [iget] took entry [k], which may be the same. *)
Lemma iget_keeps c ip k x t :
  0 < i_ref (c ip) -> let c1 := fupd c ip (held (c ip)) in
  (0 < i_ref (c1 k) /\ i_inum (c1 k) = t /\ i_dev (c1 k) = ROOTDEV /\ x = set_ref (i_ref (c1 k) + 1) (c1 k)) \/
  (i_ref (c1 k) = 0 /\ i_ref x = 1 /\ i_valid x = false) ->
  let y := fupd c1 k x ip in
  i_ref y = i_ref (c ip) + (if decide (k = ip) then 1 else 0) /\ i_inum y = i_inum (c ip) /\ i_dev y = i_dev (c ip) /\
  i_valid y = true /\ loaded sb D y = y /\ Sleep.slocked (i_lock y) = true.
Proof.
  intros Hr c1 Hcase y. unfold y. destruct (decide (k = ip)) as [-> | Hne].
  - rewrite fupd_same. unfold c1 in Hcase. rewrite fupd_same in Hcase. destruct Hcase as [(_ & _ & _ & ->) | (Hz & _)]; [done |].
    exfalso. revert Hz. simpl. lia.
  - rewrite fupd_other by done. unfold c1. rewrite fupd_same. split_and!; try done. simpl. lia.
Qed.

(** The other entries are in order. *)
Lemma iget_others c ip k x t :
  cache_ok sb D c -> (k < NINODE)%nat -> live sb D t -> i_dev x = ROOTDEV -> i_inum x = t -> let c1 := fupd c ip (held (c ip)) in
  i_lock x = i_lock (c1 k) ->
  (0 < i_ref (c1 k) /\ i_inum (c1 k) = t /\ i_dev (c1 k) = ROOTDEV /\ x = set_ref (i_ref (c1 k) + 1) (c1 k)) \/
  (i_ref (c1 k) = 0 /\ i_ref x = 1 /\ i_valid x = false) ->
  forall j, (j < NINODE)%nat -> j <> ip ->
    Sleep.slocked (i_lock (fupd c1 k x j)) = false /\ (0 < i_ref (fupd c1 k x j) -> entry_ok sb D (fupd c1 k x j)).
Proof.
  intros Hc Hk Ht Hxd Hxn c1 Hxl Hcase j Hj Hne. destruct (decide (j = k)) as [-> | Hjk].
  - rewrite fupd_same. unfold c1 in Hcase, Hxl. rewrite fupd_other in Hcase, Hxl by done. rewrite Hxl.
    split; [by apply (co_free _ _ _ Hc) |]. intros _. destruct Hcase as [(Hr0 & _ & _ & ->) | (Hz & H1 & Hv)].
    + destruct (co_entry _ _ _ Hc k Hj Hr0) as [R1 R2 R3]. split; try done. intros Hv.
      change (set_ref (i_ref (c k) + 1) (loaded sb D (c k)) = set_ref (i_ref (c k) + 1) (c k)). by rewrite (R3 Hv).
    + split; [done | by rewrite Hxn | by rewrite Hv].
  - unfold c1. rewrite !fupd_other by done. split; [by apply (co_free _ _ _ Hc) | by apply (co_entry _ _ _ Hc)].
Qed.

(** What the sums become when entry [k] is taken for [t] and the entry [ip] released. *)
Lemma follow_sums c ip k x t (c1 := fupd c ip (held (c ip))) (y := fupd c1 k x ip) :
  (ip < NINODE)%nat -> (k < NINODE)%nat -> 0 < i_ref (c ip) -> 0 <= i_ref (c k) ->
  i_ref x = i_ref (c k) + 1 -> i_inum x = t -> (0 < i_ref (c k) -> i_inum (c k) = t) ->
  i_ref y = i_ref (c ip) + (if decide (k = ip) then 1 else 0) -> i_inum y = i_inum (c ip) ->
  (forall m, refs (fupd (fupd c1 k x) ip (dropped y)) m = refs c m - (if i_inum (c ip) =? m then 1 else 0) + (if t =? m then 1 else 0)) /\
  frees (fupd (fupd c1 k x) ip (dropped y)) =
    frees c + (if i_ref (c ip) + (if decide (k = ip) then 1 else 0) =? 1 then 1 else 0) - (if i_ref (c k) =? 0 then 1 else 0).
Proof.
  intros Hip Hk Hr Hk0 Hxr Hxn Hkt Hy1 Hy2. assert (Hc1 : i_inum (c1 k) = i_inum (c k) /\ i_ref (c1 k) = i_ref (c k)).
  { unfold c1, fupd. case_decide; subst; done. }
  destruct Hc1 as [Hn1 Hr1]. destruct (held_fields (c ip)) as (Eh1 & Eh2 & _). split.
  - intros m. rewrite !refs_upd by done. fold y. change (i_inum (dropped y)) with (i_inum y). change (i_ref (dropped y)) with (i_ref y - 1).
    rewrite Hn1, Hr1, Hy1, Hxr, Hxn, Hy2.
    replace (refs c1 m) with (refs c m) by (unfold c1; rewrite refs_upd, Eh1, Eh2 by done; lia).
    destruct (Z.eqb_spec (i_inum (c k)) m), (Z.eqb_spec t m), (i_inum (c ip) =? m); lia.
  - rewrite !frees_upd by done. fold y. change (i_ref (dropped y)) with (i_ref y - 1). rewrite Hr1, Hxr, Hy1.
    replace (frees c1) with (frees c) by (unfold c1; rewrite frees_upd, Eh1 by done; lia).
    repeat match goal with |- context [?a =? ?b] => destruct (Z.eqb_spec a b) end; destruct (decide (k = ip)); lia.
Qed.

(** The inode [t] found in [ip] is taken and the directory released. *)
Lemma follow wr C r s v c ip t :
  cache_ok sb D c -> (ip < NINODE)%nat -> 0 < i_ref (c ip) -> icache s = fupd c ip (held (c ip)) ->
  ftx g wr C r D ∅ s v -> live sb D t -> 2 <= frees c + alone c ip ->
  exists next s1 s', iget ROOTDEV t s = Ok next s1 /\ iunlockput curpid ip s1 = Ok tt s' /\ ftx g wr C r D ∅ s' v /\ f_sb s' = f_sb s /\
    moved c (icache s') (i_inum (c ip)) (Some t) /\ (next < NINODE)%nat /\ 0 < i_ref (icache s' next) /\ i_inum (icache s' next) = t /\
    2 <= frees (icache s') + alone (icache s') next.
Proof.
  intros Hc Hip Hr Ec T Ht Hf. destruct (co_entry _ _ _ Hc ip Hip Hr) as [Q1 Q2 Q3]. pose proof (co_uniq _ _ _ Hc) as Hok.
  destruct (iget_step ROOTDEV t s) as (k & x & E1 & Hk & Hok1 & Hxd & Hxn & Hxl & Hcase).
  { rewrite Ec. by apply held_cache_ok. }
  { rewrite Ec, frees_upd, (proj1 (held_fields _)) by done. unfold alone in Hf. destruct (_ =? 1); lia. }
  rewrite Ec in Hcase, Hok1, Hxl. set (s1 := up s k x) in *. set (c1 := fupd c ip (held (c ip))) in *. set (y := fupd c1 k x ip).
  assert (Ec1 : icache s1 = fupd c1 k x) by (unfold s1; cbn [icache up]; by rewrite Ec).
  destruct (iget_keeps c ip k x t Hr Hcase) as (Hy1 & Hy2 & Hy3 & Hy4 & Hy5 & Hy6). fold c1 y in Hy1, Hy2, Hy3, Hy4, Hy5, Hy6.
  pose proof (iget_others c ip k x t Hc Hk Ht Hxd Hxn Hxl Hcase) as Hnext. fold c1 in Hnext.
  assert (Hr1 : 1 <= i_ref y) by (destruct (decide (k = ip)); lia).
  assert (Hyn : i_nlink y <> 0) by (rewrite <- Hy5; change (i_nlink (node sb D (i_inum y)) <> 0); rewrite Hy2; apply Q2).
  assert (Hxr : i_ref x = i_ref (c k) + 1 /\ (0 < i_ref (c k) -> i_inum (c k) = t)).
  { assert (i_inum (c1 k) = i_inum (c k) /\ i_ref (c1 k) = i_ref (c k)) as [Hn1 Hr1'] by (unfold c1, fupd; case_decide; subst; done).
    destruct Hcase as [(B1 & B2 & _ & ->) | (B1 & B2 & _)]; [rewrite Hn1 in B2; simpl; split; [lia | done] | lia]. }
  destruct Hxr as [Hxr Hkt]. assert (Hk0 : 0 <= i_ref (c k)) by (by apply (ic_ref _ Hok)).
  destruct (follow_sums c ip k x t Hip Hk Hr Hk0 Hxr Hxn Hkt Hy1 Hy2) as [Hrefs Hfrees]. fold c1 y in Hrefs, Hfrees.
  eexists k, s1, _. split; [exact E1 |]. split; [apply iunlockput_ok; rewrite Ec1; done |]. rewrite Ec1. fold y.
  split; [do 2 apply up_tx; done |]. split; [done |]. cbn [icache up]. rewrite Ec1.
  assert (Hk' : fupd (fupd c1 k x) ip (dropped y) k = if decide (k = ip) then dropped y else x) by (unfold fupd; by repeat case_decide).
  unfold alone in *. rewrite Hk', Hfrees. split; [split; [by apply (release_cache c) | done] |]. split; [done |]. split_and!.
  - destruct (decide (k = ip)); [simpl in *; lia | lia].
  - destruct (decide (k = ip)) as [-> | Hne]; [| done]. change (i_inum y = t). rewrite Hy2. by apply Hkt.
  - destruct (decide (k = ip)) as [-> | Hne]; cbn [i_ref dropped set_ref]; rewrite ?Hxr, ?Hy1;
      repeat match goal with |- context [?a =? ?b] => destruct (Z.eqb_spec a b) | H : context [?a =? ?b] |- _ => destruct (Z.eqb_spec a b) end; lia.
Qed.

(** An entry replaced by one for the same inode: [cache_ok] entry by entry. *)
Lemma cache_ok_set c ip x :
  cache_ok sb D c -> (ip < NINODE)%nat -> 0 < i_ref (c ip) -> i_inum x = i_inum (c ip) -> i_dev x = i_dev (c ip) -> 0 <= i_ref x ->
  Sleep.slocked (i_lock x) = false -> (i_valid x = true -> loaded sb D x = x) -> cache_ok sb D (fupd c ip x).
Proof.
  intros Hc Hip Hr E1 E2 Hrx Hl Hv. destruct (co_entry _ _ _ Hc ip Hip Hr) as [Q1 Q2 Q3]. pose proof (co_uniq _ _ _ Hc) as Hok. split.
  - apply icache_ok_set; [done | done | done |]. intros _ j Hj Hne Hrj [F1 F2]. apply Hne. apply (ic_uniq _ Hok); congruence.
  - intros j Hj. unfold fupd. case_decide; [done | by apply (co_free _ _ _ Hc)].
  - intros j Hj. unfold fupd. case_decide; [| by apply (co_entry _ _ _ Hc)]. intros _. split; [congruence | by rewrite E1 | done].
Qed.

(** The reference to [ip], not locked, is given back. *)
Lemma put_back wr C r s v ip :
  cache_ok sb D (icache s) -> (ip < NINODE)%nat -> 0 < i_ref (icache s ip) -> ftx g wr C r D ∅ s v ->
  exists s', iput curpid ip s = Ok tt s' /\ ftx g wr C r D ∅ s' v /\ f_sb s' = f_sb s /\ moved (icache s) (icache s') (i_inum (icache s ip)) None.
Proof.
  intros Hc Hip Hr T. destruct (co_entry _ _ _ Hc ip Hip Hr) as [Q1 Q2 Q3]. eexists. split.
  { apply iput_ok; [by apply (co_free _ _ _ Hc) |]. destruct (i_valid _) eqn:Hv; [left | by right]. rewrite <- (Q3 eq_refl). apply Q2. }
  split_and!; [by apply up_tx | done |]. cbn [icache up]. split.
  - apply cache_ok_set; try done; [simpl; lia |]. intros Hv. change (dropped (loaded sb D (icache s ip)) = dropped (icache s ip)). by rewrite (Q3 Hv).
  - intros m. rewrite refs_upd by done. simpl. destruct (_ =? m); lia.
Qed.

(** The directory [ip] is unlocked and kept. *)
Lemma keep wr C r s v c ip :
  cache_ok sb D c -> (ip < NINODE)%nat -> 0 < i_ref (c ip) -> icache s = fupd c ip (held (c ip)) -> ftx g wr C r D ∅ s v ->
  exists s', iunlock ip s = Ok tt s' /\ ftx g wr C r D ∅ s' v /\ f_sb s' = f_sb s /\ moved c (icache s') (i_inum (c ip)) (Some (i_inum (c ip))) /\
    i_ref (icache s' ip) = i_ref (c ip) /\ i_inum (icache s' ip) = i_inum (c ip).
Proof.
  intros Hc Hip Hr Ec T. assert (Ex : icache s ip = held (c ip)) by (rewrite Ec; apply fupd_same).
  eexists. split; [apply iunlock_ok; rewrite Ex; [done | simpl; lia] |]. split; [by apply up_tx |]. split; [done |].
  cbn [icache up]. rewrite Ex, Ec, fupd_fupd, fupd_same. split; [split | done].
  - apply cache_ok_set; try done. simpl. lia.
  - intros m. rewrite refs_upd by done. simpl. destruct (_ =? m); lia.
Qed.

Lemma moved_trans c c1 c2 n t u : moved c c1 n (Some t) -> moved c1 c2 t u -> moved c c2 n u.
Proof. intros [_ R1] [O2 R2]. split; [done |]. intros m. rewrite R2, R1. lia. Qed.

(** How the lookup of the inode [t] from inode [n] ends. *)
Definition reaches (c : nat -> inode) (n : Z) (t : option Z) (o : option nat) s' : Prop :=
  moved c (icache s') n t /\
  match t with
  | Some t => exists ip, o = Some ip /\ (ip < NINODE)%nat /\ 0 < i_ref (icache s' ip) /\ i_inum (icache s' ip) = t
  | None => o = None
  end.

Lemma directory_held x : tree_ok sb ds D -> live sb D (i_inum x) -> i_dev x = ROOTDEV -> i_type (node sb D (i_inum x)) = T_DIR ->
  Dir.directory sb ds D (held x) /\ Dir.listing D (held x) = Dir.listing D (node sb D (i_inum x)).
Proof. intros Ht Hl Hd Hty. destruct (Ht _ Hl Hty) as [Hdir _]. by apply directory_same. Qed.

(** The end of the path. *)
Lemma namex_end wr C r (parent : bool) (name : list Z) s v ip :
  ftx g wr C r D ∅ s v -> f_sb s = sb -> cache_ok sb D (icache s) -> (ip < NINODE)%nat -> 0 < i_ref (icache s ip) ->
  exists o nm s' v', (if parent then iput curpid ip ;; mret (None, name) else mret (Some ip, name) : M (fstate S) (option nat * list Z)) s = Ok (o, nm) s' /\
    ftx g wr C r D ∅ s' v' /\ f_sb s' = sb /\ reaches (icache s) (i_inum (icache s ip)) (walk sb D parent (i_inum (icache s ip)) []) o s' /\
    (parent = true -> o <> None -> list.last ([] : list (list Z)) = Some nm).
Proof.
  intros T Hsb Hc Hip Hr. destruct parent.
  - destruct (put_back wr C r s v ip Hc Hip Hr T) as (s' & E & T' & Hsb' & M). erewrite bind_ok by exact E.
    eexists None, name, s', v. split_and!; [done | done | congruence | by split | done].
  - exists (Some ip), name, s, v. split_and!; [done | done | done | | done]. split; [| by exists ip]. split; [done |]. intros m. cbn. lia.
Qed.

Lemma namex_loop_tx (Ht : tree_ok sb ds D) wr C r parent fuel : forall path name s v ip,
  (length path < fuel)%nat -> ftx g wr C r D ∅ s v -> f_sb s = sb -> cache_ok sb D (icache s) ->
  (ip < NINODE)%nat -> 0 < i_ref (icache s ip) -> 2 <= frees (icache s) + alone (icache s) ip ->
  exists o nm s' v', namex_loop devread curpid fuel path name parent ip s = Ok (o, nm) s' /\ ftx g wr C r D ∅ s' v' /\ f_sb s' = sb /\
    reaches (icache s) (i_inum (icache s ip)) (walk sb D parent (i_inum (icache s ip)) (take DIRSIZ <$> FsSys.elements path)) o s' /\
    (parent = true -> o <> None -> list.last (take DIRSIZ <$> FsSys.elements path) = Some nm).
Proof.
  induction fuel as [|f IH]; intros path name s v ip Hf T Hsb Hc Hip Hr Hfr; [lia |]. cbn [namex_loop].
  pose proof (skipelem_elements path) as Hsk. pose proof (skipelem_rest path) as Hrest. destruct (skipelem path) as [[path' name']|].
  2:{ rewrite Hsk. by eapply namex_end. }
  destruct Hsk as (e & es & -> & -> & <- & Hlt). rewrite fmap_cons. set (x := icache s ip) in *. cbn [walk].
  replace (match take DIRSIZ <$> FsSys.elements path' with [] => true | _ => false end) with (match path' with [] => true | _ => false end)
    by (destruct path'; [done |]; by destruct (FsSys.elements _); [exfalso; by discriminate Hrest |]). clear Hrest.
  pose proof (co_entry _ _ _ Hc ip Hip Hr) as Hx. destruct (Hx) as [Q1 Q2 Q3].
  destruct (ilock_tx wr C r s v ip T Hsb Hr (co_free _ _ _ Hc ip Hip) Hx) as (s1 & v1 & E1 & T1 & Hsb1 & Ec1). fold x in Ec1.
  erewrite bind_ok by exact E1. erewrite bind_ok by reflexivity.
  assert (Ex1 : icache s1 ip = held x) by (rewrite Ec1; apply fupd_same). rewrite Ex1.
  change (i_type (held x)) with (i_type (node sb D (i_inum x))). destruct (Z.eqb_spec (i_type (node sb D (i_inum x))) T_DIR) as [Hty | Hty]; cbn [negb].
  2:{ destruct (drop_dir wr C r s1 v1 (icache s) ip Hc Hip Hr Ec1 T1) as (s2 & E2 & T2 & Hsb2 & M2). erewrite bind_ok by exact E2.
      eexists None, _, s2, v1. split_and!; [done | done | congruence | by split | done]. }
  destruct (parent && _) eqn:Hlast.
  { destruct (keep wr C r s1 v1 (icache s) ip Hc Hip Hr Ec1 T1) as (s2 & E2 & T2 & Hsb2 & M2 & R2 & I2). erewrite bind_ok by exact E2.
    eexists (Some ip), _, s2, v1. split_and!; [done | done | congruence | |].
    - split; [done |]. exists ip. rewrite R2. done.
    - intros _ _. apply andb_true_iff in Hlast as [_ Hlast]. by destruct path'. }
  destruct (directory_held x Ht Q2 Q1 Hty) as [Hdir Hls].
  destruct (Dir.dirlookup_tx g sb ds Hlay devread wr C r D s1 v1 ip (take DIRSIZ e) T1) as (s2 & v2 & E2 & T2 & S2); [by rewrite Ex1 |].
  rewrite Ex1, Hls in E2. assert (Ec2 : icache s2 = fupd (icache s) ip (held x)) by (rewrite <- Ec1; apply S2).
  destruct (Dir.find _ _) as [[k [t nm]]|] eqn:Hfind; cbn [Dir.found] in E2.
  2:{ destruct (drop_dir wr C r s2 v2 (icache s) ip Hc Hip Hr Ec2 T2) as (s3 & E3 & T3 & Hsb3 & M3). erewrite bind_ok by exact E2. cbv iota.
      erewrite bind_ok by exact E3. eexists None, _, s3, v2. split_and!; [done | done | rewrite Hsb3, (proj1 S2); done | by split | done]. }
  destruct (follow wr C r s2 v2 (icache s) ip t Hc Hip Hr Ec2 T2) as (next & s3 & s4 & E3 & E4 & T4 & Hsb4 & M4 & Hn4 & Hr4 & Hi4 & Hf4);
    [exact (proj2 (Ht _ Q2 Hty) _ _ _ Hfind) | done |].
  erewrite bind_ok. 2:{ rewrite E2. cbn beta iota. erewrite bind_ok by exact E3. reflexivity. } cbv iota. erewrite bind_ok by exact E4.
  destruct (IH path' (take DIRSIZ e) s4 v2 next) as (o & nm' & s5 & v5 & E5 & T5 & Hsb5 & [M5 R5] & L5); try done; [lia | | apply M4 |].
  { rewrite Hsb4, (proj1 S2). done. }
  rewrite Hi4 in M5, R5. exists o, nm', s5, v5. split_and!; [done | done | done | |].
  - split; [by eapply moved_trans | done].
  - intros Hp Ho. specialize (L5 Hp Ho). destruct (take DIRSIZ <$> FsSys.elements path'); [done | exact L5].
Qed.

(** Where the lookup begins. *)
Definition origin s (curcwd : nat) (path : list Z) : Z :=
  if bool_decide (head path = Some slash) then ROOTINO else i_inum (icache s curcwd).

(** The reference with which the lookup begins. *)
Lemma start_tx wr C r s v curcwd path :
  ftx g wr C r D ∅ s v -> cache_ok sb D (icache s) -> 2 <= frees (icache s) -> live sb D ROOTINO ->
  (curcwd < NINODE)%nat -> 0 < i_ref (icache s curcwd) ->
  exists ip s1, (if bool_decide (head path = Some slash) then iget ROOTDEV ROOTINO else idup curcwd) s = Ok ip s1 /\
    ftx g wr C r D ∅ s1 v /\ f_sb s1 = f_sb s /\ cache_ok sb D (icache s1) /\ (ip < NINODE)%nat /\ 0 < i_ref (icache s1 ip) /\
    i_inum (icache s1 ip) = origin s curcwd path /\ 2 <= frees (icache s1) + alone (icache s1) ip /\
    forall m, refs (icache s1) m = refs (icache s) m + (if origin s curcwd path =? m then 1 else 0).
Proof.
  intros T Hc Hf Hroot Hcw Hcr. unfold origin. pose proof (co_uniq _ _ _ Hc) as Hok. destruct (bool_decide _).
  - destruct (iget_step ROOTDEV ROOTINO s Hok) as (k & x & E & Hk & Hok1 & Hxd & Hxn & Hxl & Hcase); [lia |].
    pose proof (ic_ref _ Hok k Hk) as Hk0. exists k, (up s k x). cbn [icache up f_sb]. unfold alone. rewrite fupd_same.
    split_and!; [exact E | by apply up_tx | done | | done | destruct Hcase as [(? & _ & _ & ->) | (? & ? & _)]; simpl; lia | done | |].
    + split; [done | |]; intros j Hj; unfold fupd; case_decide; subst; [by rewrite Hxl; apply (co_free _ _ _ Hc) | by apply (co_free _ _ _ Hc) | |
        by apply (co_entry _ _ _ Hc)]. intros _. destruct Hcase as [(Hr0 & _ & _ & ->) | (_ & _ & Hv)]; [| split; [done | by rewrite Hxn | by rewrite Hv]].
      destruct (co_entry _ _ _ Hc k Hk Hr0) as [R1 R2 R3]. split; try done. intros Hv.
      change (set_ref (i_ref (icache s k) + 1) (loaded sb D (icache s k)) = set_ref (i_ref (icache s k) + 1) (icache s k)). by rewrite (R3 Hv).
    + rewrite frees_upd by done. destruct Hcase as [(Hr0 & _ & _ & ->) | (-> & -> & _)]; simpl; [| lia].
      repeat match goal with |- context [?a =? ?b] => destruct (Z.eqb_spec a b) end; lia.
    + intros m. rewrite refs_upd, Hxn by done. destruct Hcase as [(Hr0 & -> & _ & ->) | (Hz & -> & _)]; cbn [i_ref set_ref];
        [| rewrite Hz]; repeat match goal with |- context [?a =? m] => destruct (a =? m) end; lia.
  - set (y := icache s curcwd) in *. exists curcwd, (up s curcwd (set_ref (i_ref y + 1) y)). cbn [icache up f_sb]. unfold alone. rewrite fupd_same.
    split_and!; [done | by apply up_tx | done | | done | simpl; lia | done | |].
    + apply cache_ok_set; try done; [simpl; lia | by apply (co_free _ _ _ Hc) |]. intros Hv. destruct (co_entry _ _ _ Hc curcwd Hcw Hcr) as [_ _ R3].
      change (set_ref (i_ref y + 1) (loaded sb D y) = set_ref (i_ref y + 1) y). unfold y. by rewrite (R3 Hv).
    + rewrite frees_upd by done. simpl. fold y. repeat match goal with |- context [?a =? ?b] => destruct (Z.eqb_spec a b) end; lia.
    + intros m. rewrite refs_upd by done. simpl. fold y. destruct (_ =? m); lia.
Qed.
End ops.

(** The whole lookup. *)
Lemma namex_ok {S : Type} `{BlockStoreLaws S} (g : log) (sb : superblock) (ds : Z)
    (devread : Z -> option (nat -> Z -> M (fstate S) (Z * list Z))) (curpid : Z) (curcwd : nat)
    (wr : bool) (C : gset Z) (r : Z) (D : Z -> block) (s : fstate S) (v : bview) (path : list Z) (parent : bool) :
  layout g sb ds -> ftx g wr C r D ∅ s v -> f_sb s = sb -> tree_ok sb ds D -> cache_ok sb D (icache s) ->
  2 <= frees (icache s) -> live sb D ROOTINO -> (curcwd < NINODE)%nat -> 0 < i_ref (icache s curcwd) ->
  let names := take DIRSIZ <$> FsSys.elements path in
  let target := walk sb D parent (origin s curcwd path) names in
  exists o name s' v',
    namex devread curpid curcwd path parent s = Ok (o, name) s' /\ ftx g wr C r D ∅ s' v' /\ f_sb s' = sb /\
    cache_ok sb D (icache s') /\
    match target with
    | Some t => exists ip, o = Some ip /\ (ip < NINODE)%nat /\ 0 < i_ref (icache s' ip) /\ i_inum (icache s' ip) = t
    | None => o = None
    end /\
    (parent = true -> o <> None -> list.last names = Some name) /\
    forall n, refs (icache s') n = refs (icache s) n + (if bool_decide (target = Some n) then 1 else 0).
Proof.
  intros L T Hsb Ht Hc Hf Hroot Hcw Hcr names target. unfold namex.
  destruct (start_tx g sb D wr C r s v curcwd path T Hc Hf Hroot Hcw Hcr) as (ip & s1 & E1 & T1 & Hsb1 & Hc1 & Hip & Hr1 & Hn1 & Hf1 & R1).
  erewrite bind_ok by exact E1.
  destruct (namex_loop_tx g sb ds L devread curpid D Ht wr C r parent (Datatypes.S (length path)) path [] s1 v ip)
    as (o & name & s' & v' & E & T' & Hsb' & [[Hc' R'] Ho] & Hl); [lia | done | congruence | done | done | done | done |].
  rewrite Hn1 in R', Ho. fold names target in R', Ho. exists o, name, s', v'. split_and!; try done.
  intros n. rewrite R', R1. destruct target as [t|]; [| rewrite bool_decide_eq_false_2 by done; lia].
  destruct (Z.eqb_spec t n) as [-> | Hne]; [rewrite bool_decide_eq_true_2 by done | rewrite bool_decide_eq_false_2 by congruence]; lia.
Qed.

(** ** The disk mkfs makes *)

Lemma file_entry_inum : forall names i e, e ∈ Mkfs.file_entries i names -> i <= e.1 < i + Z.of_nat (length names).
Proof.
  induction names as [|n ns IH]; intros i e; cbn [Mkfs.file_entries length]; [by intros ?%not_elem_of_nil |].
  intros [-> | He]%elem_of_cons; [simpl; lia |]. apply IH in He. lia.
Qed.

Lemma formatted_tree d names files used : length files = length names -> Z.of_nat (length names) <= 198 ->
  Mkfs.formatted d (Mkfs.root_entries names) files used ->
  tree_ok Mkfs.super Mkfs.first_data d /\ live Mkfs.super d ROOTINO.
Proof.
  intros Hl Hn [_ _ _ _ (Hdir & Hnl & k & Hls) Hfile _ Hfree].
  assert (Hroot : live Mkfs.super d ROOTINO).
  { split; [done |]. split; [change (i_type (Mkfs.disk_inode d ROOTINO) <> 0); by rewrite (Dir.dr_type _ _ _ _ Hdir) |].
    change (i_nlink (Mkfs.disk_inode d ROOTINO) <> 0). by rewrite Hnl. }
  assert (Hlive : forall i, 2 <= i < 2 + Z.of_nat (length files) -> live Mkfs.super d i /\ i_type (node Mkfs.super d i) = T_FILE).
  { intros i Hi. destruct (lookup_lt_is_Some_2 files (Z.to_nat (i - 2))) as [c Hc]; [lia |].
    destruct (Hfile _ _ Hc) as (_ & Ht & Hln & _). rewrite Z2Nat.id in Ht, Hln by lia. replace (i - 2 + 2) with i in Ht, Hln by lia.
    split; [| done]. split; [change (sb_ninodes Mkfs.super) with 200; lia |]. unfold node. change (get_dinode _ _) with (Mkfs.disk_inode d i). by rewrite Ht, Hln. }
  split; [| done]. intros n (Hr & Ht & _) Hty. change (sb_ninodes Mkfs.super) with 200 in Hr.
  assert (n = ROOTINO) as ->.
  { destruct (decide (n < 2)) as [? | H2]; [unfold ROOTINO; lia |]. destruct (decide (n < 2 + Z.of_nat (length files))) as [H3 | H3].
    - destruct (Hlive n) as [_ Hf]; [lia |]. by rewrite Hf in Hty.
    - exfalso. apply Ht. change (s16 (get16 (d (IBLOCK n Mkfs.super)) (din_off n)) = 0). rewrite (Hfree n); [done | lia]. }
  split; [done |]. intros name i e Hf. change (Dir.listing d (node Mkfs.super d ROOTINO)) with (Dir.listing d (Mkfs.disk_inode d ROOTINO)) in Hf.
  rewrite Hls in Hf. apply list_find_Some in Hf as (Hi & [Hne _] & _). apply list_elem_of_lookup_2 in Hi.
  apply elem_of_app in Hi as [[-> | [-> | Hi%file_entry_inum]%elem_of_cons]%elem_of_cons | [-> _]%elem_of_replicate]; try done. apply Hlive. lia.
Qed.

(** The inode cache at boot: every entry free. *)
Definition boot_cache : nat -> inode := fun _ => Inode 0 0 0 Sleep.initsleeplock false 0 0 0 0 0 [].

(** The first process with the root as its directory. *)
Definition init_cache : nat -> inode := fun i => if decide (i = 0%nat) then Inode ROOTDEV ROOTINO 1 Sleep.initsleeplock false 0 0 0 0 0 [] else boot_cache i.

Lemma init_cache_ok d : live Mkfs.super d ROOTINO -> cache_ok Mkfs.super d init_cache.
Proof.
  intros Hl. split.
  - split; [intros i _; unfold init_cache; by case_decide |]. intros i j _ _. unfold init_cache. repeat case_decide; simpl; try lia; congruence.
  - intros i _. unfold init_cache. by case_decide.
  - intros i _. unfold init_cache. case_decide; simpl; [| lia]. done.
Qed.
End Path.

(** ** Properties *)

(** C18: path lookup finds the inode the directories on disk lead to.  On a disk whose directories
    are in order, with an inode cache in order and two free entries, [namex] ends without panic for
    every path; it gives the cache entry of the inode reached from the root (path that begins with a
    slash) or from the current directory by the elements of the path cut to 14 bytes - or, for the
    parent, the directory that should hold the last element and that element - and nothing exactly
    when an element is missing or is looked up in something that is not a directory.  The inodes on
    the way are all released: every reference count is what it was, with one more for the inode
    returned; the disk is not changed and no inode stays locked. *)
Theorem namex_resolves {S : Type} `{BlockStoreLaws S} (g : log) (sb : superblock) (ds : Z)
    (devread : Z -> option (nat -> Z -> M (fstate S) (Z * list Z))) (curpid : Z) (curcwd : nat)
    (wr : bool) (C : gset Z) (r : Z) (D : Z -> block) (s : fstate S) (v : bview) (path : list Z) (parent : bool) :
  layout g sb ds -> ftx g wr C r D ∅ s v -> f_sb s = sb -> Path.tree_ok sb ds D -> Path.cache_ok sb D (icache s) ->
  2 <= Path.frees (icache s) -> Path.live sb D ROOTINO -> (curcwd < NINODE)%nat -> 0 < i_ref (icache s curcwd) ->
  let names := take DIRSIZ <$> FsSys.elements path in
  let target := Path.walk sb D parent (Path.origin s curcwd path) names in
  exists o name s' v',
    namex devread curpid curcwd path parent s = Ok (o, name) s' /\ ftx g wr C r D ∅ s' v' /\ f_sb s' = sb /\
    Path.cache_ok sb D (icache s') /\
    match target with
    | Some t => exists ip, o = Some ip /\ (ip < NINODE)%nat /\ 0 < i_ref (icache s' ip) /\ i_inum (icache s' ip) = t
    | None => o = None
    end /\
    (parent = true -> o <> None -> list.last names = Some name) /\
    forall n, Path.refs (icache s') n = Path.refs (icache s) n + (if bool_decide (target = Some n) then 1 else 0).
Proof.
  intros L. apply Path.namex_ok, L.
Qed.

(** A lookup of /b on the disk mkfs makes for two files. *)
Lemma namex_resolves_witness :
  exists (s s' : fstate bcache) ip nm, icache s = Path.init_cache /\
    namex (H := bio_store 1) (fun _ => None) 1 0 [slash; 98] false s = Ok (Some ip, nm) s' /\ i_inum (icache s' ip) = 3.
Proof.
  destruct (Mkfs.image_formatted demo_host [[95; 97]; [98]]) as (m & _ & HF); [exact demo_host_usable | done | done | done |].
  set (d := Mkfs.sect m) in *. edestruct (Path.formatted_tree d [[95; 97]; [98]]) as [Ht Hroot]; [| | exact HF |]; [done | done |].
  destruct (boot_on d) as (b & _ & A). set (s := FState (LState (set_out 1 demo_log) b) Mkfs.super Path.init_cache).
  assert (T : ftx (H0 := bio_laws 1) demo_log true ∅ 25 d ∅ s (view_on d)).
  { split; try done. apply linv_set_out. split; [apply demo_geom | done | apply homes_nil, demo_geom | done | done |]. change (length (d 2) = 512%nat /\ hdr_n (d 2) = 0). by rewrite (Mkfs.fm_log _ _ _ _ HF 2). }
  destruct (namex_resolves (H0 := bio_laws 1) demo_log Mkfs.super Mkfs.first_data (fun _ => None) 1 0 true ∅ 25 d s (view_on d) [slash; 98] false)
    as (o & nm & s' & v' & E & _ & _ & _ & Ho & _);
    [exact Mkfs.image_layout | exact T | done | exact Ht | exact (Path.init_cache_ok d Hroot) | by vm_compute | exact Hroot | unfold NINODE; lia | done |].
  assert (W : Path.walk Mkfs.super d false (Path.origin s 0 [slash; 98]) (take DIRSIZ <$> FsSys.elements [slash; 98]) = Some 3).
  { change (take DIRSIZ <$> FsSys.elements [slash; 98]) with [[98]]. change (Path.origin s 0 [slash; 98]) with ROOTINO. cbn [Path.walk andb].
    destruct (Mkfs.fm_root _ _ _ _ HF) as (Hd & _ & n & Hl). change (Path.node Mkfs.super d ROOTINO) with (Mkfs.disk_inode d ROOTINO).
    rewrite (Dir.dr_type _ _ _ _ Hd), Hl. unfold Dir.find. rewrite list_find_app_l with (i := 3%nat) (x := (3, strncpy_l DIRSIZ [98])); done. }
  rewrite W in Ho. destruct Ho as (ip & -> & _ & _ & Hi). exists s, s', ip, nm. by split_and!.
Defined.
