(* ===== verification/File.v ===== *)
(** * file.c: open files, and the kernel state the system calls share

    [world] is what the calls of proc.c reach through the class [Kernel]: the file system, the table
    of open files, the pipes, memory and the page-table registers of the CPUs.  A pipe lives in a
    page of its own; its fields are kept beside memory, by the address of the page.  Channels that a
    call wakes are collected in [woken], oldest first, and delivered to the process table by the
    system call layer.  A call that has to wait ends with [Slept].  At the end of the file the class
    [Kernel] is discharged by the functions of vm.c, kalloc.c, fs.c and file.c. *)
From S2P Require Import Prelude Mem Mmu Kalloc Vm Lock Pipe Ide BlockStore Bytes Log Fs Proc Uaccess.
#[local] Open Scope Z_scope.

Definition NFILE : nat := 100.

Inductive ftype := FD_NONE | FD_PIPE | FD_INODE.

Record file := File {
  f_type : ftype;
  f_ref : Z;
  f_readable : bool;
  f_writable : bool;
  f_pipe : Z;
  f_ip : nat;
  f_off : Z
}.

(** The registers a page-table switch loads: %cr3 and the fields of the task state. *)
Record mmregs := MMRegs { r_cr3 : Z; r_esp0 : Z; r_ss0 : Z; r_iomb : Z }.

Record world (S : Type) := World {
  w_fs : fstate S;
  ftable : nat -> file;
  pipes : Z -> pipe;
  w_mem : kmem;
  w_kpgdir : Z;
  w_regs : nat -> mmregs;
  woken : list chan
}.
Arguments World {S}.
Arguments w_fs {S}.
Arguments ftable {S}.
Arguments pipes {S}.
Arguments w_mem {S}.
Arguments w_kpgdir {S}.
Arguments w_regs {S}.
Arguments woken {S}.

(** Pointers to the entries of the file table and of the inode cache: 0 is the null pointer. *)
Definition ptr (i : nat) : Z := Z.of_nat i + 1.
Definition idx (p : Z) : nat := Z.to_nat (p - 1).

Definition set_fref (r : Z) (f : file) : file :=
  File (f_type f) r (f_readable f) (f_writable f) (f_pipe f) (f_ip f) (f_off f).
Definition set_ftype (t : ftype) (f : file) : file :=
  File t (f_ref f) (f_readable f) (f_writable f) (f_pipe f) (f_ip f) (f_off f).
Definition set_off (o : Z) (f : file) : file :=
  File (f_type f) (f_ref f) (f_readable f) (f_writable f) (f_pipe f) (f_ip f) o.
Definition set_pipe_end (r w : bool) (p : Z) (f : file) : file :=
  File FD_PIPE (f_ref f) r w p (f_ip f) (f_off f).
Definition set_inode_end (r w : bool) (ip : nat) (f : file) : file :=
  File FD_INODE (f_ref f) r w (f_pipe f) ip 0.

Definition zupd {A} (f : Z -> A) (i : Z) (x : A) : Z -> A := fun j => if j =? i then x else f j.

Section code.
Context {S : Type} `{BlockStore S}.
Variable kend kdata : Z.
Variable devread : Z -> option (nat -> Z -> M (fstate S) (Z * list Z)).
Variable devwrite : Z -> option (nat -> list Z -> Z -> M (fstate S) Z).

Notation MW := (M (world S)).

Definition in_fs {A} (m : M (fstate S) A) : MW A :=
  zoom w_fs (fun x w => World x (ftable w) (pipes w) (w_mem w) (w_kpgdir w) (w_regs w) (woken w)) m.
Definition in_kmem {A} (m : M kmem A) : MW A :=
  zoom w_mem (fun x w => World (w_fs w) (ftable w) (pipes w) x (w_kpgdir w) (w_regs w) (woken w)) m.
(** The page-table registers of CPU [c] with the memory they go with. *)
Definition on_cpu {A} (c : nat) (m : M cpumm A) : MW A :=
  zoom (fun w => let r := w_regs w c in
                 CpuMM (w_mem w) (w_kpgdir w) (r_cr3 r) (r_esp0 r) (r_ss0 r) (r_iomb r))
       (fun x w => World (w_fs w) (ftable w) (pipes w) (vm_mem x) (kpgdir x)
                     (fupd (w_regs w) c (MMRegs (cr3 x) (ts_esp0 x) (ts_ss0 x) (ts_iomb x))) (woken w)) m.
Definition the_file (f : Z) : MW file := gets (fun w => ftable w (idx f)).
Definition upd_file (f : Z) (g : file -> file) : MW unit :=
  modify (fun w => World (w_fs w) (fupd (ftable w) (idx f) (g (ftable w (idx f)))) (pipes w) (w_mem w)
                     (w_kpgdir w) (w_regs w) (woken w)).
Definition set_pipe (a : Z) (p : pipe) : MW unit :=
  modify (fun w => World (w_fs w) (ftable w) (zupd (pipes w) a p) (w_mem w) (w_kpgdir w) (w_regs w) (woken w)).
Definition wakes (l : list chan) : MW unit :=
  modify (fun w => World (w_fs w) (ftable w) (pipes w) (w_mem w) (w_kpgdir w) (w_regs w) (woken w ++ l)).

Definition op_begin : MW unit := in_fs (in_log_ begin_op).
Definition op_end : MW unit := l ← in_fs (in_log_ end_op) ; wakes l.

Definition filealloc : MW Z :=
  t ← gets ftable ;
  match first_from (fun i => f_ref (t i) =? 0) NFILE 0 with
  | Some i => upd_file (ptr i) (set_fref 1) ;; mret (ptr i)
  | None => mret 0
  end.

Definition filedup (f : Z) : MW Z :=
  x ← the_file f ;
  if f_ref x <? 1 then panic "filedup"
  else upd_file f (set_fref (f_ref x + 1)) ;; mret f.

Definition fileclose (mypid f : Z) : MW unit :=
  x ← the_file f ;
  if f_ref x <? 1 then panic "fileclose" else
  upd_file f (set_fref (f_ref x - 1)) ;;
  if 0 <? f_ref x - 1 then mret tt
  else
    ff ← the_file f ;
    upd_file f (set_fref 0) ;;
    upd_file f (set_ftype FD_NONE) ;;
    match f_type ff with
    | FD_PIPE =>
        w ← gets id ;
        let '(p, l, freed) := pipeclose (f_pipe ff) (pipes w (f_pipe ff)) (f_writable ff) in
        set_pipe (f_pipe ff) p ;;
        wakes l ;;
        if freed then in_kmem (kfree kend (f_pipe ff)) else mret tt
    | FD_INODE => op_begin ;; in_fs (iput mypid (f_ip ff)) ;; op_end
    | FD_NONE => mret tt
    end.

(** dev, ino, type, nlink and size, or [None] for -1. *)
Definition filestat (mypid f : Z) : MW (option (Z * Z * Z * Z * Z)) :=
  x ← the_file f ;
  match f_type x with
  | FD_INODE =>
      in_fs (ilock mypid (f_ip x)) ;;
      st ← in_fs (stati (f_ip x)) ;
      in_fs (iunlock (f_ip x)) ;;
      mret (Some st)
  | _ => mret None
  end.

(** [fileread] by process [p], to user address [addr]. *)
Definition fileread (p : proc) (f addr n : Z) : MW Z :=
  x ← the_file f ;
  if negb (f_readable x) then mret (-1)
  else match f_type x with
  | FD_PIPE =>
      w ← gets id ;
      let '(q, l, ws, e) := piperead (f_pipe x) (negb (killed p =? 0)) (pipes w (f_pipe x)) n in
      set_pipe (f_pipe x) q ;;
      in_kmem (store_bytes l (pgdir p) addr) ;;
      wakes ws ;;
      match e with Ret v => mret v | Sleep c _ => sleep_on c end
  | FD_INODE =>
      in_fs (ilock (pid p) (f_ip x)) ;;
      r ← in_fs (readi devread (f_ip x) (f_off x) (u32 n)) ;
      in_kmem (store_bytes r.2 (pgdir p) addr) ;;
      (if 0 <? s32 r.1 then upd_file f (set_off (f_off x +u r.1)) else mret tt) ;;
      in_fs (iunlock (f_ip x)) ;;
      mret (s32 r.1)
  | FD_NONE => panic "fileread"
  end.

Definition filewrite_max : Z := (LOGSIZE - 1 - 1 - 2) / 2 * 512.

(** The loop of [filewrite] on an inode, with [i] bytes written. *)
Fixpoint filewrite_loop (fuel : nat) (p : proc) (f addr n i : Z) : MW Z :=
  match fuel with
  | O => panic "out of fuel"
  | Datatypes.S k =>
      if negb (i <? n) then mret (if i =? n then n else -1)
      else
        let n1 := n - i in
        let n1 := if filewrite_max <? n1 then filewrite_max else n1 in
        op_begin ;;
        x ← the_file f ;
        in_fs (ilock (pid p) (f_ip x)) ;;
        src ← in_kmem (load_bytes (Z.to_nat n1) (pgdir p) (addr +u i)) ;
        x ← the_file f ;
        r ← in_fs (writei devwrite (f_ip x) src (f_off x) n1) ;
        (if 0 <? s32 r then upd_file f (set_off (f_off x +u r)) else mret tt) ;;
        in_fs (iunlock (f_ip x)) ;;
        op_end ;;
        if s32 r <? 0 then mret (if i =? n then n else -1)
        else if negb (s32 r =? n1) then panic "short filewrite"
        else filewrite_loop k p f addr n (i + s32 r)
  end.

(** One pass per piece of [filewrite_max] bytes and the last one, and the test that ends the loop. *)
Definition filewrite (p : proc) (f addr n : Z) : MW Z :=
  x ← the_file f ;
  if negb (f_writable x) then mret (-1)
  else match f_type x with
  | FD_PIPE =>
      src ← in_kmem (load_bytes (Z.to_nat n) (pgdir p) addr) ;
      w ← gets id ;
      let '(q, _, ws, e) := pipewrite (f_pipe x) (negb (killed p =? 0)) (pipes w (f_pipe x)) src n in
      set_pipe (f_pipe x) q ;;
      wakes ws ;;
      match e with Ret v => mret v | Sleep c _ => sleep_on c end
  | FD_INODE =>
      filewrite_loop (Datatypes.S (Datatypes.S (Z.to_nat (n / filewrite_max)))) p f addr n 0
  | FD_NONE => panic "filewrite"
  end.

(** The 512 bytes of [data] in a page that becomes a pipe: they follow the lock and hold what the
    page held. *)
Definition pipe_data (m : mem) (p : Z) : list Z := (fun i => m (p + 52 + Z.of_nat i)) <$> seq 0 512.

(** [pipealloc]: the read end and the write end, or [None] for -1. *)
Definition pipealloc (mypid : Z) : MW (option (Z * Z)) :=
  f0 ← filealloc ;
  if f0 =? 0 then mret None else
  f1 ← filealloc ;
  if f1 =? 0 then fileclose mypid f0 ;; mret None else
  p ← in_kmem kalloc ;
  if p =? 0 then fileclose mypid f0 ;; fileclose mypid f1 ;; mret None
  else
    w ← gets id ;
    set_pipe p (pipe_init (pipe_data (k_mem (w_mem w)) p)) ;;
    upd_file f0 (set_pipe_end true false p) ;;
    upd_file f1 (set_pipe_end false true p) ;;
    mret (Some (f0, f1)).
End code.

(** ** The services proc.c uses *)

(** Routines that never sleep. *)
Definition nosleep {T A} (m : M T A) : Prop := forall t c t', m t <> Slept c t'.

Lemma nosleep_bind {T A B} (m : M T A) (k : A -> M T B) :
  nosleep m -> (forall a, nosleep (k a)) -> nosleep (m ≫= k).
Proof.
  intros Hm Hk t c t'. unfold mbind, M_bind. specialize (Hm t). destruct (m t) as [a t1 | |]; [apply Hk | done |].
  intros E. injection E as -> ->. by apply (Hm c t').
Qed.

Lemma nosleep_zoom {T U A} (get : U -> T) (put : T -> U -> U) (m : M T A) : nosleep m -> nosleep (zoom get put m).
Proof. intros Hm u c u'. unfold zoom. specialize (Hm (get u)). destruct (m (get u)); naive_solver. Qed.

Ltac nosleep :=
  repeat first
    [ match goal with |- nosleep (_ ≫= _) => apply nosleep_bind; [| intros ?] end
    | match goal with
      | |- nosleep (if ?b then _ else _) => destruct b
      | |- nosleep (mret _) => by intros ???
      | |- nosleep (panic _) => by intros ???
      | |- nosleep (modify _) => by intros ???
      | |- nosleep (rd _) => by intros ???
      | |- nosleep (wr _ _) => by intros ???
      end ].

Lemma nosleep_kfree kend v : nosleep (kfree kend v).
Proof. unfold kfree. nosleep. Qed.

Lemma nosleep_walk pgdir va : nosleep (walkpgdir pgdir va false).
Proof. unfold walkpgdir. cbn [negb]. nosleep. Qed.

Lemma nosleep_dealloc kend fuel pgdir a oldsz : nosleep (deallocuvm_loop kend fuel pgdir a oldsz).
Proof.
  revert a. induction fuel as [|f IH]; intros a; cbn [deallocuvm_loop]; cbv zeta; nosleep;
    auto using nosleep_walk, nosleep_kfree.
Qed.

Lemma nosleep_freevm kend pgdir : nosleep (Vm.freevm kend pgdir).
Proof.
  assert (Hl : forall n i, nosleep (freevm_loop kend n i pgdir)).
  { induction n as [|n IH]; intros i; cbn [freevm_loop]; nosleep; auto using nosleep_kfree. }
  unfold Vm.freevm, Vm.deallocuvm. cbv zeta. nosleep; [apply nosleep_dealloc | apply Hl | apply nosleep_kfree].
Qed.

Section kernel.
Context {S : Type} `{BlockStore S}.
Variable kend kdata : Z.
Variable initcode initcode_size : Z.   (* _binary_initcode_start, _binary_initcode_size *)
Variable devread : Z -> option (nat -> Z -> M (fstate S) (Z * list Z)).

#[export] Instance world_kernel : Kernel (world S) := {
  k_alloc := in_kmem kalloc;
  k_free v := in_kmem (kfree kend v);
  Proc.setupkvm := in_kmem (Vm.setupkvm kend kdata);
  Proc.inituvm pg := in_kmem (Vm.inituvm pg initcode initcode_size);
  Proc.copyuvm pg n := in_kmem (Vm.copyuvm kend kdata pg n);
  Proc.freevm pg := in_kmem (Vm.freevm kend pg);
  Proc.allocuvm pg o n := in_kmem (Vm.allocuvm kend pg o n);
  Proc.deallocuvm pg o n := in_kmem (Vm.deallocuvm kend pg o n);
  Proc.switchuvm c ks pg := on_cpu c (Vm.switchuvm (Some (ks, pg)));
  Proc.switchkvm c := on_cpu c Vm.switchkvm;
  Proc.filedup := filedup;
  Proc.fileclose := fileclose kend;
  Proc.idup ip := in_fs (Fs.idup (idx ip)) ;; mret ip;
  iput_op mypid ip := op_begin ;; in_fs (iput mypid (idx ip)) ;; op_end;
  namei_root := o ← in_fs (namei devread 0 0 [slash]) ; mret (from_option ptr 0 o)
}.

(** The laws proc.c relies on hold of these services. *)
#[export] Instance world_laws : KernelLaws (world S).
Proof.
  split.
  - intros f w g w' E. change (filedup f w = Ok g w') in E. unfold filedup in E.
    erewrite bind_ok in E by reflexivity. destruct (_ <? 1); [done |].
    erewrite bind_ok in E by reflexivity. by injection E.
  - intros d w g w' E. apply bind_inv in E as (i & w1 & _ & E). by injection E.
  - intros v. apply nosleep_zoom, nosleep_kfree.
  - intros pg. apply nosleep_zoom, nosleep_freevm.
  - intros c ks pg w Hk Hp. change (exists w', on_cpu c (Vm.switchuvm (Some (ks, pg))) w = Ok tt w').
    unfold on_cpu, zoom, Vm.switchuvm. rewrite (proj2 (Z.eqb_neq _ _) Hk), (proj2 (Z.eqb_neq _ _) Hp). eauto.
  - intros c w. change (exists w', on_cpu c Vm.switchkvm w = Ok tt w'). unfold on_cpu, zoom. simpl. eauto.
Qed.
End kernel.
