(* ===== verification/Exec.v ===== *)
(** * exec.c: replacing the image of a process

    [exec] runs in the process table with the [world] of [File] behind it.  The argument strings are
    given as the bytes they hold in the address space of the caller, without their NULs.  The paths
    to the label [bad] are given by [exec_bad], with the page directory and the inode that are live
    there. *)
From S2P Require Import Prelude Mem Mmu Kalloc Vm Lock Ide BlockStore Bytes Log Fs Proc Uaccess File.
#[local] Open Scope Z_scope.

Definition MAXARG : nat := 32.
Definition ELF_MAGIC : Z := 1179403647.   (* 0x464C457F *)
Definition ELF_PROG_LOAD : Z := 1.
(** [sizeof(struct elfhdr)] and [sizeof(struct proghdr)]. *)
Definition ELFHDR_SIZE : Z := 52.
Definition PROGHDR_SIZE : Z := 32.

(** The fields of the file header and of a program header, at their offsets. *)
Definition elf_magic (x : list Z) : Z := get32 x 0.
Definition elf_entry (x : list Z) : Z := get32 x 24.
Definition elf_phoff (x : list Z) : Z := get32 x 28.
Definition elf_phnum (x : list Z) : Z := get16 x 44.
Definition ph_type (x : list Z) : Z := get32 x 0.
Definition ph_off (x : list Z) : Z := get32 x 4.
Definition ph_vaddr (x : list Z) : Z := get32 x 8.
Definition ph_filesz (x : list Z) : Z := get32 x 16.
Definition ph_memsz (x : list Z) : Z := get32 x 20.

(** The four bytes of a word. *)
Definition le32 (v : Z) : list Z := [u32 v mod 256; u32 v / 256 mod 256; u32 v / 65536 mod 256; u32 v / 16777216].

(** The loop that finds what follows the last slash of the path. *)
Fixpoint last_name (last path : list Z) : list Z :=
  match path with
  | [] => last
  | c :: p => if c =? slash then last_name p p else last_name last p
  end.

Definition set_entry (e sp : Z) (t : trapframe) : trapframe :=
  TF (tf_edi t) (tf_esi t) (tf_ebp t) (tf_oesp t) (tf_ebx t) (tf_edx t) (tf_ecx t) (tf_eax t) (tf_gs t) (tf_fs t)
    (tf_es t) (tf_ds t) (tf_trapno t) (tf_err t) e (tf_cs t) (tf_eflags t) sp (tf_ss t).

Section code.
Context {S : Type} `{BlockStore S}.
Variable kend kdata : Z.
Variable devread : Z -> option (nat -> Z -> M (fstate S) (Z * list Z)).

Notation MW := (M (world S)).
Notation MP := (M (ptable (world S))).

(** [readi] into a kernel address. *)
Definition readi_to (ip : nat) (dst off n : Z) : MW Z :=
  r ← in_fs (readi devread ip off n) ;
  in_kmem (put_bytes dst r.2) ;;
  mret (s32 r.1).

(** The loading loop, [n] program headers left with the next at [off]: the size of the image, or
    [None] for a jump to [bad]. *)
Fixpoint load_segments (n : nat) (ip : nat) (pg off image : Z) : MW (option Z) :=
  match n with
  | O => mret (Some image)
  | Datatypes.S n' =>
      r ← in_fs (readi devread ip (u32 off) PROGHDR_SIZE) ;
      let ph := r.2 in
      if negb (r.1 =? PROGHDR_SIZE) then mret None
      else if negb (ph_type ph =? ELF_PROG_LOAD) then load_segments n' ip pg (s32 (off + PROGHDR_SIZE)) image
      else if ph_memsz ph <? ph_filesz ph then mret None
      else if ph_vaddr ph +u ph_memsz ph <? ph_vaddr ph then mret None
      else
        image ← in_kmem (Vm.allocuvm kend pg image (ph_vaddr ph +u ph_memsz ph)) ;
        if image =? 0 then mret None
        else if negb (ph_vaddr ph mod PGSIZE =? 0) then mret None
        else
          v ← loaduvm (@in_kmem S) (readi_to ip) pg (ph_vaddr ph) (ph_off ph) (ph_filesz ph) ;
          if v <? 0 then mret None
          else load_segments n' ip pg (s32 (off + PROGHDR_SIZE)) image
  end.

(** The argument loop: the strings go to the stack below [sp], [argc] of them already done with
    their addresses in [ptrs]. *)
Fixpoint push_args (args : list (list Z)) (argc : nat) (pg sp : Z) (ptrs : list Z) :
    MW (option (Z * list Z)) :=
  match args with
  | [] => mret (Some (sp, ptrs))
  | a :: args' =>
      if (MAXARG <=? argc)%nat then mret None
      else
        let sp := Z.land (sp -u (Z.of_nat (length a) + 1)) (u32 (Z.lnot 3)) in
        r ← in_kmem (copyout pg sp (a ++ [0])) ;
        if r <? 0 then mret None else push_args args' (Datatypes.S argc) pg sp (ptrs ++ [sp])
  end.

(** [ustack], for argument strings at [ptrs] and the stack pointer below them. *)
Definition ustack (sp : Z) (ptrs : list Z) : list Z :=
  let argc := Z.of_nat (length ptrs) in
  [4294967295; argc; sp -u (argc + 1) * 4] ++ ptrs ++ [0].

Definition exec_bad (mypid pg : Z) (ip : option nat) : MW unit :=
  (if pg =? 0 then mret tt else in_kmem (Vm.freevm kend pg)) ;;
  match ip with
  | None => mret tt
  | Some i => in_fs (iunlockput mypid i) ;; op_end
  end.

(** The part of [exec] up to the commit: the new page directory, size, entry point and stack
    pointer, or [None] if it failed. *)
Definition exec_image (p : proc) (path : list Z) (argv : list (list Z)) : MW (option (Z * Z * Z * Z)) :=
  op_begin ;;
  o ← in_fs (namei devread (pid p) (idx (cwd p)) path) ;
  match o with
  | None => op_end ;; mret None
  | Some ip =>
      in_fs (ilock (pid p) ip) ;;
      r ← in_fs (readi devread ip 0 ELFHDR_SIZE) ;
      if negb (r.1 =? ELFHDR_SIZE) then exec_bad (pid p) 0 (Some ip) ;; mret None
      else if negb (elf_magic r.2 =? ELF_MAGIC) then exec_bad (pid p) 0 (Some ip) ;; mret None
      else
        pg ← in_kmem (Vm.setupkvm kend kdata) ;
        if pg =? 0 then exec_bad (pid p) 0 (Some ip) ;; mret None
        else
          o ← load_segments (Z.to_nat (elf_phnum r.2)) ip pg (s32 (elf_phoff r.2)) 0 ;
          match o with
          | None => exec_bad (pid p) pg (Some ip) ;; mret None
          | Some image =>
              in_fs (iunlockput (pid p) ip) ;;
              op_end ;;
              let image := PGROUNDUP image in
              image ← in_kmem (Vm.allocuvm kend pg image (image +u 2 * PGSIZE)) ;
              if image =? 0 then exec_bad (pid p) pg None ;; mret None
              else
                in_kmem (clearpteu pg (image -u 2 * PGSIZE)) ;;
                o ← push_args argv 0 pg image [] ;
                match o with
                | None => exec_bad (pid p) pg None ;; mret None
                | Some (sp, ptrs) =>
                    let us := ustack sp ptrs in
                    let sp := sp -u (3 + Z.of_nat (length ptrs) + 1) * 4 in
                    v ← in_kmem (copyout pg sp (concat (le32 <$> us))) ;
                    if v <? 0 then exec_bad (pid p) pg None ;; mret None
                    else mret (Some (pg, image, elf_entry r.2, sp))
                end
          end
  end.

(** The commit to the new image, and the old one freed. *)
Definition exec_commit (c i : nat) (p : proc) (path : list Z) (r : Z * Z * Z * Z) : MP Z :=
  let '(pg, image, entry, sp) := r in
  on_proc i (fun p => set_name (name_copy (name p) (last_name path path)) p) ;;
  on_proc i (set_pgdir pg) ;;
  on_proc i (set_sz image) ;;
  on_proc i (fun p => set_tf (set_entry entry sp (tf p)) p) ;;
  q ← the_proc i ;
  on_w (on_cpu c (Vm.switchuvm (Some (kstack q, pg)))) ;;
  on_w (in_kmem (Vm.freevm kend (pgdir p))) ;;
  mret 0.

Definition exec (c : nat) (path : list Z) (argv : list (list Z)) : MP Z :=
  o ← myproc c ;
  match o with
  | None => panic "null dereference"
  | Some i =>
      p ← the_proc i ;
      o ← on_w (exec_image p path argv) ;
      match o with
      | None => mret (-1)
      | Some r => exec_commit c i p path r
      end
  end.
End code.
