(* ===== verification/ExecSys.v ===== *)
(** * Program loading

    [exec] of exec.c from end to end: the file is found by its path and read through the file
    system, its segments go to the pages of a new address space, the arguments to its stack.  A pure
    loader says what the memory of the new program is; [exec] is shown to produce it, or to fail and
    leave everything as it was. *)
From S2P Require Import Prelude Mem CString Mmu Kalloc Lock Pipe Ide Bytes Bio BlockStore Log LogSys Fs FsSys FsTx FsFile FsDir FsTrunc Mkfs FsPath Proc Uaccess File Exec Vm VmSpace VmUser.
#[local] Open Scope Z_scope.

Module Load.

(** ** Reading a file *)

(** [readi] on a file with the bytes [data]: the count and the bytes. *)
Definition file_read (data : list Z) (off n : Z) : Z * list Z :=
  if (Z.of_nat (length data) <? off) || (off +u n <? off) then (-1, [])
  else let k := Z.min n (Z.of_nat (length data) - off) in (k, take (Z.to_nat k) (drop (Z.to_nat off) data)).

Definition contents (D : Z -> block) (x : inode) : list Z := fbytes (i_addrs x) D 0 (Z.to_nat (i_size x)).

Lemma length_fbytes a D o k : length (fbytes a D o k) = k.
Proof. unfold fbytes. by rewrite length_fmap, length_seq. Qed.

Lemma fbytes_part a D o k n : (o + k <= n)%nat -> fbytes a D (Z.of_nat o) k = take k (drop o (fbytes a D 0 n)).
Proof.
  intros Hn. replace n with (o + (k + (n - o - k)))%nat by lia. rewrite !fbytes_app.
  rewrite drop_app_length' by (by rewrite length_fbytes). rewrite take_app_length' by (by rewrite length_fbytes). done.
Qed.

(** The bytes [n] from [off] of a file. *)
Definition part (data : list Z) (off n : Z) : list Z := take (Z.to_nat n) (drop (Z.to_nat off) data).

Lemma file_read_whole data off n :
  0 <= off -> 0 <= n -> off + n < 2 ^ 32 -> off + n <= Z.of_nat (length data) -> file_read data off n = (n, part data off n).
Proof.
  intros H1 H2 H3 H4. unfold file_read. rewrite (proj2 (Z.ltb_ge _ off)), u32_small, (proj2 (Z.ltb_ge _ off)) by lia. cbn [orb].
  by rewrite Z.min_l by lia.
Qed.

Lemma file_read_short data off n :
  0 <= off < 2 ^ 32 -> 0 <= n -> Z.of_nat (length data) + n < 2 ^ 32 -> Z.of_nat (length data) < off + n -> (file_read data off n).1 <> n.
Proof.
  intros H1 H2 H3 H4. unfold file_read. destruct (Z.ltb_spec (Z.of_nat (length data)) off); cbn [orb]; [simpl; lia |].
  rewrite u32_small, (proj2 (Z.ltb_ge _ off)) by lia. simpl. lia.
Qed.

Lemma part_split data off n m : 0 <= off -> 0 <= n -> 0 <= m -> part data off (n + m) = part data off n ++ part data (off + n) m.
Proof.
  intros H1 H2 H3. unfold part. rewrite Z2Nat.inj_add, (Z2Nat.inj_add off) by lia. rewrite <- (drop_drop data).
  set (d := drop (Z.to_nat off) data). rewrite <- (take_drop (Z.to_nat n) (take (Z.to_nat n + Z.to_nat m) d)), take_take, take_drop_commute.
  do 2 f_equal. lia.
Qed.

Lemma length_part data off n : 0 <= off -> 0 <= n -> off + n <= Z.of_nat (length data) -> Z.of_nat (length (part data off n)) = n.
Proof. intros H1 H2 H3. unfold part. rewrite length_take, length_drop. lia. Qed.


(** ** The loader as a function of the file *)

Definition overlay (va : Z) (bs : list Z) (u : Z -> Z) : Z -> Z :=
  fun a => if decide (va <= a < va + Z.of_nat (length bs)) then u8 (bs !!! Z.to_nat (a - va)) else u a.

(** A segment that can be loaded over an image of size [sz]. *)
Definition segment_ok (data : list Z) (vaddr filesz memsz poff sz : Z) : Prop :=
  filesz <= memsz /\ vaddr + memsz < KERNBASE /\ 0 < Z.max sz (vaddr + memsz) /\ vaddr mod 4096 = 0 /\
  (filesz = 0 \/ poff + filesz <= Z.of_nat (length data)).

#[global] Instance segment_ok_dec data vaddr filesz memsz poff sz : Decision (segment_ok data vaddr filesz memsz poff sz).
Proof. unfold segment_ok. apply _. Defined.

(** Size and memory after the [n] program headers from [off] of the file, or [None] if one is bad. *)
Fixpoint elf_load (data : list Z) (n : nat) (off sz : Z) (u : Z -> Z) : option (Z * (Z -> Z)) :=
  match n with
  | O => Some (sz, u)
  | Datatypes.S n' =>
      let '(k, ph) := file_read data (u32 off) PROGHDR_SIZE in
      let off' := s32 (off + PROGHDR_SIZE) in
      let top := ph_vaddr ph + ph_memsz ph in
      if negb (k =? PROGHDR_SIZE) then None
      else if negb (ph_type ph =? ELF_PROG_LOAD) then elf_load data n' off' sz u
      else if bool_decide (segment_ok data (ph_vaddr ph) (ph_filesz ph) (ph_memsz ph) (ph_off ph) sz)
      then elf_load data n' off' (Z.max sz top) (overlay (ph_vaddr ph) (part data (ph_off ph) (ph_filesz ph)) u)
      else None
  end.

Definition byte (b : Z) : Prop := 0 <= b < 256.

Lemma getb_range x o : Forall byte x -> 0 <= getb x o < 256.
Proof.
  intros Hx. unfold getb. destruct (x !! o) as [b|] eqn:E.
  - rewrite (list_lookup_total_correct _ _ _ E). rewrite list.Forall_forall in Hx. apply Hx. by apply list_elem_of_lookup_2 in E.
  - rewrite list_lookup_total_alt, E. simpl. lia.
Qed.

Lemma get32_range x o : Forall byte x -> 0 <= get32 x o < 2 ^ 32.
Proof.
  intros Hx. unfold get32. pose proof (getb_range x o Hx). pose proof (getb_range x (o + 1) Hx). pose proof (getb_range x (o + 2) Hx).
  pose proof (getb_range x (o + 3) Hx). lia.
Qed.

Lemma file_read_bytes data off n : Forall byte data -> Forall byte (file_read data off n).2.
Proof. intros Hd. unfold file_read. destruct (_ || _); [done |]. by apply Forall_take, Forall_drop. Qed.

Lemma elf_load_grows data : forall n off sz u sz' u', elf_load data n off sz u = Some (sz', u') -> sz <= sz'.
Proof.
  induction n as [|n IH]; intros off sz u sz' u'; cbn [elf_load]; [intros [= -> _]; lia |].
  destruct (file_read _ _ _) as [k ph]. cbv zeta. destruct (negb (k =? _)); [done |]. destruct (negb (ph_type ph =? _)); [apply IH |].
  case_bool_decide; [| done]. intros Hl%IH. lia.
Qed.

Section load.
Context {S : Type} `{BlockStoreLaws S}.
Variable kend kdata : Z.
Hypothesis Hkend : KERNLINK <= kend.
Variable g : log.
Variable sb : superblock.
Variable ds : Z.
Context (Hlay : layout g sb ds).
Variable devread : Z -> option (nat -> Z -> M (fstate S) (Z * list Z)).
Variable D : Z -> block.
Implicit Types (w : world S) (s : fstate S).

Lemma readi_any wr C r s v ip off n :
  ftx g wr C r D ∅ s v -> regular sb ds D (icache s ip) -> 0 <= off < 2 ^ 32 -> 0 <= n < 2 ^ 31 ->
  exists s' v', readi devread ip off n s = Ok (file_read (contents D (icache s ip)) off n) s' /\ ftx g wr C r D ∅ s' v' /\ same_fs s s'.
Proof.
  intros T R Ho Hn. set (x := icache s ip) in *. pose proof (rg_size _ _ _ _ R) as Hsz. pose proof max_bytes as Hmax.
  unfold file_read, contents. rewrite length_fbytes, Z2Nat.id by lia. destruct (Z.ltb_spec (i_size x) off) as [Hlt | Hle]; cbn [orb].
  - exists s, v. split_and!; [| done | done]. unfold readi. erewrite bind_ok by reflexivity. fold x.
    rewrite (proj2 (Z.eqb_neq _ _) (rg_type _ _ _ _ R)), (proj2 (Z.ltb_lt _ _) Hlt). done.
  - rewrite u32_small by lia. rewrite (proj2 (Z.ltb_ge (off + n) off)) by lia.
    destruct (readi_tx g sb ds Hlay devread wr C r D s v ip off n T R) as (s' & v' & E & T' & S'); [fold x; lia | lia |]. fold x in E.
    exists s', v'. split_and!; [| done | done]. rewrite E. do 2 f_equal. replace off with (Z.of_nat (Z.to_nat off)) at 1 by lia. apply fbytes_part. lia.
Qed.

(** ** The state of the kernel *)

Definition with_fs w (s : fstate S) : world S := World s (ftable w) (pipes w) (w_mem w) (w_kpgdir w) (w_regs w) (woken w).
Definition with_mem w (m : kmem) : world S := World (w_fs w) (ftable w) (pipes w) m (w_kpgdir w) (w_regs w) (woken w).

(** Open files, pipes and page-table registers are not touched. *)
Definition rest w w' : Prop := ftable w' = ftable w /\ pipes w' = pipes w /\ w_kpgdir w' = w_kpgdir w /\ w_regs w' = w_regs w.

Lemma rest_trans w w1 w2 : rest w w1 -> rest w1 w2 -> rest w w2.
Proof. intros (A1 & A2 & A3 & A4) (B1 & B2 & B3 & B4). split_and!; congruence. Qed.

Lemma in_fs_ok {A} (m : M (fstate S) A) w a s : m (w_fs w) = Ok a s -> in_fs m w = Ok a (with_fs w s).
Proof. intros E. unfold in_fs, zoom. by rewrite E. Qed.

Lemma in_kmem_ok {A} (m : M kmem A) w a k : m (w_mem w) = Ok a k -> in_kmem m w = Ok a (with_mem w k).
Proof. intros E. unfold in_kmem, zoom. by rewrite E. Qed.

(** Inode [ip], with contents [x], is open in a transaction. *)
Record reading (ip : nat) (x : inode) (c : nat -> inode) w : Prop := {
  rd_tx : exists C r v, ftx g true C r D ∅ (w_fs w) v;
  rd_sb : f_sb (w_fs w) = sb;
  rd_cache : icache (w_fs w) = c;
  rd_ip : c ip = x;
  rd_regular : regular sb ds D x
}.

Lemma read_step ip x c w off n : reading ip x c w -> 0 <= off < 2 ^ 32 -> 0 <= n < 2 ^ 31 ->
  exists w', in_fs (readi devread ip off n) w = Ok (file_read (contents D x) off n) w' /\ reading ip x c w' /\ rest w w' /\ w_mem w' = w_mem w.
Proof.
  intros [(C & r & v & T) Hsb Ec Ei R] Ho Hn. assert (Ex : icache (w_fs w) ip = x) by congruence.
  destruct (readi_any true C r (w_fs w) v ip off n T) as (s' & v' & E & T' & S1 & S2); [by rewrite Ex | done | done |]. rewrite Ex in E.
  exists (with_fs w s'). split; [by apply in_fs_ok |]. split_and!; [| done | done]. split; cbn [w_fs with_fs]; [by exists C, r, v' | congruence | congruence | done | done].
Qed.

Lemma reading_mem ip x c w m : reading ip x c w -> reading ip x c (with_mem w m).
Proof. intros [R1 R2 R3 R4 R5]. by split. Qed.

(** ** [loaduvm] *)

(** A read of [n] bytes into frame [f] of page [k]. *)
Lemma read_page ip x c w l pg tabs frames k f off n :
  reading ip x c w -> space kend (w_mem w) l pg tabs frames -> frames !! k = Some f -> 0 <= off < 2 ^ 32 -> 0 <= n <= 4096 ->
  exists w', readi_to devread ip f off n w = Ok (file_read (contents D x) off n).1 w' /\ reading ip x c w' /\ rest w w' /\
    space kend (w_mem w') l pg tabs frames /\ untouched (pages frames) (w_mem w) (w_mem w') /\
    (forall va, entry (w_mem w') tabs va = entry (w_mem w) tabs va) /\
    stored (4096 * k) (file_read (contents D x) off n).2 (ubyte (w_mem w) frames) (ubyte (w_mem w') frames).
Proof.
  intros R Hs Hf Ho Hn. destruct (read_step ip x c w off n R) as (w1 & E1 & R1 & Q1 & M1); [lia | lia |].
  set (res := file_read (contents D x) off n) in *.
  assert (Hres : (res.1 = -1 \/ 0 <= res.1 <= n) /\ Z.of_nat (length res.2) <= 4096).
  { unfold res, file_read. destruct (Z.ltb_spec (Z.of_nat (length (contents D x))) off) as [? | Hle]; cbn [orb].
    { simpl. split; [by left | lia]. }
    destruct (_ <? off); cbn [fst snd length]; [split; [by left | lia] |]. rewrite length_take. split; [right |]; lia. }
  unfold readi_to. erewrite bind_ok by exact E1.
  destruct (poke_ok kend (w_mem w1) l pg tabs frames k f 0 res.2) as (m & E2 & Hs2 & Hu2 & He2 & St2);
    [by rewrite M1 | done | lia | lia |]. rewrite Z.add_0_r in E2. erewrite bind_ok by (by apply in_kmem_ok, E2).
  rewrite M1 in Hu2, He2, St2. rewrite Z.add_0_r in St2. exists (with_mem w1 m). split.
  { unfold mret, M_ret. f_equal. destruct Hres as [[-> | ?] _]; [done |]. apply s32_small. lia. }
  split_and!; [by apply reading_mem | done | done | | done | done].
  eapply untouched_mono; [| exact Hu2]. intros v ->%list_elem_of_singleton. apply elem_of_pages. eauto.
Qed.

(** Segment bytes [sz] of the file from [off] go to [addr]. *)
Definition segment_fits (data : list Z) (off sz : Z) : Prop := sz = 0 \/ off + sz <= Z.of_nat (length data).

Lemma loaduvm_loop_ok ip x c l pg tabs frames addr off sz : forall fuel i w,
  reading ip x c w -> space kend (w_mem w) l pg tabs frames -> addr mod 4096 = 0 -> 0 <= addr -> addr + sz <= KERNBASE ->
  (forall k, 4096 * k < addr + sz -> addr <= 4096 * k -> is_Some (frames !! k)) -> 0 <= off < 2 ^ 32 ->
  i mod 4096 = 0 -> 0 <= i -> (i < sz -> i = 0 \/ off + i <= Z.of_nat (length (contents D x))) -> 1 <= Z.of_nat fuel -> sz - i <= 4096 * (Z.of_nat fuel - 1) ->
  exists r w', loaduvm_loop (@in_kmem S) (readi_to devread ip) fuel pg addr off i sz w = Ok r w' /\ reading ip x c w' /\ rest w w' /\
    space kend (w_mem w') l pg tabs frames /\ untouched (pages frames) (w_mem w) (w_mem w') /\
    (forall va, entry (w_mem w') tabs va = entry (w_mem w) tabs va) /\
    ((r = 0 /\ (sz <= i \/ off + sz <= Z.of_nat (length (contents D x))) /\
      stored (addr + i) (part (contents D x) (off + i) (sz - i)) (ubyte (w_mem w) frames) (ubyte (w_mem w') frames)) \/
     (r = -1 /\ i < sz /\ Z.of_nat (length (contents D x)) < off + sz)).
Proof.
  set (data := contents D x). induction fuel as [|fuel IH]; intros i w R Hs Ha Ha0 Hk Hfr Hoff Hi Hi0 Hio Hf1 Hf2; [lia |].
  assert (Hdata : Z.of_nat (length data) <= 71680).
  { unfold data, contents. rewrite length_fbytes. pose proof (rg_size _ _ _ _ (rd_regular _ _ _ _ R)). pose proof max_bytes. lia. }
  cbn [loaduvm_loop]. unfold KERNBASE in Hk. destruct (Z.ltb_spec i sz) as [Hlt | Hge]; cbn [negb].
  2:{ exists 0, w. split_and!; [done | done | done | done | apply untouched_refl | done |]. left. split_and!; [done | by left |].
      unfold part. replace (Z.to_nat (sz - i)) with 0%nat by lia. rewrite take_0. apply stored_nil. }
  rewrite (u32_small (addr + i)) by lia. assert (Ek : exists k, addr + i = 4096 * k).
  { exists ((addr + i) / 4096). Z.to_euclidean_division_equations; lia. }
  destruct Ek as [k Ek]. rewrite Ek. destruct (Hfr k) as [f Hf]; [lia | lia |].
  destruct (walk_user kend _ _ _ _ _ _ _ Hs Hf) as (t & _ & Ew & Hnz & Er & Epa).
  erewrite bind_ok by (by apply in_kmem_ok, Ew). rewrite (proj2 (Z.eqb_neq _ 0) Hnz).
  replace (with_mem w (w_mem w)) with w by (by destruct w). erewrite bind_ok by (by apply in_kmem_ok, Er).
  replace (with_mem w (w_mem w)) with w by (by destruct w). rewrite Epa. rewrite (u32_small (sz - i)) by lia.
  set (n := if sz - i <? PGSIZE then sz - i else PGSIZE).
  assert (Hn : 0 < n <= 4096 /\ n <= sz - i /\ (n < 4096 -> n = sz - i)) by (unfold n, PGSIZE; destruct (Z.ltb_spec (sz - i) 4096); lia).
  destruct Hn as (Hn1 & Hn2 & Hn3). rewrite (u32_small (off + i)) by lia.
  destruct (read_page ip x c w l pg tabs frames k f (off + i) n R Hs Hf) as (w1 & E1 & R1 & Q1 & Hs1 & Hu1 & He1 & St1); [lia | lia |]. fold data in E1, St1.
  erewrite bind_ok by exact E1. destruct (decide (off + i + n <= Z.of_nat (length data))) as [Hfit | Hno].
  2:{ rewrite (proj2 (Z.eqb_neq _ n)) by (apply file_read_short; lia). cbn [negb]. exists (-1), w1.
      split_and!; [done | done | done | done | done | done |]. right. split_and!; [done | done | lia]. }
  rewrite file_read_whole in * by lia. cbn [fst snd] in *. rewrite Z.eqb_refl. cbn [negb]. rewrite u32_small by (unfold PGSIZE; lia). unfold PGSIZE.
  destruct (IH (i + 4096) w1) as (r & w' & E & R' & Q' & Hs' & Hu' & He' & Hr); try done; try lia.
  { Z.to_euclidean_division_equations; lia. }
  exists r, w'. split_and!; [done | done | by eapply rest_trans | done | by eapply untouched_trans | intros va; by rewrite He' |].
  destruct Hr as [(-> & Hfit' & St) | (-> & Hlt' & Hlen)]; [left | right; split_and!; [done | lia | done]]. split_and!; [done | right; lia |].
  rewrite <- Ek in St1 |- *. destruct (decide (n = sz - i)) as [En | Hne].
  - rewrite <- En. unfold part in St. replace (Z.to_nat (sz - (i + 4096))) with 0%nat in St by lia. rewrite take_0 in St.
    intros a. rewrite St, decide_False by (simpl; lia). apply St1.
  - assert (n = 4096) as -> by lia. replace (sz - i) with (4096 + (sz - (i + 4096))) by lia. rewrite part_split by lia.
    eapply stored_app; [exact St1 |]. rewrite length_part by lia. by replace (addr + i + 4096) with (addr + (i + 4096)) by lia;
      replace (off + i + 4096) with (off + (i + 4096)) by lia.
Qed.

Lemma loaduvm_ok ip x c w l pg tabs frames addr off sz :
  reading ip x c w -> space kend (w_mem w) l pg tabs frames -> addr mod 4096 = 0 -> 0 <= addr -> 0 <= sz -> addr + sz <= KERNBASE ->
  (forall k, 4096 * k < addr + sz -> addr <= 4096 * k -> is_Some (frames !! k)) -> 0 <= off < 2 ^ 32 ->
  exists r w', loaduvm (@in_kmem S) (readi_to devread ip) pg addr off sz w = Ok r w' /\ reading ip x c w' /\ rest w w' /\
    space kend (w_mem w') l pg tabs frames /\ untouched (pages frames) (w_mem w) (w_mem w') /\
    (forall va, entry (w_mem w') tabs va = entry (w_mem w) tabs va) /\
    ((r = 0 /\ segment_fits (contents D x) off sz /\
      stored addr (part (contents D x) off sz) (ubyte (w_mem w) frames) (ubyte (w_mem w') frames)) \/
     (r = -1 /\ ~ segment_fits (contents D x) off sz)).
Proof.
  intros R Hs Ha Ha0 Hsz Hk Hfr Hoff. unfold loaduvm. change (addr mod PGSIZE) with (addr mod 4096). rewrite Ha. cbn [negb Z.eqb].
  destruct (loaduvm_loop_ok ip x c l pg tabs frames addr off sz (Datatypes.S (Datatypes.S (Z.to_nat (sz / PGSIZE)))) 0 w)
    as (r & w' & E & R' & Q & Hs' & Hu & He & Hr); try done; try lia; [unfold PGSIZE; rewrite !Nat2Z.inj_succ, Z2Nat.id; Z.to_euclidean_division_equations; lia |].
  exists r, w'. split_and!; try done. rewrite !Z.add_0_r, Z.sub_0_r in Hr. unfold segment_fits.
  destruct Hr as [(-> & Hf & St) | (-> & ? & ?)]; [left; split_and!; [done | lia | done] | right; split; [done | lia]].
Qed.


Lemma npages_mono a b : a <= b -> npages a <= npages b.
Proof. intros Hab. apply Z.div_le_mono; lia. Qed.

(** The image keeps its description when bytes of its frames change. *)
Lemma image_same m m' l pg tabs frames sz :
  image kend m l pg tabs frames sz -> space kend m' l pg tabs frames -> (forall va, entry m' tabs va = entry m tabs va) ->
  image kend m' l pg tabs frames sz.
Proof. intros [I1 I2 I3 I4] Hs He. split; [done | done | done |]. intros n Hn. rewrite He. by apply I4. Qed.

(** What loading has done: pages only moved between the free list and the image. *)
Record grown (pg : Z) (l : list Z) (tabs frames : gmap Z Z) w w' (l' : list Z) (tabs' frames' : gmap Z Z) : Prop := {
  gr_rest : rest w w';
  gr_untouched : untouched (pg :: owned l tabs frames) (w_mem w) (w_mem w');
  gr_owned : owned l' tabs' frames' ≡ₚ owned l tabs frames;
  gr_space : space kend (w_mem w') l' pg tabs' frames';
  gr_kernel : forall va, KERNBASE <= va < 2 ^ 32 -> entry (w_mem w') tabs' va = entry (w_mem w) tabs va
}.

Lemma grown_trans pg l tabs frames w w1 l1 tabs1 frames1 w2 l2 tabs2 frames2 :
  grown pg l tabs frames w w1 l1 tabs1 frames1 -> grown pg l1 tabs1 frames1 w1 w2 l2 tabs2 frames2 -> grown pg l tabs frames w w2 l2 tabs2 frames2.
Proof.
  intros [A1 A2 A3 A4 A5] [B1 B2 B3 B4 B5]. split; [by eapply rest_trans | | by rewrite B3 | done | intros va Hva; by rewrite B5, A5].
  eapply untouched_trans; [exact A2 |]. eapply untouched_mono; [| exact B2]. intros v. by rewrite !elem_of_cons, A3.
Qed.

Lemma grown_write pg l tabs frames w w' : rest w w' -> space kend (w_mem w') l pg tabs frames -> untouched (pages frames) (w_mem w) (w_mem w') ->
  (forall va, entry (w_mem w') tabs va = entry (w_mem w) tabs va) -> grown pg l tabs frames w w' l tabs frames.
Proof.
  intros Q Hs Hu He. split; [done | | done | done | done]. eapply untouched_mono; [| exact Hu]. intros v Hv. unfold owned. rewrite elem_of_cons, !elem_of_app. tauto.
Qed.

(** The outcome of the loading loop against the pure loader. *)
Definition loaded_as (pg : Z) (p : option (Z * (Z -> Z))) (pool : Z) (o : option Z) w' l' tabs' frames' : Prop :=
  match p with
  | None => o = None
  | Some (sz, u) => (o = Some sz /\ image kend (w_mem w') l' pg tabs' frames' sz /\ forall a, ubyte (w_mem w') frames' a = u a) \/
                    (o = None /\ pool < 1025 + npages sz)
  end.

Lemma load_segment_ok ip x c pg vaddr filesz memsz poff sz w l tabs frames (K : Z -> M (world S) (option Z)) :
  reading ip x c w -> image kend (w_mem w) l pg tabs frames sz ->
  0 <= vaddr < 2 ^ 32 -> 0 <= filesz < 2 ^ 32 -> 0 <= memsz < 2 ^ 32 -> 0 <= poff < 2 ^ 32 ->
  let code := if memsz <? filesz then mret None else if vaddr +u memsz <? vaddr then mret None else
    (image ← in_kmem (Vm.allocuvm kend pg sz (vaddr +u memsz)) ;
     if image =? 0 then mret None else if negb (vaddr mod PGSIZE =? 0) then mret None else
     (v ← loaduvm (@in_kmem S) (readi_to devread ip) pg vaddr poff filesz ; if v <? 0 then mret None else K image)) in
  exists w' l' tabs' frames', grown pg l tabs frames w w' l' tabs' frames' /\ reading ip x c w' /\
    ((code w = Ok None w' /\ (segment_ok (contents D x) vaddr filesz memsz poff sz -> Z.of_nat (length (owned l tabs frames)) < 1025 + npages (vaddr + memsz))) \/
     (code w = K (Z.max sz (vaddr + memsz)) w' /\ segment_ok (contents D x) vaddr filesz memsz poff sz /\
      image kend (w_mem w') l' pg tabs' frames' (Z.max sz (vaddr + memsz)) /\
      forall a, ubyte (w_mem w') frames' a = overlay vaddr (part (contents D x) poff filesz) (ubyte (w_mem w) frames) a)).
Proof.
  intros R Hi Hva Hfs Hms Hpo code. unfold code, segment_ok.
  assert (G0 : grown pg l tabs frames w w l tabs frames) by (apply grown_write; [done | apply Hi | apply untouched_refl | done]).
  destruct (Z.ltb_spec memsz filesz); [exists w, l, tabs, frames; split_and!; [done | done |]; left; split; [done | lia] |].
  destruct (Z.ltb_spec (vaddr +u memsz) vaddr) as [Hov | Hov].
  { exists w, l, tabs, frames. split_and!; [done | done |]. left. split; [done |]. intros (_ & Htop & _). unfold KERNBASE in Htop. rewrite u32_small in Hov; lia. }
  assert (Etop : vaddr + memsz < 2 ^ 32 -> vaddr +u memsz = vaddr + memsz) by (intros; apply u32_small; lia).
  destruct (decide (vaddr + memsz < 2 ^ 32)) as [Hfit | Hwrap].
  2:{ exfalso. revert Hov. unfold u32. Z.to_euclidean_division_equations; lia. }
  rewrite (Etop Hfit). clear Hov Etop. set (top := vaddr + memsz) in *.
  destruct (grow_image kend Hkend (w_mem w) l pg tabs frames sz top Hi) as (r & m1 & l1 & tabs1 & frames1 & E1 & Hu1 & Ho1 & Hs1 & Hk1 & Hr); [unfold top; lia |].
  erewrite bind_ok by (by apply in_kmem_ok, E1). set (w1 := with_mem w m1).
  assert (G1 : grown pg l tabs frames w w1 l1 tabs1 frames1) by (by split). assert (R1 : reading ip x c w1) by (by apply reading_mem).
  destruct Hr as [(-> & Hwhy) | (-> & Hnz & Hk & Hi1 & Hub1)].
  { exists w1, l1, tabs1, frames1. split_and!; [done | done |]. left. split; [done |]. intros (_ & ? & ? & _). destruct Hwhy as [? | [? | ?]]; [lia | lia | done]. }
  rewrite (proj2 (Z.eqb_neq _ 0) Hnz). change (vaddr mod PGSIZE) with (vaddr mod 4096). destruct (Z.eqb_spec (vaddr mod 4096) 0) as [Hal | Hal]; cbn [negb].
  2:{ exists w1, l1, tabs1, frames1. split_and!; [done | done |]. left. split; [done |]. intros (_ & _ & _ & ? & _). done. }
  destruct (loaduvm_ok ip x c w1 l1 pg tabs1 frames1 vaddr poff filesz R1 Hs1 Hal) as (v & w2 & E2 & R2 & Q2 & Hs2 & Hu2 & He2 & Hr2); [lia | lia | unfold top, KERNBASE in *; lia | | done |].
  { intros k K1 K2. apply (im_dom _ _ _ _ _ _ _ Hi1). unfold top in *. lia. }
  erewrite bind_ok by exact E2. assert (G2 : grown pg l tabs frames w w2 l1 tabs1 frames1) by (eapply grown_trans; [exact G1 |]; by apply grown_write).
  destruct Hr2 as [(-> & Hfits & St) | (-> & Hno)]; cbn [Z.ltb Z.compare].
  - exists w2, l1, tabs1, frames1. split_and!; [done | done |]. right. split_and!; [done | done | unfold top; lia | lia | done | done | by eapply image_same |].
    intros a. rewrite St. unfold overlay. case_decide; [done | apply Hub1].
  - exists w2, l1, tabs1, frames1. split_and!; [done | done |]. left. split; [done |]. intros (_ & _ & _ & _ & ?). by destruct Hno.
Qed.

Lemma load_segments_ok ip x c pg : Forall byte (contents D x) -> forall n off sz u w l tabs frames,
  reading ip x c w -> image kend (w_mem w) l pg tabs frames sz -> (forall a, ubyte (w_mem w) frames a = u a) ->
  exists o w' l' tabs' frames', load_segments kend devread n ip pg off sz w = Ok o w' /\ reading ip x c w' /\
    grown pg l tabs frames w w' l' tabs' frames' /\
    loaded_as pg (elf_load (contents D x) n off sz u) (Z.of_nat (length (owned l tabs frames))) o w' l' tabs' frames'.
Proof.
  intros Hb. set (data := contents D x) in *. induction n as [|n IH]; intros off sz u w l tabs frames R Hi Hu; cbn [load_segments elf_load].
  { exists (Some sz), w, l, tabs, frames. split_and!; [done | done | apply grown_write; [done | apply Hi | apply untouched_refl | done] |]. left. by split_and!. }
  destruct (read_step ip x c w (u32 off) PROGHDR_SIZE R) as (w1 & E1 & R1 & Q1 & M1); [apply u32_range | done |]. fold data in E1.
  erewrite bind_ok by exact E1. pose proof (file_read_bytes data (u32 off) PROGHDR_SIZE Hb) as Hph.
  destruct (file_read data (u32 off) PROGHDR_SIZE) as [k ph]. cbn [fst snd] in *.
  assert (G1 : grown pg l tabs frames w w1 l tabs frames).
  { apply grown_write; [done | rewrite M1; apply Hi | rewrite M1; apply untouched_refl | by rewrite M1]. }
  assert (Hfail : forall p, (p = None \/ exists z v, p = Some (z, v) /\ Z.of_nat (length (owned l tabs frames)) < 1025 + npages z) ->
    forall w2 l2 tabs2 frames2, grown pg l tabs frames w w2 l2 tabs2 frames2 -> reading ip x c w2 ->
    exists o w' l' tabs' frames', (mret None : M (world S) (option Z)) w2 = Ok o w' /\ reading ip x c w' /\ grown pg l tabs frames w w' l' tabs' frames' /\
      loaded_as pg p (Z.of_nat (length (owned l tabs frames))) o w' l' tabs' frames').
  { intros p Hp w2 l2 tabs2 frames2 G2 R2. exists None, w2, l2, tabs2, frames2. split_and!; [done | done | done |].
    destruct Hp as [-> | (z & v & -> & Hz)]; [done | right; done]. }
  cbv zeta. destruct (negb (k =? PROGHDR_SIZE)); [eapply Hfail; [by left | exact G1 | done] |].
  destruct (negb (ph_type ph =? ELF_PROG_LOAD)).
  { destruct (IH (s32 (off + PROGHDR_SIZE)) sz u w1 l tabs frames) as (o & w2 & l2 & tabs2 & frames2 & E2 & R2 & G2 & P2); [done | by rewrite M1 | intros a; rewrite M1; apply Hu |].
    exists o, w2, l2, tabs2, frames2. split_and!; [done | done | by eapply grown_trans | done]. }
  pose proof (get32_range ph 4 Hph) as Hoff. pose proof (get32_range ph 8 Hph) as Hva. pose proof (get32_range ph 16 Hph) as Hfs. pose proof (get32_range ph 20 Hph) as Hms.
  change (get32 ph 4) with (ph_off ph) in Hoff. change (get32 ph 8) with (ph_vaddr ph) in Hva. change (get32 ph 16) with (ph_filesz ph) in Hfs.
  change (get32 ph 20) with (ph_memsz ph) in Hms.
  destruct (load_segment_ok ip x c pg (ph_vaddr ph) (ph_filesz ph) (ph_memsz ph) (ph_off ph) sz w1 l tabs frames
    (load_segments kend devread n ip pg (s32 (off + PROGHDR_SIZE))) R1) as (w2 & l2 & tabs2 & frames2 & G2 & R2 & Hcase); [by rewrite M1 | done ..|].
  assert (G12 : grown pg l tabs frames w w2 l2 tabs2 frames2) by (by eapply grown_trans). fold data in Hcase.
  destruct Hcase as [(E2 & Hwhy) | (E2 & Hok & Hi2 & Hu2)]; unfold PGSIZE in E2 |- *; rewrite E2.
  - eapply Hfail; [| exact G12 | exact R2]. case_bool_decide as Hc; [| by left]. specialize (Hwhy Hc).
    destruct (elf_load _ _ _ _ _) as [[z v]|] eqn:El; [right | by left]. exists z, v. split; [done |]. apply elf_load_grows in El.
    pose proof (npages_mono (ph_vaddr ph + ph_memsz ph) z). lia.
  - rewrite bool_decide_eq_true_2 by done.
    destruct (IH (s32 (off + PROGHDR_SIZE)) (Z.max sz (ph_vaddr ph + ph_memsz ph)) (overlay (ph_vaddr ph) (part data (ph_off ph) (ph_filesz ph)) u) w2 l2 tabs2 frames2 R2 Hi2)
      as (o & w3 & l3 & tabs3 & frames3 & E3 & R3 & G3 & P3).
    { intros a. rewrite Hu2, M1. unfold overlay. case_decide; [done | apply Hu]. }
    exists o, w3, l3, tabs3, frames3. split_and!; [done | done | by eapply grown_trans |].
    pose proof (Permutation_length (gr_owned _ _ _ _ _ _ _ _ _ G12)) as Hlen. by rewrite Hlen in P3.
Qed.


(** ** The arguments *)

Lemma land_word a : 0 <= a < 2 ^ 32 -> Z.land a (u32 (Z.lnot 3)) = a - a mod 4.
Proof.
  intros Ha. change (u32 (Z.lnot 3)) with (Z.ones 32 - 3). transitivity (Z.shiftl (Z.shiftr a 2) 2).
  - apply Z.bits_inj'. intros n Hn. rewrite Z.land_spec, Z.shiftl_spec by lia. destruct (Z.ltb_spec n 2).
    + rewrite (Z.testbit_neg_r _ (n - 2)) by lia. assert (n = 0 \/ n = 1) as [-> | ->] by lia; by rewrite andb_false_r.
    + rewrite Z.shiftr_spec by lia. replace (n - 2 + 2) with n by lia. change (Z.ones 32 - 3) with (Z.shiftl (Z.ones 30) 2).
      rewrite Z.shiftl_spec by lia. destruct (Z.ltb_spec n 32).
      * rewrite Z.ones_spec_low by lia. by rewrite andb_true_r.
      * rewrite Z.ones_spec_high by lia. rewrite andb_false_r. symmetry. destruct (decide (a = 0)) as [-> | ?]; [apply Z.bits_0 |].
        apply Z.bits_above_log2; [lia |]. apply Z.log2_lt_pow2; [lia |]. eapply Z.lt_le_trans; [apply Ha |]. by apply Z.pow_le_mono_r.
  - rewrite Z.shiftl_mul_pow2, Z.shiftr_div_pow2 by lia. change (2 ^ 2) with 4. Z.to_euclidean_division_equations; lia.
Qed.

(** The bytes an argument takes on the stack: the string with its NUL, in whole words. *)
Definition slot (a : list Z) : Z := 4 * ((Z.of_nat (length a) + 4) / 4).
Definition need (args : list (list Z)) : Z := foldr Z.add 0 (slot <$> args).

(** Where the strings go below [sp], and memory with them. *)
Fixpoint place (sp : Z) (args : list (list Z)) : list Z :=
  match args with [] => [] | a :: r => (sp - slot a) :: place (sp - slot a) r end.
Fixpoint with_args (sp : Z) (args : list (list Z)) (u : Z -> Z) : Z -> Z :=
  match args with [] => u | a :: r => with_args (sp - slot a) r (overlay (sp - slot a) (a ++ [0]) u) end.

(** The stack of a new image of size [top]: a page to write below it, and below that a guard page. *)
Record stack_ok (m : kmem) (tabs frames : gmap Z Z) (top : Z) : Prop := {
  sk_top : top mod 4096 = 0 /\ 8192 <= top <= KERNBASE;
  sk_page : writable m tabs frames (top / 4096 - 1);
  sk_guard : is_Some (frames !! (top / 4096 - 2)) /\ ~ writable m tabs frames (top / 4096 - 2)
}.

Lemma stack_same m m' tabs frames top : (forall va, entry m' tabs va = entry m tabs va) -> stack_ok m tabs frames top -> stack_ok m' tabs frames top.
Proof. intros He [K1 K2 [K3 K4]]. split; [done | |]; unfold writable in *; by rewrite !He. Qed.

(** [copyout] to the stack. *)
Lemma push_ok w l pg tabs frames top va bs :
  let len := Z.of_nat (length bs) in
  space kend (w_mem w) l pg tabs frames -> stack_ok (w_mem w) tabs frames top -> top - 8192 <= va -> 0 < len -> va + len <= top ->
  exists r w', in_kmem (copyout pg va bs) w = Ok r w' /\ rest w w' /\ w_fs w' = w_fs w /\
    space kend (w_mem w') l pg tabs frames /\ untouched (pages frames) (w_mem w) (w_mem w') /\
    (forall x, entry (w_mem w') tabs x = entry (w_mem w) tabs x) /\ stack_ok (w_mem w') tabs frames top /\
    if decide (top - 4096 <= va) then r = 0 /\ stored va bs (ubyte (w_mem w) frames) (ubyte (w_mem w') frames) else r = -1.
Proof.
  intros len Hs Hk Hva Hlen Hend. pose proof Hk as [[K1 K2] K3 [K4 K5]].
  assert (Ht : exists n, top = 4096 * n /\ top / 4096 = n) by (exists (top / 4096); Z.to_euclidean_division_equations; lia). destruct Ht as (n & Et & En).
  rewrite En in K3, K4, K5. assert (Hpage : forall k, touches va len k -> k = n - 1 \/ (k = n - 2 /\ va < top - 4096)).
  { intros k (_ & T1 & T2). subst top. Z.to_euclidean_division_equations; lia. }
  destruct (copyout_ok kend (w_mem w) l pg tabs frames va bs Hs) as (r & m & E & Hs' & Hu & He & _ & Hr); [lia | fold len; lia | |].
  { fold len. intros k Hk'. destruct (Hpage k Hk') as [-> | [-> _]]; [destruct K3 as [[f Hf] _] | destruct K4 as [f Hf]]; by eapply (frame_table kend). }
  exists r, (with_mem w m). split; [by apply in_kmem_ok |]. split_and!; [done | done | done | done | done | by eapply stack_same |]. cbn [w_mem with_mem].
  fold len in Hr. destruct Hr as [(-> & St & Hw) | (-> & k & Hk' & Hw)]; case_decide as Hd; [done | exfalso | exfalso | done].
  - apply K5, Hw. unfold touches. subst top. Z.to_euclidean_division_equations; lia.
  - destruct (Hpage k Hk') as [-> | [-> ?]]; [done | lia].
Qed.


Lemma slot_pos a : 4 <= slot a /\ slot a mod 4 = 0 /\ Z.of_nat (length a) + 1 <= slot a.
Proof. unfold slot. Z.to_euclidean_division_equations; lia. Qed.

Lemma need_cons a args : need (a :: args) = slot a + need args.
Proof. done. Qed.

Lemma args_nonneg args : 0 <= need args /\ need args mod 4 = 0.
Proof.
  induction args as [|a args [IH1 IH2]]; [done |]. rewrite need_cons. pose proof (slot_pos a). Z.to_euclidean_division_equations; lia.
Qed.

Lemma arg_address sp a : 0 <= sp < 2 ^ 32 -> sp mod 4 = 0 -> slot a <= sp ->
  Z.land (sp -u (Z.of_nat (length a) + 1)) (u32 (Z.lnot 3)) = sp - slot a.
Proof.
  intros Hsp Hal Hle. pose proof (slot_pos a) as (_ & _ & Hs). rewrite u32_small by lia. rewrite land_word by lia.
  unfold slot in *. Z.to_euclidean_division_equations; lia.
Qed.

(** The arguments fit: at most 32 of them, in the stack page. *)
Definition args_fit (argc : nat) (room : Z) (args : list (list Z)) : Prop := (argc + length args <= MAXARG)%nat /\ need args <= room.
#[global] Instance args_fit_dec argc room args : Decision (args_fit argc room args).
Proof. unfold args_fit. apply _. Defined.

Lemma with_args_ext : forall args sp u v, (forall a, u a = v a) -> forall a, with_args sp args u a = with_args sp args v a.
Proof. induction args as [|b args IH]; intros sp u v Huv; [done |]. apply IH. intros a. unfold overlay. case_decide; [done | apply Huv]. Qed.

Lemma push_args_ok l pg tabs frames top : forall args argc sp ptrs w,
  space kend (w_mem w) l pg tabs frames -> stack_ok (w_mem w) tabs frames top -> sp mod 4 = 0 -> top - 4096 <= sp <= top -> need args <= sp - (top - 8192) ->
  (argc <= MAXARG)%nat ->
  exists o w', push_args args argc pg sp ptrs w = Ok o w' /\ rest w w' /\ w_fs w' = w_fs w /\
    space kend (w_mem w') l pg tabs frames /\ untouched (pages frames) (w_mem w) (w_mem w') /\
    (forall x, entry (w_mem w') tabs x = entry (w_mem w) tabs x) /\ stack_ok (w_mem w') tabs frames top /\
    if decide (args_fit argc (sp - (top - 4096)) args)
    then o = Some (sp - need args, ptrs ++ place sp args) /\ forall a, ubyte (w_mem w') frames a = with_args sp args (ubyte (w_mem w) frames) a
    else o = None.
Proof.
  induction args as [|a args IH]; intros argc sp ptrs w Hs Hk Hal Hsp Hneed Hargc; cbn [push_args place with_args].
  { exists (Some (sp, ptrs)), w. split_and!; [done | done | done | done | apply untouched_refl | done | done |].
    rewrite decide_True by (unfold args_fit, need; simpl; lia). unfold need. simpl. by rewrite Z.sub_0_r, app_nil_r. }
  pose proof (sk_top _ _ _ _ Hk) as [Hta Htop]. pose proof (slot_pos a) as (Hs1 & Hs2 & Hs3). rewrite need_cons in Hneed. pose proof (args_nonneg args) as [Hn0 _].
  unfold KERNBASE in Htop. destruct (Nat.leb_spec MAXARG argc) as [Hm | Hm].
  { exists None, w. split_and!; [done | done | done | done | apply untouched_refl | done | done |]. rewrite decide_False; [done |].
    intros [Hf _]. simpl in Hf. lia. }
  rewrite arg_address by lia. set (sp' := sp - slot a) in *. assert (Esp : sp' = sp - slot a) by done.
  assert (El : Z.of_nat (length (a ++ [0])) = Z.of_nat (length a) + 1) by (rewrite length_app; simpl; lia).
  destruct (push_ok w l pg tabs frames top sp' (a ++ [0]) Hs Hk) as (r & w1 & E1 & Q1 & F1 & Hs1' & Hu1 & He1 & Hk1 & Hr1); [lia | lia | lia |].
  erewrite bind_ok by exact E1. destruct (decide (top - 4096 <= sp')) as [Hfit | Hno].
  2:{ rewrite Hr1. cbn [Z.ltb Z.compare]. exists None, w1. split_and!; [done | done | done | done | done | done | done |].
      rewrite decide_False; [done |]. intros [_ Hf]. rewrite need_cons in Hf. lia. }
  destruct Hr1 as [-> St]. cbn [Z.ltb Z.compare].
  destruct (IH (Datatypes.S argc) sp' (ptrs ++ [sp']) w1 Hs1' Hk1) as (o & w2 & E2 & Q2 & F2 & Hs2' & Hu2 & He2 & Hk2 & Hr2);
    [rewrite Esp; Z.to_euclidean_division_equations; lia | lia | lia | lia |].
  exists o, w2. split_and!; [done | by eapply rest_trans | congruence | done | by eapply untouched_trans | intros y; by rewrite He2 | done |].
  rewrite (decide_ext (args_fit argc (sp - (top - 4096)) (a :: args)) (args_fit (Datatypes.S argc) (sp' - (top - 4096)) args))
    by (unfold args_fit; rewrite need_cons; simpl; lia).
  case_decide; [| done]. destruct Hr2 as [-> Hb]. rewrite need_cons, <- app_assoc. split; [do 2 f_equal; lia |].
  intros y. rewrite Hb. apply with_args_ext. exact St.
Qed.


(** ** The image with its stack *)

(** Size, stack pointer and memory of a program loaded as [u] in [sz] bytes, or [None] if the size or the arguments do not fit. *)
Definition with_stack (sz : Z) (u : Z -> Z) (args : list (list Z)) : option (Z * Z * (Z -> Z)) :=
  let top := PGROUNDUP sz + 2 * PGSIZE in
  let argc := Z.of_nat (length args) in
  let sp := top - need args - 4 * (4 + argc) in
  if bool_decide (top < KERNBASE /\ (length args <= MAXARG)%nat /\ top - PGSIZE <= sp)
  then Some (top, sp, overlay sp (concat (le32 <$> ustack (top - need args) (place top args))) (with_args top args u))
  else None.

(** The address space of a new program: user memory [u] below [top] with a guard page under the stack page, the kernel above. *)
Record program_image (m : kmem) (l : list Z) (pg : Z) (tabs frames : gmap Z Z) (top : Z) (u : Z -> Z) (kern : Z -> Z) : Prop := {
  pi_space : space kend m l pg tabs frames;
  pi_dom : forall n, is_Some (frames !! n) <-> 0 <= n /\ 4096 * n < top;
  pi_user : forall n, 0 <= n -> 4096 * n < top -> (writable m tabs frames n <-> n <> top / 4096 - 2);
  pi_bytes : forall a, ubyte m frames a = u a;
  pi_kernel : forall va, KERNBASE <= va < 2 ^ 32 -> entry m tabs va = kern va
}.

Lemma image_round m l pg tabs frames sz : image kend m l pg tabs frames sz -> sz < KERNBASE -> image kend m l pg tabs frames (PGROUNDUP sz).
Proof.
  intros [I1 I2 I3 I4] Hsz. destruct (PGROUNDUP_bounds sz) as [B1 B2]; [unfold PGSIZE, KERNBASE in *; lia |]. unfold PGSIZE, KERNBASE in *.
  split; [done | unfold KERNBASE; Z.to_euclidean_division_equations; lia | | done]. intros n. rewrite I3. Z.to_euclidean_division_equations; lia.
Qed.

Lemma length_words us : length (concat (le32 <$> us)) = (4 * length us)%nat.
Proof. induction us as [|v us IH]; [done |]. rewrite fmap_cons. cbn [concat length]. rewrite length_app, IH. simpl. lia. Qed.

Lemma length_place : forall args sp, length (place sp args) = length args.
Proof. induction args as [|a args IH]; intros sp; [done |]. simpl. by rewrite IH. Qed.

(** The page under the stack page is closed to the user. *)
Lemma guard_ok m l pg tabs frames top u kern :
  image kend m l pg tabs frames top -> top mod 4096 = 0 -> 8192 <= top -> (forall a, ubyte m frames a = u a) ->
  (forall va, KERNBASE <= va < 2 ^ 32 -> entry m tabs va = kern va) ->
  exists m', clearpteu pg (top - 8192) m = Ok tt m' /\ untouched (pages tabs) m m' /\ program_image m' l pg tabs frames top u kern /\
    stack_ok m' tabs frames top.
Proof.
  intros [I1 I2 I3 I4] Hal Htop Hu Hkern. set (n := top / 4096 - 2). assert (En : top - 8192 = 4096 * n) by (unfold n; Z.to_euclidean_division_equations; lia).
  unfold KERNBASE in I2. destruct (proj2 (I3 n)) as [f Hf]; [lia |].
  destruct (clearpteu_ok kend m l pg tabs frames n f I1 Hf) as (m' & E & Hs & Hun & Hoth & Hclr & Hby).
  assert (Hw : forall k, 0 <= k -> 4096 * k < top -> (writable m' tabs frames k <-> k <> n)).
  { intros k H1 H2. split; [intros [_ Hk] ->; done |]. intros Hne. split; [apply I3; lia |].
    rewrite Hoth; [apply I4, I3; lia | lia | Z.to_euclidean_division_equations; lia]. }
  exists m'. split_and!; [by rewrite En | done | split; try done |].
  - intros a. by rewrite Hby.
  - intros va Hva. rewrite Hoth, Hkern; [done | done | unfold KERNBASE in Hva; lia |]. unfold KERNBASE in Hva. Z.to_euclidean_division_equations; lia.
  - split; [split; [done | unfold KERNBASE; lia] | apply Hw; lia | fold n; split; [by exists f |]]. intros Hg%Hw; [done | lia | lia].
Qed.


(** Everything given back. *)
Record given_back (pg : Z) (l : list Z) (tabs frames : gmap Z Z) w w' (l' : list Z) : Prop := {
  gb_rest : rest w w';
  gb_fs : w_fs w' = w_fs w;
  gb_free : free_inv kend (w_mem w') l';
  gb_pages : l' ≡ₚ pg :: owned l tabs frames;
  gb_untouched : untouched (pg :: owned l tabs frames) (w_mem w) (w_mem w')
}.

Lemma bad_none mypid w l pg tabs frames : space kend (w_mem w) l pg tabs frames ->
  exists w' l', exec_bad kend mypid pg None w = Ok tt w' /\ given_back pg l tabs frames w w' l'.
Proof.
  intros Hs. destruct (freevm_ok kend Hkend (w_mem w) l pg tabs frames Hs) as (m & l' & E & Hf & Hl & Hu).
  assert (Hpg : page_ok kend pg) by apply Hs. exists (with_mem w m), l'. split.
  - unfold exec_bad. rewrite (proj2 (Z.eqb_neq pg 0)) by (by eapply page_nonzero). by erewrite bind_ok by (by apply in_kmem_ok, E).
  - split; try done. eapply untouched_mono; [| exact Hu]. intros v Hv. unfold owned. by rewrite <- Hl.
Qed.

Lemma given_back_after pg l tabs frames w w1 l1 tabs1 frames1 w2 l2 :
  grown pg l tabs frames w w1 l1 tabs1 frames1 -> w_fs w1 = w_fs w -> given_back pg l1 tabs1 frames1 w1 w2 l2 -> given_back pg l tabs frames w w2 l2.
Proof.
  intros [A1 A2 A3 A4 A5] Ef [B1 B2 B3 B4 B5]. split; [by eapply rest_trans | congruence | done | by rewrite B4, A3 |].
  eapply untouched_trans; [exact A2 |]. eapply untouched_mono; [| exact B5]. intros v. by rewrite !elem_of_cons, A3.
Qed.

Lemma top_facts sz : 0 <= sz < KERNBASE -> let top := PGROUNDUP sz + 2 * PGSIZE in
  PGROUNDUP sz +u 2 * PGSIZE = top /\ top mod 4096 = 0 /\ 8192 <= top < 2 ^ 32 /\ PGROUNDUP sz <= KERNBASE.
Proof.
  intros Hsz. destruct (PGROUNDUP_bounds sz) as [B1 B2]; [unfold PGSIZE, KERNBASE in *; lia |]. unfold PGSIZE, KERNBASE in *.
  rewrite u32_small by lia. Z.to_euclidean_division_equations; lia.
Qed.

(** The argument loop and the words of [ustack], on the stack of a new image. *)
Lemma args_ok w l pg tabs frames top u kern args :
  program_image (w_mem w) l pg tabs frames top u kern -> stack_ok (w_mem w) tabs frames top -> need args + 4 * (4 + Z.of_nat (length args)) <= 8192 ->
  let sp := top - need args - 4 * (4 + Z.of_nat (length args)) in
  let code : M (world S) (option Z) := o ← push_args args 0 pg top [] ;
    match o with
    | None => mret None
    | Some (sp, ptrs) =>
        let sp' := sp -u (3 + Z.of_nat (length ptrs) + 1) * 4 in
        v ← in_kmem (copyout pg sp' (concat (le32 <$> ustack sp ptrs))) ; if v <? 0 then mret None else mret (Some sp')
    end in
  exists o w', code w = Ok o w' /\ w_fs w' = w_fs w /\ grown pg l tabs frames w w' l tabs frames /\
    if decide ((length args <= MAXARG)%nat /\ top - PGSIZE <= sp)
    then o = Some sp /\ program_image (w_mem w') l pg tabs frames top
           (overlay sp (concat (le32 <$> ustack (top - need args) (place top args))) (with_args top args u)) kern
    else o = None.
Proof.
  intros [P1 P2 P3 P4 P5] Hk Hneed sp code. pose proof (sk_top _ _ _ _ Hk) as [Hta Htop]. pose proof (args_nonneg args) as [Hn0 Hn4].
  unfold code, PGSIZE. unfold KERNBASE in Htop.
  destruct (push_args_ok l pg tabs frames top args 0 top [] w P1 Hk) as (o & w1 & E1 & Q1 & F1 & Hs1 & Hu1 & He1 & Hk1 & Hr1);
    [Z.to_euclidean_division_equations; lia | lia | lia | lia |]. erewrite bind_ok by exact E1.
  assert (G1 : grown pg l tabs frames w w1 l tabs frames) by (by apply grown_write).
  destruct (decide (args_fit 0 (top - (top - 4096)) args)) as [[Hmax Hfit] | Hno].
  2:{ rewrite Hr1. exists None, w1. split_and!; [done | done | done |]. rewrite decide_False; [done |]. intros [? ?]. apply Hno. unfold args_fit, sp in *. simpl. lia. }
  destruct Hr1 as [-> Hb1]. rewrite app_nil_l, length_place. cbv iota beta zeta. simpl in Hmax.
  assert (Esp : top - need args -u (3 + Z.of_nat (length args) + 1) * 4 = sp) by (unfold sp; rewrite u32_small by lia; lia). rewrite Esp.
  set (ws := concat (le32 <$> ustack (top - need args) (place top args))).
  assert (Elen : Z.of_nat (length ws) = 4 * (4 + Z.of_nat (length args))).
  { unfold ws. rewrite length_words. unfold ustack. rewrite !length_app, length_place. simpl. lia. }
  destruct (push_ok w1 l pg tabs frames top sp ws Hs1 Hk1) as (r & w2 & E2 & Q2 & F2 & Hs2 & Hu2 & He2 & Hk2 & Hr2); [unfold sp; lia | lia | unfold sp in *; lia |].
  erewrite bind_ok by exact E2. assert (G2 : grown pg l tabs frames w w2 l tabs frames) by (eapply grown_trans; [exact G1 |]; by apply grown_write).
  case_decide as Hd.
  - destruct Hr2 as [-> St]. cbn [Z.ltb Z.compare]. exists (Some sp), w2. split_and!; [done | congruence | done |]. rewrite decide_True by (split; [lia | done]).
    split; [done |]. assert (He : forall va, entry (w_mem w2) tabs va = entry (w_mem w) tabs va) by (intros va; by rewrite He2).
    split; [done | done | intros n H1 H2; unfold writable; rewrite He; by apply P3 | | intros va Hva; by rewrite He, P5].
    intros a. rewrite St. unfold overlay. case_decide; [done |]. rewrite Hb1. apply with_args_ext, P4.
  - rewrite Hr2. cbn [Z.ltb Z.compare]. exists None, w2. split_and!; [done | congruence | done |]. rewrite decide_False; [done |]. intros [_ ?]. lia.
Qed.


(** The entries of a directory. *)
Definition entry_at (m : kmem) (tabs : gmap Z Z) : Z -> Z := fun va => entry m tabs va.

(** [exec] after the segments are loaded. *)
Definition finish (mypid pg sz eip : Z) (args : list (list Z)) : M (world S) (option (Z * Z * Z * Z)) :=
  let image := PGROUNDUP sz in
  image ← in_kmem (Vm.allocuvm kend pg image (image +u 2 * PGSIZE)) ;
  if image =? 0 then exec_bad kend mypid pg None ;; mret None
  else
    in_kmem (clearpteu pg (image -u 2 * PGSIZE)) ;;
    o ← push_args args 0 pg image [] ;
    match o with
    | None => exec_bad kend mypid pg None ;; mret None
    | Some (sp, ptrs) =>
        let us := ustack sp ptrs in
        let sp := sp -u (3 + Z.of_nat (length ptrs) + 1) * 4 in
        v ← in_kmem (copyout pg sp (concat (le32 <$> us))) ;
        if v <? 0 then exec_bad kend mypid pg None ;; mret None
        else mret (Some (pg, image, eip, sp))
    end.

(** The outcome against the pure description. *)
Definition finished (pg eip : Z) (p : option (Z * Z * (Z -> Z))) (l : list Z) (tabs frames : gmap Z Z) (o : option (Z * Z * Z * Z)) w w' : Prop :=
  match o with
  | Some r => exists top sp u l' tabs' frames', r = (pg, top, eip, sp) /\ p = Some (top, sp, u) /\ grown pg l tabs frames w w' l' tabs' frames' /\
      program_image (w_mem w') l' pg tabs' frames' top u (entry_at (w_mem w) tabs)
  | None => (exists l', given_back pg l tabs frames w w' l') /\
      forall top sp u, p = Some (top, sp, u) -> Z.of_nat (length (owned l tabs frames)) < 1025 + npages top
  end.

(** The tail of [finish], with the failing paths together. *)
Lemma finish_tail (mypid pg top eip : Z) (args : list (list Z)) w :
  (o ← push_args args 0 pg top [] ;
    match o with
    | None => exec_bad kend mypid pg None ;; mret None
    | Some (sp, ptrs) =>
        let us := ustack sp ptrs in
        let sp := sp -u (3 + Z.of_nat (length ptrs) + 1) * 4 in
        v ← in_kmem (copyout pg sp (concat (le32 <$> us))) ;
        if v <? 0 then exec_bad kend mypid pg None ;; mret None
        else mret (Some (pg, top, eip, sp))
    end) w =
  (r ← (o ← push_args args 0 pg top [] ;
    match o with
    | None => mret None
    | Some (sp, ptrs) =>
        let sp' := sp -u (3 + Z.of_nat (length ptrs) + 1) * 4 in
        v ← in_kmem (copyout pg sp' (concat (le32 <$> ustack sp ptrs))) ; if v <? 0 then mret None else mret (Some sp')
    end) ;
   match r with None => exec_bad kend mypid pg None ;; mret None | Some sp => mret (Some (pg, top, eip, sp)) end) w.
Proof.
  unfold mbind, M_bind. destruct (push_args args 0 pg top [] w) as [[[sp ptrs]|] w1 | |]; try reflexivity.
  cbv zeta. destruct (in_kmem _ w1) as [v w2 | |]; try reflexivity. by destruct (v <? 0).
Qed.

Lemma finish_ok mypid eip args w l pg tabs frames sz u :
  image kend (w_mem w) l pg tabs frames sz -> sz < KERNBASE -> (forall a, ubyte (w_mem w) frames a = u a) ->
  need args + 4 * (4 + Z.of_nat (length args)) <= 8192 ->
  exists o w', finish mypid pg sz eip args w = Ok o w' /\ w_fs w' = w_fs w /\ finished pg eip (with_stack sz u args) l tabs frames o w w'.
Proof.
  intros Hi Hsz Hu Hneed. pose proof (im_sz _ _ _ _ _ _ _ Hi) as Hsz0. destruct (top_facts sz) as (Et & Hal & Htop & Hup); [lia |].
  unfold finish. rewrite Et. unfold with_stack. set (top := PGROUNDUP sz + 2 * PGSIZE) in *. set (sp := top - need args - 4 * (4 + Z.of_nat (length args))).
  assert (Hmax : Z.max (PGROUNDUP sz) top = top) by (unfold top, PGSIZE; lia).
  destruct (grow_image kend Hkend (w_mem w) l pg tabs frames (PGROUNDUP sz) top (image_round _ _ _ _ _ _ Hi Hsz))
    as (r & m1 & l1 & tabs1 & frames1 & E1 & Hu1 & Ho1 & Hs1 & Hk1 & Hr); [lia |]. rewrite Hmax in Hr.
  erewrite bind_ok by (by apply in_kmem_ok, E1). set (w1 := with_mem w m1).
  assert (G1 : grown pg l tabs frames w w1 l1 tabs1 frames1) by (by split).
  destruct Hr as [(-> & Hwhy) | (-> & Hnz & Hlt & Hi1 & Hub1)].
  { destruct (bad_none mypid w1 l1 pg tabs1 frames1 Hs1) as (w2 & l2 & E2 & B2). cbn [Z.eqb]. erewrite bind_ok by exact E2.
    exists None, w2. split_and!; [done | apply B2 |]. split; [exists l2; by eapply given_back_after |]. intros t p v.
    case_bool_decide as Hc; [| done]. intros [= <- _ _]. destruct Hwhy as [? | [? | ?]]; [lia | lia | done]. }
  rewrite (proj2 (Z.eqb_neq top 0)) by lia. rewrite (u32_small (top - 2 * PGSIZE)) by (unfold PGSIZE; lia). change (2 * PGSIZE) with 8192.
  destruct (guard_ok m1 l1 pg tabs1 frames1 top u (entry_at (w_mem w) tabs) Hi1 Hal) as (m2 & E2 & Hu2 & P2 & K2); [lia | intros a; by rewrite Hub1 | done |].
  erewrite bind_ok by (by apply in_kmem_ok, E2). set (w2 := with_mem w1 m2).
  assert (G2 : grown pg l tabs frames w w2 l1 tabs1 frames1).
  { eapply grown_trans; [exact G1 |]. split; [done | | done | apply P2 |].
    - eapply untouched_mono; [| exact Hu2]. intros v Hv. unfold owned. rewrite elem_of_cons, !elem_of_app. tauto.
    - intros va Hva. change (entry m2 tabs1 va = entry m1 tabs1 va). rewrite (pi_kernel _ _ _ _ _ _ _ _ P2 va Hva). symmetry. by apply Hk1. }
  destruct (args_ok w2 l1 pg tabs1 frames1 top u _ args P2 K2 Hneed) as (o & w3 & E3 & F3 & G3 & Hr3). fold sp in Hr3.
  pose proof (grown_trans _ _ _ _ _ _ _ _ _ _ _ _ _ G2 G3) as G. pose proof (finish_tail mypid pg top eip args w2) as Et2. rewrite (bind_ok _ _ _ _ _ E3) in Et2.
  destruct (decide ((length args <= MAXARG)%nat /\ top - PGSIZE <= sp)) as [[Hc1 Hc2] | Hno].
  - destruct Hr3 as [-> P3]. exists (Some (pg, top, eip, sp)), w3. split_and!; [exact Et2 | by rewrite F3 |].
    rewrite bool_decide_eq_true_2 by done. eexists top, sp, _, l1, tabs1, frames1. by split_and!.
  - rewrite Hr3 in Et2. destruct (bad_none mypid w3 l1 pg tabs1 frames1 (gr_space _ _ _ _ _ _ _ _ _ G3)) as (w4 & l4 & E4 & B4).
    rewrite (bind_ok _ _ _ _ _ E4) in Et2. exists None, w4. split_and!; [exact Et2 | by rewrite (gb_fs _ _ _ _ _ _ _ B4), F3 |]. split.
    + exists l4. eapply given_back_after; [exact G | by rewrite F3 | done].
    + intros t p v. case_bool_decide as Hc; [| done]. exfalso. apply Hno. tauto.
Qed.


(** ** Finding the file and closing it *)

Lemma regular_same x y : i_dev y = i_dev x -> i_inum y = i_inum x -> i_type y = i_type x -> i_size y = i_size x -> i_addrs y = i_addrs x ->
  regular sb ds D x -> regular sb ds D y.
Proof. intros E1 E2 E3 E4 E5 [R1 R2 R3 R4 R5 R6]. split; rewrite ?E1, ?E2, ?E3, ?E4, ?E5; done. Qed.

(** The kernel between system calls, as far as [exec] is concerned. *)
Record fs_calm w : Prop := {
  fc_idle : exists v, idle g D (w_fs w) v;
  fc_sb : f_sb (w_fs w) = sb;
  fc_cache : Path.cache_ok sb D (icache (w_fs w))
}.

(** Nothing of the file system changed but which blocks and inodes are cached. *)
Definition settled w w' : Prop := rest w w' /\ fs_calm w' /\ forall n, Path.refs (icache (w_fs w')) n = Path.refs (icache (w_fs w)) n.

Lemma op_end_ok C r v w : ftx g true C r D ∅ (w_fs w) v ->
  exists w' v', op_end w = Ok tt w' /\ rest w w' /\ w_mem w' = w_mem w /\ idle g D (w_fs w') v' /\ same_fs (w_fs w) (w_fs w').
Proof.
  intros T. destruct (end_tx g C r D (w_fs w) v T) as (s' & v' & E & Hi & Hsame). unfold op_end.
  erewrite bind_ok by (by apply in_fs_ok, E). eexists _, v'. by split_and!.
Qed.

(** The open file: entry [ip] of the cache [c0], locked. *)
Definition opened (mypid : Z) (c0 : nat -> inode) (ip : nat) w : Prop :=
  reading ip (Path.held sb mypid D (c0 ip)) (fupd c0 ip (Path.held sb mypid D (c0 ip))) w /\
  Path.cache_ok sb D c0 /\ (ip < NINODE)%nat /\ 0 < i_ref (c0 ip).

Lemma close_ok mypid c0 ip w : opened mypid c0 ip w ->
  exists w1 w2, in_fs (iunlockput mypid ip) w = Ok tt w1 /\ op_end w1 = Ok tt w2 /\ rest w w2 /\ w_mem w2 = w_mem w /\ fs_calm w2 /\
    Path.moved sb D c0 (icache (w_fs w2)) (i_inum (c0 ip)) None.
Proof.
  intros ([(C & r & v & T) Hsb Ec Ei R] & Hc & Hip & Hr).
  destruct (Path.drop_dir g sb mypid D true C r (w_fs w) v c0 ip Hc Hip Hr Ec T) as (s1 & E1 & T1 & Hsb1 & M1).
  destruct (op_end_ok C r v (with_fs w s1) T1) as (w2 & v2 & E2 & Q2 & Em2 & I2 & S21 & S22). cbn [w_fs with_fs] in S21, S22.
  exists (with_fs w s1), w2. split; [by apply in_fs_ok |]. rewrite S22. split_and!; [done | done | done | | done].
  split; [by exists v2 | congruence | rewrite S22; apply M1].
Qed.

(** Conditions on the file system under which [exec] is called by process [p]. *)
Record ready (p : proc) (path : list Z) w : Prop := {
  re_log : lsize g = LOGSIZE;
  re_calm : fs_calm w;
  re_admits : admits (w_fs w);
  re_tree : Path.tree_ok sb ds D;
  re_frees : 2 <= Path.frees (icache (w_fs w));
  re_root : Path.live sb D ROOTINO;
  re_cwd : (idx (cwd p) < NINODE)%nat /\ 0 < i_ref (icache (w_fs w) (idx (cwd p)));
  re_file : forall t, Path.walk sb D false (Path.origin (w_fs w) (idx (cwd p)) path) (take DIRSIZ <$> FsSys.elements path) = Some t ->
    regular sb ds D (Path.node sb D t) /\ Forall byte (contents D (Path.node sb D t))
}.

(** The inode the path names. *)
Definition named (p : proc) (path : list Z) w : option Z :=
  Path.walk sb D false (Path.origin (w_fs w) (idx (cwd p)) path) (take DIRSIZ <$> FsSys.elements path).

Lemma open_ok p path w : ready p path w ->
  match named p path w with
  | None => exists w1 w2, (op_begin ;; in_fs (namei devread (pid p) (idx (cwd p)) path)) w = Ok None w1 /\ op_end w1 = Ok tt w2 /\
              settled w w2 /\ w_mem w2 = w_mem w
  | Some t => exists ip w1 w2 c0, (op_begin ;; in_fs (namei devread (pid p) (idx (cwd p)) path)) w = Ok (Some ip) w1 /\
      in_fs (ilock (pid p) ip) w1 = Ok tt w2 /\ opened (pid p) c0 ip w2 /\ i_inum (c0 ip) = t /\ rest w w2 /\ w_mem w2 = w_mem w /\
      forall n, Path.refs c0 n = Path.refs (icache (w_fs w)) n + (if t =? n then 1 else 0)
  end.
Proof.
  intros [L [[v I] Hsb Hc] Ha Ht Hf Hr [Hcw1 Hcw2] Hfile]. fold (named p path w) in Hfile.
  destruct (begin_tx g D (w_fs w) v L I Ha) as (s1 & E1 & T1 & S11 & S12).
  destruct (Path.namex_ok g sb ds devread (pid p) (idx (cwd p)) true ∅ 8 D s1 v path false Hlay T1) as (o & nm & s2 & v2 & E2 & T2 & Hsb2 & Hc2 & Ho & _ & Hrefs);
    rewrite ?S11, ?S12; try done.
  assert (Ew : Path.walk sb D false (Path.origin s1 (idx (cwd p)) path) (take DIRSIZ <$> FsSys.elements path) = named p path w).
  { unfold named, Path.origin. by rewrite S12. }
  rewrite Ew, S12 in *. assert (E : (op_begin ;; in_fs (namei devread (pid p) (idx (cwd p)) path)) w = Ok o (with_fs w s2)).
  { unfold op_begin. erewrite bind_ok by (by apply in_fs_ok, E1). apply (in_fs_ok _ (with_fs w s1)). cbn [w_fs with_fs]. unfold namei. by erewrite bind_ok by exact E2. }
  destruct (named p path w) as [t|].
  - destruct Ho as (ip & -> & Hip & Hr0 & Hi0). destruct (Hfile t eq_refl) as [Hreg _].
    pose proof (Path.co_entry _ _ _ Hc2 ip Hip Hr0) as He. pose proof (Path.co_free _ _ _ Hc2 ip Hip) as Hl.
    destruct (Path.ilock_tx g sb ds Hlay devread (pid p) D true ∅ 8 s2 v2 ip T2 Hsb2 Hr0 Hl He) as (s3 & v3 & E3 & T3 & Hsb3 & Ec3).
    exists ip, (with_fs w s2), (with_fs w s3), (icache s2). split; [exact E |]. split; [by apply (in_fs_ok _ (with_fs w s2)) |].
    split_and!; [| done | done | done |].
    + split; [| done]. split; cbn [w_fs with_fs]; [by exists ∅, 8, v3 | done | done | apply fupd_same |].
      apply (regular_same (Path.node sb D t)); subst t; try done. apply He.
    + intros n. rewrite Hrefs. f_equal. destruct (Z.eqb_spec t n) as [-> | Hne]; [by rewrite bool_decide_eq_true_2 | by rewrite bool_decide_eq_false_2 by congruence].
  - subst o. destruct (op_end_ok ∅ 8 v2 (with_fs w s2) T2) as (w2 & v3 & E3 & Q3 & Em & I3 & S31 & S32). cbn [w_fs with_fs] in S31, S32.
    exists (with_fs w s2), w2. split_and!; [done | done | | done]. split; [done |]. split.
    + split; [by exists v3 | congruence | by rewrite S32].
    + intros n. rewrite S32, Hrefs. rewrite bool_decide_eq_false_2 by done. lia.
Qed.


(** ** [exec] up to the commit *)

(** What a file and the arguments become: size, entry point, stack pointer and memory. *)
Definition exec_program (data : list Z) (args : list (list Z)) : option (Z * Z * Z * (Z -> Z)) :=
  let '(k, h) := file_read data 0 ELFHDR_SIZE in
  if negb (k =? ELFHDR_SIZE) then None
  else if negb (elf_magic h =? ELF_MAGIC) then None
  else match elf_load data (Z.to_nat (elf_phnum h)) (s32 (elf_phoff h)) 0 (fun _ => 0) with
       | None => None
       | Some (sz, u) => match with_stack sz u args with Some (top, sp, u') => Some (top, elf_entry h, sp, u') | None => None end
       end.

Lemma elf_load_bound data : forall n off sz u sz' u', elf_load data n off sz u = Some (sz', u') -> sz < KERNBASE -> sz' < KERNBASE.
Proof.
  induction n as [|n IH]; intros off sz u sz' u'; cbn [elf_load]; [intros [= -> _]; done |].
  destruct (file_read _ _ _) as [k ph]. cbv zeta. destruct (negb (k =? _)); [done |]. destruct (negb (ph_type ph =? _)); [apply IH |].
  case_bool_decide as Hok; [| done]. intros Hl Hsz. eapply IH; [exact Hl |]. destruct Hok as (_ & ? & _). lia.
Qed.

(** The pages of the free list are free again, and no other page was written. *)
Definition mem_back (l : list Z) w w' : Prop :=
  exists l', free_inv kend (w_mem w') l' /\ l' ≡ₚ l /\ untouched l (w_mem w) (w_mem w').

Lemma opened_mem mypid c0 ip w m : opened mypid c0 ip w -> opened mypid c0 ip (with_mem w m).
Proof. intros [R Hr]. split; [by apply reading_mem | done]. Qed.

(** The paths to [bad] with the file open. *)
Lemma bad_file mypid c0 ip w : opened mypid c0 ip w ->
  exists w', exec_bad kend mypid 0 (Some ip) w = Ok tt w' /\ rest w w' /\ w_mem w' = w_mem w /\ fs_calm w' /\
    Path.moved sb D c0 (icache (w_fs w')) (i_inum (c0 ip)) None.
Proof.
  intros Ho. destruct (close_ok mypid c0 ip w Ho) as (w1 & w2 & E1 & E2 & Q & Em & Hc & Hm). exists w2. split; [| done].
  unfold exec_bad. cbn [Z.eqb]. erewrite bind_ok by reflexivity. by erewrite bind_ok by exact E1.
Qed.

Lemma bad_both mypid c0 ip w l pg tabs frames : opened mypid c0 ip w -> space kend (w_mem w) l pg tabs frames ->
  exists w', exec_bad kend mypid pg (Some ip) w = Ok tt w' /\ rest w w' /\ mem_back (pg :: owned l tabs frames) w w' /\ fs_calm w' /\
    Path.moved sb D c0 (icache (w_fs w')) (i_inum (c0 ip)) None.
Proof.
  intros Ho Hs. destruct (freevm_ok kend Hkend (w_mem w) l pg tabs frames Hs) as (m & l' & E & Hf & Hl & Hu).
  destruct (close_ok mypid c0 ip (with_mem w m) (opened_mem _ _ _ _ _ Ho)) as (w1 & w2 & E1 & E2 & Q & Em & Hc & Hm).
  assert (Hpg : page_ok kend pg) by apply Hs. exists w2. split_and!; [| done | | done | done].
  - unfold exec_bad. rewrite (proj2 (Z.eqb_neq pg 0)) by (by eapply page_nonzero). erewrite bind_ok by (by apply in_kmem_ok, E). by erewrite bind_ok by exact E1.
  - exists l'. rewrite Em. split_and!; [done | done |]. eapply untouched_mono; [| exact Hu]. intros v Hv. unfold owned. by rewrite <- Hl.
Qed.

(** How [exec_image] ends, [l] being the free pages. *)
Definition exec_outcome (p : proc) (path : list Z) (args : list (list Z)) (l : list Z) (o : option (Z * Z * Z * Z)) w w' : Prop :=
  match o with
  | None => mem_back l w w' /\
      forall t top eip sp u, named p path w = Some t -> exec_program (contents D (Path.node sb D t)) args = Some (top, eip, sp, u) ->
        Z.of_nat (length l) < 1026 + npages top
  | Some (pg, top, eip, sp) => exists t u l' tabs frames,
      named p path w = Some t /\ exec_program (contents D (Path.node sb D t)) args = Some (top, eip, sp, u) /\
      program_image (w_mem w') l' pg tabs frames top u (kentry (kmap kdata)) /\ pg :: owned l' tabs frames ≡ₚ l /\
      untouched l (w_mem w) (w_mem w')
  end.

Lemma image_empty m l pg tabs : space kend m l pg tabs ∅ -> image kend m l pg tabs ∅ 0.
Proof.
  intros Hs. split; [done | done | |]; intros n; rewrite lookup_empty.
  - split; [by intros [? [=]] | lia].
  - by intros [? [=]].
Qed.

Hypothesis Hkdata : KERNLINK < kdata < P2V PHYSTOP /\ kdata mod PGSIZE = 0.


(** [exec] with the file open. *)
Definition run_file (mypid : Z) (ip : nat) (args : list (list Z)) : M (world S) (option (Z * Z * Z * Z)) :=
  r ← in_fs (readi devread ip 0 ELFHDR_SIZE) ;
  if negb (r.1 =? ELFHDR_SIZE) then exec_bad kend mypid 0 (Some ip) ;; mret None
  else if negb (elf_magic r.2 =? ELF_MAGIC) then exec_bad kend mypid 0 (Some ip) ;; mret None
  else
    pg ← in_kmem (Vm.setupkvm kend kdata) ;
    if pg =? 0 then exec_bad kend mypid 0 (Some ip) ;; mret None
    else
      o ← load_segments kend devread (Z.to_nat (elf_phnum r.2)) ip pg (s32 (elf_phoff r.2)) 0 ;
      match o with
      | None => exec_bad kend mypid pg (Some ip) ;; mret None
      | Some image => in_fs (iunlockput mypid ip) ;; op_end ;; finish mypid pg image (elf_entry r.2) args
      end.

(** The same, for the contents of the file. *)
Definition file_outcome (data : list Z) (args : list (list Z)) (l : list Z) (o : option (Z * Z * Z * Z)) w w' : Prop :=
  match o with
  | None => mem_back l w w' /\
      forall top eip sp u, exec_program data args = Some (top, eip, sp, u) -> Z.of_nat (length l) < 1026 + npages top
  | Some (pg, top, eip, sp) => exists u l' tabs frames, exec_program data args = Some (top, eip, sp, u) /\
      program_image (w_mem w') l' pg tabs frames top u (kentry (kmap kdata)) /\ pg :: owned l' tabs frames ≡ₚ l /\ untouched l (w_mem w) (w_mem w')
  end.

(** The file system when the file is closed. *)
Definition closed (c0 : nat -> inode) (ip : nat) w w' : Prop :=
  rest w w' /\ fs_calm w' /\ Path.moved sb D c0 (icache (w_fs w')) (i_inum (c0 ip)) None.

Lemma mem_back_same l w w1 w2 : mem_back l w w1 -> w_mem w2 = w_mem w1 -> mem_back l w w2.
Proof. intros (l' & Hf & Hl & Hu) E. exists l'. by rewrite E. Qed.

(** After the page directory [pg] was made from free pages and filled by the loader. *)
Lemma load_and_finish mypid c0 ip args w w1 l l1 pg tabs1 n off eip :
  let data := contents D (Path.held sb mypid D (c0 ip)) in
  opened mypid c0 ip w1 -> rest w w1 -> space kend (w_mem w1) l1 pg tabs1 ∅ -> pg :: owned l1 tabs1 ∅ ≡ₚ l -> untouched l (w_mem w) (w_mem w1) ->
  kernel_half kdata (w_mem w1) tabs1 -> Forall byte data -> need args + 4 * (4 + Z.of_nat (length args)) <= 8192 ->
  exists o w', (o ← load_segments kend devread n ip pg off 0 ;
      match o with
      | None => exec_bad kend mypid pg (Some ip) ;; mret None
      | Some image => in_fs (iunlockput mypid ip) ;; op_end ;; finish mypid pg image eip args
      end) w1 = Ok o w' /\ closed c0 ip w w' /\
    match o with
    | None => mem_back l w w' /\ forall sz u top sp u', elf_load data n off 0 (fun _ => 0) = Some (sz, u) -> with_stack sz u args = Some (top, sp, u') ->
        Z.of_nat (length l) < 1026 + npages top
    | Some r => exists sz u top sp u' l' tabs frames, r = (pg, top, eip, sp) /\ elf_load data n off 0 (fun _ => 0) = Some (sz, u) /\
        with_stack sz u args = Some (top, sp, u') /\ program_image (w_mem w') l' pg tabs frames top u' (kentry (kmap kdata)) /\
        pg :: owned l' tabs frames ≡ₚ l /\ untouched l (w_mem w) (w_mem w')
    end.
Proof.
  intros data Ho Q1 Hs1 Hl Hu1 Hkern Hb Hneed. pose proof Ho as ([T1 T2 T3 T4 T5] & Hc0 & Hip & Hr0).
  assert (Hlen : Z.of_nat (length l) = 1 + Z.of_nat (length (owned l1 tabs1 ∅))) by (apply Permutation_length in Hl; simpl in Hl; lia).
  destruct (load_segments_ok ip _ _ pg Hb n off 0 (fun _ => 0) w1 l1 tabs1 ∅ (proj1 Ho) (image_empty _ _ _ _ Hs1)) as (o & w2 & l2 & tabs2 & frames2 & E2 & R2 & G2 & P2).
  { intros a. unfold ubyte. by rewrite lookup_empty. }
  fold data in P2. erewrite bind_ok by exact E2. assert (Ho2 : opened mypid c0 ip w2) by (by split).
  assert (Hu2 : untouched l (w_mem w) (w_mem w2)).
  { eapply untouched_trans; [exact Hu1 |]. eapply untouched_mono; [| apply G2]. intros v. by rewrite Hl. }
  assert (Hl2 : pg :: owned l2 tabs2 frames2 ≡ₚ l) by (by rewrite (gr_owned _ _ _ _ _ _ _ _ _ G2)).
  destruct o as [sz|].
  2:{ destruct (bad_both mypid c0 ip w2 l2 pg tabs2 frames2 Ho2 (gr_space _ _ _ _ _ _ _ _ _ G2)) as (w3 & E3 & Q3 & (l3 & B1 & B2 & B3) & Hc3 & M3).
      erewrite bind_ok by exact E3. exists None, w3. split_and!; [done | | |].
      - split_and!; [| done | done]. eapply rest_trans; [exact Q1 |]. eapply rest_trans; [apply G2 | done].
      - exists l3. split_and!; [done | by rewrite B2 |]. eapply untouched_trans; [exact Hu2 |]. eapply untouched_mono; [| exact B3]. intros v. by rewrite Hl2.
      - intros sz u top sp u' El Ews. rewrite El in P2. destruct P2 as [[? _] | [_ Hfew]]; [done |].
        assert (npages sz <= npages top); [| lia]. apply npages_mono. apply elf_load_grows in El as Hsz. apply elf_load_bound in El; [| done].
        revert Ews. unfold with_stack. case_bool_decide; [| done]. intros [= <- _ _]. destruct (top_facts sz) as (_ & _ & _ & _); [lia |].
        destruct (PGROUNDUP_bounds sz) as [? _]; unfold PGSIZE, KERNBASE in *; lia. }
  destruct (elf_load data n off 0 (fun _ => 0)) as [[sz' u]|] eqn:El; [| done].
  destruct P2 as [(Esz & Hi2 & Hub2) | [? _]]; [| done]. injection Esz as <-.
  destruct (close_ok mypid c0 ip w2 Ho2) as (w3 & w4 & E3 & E4 & Q4 & Em4 & Hc4 & M4). erewrite bind_ok by exact E3. erewrite bind_ok by exact E4.
  rewrite <- Em4 in Hi2, Hub2. destruct (finish_ok mypid eip args w4 l2 pg tabs2 frames2 sz u Hi2) as (o & w5 & E5 & F5 & P5);
    [by eapply elf_load_bound | done | done |].
  assert (Hcl : rest w4 w5 -> closed c0 ip w w5).
  { intros Q5. split; [| split; [destruct Hc4 as [[v I] Hs Hc]; split; rewrite F5; [by exists v | done | done] | by rewrite F5]].
    eapply rest_trans; [exact Q1 |]. eapply rest_trans; [apply G2 |]. by eapply rest_trans. }
  exists o, w5. split; [exact E5 |]. rewrite <- Em4 in Hu2. destruct o as [r|].
  - destruct P5 as (top & sp & u' & l' & tabs & frames & -> & Ews & G5 & PI). split; [apply Hcl, G5 |].
    exists sz, u, top, sp, u', l', tabs, frames. split_and!; [done | done | done | | by rewrite (gr_owned _ _ _ _ _ _ _ _ _ G5) |].
    + destruct PI as [I1 I2 I3 I4 I5]. split; try done. intros va Hva. rewrite I5 by done. unfold entry_at. rewrite Em4, (gr_kernel _ _ _ _ _ _ _ _ _ G2) by done. by apply Hkern.
    + eapply untouched_trans; [exact Hu2 |]. eapply untouched_mono; [| apply G5]. intros v. by rewrite Hl2.
  - destruct P5 as [[l' [B1 B2 B3 B4 B5]] Hfew]. split; [by apply Hcl |]. split.
    + exists l'. split_and!; [done | by rewrite B4 |]. eapply untouched_trans; [exact Hu2 |]. eapply untouched_mono; [| exact B5]. intros v. by rewrite Hl2.
    + intros sz0 u0 top sp u' [= <- <-] Ews. specialize (Hfew _ _ _ Ews). apply Permutation_length in Hl2. simpl in Hl2. lia.
Qed.


Lemma run_file_ok mypid c0 ip args w l :
  let data := contents D (Path.held sb mypid D (c0 ip)) in
  opened mypid c0 ip w -> free_inv kend (w_mem w) l -> Forall byte data -> need args + 4 * (4 + Z.of_nat (length args)) <= 8192 ->
  exists o w', run_file mypid ip args w = Ok o w' /\ closed c0 ip w w' /\ file_outcome data args l o w w'.
Proof.
  intros data Ho Hf Hb Hneed. destruct (read_step ip _ _ w 0 ELFHDR_SIZE (proj1 Ho)) as (w1 & E1 & R1 & Q1 & M1); [lia | done |]. fold data in E1.
  unfold run_file. erewrite bind_ok by exact E1. assert (Ho1 : opened mypid c0 ip w1) by (split; [done | apply Ho]).
  unfold file_outcome, exec_program. destruct (file_read data 0 ELFHDR_SIZE) as [k h]. cbn [fst snd].
  destruct (bad_file mypid c0 ip w1 Ho1) as (wb & Eb & Qb & Mb & Hcb & Mvb).
  assert (Hbad : (exec_bad kend mypid 0 (Some ip) ;; (mret None : M (world S) (option (Z * Z * Z * Z)))) w1 = Ok None wb /\ closed c0 ip w wb /\ mem_back l w wb).
  { erewrite bind_ok by exact Eb. split_and!; [done | split_and!; [by eapply rest_trans | done | done] |].
    exists l. rewrite Mb, M1. split_and!; [done | done | apply untouched_refl]. }
  destruct Hbad as (Eb' & Hclb & Hmb).
  destruct (negb (k =? ELFHDR_SIZE)); [exists None, wb; by split_and! |].
  destruct (negb (elf_magic h =? ELF_MAGIC)); [exists None, wb; by split_and! |].
  clear Eb' Hclb Hmb Eb Qb Mb Hcb Mvb wb. rewrite <- M1 in Hf.
  destruct (setupkvm_ok kend Hkend kdata Hkdata (w_mem w1) l Hf) as (pg & m2 & l2 & E2 & Hu2 & Hr2). erewrite bind_ok by (by apply in_kmem_ok, E2).
  set (w2 := with_mem w1 m2). assert (Ho2 : opened mypid c0 ip w2) by (by apply opened_mem). rewrite M1 in Hu2.
  destruct Hr2 as [(-> & Hf2 & Hl2 & Hfew) | (tabs & Hs2 & Hl2 & Hkern)].
  - destruct (bad_file mypid c0 ip w2 Ho2) as (w3 & E3 & Q3 & M3 & Hc3 & Mv3). cbn [Z.eqb]. erewrite bind_ok by exact E3.
    exists None, w3. split_and!; [done | split_and!; [by eapply rest_trans | done | done] | exists l2; by rewrite M3 |].
    intros top eip sp u Hp. assert (0 <= npages top); [| lia].
    destruct (elf_load _ _ _ _ _) as [[sz v]|] eqn:El; [| done]. apply elf_load_grows in El as Hg. apply elf_load_bound in El; [| done].
    revert Hp. unfold with_stack. case_bool_decide; [| done]. intros [= <- _ _ _]. destruct (top_facts sz) as (_ & _ & ? & _); [lia |].
    unfold npages. apply Z.div_pos; lia.
  - assert (Hpg : page_ok kend pg) by apply Hs2. rewrite (proj2 (Z.eqb_neq pg 0)) by (by eapply page_nonzero).
    destruct (load_and_finish mypid c0 ip args w w2 l l2 pg tabs (Z.to_nat (elf_phnum h)) (s32 (elf_phoff h)) (elf_entry h) Ho2)
      as (o & w' & E & Hcl & Hout); try done.
    exists o, w'. split; [exact E |]. split; [done |]. fold data in Hout. destruct o as [[[[pg' top] eip] sp]|].
    + destruct Hout as (sz & u & top' & sp' & u' & l' & tabs' & frames' & [= -> -> -> ->] & -> & -> & HP & Hperm & Hun). by exists u', l', tabs', frames'.
    + destruct Hout as [Hm Hfew]. split; [done |]. intros top eip sp u Hp.
      destruct (elf_load _ _ _ _ _) as [[sz v]|]; [| done]. destruct (with_stack sz v args) as [[[t1 s1] u1]|] eqn:Ews; [| done].
      injection Hp as -> _ -> ->. by eapply Hfew.
Qed.

Lemma exec_image_ok p path args w l :
  ready p path w -> free_inv kend (w_mem w) l -> need args + 4 * (4 + Z.of_nat (length args)) <= 8192 ->
  exists o w', exec_image kend kdata devread p path args w = Ok o w' /\ settled w w' /\ exec_outcome p path args l o w w'.
Proof.
  intros Hr Hf Hneed. pose proof (open_ok p path w Hr) as Ho. unfold exec_outcome. pose proof (re_file _ _ _ Hr) as Hfile. fold (named p path w) in Hfile.
  unfold exec_image. destruct (named p path w) as [t|].
  - destruct Ho as (ip & w1 & w2 & c0 & E1 & E2 & Ho2 & Hi2 & Q2 & M2 & Hrefs). apply bind_inv in E1 as (? & w0 & E0 & E1).
    erewrite bind_ok by exact E0. erewrite bind_ok by exact E1. cbv iota beta. erewrite bind_ok by exact E2.
    destruct (Hfile t eq_refl) as [_ Hb]. rewrite <- M2 in Hf. subst t.
    destruct (run_file_ok (pid p) c0 ip args w2 l Ho2 Hf Hb Hneed) as (o & w3 & E3 & (Q3 & Hc3 & [_ Mv3]) & Hout).
    exists o, w3. split; [exact E3 |]. split.
    { split; [by eapply rest_trans |]. split; [done |]. intros n. rewrite Mv3, Hrefs. lia. }
    unfold file_outcome, mem_back in Hout. rewrite M2 in Hout. destruct o as [[[[pg top] eip] sp]|].
    + destruct Hout as (u & l' & tabs & frames & Hp & Hout). by exists (i_inum (c0 ip)), u, l', tabs, frames.
    + destruct Hout as [Hm Hfew]. split; [done |]. intros t top eip sp u [= <-]. apply Hfew.
  - destruct Ho as (w1 & w2 & E1 & E2 & Hs & M2). apply bind_inv in E1 as (? & w0 & E0 & E1).
    erewrite bind_ok by exact E0. erewrite bind_ok by exact E1. cbv iota beta. erewrite bind_ok by exact E2.
    exists None, w2. split_and!; [done | done | | done]. exists l. rewrite M2. split_and!; [done | done | apply untouched_refl].
Qed.


End load.

Section commit.
Variable kend : Z.
Hypothesis Hkend : KERNLINK <= kend.

(** ** The commit *)

(** A page of the old address space is neither free nor part of the new one. *)
Lemma replace_space m m1 l l1 old otabs oframes pg tabs frames top u kern :
  space kend m l old otabs oframes -> program_image kend m1 l1 pg tabs frames top u kern -> pg :: owned l1 tabs frames ≡ₚ l -> untouched l m m1 ->
  exists m2 l2, Vm.freevm kend old m1 = Ok tt m2 /\ program_image kend m2 l2 pg tabs frames top u kern /\
    pg :: owned l2 tabs frames ≡ₚ l ++ old :: pages otabs ++ pages oframes.
Proof.
  intros Ho [P1 P2 P3 P4 P5] Hl Hu.
  destruct (own_split _ _ _ _ (sp_own _ _ _ _ _ _ Ho)) as (_ & _ & O3 & O4 & O5).
  assert (Hnl : forall v, v ∈ old :: pages otabs ++ pages oframes -> v ∉ l).
  { intros v. rewrite elem_of_cons, elem_of_app. intros [-> | [? | ?]]; [done | by apply O4 | by apply O5]. }
  assert (Hin : forall v, v ∈ pg :: owned l1 tabs frames -> v ∈ l) by (intros v; by rewrite Hl).
  assert (Hin1 : forall v, v ∈ l1 -> v ∈ l) by (intros v Hv; apply Hin; unfold owned; rewrite elem_of_cons, !elem_of_app; tauto).
  assert (Hf1 : free_inv kend m1 l1) by apply P1. pose proof (pt_free _ _ _ _ _ (sp_pt _ _ _ _ _ _ Ho)) as Hf.
  destruct (space_other kend m l m1 l1 l old otabs oframes Ho Hu) as (Ho1 & _ & _);
    [apply Hf | intros v Hv; split; [by apply Hnl | intros Hv'; by apply (Hnl v Hv), Hin1] | done |].
  destruct (freevm_ok kend Hkend m1 l1 old otabs oframes Ho1) as (m2 & l2 & E2 & Hf2 & Hl2 & Hu2).
  destruct (own_split _ _ _ _ (sp_own _ _ _ _ _ _ P1)) as (_ & _ & N3 & N4 & N5).
  destruct (space_other kend m1 l1 m2 l2 l2 pg tabs frames P1 Hu2) as (Hs2 & He2 & Hm2); [apply Hf2 | | done |].
  { intros v Hv. assert (Hv2 : v ∉ l2); [| done]. rewrite Hl2, !elem_of_cons, !elem_of_app. intros Hv'.
    assert (Hvl : v ∉ l1) by (rewrite elem_of_cons, elem_of_app in Hv; destruct Hv as [-> | [Hv | Hv]]; [done | by apply N4 | by apply N5]).
    apply (Hnl v); [rewrite elem_of_cons, elem_of_app; tauto |]. apply Hin. unfold owned. rewrite app_assoc, app_comm_cons, elem_of_app. by left. }
  exists m2, l2. split_and!; [done | |].
  - split; [done | done | intros n H1 H2; unfold writable; rewrite He2; by apply P3 | | intros va Hva; by rewrite He2, P5].
    intros a. rewrite <- P4. apply ubyte_frame. intros v b Hv. apply Hm2. rewrite elem_of_cons, elem_of_app. tauto.
  - rewrite <- Hl. unfold owned. rewrite Hl2. solve_Permutation.
Qed.
End commit.
End Load.

(** ** Properties *)

(** C17: [exec] replaces the image of a process, or changes nothing.  Called by a process whose
    address space is consistent, with arguments of two pages at most, on a file system whose
    directories are in order, it returns without panic.  It returns 0 only if the path names a file
    with a valid program; then the process has the size, the entry point and the stack pointer of that
    program and its name, its page directory maps the bytes of the segments, zeros, the argument
    strings and the argument vector with a guard page under the stack and the kernel above, the old
    address space is freed and no page is lost or shared.  Otherwise it returns -1: every process, the
    old address space with its contents, and the free pages are what they were; and that happens to a
    valid program only when there are too few free pages.  Either way the file system is as before,
    the inode released and the transaction ended. *)
Theorem exec_replaces_image {S : Type} `{BlockStoreLaws S} (kend kdata : Z) (g : log) (sb : superblock) (ds : Z)
    (devread : Z -> option (nat -> Z -> M (fstate S) (Z * list Z))) (D : Z -> block)
    (c i : nat) (path : list Z) (args : list (list Z)) (st : ptable (world S)) (l : list Z) (otabs oframes : gmap Z Z) :
  KERNLINK <= kend -> KERNLINK < kdata < P2V PHYSTOP /\ kdata mod PGSIZE = 0 -> layout g sb ds ->
  let p := procs st i in let w := Proc.world st in
  cur st c = Some i -> kstack p <> 0 -> Load.ready g sb ds D p path w ->
  space kend (w_mem w) l (pgdir p) otabs oframes ->
  Load.need args + 4 * (4 + Z.of_nat (length args)) <= 8192 ->
  exists r st', exec kend kdata devread c path args st = Ok r st' /\
    let w' := Proc.world st' in
    Load.fs_calm g sb D w' /\ (forall n, Path.refs (icache (w_fs w')) n = Path.refs (icache (w_fs w)) n) /\
    ftable w' = ftable w /\ pipes w' = pipes w /\
    ((r = 0 /\ exists t pg top eip sp u l' tabs frames,
        Load.named sb D p path w = Some t /\ Load.exec_program (Load.contents D (Path.node sb D t)) args = Some (top, eip, sp, u) /\
        procs st' = fupd (procs st) i
          (set_tf (Exec.set_entry eip sp (tf p)) (set_sz top (set_pgdir pg (set_name (name_copy (name p) (last_name path path)) p)))) /\
        Load.program_image kend (w_mem w') l' pg tabs frames top u (kentry (kmap kdata)) /\ r_cr3 (w_regs w' c) = V2P pg /\
        pg :: owned l' tabs frames ≡ₚ l ++ pgdir p :: pages otabs ++ pages oframes) \/
     (r = -1 /\ procs st' = procs st /\ w_regs w' = w_regs w /\
      (exists l', l' ≡ₚ l /\ space kend (w_mem w') l' (pgdir p) otabs oframes) /\
      (forall v a, v ∈ pgdir p :: pages otabs ++ pages oframes -> in_page v a -> k_mem (w_mem w') a = k_mem (w_mem w) a) /\
      forall t top eip sp u, Load.named sb D p path w = Some t ->
        Load.exec_program (Load.contents D (Path.node sb D t)) args = Some (top, eip, sp, u) -> Z.of_nat (length l) < 1026 + npages top)).
Proof.
  intros Hke Hkd L p w Hcur Hks Hr Ho Hneed. pose proof (pt_free _ _ _ _ _ (sp_pt _ _ _ _ _ _ Ho)) as Hf.
  destruct (Load.exec_image_ok kend kdata Hke g sb ds L devread D Hkd p path args w l Hr Hf Hneed) as (o & w1 & E1 & (Q1 & Hc1 & Hrefs) & Hout).
  unfold exec. erewrite bind_ok by reflexivity. rewrite Hcur. erewrite bind_ok by reflexivity. fold p.
  set (st1 := PT (procs st) (initproc st) (nextpid st) (cur st) (pos st) w1).
  assert (E1' : on_w (exec_image kend kdata devread p path args) st = Ok o st1) by (unfold on_w, zoom; fold w; by rewrite E1).
  erewrite bind_ok by exact E1'. destruct Q1 as (Qf & Qp & Qk & Qr). destruct o as [[[[pg top] eip] sp]|].
  - destruct Hout as (t & u & l1 & tabs & frames & Hn & Hp & HP & Hl & Hu).
    destruct (Load.replace_space kend Hke (w_mem w) (w_mem w1) l l1 (pgdir p) otabs oframes pg tabs frames top u _ Ho HP Hl Hu) as (m2 & l2 & E2 & HP2 & Hl2).
    assert (Hpg : page_ok kend pg) by apply HP. unfold exec_commit. cbv iota beta. repeat (erewrite bind_ok by reflexivity). cbn [procs st1 set_procs]. rewrite !fupd_same.
    set (p' := set_tf _ _). match goal with |- context [(on_w (on_cpu c _) ≫= _) ?s] => set (st2 := s) end.
    set (w2 := World (w_fs w1) (ftable w1) (pipes w1) (w_mem w1) (w_kpgdir w1) (fupd (w_regs w1) c (MMRegs (V2P pg) (kstack p +u 4096) (Z.shiftl 2 3) 65535)) (woken w1)).
    assert (Esw : on_w (on_cpu c (Vm.switchuvm (Some (kstack p', pg)))) st2 = Ok tt (PT (procs st2) (initproc st2) (nextpid st2) (cur st2) (pos st2) w2)).
    { unfold on_w, on_cpu, zoom, Vm.switchuvm. change (kstack p') with (kstack p).
      rewrite (proj2 (Z.eqb_neq (kstack p) 0) Hks), (proj2 (Z.eqb_neq pg 0)) by (by eapply page_nonzero). reflexivity. }
    erewrite bind_ok by exact Esw. set (st3 := PT _ _ _ _ _ w2).
    assert (Efr : on_w (in_kmem (Vm.freevm kend (pgdir p))) st3 = Ok tt (PT (procs st3) (initproc st3) (nextpid st3) (cur st3) (pos st3) (Load.with_mem w2 m2))).
    { unfold on_w, zoom. cbn [Proc.world st3]. by rewrite (Load.in_kmem_ok _ w2 tt m2 E2). }
    erewrite bind_ok by exact Efr. exists 0. eexists. split; [reflexivity |]. cbn [Proc.world procs].
    split; [destruct Hc1 as [C1 C2 C3]; by split |]. split_and!; [done | done | done |].
    left. split; [done |]. exists t, pg, top, eip, sp, u, l2, tabs, frames. split_and!; [done | done | | exact HP2 | | done].
    + unfold st3. cbn [procs]. unfold st2, p'. cbn [procs set_procs]. by rewrite !fupd_fupd.
    + cbn [w_regs Load.with_mem w2]. by rewrite fupd_same.
  - destruct Hout as [(l' & Hf' & Hl' & Hu) Hfew]. exists (-1), st1. split; [done |]. cbn [Proc.world st1 procs].
    destruct (own_split _ _ _ _ (sp_own _ _ _ _ _ _ Ho)) as (_ & _ & O3 & O4 & O5).
    destruct (space_other kend (w_mem w) l (w_mem w1) l' l (pgdir p) otabs oframes Ho Hu) as (Ho1 & _ & Hm1); [apply Hf | | done |].
    { intros v. rewrite elem_of_cons, elem_of_app, Hl'. intros [-> | [? | ?]]; [done | |]; split; first [by apply O4 | by apply O5]. }
    split_and!; [done | done | done | done |]. right. split_and!; [done | done | done | by exists l' | done | done].
Qed.

(** ** A program on a disk made by mkfs *)

(** An ELF file with one segment: two bytes of code in four bytes of memory at address 0. *)
Definition demo_elf : list Z :=
  [127; 69; 76; 70] ++ replicate 24 0 ++ [52; 0; 0; 0] ++ replicate 12 0 ++ [1; 0] ++ replicate 6 0 ++
  [1; 0; 0; 0] ++ [84; 0; 0; 0] ++ replicate 8 0 ++ [2; 0; 0; 0] ++ [4; 0; 0; 0] ++ replicate 8 0 ++ [235; 254].
Definition elf_host (name : list Z) : option (list (list Z)) := if bool_decide (name = [97]) then Some [demo_elf] else None.

Lemma elf_host_usable : Forall (Mkfs.usable_file elf_host) [[97]].
Proof.
  apply Forall_singleton. split; [unfold slash; rewrite list_elem_of_singleton; lia | | done].
  exists [demo_elf]. split; [done | by repeat constructor].
Qed.

Lemma exec_replaces_image_witness :
  exists (st st' : ptable (world bcache)) (pg : Z),
    exec (H := bio_store 1) KERNLINK (KERNLINK + 4096) (fun _ => None) 0 [slash; 97] [[97]] st = Ok 0 st' /\
    pgdir (procs st' 0) = pg /\ sz (procs st' 0) = 12288 /\ tf_eip (tf (procs st' 0)) = 0.
Proof.
  destruct demo_memory as (m & l & pg & tabs & Hs & Hlen).
  destruct (Mkfs.image_formatted elf_host [[97]]) as (im & _ & HF); [exact elf_host_usable | done | done | done |].
  set (d := Mkfs.sect im) in *. edestruct (Path.formatted_tree d [[97]]) as [Ht Hroot]; [| | exact HF |]; [done | done |].
  destruct (boot_on d) as (b & _ & A). set (s := FState (LState demo_log b) Mkfs.super Path.init_cache).
  set (w := World s (fun _ => File FD_NONE 0 false false 0 0 0) (fun _ => Pipe [] 0 0 true true) m 0 (fun _ => MMRegs 0 0 0 0) []).
  set (p := set_cwd (ptr 0) (set_kstack 4096 (set_pgdir pg proc_zero))).
  set (st := PT (fun _ => p) None 1 (fun _ => Some 0%nat) (fun _ => 0%nat) w).
  assert (Hw : Path.walk Mkfs.super d false ROOTINO [[97]] = Some 2).
  { cbn [Path.walk andb]. destruct (Mkfs.fm_root _ _ _ _ HF) as (Hd & _ & n & Hl). change (Path.node Mkfs.super d ROOTINO) with (Mkfs.disk_inode d ROOTINO).
    rewrite (Dir.dr_type _ _ _ _ Hd), Hl. unfold Dir.find. rewrite list_find_app_l with (i := 2%nat) (x := (2, strncpy_l DIRSIZ [97])); done. }
  destruct (Mkfs.fm_file _ _ _ _ HF 0 demo_elf eq_refl) as (Hreg & _ & _ & Hsz & Hby).
  assert (Hdata : Load.contents d (Path.node Mkfs.super d 2) = demo_elf).
  { unfold Load.contents. change (Path.node Mkfs.super d 2) with (Mkfs.disk_inode d (Z.of_nat 0 + 2)). by rewrite Hsz, Nat2Z.id. }
  assert (Hr : Load.ready (H0 := bio_laws 1) demo_log Mkfs.super Mkfs.first_data d p [slash; 97] w).
  { split; try done.
    - split; [exists (view_on d) | done | exact (Path.init_cache_ok d Hroot)]. split; try done.
      split; [apply demo_geom | done | apply homes_nil, demo_geom | done | done |].
      change (length (d 2) = 512%nat /\ hdr_n (d 2) = 0). by rewrite (Mkfs.fm_log _ _ _ _ HF 2).
    - change (idx (cwd p)) with 0%nat. split; [unfold NINODE; lia | done].
    - intros t. change (Path.origin _ _ _) with ROOTINO. change (take DIRSIZ <$> FsSys.elements [slash; 97]) with [[97]]. rewrite Hw. intros [= <-].
      rewrite Hdata. split; [exact Hreg | by repeat constructor]. }
  destruct (exec_replaces_image (H0 := bio_laws 1) KERNLINK (KERNLINK + 4096) demo_log Mkfs.super Mkfs.first_data (fun _ => None) d 0 0 [slash; 97] [[97]] st l tabs ∅)
    as (r & st' & E & _ & _ & _ & _ & Hres); [lia | done | exact Mkfs.image_layout | done | done | exact Hr | exact Hs | done |].
  assert (Hn : Load.named Mkfs.super d p [slash; 97] w = Some 2) by exact Hw.
  assert (Hp : (fun '(t, e, sp, _) => (t, e, sp)) <$> Load.exec_program demo_elf [[97]] = Some (12288, 0, 12264)) by (by vm_compute).
  destruct (Load.exec_program demo_elf [[97]]) as [[[[top eip] sp] u]|] eqn:Ep; [| done]. injection Hp as -> -> ->.
  destruct Hres as [(-> & t & pg' & top & eip & sp & u' & l' & tabs' & frames' & Hn' & Hp' & Hpr & _) | (_ & _ & _ & _ & _ & Hfew)].
  - exists st, st', pg'. change (procs st 0%nat) with p in *. change (Proc.world st) with w in *. rewrite Hn in Hn'. injection Hn' as <-. rewrite Hdata, Ep in Hp'.
    injection Hp' as <- <- <- <-. split; [exact E |]. rewrite Hpr, fupd_same. split_and!; reflexivity.
  - exfalso. specialize (Hfew 2 12288 0 12264 u Hn). change (npages 12288) with 3 in Hfew. rewrite Hdata in Hfew. specialize (Hfew Ep). lia.
Defined.
