(* ===== verification/Sysfile.v ===== *)
(** * sysfile.c and sysproc.c: the system calls

    Each call runs for the process of CPU [c], in the process table with the [world] of [File]
    behind it, and gives the value the process finds in %eax.  A call that has to wait ends with
    [Slept].  [create] gives the locked inode, or [None] for a null pointer. *)
From S2P Require Import Prelude Mem Mmu Kalloc Vm Lock Pipe Ide BlockStore Bytes Log Fs Proc Uaccess File Exec.
#[local] Open Scope Z_scope.

Definition O_RDONLY : Z := 0.
Definition O_WRONLY : Z := 1.
Definition O_RDWR : Z := 2.
Definition O_CREATE : Z := 512.

Definition set_nlink (n : Z) (x : inode) : inode :=
  Inode (i_dev x) (i_inum x) (i_ref x) (i_lock x) (i_valid x) (i_type x) (i_major x) (i_minor x) n
    (i_size x) (i_addrs x).
Definition set_dev (maj min : Z) (x : inode) : inode :=
  Inode (i_dev x) (i_inum x) (i_ref x) (i_lock x) (i_valid x) (i_type x) maj min (i_nlink x)
    (i_size x) (i_addrs x).

Definition dot : list Z := [46].
Definition dotdot : list Z := [46; 46].

Section code.
Context {S : Type} `{BlockStore S}.
Variable kend kdata : Z.
Variable devread : Z -> option (nat -> Z -> M (fstate S) (Z * list Z)).
Variable devwrite : Z -> option (nat -> list Z -> Z -> M (fstate S) Z).

Notation MF := (M (fstate S)).
Notation MP := (M (ptable (world S))).

Definition on_fs {A} (m : MF A) : MP A := on_w (in_fs m).
Definition on_mem {A} (m : M kmem A) : MP A := on_w (in_kmem m).

(** [myproc()] with its slot. *)
Definition cur_proc (c : nat) : MP (nat * proc) :=
  o ← myproc c ;
  match o with None => panic "null dereference" | Some i => p ← the_proc i ; mret (i, p) end.

(** The descriptor and the file, or [None] for -1. *)
Definition argfd (c : nat) (n : Z) : MP (option (nat * Z)) :=
  ip ← cur_proc c ;
  let p := ip.2 in
  o ← on_mem (argint p n) ;
  match o with
  | None => mret None
  | Some fd =>
      if (fd <? 0) || (Z.of_nat NOFILE <=? fd) then mret None
      else let f := ofile p !!! Z.to_nat fd in if f =? 0 then mret None else mret (Some (Z.to_nat fd, f))
  end.

Definition fdalloc (c : nat) (f : Z) : MP Z :=
  ip ← cur_proc c ;
  match first_from (fun fd => ofile ip.2 !!! fd =? 0) NOFILE 0 with
  | Some fd => on_proc ip.1 (set_ofile fd f) ;; mret (Z.of_nat fd)
  | None => mret (-1)
  end.

Definition sys_dup (c : nat) : MP Z :=
  o ← argfd c 0 ;
  match o with
  | None => mret (-1)
  | Some (_, f) =>
      fd ← fdalloc c f ;
      if fd <? 0 then mret (-1) else on_w (filedup f) ;; mret fd
  end.

(** [sys_read] and [sys_write] check the same arguments: the file, the buffer and the count. *)
Definition rw_args (c : nat) : MP (option (Z * Z * Z)) :=
  o ← argfd c 0 ;
  match o with
  | None => mret None
  | Some (_, f) =>
      ip ← cur_proc c ;
      o ← on_mem (argint ip.2 2) ;
      match o with
      | None => mret None
      | Some n =>
          o ← on_mem (argptr ip.2 1 n) ;
          match o with None => mret None | Some a => mret (Some (f, a, n)) end
      end
  end.

Definition sys_read (c : nat) : MP Z :=
  o ← rw_args c ;
  match o with
  | None => mret (-1)
  | Some (f, a, n) => ip ← cur_proc c ; on_w (fileread devread ip.2 f a n)
  end.

Definition sys_write (c : nat) : MP Z :=
  o ← rw_args c ;
  match o with
  | None => mret (-1)
  | Some (f, a, n) => ip ← cur_proc c ; on_w (filewrite devwrite ip.2 f a n)
  end.

Definition sys_close (c : nat) : MP Z :=
  o ← argfd c 0 ;
  match o with
  | None => mret (-1)
  | Some (fd, f) =>
      ip ← cur_proc c ;
      on_proc ip.1 (set_ofile fd 0) ;;
      on_w (fileclose kend (pid ip.2) f) ;;
      mret 0
  end.

(** [struct stat] as it lies in memory: type, padding, dev, ino, nlink, padding, size. *)
Definition stat_size : Z := 20.
Definition store_stat (pg a : Z) (st : Z * Z * Z * Z * Z) : M kmem unit :=
  let '(dev, ino, ty, nlink, size) := st in
  store_bytes [u16 ty mod 256; u16 ty / 256] pg a ;;
  store_bytes (le32 dev) pg (a +u 4) ;;
  store_bytes (le32 ino) pg (a +u 8) ;;
  store_bytes [u16 nlink mod 256; u16 nlink / 256] pg (a +u 12) ;;
  store_bytes (le32 size) pg (a +u 16).

Definition sys_fstat (c : nat) : MP Z :=
  o ← argfd c 0 ;
  match o with
  | None => mret (-1)
  | Some (_, f) =>
      ip ← cur_proc c ;
      o ← on_mem (argptr ip.2 1 stat_size) ;
      match o with
      | None => mret (-1)
      | Some a =>
          r ← on_w (filestat (pid ip.2) f) ;
          match r with
          | None => mret (-1)
          | Some st => on_mem (store_stat (pgdir ip.2) a st) ;; mret 0
          end
      end
  end.

Definition end_ret (v : Z) : MP Z := on_w op_end ;; mret v.

(** The label [bad] of [sys_link]: undo the link count. *)
Definition link_bad (me : Z) (ip : nat) : MP Z :=
  on_fs (ilock me ip) ;;
  on_fs (upd_inode ip (fun x => set_nlink (s16 (i_nlink x - 1)) x)) ;;
  on_fs (iupdate ip) ;;
  on_fs (iunlockput me ip) ;;
  end_ret (-1).

Definition sys_link (c : nat) : MP Z :=
  me ← cur_proc c ;
  let p := me.2 in
  o0 ← on_mem (argstr p 0) ;
  match o0 with
  | None => mret (-1)
  | Some old =>
      o1 ← on_mem (argstr p 1) ;
      match o1 with
      | None => mret (-1)
      | Some new =>
          on_w op_begin ;;
          o ← on_fs (namei devread (pid p) (idx (cwd p)) old) ;
          match o with
          | None => end_ret (-1)
          | Some ip =>
              on_fs (ilock (pid p) ip) ;;
              x ← on_fs (the_inode ip) ;
              if i_type x =? T_DIR then on_fs (iunlockput (pid p) ip) ;; end_ret (-1)
              else
                on_fs (upd_inode ip (fun x => set_nlink (s16 (i_nlink x + 1)) x)) ;;
                on_fs (iupdate ip) ;;
                on_fs (iunlock ip) ;;
                r ← on_fs (nameiparent devread (pid p) (idx (cwd p)) new) ;
                match r.1 with
                | None => link_bad (pid p) ip
                | Some dp =>
                    on_fs (ilock (pid p) dp) ;;
                    d ← on_fs (the_inode dp) ;
                    x ← on_fs (the_inode ip) ;
                    bad ← (if negb (i_dev d =? i_dev x) then mret true
                           else v ← on_fs (dirlink devread devwrite (pid p) dp r.2 (i_inum x)) ; mret (v <? 0)) ;
                    if (bad : bool) then on_fs (iunlockput (pid p) dp) ;; link_bad (pid p) ip
                    else
                      on_fs (iunlockput (pid p) dp) ;;
                      on_fs (iput (pid p) ip) ;;
                      end_ret 0
                end
          end
      end
  end.

Fixpoint isdirempty_loop (fuel : nat) (dp : nat) (off : Z) : MF bool :=
  match fuel with
  | O => panic "out of fuel"
  | Datatypes.S f =>
      x ← the_inode dp ;
      if negb (off <? i_size x) then mret true
      else
        r ← readi devread dp off DIRENT_SIZE ;
        if negb (r.1 =? DIRENT_SIZE) then panic "isdirempty: readi"
        else if negb (de_inum r.2 =? 0) then mret false
        else isdirempty_loop f dp (off + DIRENT_SIZE)
  end.
(** One pass per entry after the first two, and the test that ends the loop. *)
Definition isdirempty (dp : nat) : MF bool :=
  x ← the_inode dp ; isdirempty_loop (dir_fuel (i_size x)) dp (2 * DIRENT_SIZE).

Definition unlink_bad (me : Z) (dp : nat) : MP Z := on_fs (iunlockput me dp) ;; end_ret (-1).

Definition sys_unlink (c : nat) : MP Z :=
  me ← cur_proc c ;
  let p := me.2 in
  o0 ← on_mem (argstr p 0) ;
  match o0 with
  | None => mret (-1)
  | Some path =>
      on_w op_begin ;;
      r ← on_fs (nameiparent devread (pid p) (idx (cwd p)) path) ;
      match r.1 with
      | None => end_ret (-1)
      | Some dp =>
          on_fs (ilock (pid p) dp) ;;
          if (namecmp r.2 dot =? 0) || (namecmp r.2 dotdot =? 0) then unlink_bad (pid p) dp
          else
            o ← on_fs (dirlookup devread dp r.2) ;
            match o with
            | None => unlink_bad (pid p) dp
            | Some (ip, off) =>
                on_fs (ilock (pid p) ip) ;;
                x ← on_fs (the_inode ip) ;
                if i_nlink x <? 1 then panic "unlink: nlink < 1" else
                e ← (if i_type x =? T_DIR then on_fs (isdirempty ip) else mret true) ;
                if negb e then on_fs (iunlockput (pid p) ip) ;; unlink_bad (pid p) dp
                else
                  w ← on_fs (writei devwrite dp (replicate 16 0) off DIRENT_SIZE) ;
                  if negb (w =? DIRENT_SIZE) then panic "unlink: writei"
                  else
                    (if i_type x =? T_DIR then
                       on_fs (upd_inode dp (fun x => set_nlink (s16 (i_nlink x - 1)) x)) ;;
                       on_fs (iupdate dp)
                     else mret tt) ;;
                    on_fs (iunlockput (pid p) dp) ;;
                    on_fs (upd_inode ip (fun x => set_nlink (s16 (i_nlink x - 1)) x)) ;;
                    on_fs (iupdate ip) ;;
                    on_fs (iunlockput (pid p) ip) ;;
                    end_ret 0
            end
      end
  end.

Definition create (p : proc) (path : list Z) (ty major minor : Z) : MF (option nat) :=
  r ← nameiparent devread (pid p) (idx (cwd p)) path ;
  match r.1 with
  | None => mret None
  | Some dp =>
      ilock (pid p) dp ;;
      o ← dirlookup devread dp r.2 ;
      match o with
      | Some (ip, _) =>
          iunlockput (pid p) dp ;;
          ilock (pid p) ip ;;
          x ← the_inode ip ;
          if (ty =? T_FILE) && (i_type x =? T_FILE) then mret (Some ip)
          else iunlockput (pid p) ip ;; mret None
      | None =>
          d ← the_inode dp ;
          ip ← ialloc (i_dev d) ty ;
          ilock (pid p) ip ;;
          upd_inode ip (fun x => set_nlink 1 (set_dev (s16 major) (s16 minor) x)) ;;
          iupdate ip ;;
          x ← the_inode ip ;
          (if ty =? T_DIR then
             upd_inode dp (fun x => set_nlink (s16 (i_nlink x + 1)) x) ;;
             iupdate dp ;;
             v ← dirlink devread devwrite (pid p) ip dot (i_inum x) ;
             if v <? 0 then panic "create dots" else
             v ← dirlink devread devwrite (pid p) ip dotdot (i_inum d) ;
             if v <? 0 then panic "create dots" else mret tt
           else mret tt) ;;
          v ← dirlink devread devwrite (pid p) dp r.2 (i_inum x) ;
          if v <? 0 then panic "create: dirlink"
          else iunlockput (pid p) dp ;; mret (Some ip)
      end
  end.

(** [sys_open] once it has the locked inode. *)
Definition open_file (c : nat) (ip : nat) (omode : Z) : MP Z :=
  me ← cur_proc c ;
  let p := me.2 in
  f ← on_w filealloc ;
  fd ← (if f =? 0 then mret (-1) else fdalloc c f) ;
  if fd <? 0 then
    (if f =? 0 then mret tt else on_w (fileclose kend (pid p) f)) ;;
    on_fs (iunlockput (pid p) ip) ;;
    end_ret (-1)
  else
    on_fs (iunlock ip) ;;
    on_w op_end ;;
    let wr := negb (Z.land omode O_WRONLY =? 0) in
    on_w (upd_file f (set_inode_end (negb wr) (wr || negb (Z.land omode O_RDWR =? 0)) ip)) ;;
    mret fd.

Definition sys_open (c : nat) : MP Z :=
  me ← cur_proc c ;
  let p := me.2 in
  o0 ← on_mem (argstr p 0) ;
  match o0 with
  | None => mret (-1)
  | Some path =>
      o1 ← on_mem (argint p 1) ;
      match o1 with
      | None => mret (-1)
      | Some omode =>
          on_w op_begin ;;
          if negb (Z.land omode O_CREATE =? 0) then
            o ← on_fs (create p path T_FILE 0 0) ;
            match o with None => end_ret (-1) | Some ip => open_file c ip omode end
          else
            o ← on_fs (namei devread (pid p) (idx (cwd p)) path) ;
            match o with
            | None => end_ret (-1)
            | Some ip =>
                on_fs (ilock (pid p) ip) ;;
                x ← on_fs (the_inode ip) ;
                if (i_type x =? T_DIR) && negb (omode =? O_RDONLY) then
                  on_fs (iunlockput (pid p) ip) ;; end_ret (-1)
                else open_file c ip omode
            end
      end
  end.

Definition sys_mkdir (c : nat) : MP Z :=
  me ← cur_proc c ;
  let p := me.2 in
  on_w op_begin ;;
  o ← on_mem (argstr p 0) ;
  match o with
  | None => end_ret (-1)
  | Some path =>
      o ← on_fs (create p path T_DIR 0 0) ;
      match o with
      | None => end_ret (-1)
      | Some ip => on_fs (iunlockput (pid p) ip) ;; end_ret 0
      end
  end.

Definition sys_mknod (c : nat) : MP Z :=
  me ← cur_proc c ;
  let p := me.2 in
  on_w op_begin ;;
  o ← on_mem (argstr p 0) ;
  match o with
  | None => end_ret (-1)
  | Some path =>
      o1 ← on_mem (argint p 1) ;
      match o1 with
      | None => end_ret (-1)
      | Some major =>
          o2 ← on_mem (argint p 2) ;
          match o2 with
          | None => end_ret (-1)
          | Some minor =>
              o ← on_fs (create p path T_DEV major minor) ;
              match o with
              | None => end_ret (-1)
              | Some ip => on_fs (iunlockput (pid p) ip) ;; end_ret 0
              end
          end
      end
  end.

Definition sys_chdir (c : nat) : MP Z :=
  me ← cur_proc c ;
  let p := me.2 in
  on_w op_begin ;;
  o ← on_mem (argstr p 0) ;
  match o with
  | None => end_ret (-1)
  | Some path =>
      o ← on_fs (namei devread (pid p) (idx (cwd p)) path) ;
      match o with
      | None => end_ret (-1)
      | Some ip =>
          on_fs (ilock (pid p) ip) ;;
          x ← on_fs (the_inode ip) ;
          if negb (i_type x =? T_DIR) then on_fs (iunlockput (pid p) ip) ;; end_ret (-1)
          else
            on_fs (iunlock ip) ;;
            on_fs (iput (pid p) (idx (cwd p))) ;;
            on_w op_end ;;
            on_proc me.1 (set_cwd (ptr ip)) ;;
            mret 0
      end
  end.

(** The argument vector of [sys_exec]: the strings, [n] entries left of which the next is the
    [i]-th, or [None] for -1. *)
Fixpoint fetch_argv (n : nat) (p : proc) (uargv i : Z) : M kmem (option (list (list Z))) :=
  match n with
  | O => mret None
  | Datatypes.S n' =>
      o ← fetchint p (u32 (uargv + 4 * i)) ;
      match o with
      | None => mret None
      | Some uarg =>
          if uarg =? 0 then mret (Some [])
          else
            o ← fetchstr p (u32 uarg) ;
            match o with
            | None => mret None
            | Some a =>
                o ← fetch_argv n' p uargv (i + 1) ;
                match o with None => mret None | Some l => mret (Some (a :: l)) end
            end
      end
  end.

Definition sys_exec (c : nat) : MP Z :=
  me ← cur_proc c ;
  let p := me.2 in
  o0 ← on_mem (argstr p 0) ;
  match o0 with
  | None => mret (-1)
  | Some path =>
      o1 ← on_mem (argint p 1) ;
      match o1 with
      | None => mret (-1)
      | Some uargv =>
          o ← on_mem (fetch_argv MAXARG p (u32 uargv) 0) ;
          match o with None => mret (-1) | Some argv => exec kend kdata devread c path argv end
      end
  end.

Definition sys_pipe (c : nat) : MP Z :=
  me ← cur_proc c ;
  let p := me.2 in
  o ← on_mem (argptr p 0 8) ;
  match o with
  | None => mret (-1)
  | Some fd =>
      o ← on_w (pipealloc kend (pid p)) ;
      match o with
      | None => mret (-1)
      | Some (rf, wf) =>
          fd0 ← fdalloc c rf ;
          fd1 ← (if fd0 <? 0 then mret (-1) else fdalloc c wf) ;
          if fd1 <? 0 then
            (if 0 <=? fd0 then on_proc me.1 (set_ofile (Z.to_nat fd0) 0) else mret tt) ;;
            on_w (fileclose kend (pid p) rf) ;;
            on_w (fileclose kend (pid p) wf) ;;
            mret (-1)
          else
            on_mem (store32 (pgdir p) fd fd0) ;;
            on_mem (store32 (pgdir p) (fd +u 4) fd1) ;;
            mret 0
      end
  end.
End code.
