(* ===== verification/Syscall.v ===== *)
(** * syscall.c, sysproc.c and trap.c: system call dispatch and traps

    [kern] adds the tick counter to the process table.  A system call gives [Some] return value, or
    [None] if it does not return to its caller ([exit]).  Wakeups collected by the calls are
    delivered to the process table before the call returns.  The interrupt handlers of the devices
    are arguments; acknowledging an interrupt and the messages on the console are not part of the
    state. *)
From S2P Require Import Prelude Mem Mmu Kalloc Vm Lock Pipe Ide BlockStore Bytes Log Fs Proc Uaccess File Exec.
From S2P Require Import Sysfile.
#[local] Open Scope Z_scope.

Record kern (S : Type) := Kern { k_pt : ptable (world S); ticks : Z }.
Arguments Kern {S}.
Arguments k_pt {S}.
Arguments ticks {S}.

Definition T_SYSCALL : Z := 64.
Definition T_IRQ0 : Z := 32.
Definition IRQ_TIMER : Z := 0.
Definition IRQ_KBD : Z := 1.
Definition IRQ_COM1 : Z := 4.
Definition IRQ_IDE : Z := 14.
Definition IRQ_SPURIOUS : Z := 31.

Section code.
Context {S : Type} `{BlockStore S}.
Variable kend kdata initcode initcode_size trapret forkret_addr : Z.
Variable devread : Z -> option (nat -> Z -> M (fstate S) (Z * list Z)).
Variable devwrite : Z -> option (nat -> list Z -> Z -> M (fstate S) Z).

Notation MT := (M (kern S)).
#[local] Instance kservices : Kernel (world S) := world_kernel kend kdata initcode initcode_size devread.

Definition on_pt {A} (m : M (ptable (world S)) A) : MT A := zoom k_pt (fun x k => Kern x (ticks k)) m.

(** Every channel woken by the call, in order. *)
Definition deliver : MT unit :=
  on_pt (
    s ← gets id ;
    foldr (fun ch m => wakeup ch ;; m) (mret tt) (woken (Proc.world s)) ;;
    on_w (modify (fun w => World (w_fs w) (ftable w) (pipes w) (w_mem w) (w_kpgdir w) (w_regs w) []))).

Definition sys_fork (c : nat) : MT (option Z) := r ← on_pt (fork trapret forkret_addr c) ; mret (Some r).
Definition sys_exit (c : nat) : MT (option Z) := on_pt (exit c) ;; mret None.
Definition sys_wait (c : nat) : MT (option Z) := r ← on_pt (wait c) ; mret (Some r).

Definition sys_kill (c : nat) : MT (option Z) :=
  me ← on_pt (cur_proc c) ;
  o ← on_pt (on_mem (argint me.2 0)) ;
  match o with
  | None => mret (Some (-1))
  | Some n => r ← on_pt (kill n) ; mret (Some r)
  end.

Definition sys_getpid (c : nat) : MT (option Z) := me ← on_pt (cur_proc c) ; mret (Some (pid me.2)).

Definition sys_sbrk (c : nat) : MT (option Z) :=
  me ← on_pt (cur_proc c) ;
  o ← on_pt (on_mem (argint me.2 0)) ;
  match o with
  | None => mret (Some (-1))
  | Some n =>
      let addr := s32 (sz me.2) in
      r ← on_pt (growproc c n) ;
      if r <? 0 then mret (Some (-1)) else mret (Some addr)
  end.

(** One pass of the loop of [sys_sleep] under [tickslock], for a call made at [ticks0]: the count is
    compared as an unsigned number. *)
Definition sleep_pass (c : nat) (ticks0 n : Z) : MT (option Z) :=
  k ← gets id ;
  if ticks k -u ticks0 <? u32 n then
    me ← on_pt (cur_proc c) ;
    if negb (killed me.2 =? 0) then mret (Some (-1))
    else on_pt (Proc.sleep c ChTicks) ;; sleep_on ChTicks
  else mret (Some 0).

Definition sys_sleep (c : nat) : MT (option Z) :=
  me ← on_pt (cur_proc c) ;
  o ← on_pt (on_mem (argint me.2 0)) ;
  match o with
  | None => mret (Some (-1))
  | Some n => k ← gets id ; sleep_pass c (ticks k) n
  end.

Definition sys_uptime (c : nat) : MT (option Z) := k ← gets id ; mret (Some (s32 (ticks k))).

Definition file_call (m : M (ptable (world S)) Z) : MT (option Z) := r ← on_pt m ; mret (Some r).

(** The table [syscalls], by number. *)
Definition syscalls (c : nat) (num : Z) : option (MT (option Z)) :=
  match num with
  | 1 => Some (sys_fork c)
  | 2 => Some (sys_exit c)
  | 3 => Some (sys_wait c)
  | 4 => Some (file_call (sys_pipe kend c))
  | 5 => Some (file_call (sys_read devread c))
  | 6 => Some (sys_kill c)
  | 7 => Some (file_call (sys_exec kend kdata devread c))
  | 8 => Some (file_call (sys_fstat c))
  | 9 => Some (file_call (sys_chdir devread c))
  | 10 => Some (file_call (sys_dup c))
  | 11 => Some (sys_getpid c)
  | 12 => Some (sys_sbrk c)
  | 13 => Some (sys_sleep c)
  | 14 => Some (sys_uptime c)
  | 15 => Some (file_call (sys_open kend devread devwrite c))
  | 16 => Some (file_call (sys_write devwrite c))
  | 17 => Some (file_call (sys_mknod devread devwrite c))
  | 18 => Some (file_call (sys_unlink devread devwrite c))
  | 19 => Some (file_call (sys_link devread devwrite c))
  | 20 => Some (file_call (sys_mkdir devread devwrite c))
  | 21 => Some (file_call (sys_close kend c))
  | _ => None
  end.

(** NELEM(syscalls) *)
Definition nsyscalls : Z := 22.

(** [syscall]; true if the process goes on. *)
Definition syscall (c : nat) : MT bool :=
  me ← on_pt (cur_proc c) ;
  let num := s32 (tf_eax (tf me.2)) in
  let ret v := on_pt (on_proc me.1 (fun p => set_tf (set_eax (u32 v) (tf p)) p)) ;; mret true in
  match (if (0 <? num) && (num <? nsyscalls) then syscalls c num else None) with
  | Some call =>
      o ← call ;
      deliver ;;
      match o with Some v => ret v | None => mret false end
  | None => ret (-1)
  end.

(** The device handlers, with the channels they wake. *)
Variable ideintr_h kbdintr_h uartintr_h : MT (list chan).

Definition handle (m : MT (list chan)) : MT unit :=
  l ← m ; on_pt (foldr (fun ch k => wakeup ch ;; k) (mret tt) l).

(** [exit] if the process of this CPU has been killed and the trap came from user space; true if
    the process goes on. *)
Definition exit_if_killed (c : nat) (cs : Z) : MT bool :=
  o ← on_pt (myproc c) ;
  match o with
  | None => mret true
  | Some i =>
      p ← on_pt (the_proc i) ;
      if negb (killed p =? 0) && (Z.land cs 3 =? DPL_USER) then on_pt (exit c) ;; mret false else mret true
  end.

(** The end of [trap]: a clock tick makes the process yield; what it does when it is picked again is
    one more [exit_if_killed]. *)
Definition trap_end (c : nat) (t : trapframe) : MT unit :=
  go ← exit_if_killed c (tf_cs t) ;
  if negb go then mret tt
  else
    o ← on_pt (myproc c) ;
    match o with
    | None => mret tt
    | Some i =>
        p ← on_pt (the_proc i) ;
        if in_state RUNNING p && (tf_trapno t =? T_IRQ0 + IRQ_TIMER) then on_pt (yield c)
        else exit_if_killed c (tf_cs t) ;; mret tt
    end.

Definition trap (c : nat) (t : trapframe) : MT unit :=
  if tf_trapno t =? T_SYSCALL then
    me ← on_pt (cur_proc c) ;
    if negb (killed me.2 =? 0) then on_pt (exit c)
    else
      on_pt (on_proc me.1 (set_tf t)) ;;
      go ← syscall c ;
      if negb go then mret tt
      else
        me ← on_pt (cur_proc c) ;
        if negb (killed me.2 =? 0) then on_pt (exit c) else mret tt
  else
    let no := tf_trapno t - T_IRQ0 in
    (if no =? IRQ_TIMER then
       if (c =? 0)%nat then
         modify (fun k => Kern (k_pt k) (ticks k +u 1)) ;; on_pt (wakeup ChTicks)
       else mret tt
     else if no =? IRQ_IDE then handle ideintr_h
     else if no =? IRQ_IDE + 1 then mret tt
     else if no =? IRQ_KBD then handle kbdintr_h
     else if no =? IRQ_COM1 then handle uartintr_h
     else if (no =? 7) || (no =? IRQ_SPURIOUS) then mret tt
     else
       o ← on_pt (myproc c) ;
       match o with
       | None => panic "trap"
       | Some i =>
           if Z.land (tf_cs t) 3 =? 0 then panic "trap" else on_pt (on_proc i (set_killed 1))
       end) ;;
    trap_end c t.
End code.
