(* ===== verification/FileSys.v ===== *)
(** * Reference counts of open files

    The reference count of an open file is the number of descriptors that name it, over all
    processes.  The proof follows each system call with an assertion that allows for references held
    by the call itself: [fref x] says that the counts exceed the descriptors by [x]. *)
From S2P Require Import Prelude Mem Mmu Kalloc Vm Lock Pipe Ide BlockStore Bytes Log Fs Proc ProcSys Uaccess File.
From S2P Require Import Exec Sysfile Syscall.
#[local] Open Scope Z_scope.

(** ** Partial correctness of routines *)

(** From a state in [P], a run of [m] that returns ends with [Q]. *)
Definition triple {T A} (P : T -> Prop) (m : M T A) (Q : A -> T -> Prop) : Prop :=
  forall s a s', P s -> m s = Ok a s' -> Q a s'.

Section triple.
Context {T A B : Type}.
Implicit Types (P : T -> Prop) (Q : B -> T -> Prop) (R : A -> T -> Prop).

Lemma triple_bind P R Q (m : M T A) (k : A -> M T B) :
  triple P m R -> (forall a, triple (R a) (k a) Q) -> triple P (m ≫= k) Q.
Proof. intros Hm Hk s b s' Hs (a & s1 & E1 & E2)%bind_inv. by eapply Hk, E2; eapply Hm, E1. Qed.

Lemma triple_ret P Q (b : B) : (forall s, P s -> Q b s) -> triple P (mret b) Q.
Proof. intros H s a s' Hs E. injection E as <- <-. auto. Qed.

Lemma triple_panic P Q msg : triple P (panic msg) Q.
Proof. by intros s a s'. Qed.

Lemma triple_sleep P Q ch : triple P (sleep_on ch) Q.
Proof. by intros s a s'. Qed.

Lemma triple_pre P P' Q (m : M T B) : (forall s, P s -> P' s) -> triple P' m Q -> triple P m Q.
Proof. intros H Hm s b s' Hs. by apply Hm, H. Qed.

Lemma triple_post P Q Q' (m : M T B) : triple P m Q -> (forall b s, Q b s -> Q' b s) -> triple P m Q'.
Proof. intros Hm H s b s' Hs E. by eapply H, Hm. Qed.

Lemma triple_pure (X : Prop) P Q (m : M T B) : (X -> triple P m Q) -> triple (fun s => X /\ P s) m Q.
Proof. intros H s b s' [HX Hs]. by apply H. Qed.

Lemma triple_pure_r (X : Prop) P Q (m : M T B) : (X -> triple P m Q) -> triple (fun s => P s /\ X) m Q.
Proof. intros H s b s' [Hs HX]. by apply H. Qed.

Lemma triple_or (X Y : T -> Prop) Q (m : M T B) : triple X m Q -> triple Y m Q -> triple (fun s => X s \/ Y s) m Q.
Proof. intros H1 H2 s b s' [Hs | Hs]; [by apply H1 | by apply H2]. Qed.

Lemma triple_ex {C} (P : C -> T -> Prop) Q (m : M T B) :
  (forall x, triple (P x) m Q) -> triple (fun s => exists x, P x s) m Q.
Proof. intros H s b s' [x Hs]. by apply (H x). Qed.
End triple.

(** ** Counting descriptors *)

Definition count (f : Z) (l : list Z) : Z := Z.of_nat (length (filter (fun g => g = f) l)).
Definition total (ps : nat -> proc) (f : Z) : Z :=
  foldr (fun k a => count f (ofile (ps k)) + a) 0 (seq 0 NPROC).
Definition delta (f g : Z) : Z := if decide (g = f) then 1 else 0.

Lemma count_insert f l fd g :
  (fd < length l)%nat -> count f (<[fd := g]> l) = count f l + delta f g - delta f (l !!! fd).
Proof.
  revert fd. induction l as [|a l IH]; intros [|fd] Hl; simpl in *; try lia.
  - unfold count, delta. rewrite !filter_cons. repeat case_decide; simpl; lia.
  - unfold count in *. rewrite !filter_cons. specialize (IH fd ltac:(lia)).
    case_decide; cbn [length]; rewrite ?Nat2Z.inj_succ; lia.
Qed.

Lemma count_0 f n : f <> 0 -> count f (replicate n 0) = 0.
Proof.
  intros Hf. unfold count. induction n as [|n IH]; [done |]. simpl. rewrite filter_cons.
  rewrite decide_False by congruence. exact IH.
Qed.

Lemma count_pos f l fd : l !! fd = Some f -> 1 <= count f l.
Proof.
  intros Hf. unfold count. assert (Hin : f ∈ filter (fun g => g = f) l).
  { apply list_elem_of_filter. split; [done | by eapply list_elem_of_lookup_2]. }
  destruct (filter _ l); [by apply not_elem_of_nil in Hin |]. simpl. lia.
Qed.

Lemma fold_slot (ps : nat -> proc) k q f l :
  NoDup l -> foldr (fun j a => count f (ofile (fupd ps k q j)) + a) 0 l =
  foldr (fun j a => count f (ofile (ps j)) + a) 0 l +
    (if decide (k ∈ l) then count f (ofile q) - count f (ofile (ps k)) else 0).
Proof.
  induction 1 as [|j l Hj Hl IH]; simpl; [done |]. rewrite IH. unfold fupd at 1.
  destruct (decide (j = k)) as [-> | Hne].
  - rewrite (decide_False (P := k ∈ l)) by done. rewrite (decide_True (P := k ∈ k :: l)) by (by left). lia.
  - destruct (decide (k ∈ l)).
    + rewrite decide_True by (by right). lia.
    + rewrite decide_False; [lia |]. intros [-> | ?]%elem_of_cons; done.
Qed.

Lemma total_slot ps k q f :
  (k < NPROC)%nat -> total (fupd ps k q) f = total ps f + count f (ofile q) - count f (ofile (ps k)).
Proof.
  intros Hk. unfold total. rewrite fold_slot by apply NoDup_seq.
  rewrite decide_True by (apply elem_of_seq; lia). lia.
Qed.

Lemma total_ext ps ps' f : (forall k, (k < NPROC)%nat -> ofile (ps' k) = ofile (ps k)) -> total ps' f = total ps f.
Proof.
  intros H. unfold total. assert (Hl : forall k, k ∈ seq 0 NPROC -> (k < NPROC)%nat) by (intros k ?%elem_of_seq; lia).
  induction (seq 0 NPROC) as [|k l IH]; simpl; [done |].
  rewrite H by (apply Hl; by left). f_equal. apply IH. intros j Hj. apply Hl. by right.
Qed.

Lemma total_pos ps k fd f : (k < NPROC)%nat -> ofile (ps k) !! fd = Some f -> 1 <= total ps f.
Proof.
  intros Hk Hf. pose proof (count_pos _ _ _ Hf) as Hc. unfold total.
  assert (Hin : k ∈ seq 0 NPROC) by (apply elem_of_seq; lia). revert Hin.
  assert (Hnn : forall l, 0 <= foldr (fun k a => count f (ofile (ps k)) + a) 0 l).
  { induction l; simpl; unfold count in *; lia. }
  induction (seq 0 NPROC) as [|j l IH]; simpl; [by intros ?%not_elem_of_nil |].
  intros [<- | Hj]%elem_of_cons; [specialize (Hnn l); lia |]. specialize (IH Hj). unfold count in *. lia.
Qed.

Section refs.
Context {St : Type} `{BlockStore St}.
Notation pt := (ptable (world St)).

Definition idle (x : procstate) : bool := match x with UNUSED | EMBRYO | ZOMBIE => true | _ => false end.
Definition file_ptr (f : Z) : Prop := exists i, (i < NFILE)%nat /\ f = ptr i.

(** Every count is the number of descriptors plus [x]; descriptors are null or name a file; a slot
    that is free or a zombie has none, but for slot [ex] while [fork] fills it; a CPU runs a running process, and no two CPUs the same. *)
Record fref (ex : option nat) (x : Z -> Z) (s : pt) : Prop := {
  fr_len : forall k, (k < NPROC)%nat -> length (ofile (procs s k)) = NOFILE;
  fr_ptr : forall k f, (k < NPROC)%nat -> f ∈ ofile (procs s k) -> f = 0 \/ file_ptr f;
  fr_idle : forall k, (k < NPROC)%nat -> ex <> Some k -> idle (state (procs s k)) = true ->
    ofile (procs s k) = replicate NOFILE 0;
  fr_cur : forall c i, cur s c = Some i -> (i < NPROC)%nat /\ state (procs s i) = RUNNING;
  fr_cpu : forall c c' i, cur s c = Some i -> cur s c' = Some i -> c = c';
  fr_ref : forall i, (i < NFILE)%nat ->
    f_ref (ftable (Proc.world s) i) = total (procs s) (ptr i) + x (ptr i)
}.

(** The same with process [p] in slot [i] on CPU [c]. *)
Definition at_cpu (x : Z -> Z) (c i : nat) (p : proc) (s : pt) : Prop :=
  fref None x s /\ cur s c = Some i /\ procs s i = p.

Lemma fref_ext ex x y s : (forall f, f <> 0 -> x f = y f) -> fref ex x s -> fref ex y s.
Proof.
  intros Hx [F1 F2 F3 F4 F5 F6]. split; try done. intros i Hi. rewrite <- Hx by (unfold ptr; lia). by apply F6.
Qed.

(** *** Steps that change no count *)

Definition keeps_ft {A} (m : M (world St) A) : Prop := 
  forall w a w', m w = Ok a w' -> forall k, f_ref (ftable w' k) = f_ref (ftable w k).

Lemma keeps_ft_bind {A B} (m : M (world St) A) (k : A -> M (world St) B) :
  keeps_ft m -> (forall a, keeps_ft (k a)) -> keeps_ft (m ≫= k).
Proof. intros Hm Hk w b w' (a & w1 & E1 & E2)%bind_inv k'. rewrite (Hk _ _ _ _ E2). by eapply Hm. Qed.

Lemma keeps_in_fs {A} (m : M (fstate St) A) : keeps_ft (in_fs m).
Proof. intros w a w'. unfold in_fs, zoom. destruct (m (w_fs w)); intros [= _ <-]. done. Qed.
Lemma keeps_in_kmem {A} (m : M kmem A) : keeps_ft (in_kmem m).
Proof. intros w a w'. unfold in_kmem, zoom. destruct (m (w_mem w)); intros [= _ <-]. done. Qed.
Lemma keeps_on_cpu {A} c (m : M cpumm A) : keeps_ft (on_cpu c m).
Proof. intros w a w'. unfold on_cpu, zoom. destruct (m _); intros [= _ <-]. done. Qed.
Lemma keeps_wakes l : keeps_ft (wakes l).
Proof. by intros w a w' [= _ <-]. Qed.
Lemma keeps_set_pipe a p : keeps_ft (set_pipe a p).
Proof. by intros w b w' [= _ <-]. Qed.
Lemma keeps_ret {A} (a : A) : keeps_ft (mret a).
Proof. by intros w b w' [= _ <-]. Qed.
Lemma keeps_op_begin : keeps_ft op_begin.
Proof. apply keeps_in_fs. Qed.
Lemma keeps_op_end : keeps_ft op_end.
Proof. apply keeps_ft_bind; [apply keeps_in_fs | apply keeps_wakes]. Qed.

Lemma world_step {A} (m : M (world St) A) x c i p s a s' :
  keeps_ft m -> at_cpu x c i p s -> on_w m s = Ok a s' -> at_cpu x c i p s'.
Proof.
  intros Hm ([F1 F2 F3 F4 F5 F6] & Hc & Hp) (w & Ew & ->)%on_w_inv. split; [| done]. split; try done.
  intros j Hj. simpl. rewrite (Hm _ _ _ Ew). by apply F6.
Qed.

Lemma frame_w {A} (m : M (world St) A) x c i p :
  keeps_ft m -> triple (at_cpu x c i p) (on_w m) (fun _ => at_cpu x c i p).
Proof. intros Hm s a s' Hs. by eapply world_step. Qed.

Lemma frame_fs {A} (m : M (fstate St) A) x c i p : triple (at_cpu x c i p) (on_fs m) (fun _ => at_cpu x c i p).
Proof. apply frame_w, keeps_in_fs. Qed.
Lemma frame_mem {A} (m : M kmem A) x c i p : triple (at_cpu x c i p) (on_mem m) (fun _ => at_cpu x c i p).
Proof. apply frame_w, keeps_in_kmem. Qed.

Lemma cur_proc_at x c i p : triple (at_cpu x c i p) (cur_proc c) (fun ip s => ip = (i, p) /\ at_cpu x c i p s).
Proof.
  intros s a s' Hs E. pose proof Hs as (_ & Hc & Hp). unfold cur_proc in E.
  erewrite bind_ok in E by reflexivity. rewrite Hc in E. injection E as <- <-. by rewrite Hp.
Qed.

(** *** Steps on one slot *)

(** A process changes in place, keeping its descriptors. *)
Lemma fref_slot ex x s i q :
  fref ex x s -> ofile q = ofile (procs s i) ->
  (idle (state q) = true -> idle (state (procs s i)) = true \/ ex = Some i) ->
  (state (procs s i) = RUNNING -> state q = RUNNING) ->
  fref ex x (set_procs (fupd (procs s) i q) s).
Proof.
  intros [F1 F2 F3 F4 F5 F6] Ho Hs Hr.
  assert (E : forall k, ofile (fupd (procs s) i q k) = ofile (procs s k)).
  { intros k. unfold fupd. case_decide; by subst. }
  split; simpl.
  - intros k Hk. rewrite E. by apply F1.
  - intros k f Hk. rewrite E. by apply F2.
  - intros k Hk He. rewrite E. unfold fupd. case_decide; [subst | by apply F3].
    intros Hi. destruct (Hs Hi) as [? | ?]; [by apply F3 | done].
  - intros c k Hk. destruct (F4 c k Hk) as [? ?]. unfold fupd. case_decide; [subst; auto | done].
  - exact F5.
  - intros j Hj. rewrite (F6 j Hj). f_equal. symmetry. apply total_ext. intros k _. apply E.
Qed.

Lemma frame_proc x c i p g :
  (forall q, ofile (g q) = ofile q /\ state (g q) = state q) ->
  triple (at_cpu x c i p) (on_proc i g) (fun _ => at_cpu x c i (g p)).
Proof.
  intros Hg s a s' (F & Hc & Hp) [= _ <-]. destruct (Hg (procs s i)) as [G1 G2].
  split; [apply fref_slot; [done | done | rewrite G2; by left | by rewrite G2] |].
  simpl. rewrite fupd_same. by rewrite Hp.
Qed.

(** A descriptor changes. *)
Lemma fref_set_ofile ex x s i fd g :
  fref ex x s -> (i < NPROC)%nat -> (fd < NOFILE)%nat -> g = 0 \/ file_ptr g ->
  (idle (state (procs s i)) = true -> ex = Some i) ->
  fref ex (fun f => x f + delta f (ofile (procs s i) !!! fd) - delta f g)
    (set_procs (fupd (procs s) i (set_ofile fd g (procs s i))) s).
Proof.
  intros [F1 F2 F3 F4 F5 F6] Hi Hfd Hg Hid. pose proof (F1 i Hi) as Hl. split; simpl.
  - intros k Hk. unfold fupd. case_decide; [simpl; by rewrite length_insert | by apply F1].
  - intros k f Hk. unfold fupd. case_decide; [subst; simpl | by apply F2].
    intros Hf. apply list_elem_of_lookup in Hf as [j Hj]. apply lookup_insert_case in Hj as [[_ <-] | [_ Hj]]; [done |].
    apply (F2 i); [done |]. by eapply list_elem_of_lookup_2.
  - intros k Hk He. unfold fupd. case_decide; [subst; simpl | by apply F3]. intros ?%Hid. done.
  - intros c' k Hk. destruct (F4 c' k Hk) as [? ?]. unfold fupd. case_decide; [by subst | done].
  - exact F5.
  - intros j Hj. rewrite (F6 j Hj), total_slot by done. simpl. rewrite count_insert by lia. lia.
Qed.

Lemma set_ofile_at x c i p fd g :
  (fd < NOFILE)%nat -> g = 0 \/ file_ptr g ->
  triple (at_cpu x c i p) (on_proc i (set_ofile fd g))
    (fun _ => at_cpu (fun f => x f + delta f (ofile p !!! fd) - delta f g) c i (set_ofile fd g p)).
Proof.
  intros Hfd Hg s a s' (F & Hc & Hp) [= _ <-]. destruct (fr_cur _ _ _ F c i Hc) as [Hi Hr].
  split; [| simpl; rewrite fupd_same; by rewrite Hp]. rewrite <- Hp. apply fref_set_ofile; try done. by rewrite Hr.
Qed.

(** *** The file table *)

Lemma keeps_upd_file f g : (forall y, f_ref (g y) = f_ref y) -> keeps_ft (upd_file f g).
Proof. intros Hg w a w' [= _ <-] k. simpl. unfold fupd. case_decide; [by subst | done]. Qed.

Lemma keeps_gets {A} (g : world St -> A) : keeps_ft (gets g).
Proof. by intros w a w' [= _ <-]. Qed.

Lemma idx_ptr j : idx (ptr j) = j.
Proof. unfold idx, ptr. lia. Qed.

(** The counts after the count of one file changed by [d]. *)
Lemma ref_changed ex x s j d w :
  fref ex x s -> (j < NFILE)%nat ->
  (forall k, f_ref (ftable w k) = f_ref (ftable (Proc.world s) k) + if decide (k = j) then d else 0) ->
  fref ex (fun f => x f + d * delta (ptr j) f) (PT (procs s) (initproc s) (nextpid s) (cur s) (pos s) w).
Proof.
  intros [F1 F2 F3 F4 F5 F6] Hj Hw. split; try done. intros k Hk. simpl. rewrite Hw, (F6 k Hk).
  unfold delta. repeat case_decide; subst; unfold ptr in *; try lia.
Qed.

Lemma filedup_fref ex x s f g w :
  file_ptr f -> fref ex x s -> filedup f (Proc.world s) = Ok g w ->
  g = f /\ fref ex (fun h => x h + delta f h) (PT (procs s) (initproc s) (nextpid s) (cur s) (pos s) w).
Proof.
  intros (j & Hj & ->) F Ew. unfold filedup in Ew. erewrite bind_ok in Ew by reflexivity.
  destruct (_ <? 1); [done |]. erewrite bind_ok in Ew by reflexivity. injection Ew as <- <-. split; [done |].
  apply (fref_ext _ (fun g => x g + 1 * delta (ptr j) g)); [intros; lia |].
  apply ref_changed; [done | done |]. intros k. simpl. rewrite idx_ptr. unfold fupd.
  case_decide; [subst; simpl; lia | lia].
Qed.

Lemma filedup_at x c i p f :
  file_ptr f -> triple (at_cpu x c i p) (on_w (filedup f)) (fun _ => at_cpu (fun g => x g + delta f g) c i p).
Proof.
  intros Hf s a s' (F & Hc & Hp) (w & Ew & ->)%on_w_inv. split; [| done]. by eapply filedup_fref.
Qed.

Lemma keeps_close_tail kend me (ff : file) :
  keeps_ft (match f_type ff with
    | FD_PIPE =>
        w ← gets id ;
        let '(p, l, freed) := pipeclose (f_pipe ff) (pipes w (f_pipe ff)) (f_writable ff) in
        set_pipe (f_pipe ff) p ;;
        wakes l ;;
        if freed then in_kmem (kfree kend (f_pipe ff)) else mret tt
    | FD_INODE => op_begin ;; in_fs (iput me (f_ip ff)) ;; op_end
    | FD_NONE => mret tt
    end).
Proof.
  destruct (f_type ff).
  - apply keeps_ret.
  - apply keeps_ft_bind; [by intros ??? [= _ <-] |]. intros w0. destruct (pipeclose _ _ _) as [[p l] freed].
    apply keeps_ft_bind; [apply keeps_set_pipe | intros _]. apply keeps_ft_bind; [apply keeps_wakes | intros _].
    destruct freed; [apply keeps_in_kmem | apply keeps_ret].
  - apply keeps_ft_bind; [apply keeps_op_begin | intros _]. apply keeps_ft_bind; [apply keeps_in_fs | intros _].
    apply keeps_op_end.
Qed.

Lemma fileclose_ft kend me f w a w' :
  fileclose kend me f w = Ok a w' ->
  1 <= f_ref (ftable w (idx f)) /\
  forall k, f_ref (ftable w' k) = f_ref (ftable w k) + if decide (k = idx f) then -1 else 0.
Proof.
  intros Ew. unfold fileclose in Ew. erewrite bind_ok in Ew by reflexivity.
  zcase (f_ref (ftable w (idx f)) <? 1); [done |]. split; [lia |].
  erewrite bind_ok in Ew by reflexivity. zcase (0 <? f_ref (ftable w (idx f)) - 1).
  { injection Ew as _ <-. intros k. simpl. unfold fupd. case_decide; [subst; simpl; lia | lia]. }
  do 3 (erewrite bind_ok in Ew by reflexivity).
  apply keeps_close_tail in Ew. intros k. rewrite Ew. simpl. unfold fupd.
  repeat case_decide; subst; simpl; lia.
Qed.

Lemma fileclose_fref kend me ex x s f a w :
  file_ptr f -> fref ex x s -> fileclose kend me f (Proc.world s) = Ok a w ->
  fref ex (fun g => x g - delta f g) (PT (procs s) (initproc s) (nextpid s) (cur s) (pos s) w).
Proof.
  intros (j & Hj & ->) F Ew. apply fileclose_ft in Ew as [_ Ew]. rewrite idx_ptr in Ew.
  apply (fref_ext _ (fun g => x g + (-1) * delta (ptr j) g)); [intros; lia |]. by apply ref_changed.
Qed.

Lemma fileclose_at kend me x c i p f :
  file_ptr f -> triple (at_cpu x c i p) (on_w (fileclose kend me f)) (fun _ => at_cpu (fun g => x g - delta f g) c i p).
Proof.
  intros Hf s a s' (F & Hc & Hp) (w & Ew & ->)%on_w_inv. split; [| done]. by eapply fileclose_fref.
Qed.

Lemma filealloc_at x c i p :
  triple (at_cpu x c i p) (on_w filealloc)
    (fun f s => (f = 0 /\ at_cpu x c i p s) \/ (file_ptr f /\ at_cpu (fun g => x g + delta f g) c i p s)).
Proof.
  intros s a s' (F & Hc & Hp) (w & Ew & ->)%on_w_inv. unfold filealloc in Ew.
  erewrite bind_ok in Ew by reflexivity. destruct (first_from _ _ _) as [j|] eqn:Hf.
  - apply first_from_Some in Hf as ([_ Hj] & Hz & _). reflect_bool. erewrite bind_ok in Ew by reflexivity.
    injection Ew as <- <-. right. split; [by exists j |]. split; [| done].
    apply (fref_ext _ (fun g => x g + 1 * delta (ptr j) g)); [intros; lia |].
    apply ref_changed; [done | done |]. intros k. simpl. rewrite idx_ptr. unfold fupd.
    case_decide; [subst; simpl; lia | lia].
  - injection Ew as <- <-. left. split; [done |]. split; [| done]. destruct F. by split.
Qed.

Lemma fdalloc_at x c i p f :
  file_ptr f ->
  triple (at_cpu x c i p) (fdalloc c f)
    (fun fd s => (fd < 0 /\ at_cpu x c i p s) \/
       exists n, fd = Z.of_nat n /\ (n < NOFILE)%nat /\
         at_cpu (fun g => x g - delta f g) c i (set_ofile n f p) s).
Proof.
  intros Hf. unfold fdalloc. eapply triple_bind; [apply cur_proc_at |]. intros ip. apply triple_pure. intros ->.
  cbn [fst snd]. destruct (first_from _ _ _) as [n|] eqn:Hn.
  - apply first_from_Some in Hn as ([_ Hn] & Hz & _). reflect_bool.
    eapply triple_bind; [apply set_ofile_at; [done | by right] |]. intros []. apply triple_ret.
    intros s (F & Hc & Hp). right. exists n. split_and!; [done | done |]. split; [| done].
    eapply fref_ext; [| exact F]. intros g Hg. simpl. rewrite Hz. unfold delta. repeat case_decide; lia.
  - apply triple_ret. intros s Hs. left. split; [lia | done].
Qed.

Lemma argfd_at x c i p n :
  triple (at_cpu x c i p) (argfd c n)
    (fun o s => at_cpu x c i p s /\
       match o with
       | Some (fd, f) => (fd < NOFILE)%nat /\ f = ofile p !!! fd /\ file_ptr f
       | None => True
       end).
Proof.
  unfold argfd. eapply triple_bind; [apply cur_proc_at |]. intros ip. apply triple_pure. intros ->. simpl.
  eapply triple_bind; [apply frame_mem |]. intros [fd|]; [| by apply triple_ret].
  destruct (fd <? 0) eqn:E1; [by apply triple_ret |]. destruct (Z.of_nat NOFILE <=? fd) eqn:E2; [by apply triple_ret |].
  simpl. destruct (_ =? 0) eqn:E3; [by apply triple_ret |]. reflect_bool. apply triple_ret.
  intros s Hs. split; [done |]. pose proof Hs as ([F1 F2 F3 F4 F5 F6] & Hc & Hp).
  destruct (F4 c i Hc) as [Hi _]. split_and!; [unfold NOFILE in *; lia | done |].
  destruct (F2 i (ofile p !!! Z.to_nat fd) Hi) as [? | ?]; [| done | done]. rewrite Hp.
  eapply (list_elem_of_lookup_2 _ (Z.to_nat fd)). apply list_lookup_lookup_total_lt.
  rewrite <- Hp, F1 by done. unfold NOFILE in *. lia.
Qed.

(** ** The system calls *)

Definition zero : Z -> Z := fun _ => 0.
Notation counted := (fun _ : _ => fref None zero).

Lemma at_done x c i p s : (forall f, f <> 0 -> x f = 0) -> at_cpu x c i p s -> fref None zero s.
Proof. intros Hx [F _]. by eapply fref_ext. Qed.

(** Follows the code of a call through the steps that leave the file table alone. *)
Ltac calls :=
  repeat (cbn [fst snd]; cbv zeta;
    match goal with
    | |- triple (fun s => _ = _ /\ _) _ _ => apply triple_pure; intros ->
    | |- triple _ (cur_proc _ ≫= _) _ => eapply triple_bind; [apply cur_proc_at | intros ?]
    | |- triple _ (on_fs _ ≫= _) _ => eapply triple_bind; [apply frame_fs | intros ?]
    | |- triple _ (on_mem _ ≫= _) _ => eapply triple_bind; [apply frame_mem | intros ?]
    | |- triple _ (on_w op_begin ≫= _) _ => eapply triple_bind; [apply frame_w, keeps_op_begin | intros ?]
    | |- triple _ (on_w op_end ≫= _) _ => eapply triple_bind; [apply frame_w, keeps_op_end | intros ?]
    | |- triple _ (end_ret _) _ => unfold end_ret
    | |- triple _ (unlink_bad _ _) _ => unfold unlink_bad
    | |- triple _ (link_bad _ _) _ => unfold link_bad
    | |- triple _ (panic _) _ => apply triple_panic
    | |- triple _ (sleep_on _) _ => apply triple_sleep
    | |- triple (at_cpu zero _ _ _) (mret _) _ =>
        apply triple_ret; intros ?; apply at_done; intros; done
    | |- triple (at_cpu ?x ?c ?i ?p) ((if ?b then on_fs ?m else mret ?v) ≫= _) _ =>
        apply (triple_bind _ (fun _ => at_cpu x c i p));
          [destruct b; [apply frame_fs | by apply triple_ret] | intros ?]
    | |- triple _ (match ?o with Some _ => _ | None => _ end) _ => destruct o
    | |- triple _ (if ?b then _ else _) _ => destruct b
    | |- triple _ (let '(_, _) := ?x in _) _ => destruct x
    end).

Section calls.
Variable kend kdata : Z.
Variable devread : Z -> option (nat -> Z -> M (fstate St) (Z * list Z)).
Variable devwrite : Z -> option (nat -> list Z -> Z -> M (fstate St) Z).
Context (c i : nat) (p : proc).

Lemma sys_link_refs : triple (at_cpu zero c i p) (sys_link devread devwrite c) counted.
Proof.
  unfold sys_link. calls.
  apply (triple_bind _ (fun _ => at_cpu zero c i p)).
  - destruct (negb _); [by apply triple_ret |]. eapply triple_bind; [apply frame_fs |]. intros v. by apply triple_ret.
  - intros bad. calls.
Qed.

Lemma sys_unlink_refs : triple (at_cpu zero c i p) (sys_unlink devread devwrite c) counted.
Proof.
  unfold sys_unlink. calls.
  apply (triple_bind _ (fun _ => at_cpu zero c i p)); [| intros []; calls].
  destruct (_ =? _); [| by apply triple_ret]. eapply triple_bind; [apply frame_fs |]. intros v. apply frame_fs.
Qed.

Lemma sys_mkdir_refs : triple (at_cpu zero c i p) (sys_mkdir devread devwrite c) counted.
Proof. unfold sys_mkdir. calls. Qed.

Lemma sys_mknod_refs : triple (at_cpu zero c i p) (sys_mknod devread devwrite c) counted.
Proof. unfold sys_mknod. calls. Qed.

Lemma sys_chdir_refs : triple (at_cpu zero c i p) (sys_chdir devread c) counted.
Proof.
  unfold sys_chdir. calls. eapply triple_bind; [by apply frame_proc | intros ?]. calls.
Qed.

Lemma sys_dup_refs : triple (at_cpu zero c i p) (sys_dup c) counted.
Proof.
  unfold sys_dup. eapply triple_bind; [apply argfd_at |]. intros [[fd f]|]; [| by apply triple_ret; intros s [? _]; eapply at_done].
  apply triple_pure_r. intros (Hfd & -> & Hf). eapply triple_bind; [by apply fdalloc_at |]. intros n.
  apply triple_or; [| apply triple_ex; intros k; apply triple_pure; intros ->; apply triple_pure; intros Hk].
  - apply triple_pure. intros Hn. rewrite (proj2 (Z.ltb_lt _ _) Hn). calls.
  - rewrite (proj2 (Z.ltb_ge _ _)) by lia. eapply triple_bind; [by apply filedup_at |].
    intros g. apply triple_ret. intros s Hs. eapply at_done; [| exact Hs]. intros h _. unfold zero. lia.
Qed.

Lemma sys_close_refs : triple (at_cpu zero c i p) (sys_close kend c) counted.
Proof.
  unfold sys_close. eapply triple_bind; [apply argfd_at |]. intros [[fd f]|]; [| by apply triple_ret; intros s [? _]; eapply at_done].
  apply triple_pure_r. intros (Hfd & -> & Hf). calls.
  eapply triple_bind; [apply set_ofile_at; [done | by left] | intros ?; cbv beta].
  eapply triple_bind; [by apply fileclose_at | intros ?; cbv beta]. apply triple_ret. intros s Hs.
  eapply at_done; [| exact Hs]. intros g Hg. unfold zero, delta. repeat case_decide; subst; lia || done.
Qed.

Lemma filestat_keeps me f : keeps_ft (filestat me f).
Proof.
  unfold filestat. apply keeps_ft_bind; [by intros ??? [= _ <-] |]. intros x.
  destruct (f_type x); try apply keeps_ret.
  apply keeps_ft_bind; [apply keeps_in_fs | intros _]. apply keeps_ft_bind; [apply keeps_in_fs | intros st].
  apply keeps_ft_bind; [apply keeps_in_fs | intros _]. apply keeps_ret.
Qed.

Lemma sys_fstat_refs : triple (at_cpu zero c i p) (sys_fstat c) counted.
Proof.
  unfold sys_fstat. eapply triple_bind; [apply argfd_at |]. intros [[fd f]|]; [| by apply triple_ret; intros s [? _]; eapply at_done].
  apply (triple_pre _ (at_cpu zero c i p)); [by intros s [? _] |]. calls.
  eapply triple_bind; [apply frame_w, filestat_keeps | intros r]. calls.
Qed.

(** Routines of the file layer that leave every count alone. *)
Ltac keeps :=
  repeat (cbn [fst snd]; cbv zeta;
    match goal with
    | |- keeps_ft (_ ≫= _) => apply keeps_ft_bind; [| intros ?]
    | |- keeps_ft (in_fs _) => apply keeps_in_fs
    | |- keeps_ft (in_kmem _) => apply keeps_in_kmem
    | |- keeps_ft (on_cpu _ _) => apply keeps_on_cpu
    | |- keeps_ft (wakes _) => apply keeps_wakes
    | |- keeps_ft (set_pipe _ _) => apply keeps_set_pipe
    | |- keeps_ft (mret _) => apply keeps_ret
    | |- keeps_ft (gets _) => apply keeps_gets
    | |- keeps_ft (the_file _) => apply keeps_gets
    | |- keeps_ft op_begin => apply keeps_op_begin
    | |- keeps_ft op_end => apply keeps_op_end
    | |- keeps_ft (upd_file _ _) => by apply keeps_upd_file
    | |- keeps_ft (panic _) => by intros ???
    | |- keeps_ft (sleep_on _) => by intros ???
    | |- keeps_ft (if ?b then _ else _) => destruct b
    | |- keeps_ft (match ?o with Some _ => _ | None => _ end) => destruct o
    | |- keeps_ft (match ?e with Ret _ => _ | Sleep _ _ => _ end) => destruct e
    | |- keeps_ft (match ?t with FD_NONE => _ | FD_PIPE => _ | FD_INODE => _ end) => destruct t
    | |- keeps_ft (let '(_, _) := ?x in _) => destruct x as [??]
    end).

Lemma fileread_keeps q f a n : keeps_ft (fileread devread q f a n).
Proof. unfold fileread. keeps. Qed.

Lemma filewrite_keeps q f a n : keeps_ft (filewrite devwrite q f a n).
Proof.
  assert (Hl : forall fuel k, keeps_ft (filewrite_loop devwrite fuel q f a n k)).
  { induction fuel as [|fuel IH]; intros k; [by intros ??? |].
    change (filewrite_loop devwrite (Datatypes.S fuel) q f a n k) with
      (if negb (k <? n) then mret (if k =? n then n else -1)
       else
        let n1 := n - k in
        let n1 := if filewrite_max <? n1 then filewrite_max else n1 in
        op_begin ;;
        x ← the_file f ;
        in_fs (ilock (pid q) (f_ip x)) ;;
        src ← in_kmem (load_bytes (Z.to_nat n1) (pgdir q) (a +u k)) ;
        x ← the_file f ;
        r ← in_fs (writei devwrite (f_ip x) src (f_off x) n1) ;
        (if 0 <? s32 r then upd_file f (set_off (f_off x +u r)) else mret tt) ;;
        in_fs (iunlock (f_ip x)) ;;
        op_end ;;
        if s32 r <? 0 then mret (if k =? n then n else -1)
        else if negb (s32 r =? n1) then panic "short filewrite"
        else filewrite_loop devwrite fuel q f a n (k + s32 r)).
    keeps; apply IH. }
  unfold filewrite. keeps. apply Hl.
Qed.

Lemma rw_args_at : triple (at_cpu zero c i p) (rw_args c) (fun _ => at_cpu zero c i p).
Proof.
  unfold rw_args. eapply triple_bind; [apply argfd_at |]. intros [[fd f]|]; [| by apply triple_ret; intros s [? _]].
  apply (triple_pre _ (at_cpu zero c i p)); [by intros s [? _] |]. calls; by apply triple_ret.
Qed.

Lemma sys_read_refs : triple (at_cpu zero c i p) (sys_read devread c) counted.
Proof.
  unfold sys_read. eapply triple_bind; [apply rw_args_at |]. intros [[[f a] n]|]; calls.
  eapply triple_post; [apply frame_w, fileread_keeps |]. intros ? s; cbv beta. by apply at_done.
Qed.

Lemma sys_write_refs : triple (at_cpu zero c i p) (sys_write devwrite c) counted.
Proof.
  unfold sys_write. eapply triple_bind; [apply rw_args_at |]. intros [[[f a] n]|]; calls.
  eapply triple_post; [apply frame_w, filewrite_keeps |]. intros ? s; cbv beta. by apply at_done.
Qed.

Lemma file_ptr_nonzero f : file_ptr f -> (f =? 0) = false.
Proof. intros (j & _ & ->). apply Z.eqb_neq. unfold ptr. lia. Qed.

Lemma at_ext x y q : (forall f, f <> 0 -> x f = y f) -> forall s, at_cpu x c i q s -> at_cpu y c i q s.
Proof. intros Hx s [F ?]. split; [| done]. by eapply fref_ext. Qed.

(** [open_file] with the references the call holds. *)
Lemma open_file_refs ip omode : triple (at_cpu zero c i p) (open_file kend c ip omode) counted.
Proof.
  unfold open_file. calls. eapply triple_bind; [apply filealloc_at | intros f; cbv beta].
  apply triple_or; apply triple_pure; intros Hf.
  - subst f. cbn [Z.eqb]. eapply triple_bind; [by apply (triple_ret _ (fun fd s => fd = -1 /\ at_cpu zero c i p s)) |].
    intros fd. apply triple_pure. intros ->. change (-1 <? 0) with true. cbv iota.
    eapply triple_bind; [by apply (triple_ret _ (fun _ => at_cpu zero c i p)) | intros ?]. calls.
  - rewrite (file_ptr_nonzero f Hf).
    eapply triple_bind; [by apply fdalloc_at | intros fd; cbv beta].
    apply triple_or; [| apply triple_ex; intros n; apply triple_pure; intros ->; apply triple_pure; intros Hn].
    + apply triple_pure. intros Hn. rewrite (proj2 (Z.ltb_lt _ _) Hn).
      eapply triple_bind; [by apply fileclose_at | intros ?; cbv beta].
      eapply triple_pre; [apply (at_ext _ zero); intros; unfold zero; lia |]. calls.
    + rewrite (proj2 (Z.ltb_ge _ _)) by lia. eapply triple_pre; [apply (at_ext _ zero); intros; unfold zero; lia |].
      calls. eapply triple_bind; [by apply frame_w, keeps_upd_file | intros ?]. calls.
Qed.

Lemma sys_open_refs : triple (at_cpu zero c i p) (sys_open kend devread devwrite c) counted.
Proof. unfold sys_open. calls; apply open_file_refs. Qed.

(** The ends of a new pipe are held by the call. *)
Lemma pipealloc_at me x :
  triple (at_cpu x c i p) (on_w (pipealloc kend me))
    (fun o s => match o with
     | None => at_cpu x c i p s
     | Some (rf, wf) => file_ptr rf /\ file_ptr wf /\ at_cpu (fun g => x g + delta rf g + delta wf g) c i p s
     end).
Proof.
  intros s o s' Hs (w & Ew & ->)%on_w_inv.
  assert (Hrun : forall A (m : M (world St) A) (k : A -> M (world St) (option (Z * Z))) x' (q : Prop) w1 Q,
    (m ≫= k) w1 = Ok o w ->
    triple (at_cpu x' c i p) (on_w m) Q ->
    at_cpu x' c i p (PT (procs s) (initproc s) (nextpid s) (cur s) (pos s) w1) ->
    (forall a w2, m w1 = Ok a w2 -> k a w2 = Ok o w ->
       Q a (PT (procs s) (initproc s) (nextpid s) (cur s) (pos s) w2) -> q) -> q).
  { intros A m k x' q w1 Q (a & w2 & E1 & E2)%bind_inv Ht Hw Hq. apply (Hq a w2 E1 E2).
    eapply Ht; [exact Hw |]. unfold on_w, zoom. simpl. by rewrite E1. }
  assert (H0 : at_cpu x c i p (PT (procs s) (initproc s) (nextpid s) (cur s) (pos s) (Proc.world s))) by (by destruct s).
  unfold pipealloc in Ew. eapply Hrun; [exact Ew | apply filealloc_at | exact H0 |]. cbv beta.
  intros f0 w1 _ E1 [[-> Hs1] | [Hf0 Hs1]]; [by injection E1 as <- <- |]. rewrite (file_ptr_nonzero f0 Hf0) in E1.
  eapply Hrun; [exact E1 | apply filealloc_at | exact Hs1 |]. cbv beta.
  intros f1 w2 _ E2 [[-> Hs2] | [Hf1 Hs2]].
  { eapply Hrun; [exact E2 | by apply fileclose_at | exact Hs2 |]. cbv beta. intros [] w3 _ E3 Hs3.
    injection E3 as <- <-. eapply at_ext; [| exact Hs3]. intros; simpl; lia. }
  rewrite (file_ptr_nonzero f1 Hf1) in E2.
  eapply Hrun; [exact E2 | apply frame_w, keeps_in_kmem | exact Hs2 |]. cbv beta. intros pg w3 _ E3 Hs3.
  destruct (pg =? 0).
  { eapply Hrun; [exact E3 | by apply fileclose_at | exact Hs3 |]. cbv beta. intros [] w4 _ E4 Hs4.
    eapply Hrun; [exact E4 | by apply fileclose_at | exact Hs4 |]. cbv beta. intros [] w5 _ E5 Hs5.
    injection E5 as <- <-. eapply at_ext; [| exact Hs5]. intros; simpl; lia. }
  eapply Hrun; [exact E3 | apply frame_w, keeps_gets | exact Hs3 |]. cbv beta. intros w0 w4 _ E4 Hs4.
  eapply Hrun; [exact E4 | apply frame_w, keeps_set_pipe | exact Hs4 |]. cbv beta. intros [] w5 _ E5 Hs5.
  eapply Hrun; [exact E5 | by apply frame_w, keeps_upd_file | exact Hs5 |]. cbv beta. intros [] w6 _ E6 Hs6.
  eapply Hrun; [exact E6 | by apply frame_w, keeps_upd_file | exact Hs6 |]. cbv beta. intros [] w7 _ E7 Hs7.
  injection E7 as <- <-. split_and!; done.
Qed.

Lemma sys_pipe_refs : triple (at_cpu zero c i p) (sys_pipe kend c) counted.
Proof.
  unfold sys_pipe. calls. eapply triple_bind; [apply pipealloc_at | intros o; cbv beta].
  destruct o as [[rf wf]|]; [apply triple_pure; intros Hr; apply triple_pure; intros Hw | apply triple_ret; intros s; by apply at_done].
  eapply triple_bind; [by apply fdalloc_at | intros fd0; cbv beta].
  apply triple_or; [apply triple_pure; intros H0 |
    apply triple_ex; intros n0; apply triple_pure; intros ->; apply triple_pure; intros Hn0].
  - rewrite (proj2 (Z.ltb_lt _ _) H0), (proj2 (Z.leb_gt _ _) H0).
    eapply (triple_bind _ (fun fd s => fd = -1 /\ _)); [apply triple_ret; intros s Hs; split; [done | exact Hs] |].
    intros fd1. apply triple_pure. intros ->. change (-1 <? 0) with true. cbv iota.
    eapply (triple_bind _ (fun _ s => _)); [apply triple_ret; intros s Hs; exact Hs | intros ?].
    eapply triple_bind; [by apply fileclose_at | intros ?; cbv beta].
    eapply triple_bind; [by apply fileclose_at | intros ?; cbv beta]. apply triple_ret. intros s Hs.
    eapply at_done; [| exact Hs]. intros g _. unfold zero. simpl. lia.
  - rewrite (proj2 (Z.ltb_ge (Z.of_nat n0) 0)) by lia.
    eapply triple_bind; [by apply fdalloc_at | intros fd1; cbv beta].
    apply triple_or; [apply triple_pure; intros H1 |
      apply triple_ex; intros n1; apply triple_pure; intros ->; apply triple_pure; intros Hn1].
    + rewrite (proj2 (Z.ltb_lt _ _) H1), (proj2 (Z.leb_le 0 (Z.of_nat n0))), Nat2Z.id by lia.
      intros s v s' Hs. pose proof Hs as ([F1 _ _ F4 _ _] & Hc & Hp). destruct (F4 c i Hc) as [Hi _].
      assert (Hl : ofile (set_ofile n0 rf p) !!! n0 = rf).
      { simpl. apply list_lookup_total_insert_eq. pose proof (F1 i Hi) as Hl. rewrite Hp in Hl. simpl in Hl.
        rewrite length_insert in Hl. by rewrite Hl. }
      revert s v s' Hs Hc Hp F1 F4. intros s v s' Hs _ _ _ _. revert s v s' Hs.
      eapply triple_bind; [apply set_ofile_at; [done | by left] | intros ?; cbv beta]. rewrite Hl.
      eapply triple_bind; [by apply fileclose_at | intros ?; cbv beta].
      eapply triple_bind; [by apply fileclose_at | intros ?; cbv beta]. apply triple_ret. intros s Hs.
      eapply at_done; [| exact Hs]. intros g Hg. unfold zero, delta. repeat case_decide; subst; lia || done.
    + rewrite (proj2 (Z.ltb_ge (Z.of_nat n1) 0)) by lia.
      eapply triple_pre; [apply (at_ext _ zero); intros; unfold zero; lia |]. calls.
Qed.

(** *** exec *)

Lemma load_segments_keeps n ip pg off image : keeps_ft (load_segments kend devread n ip pg off image).
Proof.
  revert off image. induction n as [|n IH]; intros off image; [apply keeps_ret |]. cbn [load_segments].
  keeps; [apply IH | | apply IH].
  assert (Hl : forall fuel k a o z, keeps_ft (loaduvm_loop (@in_kmem St) (readi_to devread ip) fuel pg a o k z)).
  { induction fuel as [|fuel IHf]; intros k a' o z; [by intros ??? |]. cbn [loaduvm_loop]. unfold readi_to. keeps. apply IHf. }
  unfold loaduvm. keeps. apply Hl.
Qed.

Lemma push_args_keeps args argc pg sp ptrs : keeps_ft (push_args args argc pg sp ptrs).
Proof.
  revert argc sp ptrs. induction args as [|a args IH]; intros argc sp ptrs; cbn [push_args]; keeps. apply IH.
Qed.

Lemma exec_image_keeps q path argv : keeps_ft (exec_image kend kdata devread q path argv).
Proof.
  unfold exec_image, exec_bad.
  repeat (keeps; match goal with
    | |- keeps_ft (load_segments _ _ _ _ _ _ _) => apply load_segments_keeps
    | |- keeps_ft (push_args _ _ _ _ _) => apply push_args_keeps
    end).
Qed.

Lemma exec_refs path argv : triple (at_cpu zero c i p) (exec kend kdata devread c path argv) counted.
Proof.
  intros s v s' Hs E. pose proof Hs as (F & Hc & Hp). unfold exec in E. erewrite bind_ok in E by reflexivity.
  rewrite Hc in E. erewrite bind_ok in E by reflexivity. rewrite Hp in E. revert s v s' Hs F Hc Hp E.
  intros s v s' Hs _ _ _. revert s v s' Hs.
  eapply triple_bind; [apply frame_w, exec_image_keeps | intros [[[[pg image] entry] sp]|]; cbv beta]; [| calls].
  eapply triple_bind; [by apply frame_proc | intros ?; cbv beta].
  eapply triple_bind; [by apply frame_proc | intros ?; cbv beta].
  eapply triple_bind; [by apply frame_proc | intros ?; cbv beta].
  eapply triple_bind; [by apply frame_proc | intros ?; cbv beta].
  eapply (triple_bind _ (fun _ => _)); [intros s0 ? s1 Hs0 [= _ <-]; exact Hs0 | intros q].
  eapply triple_bind; [apply frame_w, keeps_on_cpu | intros ?; cbv beta].
  eapply triple_bind; [apply frame_w, keeps_in_kmem | intros ?; cbv beta]. calls.
Qed.

Lemma sys_exec_refs : triple (at_cpu zero c i p) (sys_exec kend kdata devread c) counted.
Proof. unfold sys_exec. calls. apply exec_refs. Qed.
End calls.
End refs.
