(* ===== verification/KernSys.v ===== *)
(** * The kernel as a whole: system calls and scheduling with exact file counts

    The process calls of proc.c keep the counts of open files exact as well, and with the file calls
    of [FileSys] so does every completed system call.  [kstep] is one completed system call, one
    activation of a scheduler, one process giving up its CPU or one wakeup, on any CPU. *)
From S2P Require Import Prelude Mem Mmu Kalloc Vm Lock Pipe Ide BlockStore Bytes Log Fs Proc ProcSys Uaccess File.
From S2P Require Import Exec Sysfile Syscall FileSys.
#[local] Open Scope Z_scope.

Section kernel.
Context {St : Type} `{BlockStore St}.
Variable kend kdata initcode initcode_size trapret forkret_addr : Z.
Variable devread : Z -> option (nat -> Z -> M (fstate St) (Z * list Z)).
Variable devwrite : Z -> option (nat -> list Z -> Z -> M (fstate St) Z).
Notation pt := (ptable (world St)).
Implicit Types (s : pt).
#[local] Instance ksv : Kernel (world St) := kservices kend kdata initcode initcode_size devread.

(** ** Services *)

Lemma keeps_k_alloc : keeps_ft k_alloc.
Proof. exact (keeps_in_kmem _). Qed.
Lemma keeps_k_free v : keeps_ft (k_free v).
Proof. exact (keeps_in_kmem _). Qed.
Lemma keeps_copyuvm a b : keeps_ft (Proc.copyuvm a b).
Proof. exact (keeps_in_kmem _). Qed.
Lemma keeps_freevm a : keeps_ft (Proc.freevm a).
Proof. exact (keeps_in_kmem _). Qed.
Lemma keeps_allocuvm a b d : keeps_ft (Proc.allocuvm a b d).
Proof. exact (keeps_in_kmem _). Qed.
Lemma keeps_deallocuvm a b d : keeps_ft (Proc.deallocuvm a b d).
Proof. exact (keeps_in_kmem _). Qed.
Lemma keeps_switchuvm c a b : keeps_ft (Proc.switchuvm c a b).
Proof. exact (keeps_on_cpu _ _). Qed.
Lemma keeps_switchkvm c : keeps_ft (Proc.switchkvm c).
Proof. exact (keeps_on_cpu _ _). Qed.
Lemma keeps_idup d : keeps_ft (Proc.idup d).
Proof. apply keeps_ft_bind; [apply keeps_in_fs | intros ?; apply keeps_ret]. Qed.
Lemma keeps_iput_op me d : keeps_ft (iput_op me d).
Proof.
  apply keeps_ft_bind; [apply keeps_op_begin | intros ?]. apply keeps_ft_bind; [apply keeps_in_fs | intros ?].
  apply keeps_op_end.
Qed.

#[local] Hint Resolve keeps_k_alloc keeps_k_free keeps_copyuvm keeps_freevm keeps_allocuvm keeps_deallocuvm
  keeps_switchuvm keeps_switchkvm keeps_idup keeps_iput_op : core.

(** A step that touches only what the counts do not depend on. *)
Lemma fref_world {A} (m : M (world St) A) ex x s a s' :
  keeps_ft m -> fref ex x s -> on_w m s = Ok a s' ->
  fref ex x s' /\ procs s' = procs s /\ cur s' = cur s /\ initproc s' = initproc s.
Proof.
  intros Hm [F1 F2 F3 F4 F5 F6] (w & Ew & ->)%on_w_inv. split; [| done]. split; try done.
  intros j Hj. simpl. rewrite (Hm _ _ _ Ew). by apply F6.
Qed.

(** Nothing but states changes, no process becomes free or a zombie, and the CPUs agree. *)
Lemma fref_states ex x s s' :
  fref ex x s ->
  (forall k, ofile (procs s' k) = ofile (procs s k)) ->
  (forall k, idle (state (procs s' k)) = true -> idle (state (procs s k)) = true) ->
  (forall k, f_ref (ftable (Proc.world s') k) = f_ref (ftable (Proc.world s) k)) ->
  (forall c i, cur s' c = Some i -> (i < NPROC)%nat /\ state (procs s' i) = RUNNING) ->
  (forall c c' i, cur s' c = Some i -> cur s' c' = Some i -> c = c') -> fref ex x s'.
Proof.
  intros [F1 F2 F3 F4 F5 F6] Ho Hi Hf Hc Hc'. split; try done.
  - intros k Hk. rewrite Ho. by apply F1.
  - intros k f Hk. rewrite Ho. by apply F2.
  - intros k Hk He Hk'. rewrite Ho. by apply F3; auto.
  - intros j Hj. rewrite Hf, (F6 j Hj). f_equal. symmetry. apply total_ext. intros k _. apply Ho.
Qed.

(** ** Waking and giving up the CPU *)

Lemma wakeup_fref ex x ch s a s' : fref ex x s -> wakeup ch s = Ok a s' -> fref ex x s'.
Proof.
  intros F [= _ <-]. pose proof F as [F1 F2 F3 F4 F5 F6].
  assert (Hw : forall p, ofile (wake ch p) = ofile p /\ (idle (state (wake ch p)) = true -> idle (state p) = true) /\
    (state p = RUNNING -> state (wake ch p) = RUNNING)).
  { intros p. unfold wake, in_state. destruct (bool_decide (state p = SLEEPING)) eqn:E; [| done].
    apply bool_decide_eq_true in E. destruct (bool_decide _); simpl; [| done]. rewrite E. done. }
  eapply fref_states; [exact F | ..]; simpl; try done.
  - intros k. apply Hw.
  - intros k. apply Hw.
  - intros c i Hc. destruct (F4 c i Hc). split; [done |]. by apply Hw.
Qed.

Lemma sched_run c s a s' :
  sched c s = Ok a s' -> procs s' = procs s /\ initproc s' = initproc s /\ cur s' = fupd (cur s) c None /\
  forall k, f_ref (ftable (Proc.world s') k) = f_ref (ftable (Proc.world s) k).
Proof.
  intros Hs. unfold sched in Hs. erewrite bind_ok in Hs by reflexivity. destruct (cur s c) as [i|]; [| done].
  erewrite bind_ok in Hs by reflexivity. destruct (in_state _ _); [done |].
  apply bind_inv in Hs as ([] & s1 & (w & Ew & ->)%on_w_inv & Hs). injection Hs as _ <-. simpl.
  split_and!; try done. intros k. by apply (keeps_switchkvm c _ _ _ Ew).
Qed.

(** The process [i] of CPU [c] becomes [q] and the CPU goes back to its scheduler. *)
Lemma fref_leave x s s1 s' c i q a :
  fref None x s -> cur s c = Some i -> procs s1 = fupd (procs s) i q -> cur s1 = cur s ->
  (forall k, f_ref (ftable (Proc.world s1) k) = f_ref (ftable (Proc.world s) k)) ->
  ofile q = ofile (procs s i) -> (idle (state q) = true -> ofile q = replicate NOFILE 0) ->
  sched c s1 = Ok a s' -> fref None x s'.
Proof.
  intros F Hc Ep Ec Ew Ho Hi (S1 & _ & S2 & S3)%sched_run. pose proof F as [F1 F2 F3 F4 F5 F6].
  assert (E : forall k, ofile (procs s' k) = ofile (procs s k)).
  { intros k. rewrite S1, Ep. unfold fupd. case_decide; by subst. }
  split.
  - intros k Hk. rewrite E. by apply F1.
  - intros k f Hk. rewrite E. by apply F2.
  - intros k Hk He. rewrite E, S1, Ep. unfold fupd. case_decide; [subst | by apply F3]. intros ?%Hi. congruence.
  - intros c' k. rewrite S2, Ec, S1, Ep. unfold fupd. case_decide; [done |]. intros Hk.
    destruct (F4 c' k Hk) as [? ?]. rewrite decide_False; [done |]. intros ->. by apply H0, (F5 _ _ i).
  - intros c1 c2 k. rewrite S2, Ec. unfold fupd. repeat case_decide; try done. apply F5.
  - intros j Hj. rewrite S3, Ew, (F6 j Hj). f_equal. symmetry. apply total_ext. intros k _. apply E.
Qed.

Lemma yield_fref x c s a s' : fref None x s -> yield c s = Ok a s' -> fref None x s'.
Proof.
  intros F Hy. unfold yield in Hy. erewrite bind_ok in Hy by reflexivity.
  destruct (cur s c) as [i|] eqn:Hc; [| done]. erewrite bind_ok in Hy by reflexivity.
  by refine (fref_leave x s _ s' c i (set_state RUNNABLE (procs s i)) a F Hc _ _ _ _ _ Hy).
Qed.

Lemma sleep_fref x c ch s a s' : fref None x s -> Proc.sleep c ch s = Ok a s' -> fref None x s'.
Proof.
  intros F Hy. unfold Proc.sleep in Hy. erewrite bind_ok in Hy by reflexivity.
  destruct (cur s c) as [i|] eqn:Hc; [| done]. do 2 (erewrite bind_ok in Hy by reflexivity).
  refine (fref_leave x s _ s' c i (set_state SLEEPING (set_chan ch (procs s i))) a F Hc _ _ _ _ _ Hy); try done.
  simpl. by rewrite fupd_fupd, fupd_same.
Qed.

(** ** Scheduling *)

Lemma dispatch_fref x c i s s1 s' a :
  fref None x s -> cur s c = None -> scheduler c s = Ok (Some i) s1 -> resume i s1 = Ok a s' -> fref None x s'.
Proof.
  intros F Hc Hs [= _ <-]. pose proof F as [F1 F2 F3 F4 F5 F6]. pose proof Hs as Hk. apply scheduler_inv in Hs as
    (Hi & Hr & _ & E1 & E2 & _).
  assert (Hw : forall k, f_ref (ftable (Proc.world s1) k) = f_ref (ftable (Proc.world s) k)).
  { unfold scheduler in Hk. erewrite bind_ok in Hk by reflexivity. unfold id in Hk.
    destruct (first_from _ _ _) as [j|]; [| done]. do 2 (erewrite bind_ok in Hk by reflexivity).
    apply bind_inv in Hk as ([] & s2 & (w & Ew & ->)%on_w_inv & Hk). erewrite bind_ok in Hk by reflexivity.
    injection Hk as _ <-. simpl. by apply (keeps_switchuvm _ _ _ _ _ _ Ew). }
  eapply fref_states; [exact F | ..]; simpl; rewrite ?E1, ?E2; try done.
  - intros k. rewrite fupd_same. unfold fupd. repeat case_decide; by subst.
  - intros k. rewrite fupd_same. unfold fupd. repeat case_decide; by subst.
  - intros c' k. rewrite fupd_same. unfold fupd. case_decide; [intros [= <-] | intros Hk'].
    + split; [lia |]. by rewrite decide_True.
    + destruct (F4 c' k Hk') as [? Hk2]. split; [done |]. rewrite !decide_False; [done | |]; intros ->; congruence.
  - intros c1 c2 k. unfold fupd. repeat case_decide; subst; try done.
    + intros [= ->] H2. apply F4 in H2 as [_ ?]. congruence.
    + intros H2 [= ->]. apply F4 in H2 as [_ ?]. congruence.
    + apply F5.
Qed.

Lemma idle_fref x c s s' : fref None x s -> scheduler c s = Ok None s' -> fref None x s'.
Proof.
  intros F Hs. unfold scheduler in Hs. erewrite bind_ok in Hs by reflexivity. unfold id in Hs.
  destruct (first_from _ _ _) as [j|].
  - do 2 (erewrite bind_ok in Hs by reflexivity). apply bind_inv in Hs as ([] & s2 & _ & Hs).
    by erewrite bind_ok in Hs by reflexivity.
  - erewrite bind_ok in Hs by reflexivity. injection Hs as <-. destruct F. by split.
Qed.

(** ** Process calls *)

Lemma on_proc_fref ex x i g s a s' :
  fref ex x s -> (forall p, ofile (g p) = ofile p) ->
  (idle (state (g (procs s i))) = true -> idle (state (procs s i)) = true \/ ex = Some i) ->
  (state (procs s i) = RUNNING -> state (g (procs s i)) = RUNNING) ->
  on_proc i g s = Ok a s' -> fref ex x s'.
Proof. intros F Ho Hi Hr [= _ <-]. by apply fref_slot. Qed.

Lemma kill_fref x n s r s' : fref None x s -> kill n s = Ok r s' -> fref None x s'.
Proof.
  intros F Hk. unfold kill in Hk. erewrite bind_ok in Hk by reflexivity. unfold id in Hk.
  destruct (first_from _ _ _) as [i|]; [| by injection Hk as _ <-].
  apply bind_inv in Hk as (a & s1 & E1 & Hk). eapply on_proc_fref in E1; [| exact F | done | by left | done].
  apply bind_inv in Hk as (b & s2 & E2 & Hk). injection Hk as _ <-.
  eapply (on_proc_fref _ _ i); [exact E1 | ..| exact E2].
  - intros p. simpl. by destruct (in_state SLEEPING p).
  - unfold in_state. destruct (decide (state (procs s1 i) = SLEEPING)) as [E | E];
      [rewrite (bool_decide_true _ E) | rewrite (bool_decide_false _ E)]; simpl; [done | by left].
  - unfold in_state. intros E. by rewrite bool_decide_false by congruence.
Qed.

Lemma growproc_fref x c n s r s' : fref None x s -> growproc c n s = Ok r s' -> fref None x s'.
Proof.
  intros F Hg. unfold growproc in Hg. erewrite bind_ok in Hg by reflexivity.
  destruct (cur s c) as [i|] eqn:Hc; [| done]. erewrite bind_ok in Hg by reflexivity. cbv zeta in Hg.
  assert (Hset : forall y s1, fref None x s1 ->
    (on_proc i (set_sz y) ;; on_w (Proc.switchuvm c (kstack (procs s i)) (pgdir (procs s i))) ;; mret 0) s1 = Ok r s' ->
    fref None x s').
  { intros y s1 F1 Hk. apply bind_inv in Hk as (a & s2 & E1 & Hk).
    eapply on_proc_fref in E1; [| exact F1 | done | by left | done].
    apply bind_inv in Hk as (b & s3 & E2 & Hk). apply (fref_world _ _ _ _ _ _ (keeps_switchuvm _ _ _) E1) in E2 as [F2 _].
    by injection Hk as _ <-. }
  destruct (0 <? n); [| destruct (n <? 0)]; [| | by eapply Hset].
  - apply bind_inv in Hg as (a & s1 & E & Hg). apply (fref_world _ _ _ _ _ _ (keeps_allocuvm _ _ _) F) in E as [F1 _].
    destruct (a =? 0); [by injection Hg as _ <- | by eapply Hset].
  - apply bind_inv in Hg as (a & s1 & E & Hg). apply (fref_world _ _ _ _ _ _ (keeps_deallocuvm _ _ _) F) in E as [F1 _].
    destruct (a =? 0); [by injection Hg as _ <- | by eapply Hset].
Qed.

Lemma wait_fref x c s r s' : fref None x s -> wait c s = Ok r s' -> fref None x s'.
Proof.
  intros F Hw. unfold wait in Hw. erewrite bind_ok in Hw by reflexivity.
  destruct (cur s c) as [me|]; [| done]. erewrite bind_ok in Hw by reflexivity. unfold id in Hw. cbv zeta in Hw.
  destruct (first_from _ NPROC 0) as [k|] eqn:Hf.
  - apply first_from_Some in Hf as (_ & Hz & _). apply andb_prop in Hz as [_ Hz]. apply bool_decide_eq_true in Hz.
    erewrite bind_ok in Hw by reflexivity.
    apply bind_inv in Hw as (a1 & s1 & E1 & Hw). apply (fref_world _ _ _ _ _ _ (keeps_k_free _) F) in E1 as (F1 & P1 & _).
    apply bind_inv in Hw as (a2 & s2 & E2 & Hw). pose proof E2 as Hs2.
    eapply on_proc_fref in E2; [| exact F1 | done | by left | done]. injection Hs2 as _ Hs2.
    apply bind_inv in Hw as (a3 & s3 & E3 & Hw). apply (fref_world _ _ _ _ _ _ (keeps_freevm _) E2) in E3 as (F3 & P3 & _).
    apply bind_inv in Hw as (a4 & s4 & E4 & Hw). injection Hw as _ <-.
    assert (Hk : state (procs s3 k) = ZOMBIE) by (rewrite P3, <- Hs2; simpl; rewrite fupd_same; simpl; by rewrite P1).
    eapply on_proc_fref in E4; [exact E4 | exact F3 | done | left; by rewrite Hk | by rewrite Hk].
  - destruct (negb _ || _); [by injection Hw as _ <- |]. apply bind_inv in Hw as (? & ? & _ & Hw). done.
Qed.

Lemma wait_sleep_fref x c ch s s' : fref None x s -> wait c s = Slept ch s' -> fref None x s'.
Proof.
  intros F Hw. destruct (cur s c) as [me|] eqn:Hc.
  - destruct (wait_sleep_inv c me s ch s' Hc Hw) as (_ & _ & Hs & _). by eapply sleep_fref.
  - unfold wait in Hw. erewrite bind_ok in Hw by reflexivity. by rewrite Hc in Hw.
Qed.

(** [allocproc] takes a free slot, which has no descriptors. *)
Lemma allocproc_fref x s o s' :
  fref None x s -> allocproc trapret forkret_addr s = Ok o s' ->
  fref None x s' /\ cur s' = cur s /\
  match o with
  | Some i => (i < NPROC)%nat /\ state (procs s i) = UNUSED /\ state (procs s' i) = EMBRYO /\
      (forall j, j <> i -> procs s' j = procs s j)
  | None => True
  end.
Proof.
  intros F Ha. unfold allocproc in Ha. apply bind_inv in Ha as (o1 & s3 & E0 & Ha).
  unfold alloc_slot in E0. erewrite bind_ok in E0 by reflexivity. unfold id in E0.
  destruct (first_from _ NPROC 0) as [i|] eqn:Hf; [| injection E0 as <- <-; by injection Ha as <- <-].
  apply first_from_Some in Hf as ([_ Hi] & Hu & _). apply bool_decide_eq_true in Hu.
  apply bind_inv in E0 as (a1 & s1 & E1 & E0). pose proof E1 as Hs1. injection Hs1 as _ Hs1.
  eapply on_proc_fref in E1; [| exact F | done | left; by rewrite Hu | by rewrite Hu].
  apply bind_inv in E0 as (a2 & s2 & E2 & E0). pose proof E2 as Hs2. injection Hs2 as _ Hs2.
  eapply on_proc_fref in E2; [| exact E1 | done | by left | done].
  apply bind_inv in E0 as (a3 & s3' & E3 & E0). injection E3 as _ E3. injection E0 as <- <-.
  assert (F3 : fref None x s3') by (rewrite <- E3; destruct E2; by split).
  apply bind_inv in Ha as (b & s7 & E & Ha). injection Ha as <- <-. rename E into Ha. unfold alloc_stack in Ha.
  apply bind_inv in Ha as (ks & s4 & E4 & Ha). apply (fref_world _ _ _ _ _ _ keeps_k_alloc F3) in E4 as (F4 & P4 & C4 & _).
  apply bind_inv in Ha as (a5 & s5 & E5 & Ha). pose proof E5 as Hs5. injection Hs5 as _ Hs5.
  eapply on_proc_fref in E5; [| exact F4 | done | by left | done].
  assert (P5 : forall j, j <> i -> procs s5 j = procs s j).
  { intros j Hj. rewrite <- Hs5. simpl. rewrite fupd_other, P4, <- E3 by done. simpl.
    rewrite <- Hs2. simpl. rewrite fupd_other, <- Hs1 by done. simpl. by apply fupd_other. }
  assert (Q5 : state (procs s5 i) = EMBRYO).
  { rewrite <- Hs5. simpl. rewrite fupd_same. simpl. rewrite P4, <- E3. simpl. rewrite <- Hs2. simpl.
    rewrite fupd_same. simpl. rewrite <- Hs1. simpl. by rewrite fupd_same. }
  assert (C5 : cur s5 = cur s).
  { rewrite <- Hs5. simpl. rewrite C4, <- E3. simpl. rewrite <- Hs2. simpl. by rewrite <- Hs1. }
  destruct (ks =? 0).
  - apply bind_inv in Ha as (a6 & s6 & E6 & Ha). injection Ha as <- <-. pose proof E6 as Hs6. injection Hs6 as _ Hs6.
    eapply on_proc_fref in E6; [| exact E5 | done | left; by rewrite Q5 | by rewrite Q5].
    split_and!; [done | by rewrite <- Hs6 | done].
  - apply bind_inv in Ha as (a6 & s6 & E6 & Ha). injection Ha as <- <-. pose proof E6 as Hs6. injection Hs6 as _ Hs6.
    eapply on_proc_fref in E6; [| exact E5 | done | by left | done].
    split_and!; [done | by rewrite <- Hs6 | done | done | |].
    + rewrite <- Hs6. simpl. rewrite fupd_same. done.
    + intros j Hj. rewrite <- Hs6. simpl. rewrite fupd_other by done. by apply P5.
Qed.

Lemma fref_exempt i x s : fref None x s -> fref (Some i) x s.
Proof. intros [F1 F2 F3 F4 F5 F6]. split; try done. intros k Hk _. by apply F3. Qed.

(** The loop of [fork]: each descriptor copied is one more reference. *)
Lemma dup_files_fref n k from np s s' a :
  from <> np -> (from < NPROC)%nat -> (np < NPROC)%nat -> (k + n <= NOFILE)%nat ->
  (forall j, (k <= j < NOFILE)%nat -> ofile (procs s np) !!! j = 0) ->
  fref (Some np) zero s -> dup_files n k from np s = Ok a s' ->
  fref (Some np) zero s' /\ cur s' = cur s /\ state (procs s' np) = state (procs s np) /\
  (forall j, j <> np -> procs s' j = procs s j).
Proof.
  intros Hne Hfrom Hnp. revert k s. induction n as [|n IH]; intros k s Hk Hz F Hd.
  { injection Hd as _ <-. done. }
  cbn [dup_files] in Hd. apply bind_inv in Hd as (u & s2 & E & Hd).
  unfold dup_file in E. erewrite bind_ok in E by reflexivity. cbv zeta in E.
  destruct (Z.eqb_spec (ofile (procs s from) !!! k) 0) as [E0 | E0].
  { injection E as _ <-. apply (IH (S k) s); [lia | | done | done].
    intros j Hj. apply Hz. lia. }
  apply bind_inv in E as (g & s1 & (w & Ew & ->)%on_w_inv & E).
  assert (Hf : file_ptr (ofile (procs s from) !!! k)).
  { destruct (fr_ptr _ _ _ F from (ofile (procs s from) !!! k) Hfrom) as [? | ?]; [| done | done].
    eapply (list_elem_of_lookup_2 _ k). apply list_lookup_lookup_total_lt.
    rewrite (fr_len _ _ _ F) by done. lia. }
  apply (filedup_fref (Some np) zero) in Ew as [-> F1]; [| done | done].
  injection E as _ <-. set (s1 := PT (procs s) _ _ _ _ w) in *.
  assert (F2 := fref_set_ofile (Some np) _ s1 np k _ F1 Hnp ltac:(lia) (or_intror Hf) (fun _ => eq_refl)).
  match type of Hd with dup_files _ _ _ _ ?t = _ =>
    destruct (IH (S k) t ltac:(lia)) as (G1 & G2 & G3 & G4); [| | exact Hd |] end.
  - intros j Hj. simpl. rewrite fupd_same. simpl. rewrite list_lookup_total_insert_ne by lia. apply Hz. lia.
  - eapply fref_ext; [| exact F2]. intros h Hh. simpl. rewrite Hz by lia. unfold zero, delta.
    repeat case_decide; subst; lia || done.
  - split_and!; [done | done | |].
    + rewrite G3. simpl. by rewrite fupd_same.
    + intros j Hj. rewrite G4 by done. simpl. by rewrite fupd_other.
Qed.

Lemma fork_fref c s r s' : fref None zero s -> fork trapret forkret_addr c s = Ok r s' -> fref None zero s'.
Proof.
  intros F Hk. unfold fork in Hk. erewrite bind_ok in Hk by reflexivity.
  destruct (cur s c) as [cp|] eqn:Hc; [| done]. destruct (fr_cur _ _ _ F c cp Hc) as [Hcp Hrun].
  apply bind_inv in Hk as (o & s1 & E & Hk). apply (allocproc_fref zero) in E as (F1 & C1 & E); [| done].
  destruct o as [np|]; [| by injection Hk as _ <-]. destruct E as (Hnp & Hu & Hs & Ho).
  assert (Hne : cp <> np) by congruence.
  apply bind_inv in Hk as (ok & s3 & Em & Hk). unfold fork_mem in Em. erewrite bind_ok in Em by reflexivity.
  apply bind_inv in Em as (pg & s2 & E2 & Em). apply (fref_world _ _ _ _ _ _ (keeps_copyuvm _ _) F1) in E2 as (F2 & P2 & C2 & _).
  apply bind_inv in Em as (a3 & s3' & E3 & Em). injection Em as <- <-. pose proof E3 as Q3. injection Q3 as _ Q3.
  eapply on_proc_fref in E3; [| exact F2 | done | by left | done].
  assert (S3 : state (procs s3' np) = EMBRYO) by (rewrite <- Q3; simpl; rewrite fupd_same; simpl; by rewrite P2).
  destruct (pg =? 0); simpl in Hk; apply bind_inv in Hk as (u & sn & En & Hk).
  - injection Hk as _ <-. rename En into Hk. unfold fork_undo in Hk. erewrite bind_ok in Hk by reflexivity.
    apply bind_inv in Hk as (a4 & s4 & E4 & Hk). apply (fref_world _ _ _ _ _ _ (keeps_k_free _) E3) in E4 as (F4 & P4 & _).
    apply bind_inv in Hk as (a5 & s5 & E5 & Hk). pose proof E5 as Q5. injection Q5 as _ Q5.
    eapply on_proc_fref in E5; [| exact F4 | done | by left | done]. rename Hk into E6.
    assert (S5 : state (procs s5 np) = EMBRYO) by (rewrite <- Q5; simpl; rewrite fupd_same; simpl; by rewrite P4).
    eapply on_proc_fref in E6; [exact E6 | exact E5 | done | left; by rewrite S5 | by rewrite S5].
  - unfold fork_fields in En. erewrite bind_ok in En by reflexivity.
    apply bind_inv in En as (a4 & s4 & E4 & En). pose proof E4 as Q4. injection Q4 as _ Q4.
    eapply on_proc_fref in E4; [| exact E3 | done | by left | done].
    apply bind_inv in En as (a5 & s5 & E5 & En). pose proof E5 as Q5. injection Q5 as _ Q5.
    eapply on_proc_fref in E5; [| exact E4 | done | by left | done].
    apply bind_inv in En as (a6 & s6 & E6 & E7). pose proof E6 as Q6. injection Q6 as _ Q6.
    eapply on_proc_fref in E6; [| exact E5 | done | by left | done].
    rename sn into s7. pose proof E7 as Q7. injection Q7 as _ Q7.
    eapply on_proc_fref in E7; [| exact E6 | done | by left | done].
    assert (S7 : state (procs s7 np) = EMBRYO).
    { rewrite <- Q7. simpl. rewrite fupd_same. simpl. rewrite <- Q6. simpl. rewrite fupd_same. simpl.
      rewrite <- Q5. simpl. rewrite fupd_same. simpl. rewrite <- Q4. simpl. rewrite fupd_same. simpl. exact S3. }
    apply bind_inv in Hk as (a8 & s8 & E8 & Hk).
    assert (Hnp8 : (0 + NOFILE <= NOFILE)%nat) by lia.
    apply (dup_files_fref NOFILE 0 cp np) in E8 as (F8 & C8 & S8 & _); [| done | done | done | done | | by apply fref_exempt].
    2: { intros j Hj. rewrite (fr_idle _ _ _ E7 np Hnp); [| done | by rewrite S7].
         apply list_lookup_total_correct, lookup_replicate. split; [done | lia]. }
    apply bind_inv in Hk as (a10 & s10 & E10 & Hk). unfold fork_dir in E10. erewrite bind_ok in E10 by reflexivity.
    apply bind_inv in E10 as (d & s9 & E9 & E10). apply (fref_world _ _ _ _ _ _ (keeps_idup _) F8) in E9 as (F9 & P9 & _).
    pose proof E10 as Q10. injection Q10 as _ Q10.
    eapply on_proc_fref in E10; [| exact F9 | done | by left | done].
    apply bind_inv in Hk as (r' & s11 & En & Hk). unfold fork_name in En. erewrite bind_ok in En by reflexivity.
    apply bind_inv in En as (a11 & s11' & E11 & En). pose proof E11 as Q11. injection Q11 as _ Q11.
    eapply on_proc_fref in E11; [| exact E10 | done | by left | done].
    erewrite bind_ok in En by reflexivity. injection En as _ <-.
    apply bind_inv in Hk as (a12 & s12 & E12 & Hk). injection Hk as _ <-. pose proof E12 as Q12. injection Q12 as _ Q12.
    assert (S11 : state (procs s11' np) = EMBRYO).
    { rewrite <- Q11. simpl. rewrite fupd_same. simpl. rewrite <- Q10. simpl. rewrite fupd_same. simpl.
      by rewrite P9, S8. }
    eapply on_proc_fref in E12; [| exact E11 | done | by right | by rewrite S11].
    destruct E12 as [G1 G2 G3 G4 G5 G6]. split; try done. intros k Hk _ Hid. apply G3; [done | | done].
    intros [= <-]. rewrite <- Q12 in Hid. simpl in Hid. by rewrite fupd_same in Hid.
Qed.

(** The loop of [exit]: each descriptor closed is one reference less. *)
Lemma close_files_fref n fd i c s s' a :
  cur s c = Some i -> (fd + n <= NOFILE)%nat ->
  fref None zero s -> close_files n fd i s = Ok a s' ->
  fref None zero s' /\ cur s' = cur s /\ initproc s' = initproc s /\
  forall j, (j < NOFILE)%nat -> ofile (procs s' i) !!! j =
    if decide (fd <= j < fd + n)%nat then 0 else ofile (procs s i) !!! j.
Proof.
  revert fd s. induction n as [|n IH]; intros fd s Hc Hn F Hd.
  { injection Hd as _ <-. split_and!; try done. intros j _. by rewrite decide_False by lia. }
  destruct (fr_cur _ _ _ F c i Hc) as [Hi Hr].
  cbn [close_files] in Hd. erewrite bind_ok in Hd by reflexivity. cbv zeta in Hd.
  destruct (Z.eqb_spec (ofile (procs s i) !!! fd) 0) as [E0 | E0].
  - erewrite bind_ok in Hd by reflexivity. destruct (IH (S fd) s Hc ltac:(lia) F Hd) as (G1 & G2 & G3 & G4).
    split_and!; try done. intros j Hj. rewrite G4 by done. destruct (decide (j = fd)) as [-> | ?].
    + by rewrite decide_False, decide_True by lia.
    + repeat case_decide; try lia; done.
  - apply bind_inv in Hd as (u & s2 & E & Hd). apply bind_inv in E as (v & s1 & (w & Ew & ->)%on_w_inv & E).
    pose proof (fr_len _ _ _ F i Hi) as Hl.
    assert (Hf : file_ptr (ofile (procs s i) !!! fd)).
    { destruct (fr_ptr _ _ _ F i (ofile (procs s i) !!! fd) Hi) as [? | ?]; [| done | done].
      eapply (list_elem_of_lookup_2 _ fd). apply list_lookup_lookup_total_lt. lia. }
    apply (fileclose_fref kend (pid (procs s i)) None zero) in Ew; [| done | done].
    injection E as _ <-. set (s1 := PT (procs s) _ _ _ _ w) in *.
    assert (F2 := fref_set_ofile None _ s1 i fd 0 Ew Hi ltac:(lia) (or_introl eq_refl)).
    simpl in F2. rewrite Hr in F2. specialize (F2 ltac:(done)).
    match type of Hd with close_files _ _ _ ?t = _ =>
      destruct (IH (S fd) t Hc ltac:(lia)) as (G1 & G2 & G3 & G4); [| exact Hd |] end.
    { eapply fref_ext; [| exact F2]. intros h Hh. unfold zero, delta. repeat case_decide; subst; lia || done. }
    split_and!; try done. intros j Hj. rewrite G4 by done. simpl. rewrite fupd_same. simpl.
    destruct (decide (j = fd)) as [-> | ?].
    + rewrite decide_False, decide_True by lia. apply list_lookup_total_insert_eq. lia.
    + rewrite list_lookup_total_insert_ne by done. repeat case_decide; try lia; done.
Qed.

Lemma wakeup1_ofile ch s a s' :
  wakeup1 ch s = Ok a s' -> cur s' = cur s /\ forall k, ofile (procs s' k) = ofile (procs s k).
Proof. intros [= _ <-]. split; [done |]. intros k. simpl. unfold wake. by destruct (_ && _). Qed.

Lemma reparent_fref x n k me s a s' :
  fref None x s -> reparent n k me s = Ok a s' ->
  fref None x s' /\ cur s' = cur s /\ forall j, ofile (procs s' j) = ofile (procs s j).
Proof.
  revert k s. induction n as [|n IH]; intros k s F Hd.
  { by injection Hd as _ <-. }
  cbn [reparent] in Hd. erewrite bind_ok in Hd by reflexivity. unfold id in Hd.
  apply bind_inv in Hd as (u & s1 & E & Hd).
  assert (H1 : fref None x s1 /\ cur s1 = cur s /\ forall j, ofile (procs s1 j) = ofile (procs s j)).
  { destruct (bool_decide _); [| by injection E as _ <-].
    apply bind_inv in E as (v & s2 & E2 & E). pose proof E2 as Q2. injection Q2 as _ Q2.
    eapply on_proc_fref in E2; [| exact F | done | by left | done].
    assert (H2 : cur s2 = cur s /\ forall j, ofile (procs s2 j) = ofile (procs s j)).
    { rewrite <- Q2. split; [done |]. intros j. simpl. unfold fupd. by case_decide; subst. }
    destruct H2 as [C2 O2]. destruct (in_state _ _); [| by injection E as _ <-].
    destruct (initproc s); pose proof E as [C3 O3]%wakeup1_ofile; apply (wakeup_fref None x _ _ _ _ E2) in E;
      (split_and!; [done | congruence |]; intros j; by rewrite O3, O2). }
  destruct H1 as (F1 & C1 & O1). destruct (IH _ _ F1 Hd) as (G1 & G2 & G3).
  split_and!; [done | congruence |]. intros j. by rewrite G3, O1.
Qed.

Lemma exit_fref c s a s' : fref None zero s -> exit c s = Ok a s' -> fref None zero s'.
Proof.
  intros F He. unfold exit in He. erewrite bind_ok in He by reflexivity. erewrite bind_ok in He by reflexivity.
  unfold id in He. destruct (cur s c) as [me|] eqn:Hc; [| done]. destruct (bool_decide _); [done |].
  apply bind_inv in He as (a1 & s1 & E1 & He).
  apply (close_files_fref _ _ _ c) in E1 as (F1 & C1 & _ & O1); [| done | done | done].
  erewrite bind_ok in He by reflexivity.
  apply bind_inv in He as (a2 & s2 & E2 & He). apply (fref_world _ _ _ _ _ _ (keeps_iput_op _ _) F1) in E2 as (F2 & P2 & C2 & _).
  apply bind_inv in He as (a3 & s3 & E3 & He). pose proof E3 as Q3. injection Q3 as _ Q3.
  eapply on_proc_fref in E3; [| exact F2 | done | by left | done].
  assert (O3 : ofile (procs s3 me) = ofile (procs s1 me)) by (rewrite <- Q3; simpl; rewrite fupd_same; simpl; by rewrite P2).
  unfold exit_zombie in He. erewrite bind_ok in He by reflexivity.
  apply bind_inv in He as (a4 & s4 & E4 & He). pose proof E4 as [C4 O4]%wakeup1_ofile.
  apply (wakeup_fref None zero _ _ _ _ E3) in E4.
  apply bind_inv in He as (a5 & s5 & E5 & He). apply (reparent_fref zero) in E5 as (F5 & C5 & O5); [| done].
  erewrite bind_ok in He by reflexivity.
  assert (C5' : cur s5 c = Some me) by (rewrite C5, C4, <- Q3; simpl; by rewrite C2, C1).
  refine (fref_leave zero s5 _ s' c me (set_state ZOMBIE (procs s5 me)) a F5 C5' _ _ _ _ _ He); try done.
  intros _. change (ofile (procs s5 me) = replicate NOFILE 0). destruct (fr_cur _ _ _ F5 c me C5') as [Hme _].
  pose proof (fr_len _ _ _ F5 me Hme) as Hl. apply list_eq. intros j. destruct (decide (j < NOFILE)%nat) as [Hj | Hj].
  - rewrite list_lookup_lookup_total_lt by lia. rewrite O5, O4, O3, O1 by done. rewrite decide_True by lia.
    symmetry. by apply lookup_replicate.
  - rewrite !lookup_ge_None_2; [done | rewrite length_replicate; lia | lia].
Qed.

(** ** The system *)

Notation run_call := (syscall kend kdata initcode initcode_size trapret forkret_addr devread devwrite).

Inductive kstep : kern St -> kern St -> Prop :=
| ks_call c b k k' : run_call c k = Ok b k' -> kstep k k'
| ks_dispatch c i t s s1 s' :
    cur s c = None -> scheduler c s = Ok (Some i) s1 -> resume i s1 = Ok tt s' -> kstep (Kern s t) (Kern s' t)
| ks_idle c t s s' : cur s c = None -> scheduler c s = Ok None s' -> kstep (Kern s t) (Kern s' t)
| ks_yield c t s s' : yield c s = Ok tt s' -> kstep (Kern s t) (Kern s' t)
| ks_sleep c ch t s s' : Proc.sleep c ch s = Ok tt s' -> kstep (Kern s t) (Kern s' t)
| ks_wait c ch t s s' : wait c s = Slept ch s' -> kstep (Kern s t) (Kern s' t)
| ks_wakeup ch t s s' : wakeup ch s = Ok tt s' -> kstep (Kern s t) (Kern s' t)
| ks_exit c t s s' : exit c s = Ok tt s' -> kstep (Kern s t) (Kern s' t)
| ks_tick t s : kstep (Kern s t) (Kern s (t +u 1)).

Notation ok := (fun k : kern St => fref None zero (k_pt k)).

Lemma on_pt_triple {A} (m : M pt A) : triple (fref None zero) m (fun _ => fref None zero) -> triple ok (on_pt m) (fun _ => ok).
Proof. intros Hm k a k' Hk. unfold on_pt, zoom. destruct (m (k_pt k)) eqn:E; intros [= <- <-]. by eapply Hm. Qed.

(** A call that is followed from the running process. *)
Lemma call_triple {A} c (m : M pt A) :
  (forall i p, triple (at_cpu zero c i p) m (fun _ => fref None zero)) ->
  (forall s, cur s c = None -> forall a s', m s <> Ok a s') ->
  triple (fref None zero) m (fun _ => fref None zero).
Proof.
  intros Hm Hn s a s' F E. destruct (cur s c) as [i|] eqn:Hc; [| by apply (Hn s Hc) in E].
  by eapply (Hm i (procs s i) s).
Qed.

Lemma cur_proc_none c s a s' : cur s c = None -> cur_proc c s <> Ok a s'.
Proof. intros Hc. unfold cur_proc. erewrite bind_ok by reflexivity. by rewrite Hc. Qed.

Lemma cur_proc_bind_none {B} c (f : nat * proc -> M pt B) s a s' : cur s c = None -> (cur_proc c ≫= f) s <> Ok a s'.
Proof. intros Hc (? & ? & E & _)%bind_inv. by apply cur_proc_none in E. Qed.

Lemma argfd_none {B} c n (f : option (nat * Z) -> M pt B) s a s' : cur s c = None -> (argfd c n ≫= f) s <> Ok a s'.
Proof. intros Hc (? & ? & E & _)%bind_inv. by apply cur_proc_bind_none in E. Qed.

Lemma rw_args_none {B} c (f : option (Z * Z * Z) -> M pt B) s a s' : cur s c = None -> (rw_args c ≫= f) s <> Ok a s'.
Proof. intros Hc (? & ? & E & _)%bind_inv. by apply argfd_none in E. Qed.

Lemma world_triple {A} (m : M (world St) A) : keeps_ft m -> triple (fref None zero) (on_w m) (fun _ => fref None zero).
Proof. intros Hm s a s' F E. by apply (fref_world m None zero s a s' Hm F) in E as [? _]. Qed.

Lemma cur_proc_triple c : triple (fref (St := St) None zero) (cur_proc c) (fun _ => fref None zero).
Proof.
  intros s a s' F E. unfold cur_proc in E. erewrite bind_ok in E by reflexivity.
  destruct (cur s c); [| done]. by injection E as _ <-.
Qed.

Lemma deliver_triple : triple ok deliver (fun _ => ok).
Proof.
  apply on_pt_triple. eapply (triple_bind _ (fun _ => fref None zero)); [by intros s a s' F [= _ <-] |]. intros s0.
  eapply (triple_bind _ (fun _ => fref None zero)).
  - induction (File.woken (Proc.world s0)) as [|ch l IH]; simpl; [by apply triple_ret |].
    eapply (triple_bind _ (fun _ => fref None zero)); [| intros _; exact IH].
    intros s a s' F. by apply wakeup_fref.
  - intros _ s a s' F (w & Ew & ->)%on_w_inv. injection Ew as _ <-. destruct F. by split.
Qed.

Lemma file_call_triple c (m : M pt Z) :
  (forall i p, triple (at_cpu zero c i p) m (fun _ => fref None zero)) ->
  (forall s, cur s c = None -> forall a s', m s <> Ok a s') -> triple ok (file_call m) (fun _ => ok).
Proof.
  intros Hm Hn. eapply (triple_bind _ (fun _ => ok)); [apply on_pt_triple; by eapply call_triple |].
  intros r. by apply triple_ret.
Qed.

Lemma proc_call_triple {A B} (m : M pt A) (f : A -> B) :
  triple (fref None zero) m (fun _ => fref None zero) -> triple ok (r ← on_pt m ; mret (f r)) (fun _ => ok).
Proof. intros Hm. eapply (triple_bind _ (fun _ => ok)); [by apply on_pt_triple |]. intros r. by apply triple_ret. Qed.

(** [argint] of the calls of sysproc.c. *)
Lemma arg_triple {B} c n (f : option Z -> nat * proc -> M (kern St) B) :
  (forall o me, triple ok (f o me) (fun _ => ok)) ->
  triple ok (me ← on_pt (cur_proc c) ; o ← on_pt (on_mem (argint me.2 n)) ; f o me) (fun _ => ok).
Proof.
  intros Hf. eapply (triple_bind _ (fun _ => ok)); [apply on_pt_triple, cur_proc_triple |]. intros me.
  eapply (triple_bind _ (fun _ => ok)); [apply on_pt_triple, world_triple, keeps_in_kmem |]. intros o. apply Hf.
Qed.

Lemma sleep_pass_triple c t n : triple ok (sleep_pass kend kdata initcode initcode_size devread c t n) (fun _ => ok).
Proof.
  eapply (triple_bind _ (fun _ => ok)); [by intros k a k' F [= _ <-] |]. intros k.
  destruct (_ <? _); [| by apply triple_ret].
  eapply (triple_bind _ (fun _ => ok)); [apply on_pt_triple, cur_proc_triple |]. intros me.
  destruct (negb _); [by apply triple_ret |].
  eapply (triple_bind _ (fun _ => ok)); [apply on_pt_triple; intros ????; by eapply sleep_fref |].
  intros _. apply triple_sleep.
Qed.

Notation calls := (syscalls kend kdata initcode initcode_size trapret forkret_addr devread devwrite).

Lemma syscalls_triple c num call : calls c num = Some call -> 0 < num < nsyscalls -> triple ok call (fun _ => ok).
Proof.
  intros E Hn. unfold nsyscalls in Hn.
  assert (Hnum : num = 1 \/ num = 2 \/ num = 3 \/ num = 4 \/ num = 5 \/ num = 6 \/ num = 7 \/ num = 8 \/ num = 9 \/
    num = 10 \/ num = 11 \/ num = 12 \/ num = 13 \/ num = 14 \/ num = 15 \/ num = 16 \/ num = 17 \/ num = 18 \/
    num = 19 \/ num = 20 \/ num = 21) by lia. clear Hn.
  destruct_or! Hnum; subst num; injection E as <-.
  - apply proc_call_triple. intros ????. by eapply fork_fref.
  - apply (proc_call_triple (exit c) (fun _ => None)). intros ????. by eapply exit_fref.
  - apply proc_call_triple. intros ????. by eapply wait_fref.
  - eapply file_call_triple; [intros; apply sys_pipe_refs | intros; by apply cur_proc_bind_none].
  - eapply file_call_triple; [intros; apply sys_read_refs | intros; by apply rw_args_none].
  - apply arg_triple. intros [n|] me; [| by apply triple_ret]. apply proc_call_triple. intros ????. by eapply kill_fref.
  - eapply file_call_triple; [intros; apply sys_exec_refs | intros; by apply cur_proc_bind_none].
  - eapply file_call_triple; [intros; apply sys_fstat_refs | intros; by apply argfd_none].
  - eapply file_call_triple; [intros; apply sys_chdir_refs | intros; by apply cur_proc_bind_none].
  - eapply file_call_triple; [intros; apply sys_dup_refs | intros; by apply argfd_none].
  - apply (proc_call_triple _ (fun me => Some (pid me.2))), cur_proc_triple.
  - apply arg_triple. intros [n|] me; [| by apply triple_ret]. cbv zeta.
    eapply (triple_bind _ (fun _ => ok)); [apply on_pt_triple; intros ????; by eapply growproc_fref |].
    intros r. destruct (r <? 0); by apply triple_ret.
  - apply arg_triple. intros [n|] me; [| by apply triple_ret].
    eapply (triple_bind _ (fun _ => ok)); [by intros k a k' F [= _ <-] |]. intros k. apply sleep_pass_triple.
  - eapply (triple_bind _ (fun _ => ok)); [by intros k a k' F [= _ <-] |]. intros k. by apply triple_ret.
  - eapply file_call_triple; [intros; apply sys_open_refs | intros; by apply cur_proc_bind_none].
  - eapply file_call_triple; [intros; apply sys_write_refs | intros; by apply rw_args_none].
  - eapply file_call_triple; [intros; apply sys_mknod_refs | intros; by apply cur_proc_bind_none].
  - eapply file_call_triple; [intros; apply sys_unlink_refs | intros; by apply cur_proc_bind_none].
  - eapply file_call_triple; [intros; apply sys_link_refs | intros; by apply cur_proc_bind_none].
  - eapply file_call_triple; [intros; apply sys_mkdir_refs | intros; by apply cur_proc_bind_none].
  - eapply file_call_triple; [intros; apply sys_close_refs | intros; by apply argfd_none].
Qed.

Lemma syscall_triple c : triple ok (run_call c) (fun _ => ok).
Proof.
  unfold syscall. eapply (triple_bind _ (fun _ => ok)); [apply on_pt_triple, cur_proc_triple |]. intros me. cbv zeta.
  assert (Hret : forall v, triple ok (on_pt (on_proc me.1 (fun p => set_tf (set_eax (u32 v) (tf p)) p)) ;; mret true)
    (fun _ => ok)).
  { intros v. eapply (triple_bind _ (fun _ => ok)); [| intros _; by apply triple_ret].
    apply on_pt_triple. intros s a s' F E. eapply on_proc_fref in E; [exact E | exact F | done | by left | done]. }
  destruct (_ && _) eqn:Hb; [| apply Hret]. reflect_bool.
  destruct (calls c _) as [call|] eqn:E; [| apply Hret].
  eapply (triple_bind _ (fun _ => ok)); [eapply syscalls_triple; [exact E | done] |]. intros o.
  eapply (triple_bind _ (fun _ => ok)); [apply deliver_triple |]. intros _.
  destruct o; [apply Hret | by apply triple_ret].
Qed.

Lemma kstep_fref k k' : ok k -> kstep k k' -> ok k'.
Proof.
  intros F Hs. destruct Hs; simpl in *; [by eapply syscall_triple | ..].
  - by eapply dispatch_fref.
  - by eapply idle_fref.
  - by eapply yield_fref.
  - by eapply sleep_fref.
  - by eapply wait_sleep_fref.
  - by eapply wakeup_fref.
  - by eapply exit_fref.
  - done.
Qed.
End kernel.

(** C6: an open file is counted exactly.  Starting with no open files, after any sequence of
    completed system calls, scheduler activations, processes giving up their CPU, exits and wakeups,
    on any number of CPUs, the reference count of every entry of the file table is the number of
    descriptors that name it in all processes together, and every descriptor in use names an entry
    whose count is positive: a file is not closed while a descriptor is left, and the panics of
    [filedup] and [fileclose] are out of reach. *)
Theorem file_refcounts_exact {St : Type} `{BlockStore St}
    (kend kdata initcode initcode_size trapret forkret_addr : Z)
    (devread : Z -> option (nat -> Z -> M (fstate St) (Z * list Z)))
    (devwrite : Z -> option (nat -> list Z -> Z -> M (fstate St) Z)) (k0 k : kern St) :
  (forall i, ofile (procs (k_pt k0) i) = replicate NOFILE 0) -> (forall c, cur (k_pt k0) c = None) ->
  (forall i, f_ref (ftable (Proc.world (k_pt k0)) i) = 0) ->
  reach (kstep kend kdata initcode initcode_size trapret forkret_addr devread devwrite) k0 k ->
  let refs i := f_ref (ftable (Proc.world (k_pt k)) i) in
  (forall i, (i < NFILE)%nat -> refs i = total (procs (k_pt k)) (ptr i)) /\
  (forall j fd f, (j < NPROC)%nat -> ofile (procs (k_pt k) j) !! fd = Some f -> f <> 0 ->
     exists i, (i < NFILE)%nat /\ f = ptr i /\ 1 <= refs i).
Proof.
  intros Ho Hc Hr Hreach. cbv zeta.
  assert (F : fref None zero (k_pt k)).
  { eapply (reach_invariant _ (fun k => fref None zero (k_pt k))); [| | exact Hreach].
    - split.
      + intros j _. by rewrite Ho.
      + intros j f _. rewrite Ho. intros [-> _]%elem_of_replicate. by left.
      + intros j _ _ _. apply Ho.
      + intros c i Hi. by rewrite Hc in Hi.
      + intros c c' i Hi. by rewrite Hc in Hi.
      + intros i _. rewrite Hr. unfold total, zero. induction (seq 0 NPROC) as [|j l IH]; simpl; [done |].
        rewrite Ho, count_0 by (unfold ptr; lia). exact IH.
    - intros s t. apply kstep_fref. }
  split.
  - intros i Hi. rewrite (fr_ref _ _ _ F i Hi). unfold zero. lia.
  - intros j fd f Hj Hf Hnz. destruct (fr_ptr _ _ _ F j f Hj) as [? | (i & Hi & ->)];
      [by eapply list_elem_of_lookup_2 | done |].
    exists i. split_and!; [done | done |]. rewrite (fr_ref _ _ _ F i Hi). unfold zero.
    pose proof (total_pos _ j fd _ Hj Hf). lia.
Qed.

(** A process about to call pipe: its stack holds the address of the two integers, and one page of
    memory is free. *)
#[local] Instance no_disk : BlockStore unit := {
  bread _ _ := panic "no disk"; bwrite _ := panic "no disk"; brelse _ := panic "no disk";
  buf_data _ _ := []; buf_no _ _ := 0; buf_set _ _ := panic "no disk"; buf_pin _ := panic "no disk"
}.
Definition demo_fs : fstate unit :=
  FState (LState (Log 2 30 0 false 1 0 (fun _ => 0)) tt) (Super 0 0 0 0 0 0 0)
    (fun _ => Inode 0 0 0 Sleep.initsleeplock false 0 0 0 0 0 []).
Definition demo_world : world unit :=
  World demo_fs (fun _ => File FD_NONE 0 false false 0 0%nat 0) (fun _ => pipe_init [])
    (Kmem (k_mem demo_pages) (KERNBASE + 20480) false) 0 (fun _ => MMRegs 0 0 0 0) [].
Definition pipe_caller : proc :=
  set_state RUNNABLE (set_kstack 4096 (set_pid 1 (set_tf (set_eax 4 tf_zero) demo_user))).
Definition demo_kern : kern unit :=
  Kern (PT (fun i => if (i =? 0)%nat then pipe_caller else proc_zero) (Some 0%nat) 2 (fun _ => None) (fun _ => 0%nat)
          demo_world) 0.

Notation demo_services := (kservices 0 0 0 0 (fun _ => None)).
Definition kfinal {T A} (m : M T A) (s : T) : T :=
  match m s with Ok _ s' => s' | Slept _ s' => s' | Panicked _ => s end.
Definition demo_running : ptable (world unit) :=
  kfinal (@resume (world unit) 0) (kfinal (@scheduler _ demo_services 0) (k_pt demo_kern)).
Definition demo_piped : kern unit :=
  kfinal (syscall 0 0 0 0 0 0 (fun _ => None) (fun _ => None) 0) (Kern demo_running 0).

Lemma demo_call :
  syscall 0 0 0 0 0 0 (fun _ => None) (fun _ => None) 0 (Kern demo_running 0) = Ok true demo_piped.
Proof.
  assert (E : match syscall 0 0 0 0 0 0 (fun _ => None) (fun _ => None) 0 (Kern demo_running 0) with
              | Ok b _ => b | _ => false end = true) by (vm_compute; reflexivity).
  revert E. unfold demo_piped, kfinal. generalize (syscall 0 0 0 0 0 0 (fun _ => None) (fun _ => None) 0 (Kern demo_running 0)).
  intros [[] | |] E; [reflexivity | discriminate E ..].
Qed.

Lemma file_refcounts_exact_witness :
  f_ref (ftable (Proc.world (k_pt demo_piped)) 0%nat) = 1 /\
  f_ref (ftable (Proc.world (k_pt demo_piped)) 0%nat) = total (procs (k_pt demo_piped)) (ptr 0) /\
  ofile (procs (k_pt demo_piped) 0%nat) !! 1%nat = Some (ptr 1).
Proof.
  assert (E1 : f_ref (ftable (Proc.world (k_pt demo_piped)) 0%nat) = 1) by (by vm_compute).
  assert (E2 : ofile (procs (k_pt demo_piped) 0%nat) !! 1%nat = Some (ptr 1)) by (by vm_compute).
  split; [exact E1 |]. split; [| exact E2].
  refine (proj1 (file_refcounts_exact 0 0 0 0 0 0 (fun _ => None) (fun _ => None) demo_kern demo_piped _ _ _ _) 0%nat _).
  - intros [|i]; reflexivity.
  - reflexivity.
  - reflexivity.
  - eapply reach_step; [eapply reach_step; [apply reach_refl |] |].
    + apply (ks_dispatch _ _ _ _ _ _ _ _ 0 0 0 (k_pt demo_kern)
        (kfinal (@scheduler _ demo_services 0) (k_pt demo_kern)) demo_running); reflexivity.
    + exact (ks_call _ _ _ _ _ _ _ _ 0 true _ _ demo_call).
  - unfold NFILE. lia.
Defined.
