(* ===== verification/Console.v ===== *)
(** * console.c and uart.c: the terminal

    Output goes to the serial port and to the text screen with its cursor register; input is edited
    in a 128-byte ring with a read, a write and an edit index, free-running 32-bit counters.
    [consoleintr] takes the characters [getc] delivers; [consoleread] is given as activations, from
    taking [cons.lock] to returning or going to sleep.  The loop that a CPU enters in [consputc]
    after another one panicked is not modelled: a panic ends the run. *)
From S2P Require Import Prelude.
#[local] Open Scope Z_scope.

Definition BACKSPACE : Z := 0x100.
Definition INPUT_BUF : Z := 128.
(** [C(x)]: the code of Control-x. *)
Definition ctl (x : Z) : Z := x - 64.
Definition nl : Z := 10.
Definition cr : Z := 13.
Definition ctl_D : Z := ctl 68.
Definition ctl_H : Z := ctl 72.
Definition ctl_P : Z := ctl 80.
Definition ctl_U : Z := ctl 85.

(** The screen memory [crt], a 16-bit cell for each position, and the cursor of the controller. *)
Record cga := Cga { crt : Z -> Z; cursor : Z }.

Record input := Input {
  buf : list Z;
  r : Z;  (* Read index *)
  w : Z;  (* Write index *)
  e : Z   (* Edit index *)
}.

Record console := Console {
  screen : cga;
  uart : bool;         (* is there a uart? *)
  com1 : list Z;       (* the bytes sent on the serial line *)
  inp : input
}.

Notation MC := (M console).

(** ** Output *)

(** The wait for the line, at most 128 polls, has no effect here. *)
Definition uartputc (c : Z) : MC unit :=
  modify (fun s => if uart s then Console (screen s) (uart s) (com1 s ++ [u8 c]) (inp s) else s).

Definition set_cell (m : Z -> Z) (i v : Z) : Z -> Z := fun j => if j =? i then v else m j.

(** [memmove(crt, crt+80, ...23*80)] then [memset(crt+pos, 0, ...24*80 - pos)]. *)
Definition scroll (m : Z -> Z) (pos : Z) : Z -> Z := fun i =>
  if (pos <=? i) && (i <? 24 * 80) then 0
  else if (0 <=? i) && (i <? 23 * 80) then m (i + 80) else m i.

Definition cgaputc (c : Z) : MC unit := fun s =>
  let pos := cursor (screen s) in
  let m := crt (screen s) in
  let '(pos, m) :=
    if c =? nl then (pos + (80 - pos mod 80), m)
    else if c =? BACKSPACE then (if 0 <? pos then pos - 1 else pos, m)
    else (pos + 1, set_cell m pos (Z.lor (Z.land c 0xff) 0x0700)) in
  if (pos <? 0) || (25 * 80 <? pos) then Panicked "pos under/overflow"
  else
    let '(pos, m) := if 24 <=? pos / 80 then (pos - 80, scroll m (pos - 80)) else (pos, m) in
    Ok tt (Console (Cga (set_cell m pos (Z.lor 32 0x0700)) (u16 pos)) (uart s) (com1 s) (inp s)).

Definition consputc (c : Z) : MC unit :=
  (if c =? BACKSPACE then uartputc 8 ;; uartputc 32 ;; uartputc 8 else uartputc c) ;;
  cgaputc c.

Fixpoint consputs (l : list Z) : MC unit :=
  match l with
  | [] => mret tt
  | c :: l' => consputc c ;; consputs l'
  end.

(** The digits of [x], last first: the [do ... while] loop of [printint], which runs at most 32
    times for a 32-bit word and a base of at least 2. *)
Fixpoint digits_loop (fuel : nat) (digits : list Z) (x base : Z) : list Z :=
  match fuel with
  | O => []
  | S f =>
      let d := nth (Z.to_nat (x mod base)) digits 0 in
      if negb (x / base =? 0) then d :: digits_loop f digits (x / base) base else [d]
  end.

Definition lower_digits : list Z := [48; 49; 50; 51; 52; 53; 54; 55; 56; 57; 97; 98; 99; 100; 101; 102].

(** The array [buf] of [printint] when the digits and the sign are in it. *)
Definition int_chars (xx base : Z) (sign : bool) : list Z :=
  let neg := sign && (s32 xx <? 0) in
  let x := if neg then u32 (- s32 xx) else u32 xx in
  digits_loop 32 lower_digits x base ++ (if neg then [45] else []).

Definition printint (xx base : Z) (sign : bool) : MC unit := consputs (rev (int_chars xx base sign)).

Section cprintf.
(** The string at an address, without its NUL. *)
Variable str : Z -> list Z.

Definition null_str : list Z := [40; 110; 117; 108; 108; 41].

(** The loop of [cprintf] over the format; the [k]-th argument word is next. *)
Fixpoint cprintf_loop (fmt : list Z) (args : nat -> Z) (k : nat) : MC unit :=
  match fmt with
  | [] => mret tt
  | c :: fmt' =>
      if negb (c =? 37) then consputc c ;; cprintf_loop fmt' args k
      else match fmt' with
           | [] => mret tt
           | c :: fmt'' =>
               if c =? 100 then printint (args k) 10 true ;; cprintf_loop fmt'' args (S k)
               else if (c =? 120) || (c =? 112) then printint (args k) 16 false ;; cprintf_loop fmt'' args (S k)
               else if c =? 115 then
                 consputs (if args k =? 0 then null_str else str (args k)) ;; cprintf_loop fmt'' args (S k)
               else if c =? 37 then consputc 37 ;; cprintf_loop fmt'' args k
               else consputc 37 ;; consputc c ;; cprintf_loop fmt'' args k
           end
  end.
Definition cprintf (fmt : list Z) (args : nat -> Z) : MC unit := cprintf_loop fmt args 0.
End cprintf.

(** ** Input *)

Definition slot (i : Z) : nat := Z.to_nat (i mod INPUT_BUF).
Definition set_input (x : input) : MC unit := modify (fun s => Console (screen s) (uart s) (com1 s) x).

(** The loop of Control-U; it stops at the latest when the ring is used up. *)
Fixpoint kill_line (fuel : nat) : MC unit :=
  match fuel with
  | O => mret tt
  | S f =>
      i ← gets inp ;
      if negb (e i =? w i) && negb (nth (slot (e i -u 1)) (buf i) 0 =? nl) then
        set_input (Input (buf i) (r i) (w i) (e i -u 1)) ;; consputc BACKSPACE ;; kill_line f
      else mret tt
  end.

(** One character of [consoleintr]: whether readers are woken and a process listing is asked for. *)
Definition consolechar (c : Z) : MC (bool * bool) :=
  i ← gets inp ;
  if c =? ctl_P then mret (false, true)
  else if c =? ctl_U then kill_line (Z.to_nat INPUT_BUF) ;; mret (false, false)
  else if (c =? ctl_H) || (c =? 0x7f) then
    if negb (e i =? w i) then
      set_input (Input (buf i) (r i) (w i) (e i -u 1)) ;; consputc BACKSPACE ;; mret (false, false)
    else mret (false, false)
  else if negb (c =? 0) && (e i -u r i <? INPUT_BUF) then
    let c := if c =? cr then nl else c in
    let i' := Input (<[slot (e i) := u8 c]> (buf i)) (r i) (w i) (e i +u 1) in
    set_input i' ;;
    consputc c ;;
    if (c =? nl) || (c =? ctl_D) || (e i' =? r i' +u INPUT_BUF) then
      set_input (Input (buf i') (r i') (e i') (e i')) ;; mret (true, false)
    else mret (false, false)
  else mret (false, false).

(** The characters [getc] delivers until it gives a negative value. *)
Fixpoint consoleintr (cs : list Z) : MC (bool * bool) :=
  match cs with
  | [] => mret (false, false)
  | c :: cs' => a ← consolechar c ; b ← consoleintr cs' ; mret (a.1 || b.1, a.2 || b.2)
  end.

(** How an activation of [consoleread] ends: it returns, or sleeps with [n] bytes still wanted and
    the bytes [bs] already stored. *)
Inductive reading :=
| CRet (v : Z) (bs : list Z)
| CSleep (n : nat) (bs : list Z).

Fixpoint consoleread_loop (killed : bool) (target n : nat) (bs : list Z) : MC reading :=
  match n with
  | O => mret (CRet (Z.of_nat target) bs)
  | S n' =>
      i ← gets inp ;
      if r i =? w i then mret (if killed then CRet (-1) bs else CSleep n bs)
      else
        let c := nth (slot (r i)) (buf i) 0 in
        set_input (Input (buf i) (r i +u 1) (w i) (e i)) ;;
        if c =? ctl_D then
          (if (n <? target)%nat then set_input i else mret tt) ;;
          mret (CRet (Z.of_nat target - Z.of_nat n) bs)
        else if c =? nl then mret (CRet (Z.of_nat target - Z.of_nat n') (bs ++ [c]))
        else consoleread_loop killed target n' (bs ++ [c])
  end.

Section device.
(** The file system, for the lock of the device's inode. *)
Context {F : Type} (ilock iunlock : nat -> M F unit).

Definition on_con {A} (m : MC A) : M (console * F) A := zoom fst (fun c s => (c, s.2)) m.
Definition on_fs {A} (m : M F A) : M (console * F) A := zoom snd (fun f s => (s.1, f)) m.

(** The part of [consoleread] from the loop on; [ilock] only before a return. *)
Definition consoleread_from (ip : nat) (killed : bool) (target n : nat) (bs : list Z) : M (console * F) reading :=
  o ← on_con (consoleread_loop killed target n bs) ;
  match o with
  | CRet _ _ => on_fs (ilock ip) ;; mret o
  | CSleep _ _ => mret o
  end.

Definition consoleread (ip : nat) (killed : bool) (n : nat) : M (console * F) reading :=
  on_fs (iunlock ip) ;; consoleread_from ip killed n n [].

Definition consolewrite (ip : nat) (buf : list Z) : M (console * F) Z :=
  on_fs (iunlock ip) ;; on_con (consputs ((fun c => Z.land c 0xff) <$> buf)) ;; on_fs (ilock ip) ;;
  mret (Z.of_nat (length buf)).
End device.

(** ** The terminal a process sees *)

(** Everything committed so far, how much of it readers took, and the line being edited. *)
Record term := Term { committed : list Z; taken : nat; line : list Z }.
Definition unread (t : term) : list Z := drop (taken t) (committed t).

(** The effect of a key, and whether it wakes readers: ends of line and of file commit the line, and
    so does a full buffer; keys typed while the buffer is full are dropped. *)
Definition t_key (c : Z) (t : term) : term * bool :=
  if c =? ctl_P then (t, false)
  else if c =? ctl_U then (Term (committed t) (taken t) [], false)
  else if (c =? ctl_H) || (c =? 0x7f) then (Term (committed t) (taken t) (removelast (line t)), false)
  else if negb (c =? 0) && (length (unread t) + length (line t) <? 128)%nat then
    let c := if c =? cr then nl else c in
    let l := line t ++ [c] in
    if (c =? nl) || (c =? ctl_D) || (length (unread t) + length l =? 128)%nat
    then (Term (committed t ++ l) (taken t) [], true) else (Term (committed t) (taken t) l, false)
  else (t, false).

(** A read of up to [n] bytes from the committed bytes [q]: how many it takes, and how it ends.  It
    stops after a newline and before an end of file, which it takes only as its first byte. *)
Fixpoint s_read (killed : bool) (q : list Z) (target n : nat) (bs : list Z) {struct n} : nat * reading :=
  match n, q with
  | O, _ => (O, CRet (Z.of_nat target) bs)
  | S _, [] => (O, if killed then CRet (-1) bs else CSleep n bs)
  | S n', c :: q' =>
      if c =? ctl_D then (if (n <? target)%nat then O else 1%nat, CRet (Z.of_nat target - Z.of_nat n) bs)
      else if c =? nl then (1%nat, CRet (Z.of_nat target - Z.of_nat n') (bs ++ [c]))
      else let '(k, o) := s_read killed q' target n' (bs ++ [c]) in (S k, o)
  end.

Inductive cevent :=
| Key (c : Z)
| Read (killed : bool) (target n : nat) (bs : list Z).
Inductive cresult :=
| Woke (b : bool)
| Got (o : reading).

Definition t_event (v : cevent) (t : term) : term * cresult :=
  match v with
  | Key c => let '(t', b) := t_key c t in (t', Woke b)
  | Read killed target n bs =>
      let '(k, o) := s_read killed (unread t) target n bs in (Term (committed t) (taken t + k) (line t), Got o)
  end.
Definition c_event (v : cevent) : MC cresult :=
  match v with
  | Key c => b ← consolechar c ; mret (Woke b.1)
  | Read killed target n bs => o ← consoleread_loop killed target n bs ; mret (Got o)
  end.

Fixpoint t_run (vs : list cevent) (t : term) : term * list cresult :=
  match vs with
  | [] => (t, [])
  | v :: vs' => let '(t1, o) := t_event v t in let '(t2, os) := t_run vs' t1 in (t2, o :: os)
  end.
Fixpoint c_run (vs : list cevent) : MC (list cresult) :=
  match vs with
  | [] => mret []
  | v :: vs' => o ← c_event v ; os ← c_run vs' ; mret (o :: os)
  end.

(** A line under edit has no end of line or file in it; a full buffer has nothing under edit. *)
Record term_ok (t : term) : Prop := {
  to_taken : (taken t <= length (committed t))%nat;
  to_line : nl ∉ line t /\ ctl_D ∉ line t;
  to_room : (length (unread t) + length (line t) <= 128)%nat;
  to_full : (length (unread t) + length (line t) = 128)%nat -> line t = []
}.

(** The ring holds the committed bytes not yet read, then the line. *)
Record crel (s : console) (t : term) : Prop := {
  cl_len : length (buf (inp s)) = 128%nat;
  cl_r : 0 <= r (inp s) < 2 ^ 32;
  cl_w : w (inp s) = u32 (r (inp s) + Z.of_nat (length (unread t)));
  cl_e : e (inp s) = u32 (r (inp s) + Z.of_nat (length (unread t)) + Z.of_nat (length (line t)));
  cl_cells : forall k x, (unread t ++ line t) !! k = Some x -> buf (inp s) !! slot (r (inp s) + Z.of_nat k) = Some x;
  cl_cursor : 0 <= cursor (screen s) < 24 * 80;
  cl_term : term_ok t
}.

Lemma slot_u32 x : slot (u32 x) = slot x.
Proof. unfold slot, INPUT_BUF. change 128 with (2 ^ 7). by rewrite u32_mod_pow2 by lia. Qed.

Lemma slot_lt x : (slot x < 128)%nat.
Proof. unfold slot, INPUT_BUF. pose proof (Z.mod_pos_bound x 128). lia. Qed.

Lemma ring_slot_inj x i j : 0 <= i < 128 -> 0 <= j < 128 -> slot (x + i) = slot (x + j) -> i = j.
Proof. unfold slot, INPUT_BUF. intros. Z.to_euclidean_division_equations. lia. Qed.

(** ** Output never leaves the screen *)

Lemma cgaputc_ok c s :
  0 <= cursor (screen s) < 24 * 80 ->
  exists s', cgaputc c s = Ok tt s' /\ inp s' = inp s /\ 0 <= cursor (screen s') < 24 * 80.
Proof.
  intros Hc. unfold cgaputc. set (p := cursor (screen s)) in *.
  destruct (if c =? nl then _ else _) as [pos m] eqn:E.
  assert (Hp : 0 <= pos <= 24 * 80).
  { revert E. destruct (c =? nl); [| destruct (c =? BACKSPACE)]; intros [= <- <-].
    - Z.to_euclidean_division_equations. lia.
    - zcase (0 <? p); lia.
    - lia. }
  rewrite (proj2 (Z.ltb_ge pos 0)), (proj2 (Z.ltb_ge (25 * 80) pos)) by lia. cbn [orb].
  destruct (if 24 <=? pos / 80 then _ else _) as [pos' m'] eqn:E'.
  assert (Hp' : 0 <= pos' < 24 * 80).
  { revert E'. zcase (24 <=? pos / 80); intros [= <- <-]; Z.to_euclidean_division_equations; lia. }
  eexists. split; [reflexivity |]. simpl. split; [done |]. unfold u16. rewrite Z.mod_small; lia.
Qed.

Lemma consputc_ok c s :
  0 <= cursor (screen s) < 24 * 80 ->
  exists s', consputc c s = Ok tt s' /\ inp s' = inp s /\ 0 <= cursor (screen s') < 24 * 80.
Proof.
  intros Hc. unfold consputc.
  assert (Hu : exists s1, (if c =? BACKSPACE then uartputc 8 ;; uartputc 32 ;; uartputc 8 else uartputc c) s = Ok tt s1 /\
    inp s1 = inp s /\ screen s1 = screen s).
  { destruct (c =? BACKSPACE); eexists; (split; [reflexivity |]); by repeat case_match. }
  destruct Hu as (s1 & E1 & I1 & S1). erewrite bind_ok by exact E1.
  destruct (cgaputc_ok c s1) as (s2 & E2 & I2 & C2); [by rewrite S1 |]. exists s2. by rewrite E2, I2.
Qed.

(** ** The ring implements the terminal *)

Lemma edit_iff s t : crel s t -> e (inp s) = w (inp s) <-> line t = [].
Proof.
  intros R. pose proof (to_room _ (cl_term _ _ R)) as Hr. rewrite (cl_e _ _ R), (cl_w _ _ R).
  destruct (line t) as [|x l]; simpl in *; [by rewrite Z.add_0_r |]. split; [| done]. intros E. exfalso. revert E. word.
Qed.

Lemma ready_iff s t : crel s t -> r (inp s) = w (inp s) <-> unread t = [].
Proof.
  intros R. pose proof (to_room _ (cl_term _ _ R)) as Hr. pose proof (cl_r _ _ R). rewrite (cl_w _ _ R).
  destruct (unread t) as [|x l]; simpl in *; [rewrite Z.add_0_r, u32_small by done; done |].
  split; [| done]. intros E. exfalso. revert E. word.
Qed.

(** The last character of the line. *)
Lemma last_cell s t l x :
  crel s t -> line t = l ++ [x] -> nth (slot (e (inp s) -u 1)) (buf (inp s)) 0 = x.
Proof.
  intros R El. rewrite slot_u32, (cl_e _ _ R). apply nth_lookup_Some. rewrite <- slot_u32, u32_sub_l, slot_u32.
  rewrite El, length_app. simpl.
  replace (_ - 1) with (r (inp s) + Z.of_nat (length (unread t) + length l)) by lia. apply (cl_cells _ _ R).
  rewrite El, lookup_app_r by lia. rewrite lookup_app_r by lia.
  by replace (_ - _ - _)%nat with 0%nat by lia.
Qed.

Definition erase (s : console) : console :=
  Console (screen s) (uart s) (com1 s) (Input (buf (inp s)) (r (inp s)) (w (inp s)) (e (inp s) -u 1)).

Lemma erase_rel s s' t l x :
  crel s t -> line t = l ++ [x] -> inp s' = inp (erase s) -> 0 <= cursor (screen s') < 24 * 80 ->
  crel s' (Term (committed t) (taken t) l).
Proof.
  intros [C1 C2 C3 C4 C5 C6 [T1 [T2 T3] T4 T5]] El Ei Hc. unfold unread in *. rewrite El in *.
  rewrite length_app in T4, C4. simpl in T4, C4.
  split; rewrite ?Ei; simpl; try done.
  - rewrite C4, u32_sub_l. f_equal. unfold unread. simpl. lia.
  - intros k y Hk. apply C5. unfold unread in Hk. simpl in Hk. rewrite app_assoc. by apply lookup_app_l_Some.
  - split; unfold unread in *; simpl in *; [done | set_solver | lia | lia].
Qed.

Lemma erase_char s t l x :
  crel s t -> line t = l ++ [x] ->
  exists s', (set_input (inp (erase s)) ;; consputc BACKSPACE) s = Ok tt s' /\ crel s' (Term (committed t) (taken t) l) /\
    inp s' = inp (erase s).
Proof.
  intros R El. erewrite bind_ok by reflexivity.
  destruct (consputc_ok BACKSPACE (erase s)) as (s' & E & I & C); [apply R |].
  exists s'. split_and!; [exact E | by eapply erase_rel | done].
Qed.

Lemma bind_assoc_ok {A B C} (m : MC A) (f : A -> MC B) (g : B -> MC C) s b s' :
  (m ≫= f) s = Ok b s' -> (m ≫= fun a => f a ≫= g) s = g b s'.
Proof. unfold mbind, M_bind. destruct (m s); [| done | done]. by intros ->. Qed.

Lemma kill_line_ok fuel : forall s t,
  crel s t -> (length (line t) <= fuel)%nat ->
  exists s', kill_line fuel s = Ok tt s' /\ crel s' (Term (committed t) (taken t) []).
Proof.
  induction fuel as [|f IH]; intros s t R Hf.
  - exists s. split; [done |]. destruct t as [c k [|x l]]; [done | simpl in Hf; lia].
  - cbn [kill_line]. erewrite bind_ok by reflexivity. destruct (Z.eqb_spec (e (inp s)) (w (inp s))) as [E | E].
    + apply (edit_iff s t R) in E. exists s. destruct t as [c k l]; simpl in E; by subst.
    + simpl. assert (Hne : line t <> []) by (by rewrite <- (edit_iff s t R)).
      destruct (exists_last Hne) as (l & x & El). rewrite (last_cell _ _ _ _ R El).
      pose proof (to_line _ (cl_term _ _ R)) as [Hnl _]. rewrite El in Hnl.
      rewrite (proj2 (Z.eqb_neq x nl)) by (intros ->; apply Hnl; set_solver). simpl.
      destruct (erase_char s t l x R El) as (s1 & E1 & R1 & _).
      erewrite bind_assoc_ok by exact E1. destruct (IH s1 _ R1) as (s' & E' & R').
      { simpl. rewrite El, length_app in Hf. simpl in Hf. lia. }
      exists s'. by rewrite E'.
Qed.

Definition typed (s : console) (c : Z) : input :=
  Input (<[slot (e (inp s)) := u8 c]> (buf (inp s))) (r (inp s)) (w (inp s)) (e (inp s) +u 1).

Lemma typed_cells s t c :
  crel s t -> 0 <= c < 256 -> (length (unread t) + length (line t) < 128)%nat ->
  let i := typed s c in
  length (buf i) = 128%nat /\ e i = u32 (r i + Z.of_nat (length (unread t)) + Z.of_nat (length (line t ++ [c]))) /\
  (forall k x, (unread t ++ line t ++ [c]) !! k = Some x -> buf i !! slot (r i + Z.of_nat k) = Some x).
Proof.
  intros R Hc Hlt i. unfold i, typed. simpl. split_and!.
  - rewrite length_insert. apply R.
  - rewrite (cl_e _ _ R), u32_add_l, length_app. simpl. f_equal. lia.
  - intros k x Hk. assert (Hs : slot (e (inp s)) = slot (r (inp s) + Z.of_nat (length (unread t ++ line t)))).
    { rewrite (cl_e _ _ R), slot_u32, length_app. f_equal. lia. }
    rewrite Hs. rewrite app_assoc in Hk. apply lookup_app_Some in Hk as [Hk | [Hge Hk]].
    + pose proof (lookup_lt_Some _ _ _ Hk) as Hk1. rewrite length_app in *. rewrite list_lookup_insert_ne; [by apply R |].
      intros E. apply ring_slot_inj in E; lia.
    + apply list_lookup_singleton_Some in Hk as [Hk <-]. replace k with (length (unread t ++ line t)) by lia.
      rewrite list_lookup_insert_eq by (rewrite (cl_len _ _ R); apply slot_lt). f_equal. unfold u8. by apply Z.mod_small.
Qed.

Lemma unread_commit t l :
  term_ok t -> unread (Term (committed t ++ l) (taken t) []) = unread t ++ l.
Proof. intros T. unfold unread. simpl. rewrite drop_app_le; [done | apply T]. Qed.

Lemma used_cells s t : crel s t -> e (inp s) -u r (inp s) = Z.of_nat (length (unread t) + length (line t)).
Proof.
  intros R. pose proof (to_room _ (cl_term _ _ R)). rewrite (cl_e _ _ R), u32_sub_l.
  replace (_ - _) with (Z.of_nat (length (unread t) + length (line t))) by lia. apply u32_small. lia.
Qed.

(** A character added to the line, and the line committed if it ends or fills the ring. *)
Lemma type_char s t c :
  crel s t -> 0 <= c < 256 -> (length (unread t) + length (line t) < 128)%nat ->
  let full := (c =? nl) || (c =? ctl_D) || (length (unread t) + length (line t ++ [c]) =? 128)%nat in
  let t' := if full then Term (committed t ++ line t ++ [c]) (taken t) [] else Term (committed t) (taken t) (line t ++ [c]) in
  exists s' b, (set_input (typed s c) ;; consputc c ;;
     if (c =? nl) || (c =? ctl_D) || (e (typed s c) =? r (typed s c) +u INPUT_BUF) then
       set_input (Input (buf (typed s c)) (r (typed s c)) (e (typed s c)) (e (typed s c))) ;; mret (true, false)
     else mret (false, false)) s = Ok b s' /\ crel s' t' /\ b.1 = full.
Proof.
  intros R Hc Hlt full t'. destruct (typed_cells s t c R Hc Hlt) as (L & Ee & Hcells). pose proof (cl_term _ _ R) as T.
  set (i := typed s c) in *. assert (Hri : r i = r (inp s)) by done.
  assert (Hwi : w i = w (inp s)) by done. clearbody i. erewrite bind_ok by reflexivity.
  set (s1 := Console (screen s) (uart s) (com1 s) i).
  destruct (consputc_ok c s1) as (s2 & E2 & I2 & C2); [apply R |]. erewrite bind_ok by exact E2.
  assert (Hfull : (e i =? r i +u INPUT_BUF) = (length (unread t) + length (line t ++ [c]) =? 128)%nat).
  { rewrite Ee. pose proof (cl_r _ _ R) as Hr. rewrite Hri. unfold INPUT_BUF. rewrite length_app in *. simpl in *.
    destruct (Nat.eqb_spec (length (unread t) + (length (line t) + 1)) 128) as [E | E].
    - apply Z.eqb_eq. f_equal. lia.
    - apply Z.eqb_neq. word. }
  rewrite Hfull. fold full. unfold t'. destruct full eqn:Ef.
  - eexists _, _. split; [reflexivity |]. split; [| done].
    assert (Hu : unread (Term (committed t ++ line t ++ [c]) (taken t) []) = unread t ++ line t ++ [c]) by (by apply unread_commit).
    split; simpl; rewrite ?Hu, ?length_app in *; try done; try apply R.
    + rewrite Hri. apply R.
    + rewrite Ee. f_equal. simpl. lia.
    + rewrite Ee. f_equal. simpl. lia.
    + rewrite app_nil_r. exact Hcells.
    + split; rewrite ?Hu; simpl; rewrite ?length_app; simpl; [pose proof (to_taken _ T); lia | set_solver | lia | done].
  - eexists _, _. split; [reflexivity |]. split; [| done]. unfold full in Ef. reflect_bool.
    apply Nat.eqb_neq in H0.
    split; rewrite ?I2; simpl; rewrite ?Hri, ?Hwi in *; try done; try apply R.
    split; simpl; try apply T; unfold unread in *; simpl; rewrite ?length_app in *; simpl in *; try lia.
    destruct (to_line _ T). split; set_solver.
Qed.

Lemma consolechar_ok c s t :
  crel s t -> 0 <= c < 256 ->
  exists s' b, consolechar c s = Ok b s' /\ crel s' (t_key c t).1 /\ b.1 = (t_key c t).2.
Proof.
  intros R Hc. unfold consolechar, t_key. erewrite bind_ok by reflexivity.
  destruct (c =? ctl_P); [by eexists _, _ |].
  destruct (c =? ctl_U).
  { destruct (kill_line_ok (Z.to_nat INPUT_BUF) s t R) as (s' & E & R').
    { pose proof (to_room _ (cl_term _ _ R)). unfold INPUT_BUF. lia. }
    erewrite bind_ok by exact E. by eexists _, _. }
  destruct ((c =? ctl_H) || (c =? 0x7f)).
  { destruct (Z.eqb_spec (e (inp s)) (w (inp s))) as [E | E]; simpl.
    - apply (edit_iff s t R) in E. rewrite E. exists s, (false, false). destruct t; simpl in *; by subst.
    - assert (Hne : line t <> []) by (by rewrite <- (edit_iff s t R)). destruct (exists_last Hne) as (l & x & El).
      destruct (erase_char s t l x R El) as (s1 & E1 & R1 & _). erewrite bind_assoc_ok by exact E1.
      rewrite El, removelast_last. by eexists _, _. }
  rewrite (used_cells s t R). unfold INPUT_BUF.
  destruct (Z.eqb_spec c 0) as [-> | Hc0]; simpl; [by eexists _, _ |].
  destruct (Nat.ltb_spec (length (unread t) + length (line t)) 128) as [Hlt | Hge].
  - rewrite (proj2 (Z.ltb_lt _ _)) by lia. set (c' := if c =? cr then nl else c).
    assert (Hc' : 0 <= c' < 256) by (unfold c', nl; destruct (c =? cr); lia).
    destruct (type_char s t c' R Hc' Hlt) as (s' & b & E & R' & Eb). exists s', b.
    split; [exact E |]. by destruct (_ || (_ =? 128)%nat).
  - rewrite (proj2 (Z.ltb_ge _ _)) by lia. by eexists _, _.
Qed.

(** A byte taken from the ring. *)
Lemma take_byte s t c q :
  crel s t -> unread t = c :: q ->
  nth (slot (r (inp s))) (buf (inp s)) 0 = c /\
  crel (Console (screen s) (uart s) (com1 s) (Input (buf (inp s)) (r (inp s) +u 1) (w (inp s)) (e (inp s))))
    (Term (committed t) (S (taken t)) (line t)) /\ unread (Term (committed t) (S (taken t)) (line t)) = q.
Proof.
  intros R Eq. assert (Hq : unread (Term (committed t) (S (taken t)) (line t)) = q).
  { unfold unread in *. simpl. rewrite <- Nat.add_1_r, <- drop_drop, Eq. done. }
  split_and!; [| | done].
  - apply nth_lookup_Some. replace (r (inp s)) with (r (inp s) + Z.of_nat 0) by lia. apply (cl_cells _ _ R). by rewrite Eq.
  - destruct R as [C1 C2 C3 C4 C5 C6 [T1 T2 T4 T5]]. rewrite Eq in *. simpl in *.
    split; simpl; rewrite ?Hq; try done; try apply u32_range.
    + rewrite C3. symmetry. rewrite u32_add_l. f_equal. lia.
    + rewrite C4. symmetry. rewrite <- Z.add_assoc, u32_add_l. f_equal. lia.
    + intros k x Hk. rewrite <- slot_u32, u32_add_l, slot_u32.
      replace (_ + 1 + _) with (r (inp s) + Z.of_nat (S k)) by lia. by apply C5.
    + split; rewrite ?Hq; simpl; try done; [| lia | lia].
      assert (taken t < length (committed t))%nat; [| lia].
      unfold unread in Eq. apply (f_equal length) in Eq. rewrite length_drop in Eq. simpl in Eq. lia.
Qed.

Lemma consoleread_ok killed target n : forall s t bs,
  crel s t ->
  let '(k, o) := s_read killed (unread t) target n bs in
  exists s', consoleread_loop killed target n bs s = Ok o s' /\ crel s' (Term (committed t) (taken t + k) (line t)).
Proof.
  induction n as [|n IH]; intros s t bs R; cbn [s_read consoleread_loop].
  { exists s. rewrite Nat.add_0_r. by destruct t. }
  erewrite bind_ok by reflexivity. destruct (unread t) as [|c q] eqn:Eq.
  { rewrite (proj2 (Z.eqb_eq _ _) (proj2 (ready_iff s t R) Eq)). exists s. rewrite Nat.add_0_r. by destruct t. }
  rewrite (proj2 (Z.eqb_neq (r (inp s)) (w (inp s)))) by (intros E; apply (ready_iff s t R) in E; congruence).
  destruct (take_byte s t c q R Eq) as (Ec & R1 & Eq1). rewrite Ec. erewrite bind_ok by reflexivity.
  destruct (c =? ctl_D).
  - destruct (S n <? target)%nat.
    + erewrite bind_ok by reflexivity. eexists. split; [reflexivity |]. rewrite Nat.add_0_r. simpl.
      destruct s as [sc u co i], t; simpl in *. by destruct i.
    + erewrite bind_ok by reflexivity. eexists. split; [reflexivity |]. by rewrite Nat.add_1_r.
  - destruct (c =? nl).
    + eexists. split; [reflexivity |]. by rewrite Nat.add_1_r.
    + specialize (IH _ _ (bs ++ [c]) R1). rewrite Eq1 in IH. destruct (s_read killed q target n (bs ++ [c])) as [k o].
      destruct IH as (s' & E & R'). exists s'. split; [exact E |]. simpl in R'. by rewrite Nat.add_succ_r.
Qed.

(** ** Properties *)

(** The console at boot: a zeroed input buffer and a cursor on the screen. *)
Definition console_boot (s : console) : Prop :=
  inp s = Input (replicate 128 0) 0 0 0 /\ 0 <= cursor (screen s) < 24 * 80.

Lemma boot_rel s : console_boot s -> crel s (Term [] 0 []).
Proof.
  intros [Hi Hc]. split; rewrite ?Hi; try done. split; simpl; [done | split; apply not_elem_of_nil | lia | done].
Qed.

(** C10: the console is a line-editing terminal.  Fed any sequence of key interrupts and activations of
    reads from boot, the ring with its three wrapping counters gives the same results as a terminal
    that keeps the committed bytes and the line under edit as lists: backspace and Control-U edit
    only the line, a newline, Control-D or a full buffer commits it and wakes the readers, a read
    takes committed bytes in order up to a newline or an end of file and sleeps exactly when there
    are none.  Nothing panics, the cursor stays on the screen, and a full buffer always has bytes
    for a reader. *)
Theorem console_refines_terminal (s : console) (vs : list cevent) :
  console_boot s -> Forall (fun v => match v with Key c => 0 <= c < 256 | Read _ _ _ _ => True end) vs ->
  let '(t', os) := t_run vs (Term [] 0 []) in
  exists s', c_run vs s = Ok os s' /\ crel s' t' /\
    (length (unread t') + length (line t') <= 128)%nat /\ ((length (unread t') + length (line t') = 128)%nat -> line t' = []).
Proof.
  intros Hb%boot_rel. revert s Hb. generalize (Term [] 0 []) as t.
  induction vs as [|v vs IH]; intros t s R Hv; cbn [t_run c_run].
  { exists s. split; [done |]. split; [done |]. split; apply R. }
  apply list.Forall_cons in Hv as [Hv Hvs].
  assert (Hstep : exists s1, c_event v s = Ok (t_event v t).2 s1 /\ crel s1 (t_event v t).1).
  { destruct v as [c | killed target n bs]; simpl.
    - destruct (consolechar_ok c s t R Hv) as (s1 & b & E & R1 & Eb). exists s1. erewrite bind_ok by exact E.
      destruct (t_key c t) as [t1 b']. simpl in *. by rewrite Eb.
    - pose proof (consoleread_ok killed target n s t bs R) as Hr. destruct (s_read _ _ _ _ _) as [k o].
      destruct Hr as (s1 & E & R1). exists s1. by erewrite bind_ok by exact E. }
  destruct Hstep as (s1 & E1 & R1). destruct (t_event v t) as [t1 o]. simpl in E1, R1. erewrite bind_ok by exact E1.
  specialize (IH t1 s1 R1 Hvs). destruct (t_run vs t1) as [t2 os]. destruct IH as (s2 & E2 & R2).
  exists s2. by erewrite bind_ok by exact E2.
Qed.

(** "lx", backspace, "s", newline typed, then a read of 10 bytes and another that sleeps. *)
Lemma console_refines_terminal_witness :
  let s := Console (Cga (fun _ => 0) 0) true [] (Input (replicate 128 0) 0 0 0) in
  exists s', c_run [Key 108; Key 120; Key 8; Key 115; Key 13; Read false 10 10 []; Read false 5 5 []] s =
    Ok [Woke false; Woke false; Woke false; Woke false; Woke true; Got (CRet 3 [108; 115; 10]); Got (CSleep 5 [])] s'.
Proof.
  intros s. unfold s.
  destruct (console_refines_terminal (Console (Cga (fun _ => 0) 0) true [] (Input (replicate 128 0) 0 0 0))
    [Key 108; Key 120; Key 8; Key 115; Key 13; Read false 10 10 []; Read false 5 5 []]) as (s' & E & _).
  - split; [done | simpl; lia].
  - repeat constructor; lia.
  - exists s'. exact E.
Defined.
