(* ===== verification/Kbd.v ===== *)
(** * kbd.c: the keyboard

    Scan codes are turned into characters with a word of shift state and five tables.  [kbdgetc] reads
    the status and the data port; [kbdintr] hands the characters to the console.  [kb_step] describes
    the same keyboard by its keys, and the theorem says that the two agree. *)
From S2P Require Import Prelude Console.
#[local] Open Scope Z_scope.

Definition SHIFT : Z := 1.
Definition CTL : Z := 2.
Definition CAPSLOCK : Z := 8.
Definition E0ESC : Z := 64.
Definition KBS_DIB : Z := 1.

(** A table of 256 bytes: its first entries, the designated ones, and 0 elsewhere. *)
Definition table (first : list Z) (at_ : list (Z * Z)) (i : Z) : Z :=
  match find (fun e => e.1 =? i) at_ with
  | Some e => e.2
  | None => nth (Z.to_nat i) first 0
  end.

Definition shiftcode : Z -> Z := table
  []
  [(29, 2); (42, 1); (54, 1); (56, 4); (157, 2); (184, 4)].
Definition togglecode : Z -> Z := table
  []
  [(58, 8); (69, 16); (70, 32)].
Definition normalmap : Z -> Z := table
  [0; 27; 49; 50; 51; 52; 53; 54; 55; 56; 57; 48; 45; 61; 8; 9;
   113; 119; 101; 114; 116; 121; 117; 105; 111; 112; 91; 93; 10; 0; 97; 115;
   100; 102; 103; 104; 106; 107; 108; 59; 39; 96; 0; 92; 122; 120; 99; 118;
   98; 110; 109; 44; 46; 47; 0; 42; 0; 32; 0; 0; 0; 0; 0; 0;
   0; 0; 0; 0; 0; 0; 0; 55; 56; 57; 45; 52; 53; 54; 43; 49;
   50; 51; 48; 46; 0; 0; 0; 0]
  [(151, 224); (156, 10); (181, 47); (200, 226); (201, 230); (203, 228); (205, 229); (207, 225); (208, 227); (209, 231); (210, 232); (211, 233)].
Definition shiftmap : Z -> Z := table
  [0; 27; 33; 64; 35; 36; 37; 94; 38; 42; 40; 41; 95; 43; 8; 9;
   81; 87; 69; 82; 84; 89; 85; 73; 79; 80; 123; 125; 10; 0; 65; 83;
   68; 70; 71; 72; 74; 75; 76; 58; 34; 126; 0; 124; 90; 88; 67; 86;
   66; 78; 77; 60; 62; 63; 0; 42; 0; 32; 0; 0; 0; 0; 0; 0;
   0; 0; 0; 0; 0; 0; 0; 55; 56; 57; 45; 52; 53; 54; 43; 49;
   50; 51; 48; 46; 0; 0; 0; 0]
  [(151, 224); (156, 10); (181, 47); (200, 226); (201, 230); (203, 228); (205, 229); (207, 225); (208, 227); (209, 231); (210, 232); (211, 233)].
Definition ctlmap : Z -> Z := table
  [0; 0; 0; 0; 0; 0; 0; 0; 0; 0; 0; 0; 0; 0; 0; 0;
   17; 23; 5; 18; 20; 25; 21; 9; 15; 16; 0; 0; 13; 0; 1; 19;
   4; 6; 7; 8; 10; 11; 12; 0; 0; 0; 0; 28; 26; 24; 3; 22;
   2; 14; 13; 0; 0; 239; 0; 0]
  [(151, 224); (156, 13); (181, 239); (200, 226); (201, 230); (203, 228); (205, 229); (207, 225); (208, 227); (209, 231); (210, 232); (211, 233)].

(** [charcode[shift & (CTL | SHIFT)][data]] *)
Definition charcode (k : Z) : Z -> Z :=
  if k =? 0 then normalmap else if k =? 1 then shiftmap else ctlmap.

Definition is_lower (c : Z) : bool := (97 <=? c) && (c <=? 122).
Definition is_upper (c : Z) : bool := (65 <=? c) && (c <=? 90).

(** What a byte from the data port means in a shift state: the character and the new state. *)
Definition decode (shift data : Z) : Z * Z :=
  if data =? 0xE0 then (0, Z.lor shift E0ESC)
  else if negb (Z.land data 0x80 =? 0) then
    let data := if negb (Z.land shift E0ESC =? 0) then data else Z.land data 0x7F in
    (0, Z.land shift (Z.lnot (Z.lor (shiftcode data) E0ESC)))
  else
    let '(data, shift) :=
      if negb (Z.land shift E0ESC =? 0) then (Z.lor data 0x80, Z.land shift (Z.lnot E0ESC)) else (data, shift) in
    let shift := Z.lor shift (shiftcode data) in
    let shift := Z.lxor shift (togglecode data) in
    let c := charcode (Z.land shift (Z.lor CTL SHIFT)) data in
    let c := if negb (Z.land shift CAPSLOCK =? 0) then
               if is_lower c then c - 32 else if is_upper c then c + 32 else c
             else c in
    (c, shift).

(** [kbdgetc] with the bytes the two ports would give. *)
Definition kbdgetc (shift st data : Z) : Z * Z :=
  if Z.land st KBS_DIB =? 0 then (-1, shift) else decode shift data.

(** [kbdintr]: the bytes waiting in the controller go to the console as characters. *)
Fixpoint kbd_chars (shift : Z) (datas : list Z) : list Z * Z :=
  match datas with
  | [] => ([], shift)
  | d :: ds => let '(c, shift) := decode shift d in let '(cs, shift) := kbd_chars shift ds in (c :: cs, shift)
  end.
Definition kbdintr (shift : Z) (datas : list Z) : MC (bool * bool * Z) :=
  let '(cs, shift) := kbd_chars shift datas in b ← consoleintr cs ; mret (b, shift).

(** ** A keyboard

    What the decoder implements, in terms of keys: an American layout given by its rows, the
    modifiers that are held down, and the locks that are on. *)

Inductive key :=
| KShift | KCtl | KAlt | KCaps | KNum | KScroll
| KChar (plain shifted : Z)      (* a key with two characters *)
| KSame (c : Z)                  (* a key with one *)
| KNone.

Definition codes (s : string) : list Z := (fun a => Z.of_N (Ascii.N_of_ascii a)) <$> String.list_ascii_of_string s.

(** The four rows of characters, without and with Shift; 34 is the double quote. *)
Definition row1 : list (Z * Z) := zip (codes "1234567890-=") (codes "!@#$%^&*()_+").
Definition row2 : list (Z * Z) := zip (codes "qwertyuiop[]") (codes "QWERTYUIOP{}").
Definition row3 : list (Z * Z) := zip (codes "asdfghjkl;'`") (codes "ASDFGHJKL:" ++ [34] ++ codes "~").
Definition row4 : list (Z * Z) := zip (codes "\zxcvbnm,./") (codes "|ZXCVBNM<>?").
Definition keypad : list Z := codes "789-456+1230.".

Definition in_row (r : list (Z * Z)) (first code : Z) : option key :=
  if first <=? code then (fun p => KChar p.1 p.2) <$> r !! Z.to_nat (code - first) else None.
Definition in_pad (r : list Z) (first code : Z) : option key :=
  if first <=? code then KSame <$> r !! Z.to_nat (code - first) else None.

(** The key of a scan code without the escape prefix. *)
Definition plain_key (code : Z) : key :=
  match in_row row1 2 code, in_row row2 16 code, in_row row3 30 code, in_row row4 43 code, in_pad keypad 71 code with
  | Some k, _, _, _, _ | _, Some k, _, _, _ | _, _, Some k, _, _ | _, _, _, Some k, _ | _, _, _, _, Some k => k
  | _, _, _, _, _ =>
      match code with
      | 1 => KSame 27 | 14 => KSame 8 | 15 => KSame 9 | 28 => KSame 10 | 57 => KSame 32 | 55 => KSame 42
      | 29 => KCtl | 42 | 54 => KShift | 56 => KAlt | 58 => KCaps | 69 => KNum | 70 => KScroll
      | _ => KNone
      end
  end.

(** And with it: the right-hand control and alt keys, two keys of the keypad, the cursor block.
    The code of Home is the one of kbd.h. *)
Definition extended_key (code : Z) : key :=
  match code with
  | 28 => KSame 10 | 53 => KSame 47 | 29 => KCtl | 56 => KAlt
  | 23 => KSame 224 | 79 => KSame 225 | 72 => KSame 226 | 80 => KSame 227 | 75 => KSame 228
  | 77 => KSame 229 | 73 => KSame 230 | 81 => KSame 231 | 82 => KSame 232 | 83 => KSame 233
  | _ => KNone
  end.

Record keyboard := KB {
  kb_shift : bool; kb_ctl : bool; kb_alt : bool;         (* held down *)
  kb_caps : bool; kb_num : bool; kb_scroll : bool;       (* on *)
  kb_esc : bool                                          (* the prefix has been read *)
}.

#[export] Instance keyboard_eq_dec : EqDecision keyboard.
Proof. solve_decision. Defined.

Definition hold (k : key) (x : bool) (b : keyboard) : keyboard :=
  match k with
  | KShift => KB x (kb_ctl b) (kb_alt b) (kb_caps b) (kb_num b) (kb_scroll b) (kb_esc b)
  | KCtl => KB (kb_shift b) x (kb_alt b) (kb_caps b) (kb_num b) (kb_scroll b) (kb_esc b)
  | KAlt => KB (kb_shift b) (kb_ctl b) x (kb_caps b) (kb_num b) (kb_scroll b) (kb_esc b)
  | _ => b
  end.
Definition toggle (k : key) (b : keyboard) : keyboard :=
  match k with
  | KCaps => KB (kb_shift b) (kb_ctl b) (kb_alt b) (negb (kb_caps b)) (kb_num b) (kb_scroll b) (kb_esc b)
  | KNum => KB (kb_shift b) (kb_ctl b) (kb_alt b) (kb_caps b) (negb (kb_num b)) (kb_scroll b) (kb_esc b)
  | KScroll => KB (kb_shift b) (kb_ctl b) (kb_alt b) (kb_caps b) (kb_num b) (negb (kb_scroll b)) (kb_esc b)
  | _ => b
  end.
Definition set_esc (x : bool) (b : keyboard) : keyboard :=
  KB (kb_shift b) (kb_ctl b) (kb_alt b) (kb_caps b) (kb_num b) (kb_scroll b) x.

(** The character with Control: letters give the control characters 1 to 26, backslash 28; Enter a
    carriage return; a slash the byte of '/' - '@'; the cursor block what it always gives. *)
Definition with_control (k : key) : Z :=
  match k with
  | KChar c _ => if is_lower c then c - 96 else if c =? 92 then 28 else if c =? 47 then u8 (47 - 64) else 0
  | KSame c => if c =? 10 then 13 else if c =? 47 then u8 (47 - 64) else if 224 <=? c then c else 0
  | _ => 0
  end.
Definition other_case (c : Z) : Z := if is_lower c then c - 32 else if is_upper c then c + 32 else c.
Definition typed (b : keyboard) (k : key) : Z :=
  let c := if kb_ctl b then with_control k
           else match k with KChar c s => if kb_shift b then s else c | KSame c => c | _ => 0 end in
  if kb_caps b then other_case c else c.

(** A byte from the controller: the prefix, a key released or a key pressed.  Only a press types. *)
Definition kb_step (b : keyboard) (data : Z) : Z * keyboard :=
  if data =? 0xE0 then (0, set_esc true b)
  else
    let k := (if kb_esc b then extended_key else plain_key) (data mod 128) in
    if 128 <=? data then (0, set_esc false (hold k false b))
    else let b' := set_esc false (toggle k (hold k true b)) in (typed b' k, b').

Fixpoint kb_run (b : keyboard) (datas : list Z) : list Z * keyboard :=
  match datas with
  | [] => ([], b)
  | d :: ds => let '(c, b1) := kb_step b d in let '(cs, b2) := kb_run b1 ds in (c :: cs, b2)
  end.

(** The keyboard a word of shift state stands for. *)
Definition keyboard_of (shift : Z) : keyboard :=
  KB (Z.testbit shift 0) (Z.testbit shift 1) (Z.testbit shift 2) (Z.testbit shift 3) (Z.testbit shift 4)
    (Z.testbit shift 5) (Z.testbit shift 6).

(** ** Properties *)

(** The numbers below [n]. *)
Definition below (n : nat) : list Z := Z.of_nat <$> seq 0 n.

Lemma below_spec n x : 0 <= x < Z.of_nat n -> In x (below n).
Proof. intros H. apply list_elem_of_In, list_elem_of_fmap. exists (Z.to_nat x). split; [lia |]. apply elem_of_seq. lia. Qed.

Definition decode_agrees (shift data : Z) : bool :=
  let '(c, shift') := decode shift data in
  (0 <=? shift') && (shift' <? 128) && (0 <=? c) && (c <? 256) &&
  bool_decide (kb_step (keyboard_of shift) data = (c, keyboard_of shift')).

(** Every byte in every shift state. *)
Lemma decode_all : forallb (fun s => forallb (decode_agrees s) (below 256)) (below 128) = true.
Proof. vm_compute. reflexivity. Qed.

Lemma decode_step shift data :
  0 <= shift < 128 -> 0 <= data < 256 ->
  exists c shift', decode shift data = (c, shift') /\ 0 <= shift' < 128 /\ 0 <= c < 256 /\
    kb_step (keyboard_of shift) data = (c, keyboard_of shift').
Proof.
  intros Hs Hd. pose proof decode_all as H. rewrite forallb_forall in H. specialize (H shift (below_spec 128 shift Hs)).
  rewrite forallb_forall in H. specialize (H data (below_spec 256 data Hd)). unfold decode_agrees in H.
  destruct (decode shift data) as [c shift']. exists c, shift'. apply andb_prop in H as [H Hk].
  apply bool_decide_eq_true in Hk. repeat (apply andb_prop in H as [H ?]). reflect_bool. split_and!; first [done | lia].
Qed.

(** C37: kbd.c decodes an American keyboard.  With nothing in the controller [kbdgetc] gives -1 and
    changes nothing.  Any sequence of bytes from the controller, in any shift state, gives the
    characters of the keyboard with that layout, and leaves its state: a modifier counts from its
    press to its release, on either side of the keyboard; a lock changes at each press; the escape
    prefix holds for one key; Shift chooses the upper characters, Control the control characters,
    Caps Lock exchanges the cases of the letters; a release types nothing. *)
Theorem kbd_refines_keyboard (shift : Z) (datas : list Z) :
  0 <= shift < 128 -> Forall (fun d => 0 <= d < 256) datas ->
  (forall st data, Z.land st KBS_DIB = 0 -> kbdgetc shift st data = (-1, shift)) /\
  (forall st data, Z.land st KBS_DIB <> 0 -> kbdgetc shift st data = decode shift data) /\
  exists cs shift', kbd_chars shift datas = (cs, shift') /\ 0 <= shift' < 128 /\
    Forall (fun c => 0 <= c < 256) cs /\ kb_run (keyboard_of shift) datas = (cs, keyboard_of shift').
Proof.
  intros Hs Hd. split_and!.
  - intros st data E. unfold kbdgetc. by rewrite E.
  - intros st data E. unfold kbdgetc. by rewrite (proj2 (Z.eqb_neq _ _) E).
  - revert shift Hs. induction Hd as [|d ds Hd _ IH]; intros shift Hs.
    { exists [], shift. split_and!; first [done | lia | by apply Forall_nil]. }
    destruct (decode_step shift d Hs Hd) as (c & s1 & E1 & Hs1 & Hc & K1).
    destruct (IH s1 Hs1) as (cs & s2 & E2 & Hs2 & Hcs & K2). exists (c :: cs), s2. cbn [kbd_chars kb_run].
    rewrite E1, E2, K1, K2. split_and!; first [done | lia | by apply List.Forall_cons].
Qed.

(** Shift down, a, Shift up, a, Caps Lock down and up, a, Control down (right), c, Control up. *)
Lemma kbd_refines_keyboard_witness :
  exists shift', kbd_chars 0 [0x2A; 0x1E; 0xAA; 0x1E; 0x3A; 0xBA; 0x1E; 0xE0; 0x1D; 0x2E; 0xE0; 0x9D] =
    ([0; 65; 0; 97; 0; 0; 65; 0; 0; 3; 0; 0], shift') /\
  keyboard_of shift' = KB false false false true false false false.
Proof.
  destruct (kbd_refines_keyboard 0 [0x2A; 0x1E; 0xAA; 0x1E; 0x3A; 0xBA; 0x1E; 0xE0; 0x1D; 0x2E; 0xE0; 0x9D])
    as (_ & _ & cs & shift' & E & _ & _ & K); [lia | repeat (apply List.Forall_cons; [lia |]); apply Forall_nil |].
  rewrite (eq_refl : kb_run (keyboard_of 0) [0x2A; 0x1E; 0xAA; 0x1E; 0x3A; 0xBA; 0x1E; 0xE0; 0x1D; 0x2E; 0xE0; 0x9D] =
    ([0; 65; 0; 97; 0; 0; 65; 0; 0; 3; 0; 0], KB false false false true false false false)) in K.
  apply pair_equal_spec in K as [<- K]. exists shift'. split; [exact E | by symmetry].
Defined.
