(* ===== verification/Ulib.v ===== *)
(** * ulib.c and printf.c: the library of user programs

    The string routines work on the byte memory of [Mem]; loops that run to a NUL are given fuel and
    give [None] when it runs out.  [printf] and [atoi] work on the bytes they print and read. *)
From S2P Require Import Prelude Mem CString Console.
#[local] Open Scope Z_scope.

(** ** ulib.c *)

(** Bytes are copied up to and including the NUL. *)
Fixpoint strcpy (fuel : nat) (m : mem) (s t : Z) : option mem :=
  match fuel with
  | O => None
  | S f => let m' := upd m s (m t) in if m' s =? 0 then Some m' else strcpy f m' (s + 1) (t + 1)
  end.

Fixpoint strcmp (fuel : nat) (m : mem) (p q : Z) : option Z :=
  match fuel with
  | O => None
  | S f => if negb (m p =? 0) && (m p =? m q) then strcmp f m (p + 1) (q + 1) else Some (m p - m q)
  end.

Definition u_memset (m : mem) (dst c n : Z) : mem := stosb m dst c (Z.to_nat n).

(** The address found, 0 if there is none. *)
Fixpoint strchr (fuel : nat) (m : mem) (s c : Z) : option Z :=
  match fuel with
  | O => None
  | S f => if m s =? 0 then Some 0 else if m s =? c then Some s else strchr f m (s + 1) c
  end.

(** The loop of [gets] from index [i], with the bytes that successive reads of one byte deliver and
    [] for a read that fails: the memory and the input left. *)
Fixpoint gets_loop (fuel : nat) (m : mem) (b : Z) (i max : Z) (inp : list Z) : mem * Z * list Z :=
  match fuel with
  | O => (m, i, inp)
  | S f =>
      if i + 1 <? max then
        match inp with
        | [] => (m, i, inp)
        | c :: inp' => let m' := upd m (b + i) c in
                       if (c =? 10) || (c =? 13) then (m', i + 1, inp') else gets_loop f m' b (i + 1) max inp'
        end
      else (m, i, inp)
  end.
Definition gets (m : mem) (b max : Z) (inp : list Z) : mem * list Z :=
  let '(m', i, inp') := gets_loop (Z.to_nat max) m b 0 max inp in (upd m' (b + i) 0, inp').

(** Digits are read up to the first other byte. *)
Fixpoint atoi_loop (s : list Z) (n : Z) : Z :=
  match s with
  | c :: s' => if (48 <=? c) && (c <=? 57) then atoi_loop s' (s32 (n * 10 + c - 48)) else n
  | [] => n
  end.
Definition atoi (s : list Z) : Z := atoi_loop s 0.

Definition u_memmove (m : mem) (vdst vsrc n : Z) : mem := copy_forward m vdst vsrc (Z.to_nat n).

(** ** printf.c *)

Definition upper_digits : list Z := [48; 49; 50; 51; 52; 53; 54; 55; 56; 57; 65; 66; 67; 68; 69; 70].

(** The array [buf] of [printint], and the bytes it puts out. *)
Definition u_int_chars (xx base : Z) (sgn : bool) : list Z :=
  let neg := sgn && (s32 xx <? 0) in
  let x := if neg then u32 (- s32 xx) else u32 xx in
  digits_loop 32 upper_digits x base ++ (if neg then [45] else []).
Definition u_printint (xx base : Z) (sgn : bool) : list Z := rev (u_int_chars xx base sgn).

Section printf.
(** The string at an address, without its NUL. *)
Variable str : Z -> list Z.

(** The loop of [printf], with [percent] for [state == '%']; the [k]-th argument word is next. *)
Fixpoint printf_loop (fmt : list Z) (args : nat -> Z) (percent : bool) (k : nat) : list Z :=
  match fmt with
  | [] => []
  | c :: fmt' =>
      if negb percent then
        if c =? 37 then printf_loop fmt' args true k else c :: printf_loop fmt' args false k
      else if c =? 100 then u_printint (args k) 10 true ++ printf_loop fmt' args false (S k)
      else if (c =? 120) || (c =? 112) then u_printint (args k) 16 false ++ printf_loop fmt' args false (S k)
      else if c =? 115 then
        (if args k =? 0 then null_str else str (args k)) ++ printf_loop fmt' args false (S k)
      else if c =? 99 then u8 (args k) :: printf_loop fmt' args false (S k)
      else if c =? 37 then c :: printf_loop fmt' args false k
      else 37 :: c :: printf_loop fmt' args false k
  end.
Definition printf (fmt : list Z) (args : nat -> Z) : list Z := printf_loop fmt args false 0.
End printf.

(** ** Lemmas *)

Lemma digits_length ds base : forall fuel x k,
  2 <= base -> 0 <= x -> x < base ^ Z.of_nat (S k) -> (length (digits_loop fuel ds x base) <= S k)%nat.
Proof.
  induction fuel as [|f IH]; intros x k Hb Hx Hk; cbn [digits_loop]; [simpl; lia |].
  destruct (Z.eqb_spec (x / base) 0) as [E | E]; simpl; [lia |].
  destruct k as [|k].
  - exfalso. apply E, Z.div_small. change (Z.of_nat 1) with 1 in Hk. rewrite Z.pow_1_r in Hk. lia.
  - apply le_n_S, IH; [done | apply Z.div_pos; lia |]. apply Z.div_lt_upper_bound; [lia |].
    rewrite Nat2Z.inj_succ, Z.pow_succ_r in Hk by lia. done.
Qed.

Lemma upper_digit d : 0 <= d < 10 -> nth (Z.to_nat d) upper_digits 0 = 48 + d.
Proof.
  intros Hd. assert (Hc : d = 0 \/ d = 1 \/ d = 2 \/ d = 3 \/ d = 4 \/ d = 5 \/ d = 6 \/ d = 7 \/ d = 8 \/ d = 9) by lia.
  repeat destruct Hc as [-> | Hc]; try done. by subst.
Qed.

(** Reading the decimal digits of [x] back. *)
Lemma atoi_digits fuel : forall x rest,
  0 <= x < 2 ^ 31 -> x < 10 ^ Z.of_nat fuel -> atoi_loop (rev (digits_loop fuel upper_digits x 10) ++ rest) 0 = atoi_loop rest x.
Proof.
  induction fuel as [|f IH]; intros x rest Hx Hf.
  { simpl in *. by replace x with 0 by lia. }
  cbn [digits_loop]. assert (Hm : 0 <= x mod 10 < 10) by (apply Z.mod_pos_bound; lia). rewrite upper_digit by done.
  assert (Hstep : atoi_loop ((48 + x mod 10) :: rest) (x / 10) = atoi_loop rest x).
  { cbn [atoi_loop]. rewrite (proj2 (Z.leb_le 48 _)), (proj2 (Z.leb_le _ 57)) by lia. cbn [andb].
    f_equal. rewrite s32_small; Z.to_euclidean_division_equations; lia. }
  destruct (Z.eqb_spec (x / 10) 0) as [E | E]; cbn [negb].
  - rewrite E in Hstep. exact Hstep.
  - cbn [rev]. rewrite <- app_assoc. cbn [app]. rewrite IH; [exact Hstep | |].
    + Z.to_euclidean_division_equations; lia.
    + rewrite Nat2Z.inj_succ, Z.pow_succ_r in Hf by lia. apply Z.div_lt_upper_bound; lia.
Qed.

Lemma consputs_app l l' s : consputs (l ++ l') s = (consputs l ;; consputs l') s.
Proof.
  revert s. induction l as [|c l IH]; intros s; [done |]. simpl. unfold mbind, M_bind. destruct (consputc c s); [| done | done].
  apply IH.
Qed.

(** ** Properties *)

(** The digit buffers are large enough.  For every word and both bases in use, signed or not, the
    16-byte array [buf] of [printint], in the kernel and in the library, receives at most 11 bytes. *)
Theorem printint_fits_buffer (xx base : Z) (sign : bool) :
  base = 10 \/ base = 16 -> (length (int_chars xx base sign) <= 11)%nat /\ (length (u_int_chars xx base sign) <= 11)%nat.
Proof.
  intros Hb. assert (Hl : forall ds x, 0 <= x < 2 ^ 32 -> (length (digits_loop 32 ds x base) <= 10)%nat).
  { intros ds x Hx. apply digits_length; [destruct Hb as [-> | ->]; discriminate | apply Hx |]. eapply Z.lt_le_trans; [apply Hx |].
    destruct Hb as [-> | ->]; by vm_compute. }
  unfold int_chars, u_int_chars. rewrite !length_app.
  assert (Hx : 0 <= (if sign && (s32 xx <? 0) then u32 (- s32 xx) else u32 xx) < 2 ^ 32) by (destruct (sign && (s32 xx <? 0)); apply u32_range).
  pose proof (Hl lower_digits _ Hx). pose proof (Hl upper_digits _ Hx). destruct (sign && (s32 xx <? 0)); cbn [length]; lia.
Qed.

Lemma printint_fits_buffer_witness :
  (length (int_chars (- 2 ^ 31) 10 true) <= 11)%nat /\ (length (u_int_chars (- 2 ^ 31) 10 true) <= 11)%nat.
Proof. apply (printint_fits_buffer (- 2 ^ 31) 10 true). by left. Defined.

(** A printed number reads back.  The bytes [printf] puts out for %d and a nonnegative int, followed
    by anything that does not begin with a digit, are read by [atoi] as that int. *)
Theorem printf_atoi_roundtrip (str : Z -> list Z) (x : Z) (rest : list Z) :
  0 <= x < 2 ^ 31 -> match rest with [] => True | c :: _ => c < 48 \/ 57 < c end ->
  atoi (printf str [37; 100] (fun _ => x) ++ rest) = x.
Proof.
  intros Hx Hr. unfold atoi, printf. cbn [printf_loop negb]. change (37 =? 37) with true. change (100 =? 100) with true. cbv iota.
  rewrite app_nil_r. unfold u_printint, u_int_chars. rewrite s32_small by lia.
  rewrite (proj2 (Z.ltb_ge x 0)), andb_false_r by lia. rewrite app_nil_r, u32_small by lia.
  rewrite atoi_digits; [| done | eapply Z.lt_le_trans; [apply Hx | by vm_compute]].
  destruct rest as [|c rest]; [done |]. cbn [atoi_loop].
  destruct Hr; [rewrite (proj2 (Z.leb_gt 48 c)) by lia; done |].
  rewrite (proj2 (Z.leb_gt c 57)) by lia. by rewrite andb_false_r.
Qed.

Lemma printf_atoi_roundtrip_witness :
  atoi (printf (fun _ => []) [37; 100] (fun _ => 2147483647) ++ [32]) = 2147483647.
Proof. apply (printf_atoi_roundtrip (fun _ => []) 2147483647 [32]); [lia | by left]. Defined.

(** Formats without %c, which the kernel does not know, and %x and %p, where the case of the digits
    differs. *)
Fixpoint plain (fmt : list Z) : bool :=
  match fmt with
  | [] => true
  | c :: fmt' =>
      if c =? 37 then
        match fmt' with
        | [] => true
        | d :: fmt'' => negb ((d =? 99) || (d =? 120) || (d =? 112)) && plain fmt''
        end
      else plain fmt'
  end.

Lemma lower_upper d : 0 <= d < 10 -> nth (Z.to_nat d) lower_digits 0 = nth (Z.to_nat d) upper_digits 0.
Proof.
  intros Hd. assert (Hn : (Z.to_nat d < 10)%nat) by lia. revert Hn. generalize (Z.to_nat d) as n. intros n Hn.
  do 10 (destruct n as [|n]; [done |]). lia.
Qed.

Lemma decimal_digits fuel : forall x, digits_loop fuel lower_digits x 10 = digits_loop fuel upper_digits x 10.
Proof.
  induction fuel as [|f IH]; intros x; [done |]. cbn [digits_loop]. rewrite lower_upper by (apply Z.mod_pos_bound; lia).
  destruct (negb _); [by rewrite IH | done].
Qed.

(** The two printf agree.  On a format without %c, %x and %p, with the same arguments, the kernel's
    [cprintf] sends to the console exactly the bytes the library's [printf] writes, a trailing
    percent sign and unknown sequences included. *)
Theorem printf_matches_cprintf (str : Z -> list Z) (fmt : list Z) (args : nat -> Z) (s : console) :
  plain fmt = true -> cprintf str fmt args s = consputs (printf str fmt args) s.
Proof.
  unfold cprintf, printf. generalize 0%nat as k. revert s.
  induction fmt as [fmt IH] using (well_founded_induction (well_founded_ltof _ (@length Z))). intros s k Hp.
  assert (Hcons : forall c l f, (forall s', f s' = consputs l s') -> (consputc c ;; f) s = consputs (c :: l) s).
  { intros c l f Hf. simpl. unfold mbind, M_bind. destruct (consputc c s); [apply Hf | done | done]. }
  assert (Happ : forall l l' f, (forall s', f s' = consputs l' s') -> (consputs l ;; f) s = consputs (l ++ l') s).
  { intros l l' f Hf. rewrite consputs_app. unfold mbind, M_bind. destruct (consputs l s); [apply Hf | done | done]. }
  destruct fmt as [|c fmt]; [done |]. cbn [cprintf_loop printf_loop plain negb] in *.
  destruct (c =? 37) eqn:Ec; cbn [negb].
  2: { apply Hcons. intros s'. apply IH; [unfold ltof; simpl; lia | done]. }
  destruct fmt as [|d fmt]; [done |]. cbn [printf_loop negb]. apply andb_prop in Hp as [Hd Hp].
  apply negb_true_iff in Hd. apply orb_false_elim in Hd as [[Hd1 Hd2]%orb_false_elim Hd3]. rewrite Hd1, Hd2, Hd3. cbn [orb].
  assert (IH' : forall k s', cprintf_loop str fmt args k s' = consputs (printf_loop str fmt args false k) s').
  { intros k' s'. apply IH; [unfold ltof; simpl; lia | done]. }
  destruct (d =? 100); [| destruct (d =? 115); [by apply Happ | destruct (Z.eqb_spec d 37) as [-> |]; [by apply Hcons |]]].
  - unfold printint, u_printint, int_chars, u_int_chars. rewrite decimal_digits. by apply Happ.
  - apply (Hcons 37 (d :: printf_loop str fmt args false k)). intros s'. simpl. unfold mbind, M_bind.
    destruct (consputc d s'); [apply IH' | done | done].
Qed.

Lemma printf_matches_cprintf_witness :
  let s := Console (Cga (fun _ => 0) 0) true [] (Input (replicate 128 0) 0 0 0) in
  cprintf (fun _ => [97]) [37; 100; 58; 37; 115; 37] (fun k => Z.of_nat k) s = consputs [48; 58; 97] s.
Proof. apply (printf_matches_cprintf (fun _ => [97]) [37; 100; 58; 37; 115; 37] (fun k => Z.of_nat k)). reflexivity. Defined.
