(* ===== verification/Umalloc.v ===== *)
(** * umalloc.c: the memory allocator of user programs

    Free blocks form a circular list in the order of their addresses, from the static header [base];
    a block starts with a header of 8 bytes and sizes count headers.  The heap gives the two fields of
    the header at an address; [freep] is where searches start, 0 before the first call.  [sbrk] moves
    the break up or fails, as the kernel decides. *)
From S2P Require Import Prelude.
From Stdlib Require Import Sorted.
#[local] Open Scope Z_scope.

Definition HDR : Z := 8.   (* sizeof(Header) *)

Record heap := Heap {
  ptr : Z -> Z;     (* s.ptr of the header at an address *)
  size : Z -> Z;    (* s.size *)
  freep : Z;
  brk : Z           (* the end of the process's memory *)
}.

Definition zupd (f : Z -> Z) (a v : Z) : Z -> Z := fun x => if decide (x = a) then v else f x.
Definition set_ptr (a v : Z) (s : heap) : heap := Heap (zupd (ptr s) a v) (size s) (freep s) (brk s).
Definition set_size (a v : Z) (s : heap) : heap := Heap (ptr s) (zupd (size s) a v) (freep s) (brk s).
Definition set_freep (p : Z) (s : heap) : heap := Heap (ptr s) (size s) p (brk s).

Section code.
Variable base : Z.                  (* &base *)
Variable grows : Z -> Z -> bool.    (* whether the kernel extends memory from a break by so many bytes *)

(** The loop of [free]: the free block after which [bp] belongs. *)
Fixpoint find_slot (fuel : nat) (s : heap) (bp p : Z) : option Z :=
  match fuel with
  | O => None
  | S f =>
      if (p <? bp) && (bp <? ptr s p) then Some p
      else if (ptr s p <=? p) && ((p <? bp) || (bp <? ptr s p)) then Some p
      else find_slot f s bp (ptr s p)
  end.

(** [bp] joined to the block after [p], or linked to it. *)
Definition join_next (bp p : Z) (s : heap) : heap :=
  let q := ptr s p in
  if bp + HDR * size s bp =? q then
    let s := set_size bp (size s bp + size s q) s in set_ptr bp (ptr s q) s
  else set_ptr bp q s.

(** [p] joined to [bp], or linked to it. *)
Definition join_prev (bp p : Z) (s : heap) : heap :=
  if p + HDR * size s p =? bp then
    let s := set_size p (size s p + size s bp) s in set_ptr p (ptr s bp) s
  else set_ptr p bp s.

Definition free (fuel : nat) (ap : Z) (s : heap) : option heap :=
  let bp := ap - HDR in
  match find_slot fuel s bp (freep s) with
  | None => None
  | Some p => Some (set_freep p (join_prev bp p (join_next bp p s)))
  end.

(** [sbrk(n)]: the old break, or -1. *)
Definition sbrk (n : Z) (s : heap) : Z * heap :=
  if grows (brk s) n then (brk s, Heap (ptr s) (size s) (freep s) (brk s + n)) else (-1, s).

(** The new [freep], or 0. *)
Definition morecore (fuel : nat) (nu : Z) (s : heap) : option (Z * heap) :=
  let nu := if nu <? 4096 then 4096 else nu in
  let '(p, s) := sbrk (s32 (nu *u HDR)) s in
  if p =? -1 then Some (0, s)
  else match free fuel (p + HDR) (set_size p nu s) with
       | None => None
       | Some s => Some (freep s, s)
       end.

(** A block of [nunits] headers taken from the end of [p], or all of [p]. *)
Definition carve (nunits prevp p : Z) (s : heap) : Z * heap :=
  if size s p =? nunits then (p + HDR, set_freep prevp (set_ptr prevp (ptr s p) s))
  else
    let s := set_size p (size s p - nunits) s in
    let p' := p + HDR * size s p in
    (p' + HDR, set_freep prevp (set_size p' nunits s)).

(** The loop of [malloc]. *)
Fixpoint search (fuel : nat) (nunits prevp p : Z) (s : heap) : option (Z * heap) :=
  match fuel with
  | O => None
  | S f =>
      if nunits <=? size s p then Some (carve nunits prevp p s)
      else if p =? freep s then
        match morecore f nunits s with
        | None => None
        | Some (p', s') => if p' =? 0 then Some (0, s') else search f nunits p' (ptr s' p') s'
        end
      else search f nunits p (ptr s p) s
  end.

Definition units (nbytes : Z) : Z := (nbytes +u HDR -u 1) / HDR + 1.

Definition malloc (fuel : nat) (nbytes : Z) (s : heap) : option (Z * heap) :=
  let s := if freep s =? 0 then set_size base 0 (set_freep base (set_ptr base base s)) else s in
  search fuel (units nbytes) (freep s) (ptr s (freep s)) s.

(** ** The free list *)

(** Each address of the list points to the next. *)
Fixpoint linked (s : heap) (l : list Z) : Prop :=
  match l with
  | x :: ((y :: _) as t) => ptr s x = y /\ linked s t
  | _ => True
  end.

(** The list, closed to a circle. *)
Definition circle (s : heap) (l : list Z) : Prop :=
  match l with [] => False | x :: _ => linked s (l ++ [x]) end.

Lemma linked_app s l1 x l2 : linked s (l1 ++ x :: l2) <-> linked s (l1 ++ [x]) /\ linked s (x :: l2).
Proof.
  induction l1 as [|y l1 IH]; [simpl; tauto |].
  destruct l1 as [|z l1]; [simpl; tauto |].
  change (linked s ((y :: z :: l1) ++ x :: l2)) with (ptr s y = z /\ linked s ((z :: l1) ++ x :: l2)).
  change (linked s ((y :: z :: l1) ++ [x])) with (ptr s y = z /\ linked s ((z :: l1) ++ [x])).
  rewrite IH. tauto.
Qed.

Lemma linked_ext s s' l y : (forall x, x ∈ l -> ptr s' x = ptr s x) -> linked s (l ++ [y]) -> linked s' (l ++ [y]).
Proof.
  induction l as [|x l IH]; intros He; [done |]. destruct l as [|z l]; simpl in *.
  - intros [E _]. by rewrite He by set_solver.
  - intros [E H]. rewrite He by set_solver. split; [done |]. apply IH; [set_solver | done].
Qed.

Lemma circle_ext s s' l : (forall x, ptr s' x = ptr s x) -> circle s l -> circle s' l.
Proof. intros He. unfold circle. destruct l as [|x l]; [done |]. apply linked_ext. auto. Qed.

(** A circle may be read from any of its blocks. *)
Lemma circle_rotate s a b : circle s (a ++ b) -> circle s (b ++ a).
Proof.
  destruct a as [|x a]; [by rewrite app_nil_r |]. destruct b as [|y b]; [by rewrite app_nil_r |]. unfold circle.
  change (linked s (((x :: a) ++ y :: b) ++ [x]) -> linked s (((y :: b) ++ x :: a) ++ [y])).
  rewrite <- !app_assoc. change ((y :: b) ++ [x]) with (y :: b ++ [x]). change ((x :: a) ++ [y]) with (x :: a ++ [y]).
  rewrite (linked_app s (x :: a)), (linked_app s (y :: b)). by intros [H1 H2].
Qed.

(** The next block of the last one is the first. *)
Lemma circle_next s l x y m : circle s (l ++ x :: y :: m) -> ptr s x = y.
Proof.
  intros H. apply circle_rotate in H. unfold circle in H. simpl in H. apply H.
Qed.

Lemma circle_last s x l : circle s (l ++ [x]) -> forall y m, l ++ [x] = y :: m -> ptr s x = y.
Proof.
  intros H y m E. apply circle_rotate in H. simpl in H. destruct l as [|z l]; simpl in *.
  - injection E as <- <-. apply H.
  - injection E as -> _. apply H.
Qed.

(** The test on which the loop of [free] stops. *)
Definition stops (s : heap) (bp p : Z) : bool :=
  ((p <? bp) && (bp <? ptr s p)) || ((ptr s p <=? p) && ((p <? bp) || (bp <? ptr s p))).

Lemma find_slot_walk s bp p v : forall fuel,
  linked s (v ++ [p]) -> (forall x, x ∈ v -> stops s bp x = false) -> stops s bp p = true -> (length v < fuel)%nat ->
  find_slot fuel s bp (hd p v) = Some p.
Proof.
  induction v as [|x v IH]; intros [|f] Hl Hv Hp Hf; try (simpl in Hf; lia); cbn [find_slot hd].
  - unfold stops in Hp. destruct (_ && _); [done |]. simpl in Hp. by rewrite Hp.
  - pose proof (Hv x ltac:(set_solver)) as Hx. unfold stops in Hx. apply orb_false_elim in Hx as [-> ->].
    assert (E : ptr s x = hd p v) by (destruct v; simpl in *; apply Hl). rewrite E.
    apply IH; [destruct v; simpl in *; [done | apply Hl] | set_solver | done | simpl in Hf; lia].
Qed.

(** The place of [bp] in a sorted list. *)
Lemma place (M : list Z) m0 bp :
  StronglySorted Z.lt (m0 :: M) -> m0 < bp -> bp ∉ M ->
  exists a p b, m0 :: M = a ++ p :: b /\ (forall x, x ∈ a -> x < p) /\ p < bp /\ (forall x, x ∈ b -> bp < x).
Proof.
  revert m0. induction M as [|y M IH]; intros m0 Hs Hlt Hn.
  { exists [], m0, []. split_and!; [done | set_solver | done | set_solver]. }
  apply StronglySorted_inv in Hs as [Hs Hall]. pose proof Hall as Hall'. apply Forall_inv in Hall.
  apply not_elem_of_cons in Hn as [Hne Hn].
  destruct (decide (y < bp)) as [Hy | Hy].
  - destruct (IH y Hs Hy Hn) as (a & p & b & E & Ha & Hp & Hb). exists (m0 :: a), p, b. rewrite E. split_and!; try done.
    intros x [-> | Hx]%elem_of_cons; [| by apply Ha]. rewrite E in Hall'. rewrite list.Forall_forall in Hall'.
    apply Hall'. set_solver.
  - exists [], m0, (y :: M). split_and!; [done | set_solver | done |].
    apply StronglySorted_inv in Hs as [_ HM]. rewrite list.Forall_forall in HM.
    intros x [-> | Hx]%elem_of_cons; [lia |]. specialize (HM x Hx). lia.
Qed.

Lemma sorted_app a p b : StronglySorted Z.lt (a ++ p :: b) -> (forall x, x ∈ a -> x < p) /\ (forall x, x ∈ b -> p < x) /\
  StronglySorted Z.lt a /\ StronglySorted Z.lt b.
Proof.
  induction a as [|y a IH]; intros H; simpl in H; apply StronglySorted_inv in H as [H1 H2]; rewrite list.Forall_forall in H2.
  - split_and!; [set_solver | set_solver | constructor | done].
  - destruct (IH H1) as (A & B & C & D). split_and!; try done.
    + intros x [-> | Hx]%elem_of_cons; [apply H2; set_solver | by apply A].
    + constructor; [done |]. rewrite list.Forall_forall. intros x Hx. apply H2. set_solver.
Qed.

Lemma find_slot_ok s L bp f fuel :
  let M := base :: L in
  circle s M -> StronglySorted Z.lt M -> base < bp -> bp ∉ L -> f ∈ M -> (length M < fuel)%nat ->
  exists a p b, M = a ++ p :: b /\ (forall x, x ∈ a -> x < p) /\ p < bp /\ (forall x, x ∈ b -> bp < x) /\
    find_slot fuel s bp f = Some p.
Proof.
  intros M Hc Hs Hlt Hn Hf Hfuel. destruct (place L base bp Hs Hlt Hn) as (a & p & b & E & Ha & Hp & Hb). fold M in E.
  exists a, p, b. split_and!; try done.
  assert (Hlow : forall x, x ∈ M -> base <= x).
  { intros x [-> | Hx]%elem_of_cons; [lia |]. apply StronglySorted_inv in Hs as [_ Hs]. rewrite list.Forall_forall in Hs.
    specialize (Hs x Hx). lia. }
  assert (Hstop : stops s bp p = true).
  { unfold stops. rewrite (proj2 (Z.ltb_lt p bp) Hp). simpl. rewrite andb_true_r. destruct b as [|q b].
    - rewrite E in Hc. rewrite (circle_last s p a Hc base L) by (by rewrite <- E).
      rewrite (proj2 (Z.leb_le base p)) by (apply Hlow; rewrite E; set_solver). apply orb_true_r.
    - rewrite E in Hc. rewrite (circle_next s a p q b Hc). by rewrite (proj2 (Z.ltb_lt bp q)) by (apply Hb; set_solver). }
  assert (Hgo_a : forall x, x ∈ a -> stops s bp x = false).
  { intros x Hx. apply list_elem_of_split in Hx as (a1 & a2 & ->). unfold stops.
    assert (Hnx : x < ptr s x <= p).
    { rewrite E, <- app_assoc in Hc, Hs. simpl in Hc, Hs. destruct a2 as [|y a2]; simpl in Hc, Hs.
      - rewrite (circle_next _ _ _ _ _ Hc). split; [apply Ha; set_solver | lia].
      - rewrite (circle_next _ _ _ _ _ Hc). apply sorted_app in Hs as (_ & Hs & _).
        split; [apply Hs; set_solver |]. assert (y < p) by (apply Ha; set_solver). lia. }
    rewrite (proj2 (Z.ltb_ge bp (ptr s x))), (proj2 (Z.leb_gt (ptr s x) x)) by lia. by rewrite andb_false_r. }
  assert (Hgo_b : forall x, x ∈ b -> stops s bp x = false).
  { intros x Hx. assert (bp < x) by (by apply Hb). apply list_elem_of_split in Hx as (b1 & b2 & ->). unfold stops.
    rewrite (proj2 (Z.ltb_ge x bp)) by lia. simpl. destruct b2 as [|y b2].
    - assert (E' : M = (a ++ p :: b1) ++ [x]) by (by rewrite E, <- app_assoc). rewrite E' in Hc.
      rewrite (circle_last s x _ Hc base L) by (by rewrite <- E'). rewrite (proj2 (Z.ltb_ge bp base)) by lia. apply andb_false_r.
    - assert (E' : M = (a ++ p :: b1) ++ x :: y :: b2) by (by rewrite E, <- app_assoc). rewrite E' in Hc, Hs.
      rewrite (circle_next _ _ _ _ _ Hc). apply sorted_app in Hs as (_ & Hs & _). assert (x < y) by (apply Hs; set_solver).
      by rewrite (proj2 (Z.leb_gt y x)) by lia. }
  assert (Hwalk : forall v w, circle s (v ++ p :: w) -> (forall x, x ∈ v -> stops s bp x = false) -> (length v < fuel)%nat ->
    find_slot fuel s bp (hd p v) = Some p).
  { intros v w Hcv Hv Hlen. apply find_slot_walk; try done. destruct v as [|x v]; [done |]. unfold circle in Hcv. simpl in Hcv.
    change (linked s (((x :: v) ++ p :: w) ++ [x])) in Hcv. rewrite <- app_assoc in Hcv. by apply linked_app in Hcv as [Hcv _]. }
  rewrite E in Hf, Hfuel, Hc. rewrite length_app in Hfuel. simpl in Hfuel.
  apply elem_of_app in Hf as [Hf | [-> | Hf]%elem_of_cons].
  - apply list_elem_of_split in Hf as (a1 & a2 & ->). rewrite length_app in Hfuel. simpl in Hfuel.
    apply (Hwalk (f :: a2) (b ++ a1)); [| set_solver | simpl; lia].
    rewrite <- app_assoc in Hc. apply circle_rotate in Hc. change (circle s ((((f :: a2) ++ p :: b) ++ a1))) in Hc.
    by rewrite <- app_assoc in Hc.
  - apply (Hwalk [] (b ++ a)); [| set_solver | simpl; lia]. by apply circle_rotate in Hc.
  - apply list_elem_of_split in Hf as (b1 & b2 & ->). rewrite length_app in Hfuel. simpl in Hfuel.
    apply (Hwalk ((f :: b2) ++ a) b1); [| set_solver | rewrite length_app; simpl; lia].
    assert (Hc' : circle s ((a ++ p :: b1) ++ f :: b2)) by (by rewrite <- app_assoc). apply circle_rotate in Hc'.
    by rewrite <- app_assoc.
Qed.

(** ** Blocks *)

(** Blocks at the addresses [X] lie in the heap and do not overlap. *)
Record tiles (sz : Z -> Z) (hi : Z) (X : list Z) : Prop := {
  tl_nodup : NoDup X;
  tl_in : forall x, x ∈ X -> base + HDR <= x /\ 1 <= sz x /\ x + HDR * sz x <= hi;
  tl_disj : forall x y, x ∈ X -> y ∈ X -> x <> y -> x + HDR * sz x <= y \/ y + HDR * sz y <= x
}.

Lemma tiles_perm sz hi X Y : X ≡ₚ Y -> tiles sz hi X -> tiles sz hi Y.
Proof.
  intros HP [H1 H2 H3]. split.
  - by rewrite <- HP.
  - intros x. rewrite <- HP. apply H2.
  - intros x y. rewrite <- HP. apply H3.
Qed.

Lemma tiles_ext sz sz' hi hi' X : (forall x, x ∈ X -> sz' x = sz x) -> hi <= hi' -> tiles sz hi X -> tiles sz' hi' X.
Proof.
  intros He Hh [H1 H2 H3]. split; [done | |].
  - intros x Hx. rewrite He by done. destruct (H2 x Hx) as (? & ? & ?). split_and!; lia.
  - intros x y Hx Hy. rewrite !He by done. by apply H3.
Qed.

(** Adjacent blocks joined. *)
Lemma tiles_join sz hi x y X :
  tiles sz hi (x :: y :: X) -> x + HDR * sz x = y -> tiles (zupd sz x (sz x + sz y)) hi (x :: X).
Proof.
  intros [H1 H2 H3] E. apply list.NoDup_cons in H1 as [Hx H1]. apply list.NoDup_cons in H1 as [Hy H1].
  apply not_elem_of_cons in Hx as [Hxy Hx].
  assert (Hz : forall z, z ∈ X -> z <> x /\ z <> y) by (intros z Hz; split; intros ->; done).
  destruct (H2 x ltac:(set_solver)) as (A1 & A2 & A3), (H2 y ltac:(set_solver)) as (B1 & B2 & B3). unfold HDR in *.
  set (sz' := zupd sz x (sz x + sz y)).
  assert (Sx : sz' x = sz x + sz y) by (unfold sz', zupd; by rewrite decide_True).
  assert (Sz : forall z, z ∈ X -> sz' z = sz z) by (intros z Hin; unfold sz', zupd; rewrite decide_False; [done | by apply Hz]).
  assert (Hx' : forall z, z ∈ X -> x + 8 * sz' x <= z \/ z + 8 * sz' z <= x).
  { intros z Hin. destruct (Hz z Hin) as [Q1 Q2]. rewrite Sx, Sz by done.
    pose proof (H3 x z ltac:(set_solver) ltac:(set_solver) ltac:(done)).
    pose proof (H3 y z ltac:(set_solver) ltac:(set_solver) ltac:(done)). destruct (H2 z ltac:(set_solver)) as (? & ? & ?). lia. }
  split; unfold HDR.
  - by apply list.NoDup_cons.
  - intros z [-> | Hin]%elem_of_cons; [rewrite Sx; split_and!; lia |]. rewrite Sz by done. apply H2. set_solver.
  - intros z u Hin Hin' Hne. apply elem_of_cons in Hin as [-> | Hin], Hin' as [-> | Hin']; try done;
      try (by apply Hx'); try (by apply or_comm, Hx').
    rewrite !Sz by done. apply H3; set_solver.
Qed.

(** A block divided in two. *)
Lemma tiles_split sz hi x n X :
  tiles sz hi (x :: X) -> 1 <= n < sz x -> let y := x + HDR * (sz x - n) in
  tiles (zupd (zupd sz x (sz x - n)) y n) hi (x :: y :: X).
Proof.
  intros [H1 H2 H3] Hn y. apply list.NoDup_cons in H1 as [Hx H1].
  destruct (H2 x ltac:(set_solver)) as (A1 & A2 & A3). unfold HDR in *. assert (Hyx : y <> x) by (unfold y; lia).
  assert (HyX : y ∉ X).
  { intros Hin. assert (x <> y) by congruence. pose proof (H3 x y ltac:(set_solver) ltac:(set_solver) ltac:(done)).
    destruct (H2 y ltac:(set_solver)) as (? & ? & ?). unfold y in *. lia. }
  set (sz' := zupd (zupd sz x (sz x - n)) y n).
  assert (Sx : sz' x = sz x - n) by (unfold sz', zupd; rewrite decide_False, decide_True by done; done).
  assert (Sy : sz' y = n) by (unfold sz', zupd; by rewrite decide_True).
  assert (Sz : forall z, z ∈ X -> sz' z = sz z).
  { intros z Hz. unfold sz', zupd. rewrite !decide_False; [done | by intros -> | by intros ->]. }
  assert (Hz : forall z, z ∈ X -> x + 8 * sz x <= z \/ z + 8 * sz z <= x).
  { intros z Hz. apply H3; [set_solver | set_solver | by intros ->]. }
  unfold HDR. split; unfold HDR.
  - apply list.NoDup_cons. split; [set_solver |]. by apply list.NoDup_cons.
  - intros z [-> | [-> | Hin]%elem_of_cons]%elem_of_cons; [rewrite Sx; split_and!; lia | rewrite Sy; unfold y; split_and!; lia |].
    rewrite Sz by done. apply H2. set_solver.
  - assert (Hxy : x + 8 * sz' x <= y) by (rewrite Sx; unfold y; lia).
    assert (Hx' : forall z, z ∈ X -> x + 8 * sz' x <= z \/ z + 8 * sz' z <= x).
    { intros z Hin. rewrite Sx, Sz by done. destruct (Hz z Hin); [left | right]; lia. }
    assert (Hy' : forall z, z ∈ X -> y + 8 * sz' y <= z \/ z + 8 * sz' z <= y).
    { intros z Hin. rewrite Sy, Sz by done. destruct (Hz z Hin); [left | right]; unfold y; lia. }
    intros z u Hin Hin' Hne. apply elem_of_cons in Hin as [-> | [-> | Hin]%elem_of_cons], Hin' as [-> | [-> | Hin']%elem_of_cons];
      try done; try (by left); try (by right); try (by apply Hx'); try (by apply Hy');
      try (by apply or_comm, Hx'); try (by apply or_comm, Hy').
    rewrite !Sz by done. apply H3; set_solver.
Qed.

(** The heap with free blocks [L] after [base], and blocks [A] handed out. *)
Record flist (s : heap) (L A : list Z) : Prop := {
  fl_circle : circle s (base :: L);
  fl_sorted : StronglySorted Z.lt (base :: L);
  fl_base : size s base = 0;
  fl_freep : freep s ∈ base :: L;
  fl_brk : base + HDR <= brk s;
  fl_tiles : tiles (size s) (brk s) (L ++ A)
}.

(** A circle seen from [p]: the rest of it leads back to [p]. *)
Lemma circle_from s a p b :
  circle s (a ++ p :: b) <-> ptr s p = hd p (b ++ a) /\ linked s ((b ++ a) ++ [p]).
Proof.
  assert (E : circle s (a ++ p :: b) <-> circle s (p :: b ++ a)).
  { split; [intros H; by apply circle_rotate in H | intros H]. change (circle s ((p :: b) ++ a)) in H. by apply circle_rotate in H. }
  rewrite E. unfold circle. destruct (b ++ a) as [|y c]; simpl; tauto.
Qed.

Lemma zupd_same f a v : zupd f a v a = v.
Proof. unfold zupd. by rewrite decide_True. Qed.
Lemma zupd_other f a v x : x <> a -> zupd f a v x = f x.
Proof. intros. unfold zupd. by rewrite decide_False. Qed.

Lemma tail_perm a p b L : base :: L = a ++ p :: b -> forall x, a ++ p :: x :: b ≡ₚ x :: base :: L.
Proof. intros E x. rewrite E. by rewrite (Permutation_middle a _ x), (Permutation_swap p x). Qed.

(** What [join_next] leaves: [bp] leads on, possibly having absorbed the block after it. *)
Lemma join_next_ok s L A a p b bp :
  flist s L (bp :: A) -> base :: L = a ++ p :: b -> p < bp -> (forall x, x ∈ b -> bp < x) -> bp ∉ base :: L -> base < bp ->
  exists b1 L1 s1, join_next bp p s = s1 /\ base :: L1 = a ++ p :: b1 /\ (b1 = b \/ exists q, b = q :: b1) /\
    ptr s1 bp = hd p (b1 ++ a) /\ (forall x, x <> bp -> ptr s1 x = ptr s x) /\ (forall x, x <> bp -> size s1 x = size s x) /\
    size s bp <= size s1 bp /\ brk s1 = brk s /\ tiles (size s1) (brk s1) (bp :: L1 ++ A).
Proof.
  intros [F1 F2 F3 F4 Fb F5] E Hp Hb Hn Hbase. rewrite E in F1. pose proof F1 as Hc. apply circle_from in Hc as [Hnext Hlink].
  assert (HT : tiles (size s) (brk s) (bp :: L ++ A)) by (eapply tiles_perm; [| exact F5]; by rewrite Permutation_middle).
  unfold join_next. rewrite Hnext. destruct (Z.eqb_spec (bp + HDR * size s bp) (hd p (b ++ a))) as [Ej | Ej].
  - destruct b as [|q b1].
    { exfalso. destruct (tl_in _ _ _ HT bp ltac:(set_solver)) as (_ & Hs & _). unfold HDR in *. simpl in Ej.
      destruct a as [|z a]; simpl in *; [lia |]. injection E as <- _. lia. }
    cbn [app hd] in *. assert (Hq : bp <> q) by (assert (bp < q) by (apply Hb; set_solver); lia).
    assert (HL1 : exists L1, base :: L1 = a ++ p :: b1).
    { destruct a as [|z a]; simpl in E |- *; injection E as <- _; eauto. }
    destruct HL1 as [L1 EL1].
    assert (HP : L ≡ₚ q :: L1).
    { pose proof (tail_perm a p b1 L1 EL1 q) as HP. rewrite <- E, (Permutation_swap base q) in HP. by apply Permutation_cons_inv in HP. }
    eexists b1, L1, _. split; [reflexivity |]. cbn [ptr size brk set_ptr set_size].
    pose proof (tl_in _ _ _ HT q) as Hqi. rewrite HP in Hqi. specialize (Hqi ltac:(set_solver)).
    split_and!; [done | eauto | | | | | done |].
    + rewrite zupd_same. simpl in Hlink. destruct (b1 ++ a); simpl in *; apply Hlink.
    + intros x Hx. by apply zupd_other.
    + intros x Hx. by apply zupd_other.
    + rewrite zupd_same. simpl. lia.
    + apply tiles_join; [| done]. eapply tiles_perm; [| exact HT]. by rewrite HP.
  - eexists b, L, _. split; [reflexivity |]. cbn [ptr size brk set_ptr]. split_and!; try done; [by left | |].
    + by rewrite zupd_same.
    + intros x Hx. by apply zupd_other.
Qed.

(** The order of the list with [bp] put in its place. *)
Lemma sorted_insert a p bp b :
  StronglySorted Z.lt (a ++ p :: b) -> p < bp -> (forall x, x ∈ b -> bp < x) -> StronglySorted Z.lt (a ++ p :: bp :: b).
Proof.
  induction a as [|y a IH]; simpl; intros H Hp Hb; apply StronglySorted_inv in H as [H1 H2]; rewrite list.Forall_forall in H2.
  - constructor; [constructor; [done |]; rewrite list.Forall_forall; done |]. rewrite list.Forall_forall.
    intros x [-> | Hx]%elem_of_cons; [done |]. by apply H2.
  - constructor; [by apply IH |]. rewrite list.Forall_forall. intros x Hx. apply elem_of_app in Hx as [Hx | Hx]; [apply H2; set_solver |].
    apply elem_of_cons in Hx as [-> | [-> | Hx]%elem_of_cons]; [apply H2; set_solver | | apply H2; set_solver].
    assert (y < p) by (apply H2; set_solver). lia.
Qed.

Lemma sorted_remove a p q b : StronglySorted Z.lt (a ++ p :: q :: b) -> StronglySorted Z.lt (a ++ p :: b).
Proof.
  induction a as [|y a IH]; simpl; intros H; apply StronglySorted_inv in H as [H1 H2]; rewrite list.Forall_forall in H2.
  - constructor; [by apply StronglySorted_inv in H1 as [H1 _] |]. rewrite list.Forall_forall. intros x Hx. apply H2. set_solver.
  - constructor; [by apply IH |]. rewrite list.Forall_forall. intros x Hx. apply H2. set_solver.
Qed.

(** [bp] has been made to lead on to [b1], in a list that still passes it by. *)
Record loose (s : heap) (a : list Z) (p bp : Z) (b1 L1 A : list Z) : Prop := {
  lo_list : base :: L1 = a ++ p :: b1;
  lo_sorted : StronglySorted Z.lt (a ++ p :: b1);
  lo_next : ptr s bp = hd p (b1 ++ a);
  lo_link : linked s ((b1 ++ a) ++ [p]);
  lo_other : forall x, x ∈ b1 ++ a -> x <> bp /\ x <> p;
  lo_base : size s base = 0;
  lo_order : base < bp /\ p < bp /\ forall x, x ∈ b1 -> bp < x;
  lo_brk : base + HDR <= brk s;
  lo_tiles : tiles (size s) (brk s) (bp :: L1 ++ A)
}.

Lemma loose_p s a p bp b1 L1 A : loose s a p bp b1 L1 A -> p + HDR * size s p = bp -> p <> base /\ p ∈ L1.
Proof.
  intros [E _ _ _ _ B (O1 & _) _ _] Ej. assert (Hpb : p <> base) by (intros ->; rewrite B in Ej; unfold HDR in Ej; lia).
  split; [done |]. assert (Hin : p ∈ base :: L1) by (rewrite E; set_solver). by apply elem_of_cons in Hin as [? | ?].
Qed.

(** [p] absorbs [bp]. *)
Lemma join_merge s a p bp b1 L1 A :
  loose s a p bp b1 L1 A -> p + HDR * size s p = bp -> flist (set_freep p (join_prev bp p s)) L1 A.
Proof.
  intros Lo Ej. destruct (loose_p _ _ _ _ _ _ _ Lo Ej) as [Hpb HpL]. destruct Lo as [E1 Hs N1 Hca Hnp B _ Hbr T].
  unfold join_prev. rewrite (proj2 (Z.eqb_eq _ _) Ej). split; cbn [ptr size brk freep set_freep set_ptr set_size].
  - rewrite E1. apply circle_from. cbn [ptr set_freep set_ptr set_size]. rewrite zupd_same. split; [done |].
    eapply linked_ext; [| exact Hca]. intros x Hx. cbn [ptr set_freep set_ptr set_size]. apply zupd_other. by apply Hnp.
  - by rewrite E1.
  - by rewrite zupd_other.
  - set_solver.
  - done.
  - assert (HPx : exists X, L1 ++ A ≡ₚ p :: X).
    { apply list_elem_of_split in HpL as (l1 & l2 & ->). exists (l1 ++ l2 ++ A). rewrite <- app_assoc. symmetry. apply Permutation_middle. }
    destruct HPx as [X HPx]. eapply tiles_perm; [symmetry; exact HPx |]. apply tiles_join; [| done].
    eapply tiles_perm; [| exact T]. rewrite HPx. apply Permutation_swap.
Qed.

(** [bp] is put after [p]. *)
Lemma join_insert s a p bp b1 L1 A :
  loose s a p bp b1 L1 A -> p + HDR * size s p <> bp ->
  exists L2, L2 ≡ₚ bp :: L1 /\ flist (set_freep p (join_prev bp p s)) L2 A.
Proof.
  intros [E1 Hs N1 Hca Hnp B (O1 & O2 & O3) Hbr T] Ej. unfold join_prev. rewrite (proj2 (Z.eqb_neq _ _) Ej).
  assert (HL2 : exists L2, base :: L2 = a ++ p :: bp :: b1).
  { destruct a as [|z a]; simpl in E1 |- *; injection E1 as <- _; eauto. }
  destruct HL2 as [L2 E2]. exists L2. assert (HP2 : L2 ≡ₚ bp :: L1).
  { pose proof (tail_perm a p b1 L1 E1 bp) as HP. rewrite <- E2, (Permutation_swap base bp) in HP. by apply Permutation_cons_inv in HP. }
  split; [done |]. set (s' := set_freep p (set_ptr p bp s)).
  assert (Hlk : linked s' ((b1 ++ a) ++ [p])).
  { eapply linked_ext; [| exact Hca]. intros x Hx. cbn [ptr set_freep set_ptr s']. apply zupd_other. by apply Hnp. }
  assert (Hbp : ptr s' bp = hd p (b1 ++ a)) by (cbn [ptr set_freep set_ptr s']; rewrite zupd_other by lia; done).
  split; [| by rewrite E2; apply sorted_insert | done | | done |].
  - rewrite E2. apply circle_from. split; [cbn [ptr set_freep set_ptr s']; by rewrite zupd_same |].
    change ((bp :: b1) ++ a) with (bp :: b1 ++ a). destruct (b1 ++ a); simpl in *; done.
  - cbn [freep set_freep s']. rewrite E2. set_solver.
  - cbn [size brk set_freep set_ptr s']. eapply tiles_perm; [| exact T]. by rewrite HP2.
Qed.

(** The state after [join_next], in the middle of [free]. *)
Lemma free_loose s L A bp a p b :
  flist s L (bp :: A) -> base :: L = a ++ p :: b -> p < bp -> (forall x, x ∈ b -> bp < x) ->
  exists b1 L1, loose (join_next bp p s) a p bp b1 L1 A /\ (length L1 <= length L)%nat /\
    (forall x, x <> bp -> size (join_next bp p s) x = size s x) /\ size s bp <= size (join_next bp p s) bp /\
    brk (join_next bp p s) = brk s /\ base < bp.
Proof.
  intros F E Hp Hb. pose proof F as [F1 F2 F3 F4 Fb F5]. pose proof (tl_nodup _ _ _ F5) as Hnd.
  apply list.NoDup_app in Hnd as (_ & Hnd2 & _).
  destruct (tl_in _ _ _ F5 bp ltac:(set_solver)) as (Hb1 & _). unfold HDR in Hb1.
  assert (HbM : bp ∉ base :: L).
  { apply not_elem_of_cons. split; [lia |]. intros Hin. apply (Hnd2 bp Hin). set_solver. }
  destruct (join_next_ok s L A a p b bp F E Hp Hb HbM ltac:(lia)) as (b1 & L1 & s1 & -> & E1 & Hb1' & N1 & N2 & N3 & N4 & N5 & T1).
  assert (Hs1 : StronglySorted Z.lt (a ++ p :: b1)).
  { rewrite E in F2. destruct Hb1' as [-> | [q ->]]; [done | by eapply sorted_remove]. }
  assert (Hnp : forall x, x ∈ b1 ++ a -> x <> bp /\ x <> p).
  { intros x Hx. split; intros ->.
    - apply HbM. rewrite E. destruct Hb1' as [-> | [q ->]]; set_solver.
    - apply sorted_app in Hs1 as (Q1 & Q2 & _). apply elem_of_app in Hx as [Hx | Hx]; [specialize (Q2 p Hx) | specialize (Q1 p Hx)]; lia. }
  exists b1, L1. split_and!; try done; try lia.
  - split; try done.
    + eapply linked_ext; [intros x Hx; apply N2; by apply Hnp |]. rewrite E in F1. apply circle_from in F1 as [_ F1].
      destruct Hb1' as [-> | [q ->]]; [done |]. destruct (b1 ++ a) eqn:Eba; simpl in *; rewrite Eba in F1; [done | apply F1].
    + rewrite N3 by lia. done.
    + split_and!; [lia | done |]. intros x Hx. apply Hb. destruct Hb1' as [-> | [q ->]]; set_solver.
    + by rewrite N5.
  - apply (f_equal length) in E, E1. rewrite length_app in E, E1. simpl in *. destruct Hb1' as [-> | [q ->]]; simpl in *; lia.
Qed.

(** [free] returns, and the block it was given is free: part of a free block. *)
Lemma free_ok s L A bp fuel :
  flist s L (bp :: A) -> (S (length L) < fuel)%nat ->
  exists s' L', free fuel (bp + HDR) s = Some s' /\ flist s' L' A /\ (forall x, x ∈ A -> size s' x = size s x) /\
    brk s' = brk s /\ (length L' <= S (length L))%nat /\ exists x, x ∈ L' /\ size s bp <= size s' x.
Proof.
  intros F Hfuel. pose proof F as [F1 F2 F3 F4 Fb F5]. pose proof (tl_nodup _ _ _ F5) as Hnd.
  apply list.NoDup_app in Hnd as (_ & Hnd2 & Hnd3). apply list.NoDup_cons in Hnd3 as [HbA _].
  assert (HbL : bp ∉ L) by (intros Hin; apply (Hnd2 bp Hin); set_solver).
  destruct (tl_in _ _ _ F5 bp ltac:(set_solver)) as (Hb1 & _). unfold HDR in Hb1.
  destruct (find_slot_ok s L bp (freep s) fuel F1 F2 ltac:(lia) HbL F4 ltac:(simpl; lia)) as (a & p & b & E & Ha & Hp & Hb & Hslot).
  unfold free. replace (bp + HDR - HDR) with bp by lia. rewrite Hslot.
  destruct (free_loose s L A bp a p b F E Hp Hb) as (b1 & L1 & Lo & Hlen & N3 & N4 & N5 & Hbase).
  set (s1 := join_next bp p s) in *.
  assert (HA : forall x, x ∈ A -> x <> bp /\ x <> p).
  { intros x Hx. split; [by intros -> |]. intros ->. assert (HpM : p ∈ base :: L) by (rewrite E; set_solver).
    apply elem_of_cons in HpM as [-> | Hin].
    - destruct (tl_in _ _ _ F5 base ltac:(set_solver)) as (Q & _). unfold HDR in Q. lia.
    - apply (Hnd2 p Hin). set_solver. }
  destruct (decide (p + HDR * size s1 p = bp)) as [Ej | Ej].
  - pose proof (join_merge _ _ _ _ _ _ _ Lo Ej) as F'. destruct (loose_p _ _ _ _ _ _ _ Lo Ej) as [_ HpL].
    destruct (tl_in _ _ _ (lo_tiles _ _ _ _ _ _ _ Lo) p ltac:(set_solver)) as (_ & Q & _).
    eexists _, L1. split; [reflexivity |]. unfold join_prev in *. rewrite (proj2 (Z.eqb_eq _ _) Ej) in *.
    split_and!; try done; [| lia |].
    + intros x Hx. destruct (HA x Hx). cbn [size set_freep set_ptr set_size]. rewrite zupd_other by done. by apply N3.
    + exists p. split; [done |]. cbn [size set_freep set_ptr set_size]. rewrite zupd_same. lia.
  - destruct (join_insert _ _ _ _ _ _ _ Lo Ej) as (L2 & HP2 & F'). eexists _, L2. split; [reflexivity |].
    unfold join_prev in *. rewrite (proj2 (Z.eqb_neq _ _) Ej) in *. split_and!; try done.
    + intros x Hx. destruct (HA x Hx). cbn [size set_freep set_ptr]. by apply N3.
    + rewrite HP2. simpl. lia.
    + exists bp. rewrite HP2. split; [set_solver | done].
Qed.

Lemma circle_inj s M u v : circle s M -> NoDup M -> u ∈ M -> v ∈ M -> ptr s u = ptr s v -> u = v.
Proof.
  intros Hc Hnd Hu Hv E. destruct (decide (u = v)) as [? | Hne]; [done | exfalso].
  apply list_elem_of_split in Hu as (a & b & ->). apply circle_from in Hc as [Hn Hl].
  assert (Hnd' : NoDup (u :: b ++ a)) by (rewrite Permutation_app_comm in Hnd; exact Hnd).
  assert (Hv' : v ∈ b ++ a) by set_solver. clear Hnd Hv. revert Hn Hl Hnd' Hv'. generalize (b ++ a) as c. clear a b.
  intros c Hn Hl Hnd Hv. apply list.NoDup_cons in Hnd as [Hu Hnd]. apply list_elem_of_split in Hv as (c1 & c2 & ->).
  rewrite <- app_assoc in Hl. apply linked_app in Hl as [_ Hl].
  assert (Ev : ptr s v = hd u c2) by (destruct c2; simpl in *; apply Hl).
  apply list.NoDup_app in Hnd as (_ & Hnd1 & Hnd2). apply list.NoDup_cons in Hnd2 as [Hv2 _].
  rewrite Hn, Ev in E. destruct c1 as [|w c1], c2 as [|z c2]; simpl in *; subst; try done; set_solver.
Qed.

Lemma sorted_nodup M : StronglySorted Z.lt M -> NoDup M.
Proof.
  induction M as [|x M IH]; intros H; [constructor |]. apply StronglySorted_inv in H as [H1 H2]. apply list.NoDup_cons.
  rewrite list.Forall_forall in H2. split; [| by apply IH]. intros Hx. specialize (H2 x Hx). lia.
Qed.

(** A block taken off the end of [x], or [x] taken out of the list. *)
Lemma carve_ok s L A n prevp x :
  flist s L A -> prevp ∈ base :: L -> ptr s prevp = x -> x ∈ L -> 1 <= n <= size s x ->
  exists p s' L', carve n prevp x s = (p + HDR, s') /\ flist s' L' (p :: A) /\ size s' p = n /\
    (forall y, y ∈ A -> size s' y = size s y) /\ brk s' = brk s.
Proof.
  intros [F1 F2 F3 F4 Fb F5] Hprev Hpx Hx Hn. pose proof (sorted_nodup _ F2) as Hnd.
  assert (HxA : x ∉ A). { pose proof (tl_nodup _ _ _ F5) as Q. apply list.NoDup_app in Q as (_ & Q & _). by apply Q. }
  assert (Hxb : x <> base) by (intros ->; apply list.NoDup_cons in Hnd as [? _]; done).
  unfold carve. destruct (Z.eqb_spec (size s x) n) as [E | E].
  - assert (Hsplit : exists a b, base :: L = a ++ prevp :: x :: b).
    { apply list_elem_of_split in Hx as (l1 & l2 & ->).
      destruct (exists_last (l := base :: l1) ltac:(done)) as (l & y & El).
      assert (EM : base :: l1 ++ x :: l2 = l ++ y :: x :: l2) by (change (base :: l1 ++ x :: l2) with ((base :: l1) ++ x :: l2); rewrite El, <- app_assoc; done).
      exists l, l2. rewrite EM in *. assert (y = prevp) as <-; [| done].
      apply (circle_inj s (l ++ y :: x :: l2)); [done | done | set_solver | done |]. rewrite Hpx. by eapply circle_next. }
    destruct Hsplit as (a & b & EM).
    assert (HL' : exists L', base :: L' = a ++ prevp :: b).
    { destruct a as [|z a]; simpl in EM |- *; injection EM as <- _; eauto. }
    destruct HL' as [L' EL']. assert (HP : L ≡ₚ x :: L').
    { pose proof (tail_perm a prevp b L' EL' x) as HP. rewrite <- EM, (Permutation_swap base x) in HP. by apply Permutation_cons_inv in HP. }
    rewrite EM in F1, F2, Hnd. pose proof F1 as Hc. apply circle_from in Hc as [_ Hl]. cbn [app] in Hl.
    eexists x, _, L'. split; [reflexivity |]. split_and!; try done. split; cbn [size brk freep set_freep set_ptr]; try done.
    + rewrite EL'. apply circle_from. cbn [ptr set_freep set_ptr]. rewrite zupd_same.
      assert (Hl' : ptr s x = hd prevp (b ++ a) /\ linked s ((b ++ a) ++ [prevp])) by (destruct (b ++ a); simpl in *; tauto).
      destruct Hl' as [E1 E2]. split; [done |]. eapply linked_ext; [| exact E2]. intros y Hy. cbn [ptr set_freep set_ptr].
      apply zupd_other. intros ->. rewrite Permutation_app_comm in Hnd. simpl in Hnd.
      apply list.NoDup_cons in Hnd as [Q _]. set_solver.
    + rewrite EL'. by eapply sorted_remove.
    + rewrite EL'. set_solver.
    + eapply tiles_perm; [| exact F5]. rewrite HP. simpl. by rewrite Permutation_middle.
  - set (p := x + HDR * (size s x - n)).
    assert (HP : exists X, L ++ A ≡ₚ x :: X /\ (forall y, y ∈ X -> y ∈ L ++ A) /\ L ++ p :: A ≡ₚ x :: p :: X).
    { apply list_elem_of_split in Hx as (l1 & l2 & ->). exists (l1 ++ l2 ++ A). rewrite <- !app_assoc. split_and!.
      - symmetry. apply Permutation_middle.
      - set_solver.
      - simpl. rewrite <- (Permutation_middle l1 _ x). f_equiv. rewrite !app_assoc. symmetry. apply Permutation_middle. }
    destruct HP as (X & HP & HX & HP'). pose proof (tiles_perm _ _ _ _ HP F5) as T.
    pose proof (tiles_split (size s) (brk s) x n X T ltac:(lia)) as T'. cbv zeta in T'. fold p in T'.
    pose proof (tl_nodup _ _ _ T') as Hnd'. apply list.NoDup_cons in Hnd' as [Hxp Hnd']. apply list.NoDup_cons in Hnd' as [HpX _].
    destruct (tl_in _ _ _ T' p ltac:(set_solver)) as (Hp1 & _ & _). unfold HDR in Hp1.
    assert (Hsz : forall y, y ∈ A -> y <> x /\ y <> p).
    { intros y Hy. split; [by intros -> |]. intros ->. assert (Hin : p ∈ x :: X) by (rewrite <- HP; set_solver). set_solver. }
    eexists p, _, L. cbn [size set_size]. rewrite zupd_same. split; [reflexivity |]. fold p. split_and!; try done.
    + split; cbn [ptr size brk freep set_freep set_size]; try done.
      * by eapply circle_ext; [| exact F1].
      * rewrite !zupd_other by (done || lia). done.
      * eapply tiles_perm; [symmetry; exact HP' | exact T'].
    + cbn [size set_freep set_size]. by rewrite zupd_same.
    + intros y Hy. destruct (Hsz y Hy). cbn [size set_freep set_size]. by rewrite !zupd_other.
Qed.

Context (Hbase : 0 < base).

Lemma morecore_ok s L A n fuel :
  flist s L A -> 1 <= n -> 8 * n < 2 ^ 31 -> (S (length L) < fuel)%nat ->
  (morecore fuel n s = Some (0, s) /\ grows (brk s) (HDR * Z.max 4096 n) = false) \/
  exists s' L', morecore fuel n s = Some (freep s', s') /\ freep s' <> 0 /\ flist s' L' A /\
    (forall x, x ∈ A -> size s' x = size s x) /\ (length L' <= S (length L))%nat /\ exists x, x ∈ L' /\ n <= size s' x.
Proof.
  intros F Hn Hmax Hfuel. pose proof F as [F1 F2 F3 F4 Fb F5]. unfold morecore. set (nu := if n <? 4096 then 4096 else n).
  assert (Hnu : n <= nu /\ 4096 <= nu /\ 8 * nu < 2 ^ 31 /\ nu = Z.max 4096 n) by (unfold nu; zcase (n <? 4096); lia). clearbody nu.
  assert (Eb : s32 (nu *u HDR) = 8 * nu) by (unfold HDR; rewrite u32_small by lia; unfold s32; cbv zeta; word).
  unfold sbrk. rewrite Eb. destruct (grows (brk s) (8 * nu)) eqn:Eg; [right |].
  2: { left. split; [done |]. destruct Hnu as (_ & _ & _ & <-). exact Eg. }
  unfold HDR in Fb. rewrite (proj2 (Z.eqb_neq (brk s) (-1))) by lia.
  set (s1 := set_size (brk s) nu (Heap (ptr s) (size s) (freep s) (brk s + 8 * nu))).
  assert (Hnew : forall x, x ∈ L ++ A -> x <> brk s).
  { intros x Hx ->. destruct (tl_in _ _ _ F5 _ Hx) as (_ & Q1 & Q2). unfold HDR in Q2. lia. }
  assert (F' : flist s1 L (brk s :: A)).
  { split; cbn [ptr size brk freep s1 set_size]; unfold HDR; try done; try lia.
    - by eapply circle_ext; [| exact F1].
    - rewrite zupd_other by lia. done.
    - eapply tiles_perm; [apply Permutation_middle |]. split.
      + apply list.NoDup_cons. split; [| apply F5]. intros Hin. by apply (Hnew _ Hin).
      + intros x [-> | Hx]%elem_of_cons; unfold HDR; [rewrite zupd_same; lia |]. rewrite zupd_other by (by apply Hnew).
        destruct (tl_in _ _ _ F5 _ Hx) as (Q0 & Q1 & Q2). unfold HDR in *. lia.
      + assert (Hlow : forall x, x ∈ L ++ A -> x + HDR * size s x <= brk s) by (intros x Hx; apply (tl_in _ _ _ F5 _ Hx)).
        intros x y [-> | Hx]%elem_of_cons [-> | Hy]%elem_of_cons Hne; try done; rewrite ?zupd_same;
          rewrite ?zupd_other by (by apply Hnew); auto. by apply F5. }
  destruct (free_ok s1 L A (brk s) fuel F' Hfuel) as (s' & L' & E & G & Hsz & _ & Hlen & x & Hx & Hxs).
  rewrite E. exists s', L'. split; [done |]. split_and!; try done.
  - pose proof (fl_freep _ _ _ G) as Hin. pose proof (fl_sorted _ _ _ G) as Hs. apply StronglySorted_inv in Hs as [_ Hs].
    rewrite list.Forall_forall in Hs. apply elem_of_cons in Hin as [-> | Hin]; [lia |]. specialize (Hs _ Hin). lia.
  - intros y Hy. rewrite Hsz by done. cbn [size s1 set_size]. apply zupd_other. apply Hnew. set_solver.
  - exists x. split; [done |]. cbn [size s1 set_size] in Hxs. rewrite zupd_same in Hxs. lia.
Qed.

(** The loop of [malloc] along the blocks [V], the last of which is [freep]. *)
Lemma search_walk s n V : forall fuel prevp p,
  linked s (prevp :: V ++ [freep s]) -> p = hd (freep s) V -> freep s ∉ V -> (length V < fuel)%nat ->
  (exists pre x, search fuel n prevp p s = Some (carve n pre x s) /\ pre ∈ prevp :: V /\ ptr s pre = x /\
     x ∈ V ++ [freep s] /\ n <= size s x) \/
  ((forall x, x ∈ V ++ [freep s] -> size s x < n) /\
   search fuel n prevp p s = match morecore (fuel - S (length V)) n s with
     | None => None
     | Some (p', s') => if p' =? 0 then Some (0, s') else search (fuel - S (length V)) n p' (ptr s' p') s'
     end).
Proof.
  induction V as [|y V IH]; intros [|f] prevp p Hl -> Hn Hf; try (simpl in Hf; lia); cbn [search hd].
  - zcase (n <=? size s (freep s)).
    + left. exists prevp, (freep s). split_and!; try done; [set_solver | apply Hl | set_solver].
    + right. rewrite Z.eqb_refl. simpl. rewrite Nat.sub_0_r. split; [set_solver | done].
  - apply not_elem_of_cons in Hn as [Hne Hn]. zcase (n <=? size s y).
    + left. exists prevp, y. split_and!; try done; [set_solver | apply Hl | set_solver].
    + rewrite (proj2 (Z.eqb_neq y (freep s))) by congruence.
      assert (Hl' : linked s (y :: V ++ [freep s])) by (destruct V; simpl in *; tauto).
      assert (Hp : ptr s y = hd (freep s) V) by (destruct V; simpl in *; apply Hl').
      destruct (IH f y (ptr s y) Hl' Hp Hn ltac:(simpl in Hf; lia)) as [(pre & x & E & Q1 & Q2 & Q3 & Q4) | [Q1 Q2]].
      * left. exists pre, x. split_and!; try done; set_solver.
      * right. split; [set_solver | exact Q2].
Qed.

(** What [malloc] promises for a block of [n] headers. *)
Definition got (s : heap) (A : list Z) (n : Z) (r : Z * heap) : Prop :=
  (r.1 = 0 /\ exists L', flist r.2 L' A) \/
  exists p L', r.1 = p + HDR /\ r.1 <> 0 /\ flist r.2 L' (p :: A) /\ size r.2 p = n /\
    (forall x, x ∈ A -> size r.2 x = size s x).

(** One round of the list, from [freep]. *)
Lemma search_round s L A n fuel :
  flist s L A -> 1 <= n -> (length L < fuel)%nat ->
  (exists r, search fuel n (freep s) (ptr s (freep s)) s = Some r /\ r.1 <> 0 /\ got s A n r) \/
  ((forall x, x ∈ L -> size s x < n) /\
   search fuel n (freep s) (ptr s (freep s)) s = match morecore (fuel - S (length L)) n s with
     | None => None
     | Some (p', s') => if p' =? 0 then Some (0, s') else search (fuel - S (length L)) n p' (ptr s' p') s'
     end).
Proof.
  intros F Hn Hfuel. pose proof F as [F1 F2 F3 F4 Fb F5]. pose proof (sorted_nodup _ F2) as Hnd.
  apply list_elem_of_split in F4 as (l1 & l2 & EM). rewrite EM in F1, Hnd. apply circle_from in F1 as [Hp Hl].
  assert (HfV : freep s ∉ l2 ++ l1).
  { rewrite Permutation_app_comm in Hnd. simpl in Hnd. by apply list.NoDup_cons in Hnd as [? _]. }
  assert (Hlen : length (l2 ++ l1) = length L).
  { apply (f_equal length) in EM. rewrite length_app in *. simpl in EM. lia. }
  assert (Hl' : linked s (freep s :: (l2 ++ l1) ++ [freep s])) by (destruct (l2 ++ l1); simpl in *; tauto).
  assert (Hin : forall x, x ∈ (l2 ++ l1) ++ [freep s] <-> x ∈ base :: L) by (intros x; rewrite EM; set_solver).
  destruct (search_walk s n (l2 ++ l1) fuel (freep s) _ Hl' Hp HfV ltac:(lia)) as [(pre & x & E & Q1 & Q2 & Q3 & Q4) | [Q1 Q2]].
  - left. rewrite Hin in Q3. assert (HxL : x ∈ L) by (apply elem_of_cons in Q3 as [-> | ?]; [lia | done]).
    assert (Hpre : pre ∈ base :: L) by (rewrite <- Hin; set_solver).
    destruct (carve_ok s L A n pre x F Hpre Q2 HxL ltac:(lia)) as (p & s' & L' & Ec & F' & Hs & HA & _).
    rewrite E, Ec. destruct (tl_in _ _ _ (fl_tiles _ _ _ F') p ltac:(set_solver)) as (Hpb & _). unfold HDR in *.
    eexists. split; [reflexivity |]. cbn [fst]. split; [lia |]. right. exists p, L'. cbn [fst snd]. split_and!; try done. unfold HDR; lia.
  - right. rewrite Hlen in Q2. split; [| exact Q2]. intros x Hx. apply Q1, Hin. set_solver.
Qed.

Lemma search_ok s L A n fuel :
  flist s L A -> 1 <= n -> 8 * n < 2 ^ 31 -> (2 * length L + 4 < fuel)%nat ->
  exists r, search fuel n (freep s) (ptr s (freep s)) s = Some r /\ got s A n r /\
    (r.1 = 0 -> grows (brk s) (HDR * Z.max 4096 n) = false).
Proof.
  intros F Hn Hmax Hfuel. destruct (search_round s L A n fuel F Hn ltac:(lia)) as [(r & E & Hr & G) | [_ ->]];
    [exists r; by split_and! |].
  destruct (morecore_ok s L A n (fuel - S (length L)) F Hn Hmax ltac:(lia)) as [[-> Hg] | (s' & L' & -> & Hf & F' & HA & Hlen & x & Hx & Hxn)].
  - simpl. eexists. split; [reflexivity |]. split; [| done]. left. eauto.
  - rewrite (proj2 (Z.eqb_neq _ _) Hf).
    destruct (search_round s' L' A n (fuel - S (length L)) F' Hn ltac:(lia)) as [(r & E & Hr & G) | [Hnone _]].
    + exists r. split; [done |]. split; [| done]. destruct G as [[G _] | (p & L2 & G1 & G2 & G3 & G4 & G5)]; [done | right].
      exists p, L2. split_and!; try done. intros y Hy. by rewrite G5, HA.
    + specialize (Hnone x Hx). lia.
Qed.

(** ** Any sequence of calls *)

(** Before the first call, or with a free list. *)
Definition heap_ok (s : heap) (A : list Z) : Prop :=
  base + HDR <= brk s /\ ((freep s = 0 /\ A = []) \/ exists L, flist s L A).

Lemma flist_freep s L A : flist s L A -> freep s <> 0.
Proof.
  intros F. pose proof (fl_freep _ _ _ F) as Hin. pose proof (fl_sorted _ _ _ F) as Hs. apply StronglySorted_inv in Hs as [_ Hs].
  rewrite list.Forall_forall in Hs. apply elem_of_cons in Hin as [-> | Hin]; [lia |]. specialize (Hs _ Hin). lia.
Qed.

(** The rounding is exact up to 2^32 - 8 bytes; for more it wraps around to one header. *)
Lemma units_rounds nbytes : 0 <= nbytes <= 2 ^ 32 - 8 ->
  nbytes <= HDR * (units nbytes - 1) < nbytes + HDR /\ 1 <= units nbytes.
Proof using.
  intros H. clear -H. unfold units, HDR. rewrite u32_sub_l.
  rewrite u32_small by lia. split_and!; Z.to_euclidean_division_equations; lia.
Qed.

Lemma units_wraps nbytes : 2 ^ 32 - 8 < nbytes < 2 ^ 32 -> units nbytes = 1.
Proof using.
  intros H. clear -H. unfold units, HDR. rewrite u32_sub_l.
  assert (E : u32 (nbytes + 8 - 1) = nbytes + 7 - 2 ^ 32) by word. rewrite E. rewrite Z.div_small by lia. done.
Qed.

Lemma units_enough nbytes : 0 <= nbytes < 2 ^ 31 - 16 ->
  nbytes <= HDR * (units nbytes - 1) /\ 1 <= units nbytes /\ 8 * units nbytes < 2 ^ 31.
Proof using. intros H. clear -H. destruct (units_rounds nbytes) as [[? ?] ?]; [lia |]. unfold HDR in *. lia. Qed.

Lemma malloc_ok s A nbytes :
  heap_ok s A -> 1 <= units nbytes -> 8 * units nbytes < 2 ^ 31 ->
  exists fuel0, forall fuel, (fuel0 <= fuel)%nat -> exists r, malloc fuel nbytes s = Some r /\ got s A (units nbytes) r /\
    (r.1 = 0 -> grows (brk s) (HDR * Z.max 4096 (units nbytes)) = false).
Proof.
  intros [Hb Hs] U1 U2. unfold malloc. destruct Hs as [[E ->] | [L F]].
  - rewrite E. simpl. set (s0 := set_size base 0 (set_freep base (set_ptr base base s))).
    assert (F : flist s0 [] []).
    { split; cbn [ptr size brk freep s0 set_size set_freep set_ptr circle linked app]; rewrite ?zupd_same; try done.
      - repeat constructor.
      - set_solver.
      - split; [constructor | set_solver | set_solver]. }
    exists 5%nat. intros fuel Hf. destruct (search_ok s0 [] [] (units nbytes) fuel F U1 U2 ltac:(simpl; lia)) as (r & Er & G & Hg).
    exists r. split; [exact Er |]. split; [| exact Hg]. destruct G as [G | (p & L' & G1 & G2 & G3 & G4 & G5)]; [by left | right].
    exists p, L'. split_and!; try done. set_solver.
  - rewrite (proj2 (Z.eqb_neq _ _) (flist_freep _ _ _ F)). exists (2 * length L + 5)%nat. intros fuel Hf.
    apply (search_ok s L A (units nbytes) fuel F U1 U2). lia.
Qed.

(** More fuel does not change a result. *)
Lemma find_slot_mono s bp p q f f' : find_slot f s bp p = Some q -> (f <= f')%nat -> find_slot f' s bp p = Some q.
Proof.
  revert p f'. induction f as [|f IH]; intros p [|f']; cbn [find_slot]; intros H Hf; try done; [lia |].
  repeat (case_match; [done |]). apply IH; [done | lia].
Qed.

Lemma free_mono s ap s' f f' : free f ap s = Some s' -> (f <= f')%nat -> free f' ap s = Some s'.
Proof.
  unfold free. intros H Hf. destruct (find_slot f s (ap - HDR) (freep s)) as [p|] eqn:E; [| done].
  by rewrite (find_slot_mono _ _ _ _ _ _ E Hf).
Qed.

Lemma morecore_mono s n r f f' : morecore f n s = Some r -> (f <= f')%nat -> morecore f' n s = Some r.
Proof.
  unfold morecore. destruct (sbrk _ s) as [p s1]. destruct (p =? -1); [done |]. intros H Hf.
  destruct (free f (p + HDR) _) as [s2|] eqn:E; [| done]. by rewrite (free_mono _ _ _ _ _ E Hf).
Qed.

Lemma search_mono n f : forall prevp p s r f', search f n prevp p s = Some r -> (f <= f')%nat -> search f' n prevp p s = Some r.
Proof.
  induction f as [|f IH]; intros prevp p s r [|f']; cbn [search]; intros H Hf; try done; [lia |].
  destruct (n <=? size s p); [done |]. destruct (p =? freep s); [| apply IH; [done | lia]].
  destruct (morecore f n s) as [[p' s1]|] eqn:E; [| done]. rewrite (morecore_mono _ _ _ _ _ E) by lia.
  destruct (p' =? 0); [done |]. apply IH; [done | lia].
Qed.

(** Calls of a program: [A] are the headers of the blocks it holds. *)
Inductive mstep : heap * list Z -> heap * list Z -> Prop :=
| ms_malloc fuel nbytes s A p s' :
    0 <= nbytes < 2 ^ 31 - 16 -> malloc fuel nbytes s = Some (p, s') ->
    mstep (s, A) (s', if p =? 0 then A else (p - HDR) :: A)
| ms_free fuel s A A' bp s' :
    A ≡ₚ bp :: A' -> free fuel (bp + HDR) s = Some s' -> mstep (s, A) (s', A')
| ms_sbrk n s A : 0 <= n -> mstep (s, A) (Heap (ptr s) (size s) (freep s) (brk s + n), A).

Lemma flist_perm s L A A' : A ≡ₚ A' -> flist s L A -> flist s L A'.
Proof. intros HP [F1 F2 F3 F4 Fb F5]. split; try done. eapply tiles_perm; [| exact F5]. by rewrite HP. Qed.

Lemma free_total s A bp :
  heap_ok s (bp :: A) -> exists fuel0 s', (forall fuel, (fuel0 <= fuel)%nat -> free fuel (bp + HDR) s = Some s') /\ heap_ok s' A.
Proof.
  intros [_ [[_ ?] | [L F]]]; [done |].
  destruct (free_ok s L A bp (S (S (length L))) F ltac:(lia)) as (s' & L' & E & F' & _). exists (S (S (length L))), s'. split.
  - intros fuel Hf. by eapply free_mono.
  - split; [apply F' | eauto].
Qed.

Lemma mstep_ok c c' : heap_ok c.1 c.2 -> mstep c c' -> heap_ok c'.1 c'.2.
Proof.
  intros Hok Hs. destruct Hs as [fuel nbytes s A p s' Hn E | fuel s A A' bp s' HP E | n s A Hn]; cbn [fst snd] in *.
  - destruct (units_enough nbytes Hn) as (_ & U1 & U2). destruct (malloc_ok s A nbytes Hok U1 U2) as (f0 & Hm).
    destruct (Hm (Nat.max f0 fuel) ltac:(lia)) as (r & Er & G & _).
    assert (E' : malloc (Nat.max f0 fuel) nbytes s = Some (p, s')).
    { unfold malloc in *. by eapply search_mono; [exact E | lia]. }
    rewrite E' in Er. injection Er as <-. destruct G as [[G1 [L' G2]] | (q & L' & G1 & G2 & G3 & _)]; cbn [fst snd] in *.
    + subst p. simpl. split; [apply G2 | eauto].
    + rewrite (proj2 (Z.eqb_neq _ _) G2). subst p. replace (q + HDR - HDR) with q by lia. split; [apply G3 | eauto].
  - assert (Hok' : heap_ok s (bp :: A')).
    { destruct Hok as [Q1 [[Q2 ->] | [L F]]]; [by apply Permutation_nil_cons in HP |]. split; [done |]. right. exists L. by eapply flist_perm. }
    destruct (free_total s A' bp Hok') as (f0 & s2 & E2 & Hok2).
    pose proof (free_mono _ _ _ _ (Nat.max f0 fuel) E ltac:(lia)) as E3. rewrite E2 in E3 by lia. by injection E3 as <-.
  - destruct Hok as [Q1 Q2]. split; cbn [brk]; [lia |]. destruct Q2 as [? | [L F]]; [by left | right].
    exists L. destruct F as [F1 F2 F3 F4 Fb F5]. split; cbn [size freep brk]; try done; [| lia |].
    + by eapply circle_ext; [| exact F1].
    + eapply tiles_ext; [done | | exact F5]. lia.
Qed.

(** Every heap a program reaches is well formed. *)
Lemma reach_heap_ok s0 s A :
  base + HDR <= brk s0 -> freep s0 = 0 -> reach mstep (s0, []) (s, A) -> heap_ok s A.
Proof.
  intros Hb H0 Hr. change (heap_ok (s, A).1 (s, A).2).
  refine (reach_invariant mstep (fun c => heap_ok c.1 c.2) (s0, []) (s, A) _ _ Hr); [split; [done | by left] | intros c c'; by apply mstep_ok].
Qed.
End code.

(** ** Properties *)

(** C9: blocks of the allocator never overlap.  After any sequence of [malloc], [free] of blocks held,
    and growth of the process by others, the blocks held lie above [base] and below the break and are
    pairwise disjoint, headers included; [free] of each of them returns; and [malloc] of any number
    of bytes below 2 GB returns, either 0, and only if the kernel refuses the memory it asks for, or a
    block with room for them, disjoint from every block held, whose sizes stay what they were. *)
Theorem malloc_free_safe (base : Z) (grows : Z -> Z -> bool) (s0 s : heap) (A : list Z) :
  0 < base -> base + HDR <= brk s0 -> freep s0 = 0 -> reach (mstep base grows) (s0, []) (s, A) ->
  (forall x, x ∈ A -> base + HDR <= x /\ x + HDR * size s x <= brk s) /\
  (forall x y, x ∈ A -> y ∈ A -> x <> y -> x + HDR * size s x <= y \/ y + HDR * size s y <= x) /\
  (forall x, x ∈ A -> exists fuel s', free fuel (x + HDR) s = Some s') /\
  (forall nbytes, 0 <= nbytes < 2 ^ 31 - 16 -> exists fuel p s', malloc base grows fuel nbytes s = Some (p, s') /\
     ((p = 0 /\ grows (brk s) (HDR * Z.max 4096 (units nbytes)) = false) \/ let b := p - HDR in
        p + nbytes <= b + HDR * size s' b /\ b + HDR * size s' b <= brk s' /\
        forall x, x ∈ A -> size s' x = size s x /\ (x + HDR * size s x <= b \/ b + HDR * size s' b <= x))).
Proof.
  intros Hb Hbrk H0 Hr.
  pose proof (reach_heap_ok base grows Hb s0 s A Hbrk H0 Hr) as Hok.
  assert (HT : forall z, z ∈ A -> tiles base (size s) (brk s) A).
  { intros z Hz. destruct Hok as [_ [[_ ->] | [L F]]]; [by apply not_elem_of_nil in Hz |]. destruct (fl_tiles _ _ _ _ F) as [T1 T2 T3].
    apply list.NoDup_app in T1 as (_ & _ & T1). split; [done | intros x Hx; apply T2; set_solver | intros x y Hx Hy; apply T3; set_solver]. }
  split_and!.
  - intros x Hx. destruct (tl_in _ _ _ _ (HT x Hx) x Hx) as (Q1 & _ & Q2). done.
  - intros x y Hx Hy. apply (HT x Hx); done.
  - intros x Hx. assert (HP : exists A', A ≡ₚ x :: A').
    { apply list_elem_of_split in Hx as (l1 & l2 & ->). exists (l1 ++ l2). symmetry. apply Permutation_middle. }
    destruct HP as [A' HP]. destruct (free_total base grows s A' x) as (f & s' & E & _).
    { destruct Hok as [Q1 [[Q2 ->] | [L F]]]; [by apply Permutation_nil_cons in HP |]. split; [done |]. right. exists L. by eapply flist_perm. }
    exists f, s'. by apply E.
  - intros nbytes Hn. destruct (units_enough nbytes Hn) as (U & U1 & U2). destruct (malloc_ok base grows Hb s A nbytes Hok U1 U2) as (f & Hm).
    destruct (Hm f ltac:(lia)) as ([p s'] & E & G & Hg). exists f, p, s'. split; [done |].
    destruct G as [[G _] | (q & L' & G1 & G2 & G3 & G4 & G5)]; cbn [fst snd] in *; [left; auto | right]. subst p.
    replace (q + HDR - HDR) with q by lia.
    pose proof (fl_tiles _ _ _ _ G3) as T. destruct (tl_in _ _ _ _ T q ltac:(set_solver)) as (_ & _ & Hq).
    unfold HDR in *. split_and!; [lia | done |]. intros x Hx. rewrite <- (G5 x Hx). split; [done |].
    apply (tl_disj _ _ _ _ T); [set_solver | set_solver |]. intros ->.
    pose proof (tl_nodup _ _ _ _ T) as Q. apply list.NoDup_app in Q as (_ & _ & Q). apply list.NoDup_cons in Q as [? _]. done.
Qed.

Definition fresh_heap : heap := Heap (fun _ => 0) (fun _ => 0) 0 8192.

(** Two blocks taken and the first given back. *)
Lemma malloc_free_safe_witness :
  exists s A, length A = 1%nat /\ (forall x, x ∈ A -> 4096 + HDR <= x /\ x + HDR * size s x <= brk s).
Proof.
  destruct (malloc 4096 (fun _ _ => true) 10 100 fresh_heap) as [[p1 s1]|] eqn:E1; [| discriminate E1].
  destruct (malloc 4096 (fun _ _ => true) 10 200 s1) as [[p2 s2]|] eqn:E2; [| vm_compute in E1; injection E1 as <- <-; discriminate E2].
  destruct (free 10 (p1 - HDR + HDR) s2) as [s3|] eqn:E3; [| vm_compute in E1; injection E1 as <- <-; vm_compute in E2; injection E2 as <- <-; discriminate E3].
  assert (N1 : p1 <> 0) by (vm_compute in E1; injection E1 as <- _; discriminate).
  assert (N2 : p2 <> 0) by (vm_compute in E1; injection E1 as <- <-; vm_compute in E2; injection E2 as <- _; discriminate).
  exists s3, [p2 - HDR]. split; [done |].
  refine (proj1 (malloc_free_safe 4096 (fun _ _ => true) fresh_heap s3 [p2 - HDR] _ _ _ _)); [done | done | done |].
  eapply (reach_step _ _ (s2, [p2 - HDR; p1 - HDR])); [eapply (reach_step _ _ (s1, [p1 - HDR])); [eapply reach_step; [apply reach_refl |] |] |].
  - pose proof (ms_malloc 4096 (fun _ _ => true) 10 100 fresh_heap [] p1 s1 ltac:(lia) E1) as Q.
    by rewrite (proj2 (Z.eqb_neq p1 0) N1) in Q.
  - pose proof (ms_malloc 4096 (fun _ _ => true) 10 200 s1 [p1 - HDR] p2 s2 ltac:(lia) E2) as Q.
    by rewrite (proj2 (Z.eqb_neq p2 0) N2) in Q.
  - eapply ms_free; [apply Permutation_swap | exact E3].
Defined.

(** C40: how [malloc] rounds a request.  Up to 2^32 - 8 bytes, the headers it looks for are the one of
    the block and the fewest that hold the bytes.  A larger request wraps around: in every heap a
    program can reach, [malloc] of more than 2^32 - 8 bytes returns, and unless the kernel refuses
    memory it returns a block that ends where the bytes asked for should begin. *)
Theorem malloc_rounds_request (base : Z) (grows : Z -> Z -> bool) (s0 s : heap) (A : list Z) (nbytes : Z) :
  0 < base -> base + HDR <= brk s0 -> freep s0 = 0 -> reach (mstep base grows) (s0, []) (s, A) ->
  (0 <= nbytes <= 2 ^ 32 - 8 -> nbytes <= HDR * (units nbytes - 1) < nbytes + HDR) /\
  (2 ^ 32 - 8 < nbytes < 2 ^ 32 -> exists fuel p s', malloc base grows fuel nbytes s = Some (p, s') /\
     ((p = 0 /\ grows (brk s) (HDR * 4096) = false) \/
      (p <> 0 /\ let b := p - HDR in b + HDR * size s' b = p))).
Proof.
  intros Hb Hbrk H0 Hr. pose proof (reach_heap_ok base grows Hb s0 s A Hbrk H0 Hr) as Hok. split.
  - intros Hn. by apply units_rounds.
  - intros Hn. pose proof (units_wraps nbytes Hn) as U.
    destruct (malloc_ok base grows Hb s A nbytes Hok) as (f & Hm); [lia | lia |].
    destruct (Hm f ltac:(lia)) as ([p s'] & E & G & Hg). rewrite U in *. exists f, p, s'. split; [done |].
    destruct G as [[G _] | (q & L' & G1 & G2 & _ & G4 & _)]; cbn [fst snd] in *; [left; auto | right]. subst p.
    split; [done |]. cbv zeta. replace (q + HDR - HDR) with q by lia. rewrite G4. lia.
Qed.

(** malloc(0xffffffff) on a fresh heap, with a kernel that has memory. *)
Lemma malloc_rounds_request_witness :
  units 100 = 14 /\ exists fuel p s', malloc 4096 (fun _ _ => true) fuel (2 ^ 32 - 1) fresh_heap = Some (p, s') /\
    p <> 0 /\ p - HDR + HDR * size s' (p - HDR) = p.
Proof.
  split; [reflexivity |].
  destruct (malloc_rounds_request 4096 (fun _ _ => true) fresh_heap fresh_heap [] (2 ^ 32 - 1)) as [_ H];
    [done | done | done | apply reach_refl |].
  destruct H as (f & p & s' & E & [[_ ?] | [H1 H2]]); [lia | done |]. by exists f, p, s'.
Defined.
