(* ===== verification/Grep.v ===== *)
(** * grep.c: pattern matching and the search for lines

    The matcher of grep is compared with the language its pattern denotes; the line loop with the
    selection of the matching lines of a file.  Strings are lists of bytes without their NUL. *)
From S2P Require Import Prelude.
#[local] Open Scope Z_scope.

Definition star : Z := 42.
Definition dot : Z := 46.
Definition caret : Z := 94.
Definition dollar : Z := 36.
Definition newline : Z := 10.

(** [re[0]=='.' || re[0]==*text] *)
Definition same (c x : Z) : bool := (c =? dot) || (c =? x).

(** [matchstar(c, re, text)], given [matchhere(re, -)]. *)
Fixpoint matchstar (here : list Z -> bool) (c : Z) (text : list Z) : bool :=
  here text ||
  match text with
  | [] => false
  | x :: text' => ((x =? c) || (c =? dot)) && matchstar here c text'
  end.

Fixpoint matchhere (re text : list Z) {struct re} : bool :=
  match re with
  | [] => true
  | c :: re1 =>
      if bool_decide (head re1 = Some star) then
        match re1 with _ :: re2 => matchstar (matchhere re2) c text | [] => false end
      else if (c =? dollar) && bool_decide (re1 = []) then bool_decide (text = [])
      else match text with
           | x :: text' => same c x && matchhere re1 text'
           | [] => false
           end
  end.

(** The [do ... while] loop of [match] over the positions of the text. *)
Fixpoint match_at (re text : list Z) : bool :=
  matchhere re text || match text with [] => false | _ :: text' => match_at re text' end.

Definition match_ (re text : list Z) : bool :=
  match re with
  | c :: re1 => if c =? caret then matchhere re1 text else match_at re text
  | [] => match_at re text
  end.

(** ** The line loop *)

Definition BUFSIZE : nat := 1024.

(** [strchr(p, '\n')] in the NUL-terminated bytes from [p] on: what comes before the newline, and
    what is after it. *)
Fixpoint split_line (p : list Z) : option (list Z * list Z) :=
  match p with
  | [] => None
  | c :: p' => if c =? 0 then None else if c =? newline then Some ([], p')
               else match split_line p' with Some (q, r) => Some (c :: q, r) | None => None end
  end.

(** The inner loop on the bytes in the buffer: the output, and the bytes from [p] to the end. *)
Fixpoint grep_lines (fuel : nat) (pattern p : list Z) : list Z * list Z :=
  match fuel with
  | O => ([], p)
  | S f =>
      match split_line p with
      | None => ([], p)
      | Some (q, rest) =>
          let '(out, tail) := grep_lines f pattern rest in
          ((if match_ pattern q then q ++ [newline] else []) ++ out, tail)
      end
  end.

(** [grep] on a file given by what its successive reads return, the argument of each being the room
    in the buffer: [m] bytes of [buf] are in use.  A read of nothing ends the loop. *)
Fixpoint grep (fuel : nat) (read : nat -> list Z -> list Z * list Z) (pattern buf file : list Z) : list Z :=
  match fuel with
  | O => []
  | S f =>
      let '(got, file') := read (BUFSIZE - length buf - 1)%nat file in
      match got with
      | [] => []
      | _ =>
          let buf1 := buf ++ got in
          let '(out, tail) := grep_lines (S (length buf1)) pattern buf1 in
          let keep := if (length tail =? length buf1)%nat then [] else tail in
          out ++ grep f read pattern keep file'
      end
  end.

(** ** The language of a pattern *)

Inductive item := One (c : Z) | Star (c : Z).

(** The items of a pattern without its leading caret, and whether it ends at the end of the line. *)
Fixpoint parse (re : list Z) : list item * bool :=
  match re with
  | [] => ([], false)
  | c :: re1 =>
      match re1 with
      | d :: re2 => if d =? star then let '(its, e) := parse re2 in (Star c :: its, e)
                    else let '(its, e) := parse re1 in (One c :: its, e)
      | [] => if c =? dollar then ([], true) else ([One c], false)
      end
  end.

Inductive denotes : list item -> list Z -> Prop :=
| den_nil : denotes [] []
| den_one c x its u : same c x = true -> denotes its u -> denotes (One c :: its) (x :: u)
| den_zero c its u : denotes its u -> denotes (Star c :: its) u
| den_more c x its u : same c x = true -> denotes (Star c :: its) u -> denotes (Star c :: its) (x :: u).

(** A prefix of the text is in the language, the whole text if the pattern ends with a dollar. *)
Definition begins (p : list item * bool) (text : list Z) : Prop :=
  exists u v, text = u ++ v /\ denotes p.1 u /\ (p.2 = true -> v = []).

Lemma begins_nil e text : begins ([], e) text <-> (e = true -> text = []).
Proof.
  split.
  - intros (u & v & -> & Hd & He) E. inversion Hd; subst. by apply He.
  - intros He. exists [], text. split_and!; [done | constructor | done].
Qed.

Lemma begins_one c its e text :
  begins (One c :: its, e) text <-> exists x text', text = x :: text' /\ same c x = true /\ begins (its, e) text'.
Proof.
  split.
  - intros (u & v & -> & Hd & He). inversion Hd; subst. eexists _, _. split_and!; [done | done |]. eexists _, _. by split_and!.
  - intros (x & text' & -> & Hs & u & v & -> & Hd & He). exists (x :: u), v. split_and!; [done | by constructor | done].
Qed.

Lemma begins_star c its e text :
  begins (Star c :: its, e) text <->
  begins (its, e) text \/ exists x text', text = x :: text' /\ same c x = true /\ begins (Star c :: its, e) text'.
Proof.
  split.
  - intros (u & v & -> & Hd & He). inversion Hd; subst; [left; eexists _, _; by split_and! | right].
    eexists _, _. split_and!; [done | done |]. eexists _, _. by split_and!.
  - intros [(u & v & -> & Hd & He) | (x & text' & -> & Hs & u & v & -> & Hd & He)].
    + exists u, v. split_and!; [done | by apply den_zero | done].
    + exists (x :: u), v. split_and!; [done | by apply den_more | done].
Qed.

Lemma matchstar_begins here c its e :
  (forall text, here text = true <-> begins (its, e) text) ->
  forall text, matchstar here c text = true <-> begins (Star c :: its, e) text.
Proof.
  intros Hh. induction text as [|x text IH]; cbn [matchstar]; rewrite orb_true_iff, begins_star, Hh.
  - split; [intros [? | ?]; [by left | done] | intros [? | (x & t & ? & _)]; [by left | done]].
  - rewrite andb_true_iff, IH. assert (Hs : (x =? c) || (c =? dot) = same c x).
    { unfold same. rewrite orb_comm. f_equal. apply Z.eqb_sym. }
    rewrite Hs. split; (intros [? | H]; [by left | right]).
    + eauto.
    + destruct H as (y & t & [= -> ->] & ? & ?). done.
Qed.

Lemma parse_one c d re : d <> star -> parse (c :: d :: re) = (One c :: (parse (d :: re)).1, (parse (d :: re)).2).
Proof. intros Hd. change (parse (c :: d :: re)) with (if d =? star then let '(its, e) := parse re in (Star c :: its, e)
    else let '(its, e) := parse (d :: re) in (One c :: its, e)).
  rewrite (proj2 (Z.eqb_neq _ _) Hd). by destruct (parse (d :: re)).
Qed.

Lemma parse_star c re : parse (c :: star :: re) = (Star c :: (parse re).1, (parse re).2).
Proof. cbn [parse]. rewrite Z.eqb_refl. by destruct (parse re). Qed.

Lemma matchhere_begins re : forall text, matchhere re text = true <-> begins (parse re) text.
Proof.
  induction re as [re IH] using (well_founded_induction (well_founded_ltof _ (@length Z))). intros text.
  destruct re as [|c [|d re]].
  - cbn [matchhere parse]. rewrite begins_nil. done.
  - cbn [matchhere parse head]. rewrite bool_decide_eq_false_2 by done. rewrite bool_decide_eq_true_2, andb_true_r by done.
    destruct (c =? dollar).
    + rewrite begins_nil, bool_decide_eq_true. naive_solver.
    + rewrite begins_one. destruct text as [|x text]; [naive_solver |]. rewrite andb_true_r. setoid_rewrite begins_nil. naive_solver.
  - destruct (Z.eqb_spec d star) as [-> | Hd].
    + rewrite parse_star. cbn [matchhere head]. rewrite bool_decide_eq_true_2 by done.
      pose proof (fun t => IH re ltac:(unfold ltof; simpl; lia) t) as IH'. destruct (parse re) as [its e]. by apply matchstar_begins.
    + rewrite parse_one by done. pose proof (fun t => IH (d :: re) ltac:(unfold ltof; simpl; lia) t) as IH'.
      destruct (parse (d :: re)) as [its e]. remember (d :: re) as re1 eqn:E1. cbn [matchhere fst snd].
      rewrite bool_decide_eq_false_2 by (subst; naive_solver).
      rewrite (bool_decide_eq_false_2 (re1 = [])), andb_false_r by (by subst).
      rewrite begins_one. destruct text as [|x text]; [naive_solver |]. rewrite andb_true_iff, IH'. naive_solver.
Qed.

Lemma match_at_spec re text :
  match_at re text = true <-> exists pre rest, text = pre ++ rest /\ matchhere re rest = true.
Proof.
  induction text as [|x text IH]; cbn [match_at]; rewrite orb_true_iff.
  - split; [intros [? | ?]; [by exists [], [] | done] | intros (pre & rest & E & Hm)].
    symmetry in E. apply app_nil in E as [-> ->]. by left.
  - rewrite IH. split.
    + intros [? | (pre & rest & -> & ?)]; [by exists [], (x :: text) | by exists (x :: pre), rest].
    + intros ([|y pre] & rest & E & Hm); simpl in E; [subst; by left |]. injection E as -> ->. right. eauto.
Qed.

(** The text contains a piece of the language, at its beginning after a caret and up to its end
    before a dollar. *)
Definition contains (re text : list Z) : Prop :=
  let anchored := bool_decide (head re = Some caret) in
  let p := parse (if anchored then tail re else re) in
  exists pre u post, text = pre ++ u ++ post /\ denotes p.1 u /\ (anchored = true -> pre = []) /\ (p.2 = true -> post = []).

(** C12: the matcher of grep decides the language of its pattern.  [match] answers yes exactly when some
    piece of the text is a word of the pattern, read as a sequence of characters, dots and starred
    characters; a leading caret ties the piece to the start of the text and a final dollar to its
    end.  The search for the longest or shortest repetition never makes it miss a match. *)
Theorem match_decides_language (re text : list Z) : match_ re text = true <-> contains re text.
Proof.
  unfold contains, match_. destruct re as [|c re].
  - cbn [head tail]. rewrite bool_decide_eq_false_2 by done. rewrite match_at_spec. setoid_rewrite matchhere_begins.
    unfold begins. naive_solver.
  - cbn [head tail]. destruct (Z.eqb_spec c caret) as [-> | Hc].
    + rewrite bool_decide_eq_true_2 by done. rewrite matchhere_begins. unfold begins. split.
      * intros (u & v & -> & Hd & He). exists [], u, v. by split_and!.
      * intros (pre & u & post & -> & Hd & Hp & He). rewrite Hp by done. exists u, post. by split_and!.
    + rewrite bool_decide_eq_false_2 by congruence. rewrite match_at_spec. setoid_rewrite matchhere_begins.
      unfold begins. naive_solver.
Qed.

(** ** The lines of a file *)

(** The lines that end in a newline, without it, and what follows the last newline. *)
Fixpoint cut (p : list Z) : list (list Z) * list Z :=
  match p with
  | [] => ([], [])
  | c :: p' =>
      let '(ls, r) := cut p' in
      if c =? newline then ([] :: ls, r)
      else match ls with [] => ([], c :: r) | l :: ls' => ((c :: l) :: ls', r) end
  end.

(** The matching lines, as grep prints them. *)
Definition selected (pattern : list Z) (ls : list (list Z)) : list Z :=
  mjoin ((fun l => if match_ pattern l then l ++ [newline] else []) <$> ls).

Lemma selected_app pattern ls ls' : selected pattern (ls ++ ls') = selected pattern ls ++ selected pattern ls'.
Proof. unfold selected. by rewrite fmap_app, join_app. Qed.

Lemma cut_pre a b :
  newline ∉ a -> cut (a ++ b) = match (cut b).1 with [] => ([], a ++ (cut b).2) | l :: ls => ((a ++ l) :: ls, (cut b).2) end.
Proof.
  induction a as [|c a IH]; intros Ha; simpl; [destruct (cut b) as [[|] ?]; done |].
  apply not_elem_of_cons in Ha as [Hc Ha]. rewrite IH by done. rewrite (proj2 (Z.eqb_neq c newline)) by done.
  by destruct (cut b) as [[|] ?].
Qed.

Lemma cut_none a : newline ∉ a -> cut a = ([], a).
Proof. intros Ha. rewrite <- (app_nil_r a) at 1. rewrite cut_pre by done. simpl. by rewrite app_nil_r. Qed.

Lemma cut_line q p : newline ∉ q -> cut (q ++ newline :: p) = (q :: (cut p).1, (cut p).2).
Proof. intros Hq. rewrite cut_pre by done. simpl. destruct (cut p) as [ls r]. simpl. by rewrite app_nil_r. Qed.

Lemma cut_app a b : cut (a ++ b) = ((cut a).1 ++ (cut ((cut a).2 ++ b)).1, (cut ((cut a).2 ++ b)).2).
Proof.
  induction a as [|c a IH]; simpl; [by destruct (cut b) |]. rewrite IH. destruct (cut a) as [ls r]. simpl.
  destruct (c =? newline) eqn:Ec; [done |]. destruct ls as [|l ls]; simpl; [| done].
  rewrite Ec. by destruct (cut (r ++ b)) as [[|] ?].
Qed.

Lemma cut_rest p : newline ∉ (cut p).2.
Proof.
  induction p as [|c p IH]; simpl; [apply not_elem_of_nil |]. destruct (cut p) as [ls r]. simpl in *.
  destruct (Z.eqb_spec c newline); [done |]. destruct ls; simpl; [| done]. by apply not_elem_of_cons.
Qed.

Lemma cut_rest_length p : (cut p).1 <> [] -> (length (cut p).2 < length p)%nat.
Proof.
  induction p as [|c p IH]; simpl; [done |]. pose proof (fun H => IH H) as IH'. clear IH.
  assert (Hle : (length (cut p).2 <= length p)%nat).
  { clear. induction p as [|c p IH]; simpl; [lia |]. destruct (cut p) as [[|] ?]; simpl in *; destruct (c =? newline); simpl; lia. }
  destruct (cut p) as [ls r]. simpl in *. destruct (c =? newline); simpl; [lia |]. destruct ls; simpl; [done | lia].
Qed.

Lemma cut_whole p : (cut p).1 = [] -> (cut p).2 = p.
Proof.
  induction p as [|c p IH]; simpl; [done |]. destruct (cut p) as [ls r]. simpl in *.
  destruct (c =? newline); [done |]. destruct ls; simpl; [| done]. intros _. f_equal. by apply IH.
Qed.

Lemma cut_subset p c : c ∈ (cut p).2 -> c ∈ p.
Proof.
  induction p as [|d p IH]; simpl; [done |]. destruct (cut p) as [ls r]. simpl in *.
  destruct (d =? newline); simpl; [set_solver |]. destruct ls; simpl; set_solver.
Qed.

Lemma split_line_spec p :
  0 ∉ p -> match split_line p with
           | None => newline ∉ p
           | Some (q, r) => p = q ++ newline :: r /\ newline ∉ q
           end.
Proof.
  induction p as [|c p IH]; intros Hz; simpl; [apply not_elem_of_nil |]. apply not_elem_of_cons in Hz as [Hc Hz].
  rewrite (proj2 (Z.eqb_neq c 0)) by done. destruct (Z.eqb_spec c newline) as [-> | Hn]; [split; [done | apply not_elem_of_nil] |].
  specialize (IH Hz). destruct (split_line p) as [[q r]|].
  - destruct IH as [-> Hq]. split; [done | by apply not_elem_of_cons].
  - by apply not_elem_of_cons.
Qed.

Lemma grep_lines_spec fuel pattern : forall p,
  0 ∉ p -> (length p < fuel)%nat -> grep_lines fuel pattern p = (selected pattern (cut p).1, (cut p).2).
Proof.
  induction fuel as [|f IH]; intros p Hz Hf; [lia |]. cbn [grep_lines]. pose proof (split_line_spec p Hz) as Hs.
  destruct (split_line p) as [[q r]|].
  - destruct Hs as [-> Hq]. rewrite cut_line by done. rewrite length_app in Hf. simpl in Hf. rewrite IH by (set_solver || lia).
    done.
  - by rewrite cut_none.
Qed.

(** ** Properties *)

(** Reads from a regular file: as much as there is room for. *)
Definition read_file (k : nat) (file : list Z) : list Z * list Z := (take k file, drop k file).

(** C33: grep prints the matching lines.  On a regular file without NULs whose lines have at most 1022
    bytes, whatever their number and however they lie across the 1024-byte buffer, the output is the
    lines that match, in order, each with its newline; the loop ends within one read per byte.  A
    last line without a newline is not printed. *)
Theorem grep_prints_matching_lines (pattern file : list Z) :
  0 ∉ file -> Forall (fun l => length l <= 1022)%nat (cut file).1 ->
  grep (S (length file)) read_file pattern [] file = selected pattern (cut file).1.
Proof.
  intros Hz Hl. enough (Hgen : forall fuel keep file, 0 ∉ keep ++ file -> newline ∉ keep -> (length keep <= 1022)%nat ->
    Forall (fun l => length l <= 1022)%nat (cut (keep ++ file)).1 -> (length file < fuel)%nat ->
    grep fuel read_file pattern keep file = selected pattern (cut (keep ++ file)).1).
  { apply (Hgen (S (length file)) [] file); [done | apply not_elem_of_nil | simpl; lia | done | lia]. }
  clear. induction fuel as [|f IH]; intros keep file Hz Hk Hkl Hl Hf; [lia |].
  cbn [grep]. unfold read_file at 1, BUFSIZE.
  set (k := (1024 - length keep - 1)%nat). assert (Ek : k = (1023 - length keep)%nat) by (unfold k; lia). clearbody k.
  destruct (take k file) as [|g got] eqn:Eg.
  { destruct file as [|c file]; [| destruct k; [lia | done]]. rewrite app_nil_r. by rewrite cut_none. }
  assert (Hne : (0 < length (take k file))%nat) by (rewrite Eg; simpl; lia).
  rewrite <- Eg. clear g got Eg. pose proof (take_drop k file) as Efile.
  assert (Hrest : drop k file = [] \/ length (take k file) = k).
  { rewrite length_take. destruct (decide (k <= length file)%nat); [right; lia | left; apply drop_ge; lia]. }
  assert (Hgk : (length (take k file) <= k)%nat) by (rewrite length_take; lia).
  remember (take k file) as got. remember (drop k file) as rest. clear Heqgot Heqrest. subst file.
  rewrite app_assoc in Hz, Hl |- *. set (b := keep ++ got) in *. assert (Hb : length b = (length keep + length got)%nat) by apply length_app.
  rewrite length_app in Hf. rewrite grep_lines_spec by (set_solver || lia). rewrite (cut_app b rest). cbn [fst snd]. rewrite selected_app. f_equal.
  rewrite (cut_app b rest) in Hl. cbn [fst snd] in Hl. apply Forall_app in Hl as [Hl1 Hl2]. pose proof (cut_rest b) as Hr.
  destruct (Nat.eqb_spec (length (cut b).2) (length b)) as [E | E].
  - assert (Hnb : (cut b).1 = []). { destruct (cut b).1 eqn:Ec; [done |]. pose proof (cut_rest_length b) as Hlt. rewrite Ec in Hlt. specialize (Hlt ltac:(done)). lia. }
    assert (Eb : (cut b).2 = b) by (by apply cut_whole).
    rewrite Eb in *. rewrite cut_pre in Hl2 |- * by done.
    destruct Hrest as [-> | Hfull].
    + simpl. destruct f; [lia |]. cbn [grep]. unfold read_file. by rewrite take_nil.
    + rewrite IH; [| set_solver | apply not_elem_of_nil | simpl; lia | | lia].
      * simpl. destruct (cut rest) as [[|l ls] r]; [done |]. simpl in Hl2. apply list.Forall_cons in Hl2 as [Hl2 _].
        rewrite length_app in Hl2. exfalso. lia.
      * simpl. destruct (cut rest) as [[|l ls] r]; simpl in *; [constructor |]. apply list.Forall_cons in Hl2 as [Hl2 _].
        rewrite length_app in Hl2. exfalso. lia.
  - assert (Hlt : (length (cut b).2 < length b)%nat).
    { apply cut_rest_length. intros E0. by rewrite (cut_whole b E0) in E. }
    apply IH; [| done | lia | done | lia].
    intros [Hc%cut_subset | Hc]%elem_of_app; set_solver.
Qed.

Lemma grep_prints_matching_lines_witness :
  grep 14 read_file [108; 42; 111; 36] [] [104; 101; 108; 108; 111; 10; 97; 98; 10; 108; 111; 10; 111] =
    [104; 101; 108; 108; 111; 10; 108; 111; 10].
Proof.
  etransitivity; [apply (grep_prints_matching_lines [108; 42; 111; 36] [104; 101; 108; 108; 111; 10; 97; 98; 10; 108; 111; 10; 111]) |].
  - set_solver.
  - repeat constructor; simpl; lia.
  - reflexivity.
Defined.

(** Reads that deliver a file piece by piece, as a pipe does: pieces are separated by NULs. *)
Fixpoint read_pieces (k : nat) (file : list Z) : list Z * list Z :=
  match k, file with
  | O, _ => ([], file)
  | _, [] => ([], [])
  | S k', c :: f => if c =? 0 then ([], f) else let '(g, f') := read_pieces k' f in (c :: g, f')
  end.

(** Grep loses a line that arrives in pieces.  When a read returns the beginning of a line and no
    newline, as a read from a pipe can, grep throws it away: the line "hello" that arrives as "hel"
    and "lo" is not printed although the pattern matches it, while the same bytes in one read are
    printed. *)
Theorem grep_drops_split_line :
  match_ [104; 101; 108; 108; 111] [104; 101; 108; 108; 111] = true /\
  grep 8 read_file [104; 101; 108; 108; 111] [] [104; 101; 108; 108; 111; 10] = [104; 101; 108; 108; 111; 10] /\
  grep 8 read_pieces [104; 101; 108; 108; 111] [] [104; 101; 108; 0; 108; 111; 10] = [].
Proof. split_and!; reflexivity. Qed.
