(* ===== verification/UserText.v ===== *)
(** * Text tools: wc.c, and head.c, tail.c and cmp.c of exercise 01U

    A program reads a descriptor until a read gives nothing or fails.  What a descriptor delivers is
    given as the pieces that successive reads return, none of them empty; how a text is cut into
    pieces must not matter.  Counters are mathematical integers: texts are shorter than 2^31 bytes. *)
From S2P Require Import Prelude Ulib.
#[local] Open Scope Z_scope.

(** The pieces that reads of a descriptor return, and whether the read after them fails. *)
Record source := Source { pieces_of : list (list Z); fails : bool }.
Definition text_of (s : source) : list Z := concat (pieces_of s).

(** Reads give at most [n] bytes, and at least one. *)
Definition reads_of (n : nat) (s : source) : Prop := Forall (fun p => p <> [] /\ (length p <= n)%nat) (pieces_of s).

Definition nl : Z := 10.
Definition newlines (t : list Z) : Z := Z.of_nat (length (List.filter (Z.eqb nl) t)).

(** ** wc.c *)
Module Wc.

(** [strchr(" \r\t\n\v", b)] *)
Definition space (b : Z) : bool := existsb (Z.eqb b) [32; 13; 9; 10; 11].

Record counts := Counts { lines : Z; words : Z; chars : Z; inword : bool }.

Definition count_byte (k : counts) (b : Z) : counts :=
  let c := chars k + 1 in
  let l := if b =? nl then lines k + 1 else lines k in
  if space b then Counts l (words k) c false
  else if inword k then Counts l (words k) c true
  else Counts l (words k + 1) c true.

(** The [while] loop over the reads. *)
Fixpoint count_reads (ps : list (list Z)) (k : counts) : counts :=
  match ps with [] => k | p :: ps' => count_reads ps' (foldl count_byte k p) end.

(** What is printed: the counts, or [None] for the read error. *)
Definition wc (fd : source) : option (Z * Z * Z) :=
  let k := count_reads (pieces_of fd) (Counts 0 0 0 false) in
  if fails fd then None else Some (lines k, words k, chars k).

(** The lines that [main] prints, the last being the error that ends it. *)
Inductive line := Counted (k : Z * Z * Z) (name : list Z) | ReadError | CannotOpen (name : list Z).

Definition counted (fd : source) (name : list Z) (next : list line) : list line :=
  match wc fd with Some k => Counted k name :: next | None => [ReadError] end.
Fixpoint wc_files (open : list Z -> option source) (argv : list (list Z)) : list line :=
  match argv with
  | [] => []
  | a :: rest => match open a with None => [CannotOpen a] | Some fd => counted fd a (wc_files open rest) end
  end.
Definition wc_main (open : list Z -> option source) (stdin : source) (argv : list (list Z)) : list line :=
  match argv with [] => counted stdin [] [] | _ => wc_files open argv end.

(** The words of a text: what is left between white space. *)
Fixpoint split (t cur : list Z) : list (list Z) :=
  match t with [] => [cur] | b :: t' => if space b then cur :: split t' [] else split t' (cur ++ [b]) end.
Definition words_of (t : list Z) : list (list Z) := List.filter (fun w => negb (bool_decide (w = []))) (split t []).

Lemma count_reads_concat ps : forall k, count_reads ps k = foldl count_byte k (concat ps).
Proof. induction ps as [|p ps IH]; intros k; [done |]. simpl. by rewrite IH, foldl_app. Qed.

Lemma fold_lines t : forall k, lines (foldl count_byte k t) = lines k + newlines t /\ chars (foldl count_byte k t) = chars k + Z.of_nat (length t).
Proof.
  induction t as [|b t IH]; intros k; [unfold newlines; simpl; lia |]. simpl foldl. destruct (IH (count_byte k b)) as [-> ->].
  unfold newlines. cbn [List.filter]. rewrite (Z.eqb_sym nl b). unfold count_byte. destruct (b =? nl), (space b), (inword k); simpl; lia.
Qed.

Lemma fold_words t : forall k cur, inword k = negb (bool_decide (cur = [])) ->
  words (foldl count_byte k t) = words k - (if inword k then 1 else 0) + Z.of_nat (length (List.filter (fun w => negb (bool_decide (w = []))) (split t cur))).
Proof.
  induction t as [|b t IH]; intros k cur Hk; [simpl; rewrite <- Hk; destruct (inword k); simpl; lia |]. simpl foldl. cbn [split].
  unfold count_byte at 2. destruct (space b) eqn:Hs; cbn [List.filter].
  - rewrite (IH _ []) by reflexivity. rewrite <- Hk. cbn [words inword]. destruct (inword k); cbn [length]; lia.
  - assert (Hne : negb (bool_decide (cur ++ [b] = [])) = true) by (rewrite bool_decide_eq_false_2; [done |]; by destruct cur).
    destruct (inword k) eqn:Hi; rewrite (IH _ (cur ++ [b])) by (by rewrite Hne); cbn [words inword]; lia.
Qed.

(** wc prints the number of newlines, of words and of bytes, however the text is cut into reads, and stops at a failed read. *)
Theorem wc_counts fd : wc fd = if fails fd then None else Some (newlines (text_of fd), Z.of_nat (length (words_of (text_of fd))), Z.of_nat (length (text_of fd))).
Proof.
  unfold wc. rewrite count_reads_concat. fold (text_of fd). destruct (fails fd); [done |].
  destruct (fold_lines (text_of fd) (Counts 0 0 0 false)) as [-> ->]. rewrite (fold_words _ _ []) by done. done.
Qed.
End Wc.

(** ** head.c and tail.c *)

Definition MAX_BUF : nat := 512.
Definition VERSION : list Z := [118; 101; 114; 115; 105; 111; 110].
Definition HELP : list Z := [104; 101; 108; 112].
Definition STDIN : list Z := [95; 115; 116; 100; 105; 110].

(** How a tool stops before its end: an error message by its number, the help or the version, a string read at address 0
    (a missing option value), or an argument that does not fit in [buf]. *)
Inductive stop := Error (code : Z) | Help | Version | NullArgument | Overflow.

(** ["==> %s <==\n"] *)
Definition banner (fn : list Z) : list Z := [61; 61; 62; 32] ++ fn ++ [32; 60; 61; 61; 10].

Section tool.
(** Opening a file by name, and the standard input. *)
Variable open : list Z -> option source.
Variable stdin : source.

(** The body of the loop of [head] over one buffer: the units counted and what is printed. *)
Fixpoint head_bytes (bs : list Z) (n moden l : Z) : Z * list Z :=
  match bs with
  | [] => (l, [])
  | b :: bs' =>
      if l <? n then
        let l' := if (b =? nl) && negb (moden =? 2) then l + 1 else if moden =? 2 then l + 1 else l in
        let r := head_bytes bs' n moden l' in (r.1, b :: r.2)
      else (l, [])
  end.

(** The [while] loop: what is printed, and whether the last read failed. *)
Fixpoint head_reads (ps : list (list Z)) (err : bool) (n moden l : Z) : list Z * bool :=
  match ps with
  | [] => ([], err)
  | p :: ps' =>
      if l <? n then
        let r := head_bytes p n moden l in
        let q := head_reads ps' err n moden r.1 in (r.2 ++ q.1, q.2)
      else ([], false)
  end.

(** Output and, if the program stops, how. *)
Definition head (fn : list Z) (n mode moden : Z) : list Z * option stop :=
  match (if bool_decide (fn = STDIN) then Some stdin else open fn) with
  | None => ([], Some (Error 6))
  | Some fd =>
      let top := if mode =? 2 then banner fn else [] in
      let r := head_reads (pieces_of fd) (fails fd) n moden 0 in
      (top ++ r.1, if r.2 then Some (Error 5) else None)
  end.

(** The first pass of [tail]: rows and bytes. *)
Definition tail_count (ps : list (list Z)) (moden : Z) : Z * Z :=
  foldl (fun k b => ((if (b =? nl) && negb (moden =? 2) then k.1 + 1 else k.1), k.2 + 1)) (0, 0) (concat ps).

(** The second pass over one buffer, from [nr] rows and [nb] bytes. *)
Fixpoint tail_bytes (bs : list Z) (n moden nrf nbf nr nb : Z) : Z * Z * list Z :=
  match bs with
  | [] => (nr, nb, [])
  | b :: bs' =>
      let out1 := if negb (moden =? 2) && (nrf - nr <=? n) then [b] else [] in
      let out2 := if (moden =? 2) && (nbf - nb <=? n) then [b] else [] in
      let nr' := if (b =? nl) && negb (moden =? 2) then nr + 1 else nr in
      let '(r1, r2, out) := tail_bytes bs' n moden nrf nbf nr' (nb + 1) in (r1, r2, out1 ++ out2 ++ out)
  end.
Fixpoint tail_reads (ps : list (list Z)) (n moden nrf nbf nr nb : Z) : list Z :=
  match ps with
  | [] => []
  | p :: ps' => let '(nr', nb', out) := tail_bytes p n moden nrf nbf nr nb in out ++ tail_reads ps' n moden nrf nbf nr' nb'
  end.

(** The file is read, closed, opened again by its name and read again. *)
Definition tail (fn : list Z) (n mode moden : Z) : list Z * option stop :=
  match (if bool_decide (fn = STDIN) then Some stdin else open fn) with
  | None => ([], Some (Error 6))
  | Some fd =>
      let top := if mode =? 2 then banner fn else [] in
      if fails fd then (top, Some (Error 5))
      else
        let '(nrf, nbf) := tail_count (pieces_of fd) moden in
        match open fn with
        | None => (top, Some (Error 5))      (* [read(-1, ...)] *)
        | Some fd' => (top ++ tail_reads (pieces_of fd') n moden nrf nbf 0 0, if fails fd' then Some (Error 5) else None)
        end
  end.

(** What is printed by one call and, unless it stops the program, by what follows it. *)
Definition after (r q : list Z * option stop) : list Z * option stop :=
  match r.2 with Some e => r | None => (r.1 ++ q.1, q.2) end.

(** The loop of [main] over the arguments, the same in both programs: [tool] is [head] or [tail]. *)
Fixpoint options (tool : list Z -> Z -> Z -> Z -> list Z * option stop) (argv : list (list Z)) (n mode moden : Z) : list Z * option stop :=
  match argv with
  | [] => ([], None)
  | a :: rest =>
      if (MAX_BUF <=? length a)%nat then ([], Some Overflow)
      else match a with
      | 45 :: o =>
          match o, rest with
          | 110 :: _, [] | 99 :: _, [] => ([], Some NullArgument)
          | 110 :: _, v :: rest' => if atoi v =? 0 then ([], Some (Error 3)) else options tool rest' (atoi v) mode 1
          | 99 :: _, v :: rest' => if atoi v =? 0 then ([], Some (Error 4)) else options tool rest' (atoi v) mode 2
          | 118 :: _, _ => options tool rest n 2 moden
          | 113 :: _, _ => options tool rest n 1 moden
          | 45 :: c, _ => ([], Some (if bool_decide (c = VERSION) then Version else if bool_decide (c = HELP) then Help else Error 1))
          | _, _ => ([], Some (Error 1))
          end
      | _ =>
          let more := negb (bool_decide (rest = [])) in
          let mode' := if more && (mode =? 0) then 2 else mode in
          after (tool a n mode' moden) (after (if more then [nl] else [], None) (options tool rest n mode' moden))
      end
  end.

Definition tool_main (tool : list Z -> Z -> Z -> Z -> list Z * option stop) (argv : list (list Z)) : list Z * option stop :=
  match argv with [] => tool STDIN 10 0 0 | _ => options tool argv 10 0 0 end.
Definition head_main : list (list Z) -> list Z * option stop := tool_main head.
Definition tail_main : list (list Z) -> list Z * option stop := tool_main tail.

End tool.

(** ** What head and tail should print *)

(** The lines of a text, each with its newline; the last may have none. *)
Fixpoint lines_of (t : list Z) : list (list Z) :=
  match t with
  | [] => []
  | b :: t' => if b =? nl then [b] :: lines_of t' else match lines_of t' with [] => [[b]] | l :: ls => (b :: l) :: ls end
  end.

Inductive part := Lines | Bytes.
Definition first_part (u : part) (n : nat) (t : list Z) : list Z :=
  match u with Lines => concat (take n (lines_of t)) | Bytes => take n t end.
Definition last_part (u : part) (n : nat) (t : list Z) : list Z :=
  match u with Lines => concat (drop (length (lines_of t) - n) (lines_of t)) | Bytes => drop (length t - n) t end.

(** A text that is empty or ends with a newline. *)
Definition ended (t : list Z) : Prop := List.last t nl = nl.

Definition in_part (u : part) (moden : Z) : Prop := match u with Lines => moden <> 2 | Bytes => moden = 2 end.

Lemma lines_of_concat t : concat (lines_of t) = t.
Proof.
  induction t as [|b t IH]; [done |]. cbn [lines_of]. destruct (b =? nl); [simpl; by rewrite IH |].
  destruct (lines_of t); simpl in *; by rewrite IH.
Qed.

(** As many lines as newlines, and one more when the last has none. *)
Lemma lines_of_length t : Z.of_nat (length (lines_of t)) = newlines t + (if bool_decide (List.last t nl = nl) then 0 else 1).
Proof.
  induction t as [|b t IH]; [done |]. cbn [lines_of]. unfold newlines in *. cbn [List.filter]. rewrite (Z.eqb_sym nl b).
  assert (Hl : List.last (b :: t) nl = match t with [] => b | _ => List.last t nl end) by (by destruct t). rewrite Hl.
  destruct (b =? nl) eqn:Hb; cbn [length].
  - destruct t as [|c t']; [apply Z.eqb_eq in Hb; subst b; done | lia].
  - apply Z.eqb_neq in Hb. destruct t as [|c t']; [rewrite bool_decide_eq_false_2 by done; done |]. destruct (lines_of (c :: t')) eqn:Hn; cbn [length] in *; [| lia].
    by assert (c :: t' = []) by (rewrite <- (lines_of_concat (c :: t')), Hn; done).
Qed.

Lemma head_bytes_app n moden p q : forall l,
  head_bytes (p ++ q) n moden l = (let r := head_bytes p n moden l in let r' := head_bytes q n moden r.1 in (r'.1, r.2 ++ r'.2)).
Proof.
  induction p as [|b p IH]; intros l; simpl; [by destruct (head_bytes q n moden l) |].
  destruct (l <? n) eqn:Hl; [by rewrite IH |]. destruct q; simpl; [done | by rewrite Hl].
Qed.

Lemma head_reads_concat ps n moden : forall l, head_reads ps false n moden l = ((head_bytes (concat ps) n moden l).2, false).
Proof.
  induction ps as [|p ps IH]; intros l; [done |]. cbn [head_reads concat]. rewrite head_bytes_app.
  destruct (l <? n) eqn:Hl; [by rewrite IH |]. simpl.
  assert (Hs : forall t, head_bytes t n moden l = (l, [])) by (intros [|b t]; simpl; [done | by rewrite Hl]). by rewrite !Hs.
Qed.

Lemma head_bytes_ok u n moden t : in_part u moden -> forall l, l <= n ->
  (head_bytes t n moden l).2 = first_part u (Z.to_nat (n - l)) t.
Proof.
  intros Hu. induction t as [|b t IH]; intros l Hl; [destruct u; simpl; by destruct (Z.to_nat (n - l)) |].
  cbn [head_bytes]. destruct (Z.ltb_spec l n); cycle 1. { replace (Z.to_nat (n - l)) with 0%nat by lia. by destruct u. }
  assert (Hn : Z.to_nat (n - l) = Datatypes.S (Z.to_nat (n - (l + 1)))) by lia. rewrite Hn. destruct u; simpl in Hu.
  - rewrite (proj2 (Z.eqb_neq _ _) Hu). cbn [negb]. rewrite andb_true_r. cbn [first_part lines_of snd]. destruct (b =? nl); simpl.
    + by rewrite IH by lia.
    + rewrite IH by lia. cbn [first_part]. rewrite Hn. destruct (lines_of t); simpl; by rewrite ?take_nil.
  - subst moden. rewrite Z.eqb_refl, andb_false_r. simpl. by rewrite IH by lia.
Qed.

Lemma tail_count_ok ps moden : tail_count ps moden = ((if moden =? 2 then 0 else newlines (concat ps)), Z.of_nat (length (concat ps))).
Proof.
  unfold tail_count. generalize (concat ps). intros t. transitivity ((0 + (if moden =? 2 then 0 else newlines t)), (0 + Z.of_nat (length t))); [| f_equal; lia].
  generalize 0 at 1 3. generalize 0 at 1 3. induction t as [|b t IH]; intros z y; [simpl; unfold newlines; simpl; destruct (moden =? 2); f_equal; lia |].
  simpl foldl. rewrite IH. unfold newlines. cbn [List.filter]. rewrite (Z.eqb_sym nl b).
  destruct (b =? nl), (moden =? 2); simpl; f_equal; lia.
Qed.

Lemma tail_bytes_app n moden nrf nbf p q : forall nr nb,
  tail_bytes (p ++ q) n moden nrf nbf nr nb =
  (let r := tail_bytes p n moden nrf nbf nr nb in let r' := tail_bytes q n moden nrf nbf r.1.1 r.1.2 in (r'.1.1, r'.1.2, r.2 ++ r'.2)).
Proof.
  induction p as [|b p IH]; intros nr nb; simpl; [by destruct (tail_bytes q n moden nrf nbf nr nb) as [[??]?] |].
  rewrite IH. simpl. destruct (tail_bytes p n moden nrf nbf _ (nb + 1)) as [[??]?]. simpl. by rewrite <- !app_assoc.
Qed.

Lemma tail_reads_concat n moden nrf nbf ps : forall nr nb, tail_reads ps n moden nrf nbf nr nb = (tail_bytes (concat ps) n moden nrf nbf nr nb).2.
Proof.
  induction ps as [|p ps IH]; intros nr nb; [done |]. simpl. rewrite tail_bytes_app.
  destruct (tail_bytes p n moden nrf nbf nr nb) as [[??]?]. simpl. by rewrite IH.
Qed.

(** From [nr] rows and [nb] bytes on, the rows or bytes before the last [n] are skipped. *)
Lemma tail_bytes_ok u n moden nrf nbf t : in_part u moden -> forall nr nb,
  (tail_bytes t n moden nrf nbf nr nb).2 =
  match u with Lines => concat (drop (Z.to_nat (nrf - n - nr)) (lines_of t)) | Bytes => drop (Z.to_nat (nbf - n - nb)) t end.
Proof.
  intros Hu. induction t as [|b t IH]; intros nr nb; [destruct u; simpl; by rewrite drop_nil |].
  cbn [tail_bytes]. destruct (tail_bytes t n moden nrf nbf _ (nb + 1)) as [[r1 r2] out] eqn:E. apply (f_equal snd) in E. rewrite IH in E. cbn [snd] in *. subst out.
  destruct u; simpl in Hu.
  - rewrite (proj2 (Z.eqb_neq _ _) Hu). cbn [negb andb app]. rewrite andb_true_r. cbn [lines_of]. destruct (Z.leb_spec (nrf - nr) n).
    + replace (Z.to_nat (nrf - n - nr)) with 0%nat by lia. replace (Z.to_nat (nrf - n - _)) with 0%nat by (destruct (b =? nl); lia).
      rewrite !drop_0, lines_of_concat. cbn [app]. destruct (b =? nl); simpl; [by rewrite lines_of_concat |]. pose proof (lines_of_concat t) as Hc. destruct (lines_of t); simpl in *; by rewrite <- Hc.
    + assert (Hn : Z.to_nat (nrf - n - nr) = Datatypes.S (Z.to_nat (nrf - n - (nr + 1)))) by lia. cbn [app].
      destruct (b =? nl); rewrite Hn; [done |]. destruct (lines_of t); simpl; by rewrite ?drop_nil.
  - subst moden. rewrite Z.eqb_refl. cbn [negb andb app]. destruct (Z.leb_spec (nbf - nb) n).
    + by replace (Z.to_nat (nbf - n - nb)) with 0%nat by lia; replace (Z.to_nat (nbf - n - (nb + 1))) with 0%nat by lia.
    + by replace (Z.to_nat (nbf - n - nb)) with (Datatypes.S (Z.to_nat (nbf - n - (nb + 1)))) by lia.
Qed.

Section printing.
Variable open : list Z -> option source.
Variable stdin : source.

(** A name of a file, not an option nor the name kept for the standard input, that opens and reads without error. *)
Definition plain_file (f : list Z) : Prop :=
  (length f < MAX_BUF)%nat /\ hd_error f <> Some 45 /\ f <> STDIN /\ exists fd, open f = Some fd /\ fails fd = false.
Definition contents (f : list Z) : list Z := match open f with Some fd => text_of fd | None => [] end.

(** Several files are printed under their names with an empty line between; one is printed alone. *)
Fixpoint titled (part_of : list Z -> list Z) (files : list (list Z)) : list Z :=
  match files with
  | [] => []
  | f :: rest => banner f ++ part_of (contents f) ++ (if bool_decide (rest = []) then [] else [nl]) ++ titled part_of rest
  end.
Definition page (part_of : list Z -> list Z) (files : list (list Z)) : list Z :=
  match files with [f] => part_of (contents f) | _ => titled part_of files end.

(** The options before the files, and what they ask for. *)
Inductive asks : list (list Z) -> part -> Z -> Z -> Prop :=
  | ask_default : asks [] Lines 10 0
  | ask_lines num : 0 < atoi num -> asks [[45; 110]; num] Lines (atoi num) 1
  | ask_bytes num : 0 < atoi num -> asks [[45; 99]; num] Bytes (atoi num) 2.

Definition title (mode : Z) (f : list Z) : list Z := if mode =? 2 then banner f else [].

Lemma head_file u n mode moden f : in_part u moden -> 0 <= n -> plain_file f ->
  head open stdin f n mode moden = (title mode f ++ first_part u (Z.to_nat n) (contents f), None).
Proof.
  intros Hu Hn (_ & _ & Hs & fd & Ho & Hf). unfold head, contents. rewrite (bool_decide_eq_false_2 _ Hs), Ho, Hf, head_reads_concat.
  cbn [fst snd]. rewrite (head_bytes_ok u) by (done || lia). by rewrite Z.sub_0_r.
Qed.

(** tail counts newlines, so a last line without one comes on top of the [n] lines. *)
Definition from_newlines (u : part) (n : nat) (t : list Z) : list Z :=
  match u with Lines => concat (drop (Z.to_nat (newlines t) - n) (lines_of t)) | Bytes => drop (length t - n) t end.

Lemma from_newlines_last u n t : u = Lines -> ended t -> from_newlines u n t = last_part u n t.
Proof.
  intros -> He. unfold from_newlines, last_part. pose proof (lines_of_length t) as Hl. unfold ended in He.
  rewrite (bool_decide_eq_true_2 _ He) in Hl. do 2 f_equal. lia.
Qed.

Lemma tail_file u n mode moden f : in_part u moden -> 0 <= n -> plain_file f ->
  tail open stdin f n mode moden = (title mode f ++ from_newlines u (Z.to_nat n) (contents f), None).
Proof.
  intros Hu Hn (_ & _ & Hs & fd & Ho & Hf). unfold tail, contents. rewrite (bool_decide_eq_false_2 _ Hs), Ho, Hf, tail_count_ok, tail_reads_concat.
  rewrite (tail_bytes_ok u) by done. fold (text_of fd). f_equal. unfold title, from_newlines. f_equal. destruct u; simpl in Hu.
  - rewrite (proj2 (Z.eqb_neq _ _) Hu). do 2 f_equal. lia.
  - f_equal. lia.
Qed.

Lemma file_step tool f rest n mode moden : plain_file f ->
  options tool (f :: rest) n mode moden =
  (let mode' := if negb (bool_decide (rest = [])) && (mode =? 0) then 2 else mode in
   after (tool f n mode' moden) (after (if negb (bool_decide (rest = [])) then [nl] else [], None) (options tool rest n mode' moden))).
Proof.
  intros (Hl & Hh & _). cbn [options]. rewrite (proj2 (Nat.leb_gt _ _) Hl). destruct f as [|c f]; [done |].
  assert (Hc : c <> 45) by (by intros ->). clear Hh Hl. by destruct c as [|p|p]; [| repeat (destruct p as [p|p|]; try done) |].
Qed.

(** Any tool that prints a file under its title and goes on prints the page. *)
Section tool_page.
Variable tool : list Z -> Z -> Z -> Z -> list Z * option stop.
Variables (n moden : Z) (part_of : list Z -> list Z).
Hypothesis tool_ok : forall f mode, plain_file f -> tool f n mode moden = (title mode f ++ part_of (contents f), None).

Lemma options_titled files : Forall plain_file files -> options tool files n 2 moden = (titled part_of files, None).
Proof.
  induction files as [|f files IH]; intros Hf; [done |]. apply Forall_cons_iff in Hf as [Hf Hr]. rewrite (file_step _ _ _ _ _ _ Hf). cbv zeta.
  rewrite andb_false_r, tool_ok, IH by done. unfold after. simpl. destruct (bool_decide _); simpl; by rewrite <- ?app_assoc.
Qed.

Lemma options_page files : Forall plain_file files -> options tool files n 0 moden = (page part_of files, None).
Proof.
  destruct files as [|f files]; intros Hf; [done |]. pose proof Hf as Hall. apply Forall_cons_iff in Hf as [Hf Hr].
  destruct files as [|g files].
  - rewrite file_step by done. cbv zeta. rewrite tool_ok by done. simpl. unfold after. simpl. by rewrite app_nil_r.
  - etransitivity; [| exact (options_titled _ Hall)]. rewrite !(file_step _ f) by done. done.
Qed.
End tool_page.

Lemma page_ext g h files : Forall (fun f => g (contents f) = h (contents f)) files -> page g files = page h files.
Proof.
  intros Hf. assert (Ht : titled g files = titled h files).
  { induction Hf as [|f files E _ IH]; [done |]. cbn [titled]. by rewrite E, IH. }
  destruct Hf as [|f files E Hf]; [done |]. destruct Hf; [exact E | exact Ht].
Qed.

Lemma asked_options opts u n moden files tool :
  asks opts u n moden -> files <> [] -> tool_main tool (opts ++ files) = options tool files n 0 moden.
Proof.
  intros Ha Hne. destruct Ha as [|num Hp|num Hp]; [by destruct files | |]; cbn; destruct (Z.eqb_spec (atoi num) 0); done || lia.
Qed.

Lemma lines_of_nonempty t : Forall (fun l => l <> []) (lines_of t).
Proof.
  induction t as [|b t IH]; [by apply Forall_nil |]. cbn [lines_of].
  destruct (b =? nl); [by apply Forall_cons_iff |]. destruct IH as [|l ls Hl Hls]; repeat apply List.Forall_cons; done.
Qed.


(** C35: tail -n does not print the last NUM lines of a file whose last line has no newline: it counts newlines, and prints
    one line more than asked for, so more than the help text says whenever the file has more lines than NUM. *)
Theorem tail_prints_extra_line num f :
  0 < atoi num -> plain_file f -> ~ ended (contents f) ->
  let asked := last_part Lines (Z.to_nat (atoi num)) (contents f) in
  let printed := last_part Lines (S (Z.to_nat (atoi num))) (contents f) in
  tail_main open stdin [[45; 110]; num; f] = (printed, None) /\
  (atoi num < Z.of_nat (length (lines_of (contents f))) -> (length asked < length printed)%nat).
Proof.
  intros Hn Hp He asked printed. set (n := Z.to_nat (atoi num)) in *. set (t := contents f) in *.
  pose proof (lines_of_length t) as Hl. unfold ended in He. rewrite (bool_decide_eq_false_2 _ He) in Hl. split.
  - unfold tail_main. change [[45; 110]; num; f] with ([[45; 110]; num] ++ [f]).
    rewrite (asked_options _ Lines (atoi num) 1) by (done || by constructor).
    rewrite (options_page _ _ _ (from_newlines Lines n)).
    + unfold page, from_newlines, printed, last_part. fold t. do 3 f_equal. lia.
    + intros g mode Hg. apply tail_file; [done | lia | done].
    + by apply Forall_cons_iff.
  - intros Hlt. unfold asked, printed, last_part. set (k := (length (lines_of t) - S n)%nat).
    replace (length (lines_of t) - n)%nat with (S k) by lia.
    destruct (lookup_lt_is_Some_2 (lines_of t) k) as [x Hx]; [lia |].
    rewrite (drop_S (lines_of t) x k Hx). cbn [concat]. rewrite length_app.
    assert (x <> []) by (exact (Forall_lookup_1 _ _ _ _ (lines_of_nonempty t) Hx)). destruct x; [done | cbn [length]; lia].
Qed.

(** tail of the standard input always stops with a read error: it opens the name _stdin for its second pass. *)
Theorem tail_stdin_fails : open STDIN = None -> tail_main open stdin [] = ([], Some (Error 5)).
Proof.
  intros Ho. unfold tail_main, tool_main, tail. rewrite bool_decide_eq_true_2 by done. rewrite Ho. cbn. destruct (fails stdin); [done |]. by destruct (tail_count _ _).
Qed.
End printing.

(** Three files: "a" and "c" hold three lines, read in two pieces, the last of "c" without its newline; "b" holds one. *)
Definition demo_open (f : list Z) : option source :=
  if bool_decide (f = [97]) then Some (Source [[120; 10; 121]; [10; 122; 10]] false)
  else if bool_decide (f = [98]) then Some (Source [[119; 10]] false)
  else if bool_decide (f = [99]) then Some (Source [[120; 10; 121]; [10; 122]] false) else None.


(** "tail -n 1 c" prints two lines. *)
Lemma tail_prints_extra_line_witness :
  tail_main demo_open (Source [] false) [[45; 110]; [49]; [99]] = ([121; 10; 122], None) /\
  last_part Lines 1 (contents demo_open [99]) = [122].
Proof.
  split; [| reflexivity].
  destruct (tail_prints_extra_line demo_open (Source [] false) [49] [99]) as [H _]; [by vm_compute | | by vm_compute | exact H].
  split; [vm_compute; lia | split; [done | split; [done |]]]; eexists; split; [vm_compute; reflexivity | done].
Defined.

(** ** cmp.c *)
Module Cmp.

(** What the program prints: a usage or an open error, the byte and line of a difference, the longer file with the
    number of equal bytes, or that the files are equal. *)
Inductive report := Usage | OpenError | Difference (byte line : Z) | Longer (file : Z) (same : Z) | Equals.

(** [read(fd, &c, 1)]: the result, the byte and what is left. *)
Definition read1 (t : list Z) (err : bool) : Z * Z * list Z :=
  match t with b :: t' => (1, b, t') | [] => (if err then -1 else 0, 0, []) end.

(** The [while] loop with the counters; it gives the difference found or the last [r1], [r2] and the bytes counted. *)
Fixpoint cmp_loop (t1 t2 : list Z) (e1 e2 : bool) (r2 byte_counter line_counter : Z) : report + Z * Z * Z :=
  let '(r1, c1, _) := read1 t1 e1 in
  match t1 with
  | [] => inr (r1, r2, byte_counter)
  | _ :: t1' =>
      let '(r2', c2, t2') := read1 t2 e2 in
      if 0 <? r2' then
        if negb (c1 =? c2) then inl (Difference (byte_counter + 1) line_counter)
        else cmp_loop t1' t2' e1 e2 r2' (byte_counter + 1) (if c1 =? nl then line_counter + 1 else line_counter)
      else inr (r1, r2', byte_counter)
  end.

(** [junk] is what the uninitialised [r2] holds. *)
Definition cmp (open : list Z -> option source) (junk : Z) (argv : list (list Z)) : report :=
  match argv with
  | [_; a1; a2] =>
      match open a1 with
      | None => OpenError
      | Some fd1 =>
          match open a2 with
          | None => OpenError
          | Some fd2 =>
              match cmp_loop (text_of fd1) (text_of fd2) (fails fd1) (fails fd2) junk 0 0 with
              | inl d => d
              | inr (r1, r2, n) =>
                  if (r1 <? 0) && (0 <? r2) then Longer 2 n
                  else if (0 <? r1) && (r2 <? 0) then Longer 1 n else Equals
              end
          end
      end
  | _ => Usage
  end.

Lemma cmp_loop_ok t1 : forall t2 r2 n k,
  match cmp_loop t1 t2 false false r2 n k with
  | inl d => exists p a b u1 u2, t1 = p ++ a :: u1 /\ t2 = p ++ b :: u2 /\ a <> b /\ d = Difference (n + Z.of_nat (length p) + 1) (k + newlines p)
  | inr (r1, r2', m) => (t1 `prefix_of` t2 \/ t2 `prefix_of` t1) /\ 0 <= r1 /\ (r1 = 0 \/ r2' = 0)
  end.
Proof.
  induction t1 as [|a t1 IH]; intros [|b t2] r2 n k; cbn.
  - split; [left; apply prefix_nil | lia].
  - split; [left; apply prefix_nil | lia].
  - split; [right; apply prefix_nil | lia].
  - destruct (Z.eqb_spec a b) as [->|Hab]; cbn; cycle 1.
    { exists [], a, b, t1, t2. unfold newlines. cbn. do 3 (split; [done |]). f_equal; lia. }
    specialize (IH t2 1 (n + 1) (if b =? nl then k + 1 else k)). destruct (cmp_loop t1 t2 _ _ _ _ _) as [d|[[r1 r2'] m]].
    + destruct IH as (p & x & y & u1 & u2 & -> & -> & Hne & ->). exists (b :: p), x, y, u1, u2. do 3 (split; [done |]).
      unfold newlines. cbn [List.filter length]. rewrite (Z.eqb_sym nl b). destruct (b =? nl); cbn [length]; f_equal; lia.
    + destruct IH as ([Hp|Hp] & Hr); (split; [| done]); [left | right]; by apply prefix_cons.
Qed.

(** On two files read without error, cmp gives the place of the first difference, and says that the files are equal
    when they agree up to the end of the shorter one. *)
Theorem cmp_reports open junk prog a1 a2 fd1 fd2 :
  open a1 = Some fd1 -> open a2 = Some fd2 -> fails fd1 = false -> fails fd2 = false ->
  (exists p a b u1 u2, text_of fd1 = p ++ a :: u1 /\ text_of fd2 = p ++ b :: u2 /\ a <> b /\
     cmp open junk [prog; a1; a2] = Difference (Z.of_nat (length p) + 1) (newlines p)) \/
  ((text_of fd1 `prefix_of` text_of fd2 \/ text_of fd2 `prefix_of` text_of fd1) /\ cmp open junk [prog; a1; a2] = Equals).
Proof.
  intros H1 H2 E1 E2. unfold cmp. rewrite H1, H2, E1, E2. pose proof (cmp_loop_ok (text_of fd1) (text_of fd2) junk 0 0) as Hc.
  destruct (cmp_loop _ _ _ _ _ _ _) as [d|[[r1 r2] m]]; [left | right].
  - destruct Hc as (p & a & b & u1 & u2 & Ha & Hb & Hne & ->). exists p, a, b, u1, u2. do 3 (split; [done |]). f_equal; lia.
  - destruct Hc as (Hp & Hr & Hz). split; [done |]. destruct (Z.ltb_spec r1 0); [lia |]. cbn [andb]. destruct (Z.ltb_spec 0 r1), (Z.ltb_spec r2 0); try done. lia.
Qed.
End Cmp.
