(* ===== verification/Sh.v ===== *)
(** * sh.c: the parser of the shell

    The parser reads the command line left to right; what is left of it is a suffix of the line, and
    a pointer into the line is known by how many bytes follow it.  A word is the text between the
    pointers [q] and [eq] together with the place of [eq], where [nulterminate] stores a NUL.  Errors
    are the messages given to [panic].  The recursion is given fuel; [parsecmd] has enough for any
    line. *)
From S2P Require Import Prelude.
#[local] Open Scope Z_scope.

Definition MAXARGS : nat := 10.
Definition O_RDONLY : Z := 0x000.
Definition O_WRONLY : Z := 0x001.
Definition O_CREATE : Z := 0x200.

Record word := Word { text : list Z; behind : nat }.

(** The five kinds of commands, with words of type [W]. *)
Inductive cmd (W : Type) :=
| EXEC (argv : list W)
| REDIR (c : cmd W) (file : W) (mode fd : Z)
| PIPE (left right : cmd W)
| LIST (left right : cmd W)
| BACK (c : cmd W).
Arguments EXEC {W}.
Arguments REDIR {W}.
Arguments PIPE {W}.
Arguments LIST {W}.
Arguments BACK {W}.

Inductive result (A : Type) :=
| Parsed (a : A) (s : list Z)
| Error (msg : string).
Arguments Parsed {A}.
Arguments Error {A}.

(** [strchr(toks, c)] for a list of characters; a NUL is never found. *)
Definition among (toks : list Z) (c : Z) : bool := existsb (Z.eqb c) toks.
Arguments among : simpl never.
Definition whitespace : list Z := [32; 9; 13; 10; 11].
Definition symbols : list Z := [60; 124; 62; 38; 59; 40; 41].
Definition is_word (c : Z) : bool := negb (among whitespace c) && negb (among symbols c).

Fixpoint skip (s : list Z) : list Z :=
  match s with
  | c :: s' => if among whitespace c then skip s' else s
  | [] => []
  end.

(** The length of the run of word characters. *)
Fixpoint run_length (s : list Z) : nat :=
  match s with
  | c :: s' => if is_word c then S (run_length s') else O
  | [] => O
  end.

(** The token, its text with the place of its end, and what is left: 0 at the end of the line, 97 for
    a word, 43 for [>>], and a symbol for itself. *)
Definition gettoken (s : list Z) : Z * word * list Z :=
  let s := skip s in
  let '(ret, n) :=
    match s with
    | [] => (0, O)
    | c :: s' =>
        if among [124; 40; 41; 59; 38; 60] c then (c, 1%nat)
        else if c =? 62 then if bool_decide (head s' = Some 62) then (43, 2%nat) else (62, 1%nat)
        else (97, run_length s)
    end in
  (ret, Word (take n s) (length s - n), skip (drop n s)).

Definition peek (s : list Z) (toks : list Z) : bool * list Z :=
  let s := skip s in
  (match s with c :: _ => among toks c | [] => false end, s).

Notation pcmd := (cmd word).

(** The redirections that follow: the command wrapped in them. *)
Fixpoint parseredirs (fuel : nat) (c : pcmd) (s : list Z) : result pcmd :=
  match fuel with
  | O => Error "out of fuel"
  | S f =>
      let '(b, s) := peek s [60; 62] in
      if b then
        let '(tok, _, s) := gettoken s in
        let '(tok2, w, s) := gettoken s in
        if negb (tok2 =? 97) then Error "missing file for redirection"
        else if tok =? 60 then parseredirs f (REDIR c w O_RDONLY 0) s
        else parseredirs f (REDIR c w (Z.lor O_WRONLY O_CREATE) 1) s
      else Parsed c s
  end.

(** The command [ret] with the arguments [argv] in its EXEC node, which the code fills in place. *)
Fixpoint fill (argv : list word) (ret : pcmd) : pcmd :=
  match ret with
  | REDIR c w m fd => REDIR (fill argv c) w m fd
  | _ => EXEC argv
  end.

(** The loop of [parseexec] over the arguments. *)
Fixpoint parseargs (fuel : nat) (argv : list word) (ret : pcmd) (s : list Z) : result pcmd :=
  match fuel with
  | O => Error "out of fuel"
  | S f =>
      let '(b, s) := peek s [124; 41; 38; 59] in
      if b then Parsed (fill argv ret) s
      else
        let '(tok, w, s) := gettoken s in
        if tok =? 0 then Parsed (fill argv ret) s
        else if negb (tok =? 97) then Error "syntax"
        else
          let argv := argv ++ [w] in
          if (MAXARGS <=? length argv)%nat then Error "too many args"
          else match parseredirs f ret s with
               | Error m => Error m
               | Parsed ret s => parseargs f argv ret s
               end
  end.

(** [while(peek(ps, es, "&"))] of [parseline]. *)
Fixpoint parseback (fuel : nat) (c : pcmd) (s : list Z) : result pcmd :=
  match fuel with
  | O => Error "out of fuel"
  | S f =>
      let '(b, s) := peek s [38] in
      if b then let '(_, _, s) := gettoken s in parseback f (BACK c) s else Parsed c s
  end.

Inductive level := Line | Pipe | Block | Exec.

(** [parseline], [parsepipe], [parseblock] and [parseexec]. *)
Fixpoint parse (fuel : nat) (lv : level) (s : list Z) : result pcmd :=
  match fuel with
  | O => Error "out of fuel"
  | S f =>
      match lv with
      | Line =>
          match parse f Pipe s with
          | Error m => Error m
          | Parsed c s =>
              match parseback f c s with
              | Error m => Error m
              | Parsed c s =>
                  let '(b, s) := peek s [59] in
                  if b then
                    let '(_, _, s) := gettoken s in
                    match parse f Line s with
                    | Error m => Error m
                    | Parsed d s => Parsed (LIST c d) s
                    end
                  else Parsed c s
              end
          end
      | Pipe =>
          match parse f Exec s with
          | Error m => Error m
          | Parsed c s =>
              let '(b, s) := peek s [124] in
              if b then
                let '(_, _, s) := gettoken s in
                match parse f Pipe s with
                | Error m => Error m
                | Parsed d s => Parsed (PIPE c d) s
                end
              else Parsed c s
          end
      | Block =>
          let '(b, s) := peek s [40] in
          if negb b then Error "parseblock"
          else
            let '(_, _, s) := gettoken s in
            match parse f Line s with
            | Error m => Error m
            | Parsed c s =>
                let '(b, s) := peek s [41] in
                if negb b then Error "syntax - missing )"
                else let '(_, _, s) := gettoken s in parseredirs f c s
            end
      | Exec =>
          let '(b, s) := peek s [40] in
          if b then parse f Block s
          else match parseredirs f (EXEC []) s with
               | Error m => Error m
               | Parsed ret s => parseargs f [] ret s
               end
      end
  end.

(** Each byte of the line starts at most four nested calls. *)
Definition line_fuel (s : list Z) : nat := (4 * length s + 8)%nat.

Definition parsecmd (s : list Z) : result pcmd :=
  match parse (line_fuel s) Line s with
  | Error m => Error m
  | Parsed c s => let '(_, s) := peek s [] in
                  match s with [] => Parsed c [] | _ => Error "syntax" end
  end.

(** The words of a command, in the order [nulterminate] reaches them. *)
Fixpoint words (c : pcmd) : list word :=
  match c with
  | EXEC argv => argv
  | REDIR c w _ _ => words c ++ [w]
  | PIPE l r => words l ++ words r
  | LIST l r => words l ++ words r
  | BACK c => words c
  end.

(** The line [s] after the NULs are stored. *)
Definition nulterminate (c : pcmd) (s : list Z) : list Z :=
  foldl (fun s w => <[(length s - behind w)%nat := 0]> s) s (words c).

(** ** Words and termination *)

(** [w] is a maximal run of word characters of [s], or runs to its end. *)
Definition word_ok (s : list Z) (w : word) : Prop :=
  exists pre post, s = pre ++ text w ++ post /\ length post = behind w /\ Forall (fun c => is_word c = true) (text w) /\
    text w <> [] /\ match post with [] => True | c :: _ => is_word c = false end.

Lemma word_ok_suffix s s' w : s' `suffix_of` s -> word_ok s' w -> word_ok s w.
Proof.
  intros [x ->] (pre & post & -> & H). exists (x ++ pre), post. split; [by rewrite app_assoc | done].
Qed.

Lemma skip_suffix s : skip s `suffix_of` s.
Proof. induction s as [|c s IH]; simpl; [done |]. destruct (among _ _); [| done]. destruct IH as [k E]. exists (c :: k). by rewrite E at 1. Qed.

Lemma skip_head s : match skip s with [] => True | c :: _ => among whitespace c = false end.
Proof. induction s as [|c s IH]; simpl; [done |]. by destruct (among whitespace c) eqn:E. Qed.

Lemma run_spec s :
  Forall (fun c => is_word c = true) (take (run_length s) s) /\ (run_length s <= length s)%nat /\
  match drop (run_length s) s with [] => True | c :: _ => is_word c = false end.
Proof.
  induction s as [|c s (H1 & H2 & H3)]; simpl; [done |]. destruct (is_word c) eqn:E; simpl; [| rewrite E; split_and!; [done | lia | done]].
  split_and!; [by constructor | lia | done].
Qed.

Lemma gettoken_spec s :
  let '(tok, w, s') := gettoken s in
  s' `suffix_of` s /\ (tok = 97 -> word_ok s w) /\ (skip s <> [] -> length s' < length s)%nat /\ (tok = 0 -> skip s = []).
Proof.
  unfold gettoken. pose proof (skip_suffix s) as Hsuf. pose proof (skip_head s) as Hh. destruct (skip s) as [|c r] eqn:Es.
  { simpl. split_and!; [done | done | done | done]. }
  pose proof (suffix_length _ _ Hsuf) as Hlen. pose proof (run_spec (c :: r)) as (R1 & R2 & R3).
  assert (Hgen : forall n, (1 <= n)%nat -> skip (drop n (c :: r)) `suffix_of` s /\
    (length (skip (drop n (c :: r))) < length s)%nat).
  { intros n Hn. split.
    - etransitivity; [apply skip_suffix |]. etransitivity; [| exact Hsuf]. apply suffix_drop.
    - eapply Nat.le_lt_trans; [apply suffix_length, skip_suffix |]. rewrite length_drop. simpl in *. lia. }
  destruct (among [124; 40; 41; 59; 38; 60] c) eqn:E1.
  { destruct (Hgen 1%nat ltac:(lia)). split_and!; [done | | done |]; intros ->; discriminate E1. }
  destruct (Z.eqb_spec c 62) as [-> | E2].
  { destruct (bool_decide _); [destruct (Hgen 2%nat ltac:(lia)) | destruct (Hgen 1%nat ltac:(lia))]; split_and!; done. }
  assert (Hw : is_word c = true).
  { unfold is_word. rewrite Hh. simpl. revert E1. unfold among, symbols. simpl. rewrite !orb_false_r. intros E1.
    repeat (apply orb_false_elim in E1 as [? E1]).
    rewrite (proj2 (Z.eqb_neq c 62)) by done.
    repeat match goal with H : (c =? _) = false |- _ => rewrite H; clear H end. done. }
  assert (Hn : (1 <= run_length (c :: r))%nat) by (simpl; rewrite Hw; lia).
  destruct (Hgen _ Hn) as [G1 G2]. split_and!; [done | | done | done]. intros _.
  eapply word_ok_suffix; [exact Hsuf |]. exists [], (drop (run_length (c :: r)) (c :: r)). cbn [text behind].
  split_and!; [by rewrite app_nil_l, take_drop | by rewrite length_drop | done | | done].
  destruct (run_length (c :: r)); [lia | done].
Qed.

(** A parse of [s] that did not run out of fuel: what is left is a suffix, and the words it found,
    besides those of [ws], are words of [s]. *)
Definition good (s : list Z) (ws : list word) (r : result pcmd) : Prop :=
  match r with
  | Parsed c s' => s' `suffix_of` s /\ forall w, w ∈ words c -> w ∈ ws \/ word_ok s w
  | Error m => m <> "out of fuel"
  end.

Lemma good_suffix s s' ws ws' r :
  s' `suffix_of` s -> (forall w, w ∈ ws' -> w ∈ ws \/ word_ok s w) -> good s' ws' r -> good s ws r.
Proof.
  intros Hs Hw. destruct r as [c s2 | m]; [| done]. intros [H1 H2]. split; [by etransitivity |].
  intros w Hin. destruct (H2 w Hin) as [? | ?]; [by apply Hw | right; by eapply word_ok_suffix].
Qed.

Lemma peek_eq s toks : peek s toks = (match skip s with c :: _ => among toks c | [] => false end, skip s).
Proof. done. Qed.

Lemma skip_skip s : skip (skip s) = skip s.
Proof. induction s as [|c s IH]; simpl; [done |]. destruct (among whitespace c) eqn:E; [done |]. simpl. by rewrite E. Qed.

Lemma skip_length s : (length (skip s) <= length s)%nat.
Proof. apply suffix_length, skip_suffix. Qed.

Lemma parseredirs_good fuel : forall c s, (length s < fuel)%nat -> good s (words c) (parseredirs fuel c s).
Proof.
  induction fuel as [|f IH]; intros c s Hf; [lia |]. cbn [parseredirs]. rewrite peek_eq.
  pose proof (skip_suffix s) as Hsk. pose proof (skip_length s) as Hsl.
  destruct (match skip s with c :: _ => among [60; 62] c | [] => false end) eqn:Eb.
  2: { split; [done | auto]. }
  assert (Hne : skip s <> []) by (by destruct (skip s)).
  pose proof (gettoken_spec (skip s)) as Ht. destruct (gettoken (skip s)) as [[tok w1] s1]. destruct Ht as (T1 & _ & T2 & _).
  rewrite skip_skip in T2. specialize (T2 Hne).
  pose proof (gettoken_spec s1) as Hu. destruct (gettoken s1) as [[tok2 w] s2]. destruct Hu as (U1 & U2 & _ & _).
  pose proof (suffix_length _ _ U1). destruct (Z.eqb_spec tok2 97) as [E2 | E2]; simpl; [| done].
  assert (Hs1 : s1 `suffix_of` s) by (by etransitivity). assert (Hs2 : s2 `suffix_of` s) by (by etransitivity).
  assert (Hw : word_ok s w) by (eapply word_ok_suffix; [exact Hs1 | by apply U2]).
  destruct (tok =? 60); (eapply good_suffix; [exact Hs2 | | apply IH; lia]); simpl; intros x [Hx | ->%list_elem_of_singleton]%elem_of_app; auto.
Qed.

Lemma words_fill argv ret w : w ∈ words (fill argv ret) -> w ∈ argv \/ w ∈ words ret.
Proof. induction ret; simpl; try (by left). intros [Hx | Hx]%elem_of_app; [destruct (IHret Hx); set_solver | set_solver]. Qed.

Lemma parseargs_good fuel : forall argv ret s,
  (length s < fuel)%nat -> good s (argv ++ words ret) (parseargs fuel argv ret s).
Proof.
  induction fuel as [|f IH]; intros argv ret s Hf; [lia |]. cbn [parseargs]. rewrite peek_eq.
  pose proof (skip_suffix s) as Hsk. pose proof (skip_length s) as Hsl.
  assert (Hfill : forall s', s' `suffix_of` s -> good s (argv ++ words ret) (Parsed (fill argv ret) s')).
  { intros s' Hs'. split; [done |]. intros w Hw%words_fill. left. set_solver. }
  destruct (match skip s with c :: _ => among [124; 41; 38; 59] c | [] => false end); [by apply Hfill |].
  pose proof (gettoken_spec (skip s)) as Ht. destruct (gettoken (skip s)) as [[tok w] s1]. destruct Ht as (T1 & T2 & T3 & T4).
  assert (Hs1 : s1 `suffix_of` s) by (by etransitivity).
  destruct (Z.eqb_spec tok 0) as [E0 | E0]; [by apply Hfill |].
  destruct (Z.eqb_spec tok 97) as [E1 | E1]; cbn [negb]; [| done].
  assert (Hw : word_ok s w) by (eapply word_ok_suffix; [exact Hsk | by apply T2]).
  assert (Hlen : (length s1 < length s)%nat).
  { rewrite skip_skip in T3. assert (skip s <> []); [| specialize (T3 ltac:(done)); lia].
    intros E. rewrite E in T2. destruct (T2 E1) as (pre & post & Ep & _ & _ & Hne & _). symmetry in Ep.
    apply app_nil in Ep as [_ Ep]. by apply app_nil in Ep as [? _]. }
  destruct (MAXARGS <=? length (argv ++ [w]))%nat; [done |]. pose proof (parseredirs_good f ret s1 ltac:(lia)) as Hr.
  destruct (parseredirs f ret s1) as [ret' s2 | m]; [| exact Hr]. destruct Hr as [R1 R2]. pose proof (suffix_length _ _ R1).
  eapply good_suffix; [by etransitivity | | apply IH; lia].
  intros x [[Hx | ->%list_elem_of_singleton]%elem_of_app | Hx]%elem_of_app; [left; set_solver | by right |].
  destruct (R2 x Hx); [left; set_solver | right; by eapply word_ok_suffix].
Qed.

Lemma parseback_good fuel : forall c s, (length s < fuel)%nat -> good s (words c) (parseback fuel c s).
Proof.
  induction fuel as [|f IH]; intros c s Hf; [lia |]. cbn [parseback]. rewrite peek_eq.
  pose proof (skip_suffix s) as Hsk. pose proof (skip_length s) as Hsl.
  destruct (match skip s with c :: _ => among [38] c | [] => false end) eqn:Eb; [| split; [done | auto]].
  assert (Hne : skip s <> []) by (by destruct (skip s)).
  pose proof (gettoken_spec (skip s)) as Ht. destruct (gettoken (skip s)) as [[tok w] s1]. destruct Ht as (T1 & _ & T3 & _).
  rewrite skip_skip in T3. specialize (T3 Hne). eapply good_suffix; [by etransitivity | | apply IH; lia]. auto.
Qed.

(** The depth of calls before a byte is consumed. *)
Definition rank (lv : level) : nat := match lv with Line => 4 | Pipe => 3 | Exec => 2 | Block => 1 end.

(** A token taken where a symbol was seen. *)
Lemma consume s toks :
  (match skip s with c :: _ => among toks c | [] => false end) = true ->
  let s1 := (gettoken (skip s)).2 in s1 `suffix_of` s /\ (length s1 < length s)%nat.
Proof.
  intros Eb. assert (Hne : skip s <> []) by (by destruct (skip s)). pose proof (skip_length s).
  pose proof (gettoken_spec (skip s)) as Ht. destruct (gettoken (skip s)) as [[tok w] s1]. destruct Ht as (T1 & _ & T3 & _).
  rewrite skip_skip in T3. specialize (T3 Hne). split; [etransitivity; [exact T1 | apply skip_suffix] | simpl; lia].
Qed.

Lemma parse_good fuel : forall lv s, (4 * length s + rank lv <= fuel)%nat -> good s [] (parse fuel lv s).
Proof.
  assert (Hnil : forall s w, w ∈ ([] : list word) -> w ∈ ([] : list word) \/ word_ok s w) by set_solver.
  induction fuel as [|f IH]; intros lv s Hf; [destruct lv; simpl in Hf; lia |]. destruct lv; cbn [parse]; cbn [rank] in Hf.
  - pose proof (IH Pipe s ltac:(cbn [rank]; lia)) as H1. destruct (parse f Pipe s) as [c s1 | m]; [| exact H1]. destruct H1 as [A1 A2].
    pose proof (suffix_length _ _ A1). pose proof (parseback_good f c s1 ltac:(lia)) as H2.
    destruct (parseback f c s1) as [c' s2 | m]; [| exact H2]. destruct H2 as [B1 B2]. pose proof (suffix_length _ _ B1).
    assert (Hs2 : s2 `suffix_of` s) by (by etransitivity).
    assert (Hc' : forall w, w ∈ words c' -> w ∈ ([] : list word) \/ word_ok s w).
    { intros w Hw. destruct (B2 w Hw) as [Hx | Hx]; [by apply A2 | right; exact (word_ok_suffix _ _ _ A1 Hx)]. }
    rewrite peek_eq. destruct (match skip s2 with c :: _ => among [59] c | [] => false end) eqn:Eb.
    2: { split; [etransitivity; [apply skip_suffix | done] | done]. }
    destruct (consume s2 [59] Eb) as [S3 L3]. destruct (gettoken (skip s2)) as [[tok w] s3]. cbn [snd] in *.
    pose proof (IH Line s3 ltac:(cbn [rank]; lia)) as H3. destruct (parse f Line s3) as [d s4 | m]; [| exact H3]. destruct H3 as [D1 D2].
    split; [by repeat (etransitivity; [eassumption |]) |]. simpl. intros x [Hx | Hx]%elem_of_app; [by apply Hc' |].
    destruct (D2 x Hx) as [? | Hk]; [by left | right]. eapply word_ok_suffix; [| exact Hk]. by etransitivity.
  - pose proof (IH Exec s ltac:(cbn [rank]; lia)) as H1. destruct (parse f Exec s) as [c s1 | m]; [| exact H1]. destruct H1 as [A1 A2].
    pose proof (suffix_length _ _ A1). rewrite peek_eq.
    destruct (match skip s1 with c :: _ => among [124] c | [] => false end) eqn:Eb.
    2: { split; [etransitivity; [apply skip_suffix | done] | done]. }
    destruct (consume s1 [124] Eb) as [S3 L3]. destruct (gettoken (skip s1)) as [[tok w] s3]. cbn [snd] in *.
    pose proof (IH Pipe s3 ltac:(cbn [rank]; lia)) as H3. destruct (parse f Pipe s3) as [d s4 | m]; [| exact H3]. destruct H3 as [D1 D2].
    split; [by repeat (etransitivity; [eassumption |]) |]. simpl. intros x [Hx | Hx]%elem_of_app; [by apply A2 |].
    destruct (D2 x Hx) as [? | Hk]; [by left | right]. eapply word_ok_suffix; [| exact Hk]. by etransitivity.
  - rewrite peek_eq. destruct (match skip s with c :: _ => among [40] c | [] => false end) eqn:Eb; [| done]. cbn [negb].
    destruct (consume s [40] Eb) as [S1 L1]. destruct (gettoken (skip s)) as [[tok w] s1]. cbn [snd] in *.
    pose proof (IH Line s1 ltac:(cbn [rank]; lia)) as H2. destruct (parse f Line s1) as [c s2 | m]; [| exact H2]. destruct H2 as [A1 A2].
    pose proof (suffix_length _ _ A1). rewrite peek_eq.
    destruct (match skip s2 with c :: _ => among [41] c | [] => false end) eqn:Eb2; [| done]. cbn [negb].
    destruct (consume s2 [41] Eb2) as [S3 L3]. destruct (gettoken (skip s2)) as [[tok2 w2] s3]. cbn [snd] in *.
    eapply good_suffix; [by repeat (etransitivity; [eassumption |]) | | apply parseredirs_good; lia].
    intros x Hx. destruct (A2 x Hx) as [? | Hk]; [by left | right; exact (word_ok_suffix _ _ _ S1 Hk)].
  - rewrite peek_eq. pose proof (skip_suffix s) as Hsk. pose proof (skip_length s).
    destruct (match skip s with c :: _ => among [40] c | [] => false end).
    + eapply good_suffix; [exact Hsk | apply Hnil | apply IH; cbn [rank]; lia].
    + pose proof (parseredirs_good f (EXEC []) (skip s) ltac:(lia)) as H1.
      destruct (parseredirs f (EXEC []) (skip s)) as [ret s1 | m]; [| exact H1]. destruct H1 as [A1 A2]. pose proof (suffix_length _ _ A1).
      eapply good_suffix; [by etransitivity | | apply parseargs_good; lia]. simpl. intros x Hx.
      destruct (A2 x Hx) as [? | Hk]; [by left | right]. eapply word_ok_suffix; [| exact Hk]. done.
Qed.

(** ** Strings after nulterminate *)

(** The C string at the head of a list of bytes: up to a NUL or the end. *)
Fixpoint until0 (l : list Z) : list Z :=
  match l with
  | c :: l' => if c =? 0 then [] else c :: until0 l'
  | [] => []
  end.

(** Where a word starts in a line of [n] bytes. *)
Definition start (n : nat) (w : word) : nat := (n - behind w - length (text w))%nat.

Lemma until0_spec t : forall l,
  (forall k c, t !! k = Some c -> l !! k = Some c /\ c <> 0) -> l !! length t = None \/ l !! length t = Some 0 -> until0 l = t.
Proof.
  induction t as [|c t IH]; intros l H1 H2; simpl in *.
  - destruct l as [|d l]; [done |]. simpl in *. destruct H2 as [? | [= ->]]; done.
  - destruct (H1 0%nat c eq_refl) as [E Hc]. destruct l as [|d l]; [done |]. simpl in E. injection E as ->. simpl.
    rewrite (proj2 (Z.eqb_neq c 0)) by done. f_equal. apply IH; [| done]. intros k x Hk. by apply (H1 (S k) x).
Qed.

Lemma marks_spec n ws : forall s i,
  length s = n ->
  foldl (fun s w => <[(length s - behind w)%nat := 0]> s) s ws !! i =
    if decide (i ∈ map (fun w => (n - behind w)%nat) ws) then (if decide (i < n)%nat then Some 0 else None) else s !! i.
Proof.
  induction ws as [|w ws IH]; intros s i Hs; [done |].
  cbn [foldl map]. rewrite IH by (by rewrite length_insert). rewrite Hs.
  destruct (decide (i ∈ map (fun w => (n - behind w)%nat) ws)) as [H1 | H1].
  - destruct (decide (i ∈ (n - behind w)%nat :: _)) as [_ | H2]; [done |]. destruct H2. apply elem_of_cons. by right.
  - destruct (decide (i = (n - behind w)%nat)) as [-> | Hne].
    + destruct (decide (_ ∈ (n - behind w)%nat :: _)) as [_ | H2]; [| destruct H2; apply elem_of_cons; by left].
      case_decide; [apply list_lookup_insert_eq; lia |]. apply lookup_ge_None_2. rewrite length_insert. lia.
    + destruct (decide (i ∈ (n - behind w)%nat :: _)) as [[? | ?]%elem_of_cons | _]; [done | done |].
      by apply list_lookup_insert_ne.
Qed.

(** The mark of a word does not lie in a word. *)
Lemma mark_not_word s w c : word_ok s w -> s !! (length s - behind w)%nat = Some c -> is_word c = false.
Proof.
  intros (pre & post & -> & Hp & _ & _ & Hd) Hc.
  replace (length (pre ++ text w ++ post) - behind w)%nat with (length (pre ++ text w)) in Hc by (rewrite !length_app; lia).
  rewrite app_assoc, lookup_app_r, Nat.sub_diag in Hc by lia. destruct post as [|d post]; [done |]. by injection Hc as ->.
Qed.

(** The parser of the shell is total and its words are what was typed.  For every command line,
    without NULs, [parsecmd] ends with a command or a message, never for lack of fuel; every word of the
    command, argument or file name, is a maximal run of characters other than blanks and symbols, and
    once [nulterminate] has stored its NULs over the line the C string at the start of each word is
    exactly that text: no NUL lands inside another word. *)
Theorem parsecmd_words (s : list Z) :
  0 ∉ s ->
  match parsecmd s with
  | Error m => m <> "out of fuel"
  | Parsed c _ => forall w, w ∈ words c ->
      word_ok s w /\ until0 (drop (start (length s) w) (nulterminate c s)) = text w
  end.
Proof.
  intros Hz. unfold parsecmd. pose proof (parse_good (line_fuel s) Line s) as Hg.
  specialize (Hg ltac:(unfold line_fuel, rank; lia)). destruct (parse _ Line s) as [c s' | m]; [| exact Hg].
  rewrite peek_eq. destruct (skip s'); [| done]. destruct Hg as [_ Hg].
  assert (Hok : forall w, w ∈ words c -> word_ok s w) by (intros w Hw; destruct (Hg w Hw); [set_solver | done]).
  intros w Hw. split; [by apply Hok |]. pose proof (Hok w Hw) as (pre & post & Es & Hp & Hall & Hne & _).
  assert (Hlen : length s = (length pre + length (text w) + behind w)%nat) by (rewrite Es, !length_app; lia).
  assert (Hst : start (length s) w = length pre) by (unfold start; lia). rewrite Hst.
  rewrite list.Forall_forall in Hall. apply until0_spec.
  - intros k x Hk. pose proof (lookup_lt_Some _ _ _ Hk). pose proof (list_elem_of_lookup_2 _ _ _ Hk) as Hin.
    assert (Hx : s !! (length pre + k)%nat = Some x).
    { rewrite Es, lookup_app_r by lia. rewrite lookup_app_l by lia. by replace (length pre + k - length pre)%nat with k by lia. }
    split; [| intros ->; apply Hz; by eapply list_elem_of_lookup_2].
    rewrite lookup_drop. unfold nulterminate. rewrite (marks_spec (length s)), decide_False; [done | | done].
    intros (w' & Ew & Hw')%list_elem_of_fmap. rewrite Ew in Hx. pose proof (mark_not_word s w' x (Hok w' Hw') Hx) as Hf.
    by rewrite (Hall x Hin) in Hf.
  - rewrite lookup_drop. unfold nulterminate. rewrite (marks_spec (length s)), decide_True; [| | done].
    + case_decide; [by right | by left].
    + apply list_elem_of_fmap. exists w. split; [lia | done].
Qed.

(** "ls >x|wc a": four words. *)
Lemma parsecmd_words_witness :
  match parsecmd [108; 115; 32; 62; 120; 124; 119; 99; 32; 97] with
  | Error m => m <> "out of fuel"
  | Parsed c _ => forall w, w ∈ words c -> word_ok [108; 115; 32; 62; 120; 124; 119; 99; 32; 97] w /\
      until0 (drop (start 10 w) (nulterminate c [108; 115; 32; 62; 120; 124; 119; 99; 32; 97])) = text w
  end.
Proof. apply (parsecmd_words [108; 115; 32; 62; 120; 124; 119; 99; 32; 97]). set_solver. Defined.

(** ** Printing commands *)

Notation tcmd := (cmd (list Z)).

(** A parsed command without the places of its words. *)
Fixpoint erase (c : pcmd) : tcmd :=
  match c with
  | EXEC argv => EXEC (text <$> argv)
  | REDIR c w m fd => REDIR (erase c) (text w) m fd
  | PIPE l r => PIPE (erase l) (erase r)
  | LIST l r => LIST (erase l) (erase r)
  | BACK c => BACK (erase c)
  end.

(** A command as the operand of a pipe, of an ampersand, of a semicolon, and as a whole line. *)
Record printed := Printed { p_exec : list Z; p_pipe : list Z; p_back : list Z; p_line : list Z }.

Definition paren (s : list Z) : list Z := [40] ++ s ++ [41].
Definition p_args (argv : list (list Z)) : list Z := mjoin ((fun w => w ++ [32]) <$> argv).
Definition p_redir (file : list Z) (fd : Z) : list Z := [if fd =? 0 then 60 else 62] ++ file ++ [32].

Fixpoint pr (c : tcmd) : printed :=
  match c with
  | EXEC argv => let e := p_args argv in Printed e e e e
  | REDIR c file _ fd => let e := p_exec (pr c) ++ p_redir file fd in Printed e e e e
  | PIPE l r => let p := p_exec (pr l) ++ [124] ++ p_pipe (pr r) in Printed (paren p) p p p
  | BACK c => let b := p_back (pr c) ++ [38] in Printed (paren b) (paren b) b b
  | LIST l r => let x := p_back (pr l) ++ [59] ++ p_line (pr r) in Printed (paren x) (paren x) (paren x) x
  end.

Definition word_text (w : list Z) : Prop := w <> [] /\ Forall (fun c => is_word c = true) w.

(** Commands the grammar can express. *)
Fixpoint expressible (c : tcmd) : Prop :=
  match c with
  | EXEC argv => Forall word_text argv /\ (length argv < MAXARGS)%nat
  | REDIR c file m fd => expressible c /\ word_text file /\ ((m = O_RDONLY /\ fd = 0) \/ (m = Z.lor O_WRONLY O_CREATE /\ fd = 1))
  | PIPE l r => expressible l /\ expressible r
  | LIST l r => expressible l /\ expressible r
  | BACK c => expressible c
  end.

(** What is left starts with one of [toks], or is blank. *)
Definition follow (toks : list Z) (s : list Z) : Prop :=
  match skip s with [] => True | c :: _ => among toks c = true end.

(** *** Tokens of printed text *)

Lemma is_word_inv c : is_word c = true -> among whitespace c = false /\ among symbols c = false.
Proof. unfold is_word. intros [H1 H2]%andb_prop. by apply negb_true_iff in H1, H2. Qed.

Lemma skip_word w s : word_text w -> skip (w ++ s) = w ++ s.
Proof.
  intros [Hne Hw]. destruct w as [|c w]; [done |]. apply list.Forall_cons in Hw as [Hc _]. apply is_word_inv in Hc as [Hc _].
  simpl. by rewrite Hc.
Qed.

Lemma symbol_not_blank c : among symbols c = true -> among whitespace c = false.
Proof.
  unfold among, symbols, whitespace. simpl. intros H.
  repeat (apply orb_prop in H as [H | H]); try (apply Z.eqb_eq in H; by subst). done.
Qed.

Lemma run_word w s : Forall (fun c => is_word c = true) w -> run_length (w ++ 32 :: s) = length w.
Proof. induction 1 as [|c w Hc Hw IH]; simpl; [done |]. by rewrite Hc, IH. Qed.

Lemma word_head c w : word_text (c :: w) -> among [124; 40; 41; 59; 38; 60] c = false /\ (c =? 62) = false /\ among whitespace c = false.
Proof.
  intros [_ Hw]. apply list.Forall_cons in Hw as [Hc _]. apply is_word_inv in Hc as [H1 H2]. rewrite H1. clear H1.
  revert H2. unfold among, symbols. simpl. rewrite !orb_false_r. intros H2. repeat (apply orb_false_elim in H2 as [? H2]).
  repeat match goal with H : (c =? _) = false |- _ => rewrite H; clear H end. done.
Qed.

Lemma gettoken_word w s : word_text w -> gettoken (w ++ 32 :: s) = (97, Word w (S (length s)), skip s).
Proof.
  intros Hw. unfold gettoken. rewrite skip_word by done. destruct w as [|c w]; [by destruct Hw |].
  destruct (word_head c w Hw) as (H1 & H2 & _). cbn [app]. rewrite H1, H2.
  change (c :: w ++ 32 :: s) with ((c :: w) ++ 32 :: s). rewrite run_word by apply Hw.
  rewrite take_app_length, drop_app_length. f_equal. f_equal. rewrite length_app. simpl. f_equal. lia.
Qed.

Lemma gettoken_sym c s : among [124; 40; 41; 59; 38; 60] c = true -> (gettoken (c :: s)).1.1 = c /\ (gettoken (c :: s)).2 = skip s.
Proof.
  intros Hc. unfold gettoken. assert (Hs : skip (c :: s) = c :: s).
  { simpl. rewrite symbol_not_blank; [done |]. revert Hc. unfold among, symbols. simpl. rewrite !orb_false_r. intros Hc.
    repeat (apply orb_prop in Hc as [Hc | Hc]); rewrite Hc, ?orb_true_r; done. }
  rewrite Hs, Hc. simpl. done.
Qed.

Lemma gettoken_gt w s : word_text w -> (gettoken (62 :: w ++ s)).1.1 = 62 /\ (gettoken (62 :: w ++ s)).2 = skip (w ++ s).
Proof.
  intros Hw. destruct w as [|c w]; [by destruct Hw |]. destruct (word_head c w Hw) as (_ & H2 & _). unfold gettoken. simpl.
  rewrite bool_decide_eq_false_2 by (intros [= ->]; done). done.
Qed.

(** *** Parsing printed text *)

Lemma peek_follow toks others s : follow toks s -> (forall c, among toks c = true -> among others c = false) ->
  peek s others = (false, skip s).
Proof. intros Hf Ho. rewrite peek_eq. unfold follow in Hf. destruct (skip s) as [|c r]; [done |]. by rewrite Ho. Qed.

Lemma follow_skip toks s : follow toks (skip s) <-> follow toks s.
Proof. unfold follow. by rewrite skip_skip. Qed.

Lemma follow_mono toks toks' s : (forall c, among toks c = true -> among toks' c = true) -> follow toks s -> follow toks' s.
Proof. unfold follow. intros Ht. destruct (skip s); auto. Qed.

(** Decides memberships of one character in lists of symbols. *)
Ltac symbols :=
  unfold among in *; simpl in *; rewrite ?orb_false_r in *;
  repeat match goal with H : (_ || _)%bool = true |- _ => apply orb_prop in H as [H | H] end;
  match goal with H : (_ =? _) = true |- _ => apply Z.eqb_eq in H; subst; done | _ => done end.

Lemma parse_skip fuel : forall lv s, parse fuel lv (skip s) = parse fuel lv s.
Proof.
  induction fuel as [|f IH]; intros lv s; [done |]. destruct lv; cbn [parse]; rewrite ?IH, ?peek_eq, ?skip_skip; done.
Qed.

Lemma parseredirs_none f c s : (match skip s with d :: _ => among [60; 62] d | [] => false end) = false -> parseredirs (S f) c s = Parsed c (skip s).
Proof. intros Hs. cbn [parseredirs]. rewrite peek_eq, Hs. done. Qed.

(** One printed redirection. *)
Lemma parseredirs_one f c file m fd s :
  word_text file -> (m = O_RDONLY /\ fd = 0) \/ (m = Z.lor O_WRONLY O_CREATE /\ fd = 1) ->
  parseredirs (S f) c (p_redir file fd ++ s) = parseredirs f (REDIR c (Word file (S (length s))) m fd) (skip s).
Proof.
  intros Hw Hm. unfold p_redir. rewrite <- !app_assoc. cbn [app]. set (d := if fd =? 0 then 60 else 62).
  assert (Hd : among [60; 62] d = true /\ among whitespace d = false) by (unfold d; destruct (fd =? 0); done).
  cbn [parseredirs]. rewrite peek_eq. cbn [skip]. rewrite (proj2 Hd), (proj1 Hd).
  assert (Ht : (gettoken (d :: file ++ 32 :: s)).1.1 = d /\ (gettoken (d :: file ++ 32 :: s)).2 = file ++ 32 :: s).
  { assert (E : (gettoken (d :: file ++ 32 :: s)).1.1 = d /\ (gettoken (d :: file ++ 32 :: s)).2 = skip (file ++ 32 :: s))
      by (unfold d; destruct (fd =? 0); [by apply gettoken_sym | by apply gettoken_gt]).
    by rewrite (skip_word file) in E. }
  destruct (gettoken (d :: file ++ 32 :: s)) as [[tok w] s1]. cbn [fst snd] in Ht. destruct Ht as [-> ->].
  rewrite gettoken_word by done. unfold d. destruct Hm as [[-> ->] | [-> ->]]; done.
Qed.

(** A command wrapped in redirections, innermost first. *)
Definition redir : Type := list Z * Z * Z.
Definition redir_ok (r : redir) : Prop :=
  word_text r.1.1 /\ ((r.1.2 = O_RDONLY /\ r.2 = 0) \/ (r.1.2 = Z.lor O_WRONLY O_CREATE /\ r.2 = 1)).
Fixpoint wrap (c : tcmd) (rs : list redir) : tcmd :=
  match rs with
  | [] => c
  | r :: rs' => wrap (REDIR c r.1.1 r.1.2 r.2) rs'
  end.
Definition p_redirs (rs : list redir) : list Z := mjoin ((fun r => p_redir r.1.1 r.2) <$> rs).

Lemma skip_p_redir file fd s : skip (p_redir file fd ++ s) = p_redir file fd ++ s.
Proof. unfold p_redir. destruct (fd =? 0); done. Qed.

Lemma length_p_redir file fd s : length (p_redir file fd ++ s) = (2 + length file + length s)%nat.
Proof. unfold p_redir. rewrite !length_app. simpl. lia. Qed.

Lemma parseredirs_many rs : forall f c s,
  Forall redir_ok rs -> follow [124; 41; 38; 59] s -> (length (p_redirs rs ++ s) < f)%nat ->
  exists c', parseredirs f c (p_redirs rs ++ s) = Parsed c' (skip s) /\ erase c' = wrap (erase c) rs /\
    (forall argv, erase (fill argv c') = wrap (erase (fill argv c)) rs).
Proof.
  induction rs as [|r rs IH]; intros [|f] c s Hr Hs Hf; try (simpl in Hf; lia).
  - change (p_redirs [] ++ s) with s. rewrite parseredirs_none; [eauto |].
    unfold follow in Hs. destruct (skip s) as [|d t]; [done |]. symbols.
  - apply list.Forall_cons in Hr as [[H1 H2] Hr]. change (p_redirs (r :: rs)) with (p_redir r.1.1 r.2 ++ p_redirs rs) in *.
    rewrite <- app_assoc in *. rewrite (parseredirs_one _ _ _ r.1.2) by done.
    assert (Hsk : skip (p_redirs rs ++ s) = p_redirs rs ++ s \/ rs = []).
    { destruct rs as [|r' rs]; [by right | left]. change (p_redirs (r' :: rs)) with (p_redir r'.1.1 r'.2 ++ p_redirs rs).
      rewrite <- app_assoc. apply skip_p_redir. }
    assert (Hlen : (length (p_redirs rs ++ s) < f)%nat).
    { rewrite length_p_redir in Hf. lia. }
    destruct Hsk as [-> | ->].
    + destruct (IH f (REDIR c (Word r.1.1 (S (length (p_redirs rs ++ s)))) r.1.2 r.2) s Hr Hs Hlen) as (c' & E & E1 & E2). exists c'. done.
    + change (p_redirs [] ++ s) with s in *. pose proof (skip_length s).
      destruct (IH f (REDIR c (Word r.1.1 (S (length s))) r.1.2 r.2) (skip s) Hr) as (c' & E & E1 & E2);
        [by apply follow_skip | simpl in *; lia |].
      exists c'. rewrite skip_skip in E. done.
Qed.

Lemma parseredirs_skip f c s : parseredirs f c (skip s) = parseredirs f c s.
Proof. destruct f; [done |]. cbn [parseredirs]. by rewrite !peek_eq, skip_skip. Qed.

Lemma parseargs_end f argv ret s : follow [124; 41; 38; 59] s -> parseargs (S f) argv ret s = Parsed (fill argv ret) (skip s).
Proof.
  intros Hs. cbn [parseargs]. rewrite peek_eq. unfold follow in Hs. destruct (skip s) as [|c t] eqn:E; [done |]. by rewrite Hs.
Qed.

Lemma length_p_args w args s : length (p_args (w :: args) ++ s) = (1 + length w + length (p_args args ++ s))%nat.
Proof. change (p_args (w :: args)) with ((w ++ [32]) ++ p_args args). rewrite !length_app. simpl. lia. Qed.

Lemma p_args_cons w args s : p_args (w :: args) ++ s = w ++ 32 :: (p_args args ++ s).
Proof. change (p_args (w :: args)) with ((w ++ [32]) ++ p_args args). by rewrite <- !app_assoc. Qed.

Lemma peek_word w s toks : word_text w -> (forall c, among toks c = true -> among symbols c = true) -> peek (w ++ s) toks = (false, w ++ s).
Proof.
  intros Hw Ht. rewrite peek_eq, skip_word by done. destruct w as [|c w]; [by destruct Hw |]. destruct Hw as [_ Hw].
  apply list.Forall_cons in Hw as [Hc _]. apply is_word_inv in Hc as [_ Hc]. cbn [app].
  destruct (among toks c) eqn:E; [| done]. by rewrite Ht in Hc.
Qed.

Lemma parseargs_many rs s : forall args w f argv,
  Forall word_text (w :: args) -> (length argv + length (w :: args) < MAXARGS)%nat -> Forall redir_ok rs ->
  follow [124; 41; 38; 59] s -> (length (p_args (w :: args) ++ p_redirs rs ++ s) < f)%nat ->
  exists c', parseargs f argv (EXEC []) (p_args (w :: args) ++ p_redirs rs ++ s) = Parsed c' (skip s) /\
    erase c' = wrap (EXEC ((text <$> argv) ++ w :: args)) rs.
Proof.
  induction args as [|w2 args IH]; intros w [|f] argv Hw Hmax Hr Hs Hf; try lia.
  - rewrite length_p_args in Hf. rewrite p_args_cons. change (p_args []) with ([] : list Z) in *. cbn [app] in *.
    apply list.Forall_cons in Hw as [Hw _]. cbn [parseargs]. rewrite peek_word by (done || intros; symbols).
    rewrite gettoken_word by done. cbn [negb Z.eqb]. change (97 =? 0) with false. change (97 =? 97) with true. cbn [negb].
    rewrite length_app. rewrite (proj2 (Nat.leb_gt MAXARGS _)) by (simpl in *; lia). rewrite parseredirs_skip.
    destruct (parseredirs_many rs f (EXEC []) s Hr Hs ltac:(lia)) as (c' & -> & _ & E). destruct f as [|f]; [lia |].
    rewrite parseargs_end by (by apply follow_skip). rewrite skip_skip. eexists. split; [done |]. rewrite E. simpl. by rewrite fmap_app.
  - rewrite length_p_args in Hf. rewrite p_args_cons. apply list.Forall_cons in Hw as [Hw Hws]. pose proof Hws as Hw2.
    apply list.Forall_cons in Hw2 as [Hw2 _]. cbn [parseargs]. rewrite peek_word by (done || intros; symbols).
    rewrite gettoken_word by done. change (97 =? 0) with false. change (97 =? 97) with true. cbn [negb].
    rewrite length_app. rewrite (proj2 (Nat.leb_gt MAXARGS _)) by (simpl in *; lia).
    set (rest := p_args (w2 :: args) ++ p_redirs rs ++ s) in *.
    assert (Hsk : skip rest = rest) by (unfold rest; rewrite p_args_cons; by apply skip_word). rewrite Hsk.
    destruct f as [|f]; [lia |]. rewrite parseredirs_none, Hsk.
    2: { change ((peek rest [60; 62]).1 = false). unfold rest. rewrite p_args_cons, peek_word; [done | done | intros; symbols]. }
    destruct (IH w2 (S f) (argv ++ [Word w (S (length rest))])) as (c' & E & E1); try done; [rewrite length_app; simpl in *; lia | fold rest; lia |].
    exists c'. split; [exact E |]. rewrite E1, fmap_app. by rewrite <- app_assoc.
Qed.

(** What parsing a printed command gives, as an operand of a pipe, of an ampersand and as a line. *)
Definition exec_ok (c : tcmd) : Prop := forall f s,
  follow [124; 41; 38; 59] s -> (4 * length (p_exec (pr c) ++ s) + 2 <= f)%nat ->
  exists c', parse f Exec (p_exec (pr c) ++ s) = Parsed c' (skip s) /\ erase c' = c.
Definition pipe_ok (c : tcmd) : Prop := forall f s,
  follow [41; 38; 59] s -> (4 * length (p_pipe (pr c) ++ s) + 3 <= f)%nat ->
  exists c', parse f Pipe (p_pipe (pr c) ++ s) = Parsed c' (skip s) /\ erase c' = c.
(** After the pipe, the ampersands of [c] have been read when those of [s] come. *)
Definition back_ok (c : tcmd) : Prop := forall f s,
  follow [41; 38; 59] s -> (4 * length (p_back (pr c) ++ s) + 3 <= f)%nat ->
  exists c0 s1 c', parse f Pipe (p_back (pr c) ++ s) = Parsed c0 s1 /\ erase c' = c /\ (length s1 <= length (p_back (pr c) ++ s))%nat /\
    forall g, (length s1 < g)%nat -> exists g', (length (skip s) < g')%nat /\ parseback g c0 s1 = parseback g' c' (skip s).
Definition line_ok (c : tcmd) : Prop := forall f s,
  follow [41] s -> (4 * length (p_line (pr c) ++ s) + 4 <= f)%nat ->
  exists c', parse f Line (p_line (pr c) ++ s) = Parsed c' (skip s) /\ erase c' = c.

Lemma exec_pipe c : p_pipe (pr c) = p_exec (pr c) -> exec_ok c -> pipe_ok c.
Proof.
  intros Ep He [|f] s Hs Hf; [lia |]. rewrite Ep in *. cbn [parse].
  destruct (He f s) as (c' & -> & E); [by eapply follow_mono; [| exact Hs]; intros; symbols | lia |].
  rewrite (peek_follow [41; 38; 59]) by (by apply follow_skip || intros; symbols). rewrite skip_skip. eauto.
Qed.

Lemma pipe_back c : p_back (pr c) = p_pipe (pr c) -> pipe_ok c -> back_ok c.
Proof.
  intros Ep Hp f s Hs Hf. rewrite Ep in *. destruct (Hp f s Hs Hf) as (c' & -> & E). exists c', (skip s), c'.
  pose proof (skip_length s). split_and!; [done | done | rewrite length_app; lia |].
  intros g Hg. eauto.
Qed.

Lemma back_back c : back_ok c -> back_ok (BACK c).
Proof.
  intros Hb f s Hs Hf. change (p_back (pr (BACK c))) with (p_back (pr c) ++ [38]) in *. rewrite <- app_assoc in *. cbn [app] in *.
  destruct (Hb f (38 :: s)) as (c0 & s1 & c' & E & Ec & Hlen & Hg); [done | done |].
  exists c0, s1, (BACK c'). split_and!; [done | simpl; by f_equal | done |]. intros g Hl.
  destruct (Hg g Hl) as (g' & Hl' & ->). change (skip (38 :: s)) with (38 :: s) in *. destruct g' as [|g']; [simpl in Hl'; lia |].
  exists g'. pose proof (skip_length s). split; [simpl in Hl'; lia |]. cbn [parseback]. rewrite peek_eq.
  change (skip (38 :: s)) with (38 :: s). change (among [38] 38) with true. cbv iota.
  pose proof (gettoken_sym 38 s eq_refl) as [_ Ht]. destruct (gettoken (38 :: s)) as [[? ?] ?]. cbn [snd] in Ht. by subst.
Qed.

(** The end of [parseline], after the ampersands. *)
Lemma parseback_end g c s : follow [41; 59] s -> (length (skip s) < g)%nat -> parseback g c (skip s) = Parsed c (skip s).
Proof.
  intros Hs Hg. destruct g as [|g]; [lia |]. cbn [parseback].
  rewrite (peek_follow [41; 59]) by (by apply follow_skip || intros; symbols). by rewrite skip_skip.
Qed.

Lemma back_line c : p_line (pr c) = p_back (pr c) -> back_ok c -> line_ok c.
Proof.
  intros Ep Hb [|f] s Hs Hf; [lia |]. rewrite Ep in *. cbn [parse].
  destruct (Hb f s) as (c0 & s1 & c' & -> & E & Hlen & Hg); [by eapply follow_mono; [| exact Hs]; intros; symbols | lia |].
  destruct (Hg f ltac:(lia)) as (g' & Hl & ->). rewrite parseback_end by (done || (eapply follow_mono; [| exact Hs]; intros; symbols)).
  rewrite (peek_follow [41]) by (by apply follow_skip || intros; symbols). rewrite skip_skip. eauto.
Qed.

Lemma list_line l r : back_ok l -> line_ok r -> line_ok (LIST l r).
Proof.
  intros Hb Hl [|f] s Hs Hf; [lia |]. change (p_line (pr (LIST l r))) with (p_back (pr l) ++ [59] ++ p_line (pr r)) in *.
  rewrite <- !app_assoc in *. cbn [app] in *. cbn [parse]. set (t := 59 :: p_line (pr r) ++ s) in *.
  destruct (Hb f t) as (c0 & s1 & c' & -> & E & Hlen & Hg); [done | lia |].
  destruct (Hg f ltac:(lia)) as (g' & Hl' & ->). rewrite parseback_end by done.
  rewrite peek_eq. change (skip (skip t)) with t. unfold t at 1. change (among [59] 59) with true. cbv iota.
  pose proof (gettoken_sym 59 (p_line (pr r) ++ s) eq_refl) as [_ Ht]. fold t in Ht. destruct (gettoken t) as [[? ?] s2]. cbn [snd] in Ht. subst s2.
  rewrite parse_skip. rewrite length_app in Hf. unfold t in Hf. cbn [length] in Hf.
  destruct (Hl f s Hs ltac:(lia)) as (d' & -> & Ed). exists (LIST c' d'). split; [done |]. simpl. by rewrite E, Ed.
Qed.

Lemma pipe_pipe l r : exec_ok l -> pipe_ok r -> pipe_ok (PIPE l r).
Proof.
  intros He Hp [|f] s Hs Hf; [lia |]. change (p_pipe (pr (PIPE l r))) with (p_exec (pr l) ++ [124] ++ p_pipe (pr r)) in *.
  rewrite <- !app_assoc in *. cbn [app] in *. cbn [parse]. set (t := 124 :: p_pipe (pr r) ++ s) in *.
  destruct (He f t) as (c' & -> & E); [done | lia |]. rewrite peek_eq. change (skip (skip t)) with t. unfold t at 1.
  change (among [124] 124) with true. cbv iota.
  pose proof (gettoken_sym 124 (p_pipe (pr r) ++ s) eq_refl) as [_ Ht]. fold t in Ht. destruct (gettoken t) as [[? ?] s2]. cbn [snd] in Ht. subst s2.
  rewrite parse_skip. rewrite length_app in Hf. unfold t in Hf. cbn [length] in Hf.
  destruct (Hp f s Hs ltac:(lia)) as (d' & -> & Ed). exists (PIPE c' d'). split; [done |]. simpl. by rewrite E, Ed.
Qed.

Lemma wrap_app c rs rs' : wrap c (rs ++ rs') = wrap (wrap c rs) rs'.
Proof. revert c. induction rs as [|r rs IH]; intros c; [done |]. apply IH. Qed.

Lemma p_exec_wrap rs : forall c, p_exec (pr (wrap c rs)) = p_exec (pr c) ++ p_redirs rs.
Proof.
  induction rs as [|r rs IH]; intros c; [by rewrite app_nil_r |]. cbn [wrap]. rewrite IH. cbn [pr p_exec].
  change (p_redirs (r :: rs)) with (p_redir r.1.1 r.2 ++ p_redirs rs). by rewrite <- app_assoc.
Qed.

(** A simple command with its redirections. *)
Lemma exec_exec argv rs :
  Forall word_text argv -> (length argv < MAXARGS)%nat -> Forall redir_ok rs -> exec_ok (wrap (EXEC argv) rs).
Proof.
  intros Hw Hmax Hr [|f] s Hs Hf; [lia |]. rewrite p_exec_wrap in *. cbn [pr p_exec] in *. rewrite <- app_assoc in *. cbn [parse].
  destruct argv as [|w args].
  - change (p_args []) with ([] : list Z) in *. cbn [app] in *.
    assert (Hpk : peek (p_redirs rs ++ s) [40] = (false, skip (p_redirs rs ++ s))).
    { destruct rs as [|r rs]; [apply (peek_follow [124; 41; 38; 59]); [done | intros; symbols] |].
      change (p_redirs (r :: rs)) with (p_redir r.1.1 r.2 ++ p_redirs rs). rewrite <- app_assoc, peek_eq, skip_p_redir.
      unfold p_redir. by destruct (r.2 =? 0). }
    rewrite Hpk, parseredirs_skip. destruct (parseredirs_many rs f (EXEC []) s Hr Hs ltac:(lia)) as (c' & -> & _ & E).
    destruct f as [|f]; [lia |]. rewrite parseargs_end by (by apply follow_skip). rewrite skip_skip. eexists. split; [done |]. apply E.
  - set (t := p_args (w :: args) ++ p_redirs rs ++ s) in *. pose proof Hw as Hw'. apply list.Forall_cons in Hw' as [Hw1 _].
    assert (Hpk : forall toks, (forall c, among toks c = true -> among symbols c = true) -> peek t toks = (false, t)).
    { intros toks Ht. unfold t. rewrite p_args_cons. by apply peek_word. }
    rewrite Hpk by (intros; symbols). destruct f as [|f]; [lia |].
    assert (Hsk : skip t = t) by (unfold t; rewrite p_args_cons; by apply skip_word).
    rewrite parseredirs_none, Hsk by (change ((peek t [60; 62]).1 = false); rewrite Hpk; [done | intros; symbols]).
    destruct (parseargs_many rs s args w (S f) [] Hw ltac:(done) Hr Hs ltac:(fold t; lia)) as (c' & E & E1). exists c'. done.
Qed.

(** A command in parentheses with its redirections. *)
Lemma block_exec c rs :
  p_exec (pr c) = paren (p_line (pr c)) -> line_ok c -> Forall redir_ok rs -> exec_ok (wrap c rs).
Proof.
  intros Ep Hl Hr [|[|f]] s Hs Hf; try lia. rewrite p_exec_wrap in *. rewrite Ep in *. unfold paren in *. rewrite <- !app_assoc in *.
  cbn [app] in *. set (t := p_line (pr c) ++ 41 :: p_redirs rs ++ s) in *. cbn [parse]. rewrite peek_eq.
  change (skip (40 :: t)) with (40 :: t). change (among [40] 40) with true. cbv iota.
  rewrite peek_eq. change (skip (40 :: t)) with (40 :: t). change (among [40] 40) with true. cbn [negb].
  pose proof (gettoken_sym 40 t eq_refl) as [_ Ht]. destruct (gettoken (40 :: t)) as [[? ?] s2]. cbn [snd] in Ht. subst s2.
  rewrite parse_skip. cbn [length] in Hf.
  destruct (Hl f (41 :: p_redirs rs ++ s) ltac:(done)) as (c' & E0 & E); [fold t; lia |]. fold t in E0. rewrite E0.
  change (skip (41 :: p_redirs rs ++ s)) with (41 :: p_redirs rs ++ s). rewrite peek_eq.
  change (skip (41 :: p_redirs rs ++ s)) with (41 :: p_redirs rs ++ s). change (among [41] 41) with true. cbn [negb].
  pose proof (gettoken_sym 41 (p_redirs rs ++ s) eq_refl) as [_ Ht]. destruct (gettoken (41 :: p_redirs rs ++ s)) as [[? ?] s2]. cbn [snd] in Ht. subst s2.
  rewrite parseredirs_skip. unfold t in Hf. rewrite length_app in Hf. cbn [length] in Hf.
  destruct (parseredirs_many rs f c' s Hr Hs ltac:(lia)) as (c2 & -> & E2 & _). exists c2. rewrite E2, E. done.
Qed.

(** The command inside the redirections. *)
Fixpoint core (c : tcmd) : tcmd := match c with REDIR c _ _ _ => core c | _ => c end.

Lemma unwrap c : expressible c -> exists rs, c = wrap (core c) rs /\ Forall redir_ok rs /\ expressible (core c).
Proof.
  induction c as [argv | c IH file m fd | l _ r _ | l _ r _ | c _]; intros He; try (by exists []).
  destruct He as (He & Hf & Hm). destruct (IH He) as (rs & E & Hr & Hc). exists (rs ++ [(file, m, fd)]). simpl. split_and!.
  - rewrite wrap_app, <- E. done.
  - apply Forall_app. split; [done |]. constructor; [done | constructor].
  - done.
Qed.

Fixpoint csize (c : tcmd) : nat :=
  match c with
  | EXEC _ => 1
  | REDIR c _ _ _ => S (csize c)
  | PIPE l r => S (csize l + csize r)
  | LIST l r => S (csize l + csize r)
  | BACK c => S (csize c)
  end.

Lemma csize_core c : (csize (core c) <= csize c)%nat.
Proof. induction c; simpl; lia. Qed.

Definition all_ok (c : tcmd) : Prop := exec_ok c /\ pipe_ok c /\ back_ok c /\ line_ok c.

Lemma printed_parses n : forall c, (csize c < n)%nat -> expressible c -> all_ok c.
Proof.
  induction n as [|n IH]; intros c Hn He; [lia |].
  assert (Hsimple : forall c, exec_ok c -> p_pipe (pr c) = p_exec (pr c) -> p_back (pr c) = p_exec (pr c) -> p_line (pr c) = p_exec (pr c) -> all_ok c).
  { intros d H1 E1 E2 E3. assert (H2 : pipe_ok d) by (by apply exec_pipe). assert (H3 : back_ok d) by (apply pipe_back; [congruence | done]).
    split_and!; try done. apply back_line; [congruence | done]. }
  destruct c as [argv | c file m fd | l r | l r | c]; simpl in Hn.
  - apply Hsimple; try done. destruct He. by apply (exec_exec argv []).
  - apply Hsimple; try done. destruct (unwrap _ He) as (rs & E & Hr & Hc). rewrite E. simpl in Hc |- *.
    pose proof (csize_core c) as Hsz. destruct (core c) as [argv | d f' m' fd' | l r | l r | d] eqn:Ec.
    + destruct Hc. by apply exec_exec.
    + exfalso. clear -Ec. induction c; simpl in Ec; try done.
    + apply block_exec; [done | apply IH; [simpl in *; lia | done] | done].
    + apply block_exec; [done | apply IH; [simpl in *; lia | done] | done].
    + apply block_exec; [done | apply IH; [simpl in *; lia | done] | done].
  - destruct He as [He1 He2]. destruct (IH l ltac:(lia) He1) as (L1 & _). destruct (IH r ltac:(lia) He2) as (_ & R2 & _).
    assert (H2 : pipe_ok (PIPE l r)) by (by apply pipe_pipe). assert (H3 : back_ok (PIPE l r)) by (by apply pipe_back).
    assert (H4 : line_ok (PIPE l r)) by (by apply back_line). split_and!; try done. by apply (block_exec (PIPE l r) []).
  - destruct He as [He1 He2]. destruct (IH l ltac:(lia) He1) as (_ & _ & L3 & _). destruct (IH r ltac:(lia) He2) as (_ & _ & _ & R4).
    assert (H4 : line_ok (LIST l r)) by (by apply list_line). assert (H1 : exec_ok (LIST l r)) by (by apply (block_exec (LIST l r) [])).
    assert (H2 : pipe_ok (LIST l r)) by (by apply exec_pipe). split_and!; try done. by apply pipe_back.
  - destruct (IH c ltac:(lia) He) as (_ & _ & B3 & _). assert (H3 : back_ok (BACK c)) by (by apply back_back).
    assert (H4 : line_ok (BACK c)) by (by apply back_line). assert (H1 : exec_ok (BACK c)) by (by apply (block_exec (BACK c) [])).
    split_and!; try done. by apply exec_pipe.
Qed.

(** C11: printed commands parse back.  For every command the grammar can express, with at most nine
    arguments per simple command, parsing its printed form, with parentheses where the precedence of
    pipes, ampersands and semicolons asks for them, gives that command. *)
Theorem print_parse_roundtrip (c : tcmd) :
  expressible c -> exists c', parsecmd (p_line (pr c)) = Parsed c' [] /\ erase c' = c.
Proof.
  intros He. destruct (printed_parses (S (csize c)) c ltac:(lia) He) as (_ & _ & _ & Hl).
  destruct (Hl (line_fuel (p_line (pr c))) []) as (c' & E & Ec); [done | rewrite app_nil_r; unfold line_fuel; lia |].
  rewrite app_nil_r in E. exists c'. unfold parsecmd. rewrite E. done.
Qed.

(** "(a b |c <d )&;e " *)
Lemma print_parse_roundtrip_witness :
  exists c', parsecmd (p_line (pr (LIST (BACK (PIPE (EXEC [[97]; [98]]) (REDIR (EXEC [[99]]) [100] O_RDONLY 0))) (EXEC [[101]])))) = Parsed c' [] /\
    erase c' = LIST (BACK (PIPE (EXEC [[97]; [98]]) (REDIR (EXEC [[99]]) [100] O_RDONLY 0))) (EXEC [[101]]).
Proof.
  apply (print_parse_roundtrip (LIST (BACK (PIPE (EXEC [[97]; [98]]) (REDIR (EXEC [[99]]) [100] O_RDONLY 0))) (EXEC [[101]]))).
  simpl. unfold MAXARGS. split_and!; try (repeat constructor; done); try lia.
Defined.
