(* ===== verification/LabSched.v ===== *)
(** * The scheduling exercises: process priorities (05K) and scheduling policies (06K)

    The process table as these versions of proc.c extend it: a priority, a number of lottery tickets
    and running times per process.  The table is the list of its slots; a policy chooses an index.
    [ticks] is an argument where the code reads it, and the state of the random number generator is
    passed along.  What surrounds the choice in [scheduler] (the context switch, the address space)
    is that of the stock kernel, modelled in [Proc]. *)
From S2P Require Import Prelude Proc.
#[local] Open Scope Z_scope.

Module Policies.

Record slot := Slot {
  st : procstate;
  s_pid : Z;
  s_size : Z;
  s_parent : option nat;    (* index of the parent; initproc has none *)
  s_name : list Z;
  priority : Z;
  ntickets : Z;
  ctime : Z;                (* creation *)
  stime : Z;                (* ticks spent sleeping, *)
  retime : Z;               (* ready *)
  rutime : Z                (* and running *)
}.

#[export] Instance slot_inhabited : Inhabited slot := populate (Slot UNUSED 0 0 None [] 0 0 0 0 0 0).

Definition runnable (p : slot) : bool := bool_decide (st p = RUNNABLE).

Definition with_priority (x : Z) (p : slot) : slot :=
  Slot (st p) (s_pid p) (s_size p) (s_parent p) (s_name p) x (ntickets p) (ctime p) (stime p) (retime p) (rutime p).
Definition with_tickets (x : Z) (p : slot) : slot :=
  Slot (st p) (s_pid p) (s_size p) (s_parent p) (s_name p) (priority p) x (ctime p) (stime p) (retime p) (rutime p).
Definition with_times (a b c : Z) (p : slot) : slot :=
  Slot (st p) (s_pid p) (s_size p) (s_parent p) (s_name p) (priority p) (ntickets p) (ctime p) a b c.

(** ** Random numbers *)

(** One shift register; [z] is an [int], whose left shift drops the high bits and whose right shift
    keeps the sign.  The masks are wider than [int], so the second line is computed in 64 bits. *)
Definition lfsr (z k1 k2 mask k3 : Z) : Z :=
  let b := Z.shiftr (Z.lxor (s32 (Z.shiftl z k1)) z) k2 in
  s32 (Z.lxor (Z.shiftl (Z.land z mask) k3) b).

Record rng := Rng { z1 : Z; z2 : Z; z3 : Z; z4 : Z }.

Definition rng_init : rng := Rng 12345 12345 12345 12345.

Definition random (max : Z) (g : rng) : Z * rng :=
  if max <=? 0 then (1, g)
  else
    let g := Rng (lfsr (z1 g) 6 13 4294967294 18) (lfsr (z2 g) 2 27 4294967288 2)
                 (lfsr (z3 g) 13 21 4294967280 7) (lfsr (z4 g) 3 12 4294967168 13) in
    let rand := Z.rem (Z.lxor (Z.lxor (Z.lxor (z1 g) (z2 g)) (z3 g)) (z4 g)) max in
    (if rand <? 0 then rand * -1 else rand, g).

(** [unsigned long] has 32 bits. *)
Definition lcg_rand (a : Z) : Z := u32 (a * 279470273) mod 4294967291.

(** ** The fields of a new process *)

Definition MAX_TICKETS : Z := 20.

Definition new_slot (pid ticks : Z) (g : rng) (old : slot) : slot * rng :=
  let '(r, g) := random (ticks mod MAX_TICKETS) g in
  (Slot EMBRYO pid (s_size old) (s_parent old) (s_name old) 10 (r + 1) ticks 0 0 0, g).

(** ** Choosing a process *)

(** DEFAULT: the first runnable process from a random slot on, wrapping around. *)
Fixpoint default_loop (n : nat) (i : nat) (rnd : nat) (t : list slot) : option nat :=
  match n with
  | O => None
  | S n' =>
      let k := ((rnd + i) mod NPROC)%nat in
      if runnable (t !!! k) then Some k else default_loop n' (S i) rnd t
  end.

Definition ready_default (t : list slot) (g : rng) : option nat * rng :=
  let '(rnd, g) := random (Z.of_nat NPROC) g in (default_loop NPROC 0 (Z.to_nat rnd) t, g).

(** The loop that PRIORITY, FCFS and CFS share, over the slots [ps] from index [i] on; [c] is
    [pcandidate] with its index. *)
Fixpoint pick_loop (key : slot -> Z) (ps : list slot) (i : nat) (c : option (nat * slot)) : option (nat * slot) :=
  match ps with
  | [] => c
  | p :: ps' =>
      let c :=
        if runnable p then
          match c with
          | None => Some (i, p)
          | Some (_, q) => if key p <? key q then Some (i, p) else c
          end
        else c in
      pick_loop key ps' (S i) c
  end.

Definition ready_priority (t : list slot) : option nat := fst <$> pick_loop priority t 0 None.
Definition ready_fcfs (t : list slot) : option nat := fst <$> pick_loop ctime t 0 None.
Definition ready_cfs (t : list slot) : option nat := fst <$> pick_loop rutime t 0 None.

(** SML: the three queues, filled in the order of the table. *)
Fixpoint sml_loop (ps : list slot) (i : nat) (high mid low : list nat) : list nat * list nat * list nat :=
  match ps with
  | [] => (high, mid, low)
  | p :: ps' =>
      if negb (runnable p) then sml_loop ps' (S i) high mid low
      else if priority p <=? 7 then sml_loop ps' (S i) (high ++ [i]) mid low
      else if (7 <? priority p) && (priority p <=? 14) then sml_loop ps' (S i) high (mid ++ [i]) low
      else sml_loop ps' (S i) high mid (low ++ [i])
  end.

(** [q[random(n)]] for a queue of [n] entries. *)
Definition draw (q : list nat) (g : rng) : option nat * rng :=
  let '(r, g) := random (Z.of_nat (length q)) g in (q !! Z.to_nat r, g).

Definition ready_sml (t : list slot) (g : rng) : option nat * rng :=
  let '(high, mid, low) := sml_loop t 0 [] [] [] in
  if (0 <? length high)%nat then draw high g
  else if (0 <? length mid)%nat then draw mid g
  else if (0 <? length low)%nat then draw low g
  else (None, g).

(** LOTTERY. *)
Fixpoint lottery_total (ps : list slot) (total : Z) : Z :=
  match ps with
  | [] => total
  | p :: ps' => lottery_total ps' (if runnable p then s32 (total + ntickets p) else total)
  end.

Definition lotteryTotal (t : list slot) : Z := lottery_total t 0.

(** The last [if] of the loop only skips to the next pass, which follows anyway. *)
Fixpoint lottery_loop (ps : list slot) (i : nat) (chosen : Z) (c : option nat) : option nat :=
  match ps with
  | [] => c
  | p :: ps' =>
      let '(chosen, c) := if runnable p then (s32 (chosen - ntickets p), Some i) else (chosen, c) in
      if negb (runnable p) || (0 <=? chosen) then lottery_loop ps' (S i) chosen c
      else lottery_loop ps' (S i) chosen c
  end.

Definition ready_lottery (ticks : Z) (t : list slot) : option nat :=
  let total := lotteryTotal t in
  if 0 <? total then
    let chosen := s32 (lcg_rand (lcg_rand ticks)) in
    let chosen := if total <? chosen then Z.rem chosen total else chosen in
    lottery_loop t 0 chosen None
  else None.

(** ** Accounting and settings *)

Definition tick (p : slot) : slot :=
  match st p with
  | SLEEPING => with_times (s32 (stime p + 1)) (retime p) (rutime p) p
  | RUNNABLE => with_times (stime p) (s32 (retime p + 1)) (rutime p) p
  | RUNNING => with_times (stime p) (retime p) (s32 (rutime p + 1)) p
  | _ => p
  end.

Definition update_statistics (t : list slot) : list slot := tick <$> t.

(** Changes the first slot with the pid, if there is one; returns the pid in any case. *)
Fixpoint set_first (pid : Z) (f : slot -> slot) (t : list slot) : list slot :=
  match t with
  | [] => []
  | p :: t' => if s_pid p =? pid then f p :: t' else p :: set_first pid f t'
  end.

Definition setpriority (pid x : Z) (t : list slot) : Z * list slot := (pid, set_first pid (with_priority x) t).
Definition settickets (pid x : Z) (t : list slot) : Z * list slot := (pid, set_first pid (with_tickets x) t).

(** An entry of the table as [getptable] gives it to user space. *)
Record proc_us := ProcUs {
  us_sz : Z; us_state : procstate; us_pid : Z; us_ppid : Z; us_name : list Z;
  us_priority : Z; us_ntickets : Z; us_ctime : Z; us_stime : Z; us_retime : Z; us_rutime : Z
}.

Section getptable.
(** What is read as the pid of the parent of a process that has none. *)
Variable null_pid : Z.

Definition parent_pid (t : list slot) (p : slot) : Z :=
  match s_parent p with Some i => s_pid (t !!! i) | None => null_pid end.

Definition copy_out (t : list slot) (p : slot) : proc_us :=
  ProcUs (s_size p) (st p) (s_pid p) (parent_pid t p) (s_name p) (priority p) (ntickets p)
    (ctime p) (stime p) (retime p) (rutime p).

(** The loop of [getptable]: [p_src] is an index, [done] what has been written to the buffer.  The
    [continue] for an unused slot leaves [p_src] where it is. *)
Fixpoint getptable_loop (n : nat) (src : nat) (t : list slot) (done : list proc_us) : list proc_us :=
  match n with
  | O => done
  | S n' =>
      let p := t !!! src in
      if bool_decide (st p = UNUSED) then getptable_loop n' src t done
      else getptable_loop n' (S src) t (done ++ [copy_out t p])
  end.

Definition getptable (nproc : nat) (t : list slot) : list proc_us := getptable_loop nproc 0 t [].
End getptable.

(** ** The scheduler of 05K *)

(** The inner loop: [h] is [highP] with its slot. *)
Fixpoint highest (ps : list slot) (i : nat) (h : nat * slot) : nat * slot :=
  match ps with
  | [] => h
  | p :: ps' => highest ps' (S i) (if runnable p && (priority p <? priority h.2) then (i, p) else h)
  end.

(** The outer loop from slot [k] on, [n] slots before the end: the process it switches to. *)
Fixpoint sched05 (t : list slot) (n : nat) (k : nat) : option nat :=
  match n with
  | O => None
  | S n' => if runnable (t !!! k) then Some (highest t 0 (k, t !!! k)).1 else sched05 t n' (S k)
  end.

(** The next process from the position [k] of the outer loop, a new pass included when this one is
    over, and the position after it: the loop goes on behind the process that ran. *)
Definition next05 (t : list slot) (k : nat) : option (nat * nat) :=
  match sched05 t (NPROC - k) k with
  | Some h => Some (h, S h)
  | None => match sched05 t NPROC 0 with Some h => Some (h, S h) | None => None end
  end.

(** The processes of the first [n] switches while the table stays the same. *)
Fixpoint schedule05 (t : list slot) (k : nat) (n : nat) : list nat :=
  match n with
  | O => []
  | S n' => match next05 t k with Some (h, k') => h :: schedule05 t k' n' | None => [] end
  end.
(** ** Facts about the choices *)

Lemma random_range max g : 0 < max -> 0 <= (random max g).1 < max.
Proof.
  intros Hm. unfold random. rewrite (proj2 (Z.leb_gt _ _)) by done. cbv zeta. cbn [fst].
  set (x := Z.lxor _ _). pose proof (Z.rem_bound_abs x max ltac:(lia)).
  destruct (Z.ltb_spec (Z.rem x max) 0); lia.
Qed.

(** [o] is a runnable slot of [t] with the least key, the first such; none if none is runnable. *)
Definition best (key : slot -> Z) (t : list slot) (o : option (nat * slot)) : Prop :=
  match o with
  | None => forall i p, t !! i = Some p -> runnable p = false
  | Some (i, p) => t !! i = Some p /\ runnable p = true /\
      forall j q, t !! j = Some q -> runnable q = true -> key p <= key q /\ ((j < i)%nat -> key p < key q)
  end.

Lemma lookup_snoc_cases {A} (l : list A) x i y :
  (l ++ [x]) !! i = Some y -> (l !! i = Some y /\ (i < length l)%nat) \/ (i = length l /\ y = x).
Proof.
  intros H. destruct (decide (i < length l)%nat) as [Hi | Hi].
  - left. by rewrite lookup_app_l in H by done.
  - right. rewrite lookup_app_r in H by lia. destruct (i - length l)%nat eqn:E; [| by destruct n].
    simpl in H. split; [lia | congruence].
Qed.

(** One pass of the loop. *)
Lemma best_step key pre p c :
  best key pre c ->
  best key (pre ++ [p])
    (if runnable p then
       match c with
       | None => Some (length pre, p)
       | Some (_, q) => if key p <? key q then Some (length pre, p) else c
       end
     else c).
Proof.
  intros Hc. destruct (runnable p) eqn:Hp.
  - destruct c as [[j q]|]; simpl in Hc.
    + destruct Hc as (Hj & Hq & Hmin). destruct (Z.ltb_spec (key p) (key q)) as [Hlt | Hge]; simpl.
      * split_and!; [by rewrite lookup_app_r, Nat.sub_diag by lia | done |].
        intros k x [[Hk Hkl] | [-> ->]]%lookup_snoc_cases Hx; [destruct (Hmin k x Hk Hx); lia | lia].
      * assert (j < length pre)%nat by (by eapply lookup_lt_Some).
        split_and!; [by rewrite lookup_app_l | done |].
        intros k x [[Hk Hkl] | [-> ->]]%lookup_snoc_cases Hx; [by apply Hmin | split; [done | lia]].
    + simpl. split_and!; [by rewrite lookup_app_r, Nat.sub_diag by lia | done |].
      intros k x [[Hk Hkl] | [-> ->]]%lookup_snoc_cases Hx; [by rewrite (Hc k x Hk) in Hx | lia].
  - destruct c as [[j q]|]; simpl in Hc |- *.
    + destruct Hc as (Hj & Hq & Hmin). assert (j < length pre)%nat by (by eapply lookup_lt_Some).
      split_and!; [by rewrite lookup_app_l | done |].
      intros k x [[Hk Hkl] | [-> ->]]%lookup_snoc_cases Hx; [by apply Hmin | by rewrite Hp in Hx].
    + intros k x [[Hk _] | [-> ->]]%lookup_snoc_cases; [by eapply Hc | done].
Qed.

Lemma pick_loop_best key ps : forall pre c, best key pre c -> best key (pre ++ ps) (pick_loop key ps (length pre) c).
Proof.
  induction ps as [|p ps IH]; intros pre c Hc; [by rewrite app_nil_r |]. cbn [pick_loop]. cbv zeta.
  rewrite (cons_middle p pre ps), app_assoc. replace (S (length pre)) with (length (pre ++ [p])) by (rewrite length_app; simpl; lia).
  apply IH, best_step, Hc.
Qed.

Lemma pick_best key t : best key t (pick_loop key t 0 None).
Proof. apply (pick_loop_best key t [] None). intros i p. by rewrite lookup_nil. Qed.

(** The index alone. *)
Definition best_choice (key : slot -> Z) (t : list slot) (o : option nat) : Prop :=
  match o with
  | None => forall i p, t !! i = Some p -> runnable p = false
  | Some i => exists p, t !! i = Some p /\ runnable p = true /\
      forall j q, t !! j = Some q -> runnable q = true -> key p <= key q /\ ((j < i)%nat -> key p < key q)
  end.

Lemma pick_best_choice key t : best_choice key t (fst <$> pick_loop key t 0 None).
Proof.
  pose proof (pick_best key t) as H. destruct (pick_loop key t 0 None) as [[i p]|]; simpl in *; [| exact H].
  exists p. exact H.
Qed.

(** *** Static multilevel queues *)

(** The queue a priority belongs to. *)
Definition level (p : slot) : Z := if priority p <=? 7 then 0 else if priority p <=? 14 then 1 else 2.

Definition holds_level (t : list slot) (v : Z) (q : list nat) : Prop :=
  forall i, i ∈ q <-> exists p, t !! i = Some p /\ runnable p = true /\ level p = v.

Lemma holds_level_snoc pre p v q :
  holds_level pre v q ->
  holds_level (pre ++ [p]) v (if runnable p && (level p =? v) then q ++ [length pre] else q).
Proof.
  intros Hq i.
  assert (Hi : (exists x, (pre ++ [p]) !! i = Some x /\ runnable x = true /\ level x = v) <->
    i ∈ q \/ (i = length pre /\ runnable p = true /\ level p = v)).
  { rewrite (Hq i). split.
    - intros (x & [[Hx _] | [-> ->]]%lookup_snoc_cases & H1 & H2); [left; eauto | by right].
    - intros [(x & Hx & H1 & H2) | (-> & H1 & H2)]; [exists x | exists p]; split_and!; try done.
      + rewrite lookup_app_l; [done | by eapply lookup_lt_Some].
      + by rewrite lookup_app_r, Nat.sub_diag by lia. }
  rewrite Hi. destruct (runnable p) eqn:Hp; simpl; [destruct (Z.eqb_spec (level p) v) as [E | E] |].
  - rewrite elem_of_app, list_elem_of_singleton. naive_solver.
  - naive_solver.
  - naive_solver.
Qed.

Lemma sml_loop_holds ps : forall pre high mid low,
  holds_level pre 0 high -> holds_level pre 1 mid -> holds_level pre 2 low ->
  let '(h, m, l) := sml_loop ps (length pre) high mid low in
  holds_level (pre ++ ps) 0 h /\ holds_level (pre ++ ps) 1 m /\ holds_level (pre ++ ps) 2 l.
Proof.
  induction ps as [|p ps IH]; intros pre high mid low H0 H1 H2; cbn [sml_loop]; [by rewrite app_nil_r |].
  apply (holds_level_snoc _ p) in H0, H1, H2. rewrite (cons_middle p pre ps), app_assoc.
  replace (S (length pre)) with (length (pre ++ [p])) by (rewrite length_app; simpl; lia).
  unfold level in H0, H1, H2. destruct (runnable p); simpl in *; [| by apply IH].
  destruct (Z.leb_spec (priority p) 7) as [Ha | Ha]; simpl in *; [by apply IH |].
  rewrite (proj2 (Z.ltb_lt 7 (priority p))) by lia.
  destruct (Z.leb_spec (priority p) 14) as [Hb | Hb]; simpl in *; by apply IH.
Qed.

Lemma draw_in q g : q <> [] -> exists i, (draw q g).1 = Some i /\ i ∈ q.
Proof.
  intros Hq. unfold draw. pose proof (random_range (Z.of_nat (length q)) g) as Hr.
  assert (0 < length q)%nat by (destruct q; [done | simpl; lia]).
  destruct (random _ g) as [r g'] eqn:E. simpl in *.
  destruct (lookup_lt_is_Some_2 q (Z.to_nat r)) as [i Hi]; [lia |]. exists i. split; [done |]. by eapply list_elem_of_lookup_2.
Qed.

(** [o] is a runnable process of the lowest level that has one. *)
Definition level_choice (t : list slot) (o : option nat) : Prop :=
  match o with
  | None => forall i p, t !! i = Some p -> runnable p = false
  | Some i => exists p, t !! i = Some p /\ runnable p = true /\
      forall j q, t !! j = Some q -> runnable q = true -> level p <= level q
  end.

Lemma level_range p : 0 <= level p <= 2.
Proof. unfold level. destruct (_ <=? 7); [lia |]. destruct (_ <=? 14); lia. Qed.

Lemma queue_choice t v q g :
  holds_level t v q -> q <> [] -> (forall j p, t !! j = Some p -> runnable p = true -> v <= level p) ->
  level_choice t (draw q g).1.
Proof.
  intros Hq Hne Hmin. destruct (draw_in q g Hne) as (i & -> & Hi). apply Hq in Hi as (p & Hp & Hr & Hl).
  exists p. split_and!; [done | done |]. rewrite Hl. exact Hmin.
Qed.

Lemma ready_sml_choice t g : level_choice t (ready_sml t g).1.
Proof.
  unfold ready_sml. pose proof (sml_loop_holds t [] [] [] []) as H.
  assert (Hn : forall v, holds_level [] v []).
  { intros v i. split; [by intros ?%not_elem_of_nil | intros (p & Hp & _); by rewrite lookup_nil in Hp]. }
  specialize (H (Hn 0) (Hn 1) (Hn 2)). simpl in H. destruct (sml_loop t 0 [] [] []) as [[h m] l]. destruct H as (H0 & H1 & H2).
  assert (Hempty : forall v q, holds_level t v q -> q = [] -> forall j p, t !! j = Some p -> runnable p = true -> level p <> v).
  { intros v q Hq -> j p Hp Hr Hl. apply (not_elem_of_nil j), Hq. eauto. }
  destruct h as [|h0 h]; cbn [length Nat.ltb Nat.leb].
  2: { eapply queue_choice; [exact H0 | done |]. intros j p _ _. apply level_range. }
  destruct m as [|m0 m]; cbn [length Nat.ltb Nat.leb].
  2: { eapply queue_choice; [exact H1 | done |]. intros j p Hp Hr. pose proof (level_range p).
       pose proof (Hempty 0 [] H0 eq_refl j p Hp Hr). lia. }
  destruct l as [|l0 l]; cbn [length Nat.ltb Nat.leb].
  2: { eapply queue_choice; [exact H2 | done |]. intros j p Hp Hr. pose proof (level_range p).
       pose proof (Hempty 0 [] H0 eq_refl j p Hp Hr). pose proof (Hempty 1 [] H1 eq_refl j p Hp Hr). lia. }
  intros j p Hp. destruct (runnable p) eqn:Hr; [| done]. exfalso. pose proof (level_range p).
  pose proof (Hempty 0 [] H0 eq_refl j p Hp Hr). pose proof (Hempty 1 [] H1 eq_refl j p Hp Hr).
  pose proof (Hempty 2 [] H2 eq_refl j p Hp Hr). lia.
Qed.

(** *** The random start of DEFAULT *)

(** [o] is some runnable process, if there is one. *)
Definition some_choice (t : list slot) (o : option nat) : Prop :=
  match o with
  | None => forall i p, t !! i = Some p -> runnable p = false
  | Some i => exists p, t !! i = Some p /\ runnable p = true
  end.

Lemma default_loop_spec n : forall i rnd t,
  match default_loop n i rnd t with
  | Some k => (k < NPROC)%nat /\ runnable (t !!! k) = true
  | None => forall j, (i <= j < i + n)%nat -> runnable (t !!! ((rnd + j) mod NPROC)%nat) = false
  end.
Proof.
  induction n as [|n IH]; intros i rnd t; cbn [default_loop]; [intros j Hj; lia |]. cbv zeta.
  destruct (runnable (t !!! ((rnd + i) mod NPROC)%nat)) eqn:E.
  - split; [by apply Nat.mod_upper_bound | done].
  - specialize (IH (S i) rnd t). destruct (default_loop n (S i) rnd t); [done |].
    intros j Hj. destruct (decide (j = i)) as [-> | Hne]; [done |]. apply IH. lia.
Qed.

Lemma ready_default_choice t g : length t = NPROC -> some_choice t (ready_default t g).1.
Proof.
  intros Hlen. unfold ready_default. pose proof (random_range (Z.of_nat NPROC) g ltac:(done)) as Hr.
  destruct (random _ g) as [rnd g']. cbn [fst] in *.
  pose proof (default_loop_spec NPROC 0 (Z.to_nat rnd) t) as H. destruct (default_loop _ _ _ t) as [k|]; simpl.
  - destruct H as [Hk Hrun]. exists (t !!! k). split; [| done]. apply list_lookup_lookup_total_lt. lia.
  - intros i p Hp. assert (Hi : (i < NPROC)%nat) by (rewrite <- Hlen; by eapply lookup_lt_Some).
    set (r := Z.to_nat rnd) in *. assert (Hrn : (r < NPROC)%nat) by (unfold r; lia).
    specialize (H ((i + NPROC - r) mod NPROC)%nat). rewrite (list_lookup_total_correct t _ p) in H; [apply H |].
    + split; [lia |]. by apply Nat.mod_upper_bound.
    + rewrite Nat.Div0.add_mod_idemp_r. replace (r + (i + NPROC - r))%nat with (i + 1 * NPROC)%nat by lia.
      rewrite Nat.Div0.mod_add. by rewrite Nat.mod_small.
Qed.

(** *** The lottery *)

(** The last runnable process of the table, from index [i] on; [c] if there is none. *)
Fixpoint last_runnable (ps : list slot) (i : nat) (c : option nat) : option nat :=
  match ps with
  | [] => c
  | p :: ps' => last_runnable ps' (S i) (if runnable p then Some i else c)
  end.

Lemma lottery_loop_last ps : forall i chosen c, lottery_loop ps i chosen c = last_runnable ps i c.
Proof.
  induction ps as [|p ps IH]; intros i chosen c; [done |]. cbn [lottery_loop last_runnable].
  destruct (runnable p); simpl; [destruct (0 <=? _) |]; apply IH.
Qed.

Lemma last_runnable_spec ps : forall i c k,
  last_runnable ps i c = Some k ->
  (c = Some k /\ (forall j p, ps !! j = Some p -> runnable p = false)) \/
  (exists j p, k = (i + j)%nat /\ ps !! j = Some p /\ runnable p = true /\
     forall j' q, (j < j')%nat -> ps !! j' = Some q -> runnable q = false).
Proof.
  induction ps as [|p ps IH]; intros i c k; cbn [last_runnable]; [intros ->; by left |].
  intros [[Hc Hn] | (j & q & -> & Hq & Hr & Hn)]%IH.
  - destruct (runnable p) eqn:Hp.
    + injection Hc as <-. right. exists 0%nat, p. split_and!; [lia | done | done |].
      intros [|j'] q Hj Hq; [lia |]. by apply (Hn j').
    + left. split; [done |]. intros [|j] q Hq; [by injection Hq as <- | by apply (Hn j)].
  - right. exists (S j), q. split_and!; [lia | done | done |]. intros [|j'] x Hj Hx; [lia |]. apply (Hn j'); [lia | done].
Qed.

(** *** Accounting *)

Lemma tick_state p : st (tick p) = st p /\ runnable (tick p) = runnable p.
Proof. unfold tick, runnable. destruct (st p) eqn:E; simpl; by rewrite E. Qed.

(** *** The priority scheduler of 05K *)

Lemma highest_spec ps : forall i h, runnable h.2 = true ->
  let r := highest ps i h in
  runnable r.2 = true /\ priority r.2 <= priority h.2 /\
  (forall j q, ps !! j = Some q -> runnable q = true -> priority r.2 <= priority q) /\
  (r = h \/ (priority r.2 < priority h.2 /\ exists j, r.1 = (i + j)%nat /\ ps !! j = Some r.2 /\
     forall j' q, (j' < j)%nat -> ps !! j' = Some q -> runnable q = true -> priority r.2 < priority q)).
Proof.
  induction ps as [|p ps IH]; intros i h Hr; cbn [highest]; cbv zeta.
  { split_and!; [done | lia | by intros j q; rewrite lookup_nil | by left]. }
  destruct (runnable p && (priority p <? priority h.2)) eqn:Hc.
  - apply andb_prop in Hc as [Hp Hlt%Z.ltb_lt].
    destruct (IH (S i) (i, p) Hp) as (R1 & R2 & R3 & R4). set (r := highest _ _ _) in *. simpl in R2, R4.
    split_and!; [done | lia | |].
    + intros [|j] q Hq Hrq; [by injection Hq as <- | by eapply R3].
    + right. split; [lia |]. destruct R4 as [-> | (R4 & j & E & Hj & Hn)].
      * exists 0%nat. simpl. split_and!; [lia | done | intros j' q Hj'; lia].
      * exists (S j). split_and!; [lia | done |].
        intros [|j'] q Hj' Hq Hrq; [by injection Hq as <- | apply (Hn j'); [lia | done | done]].
  - destruct (IH (S i) h Hr) as (R1 & R2 & R3 & R4). set (r := highest _ _ _) in *.
    assert (Hp : runnable p = true -> priority h.2 <= priority p).
    { intros Hp. rewrite Hp in Hc. simpl in Hc. apply Z.ltb_ge in Hc. done. }
    split_and!; [done | done | |].
    + intros [|j] q Hq Hrq; [injection Hq as <-; specialize (Hp Hrq); lia | by eapply R3].
    + destruct R4 as [-> | (R4 & j & E & Hj & Hn)]; [by left | right]. split; [done |].
      exists (S j). split_and!; [lia | done |].
      intros [|j'] q Hj' Hq Hrq; [injection Hq as <-; specialize (Hp Hrq); lia | apply (Hn j'); [lia | done | done]].
Qed.

(** From a runnable slot that is not of the best priority, the search ends at the first that is. *)
Lemma highest_first t k a p q :
  t !! k = Some q -> runnable q = true -> t !! a = Some p -> runnable p = true ->
  (forall j x, t !! j = Some x -> runnable x = true -> priority p <= priority x /\ ((j < a)%nat -> priority p < priority x)) ->
  k = a \/ priority p < priority q -> (highest t 0 (k, q)).1 = a.
Proof.
  intros Hk Hq Ha Hp Hmin Hne. destruct (highest_spec t 0 (k, q) Hq) as (R1 & R2 & R3 & R4).
  set (r := highest t 0 (k, q)) in *. pose proof (R3 a p Ha Hp) as Hle. simpl in R2.
  destruct R4 as [E | (Hlt & j & E & Hj & Hn)].
  - rewrite E in *. simpl in *. destruct Hne as [-> | ?]; [done | lia].
  - rewrite E. simpl. destruct (Hmin j r.2 Hj R1) as [H1 H2].
    destruct (decide (j < a)%nat) as [Hja | Hja]; [specialize (H2 Hja); lia |].
    destruct (decide (a < j)%nat) as [Haj | Haj]; [| lia]. specialize (Hn a p Haj Ha Hp). lia.
Qed.

Lemma sched05_skip t n : forall k m,
  (k <= m)%nat -> (m < k + n)%nat -> (forall j, (k <= j < m)%nat -> runnable (t !!! j) = false) -> runnable (t !!! m) = true ->
  sched05 t n k = Some (highest t 0 (m, t !!! m)).1.
Proof.
  induction n as [|n IH]; intros k m Hkm Hmn Hno Hm; [lia |]. cbn [sched05].
  destruct (decide (k = m)) as [-> | Hne]; [by rewrite Hm |].
  rewrite (Hno k) by lia. apply IH; try done; [lia | lia |]. intros j Hj. apply Hno. lia.
Qed.

Lemma sched05_none t n : forall k, sched05 t n k = None -> forall j, (k <= j < k + n)%nat -> runnable (t !!! j) = false.
Proof.
  induction n as [|n IH]; intros k H j Hj; [lia |]. cbn [sched05] in H. destruct (runnable (t !!! k)) eqn:E; [done |].
  destruct (decide (j = k)) as [-> | Hne]; [done |]. apply (IH (S k) H). lia.
Qed.

(** *** Reading the table *)

Definition used (p : slot) : bool := negb (bool_decide (st p = UNUSED)).

(** The slots before the first unused one. *)
Fixpoint used_prefix (t : list slot) : list slot :=
  match t with [] => [] | p :: t' => if used p then p :: used_prefix t' else [] end.

Lemma getptable_loop_stuck null_pid n src t done :
  used (t !!! src) = false -> getptable_loop null_pid n src t done = done.
Proof.
  intros Hu. unfold used in Hu. apply negb_false_iff in Hu. induction n as [|n IH]; [done |]. cbn [getptable_loop]. cbv zeta.
  by rewrite Hu.
Qed.

Lemma getptable_loop_spec null_pid t n : forall src done,
  (src + n <= length t)%nat ->
  getptable_loop null_pid n src t done = done ++ (copy_out null_pid t <$> take n (used_prefix (drop src t))).
Proof.
  induction n as [|n IH]; intros src done Hn; [by rewrite app_nil_r |]. cbn [getptable_loop]. cbv zeta.
  destruct (lookup_lt_is_Some_2 t src) as [p Hp]; [lia |]. rewrite (list_lookup_total_correct t src p Hp).
  rewrite (drop_S t p src Hp). cbn [used_prefix].
  destruct (bool_decide (st p = UNUSED)) eqn:E.
  - assert (Hu : used p = false) by (unfold used; by rewrite E). rewrite Hu. rewrite take_nil. cbn [fmap list_fmap]. rewrite app_nil_r.
    apply getptable_loop_stuck. by rewrite (list_lookup_total_correct t src p Hp).
  - assert (Hu : used p = true) by (unfold used; by rewrite E). rewrite Hu, IH by lia. cbn [take fmap list_fmap].
    by rewrite <- app_assoc.
Qed.
Lemma first_runnable (t : list slot) (a : nat) : runnable (t !!! a) = true ->
  exists k, (k <= a)%nat /\ runnable (t !!! k) = true /\ forall j, (j < k)%nat -> runnable (t !!! j) = false.
Proof.
  induction a as [a IH] using lt_wf_ind. intros Ha.
  destruct (decide (Exists (fun j => runnable (t !!! j) = true) (seq 0 a))) as [He | Hn].
  - apply list.Exists_exists in He as (j & Hj & Hr). apply elem_of_seq in Hj.
    destruct (IH j ltac:(lia) Hr) as (k & Hk & Hr' & Hno). exists k. split_and!; [lia | done | done].
  - exists a. split_and!; [done | done |]. intros j Hj. destruct (runnable (t !!! j)) eqn:E; [| done].
    destruct Hn. apply list.Exists_exists. exists j. split; [apply elem_of_seq; lia | done].
Qed.

Lemma lottery_total_none ps : forall total,
  (forall i p, ps !! i = Some p -> runnable p = false) -> lottery_total ps total = total.
Proof.
  induction ps as [|p ps IH]; intros total H; [done |]. cbn [lottery_total]. rewrite (H 0%nat p eq_refl).
  apply IH. intros i. apply (H (S i)).
Qed.

Lemma last_runnable_none ps : forall i c, last_runnable ps i c = None -> forall j p, ps !! j = Some p -> runnable p = false.
Proof.
  induction ps as [|p ps IH]; intros i c H j q Hq; [done |]. cbn [last_runnable] in H.
  destruct j as [|j]; [injection Hq as <- | by apply (IH _ _ H j)].
  destruct (runnable p) eqn:E; [| done]. exfalso. revert H. generalize (S i). clear -ps.
  assert (Hs : forall n k, last_runnable ps n (Some k) <> None).
  { induction ps as [|x ps IH]; intros n k; [done |]. cbn [last_runnable]. by destruct (runnable x); apply IH. }
  intros n H. by apply Hs in H.
Qed.

End Policies.

(** ** Properties *)


(** The lottery is not a lottery.  Whenever there are tickets, LOTTERY runs the last runnable
    process of the table, whatever number is drawn: the loop goes on after it has found the winner. *)
Theorem lottery_ignores_draw (t : list Policies.slot) :
  0 < Policies.lotteryTotal t ->
  exists k p, t !! k = Some p /\ Policies.runnable p = true /\
    (forall j q, (k < j)%nat -> t !! j = Some q -> Policies.runnable q = false) /\
    forall ticks, Policies.ready_lottery ticks t = Some k.
Proof.
  intros Ht. destruct (Policies.last_runnable t 0 None) as [k|] eqn:E.
  - pose proof (Policies.last_runnable_spec t 0 None k E) as [[? _] | (j & p & -> & Hp & Hr & Hn)]; [done |].
    exists j, p. split_and!; try done. intros ticks. unfold Policies.ready_lottery. cbv zeta.
    rewrite (proj2 (Z.ltb_lt _ _) Ht), Policies.lottery_loop_last. exact E.
  - exfalso. unfold Policies.lotteryTotal in Ht. rewrite Policies.lottery_total_none in Ht; [lia |].
    apply (Policies.last_runnable_none _ _ _ E).
Qed.

(** A process can starve beside another of the same priority.  In 05K the outer loop continues
    behind the process that ran last.  If [a] is the first process with the best priority and the
    next runnable process after it has a worse one, then [a] runs every time, for as long as nothing
    else changes: any other process of the same priority further down never runs. *)
Theorem priority_starves_equal (t : list Policies.slot) (a m : nat) (p q : Policies.slot) (n : nat) :
  length t = NPROC -> t !! a = Some p -> Policies.runnable p = true ->
  (forall j x, t !! j = Some x -> Policies.runnable x = true ->
     Policies.priority p <= Policies.priority x /\ ((j < a)%nat -> Policies.priority p < Policies.priority x)) ->
  (a < m)%nat -> t !! m = Some q -> Policies.runnable q = true -> Policies.priority p < Policies.priority q ->
  (forall j x, (a < j < m)%nat -> t !! j = Some x -> Policies.runnable x = false) ->
  Policies.schedule05 t 0 n = replicate n a.
Proof.
  intros Hlen Ha Hp Hmin Ham Hm Hq Hlt Hno.
  assert (Hml : (m < NPROC)%nat) by (rewrite <- Hlen; by eapply lookup_lt_Some).
  assert (Hn0 : Policies.next05 t 0 = Some (a, S a)).
  { destruct (Policies.first_runnable t a) as (k & Hk & Hrk & Hnk); [by rewrite (list_lookup_total_correct t a p Ha) |].
    destruct (lookup_lt_is_Some_2 t k) as [x Hx]; [lia |].
    unfold Policies.next05. rewrite Nat.sub_0_r.
    rewrite (Policies.sched05_skip t NPROC 0 k) by (try done; try lia; intros j Hj; apply Hnk; lia).
    rewrite (list_lookup_total_correct t k x Hx) in Hrk |- *.
    rewrite (Policies.highest_first t k a p x); try done. destruct (decide (k = a)) as [| Hne]; [by left | right].
    apply (Hmin k x Hx Hrk). lia. }
  assert (Hn1 : Policies.next05 t (S a) = Some (a, S a)).
  { unfold Policies.next05. rewrite (Policies.sched05_skip t (NPROC - S a) (S a) m); [| lia | lia | |].
    - rewrite (list_lookup_total_correct t m q Hm), (Policies.highest_first t m a p q); try done. by right.
    - intros j Hj. destruct (lookup_lt_is_Some_2 t j) as [x Hx]; [lia |]. rewrite (list_lookup_total_correct t j x Hx).
      apply (Hno j); [lia | done].
    - by rewrite (list_lookup_total_correct t m q Hm). }
  assert (Hs : forall n, Policies.schedule05 t (S a) n = replicate n a).
  { clear n. induction n as [|n IH]; [done |]. cbn [Policies.schedule05]. by rewrite Hn1, IH. }
  destruct n as [|n]; [done |]. cbn [Policies.schedule05]. by rewrite Hn0, Hs.
Qed.

(** [getptable] reports the processes before the first unused slot, and no others: for an
    unused slot its loop goes on without advancing, so that every later process is missing. *)
Theorem getptable_stops_at_gap (null_pid : Z) (nproc : nat) (t : list Policies.slot) :
  (nproc <= length t)%nat ->
  Policies.getptable null_pid nproc t = Policies.copy_out null_pid t <$> take nproc (Policies.used_prefix t).
Proof. intros Hn. unfold Policies.getptable. by rewrite Policies.getptable_loop_spec. Qed.

(** ** A table of four processes *)

Definition demo_slot (x : procstate) (pid prio : Z) : Policies.slot := Policies.Slot x pid 0 (Some 0%nat) [] prio 5 pid 0 0 0.
Definition demo_table : list Policies.slot :=
  [demo_slot RUNNABLE 1 5; demo_slot RUNNABLE 2 10; demo_slot UNUSED 0 0; demo_slot RUNNABLE 3 5] ++ replicate 60 (demo_slot UNUSED 0 0).

Lemma demo_unused j x : (4 <= j)%nat -> demo_table !! j = Some x -> x = demo_slot UNUSED 0 0.
Proof.
  intros Hj Hx. unfold demo_table in Hx. rewrite lookup_app_r in Hx by (simpl; lia). by apply lookup_replicate in Hx as [-> _].
Qed.

(** The slots of the table in turn. *)
Ltac each_slot j x Hx :=
  destruct (decide (4 <= j)%nat) as [|];
    [pose proof (demo_unused j x ltac:(done) Hx); subst x |
     destruct j as [|[|[|[|j]]]]; [| | | | lia]; injection Hx as <-].


Lemma lottery_ignores_draw_witness : Policies.ready_lottery 7 demo_table = Some 3%nat.
Proof.
  destruct (lottery_ignores_draw demo_table) as (k & p & Hk & Hr & Hn & Ht); [by vm_compute |].
  assert (k = 3%nat) as ->; [| exact (Ht 7)]. pose proof (Ht 0) as H0. vm_compute in H0. congruence.
Defined.

Lemma priority_starves_equal_witness : Policies.schedule05 demo_table 0 100 = replicate 100 0%nat.
Proof.
  apply (priority_starves_equal demo_table 0 1 (demo_slot RUNNABLE 1 5) (demo_slot RUNNABLE 2 10) 100);
    [reflexivity | reflexivity | reflexivity | | lia | reflexivity | reflexivity | simpl; lia | intros j x Hj; lia].
  intros j x Hx Hr. each_slot j x Hx; simpl; first [done | lia].
Defined.

Lemma getptable_stops_at_gap_witness :
  length (Policies.getptable 0 64 demo_table) = 2%nat /\ length (List.filter Policies.used demo_table) = 3%nat.
Proof. rewrite (getptable_stops_at_gap 0 64 demo_table) by (simpl; lia). by vm_compute. Defined.
