(* ===== verification/LabStride.v ===== *)
(** * The stride scheduling exercise: the binary heap of heap.c

    The heap is an array of process indices from 1 to [last], ordered by the [pass] of the processes;
    each process keeps its [position].  Arrays are functions; [pass] and [position] are fields of the
    processes, which the heap operations update in place. *)
From S2P Require Import Prelude.
#[local] Open Scope nat_scope.

Module Stride.

Record procs := Procs { heap : nat -> nat; pass : nat -> Z; position : nat -> nat }.

Definition child_left (x : nat) : nat := 2 * x.
Definition child_right (x : nat) : nat := 2 * x + 1.
Definition parent (x : nat) : nat := if x mod 2 =? 0 then x / 2 else (x - 1) / 2.
Definition valid (x last : nat) : bool := x <=? last.

Definition set_heap (i p : nat) (s : procs) : procs := Procs (fupd (heap s) i p) (pass s) (position s).
Definition set_position (p i : nat) (s : procs) : procs := Procs (heap s) (pass s) (fupd (position s) p i).

(** The exchange of the entries [i] and [j], in the order of the assignments of the code: [tmp] is the
    old entry [j]; the two positions are then assigned one from the other. *)
Definition exchange (i j : nat) (s : procs) : procs :=
  let tmp := heap s j in
  let s := set_heap j (heap s i) s in
  let s := set_heap i tmp s in
  let s := set_position tmp (position s (heap s j)) s in
  let s := set_position (heap s j) (position s (heap s i)) s in
  set_position (heap s i) (position s tmp) s.

(** [checkHeapChild]; [fuel] bounds the depth. *)
Fixpoint checkHeapChild (fuel i last : nat) (s : procs) : procs :=
  match fuel with
  | O => s
  | S f =>
      let smallest := i in
      let smallest :=
        if valid (child_left i) last && (pass s (heap s (child_left i)) <? pass s (heap s smallest))%Z
        then child_left i else smallest in
      let smallest :=
        if valid (child_right i) last && (pass s (heap s (child_right i)) <? pass s (heap s smallest))%Z
        then child_right i else smallest in
      if smallest =? i then s else checkHeapChild f smallest last (exchange i smallest s)
  end.

(** [checkHeapParent]: it goes on to the root whether or not it exchanged, and returns its argument. *)
Fixpoint checkHeapParent (fuel i : nat) (s : procs) : nat * procs :=
  match fuel with
  | O => (i, s)
  | S f =>
      if i =? 1 then (i, s)
      else
        let s :=
          if (pass s (heap s i) <? pass s (heap s (parent i)))%Z then exchange i (parent i) s else s in
        (i, (checkHeapParent f (parent i) s).2)
  end.

Definition insert (p last : nat) (s : procs) : nat * procs := checkHeapParent last last (set_heap last p s).

Definition extract (target last : nat) (s : procs) : nat * procs :=
  let q := heap s target in
  let s := set_position (heap s last) (position s (heap s target)) s in
  let s := set_heap target (heap s last) s in
  (q, checkHeapChild last target last s).
(** ** The heap as a priority queue *)

Definition key (s : procs) (k : nat) : Z := pass s (heap s k).

(** Entries [1 .. n] in heap order. *)
Definition ordered (n : nat) (s : procs) : Prop := forall k, 2 <= k <= n -> (key s (k / 2) <= key s k)%Z.

(** The heap holds the processes [X], each once. *)
Definition contains (n : nat) (s : procs) (X : gset nat) : Prop :=
  (forall i j, 1 <= i <= n -> 1 <= j <= n -> heap s i = heap s j -> i = j) /\
  (forall x, x ∈ X <-> exists i, 1 <= i <= n /\ heap s i = x).

Definition represents (n : nat) (s : procs) (X : gset nat) : Prop := ordered n s /\ contains n s X.

Lemma parent_div2 x : parent x = x / 2.
Proof.
  unfold parent. destruct (Nat.eqb_spec (x mod 2) 0) as [E | E]; [done |].
  pose proof (Nat.div_mod_eq x 2). pose proof (Nat.mod_upper_bound x 2 ltac:(lia)).
  replace (x - 1) with (x / 2 * 2) by lia. apply Nat.div_mul. lia.
Qed.

Lemma exchange_pass i j s : pass (exchange i j s) = pass s.
Proof. done. Qed.

Lemma exchange_heap i j s k :
  heap (exchange i j s) k = if decide (k = i) then heap s j else if decide (k = j) then heap s i else heap s k.
Proof. unfold exchange, set_heap, set_position, fupd. simpl. by repeat case_decide. Qed.

Lemma exchange_key i j s k :
  key (exchange i j s) k = if decide (k = i) then key s j else if decide (k = j) then key s i else key s k.
Proof. unfold key. rewrite exchange_pass, exchange_heap. by repeat case_decide. Qed.

Lemma exchange_contains n i j s X : 1 <= i <= n -> 1 <= j <= n -> contains n s X -> contains n (exchange i j s) X.
Proof.
  intros Hi Hj [Hinj Hx]. split.
  - intros a b Ha Hb. rewrite !exchange_heap. repeat case_decide; subst; try done; intros E; apply Hinj in E; lia.
  - intros x. rewrite Hx. split; intros (k & Hk & <-).
    + destruct (decide (k = i)) as [-> | ?]; [exists j | destruct (decide (k = j)) as [-> | ?]; [exists i | exists k]];
        rewrite exchange_heap; repeat case_decide; subst; (split; [lia | done || congruence]).
    + rewrite exchange_heap. repeat case_decide; subst; eauto.
Qed.

(** *** Moving an entry up *)

(** In order except that entry [i] may be smaller than its parent. *)
Definition up_inv (n i : nat) (s : procs) : Prop :=
  (forall k, 2 <= k <= n -> k <> i -> (key s (k / 2) <= key s k)%Z) /\
  (forall k, 2 <= k <= n -> k / 2 = i -> 2 <= i -> (key s (i / 2) <= key s k)%Z).

Lemma half_lt i : 2 <= i -> 1 <= i / 2 < i.
Proof. intros. split; [apply (Nat.div_le_mono 2 i 2); lia | apply Nat.div_lt; lia]. Qed.

Lemma up_exchange n i s :
  2 <= i <= n -> up_inv n i s -> (key s i < key s (i / 2))%Z -> up_inv n (i / 2) (exchange i (i / 2) s).
Proof.
  intros Hi [H1 H2] Hlt. pose proof (half_lt i ltac:(lia)) as Hp. set (p := i / 2) in *. split.
  - intros k Hk Hkp. pose proof (half_lt k ltac:(lia)). rewrite !exchange_key.
    destruct (decide (k = i)) as [-> | Hki]; [rewrite decide_False, decide_True by (unfold p in *; lia); lia |].
    rewrite (decide_False (P := k = p)) by done.
    destruct (decide (k / 2 = i)) as [E | E]; [apply H2; lia |].
    destruct (decide (k / 2 = p)) as [E' | E']; [| by apply H1].
    specialize (H1 k Hk Hki). rewrite E' in H1. lia.
  - intros k Hk Hkp Hp2. pose proof (half_lt p Hp2). rewrite !exchange_key.
    rewrite (decide_False (P := p / 2 = i)), (decide_False (P := p / 2 = p)) by lia.
    pose proof (H1 p ltac:(lia) ltac:(lia)) as Hpp.
    destruct (decide (k = i)) as [-> | Hki]; [done |].
    rewrite decide_False by (intros ->; lia). specialize (H1 k Hk Hki). rewrite Hkp in H1. lia.
Qed.

Lemma checkHeapParent_ok n X : forall fuel i s,
  1 <= i <= n -> i <= fuel -> up_inv n i s -> contains n s X ->
  let s' := (checkHeapParent fuel i s).2 in represents n s' X /\ pass s' = pass s.
Proof.
  induction fuel as [|f IH]; intros i s Hi Hf Hup Hc; [lia |]. cbn [checkHeapParent].
  destruct (Nat.eqb_spec i 1) as [-> | Hi1]; cbv zeta.
  { split; [| done]. split; [| done]. intros k Hk. apply Hup; lia. }
  cbn [snd]. rewrite parent_div2. pose proof (half_lt i ltac:(lia)) as Hp. fold (key s i) (key s (i / 2)).
  destruct (Z.ltb_spec (key s i) (key s (i / 2))) as [Hlt | Hge].
  - change (pass s) with (pass (exchange i (i / 2) s)).
    apply IH; [lia | lia | apply up_exchange; [lia | done | done] | apply exchange_contains; [lia | lia | done]].
  - apply IH; [lia | lia | | done]. destruct Hup as [H1 H2]. split.
    + intros k Hk Hki. destruct (decide (k = i)) as [-> | ?]; [done | by apply H1].
    + intros k Hk Hki Hp2. pose proof (H1 (i / 2) ltac:(lia) ltac:(lia)) as Hpp.
      destruct (decide (k = i)) as [-> | ?]; [lia |]. specialize (H1 k Hk ltac:(done)). rewrite Hki in H1. lia.
Qed.

(** *** Moving an entry down *)

(** In order except that entry [i] may be larger than its children; the entry behind the end is still
    the one that was moved to [i]. *)
Definition down_inv (n i : nat) (s : procs) : Prop :=
  (forall k, 2 <= k <= n -> k / 2 <> i -> (key s (k / 2) <= key s k)%Z) /\
  (forall k, 2 <= k <= n -> k / 2 = i -> 2 <= i -> (key s (i / 2) <= key s k)%Z) /\
  key s (S n) = key s i.

(** The child the code goes on with. *)
Definition smaller_child (i last : nat) (s : procs) : nat :=
  let smallest := if valid (child_left i) last && (key s (child_left i) <? key s i)%Z then child_left i else i in
  if valid (child_right i) last && (key s (child_right i) <? key s smallest)%Z then child_right i else smallest.

Lemma half_children k i : k / 2 = i <-> k = 2 * i \/ k = 2 * i + 1.
Proof.
  split.
  - intros <-. pose proof (Nat.div_mod_eq k 2). pose proof (Nat.mod_upper_bound k 2 ltac:(lia)). lia.
  - intros [-> | ->]; [by rewrite Nat.mul_comm, Nat.div_mul | symmetry; apply (Nat.div_unique _ 2 i 1); lia].
Qed.

Lemma smaller_child_spec n i s :
  1 <= i -> key s (S n) = key s i ->
  let c := smaller_child i (S n) s in
  (c = i /\ forall k, 2 <= k <= n -> k / 2 = i -> (key s i <= key s k)%Z) \/
  (i < c <= n /\ c / 2 = i /\ (key s c < key s i)%Z /\ forall k, 2 <= k <= n -> k / 2 = i -> (key s c <= key s k)%Z).
Proof.
  intros Hi Hst. unfold smaller_child, valid, child_left, child_right. cbv zeta.
  assert (Hk : forall k, k / 2 = i -> k = 2 * i \/ k = 2 * i + 1) by (intros k; apply half_children).
  assert (Hl : 2 * i / 2 = i) by (apply half_children; lia). assert (Hr : (2 * i + 1) / 2 = i) by (apply half_children; lia).
  assert (Hleft : 2 * i = S n -> key s (2 * i) = key s i) by congruence.
  assert (Hright : 2 * i + 1 = S n -> key s (2 * i + 1) = key s i) by congruence.
  destruct (Nat.leb_spec (2 * i) (S n)); destruct (Nat.leb_spec (2 * i + 1) (S n)); cbn [andb]; try lia;
    destruct (Z.ltb_spec (key s (2 * i)) (key s i));
    repeat match goal with |- context [(?a <? ?b)%Z] => destruct (Z.ltb_spec a b) end;
    first [ left; split; [done |]; intros k Hkn Hki; destruct (Hk k Hki) as [-> | ->]; lia
          | right; split; [lia |]; split; [done |]; split; [lia |]; intros k Hkn Hki; destruct (Hk k Hki) as [-> | ->]; lia ].
Qed.

Lemma checkHeapChild_unfold f i last s :
  checkHeapChild (S f) i last s =
    let c := smaller_child i last s in if c =? i then s else checkHeapChild f c last (exchange i c s).
Proof. done. Qed.

Lemma down_exchange n i c s :
  1 <= i -> i < c <= n -> c / 2 = i -> (key s c < key s i)%Z ->
  (forall k, 2 <= k <= n -> k / 2 = i -> (key s c <= key s k)%Z) -> down_inv n i s -> down_inv n c (exchange i c s).
Proof.
  intros Hi Hc Hci Hlt Hmin (H1 & H2 & H3). split_and!.
  - intros k Hk Hkc. pose proof (half_lt k ltac:(lia)). rewrite !exchange_key.
    rewrite (decide_False (P := k / 2 = c)) by done.
    destruct (decide (k = i)) as [-> | Hki].
    + rewrite decide_False by lia. apply H2; lia.
    + destruct (decide (k / 2 = i)) as [E | E]; [| rewrite decide_False by (intros ->; lia); by apply H1].
      destruct (decide (k = c)) as [-> | ?]; [lia | by apply Hmin].
  - intros k Hk Hkc Hc2. pose proof (half_lt k ltac:(lia)). rewrite !exchange_key, Hci, decide_True by done.
    rewrite !decide_False by lia. rewrite <- Hkc. apply H1; [done | lia].
  - rewrite !exchange_key. rewrite (decide_False (P := S n = i)), (decide_False (P := S n = c)) by lia.
    rewrite decide_False, decide_True by lia. done.
Qed.

Lemma checkHeapChild_ok n X : forall fuel i s,
  1 <= i -> i <= n \/ n = 0 -> S n - i < fuel -> down_inv n i s -> contains n s X ->
  let s' := checkHeapChild fuel i (S n) s in represents n s' X /\ pass s' = pass s.
Proof.
  induction fuel as [|f IH]; intros i s Hi Hin Hf Hd Hc; [lia |]. rewrite checkHeapChild_unfold. cbv zeta.
  destruct (smaller_child_spec n i s Hi) as [[E Hmin] | (Hr & Hci & Hlt & Hmin)]; [apply Hd | |].
  - rewrite E, Nat.eqb_refl. split; [| done]. split; [| done]. intros k Hk.
    destruct (decide (k / 2 = i)) as [Eh | Eh]; [rewrite Eh; by apply Hmin | by apply Hd].
  - set (c := smaller_child i (S n) s) in *. rewrite (proj2 (Nat.eqb_neq c i)) by lia.
    change (pass s) with (pass (exchange i c s)).
    apply IH; [lia | lia | lia | by apply down_exchange | apply exchange_contains; [lia | lia | done]].
Qed.

Lemma insert_ok n s X p :
  represents n s X -> p ∉ X -> let s' := (insert p (S n) s).2 in represents (S n) s' (X ∪ {[p]}) /\ pass s' = pass s.
Proof.
  intros [Ho [Hinj Hx]] Hp. unfold insert. set (s1 := set_heap (S n) p s).
  assert (Hold : forall k, k <= n -> heap s1 k = heap s k) by (intros k Hk; unfold s1; simpl; apply fupd_other; lia).
  assert (Hnew : heap s1 (S n) = p) by (unfold s1; simpl; apply fupd_same).
  assert (Hkey : forall k, k <= n -> key s1 k = key s k) by (intros k Hk; unfold key; by rewrite Hold).
  change (pass s) with (pass s1). apply checkHeapParent_ok; [lia | lia | |].
  - split.
    + intros k Hk Hkn. pose proof (half_lt k ltac:(lia)). rewrite !Hkey by lia. apply Ho. lia.
    + intros k Hk Hkn. pose proof (half_lt k ltac:(lia)). lia.
  - assert (Hpn : forall k, 1 <= k <= n -> heap s1 k <> p).
    { intros k Hk E. rewrite Hold in E by lia. apply Hp, Hx. eauto. }
    split.
    + intros i j Hi Hj E. destruct (decide (i = S n)) as [-> | Hin]; destruct (decide (j = S n)) as [-> | Hjn]; [done | | |].
      * rewrite Hnew in E. by destruct (Hpn j ltac:(lia)).
      * rewrite Hnew in E. by destruct (Hpn i ltac:(lia)).
      * rewrite !Hold in E by lia. apply Hinj; [lia | lia | done].
    + intros x. rewrite elem_of_union, elem_of_singleton, Hx. split.
      * intros [(i & Hi & <-) | ->]; [exists i; split; [lia | apply Hold; lia] | by exists (S n); split; [lia |]].
      * intros (i & Hi & <-). destruct (decide (i = S n)) as [-> | Hin]; [by right | left]. exists i. rewrite Hold by lia. split; [lia | done].
Qed.

(** The root is a least entry. *)
Lemma root_least n s : ordered n s -> forall k, 1 <= k <= n -> (key s 1 <= key s k)%Z.
Proof.
  intros Ho k. induction k as [k IH] using lt_wf_ind. intros Hk. destruct (decide (k = 1)) as [-> | Hk1]; [lia |].
  pose proof (half_lt k ltac:(lia)). pose proof (Ho k ltac:(lia)). pose proof (IH (k / 2) ltac:(lia) ltac:(lia)). lia.
Qed.

Lemma extract_ok n s X :
  represents (S n) s X -> let q := heap s 1 in let s' := (extract 1 (S n) s).2 in
  represents n s' (X ∖ {[q]}) /\ pass s' = pass s.
Proof.
  intros [Ho [Hinj Hx]] q s'. unfold s', extract. cbn [snd]. set (s1 := set_heap 1 _ _).
  assert (Hroot : heap s1 1 = heap s (S n)) by (unfold s1; simpl; apply fupd_same).
  assert (Hrest : forall k, k <> 1 -> heap s1 k = heap s k) by (intros k Hk; unfold s1; simpl; by apply fupd_other).
  assert (Hkey : forall k, k <> 1 -> key s1 k = key s k) by (intros k Hk; unfold key; by rewrite Hrest).
  change (pass s) with (pass s1). apply checkHeapChild_ok; [lia | lia | lia | |].
  - split_and!.
    + intros k Hk Hk2. rewrite !Hkey by lia. apply Ho. lia.
    + lia.
    + unfold key. rewrite Hroot. destruct (decide (n = 0)) as [-> | Hn]; [by rewrite Hroot | by rewrite Hrest by lia].
  - split.
    + intros i j Hi Hj E.
      destruct (decide (i = 1)) as [-> | Hi1]; destruct (decide (j = 1)) as [-> | Hj1]; [done | | |].
      * rewrite Hroot, Hrest in E by done. apply Hinj in E; lia.
      * rewrite Hroot, Hrest in E by done. apply Hinj in E; lia.
      * rewrite !Hrest in E by done. apply Hinj; [lia | lia | done].
    + intros x. rewrite elem_of_difference, elem_of_singleton, Hx. split.
      * intros [(i & Hi & <-) Hne]. assert (i <> 1) by (intros ->; done).
        destruct (decide (i = S n)) as [-> | Hin]; [exists 1; split; [lia | done] | exists i; split; [lia | by rewrite Hrest]].
      * intros (i & Hi & <-). destruct (decide (i = 1)) as [-> | Hi1].
        -- rewrite Hroot. split; [exists (S n); split; [lia | done] |]. intros E. apply Hinj in E; lia.
        -- rewrite Hrest by done. split; [exists i; split; [lia | done] |]. intros E. apply Hinj in E; lia.
Qed.

End Stride.

(** ** Properties *)

(** C23: the heap is a priority queue.  If entries [1 .. n] hold a set of processes in heap order,
    then [insert] of another process gives a heap of the set with it, and [extract] of the root
    returns a process with the least pass and leaves a heap of the others; passes do not change.
    [extract] is called with the old length, so that the entry behind the new end is looked at too. *)
Theorem stride_heap_refines_queue (n : nat) (s : Stride.procs) (X : gset nat) :
  Stride.represents n s X ->
  (forall p, p ∉ X -> let s' := (Stride.insert p (S n) s).2 in
     Stride.represents (S n) s' (X ∪ {[p]}) /\ Stride.pass s' = Stride.pass s) /\
  (1 <= n -> let '(q, s') := Stride.extract 1 n s in
     q ∈ X /\ (forall x, x ∈ X -> (Stride.pass s q <= Stride.pass s x)%Z) /\
     Stride.represents (n - 1) s' (X ∖ {[q]}) /\ Stride.pass s' = Stride.pass s).
Proof.
  intros Hr. split; [intros p Hp; by apply Stride.insert_ok |]. intros Hn. destruct n as [|n]; [lia |].
  destruct (Stride.extract 1 (S n) s) as [q s'] eqn:E.
  assert (Eq : q = Stride.heap s 1) by (by injection E as <- _).
  pose proof (Stride.extract_ok n s X Hr) as Hx. cbv zeta in Hx. rewrite E, <- Eq in Hx. simpl in Hx.
  destruct Hr as [Ho [_ HX]]. rewrite Nat.sub_succ, Nat.sub_0_r. destruct Hx as [Hx1 Hx2]. split_and!; try done.
  - apply HX. exists 1. split; [lia | done].
  - intros x (i & Hi & <-)%HX. rewrite Eq. by apply (Stride.root_least (S n) s Ho).
Qed.

(** The recorded position of a process can be wrong, and then another process is removed.  A
    process whose pass is below all others ends up at the root, but [insert] returns the last index,
    which becomes its position; [extract] at that position (as [kill] does) returns another process. *)
Theorem stride_position_is_wrong (n : nat) (s : Stride.procs) (X : gset nat) (p : nat) :
  Stride.represents n s X -> p ∉ X -> 1 <= n -> (forall x, x ∈ X -> (Stride.pass s p < Stride.pass s x)%Z) ->
  let '(pos, s') := Stride.insert p (S n) s in
  Stride.heap s' 1 = p /\ pos = S n /\ (Stride.extract pos (S n) s').1 <> p.
Proof.
  intros Hr Hp Hn Hlt. destruct (Stride.insert p (S n) s) as [pos s'] eqn:E.
  pose proof (Stride.insert_ok n s X p Hr Hp) as H. cbv zeta in H. rewrite E in H. simpl in H.
  destruct H as [[Ho [Hinj HX]] Hpass].
  assert (Hpos : pos = S n) by (unfold Stride.insert in E; destruct n; by injection E).
  assert (Hroot : Stride.heap s' 1 = p).
  { assert (Hin : p ∈ X ∪ {[p]}) by set_solver. apply HX in Hin as (i & Hi & Hip).
    pose proof (Stride.root_least (S n) s' Ho i Hi) as Hle. unfold Stride.key in Hle. rewrite Hip, Hpass in Hle.
    assert (H1 : Stride.heap s' 1 ∈ X ∪ {[p]}) by (apply HX; exists 1; split; [lia | done]).
    apply elem_of_union in H1 as [H1 | H1%elem_of_singleton]; [| done]. specialize (Hlt _ H1). lia. }
  split_and!; [done | done |]. rewrite Hpos. simpl. intros Hbad. rewrite <- Hroot in Hbad. apply Hinj in Hbad; lia.
Qed.

(** Two processes, with passes 10 and 20, and process 3 with pass 5. *)
Definition demo_heap : Stride.procs :=
  Stride.Procs (fun i => i) (fun p => if decide (p = 3) then 5%Z else (10 * Z.of_nat p)%Z) (fun p => p).

Lemma demo_heap_represents : Stride.represents 2 demo_heap {[1; 2]}.
Proof.
  split; [| split].
  - intros k Hk. assert (k = 2) as -> by lia. by vm_compute.
  - by intros i j _ _.
  - intros x. rewrite elem_of_union, !elem_of_singleton. split.
    + intros [-> | ->]; [exists 1 | exists 2]; (split; [lia | done]).
    + intros (i & Hi & <-). simpl. lia.
Qed.

Lemma stride_heap_refines_queue_witness :
  Stride.represents 3 (Stride.insert 3 3 demo_heap).2 ({[1; 2]} ∪ {[3]}) /\ (Stride.extract 1 2 demo_heap).1 = 1.
Proof.
  destruct (stride_heap_refines_queue 2 demo_heap {[1; 2]} demo_heap_represents) as [H _].
  split; [apply H; set_solver | reflexivity].
Defined.

Lemma stride_position_is_wrong_witness :
  let '(pos, s') := Stride.insert 3 3 demo_heap in
  Stride.heap s' 1 = 3 /\ pos = 3 /\ (Stride.extract pos 3 s').1 <> 3.
Proof.
  apply (stride_position_is_wrong 2 demo_heap {[1; 2]} 3 demo_heap_represents); [set_solver | lia |].
  intros x. rewrite elem_of_union, !elem_of_singleton. intros [-> | ->]; by vm_compute.
Defined.
