(* ===== verification/LabLazy.v ===== *)
(** * The lazy allocation exercise (08K)

    In this version [sbrk] only moves the end of the process and the page-fault branch of [trap] maps
    a zeroed page at the faulting address.  The rest of the kernel is the stock one: the address
    spaces are those of [VmSpace], and [fork] still copies with [copyuvm]. *)
From S2P Require Import Prelude Mem CString Mmu Kalloc Vm VmSpace.
#[local] Open Scope Z_scope.

Module Lazy.

(** [sys_sbrk] after its argument [n] has been fetched: the result and the new size of a process of
    size [sz]; [addr] is an [int]. *)
Definition sys_sbrk (sz n : Z) : Z * Z := (s32 sz, sz +u n).

(** The page-fault branch of [trap] in a process with directory [pgdir]; [cr2] is the faulting
    address.  The message on the console is not part of the state; the result of [mappages] is not
    looked at. *)
Definition page_fault (pgdir cr2 : Z) : M kmem unit :=
  mem ← kalloc ;
  if mem =? 0 then mret tt
  else
    zero_page mem ;;
    let a := PGROUNDDOWN cr2 in
    mappages pgdir a PGSIZE (V2P mem) (Z.lor PTE_W PTE_U) ;;
    mret tt.

(** A copy that fails, or stops the kernel. *)
Definition no_child (o : outcome kmem Z) : Prop :=
  match o with Ok r _ => r = 0 | Panicked _ => True | Slept _ _ => False end.

Section lazy.
Variable kend : Z.
Hypothesis Hkend : KERNLINK <= kend.

(** The page of a user address. *)
Lemma fault_page va : 0 <= va < KERNBASE -> PGROUNDDOWN va = 4096 * (va / 4096) /\ 0 <= va / 4096 < NUSER.
Proof.
  intros Hva. unfold KERNBASE in Hva. rewrite PGROUNDDOWN_eq by lia. unfold PGSIZE. change NUSER with 524288.
  split; Z.to_euclidean_division_equations; lia.
Qed.

(** Mapping a page that is there already. *)
Lemma remap s l pgdir tabs frames n f pa perm :
  space kend s l pgdir tabs frames -> frames !! n = Some f ->
  mappages pgdir (4096 * n) PGSIZE pa perm s = Panicked "remap".
Proof.
  intros Hs Hf. destruct (sp_dom _ _ _ _ _ _ Hs n f Hf) as [Hn _]. destruct (user_page n Hn) as [Hva _].
  destruct (frame_table kend _ _ _ _ _ _ _ Hs Hf) as [t Ht]. pose proof (sp_map _ _ _ _ _ _ Hs n Hn) as Hm.
  rewrite Hf in Hm. destruct Hm as [Hpr _]. unfold mappages.
  assert (Hn' : 0 <= n < 524288) by exact Hn.
  rewrite (PGROUNDDOWN_eq (4096 * n)) by lia. rewrite u32_sub_l. unfold PGSIZE.
  replace (4096 * n - (4096 * n) mod 4096) with (4096 * n) by (Z.to_euclidean_division_equations; lia).
  cbn [mappages_loop]. erewrite bind_ok by (eapply walk_present; [apply Hs | exact Ht]).
  rewrite (proj2 (Z.eqb_neq _ 0)) by (eapply table_address; [apply Hs | exact Ht]).
  unfold rd at 1. erewrite bind_ok by reflexivity. rewrite (table_word s tabs n t Ht), Hpr. done.
Qed.

(** The loop of [copyuvm] cannot get past a page that is not mapped. *)
Lemma copyuvm_loop_hole sz pgdir tabs frames d hole : forall fuel n s l td fd,
  space kend s l pgdir tabs frames -> space kend s l d td fd -> disjoint_spaces d td fd pgdir tabs frames ->
  0 <= n <= hole -> sz <= KERNBASE -> 4096 * hole < sz -> frames !! hole = None -> (forall k, n <= k -> fd !! k = None) ->
  no_child (copyuvm_loop kend fuel pgdir d (4096 * n) sz s).
Proof.
  induction fuel as [|fuel IH]; intros n s l td fd Hs Hc Hdis Hn Hk Hlt Hhole Hfd; [done |].
  cbn [copyuvm_loop]. rewrite (proj2 (Z.ltb_lt (4096 * n) sz)) by lia. cbn [negb].
  assert (Hnu : 0 <= n < NUSER) by (change NUSER with 524288; unfold KERNBASE in Hk; lia).
  destruct (tabs !! PDX (4096 * n)) as [t|] eqn:Ht.
  2: { erewrite bind_ok by (eapply walk_absent; [apply Hs | exact Ht]). rewrite Z.eqb_refl. done. }
  erewrite bind_ok by (eapply walk_present; [apply Hs | exact Ht]).
  rewrite (proj2 (Z.eqb_neq _ 0)) by (eapply table_address; [apply Hs | exact Ht]).
  unfold rd at 1. erewrite bind_ok by reflexivity. rewrite (table_word s tabs n t Ht).
  pose proof (sp_map _ _ _ _ _ _ Hs n Hnu) as Hm. destruct (frames !! n) as [f|] eqn:Hf.
  2: { rewrite Hm. done. }
  destruct Hm as [Hpr Hpa]. rewrite Hpr. cbn [negb]. cbv zeta. rewrite Hpa.
  assert (n <> hole) by (intros ->; congruence). destruct l as [|m l].
  { erewrite bind_ok by (apply (kalloc_empty kend); apply Hs). cbn [Z.eqb].
    destruct (freevm_ok kend Hkend s [] d td fd Hc) as (s' & l' & E & _). erewrite bind_ok by exact E. done. }
  destruct (copy_step_ok kend Hkend s m l pgdir tabs frames d td fd n f Hs Hc Hdis Hnu Hf) as (s1 & E1 & Hstep); [apply Hfd; lia |].
  destruct Hstep as (r & s3 & l3 & td3 & E3 & _ & Hpg & _ & Hs3 & _ & _ & _ & Hr). erewrite bind_ok by exact E1.
  assert (Hmo : page_ok kend m).
  { eapply page_ok_in; [exact (space_pages _ _ _ _ _ _ Hc) |]. right. rewrite !elem_of_app. right. right. by left. }
  rewrite (proj2 (Z.eqb_neq m 0)) by (by eapply page_nonzero).
  unfold move at 1. erewrite bind_ok by reflexivity. erewrite bind_ok by exact E3.
  destruct Hr as [(-> & Hc3 & _) | (-> & -> & Hc3)]; cbn [Z.ltb Z.compare].
  - rewrite (u32_small (4096 * n + PGSIZE)) by (unfold PGSIZE, KERNBASE in *; lia).
    replace (4096 * n + PGSIZE) with (4096 * (n + 1)) by (unfold PGSIZE; lia).
    apply (IH (n + 1) s3 l3 td3 (<[n := m]> fd)); try done; [| lia | intros k Hk'; rewrite lookup_insert_ne by lia; apply Hfd; lia].
    apply (disjoint_grow kend s (m :: l) d td fd td3 _ l3 pgdir tabs frames); try done.
    rewrite (pages_insert fd n m) by (apply Hfd; lia). transitivity (m :: pages fd ++ pages td3 ++ l3); [solve_Permutation |].
    rewrite Hpg. solve_Permutation.
  - destruct (freevm_ok kend Hkend s3 [] d td3 fd Hc3) as (s' & l' & E & _). erewrite bind_ok by exact E. done.
Qed.
End lazy.
End Lazy.

(** ** Properties *)

(** C25: a page fault on an unmapped user page is served.  The handler returns; it either maps a
    zeroed, writable frame of its own at the page of the address and changes nothing else of the
    process, or, when memory runs out, leaves its user pages as they were (the access will fault
    again), losing at most one page of the machine. *)
Theorem lazy_fault_served (kend : Z) (s : kmem) (l : list Z) (pgdir : Z) (tabs frames : gmap Z Z) (va : Z) :
  KERNLINK <= kend -> space kend s l pgdir tabs frames -> 0 <= va < KERNBASE -> frames !! (va / 4096) = None ->
  exists s' l' tabs' frames', Lazy.page_fault pgdir va s = Ok tt s' /\ space kend s' l' pgdir tabs' frames' /\
    (forall v a, v ∈ pages frames -> in_page v a -> k_mem s' a = k_mem s a) /\
    (forall x, 0 <= x < 2 ^ 32 -> x / 4096 <> va / 4096 -> entry s' tabs' x = entry s tabs x) /\
    ((exists m, frames' = <[va / 4096 := m]> frames /\ zeroed s' tabs' frames' (va / 4096) /\
        pages tabs' ++ pages frames' ++ l' ≡ₚ pages tabs ++ pages frames ++ l) \/
     (frames' = frames /\ l' = [] /\ (l = [] \/ exists m, m :: pages tabs' ++ l' ≡ₚ pages tabs ++ l))).
Proof.
  intros Hke Hs Hva Hfr. destruct (Lazy.fault_page va Hva) as [Epg Hn]. unfold Lazy.page_fault.
  destruct l as [|m l].
  { erewrite bind_ok by (apply (kalloc_empty kend); apply Hs). cbn [Z.eqb]. exists s, [], tabs, frames.
    split_and!; try done. right. split_and!; [done | done | by left]. }
  destruct (grow_step_ok kend Hke s m l pgdir tabs frames (va / 4096) Hs Hn Hfr) as (s1 & E1 & Hstep).
  destruct Hstep as (r & s3 & l3 & tabs3 & E3 & Hnd & Hpg & Hu & Hen & Hr). erewrite bind_ok by exact E1.
  assert (Hmo : page_ok kend m).
  { eapply page_ok_in; [exact (space_pages _ _ _ _ _ _ Hs) |]. right. rewrite !elem_of_app. right. right. by left. }
  rewrite (proj2 (Z.eqb_neq m 0)) by (by eapply page_nonzero).
  unfold zero_page at 1. erewrite bind_ok by reflexivity. cbv zeta. rewrite Epg. erewrite bind_ok by exact E3.
  assert (Hk : forall v a, v ∈ pages frames -> in_page v a -> k_mem s3 a = k_mem s a).
  { intros v a. by apply (frames_kept kend s (m :: l) pgdir tabs). }
  destruct Hr as [(-> & Hs3 & Hz) | (-> & -> & Hs3)].
  - exists s3, l3, tabs3, (<[va / 4096 := m]> frames). split_and!; try done. left. exists m. split_and!; try done.
    rewrite (pages_insert frames _ m Hfr). transitivity (m :: pages frames ++ pages tabs3 ++ l3); [solve_Permutation |].
    rewrite Hpg. solve_Permutation.
  - exists s3, [], tabs3, frames. split_and!; try done. right. split_and!; [done | done |]. right. exists m.
    rewrite Hpg. solve_Permutation.
Qed.

(** Lazy allocation lets a user program stop the kernel.  A page fault on a page that is mapped
    (a write to the inaccessible page below the stack faults that way) panics as long as there is a
    free page; and [copyuvm], so [fork], of a process with an untouched page below its size panics,
    or fails for lack of memory, but never gives a child. *)
Theorem lazy_allocation_panics (kend kdata : Z) (s : kmem) (l : list Z) (pgdir : Z) (tabs frames : gmap Z Z) (va sz : Z) :
  KERNLINK <= kend -> KERNLINK < kdata < P2V PHYSTOP /\ kdata mod PGSIZE = 0 ->
  space kend s l pgdir tabs frames -> 0 <= va < KERNBASE ->
  (is_Some (frames !! (va / 4096)) -> l <> [] -> Lazy.page_fault pgdir va s = Panicked "remap") /\
  (frames !! (va / 4096) = None -> va < sz <= KERNBASE ->
     Lazy.no_child (copyuvm kend kdata pgdir sz s)).
Proof.
  intros Hke Hkd Hs Hva. destruct (Lazy.fault_page va Hva) as [Epg Hn]. split.
  - intros [f Hf] Hl. destruct l as [|m l]; [done |]. unfold Lazy.page_fault.
    destruct (zero_page_ok kend s l m (pt_free _ _ _ _ _ (sp_pt _ _ _ _ _ _ Hs))) as (s1 & E1 & Hf2 & Hu2 & _).
    erewrite bind_ok by exact E1. pose proof (pt_free _ _ _ _ _ (sp_pt _ _ _ _ _ _ Hs)) as [_ [Hml _]%list.NoDup_cons [Hmo _]%Forall_cons_1].
    rewrite (proj2 (Z.eqb_neq m 0)) by (by eapply page_nonzero).
    unfold zero_page at 1. erewrite bind_ok by reflexivity. cbv zeta. rewrite Epg. set (s2 := Kmem _ _ _) in *.
    destruct (space_other kend s (m :: l) s2 l [m] pgdir tabs frames Hs Hu2) as (Hs2 & _); [by apply Forall_singleton | | done |].
    { intros v Hv. destruct (own_split _ _ _ _ (sp_own _ _ _ _ _ _ Hs)) as (_ & _ & C3 & C4 & C5). rewrite list_elem_of_singleton.
      assert (Hvl : v ∉ m :: l); [| apply not_elem_of_cons in Hvl as [? ?]; done].
      rewrite elem_of_cons, elem_of_app in Hv. destruct Hv as [-> | [Hv | Hv]]; [done | by apply C4 | by apply C5]. }
    unfold mbind, M_bind at 1. by rewrite (Lazy.remap kend s2 l pgdir tabs frames _ f).
  - intros Hhole Hsz. unfold copyuvm. pose proof (pt_free _ _ _ _ _ (sp_pt _ _ _ _ _ _ Hs)) as Hf.
    destruct (setupkvm_ok kend Hke kdata Hkd s l Hf) as (d & s1 & l1 & E1 & Hu1 & Hr1). erewrite bind_ok by exact E1.
    destruct Hr1 as [(-> & _) | (td0 & Hd & Hl1 & _)]; [done |].
    assert (Hdok : page_ok kend d) by apply Hd. rewrite (proj2 (Z.eqb_neq d 0)) by (by eapply page_nonzero).
    destruct (own_split _ _ _ _ (sp_own _ _ _ _ _ _ Hs)) as (_ & _ & O3 & O4 & O5).
    assert (Hnl : forall v, v ∈ pgdir :: pages tabs ++ pages frames -> v ∉ l).
    { intros v. rewrite elem_of_cons, elem_of_app. intros [-> | [? | ?]]; [done | by apply O4 | by apply O5]. }
    assert (Hin1 : forall v, v ∈ d :: pages td0 ++ l1 -> v ∈ l) by (intros v; by rewrite Hl1).
    destruct (space_other kend s l s1 l1 l pgdir tabs frames Hs Hu1) as (Hs1 & _); [apply Hf | | apply Hd |].
    { intros v Hv. split; [by apply Hnl |]. intros Hv1. apply (Hnl v Hv), Hin1. rewrite elem_of_cons, elem_of_app. tauto. }
    change (4096 * 0) with 0. apply (Lazy.copyuvm_loop_hole kend Hke sz pgdir tabs frames d (va / 4096) _ 0 s1 l1 td0 ∅);
      try done; [| lia | lia | Z.to_euclidean_division_equations; lia].
    intros v Hv Hv'. apply (Hnl v Hv'), Hin1. change (pages ∅) with (@nil Z) in Hv. rewrite app_nil_r in Hv.
    revert Hv. rewrite !elem_of_cons, elem_of_app. tauto.
Qed.

Lemma lazy_fault_served_witness :
  exists s', Lazy.page_fault (at_page 0) 5000 demo_space = Ok tt s' /\
    forall o, 0 <= o < 4096 -> k_mem s' (at_page 2 + o) = k_mem demo_space (at_page 2 + o).
Proof.
  destruct (lazy_fault_served KERNLINK demo_space [at_page 3] (at_page 0) {[0 := at_page 1]} {[0 := at_page 2]} 5000)
    as (s' & l' & tabs' & frames' & E & _ & Hm & _).
  - by vm_compute.
  - exact demo_parent.
  - by vm_compute.
  - reflexivity.
  - exists s'. split; [exact E |]. intros o Ho. apply (Hm (at_page 2)).
    + apply elem_of_pages. exists 0. apply lookup_singleton_eq.
    + unfold in_page, PGSIZE. lia.
Defined.

Lemma lazy_allocation_panics_witness :
  Lazy.page_fault (at_page 0) 100 demo_space = Panicked "remap".
Proof.
  destruct (lazy_allocation_panics KERNLINK (KERNLINK + 4096) demo_space [at_page 3] (at_page 0) {[0 := at_page 1]} {[0 := at_page 2]} 100 4096)
    as [H _].
  - by vm_compute.
  - by vm_compute.
  - exact demo_parent.
  - by vm_compute.
  - apply H; [by eexists | done].
Defined.
