(* ===== verification/LabIndirect.v ===== *)
(** * The indirection exercises (10K): larger files

    Three versions of [bmap]: three single-indirect blocks (end_isingle), one block whose last entries
    are indirect (end_idouble), and the same with a further level (end_itriple).  They are written
    over the file system of [Fs]; their other functions are the stock ones.  The block of a file is
    found along a path of indices, from the inode through index blocks. *)
From S2P Require Import Prelude Lock Ide Bytes Bio BlockStore Log LogSys Fs FsSys FsTx FsFile.
#[local] Open Scope Z_scope.

Module Indirect.

(** Single indirection: fs.h of end_isingle. *)
Definition NDIRECT1 : Z := 10.
Definition MAXINDIRECT : Z := 3.
Definition MAXFILE1 : Z := NDIRECT1 + MAXINDIRECT * NINDIRECT.

(** Double indirection. *)
Definition NDIRECT2 : Z := 12.
Definition NINDIRECTIB2 : Z := 4.
Definition NDIRECTIB2 : Z := NINDIRECT - NINDIRECTIB2.
Definition MAXFILE2 : Z := NINDIRECTIB2 * NINDIRECT + NDIRECTIB2 + NDIRECT2.

(** Triple indirection. *)
Definition NINDIRECTIB3 : Z := 2.
Definition NDIRECTIB3 : Z := NINDIRECT - NINDIRECTIB3.
Definition MAXFILE3 : Z := NINDIRECTIB3 * NINDIRECTIB3 * NINDIRECT + NDIRECTIB3 * NINDIRECTIB3 + NDIRECTIB3 + NDIRECT2.

Section code.
Context {S : Type} `{BlockStore S}.
Notation MF := (M (fstate S)).

(** Entry [k] of the inode, allocating if necessary. *)
Definition root_entry (ip : nat) (k : Z) : MF Z :=
  x ← the_inode ip ;
  let addr := i_addrs x !!! Z.to_nat k in
  if addr =? 0 then b ← balloc (i_dev x) ; upd_inode ip (set_addr (Z.to_nat k) b) ;; mret b
  else mret addr.

(** Entry [k] of the index block [addr], allocating if necessary. *)
Definition slot_entry (dev addr k : Z) : MF Z :=
  bp ← disk (bread dev addr) ;
  a ← data_of bp ;
  let addr := get32 a (4 * Z.to_nat k) in
  r ← (if addr =? 0 then
         b ← balloc dev ;
         a ← data_of bp ;
         disk (buf_set bp (put32 a (4 * Z.to_nat k) b)) ;;
         in_log_ (log_write bp) ;;
         mret b
       else mret addr) ;
  disk (brelse bp) ;;
  mret r.

(** The [while] loop of the single-indirect version. *)
Fixpoint which_block (fuel : nat) (indirect_block bn : Z) : Z * Z :=
  match fuel with
  | O => (indirect_block, bn)
  | Datatypes.S f => if NINDIRECT <=? bn then which_block f (indirect_block + 1) (bn - NINDIRECT) else (indirect_block, bn)
  end.

Definition bmap_single (ip : nat) (bn : Z) : MF Z :=
  x ← the_inode ip ;
  if bn <? NDIRECT1 then root_entry ip bn
  else
    let bn := bn - NDIRECT1 in
    let '(indirect_block, bn) := which_block (Z.to_nat (bn / NINDIRECT) + 1) 0 bn in
    if MAXINDIRECT <=? indirect_block then panic "bmap: out of range"
    else
      addr ← root_entry ip (NDIRECT1 + indirect_block) ;
      slot_entry (i_dev x) addr bn.

Definition bmap_double (ip : nat) (bn : Z) : MF Z :=
  x ← the_inode ip ;
  if bn <? NDIRECT2 then root_entry ip bn
  else
    let bn := bn - NDIRECT2 in
    if bn <? MAXFILE2 - NDIRECT2 then
      addr ← root_entry ip NDIRECT2 ;
      if bn <? NDIRECTIB2 then slot_entry (i_dev x) addr bn
      else
        let bn := bn - NDIRECTIB2 in
        let index := bn / NINDIRECT in
        let bn := bn mod NINDIRECT in
        addr ← slot_entry (i_dev x) addr (NDIRECTIB2 + index) ;
        slot_entry (i_dev x) addr bn
    else panic "bmap: out of range".

Definition bmap_triple (ip : nat) (bn : Z) : MF Z :=
  x ← the_inode ip ;
  if bn <? NDIRECT2 then root_entry ip bn
  else
    let bn := bn - NDIRECT2 in
    if bn <? MAXFILE3 - NDIRECT2 then
      addr ← root_entry ip NDIRECT2 ;
      if bn <? NDIRECTIB3 then slot_entry (i_dev x) addr bn
      else
        let bn := bn - NDIRECTIB3 in
        let index := bn / (NINDIRECT * NINDIRECTIB3 + NDIRECTIB3) in
        let offset := bn mod (NINDIRECT * NINDIRECTIB3 + NDIRECTIB3) in
        addr ← slot_entry (i_dev x) addr (NDIRECTIB3 + index) ;
        if offset <? NDIRECTIB3 then slot_entry (i_dev x) addr offset
        else
          let index2 := (offset - NDIRECTIB3) / NINDIRECT in
          let bn := offset mod NINDIRECT in
          addr ← slot_entry (i_dev x) addr (NDIRECTIB3 + index2) ;
          slot_entry (i_dev x) addr bn
    else panic "bmap: out of range".
End code.

(** ** Paths *)

Definition path_single (bn : Z) : list Z :=
  if bn <? NDIRECT1 then [bn] else [NDIRECT1 + (bn - NDIRECT1) / NINDIRECT; (bn - NDIRECT1) mod NINDIRECT].

Definition path_double (bn : Z) : list Z :=
  if bn <? 12 then [bn]
  else if bn <? 12 + 124 then [12; bn - 12]
  else [12; 124 + (bn - 136) / 128; (bn - 136) mod 128].

(** From the index block of the second level on, 382 blocks each: 126 direct and two times 128. *)
Definition path_triple (bn : Z) : list Z :=
  if bn <? 12 then [bn]
  else if bn <? 12 + 126 then [12; bn - 12]
  else
    let index := (bn - 138) / 382 in
    let offset := (bn - 138) mod 382 in
    if offset <? 126 then [12; 126 + index; offset]
    else [12; 126 + index; 126 + (offset - 126) / 128; offset mod 128].

(** Indices that exist: 13 in an inode, 128 in an index block. *)
Definition path_ok (p : list Z) : Prop :=
  match p with [] => False | k :: ks => 0 <= k < 13 /\ Forall (fun j => 0 <= j < 128) ks end.

(** Paths of different blocks of a file: neither leads through the other, so that no block is both
    data and index, or data twice. *)
Definition apart (p q : list Z) : Prop := ~ p `prefix_of` q /\ ~ q `prefix_of` p.

Lemma apart_sym p q : apart p q -> apart q p.
Proof. intros [? ?]. by split. Qed.

Lemma apart_head a b p q : a <> b -> apart (a :: p) (b :: q).
Proof. intros Hne. split; intros Hp%prefix_cons_inv_1; congruence. Qed.

Lemma apart_cons a b p q : a = b -> apart p q -> apart (a :: p) (b :: q).
Proof. intros -> [H1 H2]. split; intros Hp%prefix_cons_inv_2; done. Qed.

(** Decides [apart] of paths given by arithmetic expressions, index by index. *)
Ltac paths_apart :=
  match goal with
  | |- apart (?a :: ?p) (?b :: ?q) =>
      let e := fresh "E" in destruct (decide (a = b)) as [e | e];
      [first [exfalso; Z.to_euclidean_division_equations; lia | apply (apart_cons _ _ _ _ e); paths_apart]
      | by apply apart_head]
  end.

Lemma path_single_ok bn : 0 <= bn < MAXFILE1 -> path_ok (path_single bn).
Proof.
  change MAXFILE1 with 394. intros Hb. unfold path_single, NDIRECT1. change NINDIRECT with 128.
  destruct (Z.ltb_spec bn 10); simpl; repeat (constructor || split); Z.to_euclidean_division_equations; lia.
Qed.

Lemma path_double_ok bn : 0 <= bn < MAXFILE2 -> path_ok (path_double bn).
Proof.
  change MAXFILE2 with 648. intros Hb. unfold path_double.
  destruct (Z.ltb_spec bn 12); [| destruct (Z.ltb_spec bn (12 + 124))]; simpl;
    repeat (constructor || split); Z.to_euclidean_division_equations; lia.
Qed.

Lemma path_triple_ok bn : 0 <= bn < MAXFILE3 -> path_ok (path_triple bn).
Proof.
  change MAXFILE3 with 902. intros Hb. unfold path_triple.
  destruct (Z.ltb_spec bn 12); [| destruct (Z.ltb_spec bn (12 + 126))]; cbv zeta;
    [| | destruct (Z.ltb_spec ((bn - 138) mod 382) 126)]; simpl;
    repeat (constructor || split); Z.to_euclidean_division_equations; lia.
Qed.

Lemma path_single_apart a b : 0 <= a < MAXFILE1 -> 0 <= b < MAXFILE1 -> a <> b -> apart (path_single a) (path_single b).
Proof.
  change MAXFILE1 with 394. intros Ha Hb Hne. unfold path_single, NDIRECT1. change NINDIRECT with 128.
  destruct (Z.ltb_spec a 10), (Z.ltb_spec b 10); paths_apart.
Qed.

Lemma path_double_apart a b : 0 <= a < MAXFILE2 -> 0 <= b < MAXFILE2 -> a <> b -> apart (path_double a) (path_double b).
Proof.
  change MAXFILE2 with 648. intros Ha Hb Hne. unfold path_double.
  destruct (Z.ltb_spec a 12); [| destruct (Z.ltb_spec a (12 + 124))];
    (destruct (Z.ltb_spec b 12); [| destruct (Z.ltb_spec b (12 + 124))]); paths_apart.
Qed.
Lemma path_triple_apart a b : 0 <= a < MAXFILE3 -> 0 <= b < MAXFILE3 -> a <> b -> apart (path_triple a) (path_triple b).
Proof.
  change MAXFILE3 with 902. intros Ha Hb Hne. unfold path_triple. cbv zeta.
  destruct (Z.ltb_spec a 12); [| destruct (Z.ltb_spec a (12 + 126)); [| destruct (Z.ltb_spec ((a - 138) mod 382) 126)]];
    (destruct (Z.ltb_spec b 12); [| destruct (Z.ltb_spec b (12 + 126)); [| destruct (Z.ltb_spec ((b - 138) mod 382) 126)]]);
    paths_apart.
Qed.

Lemma which_block_spec : forall fuel k bn, 0 <= bn -> bn / 128 < Z.of_nat fuel -> which_block fuel k bn = (k + bn / 128, bn mod 128).
Proof.
  induction fuel as [|f IH]; intros k bn Hb Hf; [Z.to_euclidean_division_equations; lia |]. cbn [which_block].
  change NINDIRECT with 128. destruct (Z.leb_spec 128 bn) as [Hle | Hlt].
  - rewrite IH by (Z.to_euclidean_division_equations; lia). f_equal; Z.to_euclidean_division_equations; lia.
  - f_equal; Z.to_euclidean_division_equations; lia.
Qed.

Section follow.
Context {S : Type} `{BlockStoreLaws S}.
Variable g : log.

(** The blocks on a path through index blocks with the contents [D]: the block after each index. *)
Fixpoint along (D : Z -> block) (b : Z) (ks : list Z) : list Z :=
  match ks with
  | [] => [b]
  | k :: ks' => b :: along D (get32 (D b) (4 * Z.to_nat k)) ks'
  end.

Definition blocks (D : Z -> block) (addrs : list Z) (p : list Z) : list Z :=
  match p with [] => [] | k :: ks => along D (addrs !!! Z.to_nat k) ks end.

(** Every block of the path exists: it has been allocated, outside the log. *)
Definition present_path (D : Z -> block) (addrs : list Z) (p : list Z) : Prop :=
  Forall (fun b => b <> 0 /\ usable g b) (blocks D addrs p).

(** A step of a lookup that finds [b] and leaves the transaction and the caches as they are. *)
Definition finds (m : M (fstate S) Z) (b : Z) (wr : bool) (C : gset Z) (r : Z) (D : Z -> block) (s : fstate S) : Prop :=
  exists s' v', m s = Ok b s' /\ ftx g wr C r D ∅ s' v' /\ same_fs s s'.

Lemma root_entry_found wr C r D s v ip k b :
  ftx g wr C r D ∅ s v -> i_addrs (icache s ip) !!! Z.to_nat k = b -> b <> 0 -> finds (root_entry ip k) b wr C r D s.
Proof.
  intros T Hb Hnz. exists s, v. split_and!; [| done | done]. unfold root_entry. erewrite bind_ok by reflexivity. cbv zeta.
  rewrite Hb. by rewrite (proj2 (Z.eqb_neq _ _) Hnz).
Qed.

Lemma slot_entry_found wr C r D s v addr k b :
  ftx g wr C r D ∅ s v -> usable g addr -> get32 (D addr) (4 * Z.to_nat k) = b -> b <> 0 ->
  finds (slot_entry ROOTDEV addr k) b wr C r D s.
Proof.
  intros T Hu Hb Hnz. unfold slot_entry.
  destruct (bread_tx g _ _ _ _ _ _ _ _ T Hu) as (i & s1 & E1 & T1 & B1 & S1 & D1 & K1); [set_solver | by rewrite size_empty; lia |].
  destruct (brelse_tx g _ _ _ _ _ _ _ i addr T1) as (s2 & E2 & T2 & S2 & K2); [set_solver | done |].
  eexists s2, _. split_and!; [| | by eauto using same_fs_trans].
  - erewrite bind_ok by exact E1. erewrite bind_ok by reflexivity. rewrite D1, Hb. cbv zeta.
    rewrite (proj2 (Z.eqb_neq _ _) Hnz). erewrite bind_ok by reflexivity. by erewrite bind_ok by exact E2.
  - replace ∅ with (({[addr]} ∪ ∅) ∖ {[addr]} : gset Z) by set_solver. exact T2.
Qed.

Lemma finds_bind (m : M (fstate S) Z) (k : Z -> M (fstate S) Z) b b' wr C r D s :
  finds m b wr C r D s -> (forall s' v', ftx g wr C r D ∅ s' v' -> same_fs s s' -> finds (k b) b' wr C r D s') ->
  finds (m ≫= k) b' wr C r D s.
Proof.
  intros (s1 & v1 & E1 & T1 & S1) Hk. destruct (Hk s1 v1 T1 S1) as (s2 & v2 & E2 & T2 & S2).
  exists s2, v2. split_and!; [by erewrite bind_ok by exact E1 | done | by eapply same_fs_trans].
Qed.

(** What a lookup of block [bn] has to find: the last block of its path. *)
Definition looks_up (m : M (fstate S) Z) (p : list Z) (ip : nat) (wr : bool) (C : gset Z) (r : Z) (D : Z -> block) (s : fstate S) : Prop :=
  present_path D (i_addrs (icache s ip)) p ->
  finds m (List.last (blocks D (i_addrs (icache s ip)) p) 0) wr C r D s.

Lemma finds_inode (k : inode -> M (fstate S) Z) ip b wr C r D s :
  finds (k (icache s ip)) b wr C r D s -> finds (the_inode ip ≫= k) b wr C r D s.
Proof. intros (s' & v' & E & H'). by exists s', v'. Qed.

(** Takes the blocks of a path, all present, one at a time. *)
Ltac path_blocks Hp :=
  unfold looks_up, present_path; cbn [blocks along List.last]; intros Hp;
  repeat match type of Hp with Forall _ (_ :: _) => apply list.Forall_cons in Hp as [[? ?] Hp] end.

(** Follows a lookup, one entry at a time. *)
Ltac follow_entries :=
  match goal with
  | |- finds (root_entry _ _) _ _ _ _ _ _ => eapply root_entry_found; [eassumption | | ]; eauto
  | |- finds (slot_entry _ _ _) _ _ _ _ _ _ => eapply slot_entry_found; [eassumption | | |]; eauto
  | |- finds (_ ≫= _) _ _ _ _ _ _ => eapply finds_bind; [follow_entries | intros ? ? ? ?; follow_entries]
  end.

Lemma bmap_single_follows wr C r D s v ip bn :
  ftx g wr C r D ∅ s v -> i_dev (icache s ip) = ROOTDEV -> 0 <= bn < MAXFILE1 ->
  looks_up (bmap_single ip bn) (path_single bn) ip wr C r D s.
Proof.
  intros T Hdev Hbn. change MAXFILE1 with 394 in Hbn. unfold bmap_single, path_single, NDIRECT1.
  change NINDIRECT with 128. destruct (Z.ltb_spec bn 10); path_blocks Hp; apply finds_inode; [follow_entries |].
  cbv zeta. rewrite which_block_spec by (Z.to_euclidean_division_equations; lia). rewrite Z.add_0_l.
  rewrite (proj2 (Z.leb_gt _ _)) by (unfold MAXINDIRECT; Z.to_euclidean_division_equations; lia). rewrite Hdev. follow_entries.
Qed.

Lemma bmap_double_follows wr C r D s v ip bn :
  ftx g wr C r D ∅ s v -> i_dev (icache s ip) = ROOTDEV -> 0 <= bn < MAXFILE2 ->
  looks_up (bmap_double ip bn) (path_double bn) ip wr C r D s.
Proof.
  intros T Hdev Hbn. change MAXFILE2 with 648 in Hbn. unfold bmap_double, path_double, NDIRECT2.
  change (MAXFILE2 - 12) with 636. change NDIRECTIB2 with 124. change NINDIRECT with 128.
  destruct (Z.ltb_spec bn 12); [| destruct (Z.ltb_spec bn (12 + 124))]; path_blocks Hp; apply finds_inode; [follow_entries | |];
    cbv zeta; rewrite (proj2 (Z.ltb_lt (bn - 12) 636)) by lia; rewrite Hdev.
  - rewrite (proj2 (Z.ltb_lt (bn - 12) 124)) by lia. follow_entries.
  - rewrite (proj2 (Z.ltb_ge (bn - 12) 124)) by lia. replace (bn - 12 - 124) with (bn - 136) by lia. follow_entries.
Qed.

Lemma bmap_triple_follows wr C r D s v ip bn :
  ftx g wr C r D ∅ s v -> i_dev (icache s ip) = ROOTDEV -> 0 <= bn < MAXFILE3 ->
  looks_up (bmap_triple ip bn) (path_triple bn) ip wr C r D s.
Proof.
  intros T Hdev Hbn. change MAXFILE3 with 902 in Hbn. unfold bmap_triple, path_triple, NDIRECT2.
  change (MAXFILE3 - 12) with 890. change NDIRECTIB3 with 126. change (NINDIRECT * NINDIRECTIB3 + 126) with 382. change NINDIRECT with 128.
  cbv zeta. replace (bn - 12 - 126) with (bn - 138) by lia.
  destruct (Z.ltb_spec bn 12); [| destruct (Z.ltb_spec bn (12 + 126)); [| destruct (Z.ltb_spec ((bn - 138) mod 382) 126)]];
    path_blocks Hp; apply finds_inode; [follow_entries | | |]; rewrite (proj2 (Z.ltb_lt (bn - 12) 890)) by lia; rewrite Hdev.
  - rewrite (proj2 (Z.ltb_lt (bn - 12) 126)) by lia. follow_entries.
  - rewrite (proj2 (Z.ltb_ge (bn - 12) 126)) by lia. follow_entries.
  - rewrite (proj2 (Z.ltb_ge (bn - 12) 126)) by lia. follow_entries.
Qed.
End follow.

Lemma which_block_over bn : MAXFILE1 <= bn -> MAXINDIRECT <= fst (which_block (Z.to_nat ((bn - NDIRECT1) / NINDIRECT) + 1) 0 (bn - NDIRECT1)).
Proof.
  change MAXFILE1 with 394. change MAXINDIRECT with 3. unfold NDIRECT1. change NINDIRECT with 128. intros Hb.
  rewrite which_block_spec by (Z.to_euclidean_division_equations; lia). simpl. Z.to_euclidean_division_equations; lia.
Qed.

(** What makes one of the versions correct for a file whose inode is the cache entry [ip]: blocks
    below [maxfile] have paths of existing indices, apart from each other, and are found along them
    when they are there; a larger block number panics. *)
Record maps_file {S : Type} `{BlockStoreLaws S} (g : log) (maxfile : Z) (path : Z -> list Z) (bmap : nat -> Z -> M (fstate S) Z)
    (ip : nat) (wr : bool) (C : gset Z) (r : Z) (D : Z -> block) (s : fstate S) : Prop := MapsFile {
  mf_path bn : 0 <= bn < maxfile -> path_ok (path bn);
  mf_apart a b : 0 <= a < maxfile -> 0 <= b < maxfile -> a <> b -> apart (path a) (path b);
  mf_found bn : 0 <= bn < maxfile -> looks_up g (bmap ip bn) (path bn) ip wr C r D s;
  mf_over bn : maxfile <= bn -> bmap ip bn s = Panicked "bmap: out of range";
}.

End Indirect.

(** ** Properties *)

Import Indirect.

(** C24: each of the three versions of [bmap] addresses every block of a file of the advertised size
    ([MAXFILE]: 394, 648 and 902 blocks).  The path of a block through the inode and the index blocks
    uses only entries that exist; the paths of two blocks never coincide, nor does the one lead
    through the end of the other, so no block is shared or used both as data and as index; [bmap]
    finds the block at the end of the path and changes nothing when the path is there; and a block
    number at or above [MAXFILE] panics. *)
Theorem indirect_bmap_correct {St : Type} `{BlockStoreLaws St} (g : log) (wr : bool) (C : gset Z) (r : Z) (D : Z -> block)
    (s : fstate St) (v : bview) (ip : nat) :
  ftx g wr C r D ∅ s v -> i_dev (icache s ip) = ROOTDEV ->
  maps_file g MAXFILE1 path_single bmap_single ip wr C r D s /\
  maps_file g MAXFILE2 path_double bmap_double ip wr C r D s /\
  maps_file g MAXFILE3 path_triple bmap_triple ip wr C r D s.
Proof.
  intros T Hdev.
  split_and!; split; eauto using path_single_ok, path_double_ok, path_triple_ok, path_single_apart, path_double_apart,
    path_triple_apart, bmap_single_follows, bmap_double_follows, bmap_triple_follows; intros bn Hbn.
  - pose proof (which_block_over bn Hbn) as Hw. unfold bmap_single. erewrite bind_ok by reflexivity. change MAXFILE1 with 394 in Hbn.
    rewrite (proj2 (Z.ltb_ge _ _)) by (unfold NDIRECT1; lia). cbv zeta. destruct (which_block _ _ _) as [k j]. simpl in Hw.
    by rewrite (proj2 (Z.leb_le _ _) Hw).
  - unfold bmap_double. erewrite bind_ok by reflexivity. change MAXFILE2 with 648 in *. unfold NDIRECT2.
    rewrite (proj2 (Z.ltb_ge _ _)) by lia. cbv zeta. by rewrite (proj2 (Z.ltb_ge _ _)) by lia.
  - unfold bmap_triple. erewrite bind_ok by reflexivity. change MAXFILE3 with 902 in *. unfold NDIRECT2.
    rewrite (proj2 (Z.ltb_ge _ _)) by lia. cbv zeta. by rewrite (proj2 (Z.ltb_ge _ _)) by lia.
Qed.

(** A disk with a file whose block 141 is block 62, under the index blocks 60 and 61. *)
Definition double_disk : Z -> block := fun b =>
  if b =? 60 then put32 zero_block (4 * 124) 61 else if b =? 61 then put32 zero_block (4 * 5) 62 else zero_block.
Definition double_inode : inode := Inode 1 5 1 (Sleep.SL true 1) true T_FILE 0 0 1 0 (replicate 12 0 ++ [60]).

Lemma indirect_bmap_correct_witness :
  exists s s' : fstate bcache, icache s 0%nat = double_inode /\ bmap_double (H := bio_store 1) 0 141 s = Ok 62 s'.
Proof.
  destruct (boot_on double_disk) as (b & _ & A).
  set (s := FState (LState (set_out 1 demo_log) b) fresh_sb (fun _ => double_inode)).
  assert (T : ftx (H0 := bio_laws 1) demo_log true {[58]} 25 double_disk ∅ s (view_on double_disk)).
  { split; try done. apply linv_set_out. split; [apply demo_geom | done | apply homes_nil, demo_geom | done ..]. }
  destruct (indirect_bmap_correct (H0 := bio_laws 1) demo_log true {[58]} 25 double_disk s (view_on double_disk) 0)
    as (_ & [_ _ F _] & _); [exact T | done |].
  destruct (F 141) as (s' & v' & E & _); [done | |].
  - unfold present_path. assert (E : blocks double_disk (i_addrs (icache s 0%nat)) (path_double 141) = [60; 61; 62]) by (vm_compute; reflexivity).
    rewrite E. repeat (apply list.Forall_cons; split); [.. | apply list.Forall_nil_2];
      (split; [lia |]); unfold usable, in_log, FSSIZE; change (start demo_log) with 2; change (lsize demo_log) with 30; lia.
  - exists s, s'. split; [done |]. rewrite E. f_equal.
Defined.
