(* ===== verification/LabStats.v ===== *)
(** * Exercise 09K: file system statistics

    [getfsstats] of the fs.c of the exercise, which hands the superblock and the free map to a user program, and
    the counts bigtest.c makes of them.  The map is read from the buffer after it was released; here nothing runs
    in between.  [ds->diskmap] is the user memory from the start of the array on, so that stores
    behind its [FSSIZE] bytes are seen.  Block numbers are below 2^31. *)
From S2P Require Import Prelude Lock Ide Bytes Bio BlockStore Log LogSys Fs FsSys FsTx FsFile FsTrunc.
#[local] Open Scope Z_scope.

Record diskstats := DiskStats {
  ds_size : Z; ds_nlog : Z; ds_ninode : Z; ds_nbmap : Z; ds_nblock : Z;
  ds_logstart : Z; ds_inodestart : Z; ds_bmapstart : Z; ds_blockstart : Z;
  diskmap : Z -> Z
}.

(** [for (i = 0; i < 8; i++) ds->diskmap[bn + i] = (v & (1 << i)) >> i], with [n] iterations left. *)
Fixpoint set_map (n : nat) (bn i v : Z) (m : Z -> Z) : Z -> Z :=
  match n with
  | O => m
  | Datatypes.S n' =>
      set_map n' bn (i + 1) v (fun k => if k =? bn + i then Z.shiftr (Z.land v (Z.shiftl 1 i)) i else m k)
  end.

Section code.
Context {S : Type} `{BlockStore S}.
Notation MF := (M (fstate S)).

(** What lies in memory behind the bytes of a buffer. *)
Variable behind : Z -> Z.
Definition data_at (x : block) (o : Z) : Z := if o <? BSIZE then getb x (Z.to_nat o) else behind o.

(** The loop over the blocks, eight at a time; [b] is the buffer read last. *)
Fixpoint stats_loop (fuel : nat) (sb : superblock) (bn offset : Z) (b : nat) (m : Z -> Z) : MF (Z -> Z) :=
  match fuel with
  | O => mret m
  | Datatypes.S f =>
      if negb (bn <? sb_size sb) then mret m
      else
        bo ← (if bn mod BPB =? 0 then
                b' ← disk (bread ROOTDEV (sb_bmapstart sb + offset)) ;
                disk (brelse b') ;; mret (b', offset + 1)
              else mret (b, offset)) ;
        x ← data_of bo.1 ;
        stats_loop f sb (bn + 8) bo.2 bo.1 (set_map 8 bn 0 (data_at x ((bn / 8) mod BPB)) m)
  end.

(** One iteration for eight blocks, and the test that ends the loop. *)
Definition getfsstats (m : Z -> Z) : MF (diskstats * Z) :=
  sb ← disk (readsb ROOTDEV) ;
  m' ← stats_loop (Datatypes.S (Z.to_nat ((sb_size sb + 7) / 8))) sb 0 0 0%nat m ;
  mret (DiskStats (sb_size sb) (sb_nlog sb) (sb_ninodes sb) (sb_size sb / BPB + 1) (sb_nblocks sb)
          (sb_logstart sb) (sb_inodestart sb) (sb_bmapstart sb) (sb_bmapstart sb + (sb_size sb / BPB + 1)) m', 1).
End code.

(** The loop of bigtest.c that prints the map and counts: [n] blocks from [i]. *)
Fixpoint count_blocks (n : nat) (i : Z) (m : Z -> Z) (used free : Z) : Z * Z :=
  match n with
  | O => (used, free)
  | Datatypes.S n' =>
      if m i =? 1 then count_blocks n' (i + 1) m (used + 1) free else count_blocks n' (i + 1) m used (free + 1)
  end.

(** ** The map that is handed out *)

Lemma map_bit v i : 0 <= i -> Z.shiftr (Z.land v (Z.shiftl 1 i)) i = Z.b2z (Z.testbit v i).
Proof.
  intros Hi. apply Z.bits_inj'. intros k Hk. rewrite Z.shiftr_spec, Z.land_spec, Z.shiftl_spec by lia. replace (k + i - i) with k by lia.
  destruct (Z.eqb_spec k 0) as [->|Hne].
  - rewrite Z.b2z_bit0. simpl. by rewrite andb_true_r.
  - replace (Z.testbit 1 k) with false by (symmetry; apply (Z.pow2_bits_false 0 k); lia). rewrite andb_false_r. symmetry. destruct (Z.testbit v i); [apply (Z.pow2_bits_false 0 k); lia | apply Z.bits_0].
Qed.

Lemma set_map_spec n bn v : forall i m k, 0 <= i ->
  set_map n bn i v m k = if (bn + i <=? k) && (k <? bn + i + Z.of_nat n) then Z.b2z (Z.testbit v (k - bn)) else m k.
Proof.
  induction n as [|n IH]; intros i m k Hi.
  - cbn [set_map]. zcase (bn + i <=? k); zcase (k <? bn + i + Z.of_nat 0); cbn [andb]; try done; lia.
  - cbn [set_map]. rewrite IH by lia. cbv beta. zcase (k =? bn + i).
    + subst k. rewrite map_bit by lia. zcase (bn + (i + 1) <=? bn + i); [lia |]. zcase (bn + i <=? bn + i); [| lia].
      zcase (bn + i <? bn + i + Z.of_nat (Datatypes.S n)); [| lia]. cbn. do 2 f_equal. lia.
    + zcase (bn + (i + 1) <=? k); zcase (bn + i <=? k); try lia; cbn [andb]; try done. zcase (k <? bn + (i + 1) + Z.of_nat n); zcase (k <? bn + i + Z.of_nat (Datatypes.S n)); try done; lia.
Qed.

(** The bits of the map block [x] from block [lo] to [hi], over [m]. *)
Definition map_of (x : block) (lo hi : Z) (m : Z -> Z) (k : Z) : Z :=
  if (lo <=? k) && (k <? hi) then Z.b2z (bit_used x k) else m k.

Lemma set_map_of x bn m k : 0 <= bn -> bn mod 8 = 0 -> set_map 8 bn 0 (getb x (Z.to_nat (bn / 8))) m k = map_of x bn (bn + 8) m k.
Proof.
  intros Hb Hm. rewrite set_map_spec by lia. unfold map_of. rewrite Z.add_0_r. zcase (bn <=? k); zcase (k <? bn + Z.of_nat 8); zcase (k <? bn + 8); cbn [andb]; try done; try lia.
  rewrite bit_used_testbit by lia. do 2 f_equal; [do 2 f_equal |]; Z.to_euclidean_division_equations; lia.
Qed.

Section stats.
Context {S : Type} `{BlockStoreLaws S}.
Implicit Types (s : fstate S).
Variable behind : Z -> Z.
Variable sb : superblock.
Notation size := (sb_size sb).

Definition map_end : Z := 8 * ((size + 7) / 8).

(** Once the map block was read, the rest of the loop only looks at its buffer. *)
Lemma stats_loop_rest s b x : size <= FSSIZE -> buf_data b (store (f_log s)) = x -> forall fuel bn m,
  0 < bn -> bn mod 8 = 0 -> size <= bn + 8 * (Z.of_nat fuel - 1) -> (0 < fuel)%nat ->
  exists m', stats_loop behind fuel sb bn 1 b m s = Ok m' s /\ forall k, m' k = map_of x bn map_end m k.
Proof.
  intros Hsz Hx. unfold FSSIZE in Hsz. assert (He : size <= map_end < size + 8) by (unfold map_end; Z.to_euclidean_division_equations; lia).
  assert (He8 : map_end mod 8 = 0) by (unfold map_end; Z.to_euclidean_division_equations; lia). induction fuel as [|f IH]; intros bn m Hb H8 Hf Hf0; [lia |].
  cbn [stats_loop]. zcase (bn <? size); cbn [negb].
  - rewrite (proj2 (Z.eqb_neq (bn mod BPB) 0)) by (unfold BPB, BSIZE; Z.to_euclidean_division_equations; lia).
    erewrite bind_ok by reflexivity. erewrite bind_ok by reflexivity. cbn [fst snd]. rewrite Hx. unfold data_at.
    rewrite Z.mod_small by (unfold BPB, BSIZE; Z.to_euclidean_division_equations; lia). rewrite (proj2 (Z.ltb_lt _ _)) by (unfold BSIZE; Z.to_euclidean_division_equations; lia).
    destruct (IH (bn + 8) (set_map 8 bn 0 (getb x (Z.to_nat (bn / 8))) m)) as (m' & E & Hm'); [lia | Z.to_euclidean_division_equations; lia | lia | lia |].
    exists m'. split; [exact E |]. intros k. rewrite Hm'. unfold map_of at 1. rewrite set_map_of by lia. unfold map_of.
    assert (bn + 8 <= map_end) by (Z.to_euclidean_division_equations; lia).
    zcase (bn + 8 <=? k); zcase (bn <=? k); zcase (k <? map_end); zcase (k <? bn + 8); cbn [andb]; try done; lia.
  - exists m. split; [done |]. intros k. unfold map_of. assert (map_end <= bn) by (Z.to_euclidean_division_equations; lia).
    zcase (bn <=? k); zcase (k <? map_end); cbn [andb]; try done; lia.
Qed.

Context (g : log) (ds : Z) (Hlay : layout g sb ds).

Lemma stats_loop_ok wr C r D s v fuel m :
  ftx g wr C r D ∅ s v -> size <= 8 * (Z.of_nat fuel - 1) -> (0 < fuel)%nat ->
  exists m' s' v', stats_loop behind fuel sb 0 0 0%nat m s = Ok m' s' /\ ftx g wr C r D ∅ s' v' /\ same_fs s s' /\
    forall k, m' k = map_of (D (sb_bmapstart sb)) 0 map_end m k.
Proof.
  intros T Hf Hf0. destruct fuel as [|f]; [lia |]. pose proof (lay_size _ _ _ Hlay) as Hsz. pose proof (lay_ds _ _ _ Hlay).
  assert (He : size <= map_end < size + 8) by (unfold map_end; Z.to_euclidean_division_equations; lia).
  cbn [stats_loop]. rewrite (proj2 (Z.ltb_lt 0 size)) by lia. cbn [negb]. change (0 mod BPB =? 0) with true. cbv iota. rewrite Z.add_0_r.
  destruct (bread_tx g _ _ _ _ _ _ _ _ T (proj1 (lay_bm _ _ _ Hlay))) as (i & s1 & E1 & T1 & B1 & S1 & D1 & _); [set_solver | by rewrite size_empty; lia |].
  destruct (brelse_tx g _ _ _ _ _ _ _ i (sb_bmapstart sb) T1) as (s2 & E2 & T2 & S2 & _); [set_solver | done |].
  assert (D2 : buf_data i (store (f_log s2)) = D (sb_bmapstart sb)).
  { rewrite <- D1. unfold disk, in_log_, on_st, zoom in E2. destruct (brelse i (store (f_log s1))) as [[] t | |] eqn:E; [| done | done].
    injection E2 as <-. simpl. by apply brelse_data_law. }
  erewrite bind_ok by (erewrite bind_ok by exact E1; erewrite bind_ok by exact E2; reflexivity). erewrite bind_ok by reflexivity. cbn [fst snd]. rewrite D2.
  change (data_at behind (D (sb_bmapstart sb)) ((0 / 8) mod BPB)) with (getb (D (sb_bmapstart sb)) (Z.to_nat (0 / 8))).
  destruct (stats_loop_rest s2 i _ (proj2 Hsz) D2 f (0 + 8) (set_map 8 0 0 (getb (D (sb_bmapstart sb)) (Z.to_nat (0 / 8))) m)) as (m' & E & Hm');
    [lia | done | lia | lia |].
  exists m', s2. eexists. split_and!; [exact E | | by eauto using same_fs_trans |].
  - replace (∅ : gset Z) with (({[sb_bmapstart sb]} ∪ ∅) ∖ {[sb_bmapstart sb]} : gset Z) by set_solver. exact T2.
  - intros k. rewrite Hm'. unfold map_of at 1. rewrite set_map_of by done. unfold map_of.
    assert (8 <= map_end) by (unfold map_end in *; Z.to_euclidean_division_equations; lia).
    zcase (0 + 8 <=? k); zcase (0 <=? k); zcase (k <? map_end); zcase (k <? 0 + 8); cbn [andb]; try done; lia.
Qed.
End stats.

(** ** The counts *)

(** The free blocks of a map. *)
Definition free_blocks (x : block) (size : Z) : list Z := filter (fun b => bit_used x b = false) (seqZ 0 size).

Lemma free_at_least_count x size n : free_at_least x size n <-> (n <= length (free_blocks x size))%nat.
Proof.
  assert (Hin : forall b, b ∈ free_blocks x size <-> bit_used x b = false /\ 0 <= b < size).
  { intros b. unfold free_blocks. rewrite list_elem_of_filter, elem_of_seqZ. intuition lia. }
  split.
  - intros (l & Hnd & Hl & Hn). etransitivity; [exact Hn |]. apply submseteq_length, NoDup_submseteq; [done |]. intros b Hb. apply Hin. destruct (Hl b Hb). done.
  - intros Hn. exists (free_blocks x size). split_and!; [apply list.NoDup_filter, NoDup_seqZ | | done]. intros b Hb. apply Hin in Hb. tauto.
Qed.

Lemma count_blocks_spec x m n : forall i u f, (forall k, i <= k < i + Z.of_nat n -> m k = Z.b2z (bit_used x k)) ->
  let c := Z.of_nat (length (filter (fun b => bit_used x b = false) (seqZ i (Z.of_nat n)))) in
  count_blocks n i m u f = (u + Z.of_nat n - c, f + c).
Proof.
  induction n as [|n IH]; intros i u f Hm c; unfold c; [simpl; f_equal; lia |].
  rewrite seqZ_cons by lia. replace (Z.pred (Z.of_nat (Datatypes.S n))) with (Z.of_nat n) by lia. cbn [count_blocks]. rewrite (Hm i) by lia.
  specialize (IH (i + 1)). cbv zeta in IH. destruct (bit_used x i) eqn:E; simpl (Z.b2z _ =? 1); cbv iota; rewrite IH by (intros; apply Hm; lia); replace (i + 1) with (Z.succ i) by lia.
  - rewrite filter_cons_False by congruence. f_equal; lia.
  - rewrite filter_cons_True by done. cbn [length]. f_equal; lia.
Qed.

(** C22: the statistics are those of the disk.  On a file system of the layout mkfs makes, [getfsstats] returns 1, leaves every
    block and inode as it was and gives back its buffers, and reports the sizes and places the superblock gives (one block of
    free map, the data right behind it) and, for each block, its bit in the free map;
    it stores nothing behind the blocks rounded up to eight.  The used and free blocks that bigtest counts are the set bits and the
    free blocks that allocation can count on: [balloc] has [n] more blocks to give exactly when [n] is at most the free count. *)
Theorem getfsstats_counts {S : Type} `{BlockStoreLaws S} (behind : Z -> Z) (g : log) (sb : superblock) (ds : Z) wr C r D (s : fstate S) v m :
  layout g sb ds -> usable g 1 -> Trunc.super_of (D 1) = sb -> ftx g wr C r D ∅ s v ->
  exists st s' v', getfsstats behind m s = Ok (st, 1) s' /\ ftx g wr C r D ∅ s' v' /\ same_fs s s' /\
    ds_size st = sb_size sb /\ ds_nblock st = sb_nblocks sb /\ ds_ninode st = sb_ninodes sb /\ ds_bmapstart st = sb_bmapstart sb /\
    ds_nlog st = sb_nlog sb /\ ds_logstart st = sb_logstart sb /\ ds_inodestart st = sb_inodestart sb /\
    ds_nbmap st = 1 /\ ds_blockstart st = sb_bmapstart sb + 1 /\
    (forall b, 0 <= b < sb_size sb -> diskmap st b = Z.b2z (bit_used (D (sb_bmapstart sb)) b)) /\
    (forall k, k < 0 \/ 8 * ((sb_size sb + 7) / 8) <= k -> diskmap st k = m k) /\
    (let '(used, free) := count_blocks (Z.to_nat (ds_size st)) 0 (diskmap st) 0 0 in
     used + free = sb_size sb /\ forall n, free_at_least (D (sb_bmapstart sb)) (sb_size sb) n <-> Z.of_nat n <= free).
Proof.
  intros L H1 Hsup T. pose proof (lay_size _ _ _ L) as Hsz. pose proof (lay_ds _ _ _ L). unfold FSSIZE in Hsz.
  destruct (Trunc.readsb_ftx g H1 wr C r D ∅ s v T) as (s1 & v1 & E1 & T1 & S1 & _); [set_solver | by rewrite size_empty; lia |].
  rewrite Hsup in E1. unfold getfsstats. erewrite bind_ok by exact E1.
  destruct (stats_loop_ok behind sb g ds L wr C r D s1 v1 (Datatypes.S (Z.to_nat ((sb_size sb + 7) / 8))) m T1) as (m' & s2 & v2 & E2 & T2 & S2 & Hm');
    [Z.to_euclidean_division_equations; lia | lia |].
  erewrite bind_ok by exact E2. eexists _, s2, v2. split; [reflexivity |]. cbn [ds_size ds_nlog ds_ninode ds_nbmap ds_nblock ds_logstart ds_inodestart ds_bmapstart ds_blockstart diskmap].
  assert (Hb : forall b, 0 <= b < sb_size sb -> m' b = Z.b2z (bit_used (D (sb_bmapstart sb)) b)).
  { intros b Hb. rewrite Hm'. unfold map_of, map_end. rewrite (proj2 (Z.leb_le 0 b)), (proj2 (Z.ltb_lt b _)) by (Z.to_euclidean_division_equations; lia). done. }
  split_and!; try done; [by eauto using same_fs_trans | | | |].
  - by rewrite Z.div_small by (unfold BPB, BSIZE; lia).
  - rewrite Z.div_small by (unfold BPB, BSIZE; lia). done.
  - intros k Hk. rewrite Hm'. unfold map_of, map_end. zcase (0 <=? k); zcase (k <? 8 * ((sb_size sb + 7) / 8)); cbn [andb]; try done; lia.
  - rewrite (count_blocks_spec (D (sb_bmapstart sb))) by (intros k Hk; apply Hb; lia). rewrite Z2Nat.id by lia. fold (free_blocks (D (sb_bmapstart sb)) (sb_size sb)).
    split; [lia |]. intros n. rewrite free_at_least_count. lia.
Qed.

(** On the disk with one file of one block, 60 of the 1000 blocks are in use. *)
Lemma getfsstats_counts_witness :
  exists (s s' : fstate bcache) (st : diskstats), getfsstats (H := bio_store 1) (fun _ => 0) (fun _ => 7) s = Ok (st, 1) s' /\
    ds_nlog st = 30 /\ ds_logstart st = 2 /\ ds_inodestart st = 32 /\ ds_blockstart st = 59 /\
    diskmap st 59 = 1 /\ diskmap st 60 = 0 /\ diskmap st 1000 = 7 /\
    (let '(used, free) := count_blocks (Z.to_nat (ds_size st)) 0 (diskmap st) 0 0 in used + free = 1000).
Proof.
  destruct (boot_on one_disk) as (b & _ & A).
  set (s := FState (LState (set_out 1 demo_log) b) fresh_sb (fun _ => one_inode)).
  assert (T : ftx (H0 := bio_laws 1) demo_log true {[58]} 25 one_disk ∅ s (view_on one_disk)).
  { split; try done. apply linv_set_out. split; [apply demo_geom | done | apply homes_nil, demo_geom | done ..]. }
  destruct (getfsstats_counts (H0 := bio_laws 1) (fun _ => 0) demo_log fresh_sb 59 true {[58]} 25 one_disk s (view_on one_disk) (fun _ => 7))
    as (st & s' & v' & E & _ & _ & Hsz & _ & _ & _ & Hnl & Hls & Hin & _ & Hbs & Hb & Hk & Hc); [exact fresh_layout | | by vm_compute | exact T |].
  - unfold usable, in_log, FSSIZE. change (start demo_log) with 2. change (lsize demo_log) with 30. lia.
  - exists s, s', st. split; [exact E |]. split; [exact Hnl |]. split; [exact Hls |]. split; [exact Hin |]. split; [exact Hbs |]. split; [etransitivity; [exact (Hb 59 ltac:(done)) | by vm_compute] |].
    split; [etransitivity; [exact (Hb 60 ltac:(done)) | by vm_compute] |]. split; [exact (Hk 1000 ltac:(right; by vm_compute)) |].
    destruct (count_blocks _ _ _ _ _). exact (proj1 Hc).
Defined.
