(* ===== verification/LabShebang.v ===== *)
(** * Exercise 07K: exec of scripts

    [exec] of the exercise looks at the first bytes of the file before the ELF header.  A file that begins
    with the two bytes of a shebang is closed, the rest of its first line is the path of an interpreter, and [exec] calls itself with the
    interpreter and the name of the script as arguments.  [depth] is the number of frames of [exec] that fit
    in the kernel stack.  What follows the test is the stock [exec]: [Load.run_file] and [exec_commit]. *)
From S2P Require Import Prelude Mem CString Mmu Kalloc Lock Pipe Ide Bytes Bio BlockStore Log LogSys Fs FsSys FsTx FsFile FsDir FsTrunc Mkfs FsPath Proc Uaccess File Exec Vm VmSpace VmUser ExecSys.
#[local] Open Scope Z_scope.

Definition INTERP_SIZE : nat := 16.

(** [for(i = 0; i < sizeof(interp_path); i++)]: the first newline of the array becomes a NUL. *)
Fixpoint end_at_newline (n : nat) (b : list Z) : list Z :=
  match n, b with
  | Datatypes.S n', c :: b' => if c =? 10 then 0 :: b' else c :: end_at_newline n' b'
  | _, _ => b
  end.

(** The string at the start of some memory. *)
Fixpoint string_at (b : list Z) : list Z :=
  match b with [] => [] | c :: b' => if c =? 0 then [] else c :: string_at b' end.

(** The path made of the bytes read, [junk] being the stack from the array on before the read. *)
Definition interp_path (junk read : list Z) : list Z :=
  string_at (end_at_newline INTERP_SIZE (read ++ drop (length read) junk)).

Section code.
Context {S : Type} `{BlockStore S}.
Variable kend kdata : Z.
Variable devread : Z -> option (nat -> Z -> M (fstate S) (Z * list Z)).
(** What the stack holds from [interp_path] on, in the frame that leaves room for so many more. *)
Variable junk : nat -> list Z.
Notation MW := (M (world S)).
Notation MP := (M (ptable (world S))).

Definition is_script (x : list Z) : bool := (getb x 0 =? 35) && (getb x 1 =? 33).

(** Up to the commit: the path that was loaded in the end and its image; [None] when the stack is too small. *)
Fixpoint script_image (depth : nat) (p : proc) (path : list Z) (argv : list (list Z)) :
    MW (option (list Z * option (Z * Z * Z * Z))) :=
  match depth with
  | O => mret None
  | Datatypes.S d =>
      op_begin ;;
      o ← in_fs (namei devread (pid p) (idx (cwd p)) path) ;
      match o with
      | None => op_end ;; mret (Some (path, None))
      | Some ip =>
          in_fs (ilock (pid p) ip) ;;
          r ← in_fs (readi devread ip 0 3) ;
          if negb (r.1 =? 3) then exec_bad kend (pid p) 0 (Some ip) ;; mret (Some (path, None))
          else if is_script r.2 then
            q ← in_fs (readi devread ip 2 (Z.of_nat INTERP_SIZE)) ;
            in_fs (iunlockput (pid p) ip) ;;
            op_end ;;
            let interp := interp_path (junk d) q.2 in
            script_image d p interp [interp; path]
          else
            o ← Load.run_file kend kdata devread (pid p) ip argv ;
            mret (Some (path, o))
      end
  end.

Definition exec (depth c : nat) (path : list Z) (argv : list (list Z)) : MP Z :=
  o ← myproc c ;
  match o with
  | None => panic "null dereference"
  | Some i =>
      p ← the_proc i ;
      o ← on_w (script_image depth p path argv) ;
      match o with
      | None => panic "kernel stack overflow"
      | Some (_, None) => mret (-1)
      | Some (path', Some r) => exec_commit kend c i p path' r
      end
  end.
End code.

(** ** The interpreter line *)

Lemma end_at_newline_line I : forall n rest, (length I < n)%nat -> 10 ∉ I ->
  end_at_newline n (I ++ 10 :: rest) = I ++ 0 :: rest.
Proof.
  induction I as [|c I IH]; intros n rest Hn HI; (destruct n as [|n]; [simpl in Hn; lia |]); [done |]. simpl.
  rewrite (proj2 (Z.eqb_neq c 10)) by set_solver. f_equal. apply IH; [simpl in Hn; lia | set_solver].
Qed.

Lemma string_at_nul I rest : 0 ∉ I -> string_at (I ++ 0 :: rest) = I.
Proof. induction I as [|c I IH]; intros HI; [done |]. simpl. rewrite (proj2 (Z.eqb_neq c 0)) by set_solver. f_equal. apply IH. set_solver. Qed.

(** A first line of at most 15 bytes after the shebang is the path, whatever follows it and whatever was on the stack. *)
Lemma interp_path_line junk I rest : (length I < INTERP_SIZE)%nat -> 10 ∉ I -> 0 ∉ I ->
  interp_path junk (take INTERP_SIZE (I ++ 10 :: rest)) = I.
Proof.
  intros Hl H10 H0. unfold interp_path. rewrite take_app_ge by lia. replace (INTERP_SIZE - length I)%nat with (Datatypes.S (INTERP_SIZE - length I - 1)) by lia.
  cbn [take]. rewrite <- (assoc_L (++)). cbn [app]. rewrite end_at_newline_line by done. by apply string_at_nul.
Qed.

(** ** What exec does *)

(** The process table in another world. *)
Definition in_world {W W' : Type} (st : ptable W) (w : W') : ptable W' := PT (procs st) (initproc st) (nextpid st) (cur st) (pos st) w.

(** The interpreter that a script with contents [data] names, as exec takes it from the first line. *)
Definition interpreter (junk data : list Z) : list Z := interp_path junk (take INTERP_SIZE (drop 2 data)).

Section script.
Context {S : Type} `{BlockStoreLaws S}.
Variable kend kdata : Z.
Hypothesis Hkend : KERNLINK <= kend.
Variable g : log.
Variable sb : superblock.
Variable ds : Z.
Context (Hlay : layout g sb ds).
Variable devread : Z -> option (nat -> Z -> M (fstate S) (Z * list Z)).
Variable D : Z -> block.
Hypothesis Hkdata : KERNLINK < kdata < P2V PHYSTOP /\ kdata mod PGSIZE = 0.
Variable junk : nat -> list Z.
Implicit Types (w : world S).

Notation script_image := (script_image kend kdata devread junk).

Lemma settled_closed c0 ip w w2 w3 t :
  Load.rest w w2 -> i_inum (c0 ip) = t -> (forall n, Path.refs c0 n = Path.refs (icache (w_fs w)) n + (if t =? n then 1 else 0)) ->
  Load.rest w2 w3 -> Load.fs_calm g sb D w3 -> Path.moved sb D c0 (icache (w_fs w3)) (i_inum (c0 ip)) None -> Load.settled g sb D w w3.
Proof.
  intros Q2 <- Hrefs Q3 Hc [_ Mv]. split; [by eapply Load.rest_trans |]. split; [done |]. intros n. rewrite Mv, Hrefs. lia.
Qed.

(** How [exec] goes on with a file: it fails, calls itself, or loads the file. *)
Lemma script_image_ok d p path argv w l :
  Load.ready g sb ds D p path w -> free_inv kend (w_mem w) l -> Load.need argv + 4 * (4 + Z.of_nat (length argv)) <= 8192 ->
  match Load.named sb D p path w with
  | None => exists w', script_image (Datatypes.S d) p path argv w = Ok (Some (path, None)) w' /\ Load.settled g sb D w w' /\ w_mem w' = w_mem w
  | Some t =>
      let data := Load.contents D (Path.node sb D t) in
      if Z.of_nat (length data) <? 3 then
        exists w', script_image (Datatypes.S d) p path argv w = Ok (Some (path, None)) w' /\ Load.settled g sb D w w' /\ w_mem w' = w_mem w
      else if is_script data then
        exists w', script_image (Datatypes.S d) p path argv w = script_image d p (interpreter (junk d) data) [interpreter (junk d) data; path] w' /\
          Load.settled g sb D w w' /\ w_mem w' = w_mem w
      else exists o w', script_image (Datatypes.S d) p path argv w = Ok (Some (path, o)) w' /\ Load.settled g sb D w w' /\
          Load.exec_outcome kend kdata sb D p path argv l o w w'
  end.
Proof.
  intros Hr Hf Hneed. pose proof (Load.open_ok g sb ds Hlay devread D p path w Hr) as Ho. pose proof (Load.re_file _ _ _ _ _ _ _ Hr) as Hfile. fold (Load.named sb D p path w) in Hfile.
  cbn [LabShebang.script_image]. destruct (Load.named sb D p path w) as [t|] eqn:En.
  2: { destruct Ho as (w1 & w2 & E1 & E2 & Hs & M2). apply bind_inv in E1 as (? & w0 & E0 & E1).
       erewrite bind_ok by exact E0. erewrite bind_ok by exact E1. cbv iota beta. erewrite bind_ok by exact E2. by exists w2. }
  destruct Ho as (ip & w1 & w2 & c0 & E1 & E2 & Ho2 & Hi2 & Q2 & M2 & Hrefs). apply bind_inv in E1 as (? & w0 & E0 & E1).
  erewrite bind_ok by exact E0. erewrite bind_ok by exact E1. cbv iota beta. erewrite bind_ok by exact E2.
  destruct (Hfile t eq_refl) as [Hreg Hb]. set (data := Load.contents D (Path.node sb D t)) in *.
  assert (Hdata : Load.contents D (Path.held sb (pid p) D (c0 ip)) = data) by (unfold data; by rewrite <- Hi2).
  assert (Hlen : Z.of_nat (length data) < 2 ^ 31).
  { unfold data, Load.contents. rewrite Load.length_fbytes. pose proof (rg_size _ _ _ _ Hreg). pose proof max_bytes. lia. }
  destruct (Load.read_step g sb ds Hlay devread D ip _ _ w2 0 3 (proj1 Ho2)) as (w3 & E3 & R3 & Q3 & M3); [lia | lia |]. rewrite Hdata in E3.
  assert (Ho3 : Load.opened g sb ds D (pid p) c0 ip w3) by (split; [done | apply Ho2]). erewrite bind_ok by exact E3.
  pose proof (Load.rest_trans _ _ _ Q2 Q3) as Q23. cbv zeta. destruct (Z.ltb_spec (Z.of_nat (length data)) 3) as [Hs | Hs].
  { pose proof (Load.file_read_short data 0 3) as Hk. rewrite (proj2 (Z.eqb_neq _ _)) by (apply Hk; lia). cbn [negb].
    destruct (Load.bad_file kend g sb ds D (pid p) c0 ip w3 Ho3) as (w4 & E4 & Q4 & M4 & Hc4 & Mv4). erewrite bind_ok by exact E4.
    exists w4. split_and!; [done | by eapply settled_closed | congruence]. }
  rewrite (Load.file_read_whole data 0 3) by lia. cbn [fst snd]. change (3 =? 3) with true. cbn [negb].
  assert (Esc : is_script (Load.part data 0 3) = is_script data) by (unfold Load.part; by destruct data as [|? [|? [|? ?]]]). rewrite Esc.
  destruct (is_script data).
  - destruct (Load.read_step g sb ds Hlay devread D ip _ _ w3 2 (Z.of_nat INTERP_SIZE) R3) as (w4 & E4 & R4 & Q4 & M4); [lia | done |]. rewrite Hdata in E4.
    assert (Ho4 : Load.opened g sb ds D (pid p) c0 ip w4) by (split; [done | apply Ho2]). erewrite bind_ok by exact E4.
    destruct (Load.close_ok g sb ds D (pid p) c0 ip w4 Ho4) as (w5 & w6 & E5 & E6 & Q6 & M6 & Hc6 & Mv6).
    erewrite bind_ok by exact E5. erewrite bind_ok by exact E6. cbv zeta.
    assert (Eq : (Load.file_read data 2 (Z.of_nat INTERP_SIZE)).2 = take INTERP_SIZE (drop 2 data)).
    { unfold Load.file_read. rewrite (proj2 (Z.ltb_ge _ 2)) by lia. change (2 +u Z.of_nat INTERP_SIZE <? 2) with false. cbn [orb snd]. change (Z.to_nat 2) with 2%nat.
      destruct (Z.min_spec (Z.of_nat INTERP_SIZE) (Z.of_nat (length data) - 2)) as [[? ->] | [? ->]]; [by rewrite Nat2Z.id |].
      rewrite !firstn_all2; [done | rewrite length_drop; lia ..]. }
    rewrite Eq. exists w6. split_and!; [done | | congruence]. eapply settled_closed; [exact Q23 | exact Hi2 | exact Hrefs | by eapply Load.rest_trans | done | done].
  - rewrite <- M2, <- M3 in Hf. rewrite <- Hdata in Hb.
    destruct (Load.run_file_ok kend kdata Hkend g sb ds Hlay devread D Hkdata (pid p) c0 ip argv w3 l Ho3 Hf Hb Hneed) as (o & w4 & E4 & (Q4 & Hc4 & Mv4) & Hout).
    erewrite bind_ok by exact E4. exists o, w4. split_and!; [done | by eapply settled_closed |]. rewrite Hdata in Hout.
    unfold Load.file_outcome, Load.mem_back in Hout. unfold Load.exec_outcome, Load.mem_back. rewrite En. rewrite M3, M2 in Hout. destruct o as [[[[pg top] eip] sp]|].
    + destruct Hout as (u & l' & tabs & frames & Hp & Hout). by exists t, u, l', tabs, frames.
    + destruct Hout as [Hm Hfew]. split; [done |]. intros t' top eip sp u [= <-]. apply Hfew.
Qed.
End script.

(** C21: exec of a script hands over to its interpreter.  When the file at [path] begins with the shebang and its first line goes on
    with [I], of at most 15 bytes without NULs, exec closes it and behaves as exec of [I] with the arguments [I] and [path], whatever
    the arguments of the script were, from a state in which the file system, the inode references, open files, processes and memory
    are as before.  A file of fewer than three bytes is refused with -1, and any other file is loaded, or refused, as by the
    stock exec. *)
Theorem exec_script {S : Type} `{BlockStoreLaws S} (kend kdata : Z) (g : log) (sb : superblock) (ds : Z)
    (devread : Z -> option (nat -> Z -> M (fstate S) (Z * list Z))) (D : Z -> block) (junk : nat -> list Z)
    (d c i : nat) (path : list Z) (argv : list (list Z)) (st : ptable (world S)) (l : list Z) (t : Z) :
  KERNLINK <= kend -> KERNLINK < kdata < P2V PHYSTOP /\ kdata mod PGSIZE = 0 -> layout g sb ds ->
  let p := procs st i in let w := Proc.world st in let data := Load.contents D (Path.node sb D t) in
  cur st c = Some i -> Load.ready g sb ds D p path w -> free_inv kend (w_mem w) l ->
  Load.need argv + 4 * (4 + Z.of_nat (length argv)) <= 8192 -> Load.named sb D p path w = Some t ->
  exists w', Load.settled g sb D w w' /\
    (forall I text, data = [35; 33] ++ I ++ 10 :: text -> (length I < INTERP_SIZE)%nat -> 10 ∉ I -> 0 ∉ I -> w_mem w' = w_mem w /\
       exec kend kdata devread junk (Datatypes.S d) c path argv st = exec kend kdata devread junk d c I [I; path] (in_world st w')) /\
    ((length data < 3)%nat -> w_mem w' = w_mem w /\ exec kend kdata devread junk (Datatypes.S d) c path argv st = Ok (-1) (in_world st w')) /\
    ((3 <= length data)%nat -> is_script data = false -> exists o, Load.exec_outcome kend kdata sb D p path argv l o w w' /\
      exec kend kdata devread junk (Datatypes.S d) c path argv st =
        match o with None => Ok (-1) (in_world st w') | Some r => exec_commit kend c i p path r (in_world st w') end).
Proof.
  intros Hke Hkd L p w data Hcur Hr Hf Hneed Hn.
  pose proof (script_image_ok kend kdata Hke g sb ds L devread D Hkd junk d p path argv w l Hr Hf Hneed) as Hs. rewrite Hn in Hs. fold data in Hs. cbv zeta in Hs.
  set (k := fun o => match o with None => panic "kernel stack overflow" | Some (_, None) => mret (-1) | Some (path', Some r) => exec_commit kend c i p path' r end : M (ptable (world S)) Z).
  assert (Hex : forall e pa av st', procs st' = procs st -> cur st' = cur st ->
    exec kend kdata devread junk e c pa av st' = (on_w (script_image kend kdata devread junk e p pa av) ≫= k) st').
  { intros e pa av st' Hp Hc. unfold exec. erewrite bind_ok by reflexivity. rewrite Hc, Hcur. erewrite bind_ok by reflexivity. by rewrite Hp. }
  assert (Hrun : forall o w', script_image kend kdata devread junk (Datatypes.S d) p path argv w = Ok o w' ->
    exec kend kdata devread junk (Datatypes.S d) c path argv st = k o (in_world st w')).
  { intros o w' E. rewrite Hex by done. erewrite bind_ok; [reflexivity |]. unfold on_w, zoom. fold w. by rewrite E. }
  assert (Hsc : forall I text, data = [35; 33] ++ I ++ 10 :: text -> (3 <= length data)%nat /\ is_script data = true).
  { intros I text ->. split; [rewrite !length_app; simpl; lia | done]. }
  destruct (Z.ltb_spec (Z.of_nat (length data)) 3) as [Hl | Hl].
  - destruct Hs as (w' & E & Hset & M). exists w'. split_and!; [done | | | lia].
    + intros I text Hd. apply Hsc in Hd. lia.
    + intros _. split; [done | by apply (Hrun _ _ E)].
  - destruct (is_script data).
    + destruct Hs as (w' & E & Hset & M). exists w'. split_and!; [done | | lia | done]. intros I text Hd HI H10 H0'. split; [done |].
      assert (Ei : interpreter (junk d) data = I) by (unfold interpreter; rewrite Hd; by apply interp_path_line).
      rewrite Ei in E. rewrite !Hex by done. unfold mbind, M_bind, on_w, zoom. cbn [Proc.world in_world procs initproc nextpid cur pos]. fold w. by rewrite E.
    + destruct Hs as (o & w' & E & Hset & Ho). exists w'. split_and!; [done | | lia |].
      * intros I text Hd. by apply Hsc in Hd as [_ ?].
      * intros _ _. exists o. split; [done |]. rewrite (Hrun _ _ E). by destruct o.
Qed.

(** ** A script on a disk made by mkfs *)

Definition demo_script : list Z := [35; 33; 47; 97; 10; 108; 115; 10].
Definition script_host (name : list Z) : option (list (list Z)) :=
  if bool_decide (name = [97]) then Some [demo_elf] else if bool_decide (name = [115]) then Some [demo_script] else None.

Lemma script_host_usable : Forall (Mkfs.usable_file script_host) [[97]; [115]].
Proof.
  apply list.Forall_cons_2; [| apply list.Forall_singleton]; (split; [unfold slash; rewrite list_elem_of_singleton; lia | | done]).
  - exists [demo_elf]. split; [done | by repeat constructor].
  - exists [demo_script]. split; [done | by repeat constructor].
Qed.

Lemma exec_script_witness :
  exists (st : ptable (world bcache)) (w' : world bcache), w_mem w' = w_mem (Proc.world st) /\
    exec (H := bio_store 1) KERNLINK (KERNLINK + 4096) (fun _ => None) (fun _ => []) 2 0 [slash; 115] [[115]; [120]] st =
    exec (H := bio_store 1) KERNLINK (KERNLINK + 4096) (fun _ => None) (fun _ => []) 1 0 [slash; 97] [[slash; 97]; [slash; 115]] (in_world st w').
Proof.
  destruct demo_memory as (m & l & pg & tabs & Hs & Hlen).
  destruct (Mkfs.image_formatted script_host [[97]; [115]]) as (im & _ & HF); [exact script_host_usable | done | done | done |].
  set (d := Mkfs.sect im) in *. edestruct (Path.formatted_tree d [[97]; [115]]) as [Ht Hroot]; [| | exact HF |]; [done | done |].
  destruct (boot_on d) as (b & _ & A). set (s := FState (LState demo_log b) Mkfs.super Path.init_cache).
  set (w := World s (fun _ => File FD_NONE 0 false false 0 0 0) (fun _ => Pipe [] 0 0 true true) m 0 (fun _ => MMRegs 0 0 0 0) []).
  set (p := set_cwd (ptr 0) (set_kstack 4096 (set_pgdir pg proc_zero))).
  set (st := PT (fun _ => p) None 1 (fun _ => Some 0%nat) (fun _ => 0%nat) w).
  assert (Hw : Path.walk Mkfs.super d false ROOTINO [[115]] = Some 3).
  { cbn [Path.walk andb]. destruct (Mkfs.fm_root _ _ _ _ HF) as (Hd & _ & n & Hl). change (Path.node Mkfs.super d ROOTINO) with (Mkfs.disk_inode d ROOTINO).
    rewrite (Dir.dr_type _ _ _ _ Hd), Hl. unfold Dir.find. rewrite list_find_app_l with (i := 3%nat) (x := (3, strncpy_l DIRSIZ [115])); done. }
  destruct (Mkfs.fm_file _ _ _ _ HF 1 demo_script eq_refl) as (Hreg & _ & _ & Hsz & Hby).
  assert (Hdata : Load.contents d (Path.node Mkfs.super d 3) = demo_script).
  { unfold Load.contents. change (Path.node Mkfs.super d 3) with (Mkfs.disk_inode d (Z.of_nat 1 + 2)). by rewrite Hsz, Nat2Z.id. }
  assert (Hr : Load.ready (H0 := bio_laws 1) demo_log Mkfs.super Mkfs.first_data d p [slash; 115] w).
  { split; try done.
    - split; [exists (view_on d) | done | exact (Path.init_cache_ok d Hroot)]. split; try done.
      split; [apply demo_geom | done | apply homes_nil, demo_geom | done | done |].
      change (length (d 2) = 512%nat /\ hdr_n (d 2) = 0). by rewrite (Mkfs.fm_log _ _ _ _ HF 2).
    - change (idx (cwd p)) with 0%nat. split; [unfold NINODE; lia | done].
    - intros t. change (Path.origin _ _ _) with ROOTINO. change (take DIRSIZ <$> FsSys.elements [slash; 115]) with [[115]]. rewrite Hw. intros [= <-].
      rewrite Hdata. split; [exact Hreg | by repeat constructor]. }
  destruct (exec_script (H0 := bio_laws 1) KERNLINK (KERNLINK + 4096) demo_log Mkfs.super Mkfs.first_data (fun _ => None) d (fun _ => []) 1 0 0 [slash; 115] [[115]; [120]] st l 3)
    as (w' & _ & Hsc & _); [lia | done | exact Mkfs.image_layout | done | exact Hr | apply Hs | done | exact Hw |].
  destruct (Hsc [slash; 97] [108; 115; 10]) as [Hm He]; [by rewrite Hdata | unfold INTERP_SIZE; simpl; lia | | |].
  - unfold slash. rewrite !elem_of_cons, elem_of_nil. lia.
  - unfold slash. rewrite !elem_of_cons, elem_of_nil. lia.
  - exists st, w'. split; [exact Hm | exact He].
Defined.
